(* ===== verification/_CoqProject ===== *)
-Q . S2P
Prelude.v
Thrift.v
WorkerSet.v
Dynamic.v
Backoff.v
TaskStatus.v
SymbolTable.v
Snapshot.v
WorkerState.v
RemoteWorker.v
RemoteWorkers.v
Scheduling.v
Config.v
Jobs.v
Cron.v
CronItem.v
CronZone.v
Selectors.v
Resources.v
Runner.v
RunnerStories.v
RunnerSafety.v
RunnerTasks.v
Scheduler.v
Subprocess.v
Worker.v
WorkerTasks.v
WorkerProtocol.v
Pipes.v
NodeFetchers.v
Bistro.v
Poller.v
JobConfig.v
ThriftJob.v
Settings.v
Cgroups.v
Logs.v
Monitor.v
Http.v
ThriftMonitor.v
Physical.v
History.v
Propagation.v
