(* ===== verification/Prelude.v ===== *)
(** * A verification of the Bistro scheduler

    Bistro (src/bistro) is a fault-tolerant task scheduler.  A configuration
    gives jobs and a tree of nodes; the scheduler runs each job on each node
    it applies to (a task), within the resources of the nodes, on remote
    workers.  Workers report by heartbeats, run tasks as subprocesses and send
    back statuses and logs.  This library models the scheduler, the worker and
    the protocol between them, from the parsing of the configuration to the
    interfaces that users call.

    ** Files

    Foundations:
    - [Prelude]: outcomes of C++ code (return, exception, abort, undefined
      behaviour) as a monad, loops over lists, wrap-around integers, tactics
      and hints.
    - [Thrift]: the structs of if/common.thrift that the components exchange.
    - [Dynamic]: folly::dynamic values (JSON).
    - [SymbolTable]: utils/SymbolTable.h, names to indices.

    Statuses of tasks:
    - [Backoff]: config/JobBackoffSettings, the retry durations of a job.
    - [TaskStatus]: statuses/TaskStatus, status bits, updates, parsing.
    - [Snapshot]: statuses/TaskStatusSnapshot and TaskStatuses, the table of
      all statuses and the map of running tasks.

    Configuration:
    - [Config]: the resource tables of config/Config.cpp.
    - [Settings]: the rest of the constructor of Config.
    - [Jobs]: config/JobFilters and what the scheduler asks a job.
    - [JobConfig]: config/Job.cpp and config/parsing_common, jobs from and to
      JSON, against the interface [DynamicParser] of folly's parser.
    - [ThriftJob]: thrift/ThriftConversion.cpp, config/ConfigLoader.cpp.
    - [Poller]: utils/PeriodicPoller.h and config/FileConfigLoader.cpp.
    - [Cron], [CronItem], [CronZone]: cron/, selectors, items, time zones.
    - [NodeFetchers]: nodes/, the tree of nodes and all its sources.

    Scheduling:
    - [Scheduling]: config/Node, scheduler/utils.cpp and the policies.
    - [Scheduler]: scheduler/Scheduler.cpp, a whole round.
    - [Bistro]: Bistro.cpp, the main loop, against the interface [TaskRunner].

    Workers as the scheduler sees them:
    - [WorkerSet]: remote/WorkerSetID.h, hashes and versions of worker sets.
    - [WorkerState]: remote/RemoteWorkerState and RemoteWorkerUpdate.h.
    - [RemoteWorker]: remote/RemoteWorker.  The callbacks it is built with are
      the class [WorkerCobs]; what it needs of them is the class [CobLaws].
    - [RemoteWorkers]: remote/RemoteWorkers, the pool, the history of the
      worker set, consensus and the initial wait.  It implements [WorkerCobs]
      and proves [CobLaws].  [History] has what the history stands for, and its
      pruning; [Propagation] the propagation of sets along it.
    - [Selectors]: the two remote worker selectors.
    - [Resources], [Runner]: runners/RemoteWorkerRunner.cpp, the resources of
      the workers and every operation.  [RunnerStories], [RunnerSafety] and
      [RunnerTasks] have its runs, its invariant in every interleaving, and
      the start of a task.

    The worker:
    - [Worker]: worker/BistroWorkerHandler.cpp, split at its critical sections.
      [WorkerTasks] interleaves its calls, callbacks and threads;
      [WorkerProtocol] connects it with the scheduler by a network that delays,
      reorders and loses requests.
    - [Subprocess]: processes/TaskSubprocessQueue, tasks and kill requests.
    - [Pipes]: processes/AsyncReadPipe.h and its rate limiter.
    - [Cgroups]: processes/AsyncCGroupReaper.cpp and CGroupSetup.cpp.
    - [Physical]: physical/, what a worker measures.
    - [Logs]: utils/LogLines.h, LogWriter.cpp, and how the scheduler merges the
      logs of its workers into pages.

    What users see:
    - [Monitor]: monitor/Monitor, histograms and errors.
    - [Http]: server/HTTPMonitor.cpp, against the interfaces [JobBackend] and
      [TaskRunner].
    - [ThriftMonitor]: server/ThriftMonitor.cpp.

    ** How the code is modelled

    A C++ object is a record, a method a function from the old object to an
    [outcome] of the new one and the result.  [CHECK] and [LOG(FATAL)] are
    [Crash], exceptions are [Throw], reads out of range and overflowing
    conversions are [Undef]; a [noexcept] function turns [Throw] into [Crash].
    Where an exception leaves a changed object behind, the function returns the
    object and an [outcome].  The time is an argument.  Log messages are dropped.

    What runs under one lock is one definition; a call that releases a lock
    between two parts is two, and concurrency is the interleaving of these
    parts: step relations in [RunnerSafety], [WorkerTasks], [WorkerProtocol],
    [Pipes] and [Cgroups], with invariants by rule induction.  Requests are
    values and replies are steps, so that a network may reorder and lose them.

    Versions and hashes of worker sets are 64-bit words with their wrap-around,
    status bits and line IDs are words with bit operations, resource amounts are
    32-bit with overflow undefined; other integers are unbounded.  A double is a
    [SpecFloat] number where the code computes with it (resources, durations) and
    a rational where it only compares or stores it (priorities, fractions).
    Hash maps are finite maps where their order does not matter; where it does,
    the order is a list or a function that permutes the entries.

    folly's JSON reader and conversions, regular expressions, hashes, the
    calendar and the time zones, SQLite, the files of cgroups, the task store,
    sorting, shuffling and random draws are parameters or classes; what a
    theorem assumes of them is stated in a class of laws or as a hypothesis, and
    each such theorem is applied to concrete functions.

    ** What the theorems show

    - Statuses: [update] follows the configured back-off; parsing a task's
      report returns a sane status for every string and inverts the encoding.
      The table and the map of running tasks agree after every operation;
      results are persisted exactly once.
    - Configuration: whatever JSON is read without errors gives well-formed
      levels, overrides and physical resources, and consistent tables if no
      resource is in two levels; jobs and filters survive writing and reading,
      as JSON and as Thrift structs, as far as the formats can express them; a
      poller hands out what it saw last; the nodes form a tree; a cron item
      whose ranges are not reversed finds the first time that matches, and the
      search ends.
    - Scheduling: each policy terminates and takes exactly the resources of the
      tasks that ran.  With limits and uses that fit an int, a round hands to
      the runner exactly tasks that may run; the main loop kills exactly the
      orphans whose time has come.
    - Workers: versions compare like unbounded counters; heartbeats and updates
      keep the scheduler's records in agreement with its workers and trip no
      check as long as workers echo sets they were given, and lost ones nothing
      new; consensus is safe; pruning keeps every set that a worker may refer
      to; propagation gives a worker only sets that it depends on, and misses no
      direct dependency; a worker gives itself up no later than the scheduler
      does, up to the time that a heartbeat takes.
    - The runner and the worker: in every interleaving that the guards of
      [rstep] admit the two records of running tasks agree, and a report ends
      the process only if the task store throws; a task that a worker took is at
      exactly one place; a task that was reported as not running is never
      started afterwards; the resources that are charged are those that are
      recomputed, cards of each model included.
    - Processes: kill deadlines are met; pipes close once; the reaper, from its
      first call on, kills only frozen processes, and finishes with a responsive
      kernel; cgroups are made entirely or not at all, except for directories
      whose removal fails, which are reported; measured limits and graphics
      cards are exact.
    - Interfaces: pages of logs hold every line once if no line is filtered out
      and all workers answer; histograms count exactly the nodes with some bits
      if the names of nodes differ, and can be read back from their JSON; every
      request is answered if the nodes fit the configuration, and one that only
      reads changes nothing.
    - The conditions of a theorem are in its statement and named in its comment.
      Where the code does not ensure them, another theorem shows what happens
      then.
    - Some theorems show what goes wrong at the edges: aborts that a report, a
      late reply or a resource limit can cause, a range of integers that is
      never parsed to its end, log lines that a filter hides or a page repeats.

    ** Bounds and fuel

    The policies' outer loops and the propagation along the history recurse on
    fuel; the policies start with the number of jobs and nodes left, which
    [policies_account] shows is enough, and the propagation with the number of
    workers, which [inner_ok] shows is enough.  The search for a label has the code's
    own limit of 50 iterations, of which 13 are enough for the items of
    [label_search_returns]; the search for a timestamp has 64 steps.  The loop
    of [add_time] gets one more step than an item's lifetime has seconds, a
    client of the logs more steps than there are lines, and [parseIntSet] as many
    as a range has numbers; the theorems show that these are enough.  Theorems on
    worker sets assume versions below 2^62, far from the wrap-around that
    [version_order] treats.

    ** Not modelled

    - The thrift and HTTP servers and the start of the programs: sockets and
      event loops of libraries.
    - [sqlite/] and [SQLiteTaskStore.cpp]: a wrapper of SQLite; the store and the
      log database are parameters with laws.
    - [LocalRunner], [BenchmarkRunner]: they run tasks in the scheduler's own
      process and add a thread to the operations of [Subprocess].
    - [AsyncSubprocess.h] and [SubprocessOutputWithTimeout.cpp]: fork, exec and
      polling, whose behaviour is that of the operating system.
    - The bodies of background threads, temporary files, socket and host name
      helpers in [utils/], flags.
    - The web interface, Python tools, benchmarks and build files. *)

From stdpp Require Import base gmap strings list sorting fin_maps.
From Stdlib Require Import ZArith Lia.

Declare Scope bistro_scope.
Delimit Scope bistro_scope with bistro.

#[global] Open Scope Z_scope.

(** * Outcomes of C++ code

    A C++ call returns, throws an exception, ends the process (a failed
    [CHECK], a [LOG(FATAL)]) or runs into undefined behaviour. *)
Inductive outcome (A : Type) : Type :=
| Ret (a : A)
| Throw (msg : string)
| Crash (msg : string)
| Undef (msg : string).
Arguments Ret {A} _.
Arguments Throw {A} _.
Arguments Crash {A} _.
Arguments Undef {A} _.

#[global] Instance outcome_ret : MRet outcome := @Ret.
#[global] Instance outcome_bind : MBind outcome :=
  fun A B f m =>
    match m with
    | Ret a => f a
    | Throw e => Throw e
    | Crash e => Crash e
    | Undef e => Undef e
    end.

#[global] Instance outcome_eq_dec {A} `{EqDecision A} : EqDecision (outcome A).
Proof. solve_decision. Defined.

(** glog's [CHECK(b) << msg]. *)
Definition CHECK (b : bool) (msg : string) : outcome unit :=
  if b then Ret tt else Crash msg.

(** [if (!b) throw ...]. *)
Definition require (b : bool) (msg : string) : outcome unit :=
  if b then Ret tt else Throw msg.

Notation "'let*' x := m 'in' k" := (@mbind outcome _ _ _ (fun x => k) m)
  (at level 10, x pattern, m at level 100, k at level 200,
   format "'[v' let*  x  :=  m  in '/' k ']'") : bistro_scope.
Notation "m ';;;' k" := (@mbind outcome _ _ _ (fun _ => k) m)
  (at level 100, right associativity) : bistro_scope.
#[global] Open Scope bistro_scope.

(** A range-for loop whose body may fail: the state is threaded through. *)
Fixpoint foldM {A B} (f : B -> A -> outcome B) (b : B) (l : list A) : outcome B :=
  match l with
  | [] => Ret b
  | a :: l' => let* b' := f b a in foldM f b' l'
  end.

Definition is_ret {A} (m : outcome A) : bool :=
  match m with Ret _ => true | _ => false end.

Lemma bind_Ret_iff {A B} (m : outcome A) (f : A -> outcome B) (b : B) :
  (m ≫= f) = Ret b <-> exists a, m = Ret a /\ f a = Ret b.
Proof.
  split.
  - destruct m; simpl; intros H; try discriminate; eauto.
  - intros (a & -> & H). exact H.
Qed.

Lemma CHECK_Ret b msg u : CHECK b msg = Ret u <-> b = true.
Proof. unfold CHECK; destruct b, u; split; congruence. Qed.

Lemma require_Ret b msg u : require b msg = Ret u <-> b = true.
Proof. unfold require; destruct b, u; split; congruence. Qed.

Lemma CHECK_true b msg : b = true -> CHECK b msg = Ret tt.
Proof. intros ->. reflexivity. Qed.

Lemma foldM_app {A B} (f : B -> A -> outcome B) b l1 l2 :
  foldM f b (l1 ++ l2) = let* b' := foldM f b l1 in foldM f b' l2.
Proof.
  revert b; induction l1 as [|a l1 IH]; intros b; [reflexivity|].
  simpl. destruct (f b a); simpl; auto.
Qed.

(** Rule induction for loops: an invariant the body keeps holds at the end. *)
Lemma foldM_inv {A B} (P : B -> Prop) (f : B -> A -> outcome B) l b b' :
  (forall a c c', a ∈ l -> P c -> f c a = Ret c' -> P c') ->
  P b -> foldM f b l = Ret b' -> P b'.
Proof.
  revert b; induction l as [|a l IH]; intros b Hf Hb; simpl.
  - intros [= <-]. exact Hb.
  - rewrite bind_Ret_iff. intros (c & Hc & Hl).
    eapply IH; [| |exact Hl].
    + intros x d d' Hx. apply Hf. by right.
    + eapply Hf; [|exact Hb|exact Hc]. by left.
Qed.

(** A loop whose body never fails under an invariant returns, and keeps it. *)
Lemma foldM_total {A B} (P : B -> Prop) (f : B -> A -> outcome B) l b :
  (forall a c, a ∈ l -> P c -> exists c', f c a = Ret c' /\ P c') ->
  P b -> exists b', foldM f b l = Ret b' /\ P b'.
Proof.
  revert b; induction l as [|a l IH]; intros b Hf Hb; simpl; [eauto|].
  destruct (Hf a b) as (c & Hc & HPc); [by left|exact Hb|].
  rewrite Hc; simpl. apply IH; [|exact HPc].
  intros x d Hx. apply Hf. by right.
Qed.

(** Decompose hypotheses of the form [(m ≫= f) = Ret b]. *)
Ltac inv_ret :=
  repeat match goal with
  | H : Ret _ = Ret _ |- _ => injection H as H; try subst
  | H : mret _ = Ret _ |- _ => injection H as H; try subst
  | H : Throw _ = Ret _ |- _ => discriminate H
  | H : Crash _ = Ret _ |- _ => discriminate H
  | H : Undef _ = Ret _ |- _ => discriminate H
  | H : CHECK _ _ = Ret _ |- _ => apply CHECK_Ret in H
  | H : require _ _ = Ret _ |- _ => apply require_Ret in H
  | H : (_ ≫= _) = Ret _ |- _ =>
      let a := fresh "r" in let E := fresh "E" in
      apply bind_Ret_iff in H as (a & E & H)
  end.

(** * Machine integers *)

Definition two63 : Z := 2 ^ 63.
Definition two64 : Z := 2 ^ 64.
Definition INT64_MIN : Z := - 2 ^ 63.
Definition INT64_MAX : Z := 2 ^ 63 - 1.
Definition INT32_MAX : Z := 2 ^ 31 - 1.

(** Conversion to [uint64_t]: reduction modulo 2^64. *)
Definition u64 (z : Z) : Z := z mod 2 ^ 64.
(** Conversion to [int64_t] on a two's complement machine. *)
Definition s64 (z : Z) : Z := (z + 2 ^ 63) mod 2 ^ 64 - 2 ^ 63.
(** Conversion to [int] (32 bits). *)
Definition s32 (z : Z) : Z := (z + 2 ^ 31) mod 2 ^ 32 - 2 ^ 31.
(** Conversion to [uint32_t]. *)
Definition u32 (z : Z) : Z := z mod 2 ^ 32.
(** Conversion to [unsigned short]. *)
Definition u16 (z : Z) : Z := z mod 2 ^ 16.

Arguments u64 : simpl never.
Arguments s64 : simpl never.
Arguments s32 : simpl never.
Arguments u32 : simpl never.
Arguments u16 : simpl never.

Definition is_s64 (z : Z) : Prop := - 2 ^ 63 <= z < 2 ^ 63.
Definition is_u64 (z : Z) : Prop := 0 <= z < 2 ^ 64.
Definition is_s32 (z : Z) : Prop := - 2 ^ 31 <= z < 2 ^ 31.

Lemma u64_range z : is_u64 (u64 z).
Proof. unfold is_u64, u64. apply Z.mod_pos_bound. lia. Qed.

Lemma s64_range z : is_s64 (s64 z).
Proof. unfold is_s64, s64. pose proof (Z.mod_pos_bound (z + 2 ^ 63) (2 ^ 64)). lia. Qed.

Lemma s64_id z : is_s64 z -> s64 z = z.
Proof. unfold is_s64, s64. intros H. rewrite Z.mod_small; lia. Qed.

Lemma u64_id z : is_u64 z -> u64 z = z.
Proof. unfold is_u64, u64. intros H. apply Z.mod_small; lia. Qed.

Lemma s32_id z : is_s32 z -> s32 z = z.
Proof. unfold is_s32, s32. intros H. rewrite Z.mod_small; lia. Qed.

Lemma s32_range z : is_s32 (s32 z).
Proof. unfold is_s32, s32. pose proof (Z.mod_pos_bound (z + 2 ^ 31) (2 ^ 32)). lia. Qed.

(** [a - b] on [int]s: signed overflow is undefined behaviour. *)
Definition sub32 (a b : Z) : outcome Z :=
  if (- 2 ^ 31 <=? a - b) && (a - b <? 2 ^ 31) then Ret (a - b) else Undef "signed overflow".
Arguments sub32 : simpl never.

Lemma sub32_ok a b : is_s32 (a - b) -> sub32 a b = Ret (a - b).
Proof.
  unfold is_s32, sub32. intros [H1 H2].
  by rewrite (proj2 (Z.leb_le _ _) H1), (proj2 (Z.ltb_lt _ _) H2).
Qed.

(** Two integers with the same residue convert to the same machine word. *)
Lemma s64_mod_eq a b : a mod 2 ^ 64 = b mod 2 ^ 64 -> s64 a = s64 b.
Proof.
  intros H. unfold s64.
  rewrite (Z.add_mod a), H, <- Z.add_mod by lia. reflexivity.
Qed.

Lemma s64_mod z : s64 z mod 2 ^ 64 = z mod 2 ^ 64.
Proof.
  unfold s64. rewrite Zminus_mod_idemp_l.
  f_equal. lia.
Qed.

Lemma s64_add_l a b : s64 (s64 a + b) = s64 (a + b).
Proof.
  apply s64_mod_eq.
  rewrite Z.add_mod, s64_mod, <- Z.add_mod by lia. reflexivity.
Qed.

Lemma s64_u64 z : s64 (u64 z) = s64 z.
Proof. apply s64_mod_eq. unfold u64. rewrite Z.mod_mod by lia. reflexivity. Qed.

(** * Automation shared by the components *)

Create HintDb bistro.
Create Rewrite HintDb bistro.
#[export] Hint Resolve u64_range s64_range s32_range : bistro.
#[export] Hint Rewrite @bind_Ret_iff CHECK_Ret require_Ret : bistro.

(** Case analysis on every boolean test and match of the goal. *)
Ltac split_cases :=
  repeat (case_match; simplify_eq/=; try done).

(** Turn boolean comparisons on [Z] into propositions. *)
Ltac bprop :=
  repeat match goal with
  | H : (_ && _) = true |- _ => apply andb_true_iff in H as [? ?]
  | H : (_ || _) = false |- _ => apply orb_false_iff in H as [? ?]
  | H : negb _ = true |- _ => apply negb_true_iff in H
  | H : negb _ = false |- _ => apply negb_false_iff in H
  | H : (_ <=? _)%Z = _ |- _ =>
      first [apply Z.leb_le in H | apply Z.leb_gt in H]
  | H : (_ <? _)%Z = _ |- _ =>
      first [apply Z.ltb_lt in H | apply Z.ltb_ge in H]
  | H : (_ =? _)%Z = _ |- _ =>
      first [apply Z.eqb_eq in H | apply Z.eqb_neq in H]
  | H : bool_decide _ = true |- _ => apply bool_decide_eq_true_1 in H
  | H : bool_decide _ = false |- _ => apply bool_decide_eq_false_1 in H
  end.
