(* ===== verification/Thrift.v ===== *)
(** The Thrift structures of [if/common.thrift] that the scheduler and its
    workers exchange.  Thrift's [i16]/[i32]/[i64] fields are [Z], its doubles
    are the numbers of [SpecFloat]; fields that no modelled operation reads
    (the resources a task is measured to use) are left out. *)

From stdpp Require Import base gmap strings list.
From Stdlib Require Import SpecFloat.
From S2P Require Import Prelude.

(** [kProtocolVersion]. *)
Definition kProtocolVersion : Z := 2.

Record BackoffDuration := mkBackoffDuration {
  noMoreBackoffs : bool;
  seconds : Z
}.

Record BistroInstanceID := mkInstanceID {
  startTime : Z;
  rand : Z
}.

Record Resource := mkResource { res_name : string; res_amount : Z }.

Record NodeResources := mkNodeResources {
  nr_node : string;
  nr_resources : list Resource
}.

Record RunningTask := mkRunningTask {
  rt_job : string;
  rt_node : string;
  rt_nodeResources : list NodeResources;
  rt_workerShard : string;
  rt_invocationID : BistroInstanceID;
  rt_nextBackoffDuration : BackoffDuration;
  rt_workerSuicideTaskKillWaitMs : Z
}.

Record MachinePortLock := mkMachinePortLock { hostname : string; lock_port : Z }.
Record ServiceAddress := mkServiceAddress { ip_or_host : string; addr_port : Z }.

Record SetHash := mkSetHash { addAll : Z; xorAll : Z }.

Record WorkerSetHash := mkWorkerSetHash {
  h_startTime : SetHash;
  h_rand : SetHash;
  numWorkers : Z
}.

Record WorkerSetID := mkWorkerSetID {
  ws_schedulerID : BistroInstanceID;
  ws_version : Z;
  ws_hash : WorkerSetHash
}.

Record GPUInfo := mkGPUInfo {
  gpu_name : string;
  pciBusID : string;
  gpu_memoryMB : spec_float;
  gpu_compute : spec_float
}.

Record UsablePhysicalResources := mkUsable {
  msSinceEpoch : Z;
  cpuCores : spec_float;
  memoryMB : spec_float;
  gpus : list GPUInfo
}.

(** The defaults of the struct. *)
Definition noUsableResources : UsablePhysicalResources :=
  mkUsable 0 (S754_zero false) (S754_zero false) [].

Record BistroWorker := mkBistroWorker {
  bw_shard : string;
  bw_machineLock : MachinePortLock;
  bw_addr : ServiceAddress;
  bw_id : BistroInstanceID;
  bw_heartbeatPeriodSec : Z;
  bw_protocolVersion : Z;
  bw_usableResources : UsablePhysicalResources
}.

Record SchedulerHeartbeatResponse := mkHeartbeatResponse {
  hr_maxHealthcheckGap : Z;
  hr_heartbeatGracePeriod : Z;
  hr_loseUnhealthyWorkerAfter : Z;
  hr_workerCheckInterval : Z;
  hr_workerState : Z;
  hr_protocolVersion : Z;
  hr_workerSetID : option WorkerSetID  (* None: not yet filled in *)
}.

#[global] Instance BackoffDuration_eq_dec : EqDecision BackoffDuration.
Proof. solve_decision. Defined.
#[global] Instance BistroInstanceID_eq_dec : EqDecision BistroInstanceID.
Proof. solve_decision. Defined.
#[global] Instance Resource_eq_dec : EqDecision Resource.
Proof. solve_decision. Defined.
#[global] Instance NodeResources_eq_dec : EqDecision NodeResources.
Proof. solve_decision. Defined.
#[global] Instance RunningTask_eq_dec : EqDecision RunningTask.
Proof. solve_decision. Defined.
#[global] Instance MachinePortLock_eq_dec : EqDecision MachinePortLock.
Proof. solve_decision. Defined.
#[global] Instance ServiceAddress_eq_dec : EqDecision ServiceAddress.
Proof. solve_decision. Defined.
#[global] Instance SetHash_eq_dec : EqDecision SetHash.
Proof. solve_decision. Defined.
#[global] Instance WorkerSetHash_eq_dec : EqDecision WorkerSetHash.
Proof. solve_decision. Defined.
#[global] Instance WorkerSetID_eq_dec : EqDecision WorkerSetID.
Proof. solve_decision. Defined.
#[global] Instance spec_float_eq_dec : EqDecision spec_float.
Proof. solve_decision. Defined.
#[global] Instance GPUInfo_eq_dec : EqDecision GPUInfo.
Proof. solve_decision. Defined.
#[global] Instance UsablePhysicalResources_eq_dec : EqDecision UsablePhysicalResources.
Proof. solve_decision. Defined.
#[global] Instance BistroWorker_eq_dec : EqDecision BistroWorker.
Proof. solve_decision. Defined.

(** The key of a task in the per-worker maps: [TaskID(job, node)]. *)
Definition TaskID : Type := (string * string)%type.
#[global] Instance TaskID_eq_dec : EqDecision TaskID := _.
#[global] Instance TaskID_countable : Countable TaskID := _.

Definition task_id_of (rt : RunningTask) : string * string := (rt_job rt, rt_node rt).
