(* ===== verification/WorkerSet.v ===== *)
(** [remote/WorkerSetID.h]: the order-independent hash of a set of worker
    instances, and the comparison of worker-set versions, which is correct
    across overflow of the 64-bit version counter. *)

From stdpp Require Import base gmap strings list.
From Stdlib Require Import ZArith Lia Permutation.
From S2P Require Import Prelude Thrift.

(** ** The set hash *)

(** [detail::addValueToHash]: [xorAll ^= v], and an unsigned 64-bit addition
    stored back as a signed one. *)
Definition addValueToHash (h : SetHash) (v : Z) : SetHash :=
  mkSetHash (s64 (u64 (u64 (addAll h) + u64 v))) (Z.lxor (xorAll h) v).

(** [detail::removeValueFromHash]. *)
Definition removeValueFromHash (h : SetHash) (v : Z) : SetHash :=
  mkSetHash (s64 (u64 (u64 (addAll h) - u64 v))) (Z.lxor (xorAll h) v).

(** [addWorkerIDToHash]. *)
Definition addWorkerIDToHash (s : WorkerSetHash) (id : BistroInstanceID) : WorkerSetHash :=
  mkWorkerSetHash (addValueToHash (h_startTime s) (startTime id))
                  (addValueToHash (h_rand s) (rand id))
                  (numWorkers s + 1).

(** [removeWorkerIDFromHash], which CHECKs that the set is not empty. *)
Definition removeWorkerIDFromHash (s : WorkerSetHash) (id : BistroInstanceID)
    : outcome WorkerSetHash :=
  CHECK (0 <? numWorkers s) "CHECK_LT(0, numWorkers)" ;;;
  Ret (mkWorkerSetHash (removeValueFromHash (h_startTime s) (startTime id))
                       (removeValueFromHash (h_rand s) (rand id))
                       (numWorkers s - 1)).

(** The default-constructed [cpp2::WorkerSetHash]. *)
Definition emptyWorkerSetHash : WorkerSetHash :=
  mkWorkerSetHash (mkSetHash 0 0) (mkSetHash 0 0) 0.

(** The hash of a collection of worker instances, added in the given order. *)
Definition hash_of (ids : list BistroInstanceID) : WorkerSetHash :=
  foldl addWorkerIDToHash emptyWorkerSetHash ids.

(** ** Versions *)

(** [WorkerSetIDEarlierThan::makeSigned].  [min() + (v - 2^63)] mixes signed
    and unsigned operands, so C++ evaluates it, and the conditional, in
    [uint64_t]; the return converts to [int64_t]. *)
Definition makeSigned (v : Z) : Z :=
  s64 (if v <? 2 ^ 63 then v else u64 (u64 INT64_MIN + u64 (v - 2 ^ 63))).

(** [WorkerSetIDEarlierThan::operator()].  The [int64_t] versions convert to
    the [uint64_t] parameters. *)
Definition WorkerSetIDEarlierThan (a b : Z) : outcome bool :=
  let a := u64 a in
  let b := u64 b in
  if 0 <=? makeSigned (u64 (a - b)) then Ret false
  else if 0 <? makeSigned (u64 (b - a)) then Ret true
  else Crash "Versions differ by 2^63".

(** ** Properties of the hash *)

(** Values the hash fields take: the additive part is an [int64_t]. *)
Definition SetHash_wf (h : SetHash) : Prop := is_s64 (addAll h).
Definition WorkerSetHash_wf (s : WorkerSetHash) : Prop :=
  SetHash_wf (h_startTime s) /\ SetHash_wf (h_rand s).

Lemma addValueToHash_wf h v : SetHash_wf (addValueToHash h v).
Proof. apply s64_range. Qed.

Lemma addWorkerIDToHash_wf s id : WorkerSetHash_wf (addWorkerIDToHash s id).
Proof. split; apply addValueToHash_wf. Qed.

Lemma addAll_add h v : addAll (addValueToHash h v) = s64 (addAll h + v).
Proof.
  simpl. apply s64_mod_eq. unfold u64.
  rewrite Z.mod_mod, <- Z.add_mod by lia. reflexivity.
Qed.

Lemma addAll_remove h v : addAll (removeValueFromHash h v) = s64 (addAll h - v).
Proof.
  simpl. apply s64_mod_eq. unfold u64.
  rewrite Z.mod_mod by lia. rewrite <- Zminus_mod. reflexivity.
Qed.

Lemma xorAll_add h v : xorAll (addValueToHash h v) = Z.lxor (xorAll h) v.
Proof. reflexivity. Qed.

Lemma xorAll_remove h v : xorAll (removeValueFromHash h v) = Z.lxor (xorAll h) v.
Proof. reflexivity. Qed.

Lemma SetHash_ext h h' : addAll h = addAll h' -> xorAll h = xorAll h' -> h = h'.
Proof. destruct h, h'; cbn; congruence. Qed.

Lemma addValueToHash_comm h v w :
  addValueToHash (addValueToHash h v) w = addValueToHash (addValueToHash h w) v.
Proof.
  apply SetHash_ext.
  - rewrite !addAll_add, !s64_add_l. f_equal. lia.
  - rewrite !xorAll_add, !Z.lxor_assoc, (Z.lxor_comm v w). reflexivity.
Qed.

Lemma remove_addValueToHash h v :
  SetHash_wf h -> removeValueFromHash (addValueToHash h v) v = h.
Proof.
  intros Hwf. apply SetHash_ext.
  - rewrite addAll_remove, addAll_add, <- Z.add_opp_r, s64_add_l.
    rewrite <- (s64_id _ Hwf) at 2. f_equal. lia.
  - rewrite xorAll_remove, xorAll_add, Z.lxor_assoc, Z.lxor_nilpotent, Z.lxor_0_r.
    reflexivity.
Qed.

Lemma addWorkerIDToHash_comm s i j :
  addWorkerIDToHash (addWorkerIDToHash s i) j = addWorkerIDToHash (addWorkerIDToHash s j) i.
Proof.
  unfold addWorkerIDToHash; cbn [h_startTime h_rand numWorkers].
  f_equal; [apply addValueToHash_comm| apply addValueToHash_comm].
Qed.

Lemma remove_addWorkerIDToHash s id :
  WorkerSetHash_wf s -> 0 <= numWorkers s ->
  removeWorkerIDFromHash (addWorkerIDToHash s id) id = Ret s.
Proof.
  intros [H1 H2] Hn. unfold removeWorkerIDFromHash.
  rewrite CHECK_true by (cbn; lia). cbn [mbind outcome_bind].
  cbn [addWorkerIDToHash h_startTime h_rand numWorkers].
  rewrite !remove_addValueToHash by assumption.
  destruct s; cbn; do 2 f_equal; lia.
Qed.

Lemma hash_of_app ids ids' :
  hash_of (ids ++ ids') = foldl addWorkerIDToHash (hash_of ids) ids'.
Proof. apply foldl_app. Qed.

Lemma foldl_add_cons s i l :
  foldl addWorkerIDToHash (addWorkerIDToHash s i) l
  = addWorkerIDToHash (foldl addWorkerIDToHash s l) i.
Proof.
  revert s; induction l as [|j l IH]; intros s; cbn; [reflexivity|].
  rewrite <- IH, addWorkerIDToHash_comm. reflexivity.
Qed.

Lemma hash_of_cons i l : hash_of (i :: l) = addWorkerIDToHash (hash_of l) i.
Proof. apply foldl_add_cons. Qed.

Lemma hash_of_Permutation l l' : l ≡ₚ l' -> hash_of l = hash_of l'.
Proof.
  induction 1 as [|i l l' _ IH|i j l|l l' l'' _ IH1 _ IH2].
  - reflexivity.
  - rewrite !hash_of_cons, IH. reflexivity.
  - rewrite !hash_of_cons. apply addWorkerIDToHash_comm.
  - congruence.
Qed.

Lemma hash_of_wf l : WorkerSetHash_wf (hash_of l).
Proof.
  induction l as [|i l IH]; [split; unfold SetHash_wf, is_s64; cbn; lia|].
  rewrite hash_of_cons. apply addWorkerIDToHash_wf.
Qed.

Lemma hash_of_numWorkers l : numWorkers (hash_of l) = Z.of_nat (length l).
Proof.
  induction l as [|i l IH]; [reflexivity|].
  rewrite hash_of_cons; cbn [addWorkerIDToHash numWorkers length]. lia.
Qed.

#[global] Instance hash_of_Proper : Proper (Permutation ==> eq) hash_of.
Proof. intros l l' H. apply hash_of_Permutation, H. Qed.

(** Removing one occurrence of a worker from the hash of any arrangement of
    the set gives the hash of the rest. *)
Lemma remove_hash_of i l l' :
  l ≡ₚ i :: l' -> removeWorkerIDFromHash (hash_of l) i = Ret (hash_of l').
Proof.
  intros ->. rewrite hash_of_cons. apply remove_addWorkerIDToHash.
  - apply hash_of_wf.
  - rewrite hash_of_numWorkers. lia.
Qed.

(** ** Properties of the version order *)

Lemma makeSigned_u64 z : makeSigned (u64 z) = s64 z.
Proof.
  unfold makeSigned. pose proof (u64_range z) as R. unfold is_u64 in R.
  destruct (Z.ltb_spec (u64 z) (2 ^ 63)); [apply s64_u64|].
  rewrite <- (s64_u64 z). apply s64_mod_eq.
  unfold u64 at 1. rewrite Z.mod_mod by lia.
  unfold u64 at 1 2. rewrite <- Z.add_mod by lia.
  replace (INT64_MIN + (u64 z - 2 ^ 63)) with (u64 z + (-1) * 2 ^ 64)
    by (unfold INT64_MIN; lia).
  apply Z.mod_add. lia.
Qed.

Lemma u64_s64_sub i j : u64 (u64 (s64 i) - u64 (s64 j)) = u64 (i - j).
Proof.
  unfold u64. rewrite !s64_mod, <- Zminus_mod. reflexivity.
Qed.

(** The comparison of two stored versions in terms of the unbounded counters
    they come from. *)
Lemma WorkerSetIDEarlierThan_spec i j :
  WorkerSetIDEarlierThan (s64 i) (s64 j) =
    if 0 <=? s64 (i - j) then Ret false
    else if 0 <? s64 (j - i) then Ret true
    else Crash "Versions differ by 2^63".
Proof.
  unfold WorkerSetIDEarlierThan.
  rewrite !u64_s64_sub, !makeSigned_u64. reflexivity.
Qed.

Lemma WorkerSetIDEarlierThan_id a : is_s64 a -> WorkerSetIDEarlierThan a a = Ret false.
Proof.
  intros H. rewrite <- (s64_id _ H), WorkerSetIDEarlierThan_spec, Z.sub_diag.
  reflexivity.
Qed.

Lemma earlier_window i j :
  - 2 ^ 63 < i - j < 2 ^ 63 ->
  WorkerSetIDEarlierThan (s64 i) (s64 j) = Ret (i <? j).
Proof.
  intros H. rewrite WorkerSetIDEarlierThan_spec.
  rewrite !s64_id by (unfold is_s64; lia).
  destruct (Z.leb_spec 0 (i - j)), (Z.ltb_spec i j); try lia; [reflexivity|].
  destruct (Z.ltb_spec 0 (j - i)); [reflexivity|lia].
Qed.

Lemma earlier_opposite i j :
  Z.abs (i - j) = 2 ^ 63 ->
  exists msg, WorkerSetIDEarlierThan (s64 i) (s64 j) = Crash msg.
Proof.
  intros H. rewrite WorkerSetIDEarlierThan_spec.
  assert (Hs : forall d, Z.abs d = 2 ^ 63 -> s64 d = - 2 ^ 63).
  { intros d Hd. assert (d = 2 ^ 63 \/ d = - 2 ^ 63) as [-> | ->] by lia; reflexivity. }
  rewrite !Hs by lia. eauto.
Qed.

(** ** Claims *)

(** C30: Comparing the stored 64-bit versions of two counters agrees with
    comparing the unbounded counters as long as they are less than 2^63
    apart, also when one of them has wrapped around; at a distance of exactly
    2^63 the comparison stops the process rather than answer. *)
Theorem version_order i j :
  Z.abs (i - j) <= 2 ^ 63 ->
  if Z.abs (i - j) <? 2 ^ 63
  then WorkerSetIDEarlierThan (s64 i) (s64 j) = Ret (i <? j)
  else exists msg, WorkerSetIDEarlierThan (s64 i) (s64 j) = Crash msg.
Proof.
  intros H. destruct (Z.ltb_spec (Z.abs (i - j)) (2 ^ 63)).
  - apply earlier_window. lia.
  - apply earlier_opposite. lia.
Qed.

(** The counter has wrapped: 2^63 is stored as the least [int64_t]. *)
Lemma version_order_witness :
  WorkerSetIDEarlierThan INT64_MAX INT64_MIN = Ret true.
Proof.
  pose proof (version_order (2 ^ 63 - 1) (2 ^ 63)) as H.
  apply H. lia.
Defined.

(** The worker-set hash depends only on the multiset of workers: it
    counts them, adding them in any order gives the same hash, and removing
    any one of them, whenever it was added, gives the hash of the others. *)
Theorem hash_is_multiset l l' i :
  l ≡ₚ i :: l' ->
  hash_of l = addWorkerIDToHash (hash_of l') i /\
  numWorkers (hash_of l) = Z.of_nat (length l) /\
  removeWorkerIDFromHash (hash_of l) i = Ret (hash_of l').
Proof.
  intros H. split_and!; [|apply hash_of_numWorkers|by apply remove_hash_of].
  rewrite H. apply hash_of_cons.
Qed.

Lemma hash_is_multiset_witness :
  removeWorkerIDFromHash
    (hash_of [mkInstanceID 1 7; mkInstanceID 2 8; mkInstanceID 3 (- 2 ^ 63)]) (mkInstanceID 2 8)
  = Ret (hash_of [mkInstanceID 3 (- 2 ^ 63); mkInstanceID 1 7]).
Proof.
  apply (hash_is_multiset _ [mkInstanceID 3 (- 2 ^ 63); mkInstanceID 1 7] (mkInstanceID 2 8)).
  rewrite (Permutation_swap (mkInstanceID 2 8) (mkInstanceID 1 7)).
  apply perm_skip. apply Permutation_swap.
Defined.
