(* ===== verification/Dynamic.v ===== *)
(** [folly::dynamic], the JSON value type the configuration and the task
    statuses are parsed from.  An object is the list of its pairs in
    iteration order, which folly leaves unspecified; a double is kept as a
    mantissa and a binary exponent and never computed with. *)

From stdpp Require Import base gmap strings list.
From S2P Require Import Prelude.

#[warnings="-register-all"]
Inductive dynamic : Type :=
| DNull
| DBool (b : bool)
| DInt (n : Z)
| DDouble (mantissa exponent : Z)
| DString (s : string)
| DArray (l : list dynamic)
| DObject (kvs : list (string * dynamic)).

(** Lookup by key in an object's pairs ([dynamic::get_ptr], [dynamic::find]). *)
Fixpoint assoc (k : string) (kvs : list (string * dynamic)) : option dynamic :=
  match kvs with
  | [] => None
  | (k', v) :: kvs' => if bool_decide (k = k') then Some v else assoc k kvs'
  end.

(** [d[k] = v] on an object: replace the value of the key, or add the pair. *)
Fixpoint assoc_set (k : string) (v : dynamic) (kvs : list (string * dynamic))
    : list (string * dynamic) :=
  match kvs with
  | [] => [(k, v)]
  | (k', v') :: kvs' =>
      if bool_decide (k = k') then (k, v) :: kvs' else (k', v') :: assoc_set k v kvs'
  end.

(** [dynamic::erase(key)]. *)
Definition assoc_erase (k : string) (kvs : list (string * dynamic))
    : list (string * dynamic) :=
  List.filter (fun kv => negb (bool_decide (k = kv.1))) kvs.

(** [dynamic::empty] on the container types. *)
Definition dyn_empty (d : dynamic) : bool :=
  match d with
  | DArray [] | DObject [] | DString "" | DNull => true
  | _ => false
  end.

Lemma assoc_erase_eq k kvs : assoc k (assoc_erase k kvs) = None.
Proof.
  induction kvs as [|[k' v] kvs IH]; simpl; [reflexivity|].
  case_bool_decide; simpl; [exact IH|].
  rewrite bool_decide_false by assumption. exact IH.
Qed.

Lemma assoc_erase_ne k k' kvs : k <> k' -> assoc k (assoc_erase k' kvs) = assoc k kvs.
Proof.
  intros Hne. induction kvs as [|[j v] kvs IH]; simpl; [reflexivity|].
  destruct (decide (k' = j)) as [->|Hj].
  - rewrite bool_decide_true by reflexivity. simpl.
    rewrite bool_decide_false by assumption. exact IH.
  - rewrite bool_decide_false by assumption. simpl. rewrite IH. reflexivity.
Qed.

Lemma assoc_erase_None k kvs : assoc k kvs = None -> assoc_erase k kvs = kvs.
Proof.
  induction kvs as [|[j v] kvs IH]; simpl; [reflexivity|].
  destruct (decide (k = j)) as [->|Hj].
  - rewrite bool_decide_true by reflexivity. discriminate.
  - rewrite bool_decide_false by assumption. intros H. simpl. rewrite IH by exact H.
    reflexivity.
Qed.

Lemma assoc_set_eq k v kvs : assoc k (assoc_set k v kvs) = Some v.
Proof.
  induction kvs as [|[k' v'] kvs IH]; simpl.
  - rewrite bool_decide_true by reflexivity. reflexivity.
  - destruct (decide (k = k')).
    + rewrite bool_decide_true by assumption. simpl.
      rewrite bool_decide_true by reflexivity. reflexivity.
    + rewrite bool_decide_false by assumption. simpl.
      rewrite bool_decide_false by assumption. exact IH.
Qed.

Lemma assoc_set_ne k k' v kvs : k <> k' -> assoc k (assoc_set k' v kvs) = assoc k kvs.
Proof.
  intros Hne. induction kvs as [|[k2 v2] kvs IH]; cbn.
  - by rewrite bool_decide_false.
  - destruct (decide (k' = k2)) as [->|Hk].
    + rewrite bool_decide_true by done. cbn. by rewrite !bool_decide_false.
    + rewrite (bool_decide_false (k' = k2)) by done. cbn. by rewrite IH.
Qed.
