(* ===== verification/Backoff.v ===== *)
(** [config/JobBackoffSettings.{h,cpp}]: the list of back-off durations of a
    job and what happens when it runs out. *)

From stdpp Require Import base gmap strings list sorting.
From Stdlib Require Import ZArith Lia.
From S2P Require Import Prelude Thrift Dynamic.

Record JobBackoffSettings := mkBackoff {
  values_ : list Z;
  repeat_ : bool
}.

#[global] Instance JobBackoffSettings_eq_dec : EqDecision JobBackoffSettings.
Proof. solve_decision. Defined.

(** The loop of [JobBackoffSettings(const dynamic&)].  [int val = asInt()]
    converts the 64-bit JSON integer to 32 bits; a string ends the loop. *)
Fixpoint parse_backoff_items (values : list Z) (items : list dynamic)
    : outcome JobBackoffSettings :=
  match items with
  | [] => Ret (mkBackoff values false)
  | DInt n :: items' =>
      let val := s32 n in
      require (negb (val <=? 0)) "Backoff times must be positive" ;;;
      match last values with
      | Some back =>
          require (negb (back =? val)) "Duplicate backoff time" ;;;
          require (negb (val <? back)) "Backoff times must be in increasing order"
      | None => Ret tt
      end ;;;
      parse_backoff_items (values ++ [val]) items'
  | DString s :: _ =>
      if bool_decide (s = "repeat") then
        match values with
        | [] => Throw "No backoff interval given before 'repeat'"
        | _ => Ret (mkBackoff values true)
        end
      else if bool_decide (s = "fail") then Ret (mkBackoff values false)
      else Throw "Unknown string in backoff settings"
  | _ :: _ => Throw "Invalid backoff value"
  end.

(** [JobBackoffSettings::JobBackoffSettings(const dynamic& d)]. *)
Definition JobBackoffSettings_of (d : dynamic) : outcome JobBackoffSettings :=
  match d with
  | DArray [] => Throw "Backoff setting is empty"
  | DArray items => parse_backoff_items [] items
  | _ => Throw "Expected array"
  end.

(** The array of the default constructor. *)
Definition default_backoff : dynamic :=
  DArray (map DInt [15; 30; 60; 300; 900; 3600; 7200; 21600; 86400] ++ [DString "repeat"]).

(** [std::upper_bound] on a sorted range: the first element greater than [v]. *)
Fixpoint upper_bound (v : Z) (l : list Z) : option Z :=
  match l with
  | [] => None
  | x :: l' => if v <? x then Some x else upper_bound v l'
  end.

(** [JobBackoffSettings::getNext]. *)
Definition getNext (s : JobBackoffSettings) (cur : BackoffDuration)
    : outcome BackoffDuration :=
  CHECK (negb (noMoreBackoffs cur)) "CHECK(!cur_backoff.noMoreBackoffs)" ;;;
  match upper_bound (seconds cur) (values_ s) with
  | Some it => Ret (mkBackoffDuration false it)
  | None =>
      if repeat_ s then
        match last (values_ s) with
        | Some back => Ret (mkBackoffDuration false back)
        | None => Undef "values_.back() of an empty vector"
        end
      else Ret (mkBackoffDuration true 60)
  end.

(** [JobBackoffSettings::toDynamic]. *)
Definition backoff_toDynamic (s : JobBackoffSettings) : dynamic :=
  DArray (map DInt (values_ s) ++ [DString (if repeat_ s then "repeat" else "fail")]).

(** ** What every constructed value satisfies *)

Definition backoff_wf (s : JobBackoffSettings) : Prop :=
  StronglySorted Z.lt (values_ s) /\
  Forall (fun v => 0 < v < 2 ^ 31) (values_ s) /\
  (repeat_ s = true -> values_ s <> []).

(** The durations a job goes through when its task fails [n] times in a row,
    starting from the status that has no back-off yet. *)
Fixpoint nth_backoff (s : JobBackoffSettings) (n : nat) : outcome BackoffDuration :=
  match n with
  | O => Ret (mkBackoffDuration false 0)
  | S n' => let* cur := nth_backoff s n' in getNext s cur
  end.

Lemma StronglySorted_snoc l x :
  StronglySorted Z.lt l -> (forall b, last l = Some b -> b < x) ->
  StronglySorted Z.lt (l ++ [x]).
Proof.
  intros Hs Hlast. induction Hs as [|y l Hs IH Hall]; simpl; [by repeat constructor|].
  assert (Hyx : y < x).
  { destruct l as [|z l]; [apply Hlast; reflexivity|].
    destruct (last (z :: l)) as [b|] eqn:Hb;
      [|apply last_None in Hb; discriminate].
    assert (b < x) by (apply Hlast; rewrite last_cons_cons; exact Hb).
    apply last_Some_elem_of in Hb. rewrite Forall_forall in Hall.
    pose proof (Hall _ Hb). lia. }
  constructor.
  - apply IH. intros b Hb. apply Hlast. rewrite last_cons, Hb. reflexivity.
  - apply Forall_app; split; [exact Hall|by constructor].
Qed.

Lemma parse_backoff_items_wf values items s :
  StronglySorted Z.lt values -> Forall (fun v => 0 < v < 2 ^ 31) values ->
  parse_backoff_items values items = Ret s -> backoff_wf s.
Proof.
  revert values; induction items as [|d items IH]; intros values Hs Hp H; simpl in H.
  { inv_ret. repeat split; simpl; auto; discriminate. }
  destruct d as [| |n| |str| |]; try discriminate.
  - inv_ret. apply (IH _) in H; [exact H| |].
    + apply StronglySorted_snoc; [exact Hs|].
      intros b Hb. rewrite Hb in E0. inv_ret. bprop. lia.
    + apply Forall_app; split; [exact Hp|]. constructor; [|constructor].
      bprop. pose proof (s32_range n) as R. unfold is_s32 in R. lia.
  - case_bool_decide.
    + destruct values; [discriminate|]. inv_ret. repeat split; simpl; auto.
    + case_bool_decide; [|discriminate]. inv_ret. repeat split; simpl; auto.
Qed.

Lemma JobBackoffSettings_of_wf d s : JobBackoffSettings_of d = Ret s -> backoff_wf s.
Proof.
  destruct d as [| | | | |[|x l]|]; try discriminate.
  apply parse_backoff_items_wf; constructor.
Qed.

Lemma parse_backoff_ints pre vs tl :
  StronglySorted Z.lt (pre ++ vs) -> Forall (fun v => 0 < v < 2 ^ 31) vs ->
  parse_backoff_items pre (map DInt vs ++ tl) = parse_backoff_items (pre ++ vs) tl.
Proof.
  revert pre; induction vs as [|v vs IH]; intros pre Hs Hp; [by rewrite app_nil_r|].
  inversion_clear Hp as [|? ? Hv Hvs].
  cbn [map app parse_backoff_items].
  rewrite s32_id by (unfold is_s32; lia).
  assert (E1 : (v <=? 0) = false) by lia. rewrite E1; cbn.
  assert (E2 : forall b, last pre = Some b -> b < v).
  { intros b Hb. apply last_Some in Hb as (pre' & ->).
    rewrite <- app_assoc in Hs. simpl in Hs. clear -Hs.
    induction pre' as [|y pre' IHp]; simpl in Hs; inversion_clear Hs as [|? ? H1 H2].
    - inversion_clear H2; assumption.
    - by apply IHp. }
  replace (pre ++ v :: vs) with ((pre ++ [v]) ++ vs) in * by (rewrite <- app_assoc; done).
  rewrite <- IH by assumption.
  destruct (last pre) as [b|]; [|reflexivity].
  specialize (E2 b eq_refl).
  assert (E3 : (b =? v) = false) by lia. assert (E4 : (v <? b) = false) by lia.
  rewrite E3, E4. reflexivity.
Qed.

Lemma backoff_roundtrip_wf s :
  backoff_wf s -> JobBackoffSettings_of (backoff_toDynamic s) = Ret s.
Proof.
  intros (Hs & Hp & Hr).
  assert (E : JobBackoffSettings_of (backoff_toDynamic s)
              = parse_backoff_items [] (map DInt (values_ s) ++
                  [DString (if repeat_ s then "repeat" else "fail")])).
  { unfold backoff_toDynamic, JobBackoffSettings_of.
    destruct (values_ s); reflexivity. }
  rewrite E, (parse_backoff_ints [] (values_ s)) by assumption. simpl.
  destruct s as [vs [|]]; simpl in *.
  - destruct vs; [by destruct Hr|reflexivity].
  - reflexivity.
Qed.

Lemma upper_bound_app v l1 l2 :
  Forall (fun x => x <= v) l1 -> upper_bound v (l1 ++ l2) = upper_bound v l2.
Proof.
  induction 1 as [|x l1 Hx _ IH]; [reflexivity|]. simpl.
  assert (E : (v <? x) = false) by lia. by rewrite E.
Qed.

Lemma StronglySorted_app_lt l1 l2 x y :
  StronglySorted Z.lt (l1 ++ l2) -> x ∈ l1 -> y ∈ l2 -> x < y.
Proof.
  induction l1 as [|z l1 IH]; simpl; intros Hs Hx Hy; [by apply not_elem_of_nil in Hx|].
  inversion_clear Hs as [|? ? H1 H2].
  apply elem_of_cons in Hx as [->|Hx]; [|by apply IH].
  rewrite Forall_forall in H2. apply H2. apply elem_of_app. by right.
Qed.

(** The duration after [k] values have been used up. *)
Lemma getNext_split s k x :
  backoff_wf s -> values_ s !! k = Some x ->
  forall p, (k = 0%nat -> p = 0) ->
  (forall k', k = S k' -> values_ s !! k' = Some p) ->
  getNext s (mkBackoffDuration false p) = Ret (mkBackoffDuration false x).
Proof.
  intros (Hs & Hp & _) Hk p H0 HS. unfold getNext; cbn.
  pose proof (take_drop_middle _ _ _ Hk) as E.
  rewrite <- E in Hs, Hp |- *.
  rewrite upper_bound_app.
  - simpl. assert (p < x) as Hlt; [|by assert ((p <? x) = true) as -> by lia].
    destruct k as [|k].
    + rewrite (H0 eq_refl). rewrite Forall_forall in Hp.
      apply (Hp x), elem_of_app. right. left.
    + apply (StronglySorted_app_lt _ _ _ _ Hs); [|by left].
      specialize (HS k eq_refl). eapply list_elem_of_lookup_2.
      rewrite lookup_take_lt; [exact HS|lia].
  - destruct k as [|k]; [constructor|].
    specialize (HS k eq_refl). rewrite E in Hs.
    rewrite (take_S_r _ _ _ HS). apply Forall_app; split; [|constructor; [lia|constructor]].
    apply Forall_forall. intros y Hy.
    pose proof (take_drop_middle _ _ _ HS) as E'. rewrite <- E' in Hs.
    assert (y < p); [|lia]. apply (StronglySorted_app_lt _ _ _ _ Hs Hy). by left.
Qed.

Lemma nth_backoff_lookup s k x :
  backoff_wf s -> values_ s !! k = Some x ->
  nth_backoff s (S k) = Ret (mkBackoffDuration false x).
Proof.
  intros Hwf. revert x; induction k as [|k IH]; intros x Hk.
  - simpl. apply (getNext_split s 0 x Hwf Hk); [done|discriminate].
  - destruct (lookup_lt_is_Some_2 (values_ s) k) as [p Hkp].
    { apply lookup_lt_Some in Hk. lia. }
    change (nth_backoff s (S (S k))) with (let* cur := nth_backoff s (S k) in getNext s cur).
    rewrite (IH p Hkp). cbn [mbind outcome_bind].
    apply (getNext_split s (S k) x Hwf Hk); [discriminate|].
    intros k' [= <-]. exact Hkp.
Qed.

(** Past the last value: stuck on it ("repeat"), or no more back-offs. *)
Lemma getNext_exhausted s p :
  backoff_wf s -> last (values_ s) = Some p \/ values_ s = [] ->
  getNext s (mkBackoffDuration false (default 0 (last (values_ s)))) =
  Ret (if repeat_ s then mkBackoffDuration false (default 0 (last (values_ s)))
       else mkBackoffDuration true 60).
Proof.
  intros (Hs & Hp & Hr) HL. unfold getNext; cbn.
  assert (E : upper_bound (default 0 (last (values_ s))) (values_ s) = None).
  { destruct HL as [HL|HL]; [|by rewrite HL]. rewrite HL. simpl.
    apply last_Some in HL as (l & HL). rewrite HL in *.
    rewrite upper_bound_app; simpl.
    - by assert ((p <? p) = false) as -> by lia.
    - apply Forall_forall. intros y Hy.
      assert (y < p); [|lia]. apply (StronglySorted_app_lt _ _ _ _ Hs Hy). by left. }
  rewrite E. destruct (repeat_ s); [|reflexivity].
  destruct HL as [HL|HL]; [by rewrite HL|]. by destruct Hr.
Qed.

(** ** Properties *)

(** Parsing what [toDynamic] prints gives back the settings, for every
    settings object that the constructor can build. *)
Theorem backoff_print_parse d s :
  JobBackoffSettings_of d = Ret s ->
  JobBackoffSettings_of (backoff_toDynamic s) = Ret s.
Proof. intros H. apply backoff_roundtrip_wf. by eapply JobBackoffSettings_of_wf. Qed.

Lemma backoff_print_parse_witness :
  JobBackoffSettings_of (backoff_toDynamic
    (mkBackoff [15; 30; 60; 300; 900; 3600; 7200; 21600; 86400] true))
  = Ret (mkBackoff [15; 30; 60; 300; 900; 3600; 7200; 21600; 86400] true).
Proof. apply (backoff_print_parse default_backoff). vm_compute. reflexivity. Defined.

(** A job that keeps failing walks through its configured durations in
    order: failure [k+1] waits [values_[k]]; after the last value the job
    either repeats that value forever or is out of back-offs, and nothing in
    between fails. *)
Theorem backoff_sequence d s :
  JobBackoffSettings_of d = Ret s ->
  (forall k x, values_ s !! k = Some x ->
     nth_backoff s (S k) = Ret (mkBackoffDuration false x)) /\
  nth_backoff s (S (length (values_ s))) =
    Ret (if repeat_ s then mkBackoffDuration false (default 0 (last (values_ s)))
         else mkBackoffDuration true 60).
Proof.
  intros Hd. apply JobBackoffSettings_of_wf in Hd as Hwf.
  split; [intros k x; by apply nth_backoff_lookup|].
  cbn [nth_backoff].
  destruct (last (values_ s)) as [p|] eqn:HL.
  - apply last_Some in HL as HL'. destruct HL' as (l & Hl).
    assert (Hn : nth_backoff s (length (values_ s)) = Ret (mkBackoffDuration false p)).
    { rewrite Hl, length_app, Nat.add_1_r. apply nth_backoff_lookup; [done|].
      rewrite Hl. by apply list_lookup_middle. }
    rewrite Hn. cbn [mbind outcome_bind].
    pose proof (getNext_exhausted s p Hwf) as H. rewrite HL in H. apply H. by left.
  - apply last_None in HL. rewrite HL. cbn [length nth_backoff mbind outcome_bind].
    pose proof (getNext_exhausted s 0 Hwf) as H. rewrite HL in H. apply H. by right.
Qed.

Lemma backoff_sequence_witness :
  nth_backoff (mkBackoff [15; 60] false) 2 = Ret (mkBackoffDuration false 60) /\
  nth_backoff (mkBackoff [15; 60] false) 3 = Ret (mkBackoffDuration true 60).
Proof.
  pose proof (backoff_sequence (DArray [DInt 15; DInt 60; DString "fail"])
                (mkBackoff [15; 60] false) eq_refl) as [H1 H2].
  split; [apply (H1 1%nat 60); reflexivity|exact H2].
Defined.
