(* ===== verification/TaskStatus.v ===== *)
(** [statuses/TaskStatus.{h,cpp}]: the status bits of a task, the factory
    functions, the parser of statuses reported by tasks and workers, and the
    in-place [update] and [forgive].  [time(nullptr)] is the argument [now];
    folly's JSON reader and its [asInt]/[asString] conversions are
    parameters. *)

From stdpp Require Import base gmap strings list.
From Stdlib Require Import ZArith Lia.
From S2P Require Import Prelude Thrift Dynamic Backoff.

(** ** [enum class TaskStatusBits] *)
Module Bits.

Definition Empty : Z := 0.
Definition Unstarted : Z := 1.
Definition Running : Z := 2.
Definition Done : Z := 4.
Definition Incomplete : Z := 8.
Definition Failed : Z := 16.
Definition Error : Z := 32.
Definition ExactlyOne : Z :=
  Z.lor Unstarted (Z.lor Running (Z.lor Done (Z.lor Incomplete (Z.lor Failed Error)))).
Definition UsesBackoff : Z := 64.
Definition DoesNotAdvanceBackoff : Z := 512.
Definition Overwriteable : Z := 1024.
Definition HasSavedBackoff : Z := 2048.
Definition Avoided : Z := 128.
Definition Disabled : Z := 256.

(** [allSet]. *)
Definition allSet (wher which_bits : Z) : bool := Z.land wher which_bits =? which_bits.

(** [replaceBit]: the complement is taken in [int] and the result stored in
    an [unsigned short]. *)
Definition replaceBit (wher what with_ : Z) : Z :=
  u16 (Z.lor with_ (Z.land wher (Z.lnot what))).

End Bits.

(** ** [class TaskStatus] *)

Record TaskStatus := mkStatus {
  data_ : option dynamic;
  timestamp_ : Z;
  backoffDuration_ : Z;
  bits_ : Z
}.

Definition kBistroSavedBackoff : string := "__bistro_saved_backoff".
Definition kException : string := "exception".
Definition kData : string := "data".
Definition kResult : string := "result".
Definition kResultBits : string := "result_bits".

(** Constructors ([TaskStatus(bits, timestamp)], [TaskStatus(bits)] and
    [TaskStatus(bits, DataPtr&&)]). *)
Definition status_at (bits timestamp : Z) : TaskStatus := mkStatus None timestamp 0 bits.
Definition status_now (now bits : Z) : TaskStatus := status_at bits now.
Definition status_data (now bits : Z) (d : option dynamic) : TaskStatus :=
  mkStatus d now 0 bits.

(** The default constructor is the "empty" status. *)
Definition emptyStatus (now : Z) : TaskStatus := status_now now Bits.Empty.

(** Factory methods. *)
Definition running (now : Z) : TaskStatus := status_now now Bits.Running.
Definition running_data (now : Z) (d : option dynamic) : TaskStatus :=
  status_data now Bits.Running d.
Definition done_now (now : Z) : TaskStatus := status_now now Bits.Done.
Definition done_at (timestamp : Z) : TaskStatus := status_at Bits.Done timestamp.
Definition done_data (now : Z) (d : option dynamic) : TaskStatus :=
  status_data now Bits.Done d.
Definition failed (now : Z) : TaskStatus := status_now now Bits.Failed.
Definition failed_data (now : Z) (d : option dynamic) : TaskStatus :=
  status_data now Bits.Failed d.
Definition incomplete (now : Z) (d : option dynamic) : TaskStatus :=
  status_data now Bits.Incomplete d.
Definition wasNotRunning (now : Z) : TaskStatus :=
  status_now now (Z.lor Bits.Error Bits.Overwriteable).
Definition incompleteBackoff (now : Z) (d : option dynamic) : TaskStatus :=
  status_data now
    (Z.lor Bits.Incomplete (Z.lor Bits.UsesBackoff Bits.DoesNotAdvanceBackoff)) d.
Definition errorBackoff (now : Z) (d : option dynamic) : TaskStatus :=
  status_data now (Z.lor Bits.Error Bits.UsesBackoff) d.
Definition errorBackoff_msg (now : Z) (msg : string) : TaskStatus :=
  errorBackoff now (Some (DObject [(kException, DString msg)])).
Definition neverStarted (now : Z) (msg : string) : TaskStatus :=
  status_data now Bits.Error (Some (DObject [(kException, DString msg)])).
Definition workerLost (now : Z) (shard : string) (saved_backoff : Z) : TaskStatus :=
  status_data now
    (Z.lor Bits.Error (Z.lor Bits.UsesBackoff
      (Z.lor Bits.HasSavedBackoff Bits.Overwriteable)))
    (Some (DObject
      [("worker_shard", DString shard);
       (kException, DString "Remote worker lost (crashed? network down?)");
       (kBistroSavedBackoff, DInt saved_backoff)])).

(** Bit tests. *)
Definition isEmpty (st : TaskStatus) : bool := bits_ st =? Bits.Empty.
Definition isRunning (st : TaskStatus) : bool := Bits.allSet (bits_ st) Bits.Running.
Definition isDone (st : TaskStatus) : bool := Bits.allSet (bits_ st) Bits.Done.
Definition isFailed (st : TaskStatus) : bool := Bits.allSet (bits_ st) Bits.Failed.
Definition isOverwriteable (st : TaskStatus) : bool :=
  Bits.allSet (bits_ st) Bits.Overwriteable.
Definition usesBackoff (st : TaskStatus) : bool := Bits.allSet (bits_ st) Bits.UsesBackoff.
Definition hasSavedBackoff (st : TaskStatus) : bool :=
  Bits.allSet (bits_ st) Bits.HasSavedBackoff.

(** [isInBackoff]. *)
Definition isInBackoff (st : TaskStatus) (cur_time : Z) : bool :=
  usesBackoff st && (cur_time <? timestamp_ st + backoffDuration_ st).

(** [markOverwriteable]. *)
Definition markOverwriteable (st : TaskStatus) : TaskStatus :=
  mkStatus (data_ st) (timestamp_ st) (backoffDuration_ st)
           (Z.lor (bits_ st) Bits.Overwriteable).

(** [data_->at(kBistroSavedBackoff).getInt()]: a null [data_] is undefined
    behaviour, a missing key or a value that is not an integer throws. *)
Definition saved_backoff_of (st : TaskStatus) : outcome Z :=
  match data_ st with
  | None => Undef "null data_"
  | Some (DObject kvs) =>
      match assoc kBistroSavedBackoff kvs with
      | Some (DInt n) => Ret n
      | Some _ => Throw "TypeError"
      | None => Throw "couldn't find key in dynamic object"
      end
  | Some _ => Throw "TypeError"
  end.

(** [TaskStatus::update].  The previous duration is an [int64_t] when it was
    saved and a [uint32_t] otherwise; it is stored as a [uint32_t]. *)
Definition update (st : TaskStatus) (rt : RunningTask) (new_status : TaskStatus)
    : outcome TaskStatus :=
  let* prev_backoff_duration :=
    (if hasSavedBackoff st then saved_backoff_of st
     else Ret (if negb (backoffDuration_ st =? 0) then backoffDuration_ st
               else u32 (seconds (rt_nextBackoffDuration rt)))) in
  if usesBackoff new_status then
    if Bits.allSet (bits_ new_status) Bits.DoesNotAdvanceBackoff then
      Ret (mkStatus (data_ new_status) (timestamp_ new_status)
                    (u32 prev_backoff_duration) (bits_ new_status))
    else
      let backoff := u32 (seconds (rt_nextBackoffDuration rt)) in
      if noMoreBackoffs (rt_nextBackoffDuration rt) then
        if Bits.allSet (bits_ new_status) Bits.Error then
          Ret (mkStatus (data_ new_status) (timestamp_ new_status) backoff
                 (Bits.replaceBit (bits_ new_status) Bits.Error Bits.Failed))
        else Crash "Status UsesBackoff, but not DoesNotAdvanceBackoff, and lacks Error"
      else Ret (mkStatus (data_ new_status) (timestamp_ new_status) backoff
                         (bits_ new_status))
  else Ret new_status.

(** [TaskStatus::forgive]. *)
Definition forgive (st : TaskStatus) : outcome TaskStatus :=
  let bits := if isFailed st then Bits.replaceBit (bits_ st) Bits.Failed Bits.Error
              else bits_ st in
  let st := mkStatus (data_ st) (timestamp_ st) (backoffDuration_ st) bits in
  if usesBackoff st then
    if hasSavedBackoff st then
      match data_ st with
      | None => Ret st
      | Some (DObject kvs) =>
          match assoc kBistroSavedBackoff kvs with
          | Some _ =>
              Ret (mkStatus (Some (DObject (assoc_set kBistroSavedBackoff (DInt 0) kvs)))
                            (timestamp_ st) (backoffDuration_ st) (bits_ st))
          | None => Throw "couldn't find key in dynamic object"
          end
      | Some _ => Throw "TypeError"
      end
    else Ret (mkStatus (data_ st) (timestamp_ st) 0 (bits_ st))
  else Ret st.

(** [TaskStatus::configuredBackoffDuration].  A [BackoffDuration] starts out
    with [seconds == 0], and stores a 32-bit duration. *)
Definition configuredBackoffDuration (st : TaskStatus) : outcome BackoffDuration :=
  if isFailed st then Ret (mkBackoffDuration true 0)
  else
    let* secs := (if hasSavedBackoff st then saved_backoff_of st
                  else Ret (backoffDuration_ st)) in
    Ret (mkBackoffDuration false (s32 secs)).

(** What [TaskRunner::runTask] stores in [rt.nextBackoffDuration]. *)
Definition nextBackoffDuration_for (s : JobBackoffSettings) (prev_status : option TaskStatus)
    : outcome BackoffDuration :=
  match prev_status with
  | Some st => let* bd := configuredBackoffDuration st in getNext s bd
  | None => getNext s (mkBackoffDuration false 0)
  end.

(** [toDynamicNoTime]. *)
Definition toDynamicNoTime (st : TaskStatus) : list (string * dynamic) :=
  (kResultBits, DInt (bits_ st)) ::
  match data_ st with Some d => [(kData, d)] | None => [] end.

(** [toDynamic]. *)
Definition toDynamic (st : TaskStatus) : list (string * dynamic) :=
  let d := assoc_set "time" (DInt (timestamp_ st)) (toDynamicNoTime st) in
  if usesBackoff st && negb (backoffDuration_ st =? 0)
  then assoc_set "backoff_duration" (DInt (backoffDuration_ st)) d else d.

(** ** Parsing *)

(** [makeDataPtr].  [dynamic::empty] throws on a value without a size. *)
Definition makeDataPtr (d : option dynamic) : outcome (option dynamic) :=
  match d with
  | None => Ret None
  | Some d =>
      match d with
      | DNull | DArray [] | DObject [] | DString "" => Ret None
      | DArray _ | DObject _ | DString _ => Ret (Some d)
      | _ => Throw "TypeError"
      end
  end.

(** [fromSimpleLabel], a [noexcept] function: an exception from
    [makeDataPtr] would terminate the process. *)
Definition fromSimpleLabel (now : Z) (label : string) (d : option dynamic)
    : outcome (option TaskStatus) :=
  let with_data (mk : option dynamic -> TaskStatus) :=
    match makeDataPtr d with
    | Ret p => Ret (Some (mk p))
    | _ => Crash "exception in a noexcept function"
    end in
  if bool_decide (label = "done") then with_data (done_data now)
  else if bool_decide (label = "incomplete") then with_data (incomplete now)
  else if bool_decide (label = "incomplete_backoff") then with_data (incompleteBackoff now)
  else if bool_decide (label = "backoff") || bool_decide (label = "error_backoff")
       then with_data (errorBackoff now)
  else if bool_decide (label = "failed") then with_data (failed_data now)
  else Ret None.

(** The bits a task may not report, and the ones [checkBits] knows. *)
Definition forbidden_bits : Z :=
  Z.lor Bits.Unstarted (Z.lor Bits.Avoided (Z.lor Bits.Disabled Bits.HasSavedBackoff)).
Definition known_bits : list Z :=
  [Bits.Running; Bits.Done; Bits.Incomplete; Bits.Failed; Bits.Error;
   Bits.UsesBackoff; Bits.DoesNotAdvanceBackoff; Bits.Overwriteable].

(** [checkBits]. *)
Definition checkBits (bits : Z) : outcome Z :=
  require (Z.land bits forbidden_bits =? 0)
    "Don't report Unstarted, Avoided, Disabled, or HasSavedBackoff bits" ;;;
  let exactly_one := Z.land bits Bits.ExactlyOne in
  require (negb (exactly_one =? 0) && (Z.land exactly_one (exactly_one - 1) =? 0))
    "Set exactly one required bit (Running, Done, ...)" ;;;
  let remaining := foldl (fun r bit => Z.land r (Z.lnot bit)) bits known_bits in
  require (remaining =? 0) "Encountered unknown bit(s)" ;;;
  Ret (u16 bits).

(** [if (auto data = d.get_ptr(kData)) data->erase(kBistroSavedBackoff)]:
    [erase] throws unless the data is an object. *)
Definition erase_saved_backoff (kvs : list (string * dynamic))
    : outcome (list (string * dynamic)) :=
  match assoc kData kvs with
  | None => Ret kvs
  | Some (DObject data) =>
      Ret (assoc_set kData (DObject (assoc_erase kBistroSavedBackoff data)) kvs)
  | Some _ => Throw "TypeError"
  end.

Section FromString.

(** folly's JSON parser and conversions. *)
Context (parseJson : string -> outcome dynamic).
Context (asInt : dynamic -> outcome Z).
Context (asString : dynamic -> outcome string).

(** The body of the [try] block of [fromString]: a status, or the message of
    the exception (or of the final [error]) that describes the failure. *)
Definition parse_status (now : Z) (raw_status : string) : outcome TaskStatus :=
  let* d := parseJson raw_status in
  match d with
  | DObject kvs =>
      let* kvs := erase_saved_backoff kvs in
      match assoc kResultBits kvs with
      | Some bits_ptr =>
          let* n := asInt bits_ptr in
          let* bits := checkBits n in
          let* p := makeDataPtr (assoc kData (assoc_erase kResultBits kvs)) in
          Ret (status_data now bits p)
      | None =>
          let* maybe_status :=
            match assoc kResult kvs with
            | Some result_ptr =>
                let* result := asString result_ptr in
                fromSimpleLabel now result (assoc kData (assoc_erase kResult kvs))
            | None => Ret None
            end in
          match maybe_status with
          | Some st => Ret st
          | None => Throw "Need a valid 'result' or 'result_bits' key"
          end
      end
  | _ => Throw "TypeError"
  end.

(** [TaskStatus::fromString]. *)
Definition fromString (now : Z) (raw_status : string) : outcome TaskStatus :=
  let* label := fromSimpleLabel now raw_status None in
  match label with
  | Some st => Ret st
  | None =>
      match parse_status now raw_status with
      | Throw error =>
          Ret (errorBackoff_msg now
                 ("Cannot parse status: " +:+ raw_status +:+ ", " +:+ error))
      | o => o
      end
  end.

End FromString.

(** ** Bit-level lemmas *)

Lemma land_pow2 w k : 0 <= k -> Z.land w (2 ^ k) = if Z.testbit w k then 2 ^ k else 0.
Proof.
  intros Hk. apply Z.bits_inj'. intros n Hn.
  rewrite Z.land_spec, Z.pow2_bits_eqb by exact Hk.
  destruct (Z.eqb_spec k n) as [->|Hne].
  - rewrite andb_true_r. destruct (Z.testbit w n) eqn:E.
    + by rewrite Z.pow2_bits_true.
    + by rewrite Z.testbit_0_l.
  - rewrite andb_false_r. destruct (Z.testbit w k).
    + by rewrite Z.pow2_bits_false.
    + by rewrite Z.testbit_0_l.
Qed.

Lemma allSet_testbit w k : 0 <= k -> Bits.allSet w (2 ^ k) = Z.testbit w k.
Proof.
  intros Hk. unfold Bits.allSet. rewrite land_pow2 by exact Hk.
  pose proof (Z.pow_pos_nonneg 2 k). destruct (Z.testbit w k).
  - apply Z.eqb_refl.
  - apply Z.eqb_neq. lia.
Qed.

Lemma u16_testbit z k : 0 <= k < 16 -> Z.testbit (u16 z) k = Z.testbit z k.
Proof. intros Hk. unfold u16. apply Z.mod_pow2_bits_low. lia. Qed.

(** The bit index of each status flag. *)
Lemma isRunning_bit st : isRunning st = Z.testbit (bits_ st) 1.
Proof. apply (allSet_testbit _ 1). lia. Qed.
Lemma isDone_bit st : isDone st = Z.testbit (bits_ st) 2.
Proof. apply (allSet_testbit _ 2). lia. Qed.
Lemma isFailed_bit st : isFailed st = Z.testbit (bits_ st) 4.
Proof. apply (allSet_testbit _ 4). lia. Qed.
Lemma isError_bit b : Bits.allSet b Bits.Error = Z.testbit b 5.
Proof. apply (allSet_testbit _ 5). lia. Qed.
Lemma usesBackoff_bit st : usesBackoff st = Z.testbit (bits_ st) 6.
Proof. apply (allSet_testbit _ 6). lia. Qed.
Lemma doesNotAdvance_bit b : Bits.allSet b Bits.DoesNotAdvanceBackoff = Z.testbit b 9.
Proof. apply (allSet_testbit _ 9). lia. Qed.
Lemma isOverwriteable_bit st : isOverwriteable st = Z.testbit (bits_ st) 10.
Proof. apply (allSet_testbit _ 10). lia. Qed.
Lemma hasSavedBackoff_bit st : hasSavedBackoff st = Z.testbit (bits_ st) 11.
Proof. apply (allSet_testbit _ 11). lia. Qed.

(** [replaceBit] at one bit: the new bit is set, the old one cleared. *)
Lemma replaceBit_testbit w i j k :
  0 <= k < 16 -> 0 <= i -> 0 <= j ->
  Z.testbit (Bits.replaceBit w (2 ^ i) (2 ^ j)) k
  = (j =? k) || (Z.testbit w k && negb (i =? k)).
Proof.
  intros Hk Hi Hj. unfold Bits.replaceBit.
  rewrite u16_testbit, Z.lor_spec, Z.land_spec, Z.lnot_spec, !Z.pow2_bits_eqb by lia.
  reflexivity.
Qed.

Lemma replaceBit_range w i j : 0 <= Bits.replaceBit w i j < 2 ^ 16.
Proof. unfold Bits.replaceBit, u16. apply Z.mod_pos_bound. lia. Qed.

(** Rewrite every bit test of the context into [Z.testbit]. *)
Create Rewrite HintDb status_bits.
#[export] Hint Rewrite isRunning_bit isDone_bit isFailed_bit isError_bit usesBackoff_bit
  doesNotAdvance_bit isOverwriteable_bit hasSavedBackoff_bit : status_bits.
Ltac to_bits := autorewrite with status_bits in *.

Lemma fail_bits w k :
  0 <= k < 16 ->
  Z.testbit (Bits.replaceBit w Bits.Error Bits.Failed) k
  = (4 =? k) || (Z.testbit w k && negb (5 =? k)).
Proof. intros Hk. apply (replaceBit_testbit w 5 4 k Hk); lia. Qed.

Lemma forgive_bits w k :
  0 <= k < 16 ->
  Z.testbit (Bits.replaceBit w Bits.Failed Bits.Error) k
  = (5 =? k) || (Z.testbit w k && negb (4 =? k)).
Proof. intros Hk. apply (replaceBit_testbit w 4 5 k Hk); lia. Qed.

(** ** Well-formed statuses

    The bits fit an [unsigned short], the duration a [uint32_t], and a status
    with a saved back-off carries it as an integer in its data. *)
Record status_wf (st : TaskStatus) : Prop := {
  wf_bits : 0 <= bits_ st < 2 ^ 16;
  wf_backoff : 0 <= backoffDuration_ st < 2 ^ 32;
  wf_saved : hasSavedBackoff st = true -> exists n, saved_backoff_of st = Ret n
}.

(** The assumption [update] makes on incoming statuses (comment of
    [TaskStatusBits::UsesBackoff]): back-off advances only with [Error]. *)
Definition advances_with_error (st : TaskStatus) : Prop :=
  usesBackoff st = true ->
  Bits.allSet (bits_ st) Bits.DoesNotAdvanceBackoff = false ->
  Bits.allSet (bits_ st) Bits.Error = true.

Lemma u32_range z : 0 <= u32 z < 2 ^ 32.
Proof. apply Z.mod_pos_bound. lia. Qed.
#[export] Hint Resolve u32_range replaceBit_range wf_bits wf_backoff wf_saved : bistro.

Lemma saved_backoff_same st st' :
  data_ st = data_ st' -> saved_backoff_of st = saved_backoff_of st'.
Proof. unfold saved_backoff_of. by intros ->. Qed.

(** A status that keeps the data and the saved bit keeps the saved value. *)
Lemma wf_intro st bits backoff ts :
  status_wf st -> 0 <= bits < 2 ^ 16 -> 0 <= backoff < 2 ^ 32 ->
  Z.testbit bits 11 = Z.testbit (bits_ st) 11 ->
  status_wf (mkStatus (data_ st) ts backoff bits).
Proof.
  intros Hwf Hb Hd H11. constructor; [exact Hb|exact Hd|].
  to_bits. cbn [bits_]. rewrite H11. intros H.
  destruct (wf_saved st Hwf) as [n Hn]; [by to_bits|].
  exists n. rewrite <- Hn. by apply saved_backoff_same.
Qed.

Lemma prev_backoff_ret st rt :
  status_wf st ->
  exists p, (if hasSavedBackoff st then saved_backoff_of st
             else Ret (if negb (backoffDuration_ st =? 0) then backoffDuration_ st
                       else u32 (seconds (rt_nextBackoffDuration rt)))) = Ret p.
Proof.
  intros Hwf. destruct (hasSavedBackoff st) eqn:E; [by apply wf_saved|eauto].
Qed.

(** The status asks for the next back-off without the Error bit while there is
    none left. *)
Definition lacks_error (rt : RunningTask) (new : TaskStatus) : bool :=
  usesBackoff new && negb (Bits.allSet (bits_ new) Bits.DoesNotAdvanceBackoff) &&
  negb (Bits.allSet (bits_ new) Bits.Error) && noMoreBackoffs (rt_nextBackoffDuration rt).

(** [update] on well-formed statuses returns a well-formed one, or aborts. *)
Lemma update_cases st rt new :
  status_wf st -> status_wf new ->
  if lacks_error rt new then exists msg, update st rt new = Crash msg
  else exists st', update st rt new = Ret st' /\ status_wf st'.
Proof.
  intros Hst Hnew. unfold update, lacks_error.
  destruct (prev_backoff_ret st rt Hst) as [p ->]. cbn [mbind outcome_bind].
  destruct (usesBackoff new) eqn:Hu; cbn [andb]; [|eauto].
  destruct (Bits.allSet (bits_ new) Bits.DoesNotAdvanceBackoff) eqn:Hd; cbn [negb andb].
  { eexists; split; [reflexivity|]. apply wf_intro; auto with bistro. }
  destruct (noMoreBackoffs _); rewrite ?andb_false_r, ?andb_true_r.
  - destruct (Bits.allSet (bits_ new) Bits.Error); cbn [negb]; [|eauto]. eexists; split; [reflexivity|].
    apply wf_intro; auto with bistro.
    rewrite fail_bits by lia. cbn [Z.eqb Pos.eqb orb negb]. by rewrite andb_true_r.
  - eexists; split; [reflexivity|]. apply wf_intro; auto with bistro.
Qed.

Lemma advances_not_lacking rt new : advances_with_error new -> lacks_error rt new = false.
Proof.
  unfold advances_with_error, lacks_error. destruct (usesBackoff new); [|done].
  destruct (Bits.allSet (bits_ new) Bits.DoesNotAdvanceBackoff); [done|]. intros ->; done.
Qed.

Lemma update_wf st rt new :
  status_wf st -> status_wf new -> advances_with_error new ->
  exists st', update st rt new = Ret st' /\ status_wf st'.
Proof.
  intros Hst Hnew Hadv. pose proof (update_cases st rt new Hst Hnew) as H.
  by rewrite advances_not_lacking in H.
Qed.

(** [update] touches no bits of the incoming status but Failed and Error. *)
Lemma update_keeps_bit st rt new st' k :
  update st rt new = Ret st' -> 0 <= k < 16 -> k <> 4 -> k <> 5 ->
  Z.testbit (bits_ st') k = Z.testbit (bits_ new) k.
Proof.
  unfold update. intros H Hk H4 H5. inv_ret.
  destruct (usesBackoff new); [|by inv_ret].
  destruct (Bits.allSet (bits_ new) Bits.DoesNotAdvanceBackoff); [by inv_ret|].
  destruct (noMoreBackoffs _); [|by inv_ret].
  destruct (Bits.allSet (bits_ new) Bits.Error); [|discriminate]. inv_ret.
  cbn [bits_]. rewrite fail_bits by lia.
  destruct (Z.eqb_spec 4 k), (Z.eqb_spec 5 k); try lia.
  cbn [orb negb]. by rewrite andb_true_r.
Qed.

(** [update] keeps "running" exactly as the incoming status has it. *)
Lemma update_isRunning st rt new st' :
  update st rt new = Ret st' -> isRunning st' = isRunning new.
Proof. intros H. to_bits. eapply update_keeps_bit; [exact H|lia..]. Qed.
Lemma update_isOverwriteable st rt new st' :
  update st rt new = Ret st' -> isOverwriteable st' = isOverwriteable new.
Proof. intros H. to_bits. eapply update_keeps_bit; [exact H|lia..]. Qed.

Lemma wf_plain d ts bits :
  (0 <=? bits) && (bits <? 2 ^ 16) && negb (Z.testbit bits 11) = true ->
  status_wf (mkStatus d ts 0 bits).
Proof.
  intros H. bprop. constructor; cbn [bits_ backoffDuration_]; [lia|lia|].
  to_bits. cbn [bits_]. congruence.
Qed.

Lemma running_wf now : status_wf (running now).
Proof. by apply wf_plain. Qed.
Lemma emptyStatus_wf now : status_wf (emptyStatus now).
Proof. by apply wf_plain. Qed.
Lemma done_at_wf t : status_wf (done_at t).
Proof. by apply wf_plain. Qed.
Lemma failed_wf now : status_wf (failed now).
Proof. by apply wf_plain. Qed.
Lemma errorBackoff_wf now d : status_wf (errorBackoff now d).
Proof. by apply wf_plain. Qed.
Lemma workerLost_wf now shard n : status_wf (workerLost now shard n).
Proof.
  constructor; [split; by vm_compute|split; by vm_compute|intros _; by exists n].
Qed.
#[export] Hint Resolve running_wf emptyStatus_wf done_at_wf failed_wf errorBackoff_wf
  workerLost_wf : bistro.

(** ** [checkBits] *)

(** The words a task may report: exactly one of the five result bits, and any
    of the three modifiers. *)
Definition reportable : list Z :=
  r ← [Bits.Running; Bits.Done; Bits.Incomplete; Bits.Failed; Bits.Error];
  u ← [0; Bits.UsesBackoff];
  d ← [0; Bits.DoesNotAdvanceBackoff];
  o ← [0; Bits.Overwriteable];
  [Z.lor r (Z.lor u (Z.lor d o))].

Definition all_known : Z := foldr Z.lor 0 known_bits.

Lemma foldl_land_lnot bits l :
  foldl (fun r bit => Z.land r (Z.lnot bit)) bits l
  = Z.land bits (Z.lnot (foldr Z.lor 0 l)).
Proof.
  revert bits; induction l as [|b l IH]; intros bits; simpl.
  - by rewrite Z.land_m1_r.
  - rewrite IH, Z.lnot_lor, Z.land_assoc. reflexivity.
Qed.

(** No unknown bit is left: the word lies below the mask of the known ones. *)
Lemma known_range bits :
  Z.land bits (Z.lnot all_known) = 0 -> 0 <= bits < 2048.
Proof.
  intros H.
  assert (E : bits = Z.land bits all_known).
  { apply Z.bits_inj'. intros n Hn. rewrite Z.land_spec.
    apply (f_equal (fun z => Z.testbit z n)) in H.
    rewrite Z.land_spec, Z.lnot_spec, Z.testbit_0_l in H by exact Hn.
    destruct (Z.testbit bits n), (Z.testbit all_known n); simpl in *; congruence. }
  assert (0 <= Z.land bits all_known) by (apply Z.land_nonneg; right; vm_compute; discriminate).
  assert (Z.land bits all_known <= all_known) as Hle.
  { apply Z.le_trans with (Z.land all_known bits); [by rewrite Z.land_comm|].
    clear. assert (0 <= all_known) by (vm_compute; discriminate).
    assert (Hd : Z.land all_known bits + Z.ldiff all_known bits = all_known).
    { apply Z.bits_inj'. intros n Hn. rewrite Z.add_nocarry_lxor.
      - rewrite Z.lxor_spec, Z.land_spec, Z.ldiff_spec.
        by destruct (Z.testbit all_known n), (Z.testbit bits n).
      - apply Z.bits_inj'. intros m Hm.
        rewrite !Z.land_spec, Z.ldiff_spec, Z.testbit_0_l.
        by destruct (Z.testbit all_known m), (Z.testbit bits m). }
    assert (0 <= Z.ldiff all_known bits) by (apply Z.ldiff_nonneg; by left). lia. }
  assert (all_known = 1662) as Hk by reflexivity. lia.
Qed.

(** On the finite range, the acceptance test and the list agree. *)
Definition checkBits_agrees (n : Z) : bool :=
  match checkBits n with
  | Ret b => (b =? n) && bool_decide (n ∈ reportable)
  | Throw _ => negb (bool_decide (n ∈ reportable))
  | _ => false
  end.

Lemma checkBits_table : forallb checkBits_agrees (map Z.of_nat (seq 0 2048)) = true.
Proof. vm_compute. reflexivity. Qed.

Lemma checkBits_agrees_range n : 0 <= n < 2048 -> checkBits_agrees n = true.
Proof.
  intros Hn. pose proof checkBits_table as H. rewrite forallb_forall in H.
  apply H, in_map_iff. exists (Z.to_nat n). split; [lia|]. apply in_seq. lia.
Qed.

Lemma reportable_range n : n ∈ reportable -> 0 <= n < 2048.
Proof.
  assert (H : forallb (fun n => (0 <=? n) && (n <? 2048)) reportable = true) by reflexivity.
  rewrite forallb_forall in H. intros Hn. apply list_elem_of_In, H in Hn. lia.
Qed.

Lemma checkBits_spec n :
  (n ∈ reportable -> checkBits n = Ret n) /\
  (n ∉ reportable -> exists msg, checkBits n = Throw msg).
Proof.
  split.
  - intros Hn. pose proof (checkBits_agrees_range n (reportable_range n Hn)) as H.
    unfold checkBits_agrees in H. destruct (checkBits n) as [b| | |]; bprop; try discriminate.
    + congruence.
    + done.
  - intros Hn. destruct (checkBits n) as [b|msg| |] eqn:E; [|by exists msg| |].
    + assert (Hr : 0 <= n < 2048).
      { unfold checkBits in E. inv_ret. apply known_range.
        unfold all_known. rewrite <- foldl_land_lnot. by apply Z.eqb_eq. }
      pose proof (checkBits_agrees_range n Hr) as H. unfold checkBits_agrees in H.
      rewrite E in H. bprop. done.
    + unfold checkBits, require in E. by repeat (case_match; simpl in E; try discriminate).
    + unfold checkBits, require in E. by repeat (case_match; simpl in E; try discriminate).
Qed.

(** ** A task that keeps failing

    One failed run: the runner computes the next back-off from the previous
    status, marks the task running, and later stores the error status. *)
Section Retries.

Lemma update_running now st rt :
  hasSavedBackoff st = false -> update st rt (running now) = Ret (running now).
Proof. intros Hs. unfold update. by rewrite Hs. Qed.

Lemma update_error now d st rt :
  hasSavedBackoff st = false ->
  update st rt (errorBackoff now d) =
    Ret (mkStatus d now (u32 (seconds (rt_nextBackoffDuration rt)))
      (if noMoreBackoffs (rt_nextBackoffDuration rt)
       then Bits.replaceBit (Z.lor Bits.Error Bits.UsesBackoff) Bits.Error Bits.Failed
       else Z.lor Bits.Error Bits.UsesBackoff)).
Proof.
  intros Hs. unfold update. rewrite Hs. cbn [mbind outcome_bind].
  change (usesBackoff (errorBackoff now d)) with true.
  change (Bits.allSet (bits_ (errorBackoff now d)) Bits.DoesNotAdvanceBackoff) with false.
  change (Bits.allSet (bits_ (errorBackoff now d)) Bits.Error) with true.
  by destruct (noMoreBackoffs _).
Qed.

Context (now : Z) (job node : string) (d : option dynamic) (s : JobBackoffSettings).

Definition run_with (bd : BackoffDuration) : RunningTask :=
  mkRunningTask job node [] "" (mkInstanceID now 0) bd 0.

Definition failing_run (prev : option TaskStatus) : outcome (option TaskStatus) :=
  let* bd := nextBackoffDuration_for s prev in
  let* st := update (default (emptyStatus now) prev) (run_with bd) (running now) in
  let* st := update st (run_with bd) (errorBackoff now d) in
  Ret (Some st).

Fixpoint failing_runs (n : nat) : outcome (option TaskStatus) :=
  match n with
  | O => Ret None
  | S n' => let* prev := failing_runs n' in failing_run prev
  end.

(** The status stored after a failed run whose back-off was [bd]. *)
Definition status_after (bd : BackoffDuration) : TaskStatus :=
  mkStatus d now (u32 (seconds bd))
    (if noMoreBackoffs bd
     then Bits.replaceBit (Z.lor Bits.Error Bits.UsesBackoff) Bits.Error Bits.Failed
     else Z.lor Bits.Error Bits.UsesBackoff).

Lemma failing_run_status prev bd :
  (forall st, prev = Some st -> hasSavedBackoff st = false) ->
  nextBackoffDuration_for s prev = Ret bd ->
  failing_run prev = Ret (Some (status_after bd)).
Proof.
  intros Hprev Hbd. unfold failing_run. rewrite Hbd. cbn [mbind outcome_bind].
  assert (Hs : hasSavedBackoff (default (emptyStatus now) prev) = false).
  { destruct prev; simpl; [by apply Hprev|reflexivity]. }
  rewrite update_running by exact Hs. cbn [mbind outcome_bind].
  by rewrite update_error.
Qed.

Lemma configured_status_after bd :
  noMoreBackoffs bd = false -> 0 <= seconds bd < 2 ^ 31 ->
  configuredBackoffDuration (status_after bd) = Ret bd.
Proof.
  intros Hn Hs. unfold configuredBackoffDuration, status_after. rewrite Hn.
  change (isFailed _) with false. change (hasSavedBackoff _) with false.
  cbn [mbind outcome_bind backoffDuration_]. unfold u32.
  rewrite Z.mod_small, s32_id by (unfold is_s32; lia). by destruct bd; simpl in *; subst.
Qed.

(** The runs follow the durations of [nth_backoff]. *)
Lemma failing_runs_follow n bd bd' :
  nth_backoff s n = Ret bd -> noMoreBackoffs bd = false -> 0 <= seconds bd < 2 ^ 31 ->
  getNext s bd = Ret bd' ->
  (n = 0%nat \/ failing_runs n = Ret (Some (status_after bd))) ->
  failing_runs (S n) = Ret (Some (status_after bd')).
Proof.
  intros Hn Hmore Hsec Hnext Hprev.
  assert (exists prev, failing_runs n = Ret prev /\
            (forall st, prev = Some st -> hasSavedBackoff st = false) /\
            nextBackoffDuration_for s prev = Ret bd') as (prev & E & Hs & Hbd).
  { destruct Hprev as [->|E].
    - exists None. split; [reflexivity|]. split; [discriminate|].
      simpl in Hn |- *. injection Hn as <-. exact Hnext.
    - exists (Some (status_after bd)). split; [exact E|]. split.
      + intros st [= <-]. unfold status_after. by rewrite Hmore.
      + simpl. by rewrite configured_status_after. }
  cbn [failing_runs]. rewrite E. cbn [mbind outcome_bind].
  by apply failing_run_status.
Qed.

Lemma failing_runs_lookup k x :
  backoff_wf s -> values_ s !! k = Some x ->
  failing_runs (S k) = Ret (Some (status_after (mkBackoffDuration false x))).
Proof.
  intros Hwf. revert x; induction k as [|k IH]; intros x Hk.
  - apply (failing_runs_follow 0 (mkBackoffDuration false 0)); auto; simpl; try lia.
    apply (getNext_split s 0 x Hwf Hk); [done|discriminate].
  - destruct (lookup_lt_is_Some_2 (values_ s) k) as [p Hkp].
    { apply lookup_lt_Some in Hk. lia. }
    assert (0 < p < 2 ^ 31).
    { destruct Hwf as (_ & Hp & _). by apply (Forall_lookup_1 _ _ _ _ Hp Hkp). }
    apply (failing_runs_follow (S k) (mkBackoffDuration false p)); auto; simpl; try lia.
    + by apply (nth_backoff_lookup s k p).
    + apply (getNext_split s (S k) x Hwf Hk); [discriminate|].
      intros k' [= <-]. exact Hkp.
Qed.

Lemma failing_runs_exhausted :
  backoff_wf s ->
  failing_runs (S (length (values_ s))) =
    Ret (Some (status_after
      (if repeat_ s then mkBackoffDuration false (default 0 (last (values_ s)))
       else mkBackoffDuration true 60))).
Proof.
  intros Hwf. destruct (last (values_ s)) as [p|] eqn:HL.
  - apply last_Some in HL as HL'. destruct HL' as (l & Hl).
    assert (Hk : values_ s !! length l = Some p).
    { rewrite Hl. by apply list_lookup_middle. }
    assert (Hlen : length (values_ s) = S (length l)).
    { rewrite Hl, length_app. simpl. lia. }
    assert (0 < p < 2 ^ 31).
    { destruct Hwf as (_ & Hp & _). by apply (Forall_lookup_1 _ _ _ _ Hp Hk). }
    rewrite Hlen.
    apply (failing_runs_follow (S (length l)) (mkBackoffDuration false p));
      [by apply nth_backoff_lookup|done|simpl; lia| |right; by apply failing_runs_lookup].
    pose proof (getNext_exhausted s p Hwf) as H'. rewrite HL in H'. apply H'. by left.
  - apply last_None in HL as HL'. rewrite HL'. cbn [length].
    apply (failing_runs_follow 0 (mkBackoffDuration false 0)); [done|done|simpl; lia| |by left].
    pose proof (getNext_exhausted s 0 Hwf) as H'. rewrite HL in H'. apply H'. by right.
Qed.

End Retries.

(** ** Properties *)

(** [checkBits] accepts a reported 64-bit word exactly when it has one
    of the result bits Running, Done, Incomplete, Failed, Error and otherwise
    only the three modifier bits; it returns the word unchanged and throws on
    every other word. *)
Theorem checkBits_accepts n :
  (n ∈ reportable -> checkBits n = Ret n) /\
  (n ∉ reportable -> exists msg, checkBits n = Throw msg).
Proof. apply checkBits_spec. Qed.

(** [update] ends the process exactly when the incoming status uses
    and advances back-off without the Error bit while the task has no more
    back-offs; on every other well-formed input it returns. *)
Theorem update_crashes_iff st rt new :
  status_wf st ->
  (exists msg, update st rt new = Crash msg) <->
  usesBackoff new = true /\
  Bits.allSet (bits_ new) Bits.DoesNotAdvanceBackoff = false /\
  Bits.allSet (bits_ new) Bits.Error = false /\
  noMoreBackoffs (rt_nextBackoffDuration rt) = true.
Proof.
  intros Hst. unfold update. destruct (prev_backoff_ret st rt Hst) as [p ->].
  cbn [mbind outcome_bind].
  destruct (usesBackoff new); [|naive_solver].
  destruct (Bits.allSet (bits_ new) Bits.DoesNotAdvanceBackoff); [naive_solver|].
  destruct (noMoreBackoffs _); [|naive_solver].
  destruct (Bits.allSet (bits_ new) Bits.Error); naive_solver.
Qed.

(** The word [DONE | USES_BACKOFF] passes [checkBits], and a task that reports
    it on its last back-off stops the scheduler. *)
Lemma update_crashes_iff_witness :
  checkBits (Z.lor Bits.Done Bits.UsesBackoff) = Ret (Z.lor Bits.Done Bits.UsesBackoff) /\
  exists msg,
    update (running 100)
           (run_with 100 "job" "node" (mkBackoffDuration true 60))
           (status_data 200 (Z.lor Bits.Done Bits.UsesBackoff) None) = Crash msg.
Proof.
  split; [reflexivity|].
  apply (update_crashes_iff (running 100)); [apply running_wf|].
  repeat split; reflexivity.
Defined.

(** C12: A task that fails again and again, each time with an error that
    uses back-off, waits the durations its job configures in order -- after
    failure [k+1] its stored status is an error in back-off for
    [values_[k]] seconds -- and once they run out it is either kept at the
    last duration ("repeat") or permanently failed ("fail"). *)
Theorem retries_follow_backoff cfg s now job node data :
  JobBackoffSettings_of cfg = Ret s ->
  (forall k x, values_ s !! k = Some x ->
     failing_runs now job node data s (S k) =
       Ret (Some (mkStatus data now x (Z.lor Bits.Error Bits.UsesBackoff)))) /\
  exists st,
    failing_runs now job node data s (S (length (values_ s))) = Ret (Some st) /\
    isFailed st = negb (repeat_ s) /\
    (repeat_ s = true -> backoffDuration_ st = default 0 (last (values_ s))).
Proof.
  intros Hcfg. apply JobBackoffSettings_of_wf in Hcfg as Hwf.
  assert (Hsmall : forall k x, values_ s !! k = Some x -> u32 x = x).
  { intros k x Hk. destruct Hwf as (_ & Hp & _).
    pose proof (Forall_lookup_1 _ _ _ _ Hp Hk) as H. simpl in H.
    unfold u32. apply Z.mod_small. lia. }
  split.
  - intros k x Hk. rewrite (failing_runs_lookup _ _ _ _ _ _ _ Hwf Hk).
    unfold status_after. cbn [noMoreBackoffs seconds]. by rewrite (Hsmall k x Hk).
  - eexists. split; [by apply failing_runs_exhausted|].
    destruct (repeat_ s) eqn:Hr; split; try done. intros _.
    cbn [status_after seconds backoffDuration_].
    destruct (last (values_ s)) as [p|] eqn:HL; [|reflexivity].
    apply last_Some_elem_of in HL. apply list_elem_of_lookup in HL as [k Hk].
    by apply (Hsmall k).
Qed.

Lemma retries_follow_backoff_witness :
  failing_runs 100 "j" "n" None (mkBackoff [15; 60] false) 2 =
    Ret (Some (mkStatus None 100 60 96)) /\
  exists st, failing_runs 100 "j" "n" None (mkBackoff [15; 60] false) 3 = Ret (Some st) /\
    isFailed st = true.
Proof.
  destruct (retries_follow_backoff (DArray [DInt 15; DInt 60; DString "fail"])
    (mkBackoff [15; 60] false) 100 "j" "n" None eq_refl) as (H1 & st & H2 & H3 & _).
  split; [exact (H1 1%nat 60 eq_refl)|]. exists st. by split.
Defined.

(** ** [forgive] *)

Lemma assoc_set_saved kvs :
  saved_backoff_of (mkStatus (Some (DObject (assoc_set kBistroSavedBackoff (DInt 0) kvs)))
                             0 0 0) = Ret 0.
Proof. unfold saved_backoff_of. cbn [data_]. by rewrite assoc_set_eq. Qed.

(** The bits of a forgiven status. *)
Definition forgiven_bits (st : TaskStatus) : Z :=
  if isFailed st then Bits.replaceBit (bits_ st) Bits.Failed Bits.Error else bits_ st.

Lemma forgiven_bits_keep st k :
  0 <= k < 16 -> k <> 4 -> k <> 5 ->
  Z.testbit (forgiven_bits st) k = Z.testbit (bits_ st) k.
Proof.
  intros Hk H4 H5. unfold forgiven_bits. destruct (isFailed st); [|reflexivity].
  rewrite forgive_bits by exact Hk.
  rewrite (proj2 (Z.eqb_neq 5 k)), (proj2 (Z.eqb_neq 4 k)) by lia. by rewrite andb_true_r.
Qed.

Lemma forgiven_bits_failed st : Z.testbit (forgiven_bits st) 4 = false.
Proof.
  unfold forgiven_bits. destruct (isFailed st) eqn:E.
  - rewrite forgive_bits by lia. simpl. by rewrite andb_false_r.
  - by to_bits.
Qed.

Lemma forgive_cases st :
  status_wf st ->
  exists data backoff,
    forgive st = Ret (mkStatus data (timestamp_ st) backoff (forgiven_bits st)) /\
    (usesBackoff st = false -> data = data_ st /\ backoff = backoffDuration_ st) /\
    (usesBackoff st = true -> hasSavedBackoff st = false ->
       data = data_ st /\ backoff = 0) /\
    (usesBackoff st = true -> hasSavedBackoff st = true ->
       backoff = backoffDuration_ st /\
       saved_backoff_of (mkStatus data 0 0 0) = Ret 0).
Proof.
  intros Hwf. unfold forgive. fold (forgiven_bits st).
  set (st1 := mkStatus (data_ st) (timestamp_ st) (backoffDuration_ st) (forgiven_bits st)).
  assert (Hu : usesBackoff st1 = usesBackoff st).
  { to_bits. cbn [bits_ st1]. by apply forgiven_bits_keep. }
  assert (Hs : hasSavedBackoff st1 = hasSavedBackoff st).
  { to_bits. cbn [bits_ st1]. by apply forgiven_bits_keep. }
  rewrite Hu, Hs. destruct (usesBackoff st); [|by exists (data_ st), (backoffDuration_ st)].
  destruct (hasSavedBackoff st) eqn:Es; [|by exists (data_ st), 0].
  destruct (wf_saved st Hwf Es) as [n Hn]. unfold saved_backoff_of in Hn.
  cbn [st1 data_]. destruct (data_ st) as [[| | | | | |kvs]|]; try discriminate.
  destruct (assoc kBistroSavedBackoff kvs); [|discriminate].
  eexists _, _. split; [reflexivity|]. repeat split; try discriminate.
  apply assoc_set_saved.
Qed.

Lemma forgive_ok st :
  status_wf st ->
  exists st', forgive st = Ret st' /\ status_wf st' /\ isFailed st' = false /\
    isRunning st' = isRunning st /\ isDone st' = isDone st /\
    (hasSavedBackoff st = false ->
       forall t, timestamp_ st <= t -> isInBackoff st' t = false) /\
    (usesBackoff st = true -> hasSavedBackoff st = true ->
       backoffDuration_ st' = backoffDuration_ st /\
       configuredBackoffDuration st' = Ret (mkBackoffDuration false 0)).
Proof.
  intros Hwf. destruct (forgive_cases st Hwf) as (data & backoff & E & Hno & Hplain & Hlost).
  eexists. split; [exact E|].
  assert (Hsav : hasSavedBackoff st = true -> usesBackoff st = true ->
                 saved_backoff_of (mkStatus data 0 0 0) = Ret 0) by (intros; by apply Hlost).
  assert (Hbits : 0 <= forgiven_bits st < 2 ^ 16).
  { unfold forgiven_bits. destruct (isFailed st); [apply replaceBit_range|by apply wf_bits]. }
  assert (Huse : usesBackoff (mkStatus data (timestamp_ st) backoff (forgiven_bits st))
                 = usesBackoff st).
  { to_bits. cbn [bits_]. by apply forgiven_bits_keep. }
  assert (Hsave : hasSavedBackoff (mkStatus data (timestamp_ st) backoff (forgiven_bits st))
                  = hasSavedBackoff st).
  { to_bits. cbn [bits_]. by apply forgiven_bits_keep. }
  split_and!.
  - constructor; cbn [bits_ backoffDuration_]; [exact Hbits| |].
    + pose proof (wf_backoff st Hwf).
      destruct (usesBackoff st), (hasSavedBackoff st); naive_solver lia.
    + rewrite Hsave. intros Hs. destruct (usesBackoff st).
      * exists 0. rewrite <- (Hsav Hs eq_refl). by apply saved_backoff_same.
      * destruct (Hno eq_refl) as [-> _]. destruct (wf_saved st Hwf Hs) as [n Hn].
        exists n. rewrite <- Hn. by apply saved_backoff_same.
  - to_bits. apply forgiven_bits_failed.
  - to_bits. cbn [bits_]. by apply forgiven_bits_keep.
  - to_bits. cbn [bits_]. by apply forgiven_bits_keep.
  - intros Hs t Ht. unfold isInBackoff. rewrite Huse. cbn [timestamp_ backoffDuration_].
    destruct (usesBackoff st); [|reflexivity].
    destruct (Hplain eq_refl Hs) as [_ ->]. simpl. lia.
  - intros Hu Hs. destruct (Hlost Hu Hs) as [Hb Hz]. split; [exact Hb|].
    unfold configuredBackoffDuration. rewrite Hsave, Hs.
    assert (isFailed (mkStatus data (timestamp_ st) backoff (forgiven_bits st)) = false) as ->.
    { to_bits. apply forgiven_bits_failed. }
    by rewrite (saved_backoff_same _ (mkStatus data 0 0 0)), Hz.
Qed.

(** [forgive] on a well-formed status returns a well-formed status
    that is not failed and has the same other bits; unless the status came
    from a lost worker, the task is out of back-off at once; for a lost
    worker's task the effective back-off stays as it was, and the one the
    next back-off is computed from is reset to zero. *)
Theorem forgive_spec st :
  status_wf st ->
  exists st', forgive st = Ret st' /\ status_wf st' /\ isFailed st' = false /\
    isRunning st' = isRunning st /\ isDone st' = isDone st /\
    (hasSavedBackoff st = false ->
       forall t, timestamp_ st <= t -> isInBackoff st' t = false) /\
    (usesBackoff st = true -> hasSavedBackoff st = true ->
       backoffDuration_ st' = backoffDuration_ st /\
       configuredBackoffDuration st' = Ret (mkBackoffDuration false 0)).
Proof. apply forgive_ok. Qed.

Lemma forgive_spec_witness :
  exists st', forgive (workerLost 100 "shard" 60) = Ret st' /\ isFailed st' = false /\
    configuredBackoffDuration st' = Ret (mkBackoffDuration false 0).
Proof.
  destruct (forgive_spec (workerLost 100 "shard" 60) (workerLost_wf _ _ _))
    as (st' & H1 & _ & H2 & _ & _ & _ & H3).
  exists st'. split; [exact H1|]. split; [exact H2|]. by apply H3.
Defined.

(** ** [fromString] *)

Section FromStringFacts.

Context (parseJson : string -> outcome dynamic).
Context (asInt : dynamic -> outcome Z).
Context (asString : dynamic -> outcome string).

(** folly reports errors of these calls by exceptions only. *)
Definition only_throws {A} (m : outcome A) : Prop :=
  (exists a, m = Ret a) \/ (exists e, m = Throw e).

Hypothesis parseJson_throws : forall s, only_throws (parseJson s).
Hypothesis asInt_throws : forall d, only_throws (asInt d).
Hypothesis asString_throws : forall d, only_throws (asString d).

(** What a parsed status looks like: fresh, with reportable bits. *)
Definition parsed_ok (now : Z) (st : TaskStatus) : Prop :=
  timestamp_ st = now /\ backoffDuration_ st = 0 /\ bits_ st ∈ reportable.

Lemma makeDataPtr_obj d :
  d = None \/ (exists kvs, d = Some (DObject kvs)) ->
  exists p, makeDataPtr d = Ret p.
Proof.
  intros [->|(kvs & ->)]; simpl; [eauto|]. destruct kvs; eauto.
Qed.

Lemma fromSimpleLabel_obj now label d :
  d = None \/ (exists kvs, d = Some (DObject kvs)) ->
  exists o, fromSimpleLabel now label d = Ret o /\
    (forall st, o = Some st -> parsed_ok now st).
Proof.
  intros Hd. destruct (makeDataPtr_obj d Hd) as [p Hp].
  unfold fromSimpleLabel. rewrite Hp.
  repeat case_bool_decide; simpl;
    (eexists; split; [reflexivity|]; intros st Hst; try discriminate;
     injection Hst as <-; repeat split; apply list_elem_of_In; vm_compute; tauto).
Qed.

Lemma assoc_set_cases k k' v kvs :
  assoc k (assoc_set k' v kvs) = if decide (k = k') then Some v else assoc k kvs.
Proof.
  induction kvs as [|[j w] kvs IH]; simpl.
  - case_decide; by case_bool_decide.
  - destruct (bool_decide_reflect (k' = j)) as [<-|Hj]; simpl.
    + case_decide; by case_bool_decide.
    + rewrite IH. case_bool_decide; [|reflexivity].
      rewrite decide_False by congruence. reflexivity.
Qed.

Lemma erase_saved_backoff_ok kvs :
  (exists kvs', erase_saved_backoff kvs = Ret kvs' /\
     (assoc kData kvs' = None \/ exists o, assoc kData kvs' = Some (DObject o))) \/
  (exists e, erase_saved_backoff kvs = Throw e).
Proof.
  unfold erase_saved_backoff.
  destruct (assoc kData kvs) as [[| | | | | |o]|] eqn:E; try (by right; eexists); left.
  - eexists. split; [reflexivity|]. right. rewrite assoc_set_eq. by eexists.
  - exists kvs. by split; [|left].
Qed.

Lemma parse_status_ok now raw :
  (exists st, parse_status parseJson asInt asString now raw = Ret st /\ parsed_ok now st) \/
  (exists e, parse_status parseJson asInt asString now raw = Throw e).
Proof.
  unfold parse_status.
  destruct (parseJson_throws raw) as [[d ->]|[e ->]]; cbn [mbind outcome_bind]; [|by right; exists e].
  destruct d as [| | | | | |kvs]; try (by right; eexists).
  destruct (erase_saved_backoff_ok kvs) as [(kvs' & -> & Hk)|[e ->]];
    cbn [mbind outcome_bind]; [|by right; exists e].
  destruct (assoc kResultBits kvs') as [b|] eqn:Eb.
  - destruct (asInt_throws b) as [[n ->]|[e ->]]; cbn [mbind outcome_bind]; [|by right; exists e].
    destruct (decide (n ∈ reportable)) as [Hn|Hn].
    + rewrite (proj1 (checkBits_spec n) Hn). cbn [mbind outcome_bind].
      rewrite assoc_erase_ne by discriminate.
      destruct (makeDataPtr_obj _ Hk) as [p ->]. left. eexists. by split.
    + destruct (proj2 (checkBits_spec n) Hn) as [msg ->]. by right; exists msg.
  - destruct (assoc kResult kvs') as [r|]; [|by right; eexists].
    destruct (asString_throws r) as [[s ->]|[e ->]]; cbn [mbind outcome_bind];
      [|by right; exists e].
    rewrite assoc_erase_ne by discriminate.
    destruct (fromSimpleLabel_obj now s _ Hk) as (o & -> & Ho). cbn [mbind outcome_bind].
    destruct o as [st|]; [left; exists st; split; [done|by apply Ho]|by right; eexists].
Qed.

Lemma fromString_ok now raw :
  exists st, fromString parseJson asInt asString now raw = Ret st /\ parsed_ok now st.
Proof.
  unfold fromString.
  destruct (fromSimpleLabel_obj now raw None (or_introl eq_refl)) as (o & -> & Ho).
  cbn [mbind outcome_bind]. destruct o as [st|]; [exists st; split; [done|by apply Ho]|].
  destruct (parse_status_ok now raw) as [(st & -> & Hst)|(e & ->)]; [by exists st|].
  eexists. split; [reflexivity|]. repeat split. apply list_elem_of_In. vm_compute. tauto.
Qed.

End FromStringFacts.

Lemma reportable_no_saved n : n ∈ reportable -> Z.testbit n 11 = false.
Proof.
  assert (H : forallb (fun n => negb (Z.testbit n 11)) reportable = true) by reflexivity.
  rewrite forallb_forall in H. intros Hn. apply list_elem_of_In, H in Hn. by bprop.
Qed.

(** Whatever string a task reports, [fromString] returns: it never
    throws and never ends the process, as long as folly's calls report errors
    by exceptions.  The status carries the scheduler's clock, no back-off
    duration, reportable bits, and never a saved back-off, so a task cannot
    forge one. *)
Theorem fromString_total parseJson asInt asString now raw :
  (forall s, only_throws (parseJson s)) ->
  (forall d, only_throws (asInt d)) ->
  (forall d, only_throws (asString d)) ->
  exists st, fromString parseJson asInt asString now raw = Ret st /\
    timestamp_ st = now /\ backoffDuration_ st = 0 /\
    bits_ st ∈ reportable /\ hasSavedBackoff st = false.
Proof.
  intros H1 H2 H3.
  destruct (fromString_ok parseJson asInt asString H1 H2 H3 now raw) as (st & E & Ht & Hb & Hr).
  exists st. split_and!; auto. to_bits. by apply reportable_no_saved.
Qed.

(** A parser that rejects everything, and conversions that accept only the
    exact type. *)
Definition int_only (d : dynamic) : outcome Z :=
  match d with DInt n => Ret n | _ => Throw "TypeError" end.
Definition string_only (d : dynamic) : outcome string :=
  match d with DString s => Ret s | _ => Throw "TypeError" end.

Lemma fromString_total_witness :
  exists st, fromString (fun _ => Ret (DObject [(kResultBits, DInt 2048)]))
               int_only string_only 7 "{..}" = Ret st /\
    timestamp_ st = 7 /\ hasSavedBackoff st = false.
Proof.
  destruct (fromString_total (fun _ => Ret (DObject [(kResultBits, DInt 2048)]))
              int_only string_only 7 "{..}") as (st & E & Ht & _ & _ & Hs).
  - intros s. left. by eexists.
  - intros d. unfold only_throws, int_only. destruct d; eauto.
  - intros d. unfold only_throws, string_only. destruct d; eauto.
  - exists st. by split_and!.
Defined.

Lemma toDynamicNoTime_data st : assoc kData (toDynamicNoTime st) = data_ st.
Proof. unfold toDynamicNoTime. by destruct (data_ st). Qed.

Lemma toDynamicNoTime_erase st :
  (data_ st = None \/ exists kvs, data_ st = Some (DObject kvs) /\ kvs <> [] /\
     assoc kBistroSavedBackoff kvs = None) ->
  erase_saved_backoff (toDynamicNoTime st) = Ret (toDynamicNoTime st).
Proof.
  intros Hd. unfold erase_saved_backoff. rewrite toDynamicNoTime_data.
  destruct Hd as [Hd|(kvs & Hd & _ & Hs)]; rewrite Hd; [reflexivity|].
  rewrite (assoc_erase_None _ _ Hs). unfold toDynamicNoTime. by rewrite Hd.
Qed.

(** The worker-to-scheduler encoding of a status round-trips: parsing
    the JSON text of [toDynamicNoTime] gives back the bits and the data (an
    empty data object is dropped), with a new timestamp, when the bits are
    reportable and the data holds no private saved back-off.  Assumed of
    folly: parsing inverts printing on this object, and the text of an
    object starts with a brace. *)
Theorem status_roundtrip parseJson asInt asString toJson now st :
  parseJson (toJson (DObject (toDynamicNoTime st))) = Ret (DObject (toDynamicNoTime st)) ->
  (exists text, toJson (DObject (toDynamicNoTime st)) = "{" +:+ text) ->
  (forall n, asInt (DInt n) = Ret n) ->
  bits_ st ∈ reportable ->
  (data_ st = None \/ exists kvs, data_ st = Some (DObject kvs) /\ kvs <> [] /\
     assoc kBistroSavedBackoff kvs = None) ->
  fromString parseJson asInt asString now (toJson (DObject (toDynamicNoTime st)))
  = Ret (mkStatus (data_ st) now 0 (bits_ st)).
Proof.
  intros Hparse [text Htext] Hint Hbits Hdata. unfold fromString.
  assert (Hlabel : fromSimpleLabel now (toJson (DObject (toDynamicNoTime st))) None = Ret None).
  { rewrite Htext. unfold fromSimpleLabel. by rewrite !bool_decide_false by discriminate. }
  rewrite Hlabel. cbn [mbind outcome_bind]. unfold parse_status. rewrite Hparse.
  cbn [mbind outcome_bind].
  rewrite (toDynamicNoTime_erase st Hdata). cbn [mbind outcome_bind].
  change (assoc kResultBits (toDynamicNoTime st)) with (Some (DInt (bits_ st))).
  cbv iota beta. rewrite Hint. cbn [mbind outcome_bind].
  rewrite (proj1 (checkBits_spec _) Hbits). cbn [mbind outcome_bind].
  rewrite assoc_erase_ne, toDynamicNoTime_data by discriminate.
  destruct Hdata as [->|(kvs & -> & Hne & _)]; [reflexivity|].
  by destruct kvs.
Qed.

Lemma status_roundtrip_witness :
  fromString (fun _ => Ret (DObject (toDynamicNoTime (errorBackoff_msg 5 "oops"))))
    int_only string_only 9 "{text}"
  = Ret (mkStatus (Some (DObject [(kException, DString "oops")])) 9 0 96).
Proof.
  apply (status_roundtrip
    (fun _ => Ret (DObject (toDynamicNoTime (errorBackoff_msg 5 "oops"))))
    int_only string_only (fun _ => "{text}") 9 (errorBackoff_msg 5 "oops")).
  - reflexivity.
  - by exists "text}".
  - reflexivity.
  - apply list_elem_of_In. vm_compute. tauto.
  - right. eexists. by split_and!.
Defined.
