(* ===== verification/SymbolTable.v ===== *)
(** [utils/SymbolTable.h]: the fixed mapping of names to consecutive small
    integers, used for job, node, level and resource names.  [NotFound] (-1)
    is [None]. *)

From stdpp Require Import base gmap strings list.
From S2P Require Import Prelude.

Record StringTable := mkTable {
  objToIndex_ : gmap string nat;
  objects_ : list string
}.

(** [SymbolTable()]. *)
Definition emptyTable : StringTable := mkTable ∅ [].

(** [SymbolTable(std::initializer_list<T>)]: the loop overwrites the index of
    a repeated object. *)
Definition tableOf (items : list string) : StringTable :=
  mkTable (foldl (fun m p => <[p.2 := p.1]> m) ∅ (imap pair items)) items.

(** [lookup(const T&)]. *)
Definition lookup_obj (t : StringTable) (obj : string) : option nat := objToIndex_ t !! obj.

(** [insert]. *)
Definition insert_obj (t : StringTable) (obj : string) : StringTable * nat :=
  match objToIndex_ t !! obj with
  | Some i => (t, i)
  | None =>
      let index := length (objects_ t) in
      (mkTable (<[obj := index]> (objToIndex_ t)) (objects_ t ++ [obj]), index)
  end.

(** [lookup(int id)]: out of range is undefined behaviour. *)
Definition lookup_id (t : StringTable) (id : nat) : outcome string :=
  match objects_ t !! id with
  | Some s => Ret s
  | None => Undef "objects_[id] out of range"
  end.

(** The two directions of the table agree. *)
Definition table_wf (t : StringTable) : Prop :=
  forall s i, objToIndex_ t !! s = Some i <-> objects_ t !! i = Some s.

Lemma emptyTable_wf : table_wf emptyTable.
Proof. intros s i. simpl. rewrite lookup_empty. split; discriminate. Qed.

Lemma insert_obj_wf t s : table_wf t -> table_wf (insert_obj t s).1.
Proof.
  intros Hwf. unfold insert_obj. destruct (objToIndex_ t !! s) as [i|] eqn:E; [done|].
  intros s' j. simpl. rewrite lookup_insert. case_decide as Hs.
  - subst s'. split.
    + intros [= <-]. by apply list_lookup_middle.
    + intros [H|[Hge H]]%lookup_app_Some.
      * apply Hwf in H. congruence.
      * apply list_lookup_singleton_Some in H as [H _]. f_equal. lia.
  - rewrite (Hwf s' j). split.
    + intros H. by apply lookup_app_l_Some.
    + intros [H|[Hge H]]%lookup_app_Some; [done|].
      apply list_lookup_singleton_Some in H as [_ H]. congruence.
Qed.

Lemma insert_obj_lookup t s : lookup_obj (insert_obj t s).1 s = Some (insert_obj t s).2.
Proof.
  unfold insert_obj, lookup_obj. destruct (objToIndex_ t !! s) eqn:E; simpl; [done|].
  by rewrite lookup_insert_eq.
Qed.

Lemma insert_obj_stable t s s' i :
  table_wf t -> lookup_obj t s' = Some i -> lookup_obj (insert_obj t s).1 s' = Some i.
Proof.
  unfold insert_obj, lookup_obj. intros _ H. destruct (objToIndex_ t !! s) eqn:E; simpl; [done|].
  rewrite lookup_insert_ne; [done|congruence].
Qed.

(** Inserting a name yields an index that looks up to that name in
    both directions, keeps every index handed out before, gives distinct
    names distinct indices, and inserting again changes nothing. *)
Theorem symbol_table_insert t s :
  table_wf t ->
  let '(t', i) := insert_obj t s in
  table_wf t' /\ lookup_obj t' s = Some i /\ lookup_id t' i = Ret s /\
  (forall s' j, lookup_obj t s' = Some j -> lookup_obj t' s' = Some j) /\
  (forall s' j, lookup_obj t' s' = Some j -> j = i -> s' = s) /\
  insert_obj t' s = (t', i).
Proof.
  intros Hwf. pose proof (insert_obj_wf t s Hwf) as Hwf'.
  pose proof (insert_obj_lookup t s) as Hl.
  pose proof (fun s' j => insert_obj_stable t s s' j Hwf) as Hst.
  destruct (insert_obj t s) as [t' i]; simpl in *.
  split_and!; auto.
  - unfold lookup_id. apply Hwf' in Hl. by rewrite Hl.
  - intros s' j Hj ->. apply Hwf' in Hj. apply Hwf' in Hl. congruence.
  - unfold insert_obj. unfold lookup_obj in Hl. by rewrite Hl.
Qed.

Lemma symbol_table_insert_witness :
  lookup_id (insert_obj emptyTable "instance").1 0 = Ret "instance".
Proof.
  apply (symbol_table_insert emptyTable "instance" emptyTable_wf).
Defined.
