(* ===== verification/Snapshot.v ===== *)
(** [statuses/TaskStatusSnapshot.{h,cpp}] and [statuses/TaskStatuses.cpp]: the
    scheduler's table of task statuses, the map of running tasks, and the
    operations that move a task between "running" and "not running". *)

From stdpp Require Import base gmap strings list.
From Stdlib Require Import ZArith Lia.
From S2P Require Import Prelude Thrift Dynamic Backoff TaskStatus SymbolTable.

(** ** State *)

(** [TaskStatusSnapshot::StatusRow]. *)
Record StatusRow := mkRow { isLoaded_ : bool; statuses_ : list TaskStatus }.

(** [StatusRow()]. *)
Definition emptyRow : StatusRow := mkRow false [].

(** A task: [std::pair<Job::ID, Node::ID>]. *)
Abbreviation TaskKey := (nat * nat)%type.

Record TaskStatusSnapshot := mkSnapshot {
  rows_ : list StatusRow;
  runningTasks_ : gmap TaskKey RunningTask
}.

(** What a [noexcept] function makes of an exception. *)
Definition noexcept {A} (m : outcome A) : outcome A :=
  match m with Throw e => Crash e | o => o end.

(** ** Cells of the table *)

(** The resizing of [TaskStatusSnapshot::access]; new cells are default
    constructed. *)
Definition access_rows (now : Z) (rows : list StatusRow) (job_id node_id : nat)
    : list StatusRow :=
  let rows := if (length rows <=? job_id)%nat then resize (S job_id) emptyRow rows else rows in
  alter (fun row =>
    if (length (statuses_ row) <=? node_id)%nat
    then mkRow (isLoaded_ row) (resize (S node_id) (emptyStatus now) (statuses_ row))
    else row) job_id rows.

(** [rows_[job_id].statuses_[node_id]], if there is such a cell. *)
Definition cell (rows : list StatusRow) (job_id node_id : nat) : option TaskStatus :=
  row ← rows !! job_id; statuses_ row !! node_id.

(** Assignment through the reference [access] returns. *)
Definition set_cell (rows : list StatusRow) (job_id node_id : nat) (st : TaskStatus)
    : list StatusRow :=
  alter (fun row => mkRow (isLoaded_ row) (<[node_id := st]> (statuses_ row))) job_id rows.

(** ** [TaskStatusSnapshot::updateStatus] *)
Definition updateStatus (now : Z) (snap : TaskStatusSnapshot) (job_id node_id : nat)
    (rt : RunningTask) (status : TaskStatus) : outcome (TaskStatusSnapshot * TaskStatus) :=
  let rows := access_rows now (rows_ snap) job_id node_id in
  let stored_status := default (emptyStatus now) (cell rows job_id node_id) in
  let task_id := (job_id, node_id) in
  let it := runningTasks_ snap !! task_id in
  match it with
  | Some cur =>
      CHECK (bool_decide (rt_invocationID cur = rt_invocationID rt))
        "Cannot updateStatus since the invocation IDs don't match"
  | None => Ret tt
  end ;;;
  (* [finish]: the last statement, replacing the old status with the new *)
  let finish (running : gmap TaskKey RunningTask) :=
    let* new_status := noexcept (update stored_status rt status) in
    Ret (mkSnapshot (set_cell rows job_id node_id new_status) running, new_status) in
  if isRunning status then
    match it with
    | Some _ => finish (runningTasks_ snap)  (* logs "already RUNNING" *)
    | None => finish (<[task_id := rt]> (runningTasks_ snap))
    end
  else
    match it with
    | None =>
        if isOverwriteable status then
          CHECK (negb (isRunning stored_status)) "CHECK(!stored_status.isRunning())" ;;;
          Ret (mkSnapshot rows (runningTasks_ snap), stored_status)
        else if isOverwriteable stored_status then finish (runningTasks_ snap)
        else Ret (mkSnapshot rows (runningTasks_ snap), stored_status)
    | Some _ => finish (delete task_id (runningTasks_ snap))
    end.

(** ** Accessors *)

(** [TaskStatusSnapshot::isJobLoaded]. *)
Definition isJobLoaded (snap : TaskStatusSnapshot) (job_id : nat) : bool :=
  match rows_ snap !! job_id with Some row => isLoaded_ row | None => false end.

(** The final lookup of [getPtr]: out of range and empty statuses give null. *)
Definition row_getPtr (row : StatusRow) (node_id : nat) : option TaskStatus :=
  match statuses_ row !! node_id with
  | Some st => if isEmpty st then None else Some st
  | None => None
  end.

(** [TaskStatusSnapshot::getPtr]. *)
Definition getPtr (snap : TaskStatusSnapshot) (job_id node_id : nat)
    : outcome (option TaskStatus) :=
  match rows_ snap !! job_id with
  | None => Ret None
  | Some row =>
      CHECK (isLoaded_ row) "Job not loaded" ;;;
      Ret (row_getPtr row node_id)
  end.

(** [TaskStatusSnapshot::getRow]; [None] is the null row. *)
Definition getRow (snap : TaskStatusSnapshot) (job_id : nat) : outcome (option StatusRow) :=
  match rows_ snap !! job_id with
  | None => Ret None
  | Some row => CHECK (isLoaded_ row) "Job not loaded" ;;; Ret (Some row)
  end.

(** [detail::TaskStatusRow::getPtr]. *)
Definition TaskStatusRow_getPtr (r : option StatusRow) (node_id : nat) : option TaskStatus :=
  match r with Some row => row_getPtr row node_id | None => None end.

(** [TaskStatusSnapshot::forgiveJob]. *)
Definition forgiveJob (snap : TaskStatusSnapshot) (job_id : nat) : outcome TaskStatusSnapshot :=
  match rows_ snap !! job_id with
  | None => Ret snap
  | Some row =>
      let* sts := foldM (fun acc st => let* st' := forgive st in Ret (acc ++ [st']))
                        [] (statuses_ row) in
      Ret (mkSnapshot (<[job_id := mkRow (isLoaded_ row) sts]> (rows_ snap))
                      (runningTasks_ snap))
  end.

(** ** [TaskStatusSnapshot::updateForConfig] *)

(** [TaskStore::TaskResult]; other integers can come back from a store. *)
Inductive TaskResult := DONE | FAILED | OTHER (n : Z).

(** A row delivered by [TaskStore::fetchJobTasks] to its callback. *)
Record StoreRow := mkStoreRow {
  sr_job : string; sr_node : string; sr_result : TaskResult; sr_timestamp : Z
}.

Record NameTables := mkNames { JobNameTable : StringTable; NodeNameTable : StringTable }.

(** First loop: mark the cells of running tasks, and keep their jobs.  An
    unknown name looks up to -1, which [access] cannot index. *)
Definition mark_running (now : Z) (names : NameTables)
    (acc : list StatusRow * gset nat) (rt : RunningTask)
    : outcome (list StatusRow * gset nat) :=
  let '(rows, current_jobs) := acc in
  match lookup_obj (JobNameTable names) (rt_job rt),
        lookup_obj (NodeNameTable names) (rt_node rt) with
  | Some job_id, Some node_id =>
      let rows := access_rows now rows job_id node_id in
      Ret (set_cell rows job_id node_id (running now), {[job_id]} ∪ current_jobs)
  | _, _ => Undef "access() with StringTable::NotFound"
  end.

(** Second loop: delete the rows of jobs that are not current. *)
Definition clear_deleted (current_jobs : gset nat) (rows : list StatusRow) : list StatusRow :=
  imap (fun job_id row =>
    if bool_decide (job_id ∉ current_jobs) && negb (bool_decide (statuses_ row = []))
    then emptyRow else row) rows.

(** Make room for the highest current job. *)
Definition max_job_id (current_jobs : gset nat) : Z :=
  foldr (fun j m => Z.max (Z.of_nat j) m) (-1) (elements current_jobs).
Definition grow_rows (current_jobs : gset nat) (rows : list StatusRow) : list StatusRow :=
  let m := max_job_id current_jobs in
  if Z.of_nat (length rows) <=? m then resize (Z.to_nat (m + 1)) emptyRow rows else rows.

(** The jobs to load. *)
Definition unloaded_jobs (current_jobs : gset nat) (rows : list StatusRow) : list nat :=
  List.filter
    (fun j => match rows !! j with Some row => negb (isLoaded_ row) | None => false end)
    (elements current_jobs).

(** The callback given to [fetchJobTasks].  For a task that is running it
    logs "Refusing to load status", and goes on. *)
Definition load_status (now : Z) (acc : list StatusRow * NameTables) (r : StoreRow)
    : outcome (list StatusRow * NameTables) :=
  let '(rows, names) := acc in
  match lookup_obj (JobNameTable names) (sr_job r) with
  | None => Crash "Job should be known"
  | Some job_id =>
      let '(nodes, node_id) := insert_obj (NodeNameTable names) (sr_node r) in
      let rows := access_rows now rows job_id node_id in
      let rows :=
        match sr_result r with
        | DONE => set_cell rows job_id node_id (done_at (sr_timestamp r))
        | FAILED => set_cell rows job_id node_id (failed now)
        | OTHER _ => rows
        end in
      Ret (rows, mkNames (JobNameTable names) nodes)
  end.

(** Last loop: mark all current jobs loaded. *)
Definition mark_loaded (current_jobs : gset nat) (rows : list StatusRow) : list StatusRow :=
  imap (fun job_id row =>
    if bool_decide (job_id ∈ current_jobs) then mkRow true (statuses_ row) else row) rows.

(** The whole of [updateForConfig].  [fetch] is the task store's query:
    it maps the names of the jobs to load to the rows it calls back with. *)
Definition updateForConfig (now : Z) (fetch : list string -> list StoreRow)
    (names : NameTables) (snap : TaskStatusSnapshot) (config_jobs : list nat)
    : outcome (TaskStatusSnapshot * NameTables) :=
  let current_jobs : gset nat := list_to_set config_jobs in
  let* (rows, current_jobs) :=
    foldM (mark_running now names) (rows_ snap, current_jobs)
          (map snd (map_to_list (runningTasks_ snap))) in
  let rows := clear_deleted current_jobs rows in
  let rows := grow_rows current_jobs rows in
  let* job_names :=
    foldM (fun acc j => let* s := lookup_id (JobNameTable names) j in Ret (acc ++ [s]))
          [] (unloaded_jobs current_jobs rows) in
  let* (rows, names) := foldM (load_status now) (rows, names) (fetch job_names) in
  Ret (mkSnapshot (mark_loaded current_jobs rows) (runningTasks_ snap), names).

(** ** [TaskStatuses] *)

(** The synchronized wrapper: the snapshot, the global name tables, and the
    results written to the task store so far. *)
Record TaskStatuses := mkTaskStatuses {
  snapshot_ : TaskStatusSnapshot;
  names_ : NameTables;
  persisted : list (string * string * TaskResult)
}.

Section TaskStatusesOps.

(** [taskStore_] (null, or its [store] call, which may throw) and the
    observers, whose exceptions are caught. *)
Context (taskStore_ : option (string -> string -> TaskResult -> outcome unit)).
Context (statusObservers_ : list (RunningTask -> TaskStatus -> outcome unit)).

(** The loop over the observers: an exception is logged and dropped. *)
Definition notify_observers (rt : RunningTask) (st : TaskStatus) : outcome unit :=
  foldM (fun _ observer =>
    match observer rt st with Throw _ => Ret tt | o => o end) tt statusObservers_.

(** [TaskStatuses::recordStatusUpdate]. *)
Definition recordStatusUpdate (ts : TaskStatuses) (rt : RunningTask) (new_status : TaskStatus)
    : outcome TaskStatuses :=
  notify_observers rt new_status ;;;
  match taskStore_ with
  | None => Ret ts
  | Some store =>
      let persist r :=
        match store (rt_job rt) (rt_node rt) r with
        | Throw _ => Crash "Failed to persist status"
        | o => let* _ := o in
               Ret (mkTaskStatuses (snapshot_ ts) (names_ ts)
                      (persisted ts ++ [(rt_job rt, rt_node rt, r)]))
        end in
      if isDone new_status then persist DONE
      else if isFailed new_status then persist FAILED
      else Ret ts
  end.

(** [TaskStatuses::updateStatus(job_id, node_id, rt, status)]. *)
Definition ts_updateStatus_ids (now : Z) (ts : TaskStatuses) (job_id node_id : nat)
    (rt : RunningTask) (status : TaskStatus) : outcome TaskStatuses :=
  let* (snap, stored_status) := updateStatus now (snapshot_ ts) job_id node_id rt status in
  recordStatusUpdate (mkTaskStatuses snap (names_ ts) (persisted ts)) rt stored_status.

(** [TaskStatuses::updateStatus(rt, status)]: looks up or creates the IDs. *)
Definition ts_updateStatus (now : Z) (ts : TaskStatuses) (rt : RunningTask)
    (status : TaskStatus) : outcome TaskStatuses :=
  let '(jobs, job_id) := insert_obj (JobNameTable (names_ ts)) (rt_job rt) in
  let '(nodes, node_id) := insert_obj (NodeNameTable (names_ ts)) (rt_node rt) in
  ts_updateStatus_ids now
    (mkTaskStatuses (snapshot_ ts) (mkNames jobs nodes) (persisted ts))
    job_id node_id rt status.

(** [TaskStatuses::updateForConfig]. *)
Definition ts_updateForConfig (now : Z) (fetch : list string -> list StoreRow)
    (ts : TaskStatuses) (config_jobs : list nat) : outcome TaskStatuses :=
  let* (snap, names) := updateForConfig now fetch (names_ ts) (snapshot_ ts) config_jobs in
  Ret (mkTaskStatuses snap names (persisted ts)).

(** [TaskStatuses::forgiveJob]. *)
Definition ts_forgiveJob (ts : TaskStatuses) (job : string) : outcome TaskStatuses :=
  match lookup_obj (JobNameTable (names_ ts)) job with
  | None => Throw "Invalid job id"
  | Some job_id =>
      let* snap := forgiveJob (snapshot_ ts) job_id in
      Ret (mkTaskStatuses snap (names_ ts) (persisted ts))
  end.

(** [TaskStatuses::copyRunningTask]. *)
Definition copyRunningTask (ts : TaskStatuses) (job_id node_id : nat) : option RunningTask :=
  runningTasks_ (snapshot_ ts) !! (job_id, node_id).

End TaskStatusesOps.

(** ** Lemmas on cells *)

Lemma length_access_rows now rows j n :
  (j < length (access_rows now rows j n))%nat.
Proof.
  unfold access_rows. rewrite length_alter.
  destruct (Nat.leb_spec (length rows) j); [rewrite length_resize|]; lia.
Qed.

Lemma length_set_cell rows j n st : length (set_cell rows j n st) = length rows.
Proof. apply length_alter. Qed.

(** Growing a list with a default keeps its elements and adds the default. *)
Lemma resize_lookup {A} (l : list A) k (x : A) i :
  (length l <= k)%nat ->
  resize k x l !! i = match l !! i with
                      | Some y => Some y
                      | None => if (i <? k)%nat then Some x else None
                      end.
Proof.
  intros Hk. rewrite resize_ge by exact Hk.
  destruct (l !! i) as [y|] eqn:E.
  - by apply lookup_app_l_Some.
  - apply lookup_ge_None in E. rewrite lookup_app_r by exact E.
    destruct (Nat.ltb_spec i k).
    + apply lookup_replicate_2. lia.
    + apply lookup_ge_None. rewrite length_replicate. lia.
Qed.

(** What a cell holds, with missing cells read as empty statuses.  This is
    the table as the scheduler sees it: [getPtr] returns null for both. *)
Definition view (rows : list StatusRow) (j n : nat) : option TaskStatus :=
  match cell rows j n with
  | Some st => if isEmpty st then None else Some st
  | None => None
  end.

Lemma cell_access_rows now rows j n j' n' :
  cell (access_rows now rows j n) j' n' =
    match cell rows j' n' with
    | Some st => Some st
    | None => if (decide (j' = j)) then
                if (n' <=? n)%nat then Some (emptyStatus now) else None
              else None
    end.
Proof.
  unfold access_rows, cell.
  set (rows1 := if (length rows <=? j)%nat then _ else _).
  assert (H1 : forall i, rows1 !! i =
    match rows !! i with
    | Some r => Some r
    | None => if (i <=? j)%nat then Some emptyRow else None
    end).
  { intros i. unfold rows1. destruct (Nat.leb_spec (length rows) j) as [Hl|Hl].
    - rewrite resize_lookup by lia. reflexivity.
    - destruct (rows !! i) eqn:E; [done|]. apply lookup_ge_None in E.
      destruct (Nat.leb_spec i j); [lia|done]. }
  rewrite list_lookup_alter. case_decide as Hj.
  - subst j'. rewrite (decide_True _ _ eq_refl), H1.
    assert (Hrow : forall row : StatusRow,
      statuses_ (if (length (statuses_ row) <=? n)%nat
         then mkRow (isLoaded_ row) (resize (S n) (emptyStatus now) (statuses_ row))
         else row) !! n' =
      match statuses_ row !! n' with
      | Some st => Some st
      | None => if (n' <=? n)%nat then Some (emptyStatus now) else None
      end).
    { intros row. destruct (Nat.leb_spec (length (statuses_ row)) n).
      - simpl. by rewrite resize_lookup by lia.
      - destruct (statuses_ row !! n') eqn:E; [done|]. apply lookup_ge_None in E.
        destruct (Nat.leb_spec n' n); [lia|done]. }
    destruct (rows !! j) as [row|]; simpl.
    + apply Hrow.
    + rewrite (proj2 (Nat.leb_le j j)) by lia. simpl. apply (Hrow emptyRow).
  - rewrite H1. rewrite (decide_False (P := j' = j)) by congruence.
    destruct (rows !! j') as [row|]; simpl; [by destruct (statuses_ row !! n')|].
    by destruct (j' <=? j)%nat.
Qed.

Lemma cell_set_cell rows j n st j' n' :
  cell (set_cell rows j n st) j' n' =
    if decide (j' = j /\ n' = n)
    then (match cell rows j n with Some _ => Some st | None => None end)
    else cell rows j' n'.
Proof.
  unfold set_cell, cell. rewrite list_lookup_alter.
  destruct (decide (j = j')) as [<-|Hj].
  - destruct (rows !! j) as [row|]; simpl; [|by case_decide].
    destruct (decide (n = n')) as [<-|Hn].
    + rewrite decide_True by done. destruct (statuses_ row !! n) as [y|] eqn:E.
      * apply lookup_lt_Some in E. by apply list_lookup_insert_eq.
      * rewrite list_insert_ge; [done|by apply lookup_ge_None].
    + rewrite decide_False by naive_solver. by apply list_lookup_insert_ne.
  - rewrite decide_False by naive_solver. done.
Qed.

Lemma access_cell_is_Some now rows j n :
  exists st, cell (access_rows now rows j n) j n = Some st.
Proof.
  rewrite cell_access_rows. destruct (cell rows j n) as [st|]; [eauto|].
  rewrite decide_True by done. rewrite (proj2 (Nat.leb_le n n)) by lia. eauto.
Qed.

Lemma view_access_rows now rows j n j' n' :
  view (access_rows now rows j n) j' n' = view rows j' n'.
Proof.
  unfold view. rewrite cell_access_rows. destruct (cell rows j' n'); [done|].
  case_decide; [destruct (n' <=? n)%nat|]; reflexivity.
Qed.

(** A cell of the resized table is an old cell or an empty status. *)
Lemma access_cell_cases now rows j n j' n' st :
  cell (access_rows now rows j n) j' n' = Some st ->
  cell rows j' n' = Some st \/ st = emptyStatus now.
Proof.
  rewrite cell_access_rows. destruct (cell rows j' n'); [naive_solver|].
  case_decide; [destruct (n' <=? n)%nat|]; naive_solver.
Qed.

(** ** Invariants *)

(** Every stored status is well-formed. *)
Definition rows_wf (rows : list StatusRow) : Prop :=
  forall j n st, cell rows j n = Some st -> status_wf st.

(** A task is in [runningTasks_] exactly if its cell is marked running. *)
Definition running_consistent (snap : TaskStatusSnapshot) : Prop :=
  forall j n, is_Some (runningTasks_ snap !! (j, n)) <->
    exists st, cell (rows_ snap) j n = Some st /\ isRunning st = true.

Record snapshot_inv (snap : TaskStatusSnapshot) : Prop := {
  inv_wf : rows_wf (rows_ snap);
  inv_running : running_consistent snap
}.

(** A new snapshot. *)
Definition emptySnapshot : TaskStatusSnapshot := mkSnapshot [] ∅.

Lemma emptySnapshot_inv : snapshot_inv emptySnapshot.
Proof.
  constructor; [intros j n st; discriminate|].
  intros j n. simpl. rewrite lookup_empty. split; [intros [? ?]|intros (? & ? & ?)]; discriminate.
Qed.

Lemma rows_wf_access now rows j n : rows_wf rows -> rows_wf (access_rows now rows j n).
Proof.
  intros Hwf j' n' st H. apply access_cell_cases in H as [H| ->]; [by eapply Hwf|].
  apply emptyStatus_wf.
Qed.

Lemma rows_wf_set rows j n st : rows_wf rows -> status_wf st -> rows_wf (set_cell rows j n st).
Proof.
  intros Hwf Hst j' n' st'. rewrite cell_set_cell. case_decide; [|apply Hwf].
  destruct (cell rows j n); [|done]. by intros [= <-].
Qed.

(** The running marks of the resized table are those of the old one. *)
Lemma access_running now rows j n j' n' :
  (exists st, cell (access_rows now rows j n) j' n' = Some st /\ isRunning st = true) <->
  (exists st, cell rows j' n' = Some st /\ isRunning st = true).
Proof.
  split; intros (st & Hc & Hr).
  - apply access_cell_cases in Hc as [Hc| ->]; [eauto|discriminate].
  - exists st. rewrite cell_access_rows, Hc. done.
Qed.

(** The state after [finish]: the cell holds [st], the map is [m]. *)
Lemma finish_inv now snap j n st m :
  snapshot_inv snap -> status_wf st ->
  (forall k, k <> (j, n) -> m !! k = runningTasks_ snap !! k) ->
  (is_Some (m !! (j, n)) <-> isRunning st = true) ->
  snapshot_inv (mkSnapshot (set_cell (access_rows now (rows_ snap) j n) j n st) m).
Proof.
  intros [Hwf Hrun] Hst Hm Hk. constructor; simpl.
  - apply rows_wf_set; [by apply rows_wf_access|done].
  - intros j' n'. simpl. rewrite cell_set_cell.
    destruct (decide (j' = j /\ n' = n)) as [[-> ->]|Hne].
    + destruct (access_cell_is_Some now (rows_ snap) j n) as [st0 ->].
      rewrite Hk. naive_solver.
    + rewrite Hm by (intros [= -> ->]; by apply Hne). rewrite (Hrun j' n'). symmetry. apply access_running.
Qed.

Lemma unchanged_inv now snap j n :
  snapshot_inv snap ->
  snapshot_inv (mkSnapshot (access_rows now (rows_ snap) j n) (runningTasks_ snap)).
Proof.
  intros [Hwf Hrun]. constructor; simpl; [by apply rows_wf_access|].
  intros j' n'. simpl. rewrite (Hrun j' n'). symmetry. apply access_running.
Qed.

(** The stored status [updateStatus] reads. *)
Definition stored (now : Z) (snap : TaskStatusSnapshot) (j n : nat) : TaskStatus :=
  default (emptyStatus now) (cell (access_rows now (rows_ snap) j n) j n).

Lemma stored_wf now snap j n : snapshot_inv snap -> status_wf (stored now snap j n).
Proof.
  intros [Hwf _]. unfold stored.
  destruct (access_cell_is_Some now (rows_ snap) j n) as [st E]. rewrite E. simpl.
  by eapply (rows_wf_access now _ j n Hwf).
Qed.

Lemma stored_not_running now snap j n :
  snapshot_inv snap -> runningTasks_ snap !! (j, n) = None ->
  isRunning (stored now snap j n) = false.
Proof.
  intros [_ Hrun] Hn. unfold stored.
  destruct (access_cell_is_Some now (rows_ snap) j n) as [st E]. rewrite E. simpl.
  destruct (isRunning st) eqn:Er; [|done].
  assert (is_Some (runningTasks_ snap !! (j, n))) as [? ?]; [|congruence].
  apply Hrun. apply (access_running now (rows_ snap) j n). eauto.
Qed.

(** ** The behaviours of [updateStatus] *)

(** Does the call leave the table alone?  Only a "not running" status for a
    task that already is not running, unless it replaces an overwriteable
    status by a final one. *)
Definition is_ignored (now : Z) (snap : TaskStatusSnapshot) (j n : nat) (status : TaskStatus) : bool :=
  match runningTasks_ snap !! (j, n) with
  | Some _ => false
  | None => negb (isRunning status) &&
            (isOverwriteable status || negb (isOverwriteable (stored now snap j n)))
  end.

(** The running map after the call. *)
Definition running_after (snap : TaskStatusSnapshot) (j n : nat) (rt : RunningTask)
    (status : TaskStatus) : gmap TaskKey RunningTask :=
  match runningTasks_ snap !! (j, n), isRunning status with
  | Some _, true => runningTasks_ snap
  | None, true => <[(j, n) := rt]> (runningTasks_ snap)
  | _, false => delete (j, n) (runningTasks_ snap)
  end.

(** The guard of the invocation ID check. *)
Definition invocation_ok (snap : TaskStatusSnapshot) (j n : nat) (rt : RunningTask) : bool :=
  match runningTasks_ snap !! (j, n) with
  | Some cur => bool_decide (rt_invocationID cur = rt_invocationID rt)
  | None => true
  end.

Lemma updateStatus_eq now snap j n rt status :
  snapshot_inv snap ->
  updateStatus now snap j n rt status =
    if negb (invocation_ok snap j n rt)
    then Crash "Cannot updateStatus since the invocation IDs don't match"
    else if is_ignored now snap j n status
    then Ret (mkSnapshot (access_rows now (rows_ snap) j n) (runningTasks_ snap),
              stored now snap j n)
    else
      let* st := noexcept (update (stored now snap j n) rt status) in
      Ret (mkSnapshot (set_cell (access_rows now (rows_ snap) j n) j n st)
                      (running_after snap j n rt status), st).
Proof.
  intros Hinv. unfold updateStatus, invocation_ok, is_ignored, running_after.
  fold (stored now snap j n).
  destruct (runningTasks_ snap !! (j, n)) as [cur|] eqn:E.
  - case_bool_decide; [|done]. simpl. by destruct (isRunning status).
  - simpl. destruct (isRunning status); [done|]. simpl.
    rewrite (stored_not_running now snap j n Hinv E).
    destruct (isOverwriteable status); [done|]. simpl.
    destruct (isOverwriteable (stored now snap j n)); [|done]. simpl.
    by rewrite delete_id.
Qed.

(** When the call ends the process: on another invocation, and on a status that
    is not ignored and lacks the Error bit when back-offs have run out. *)
Definition update_aborts (now : Z) (snap : TaskStatusSnapshot) (j n : nat) (rt : RunningTask)
    (status : TaskStatus) : bool :=
  negb (invocation_ok snap j n rt) || (negb (is_ignored now snap j n status) && lacks_error rt status).

Lemma updateStatus_cases now snap j n rt status :
  snapshot_inv snap -> status_wf status ->
  if update_aborts now snap j n rt status
  then exists msg, updateStatus now snap j n rt status = Crash msg
  else exists snap' st', updateStatus now snap j n rt status = Ret (snap', st') /\ snapshot_inv snap'.
Proof.
  intros Hinv Hwf. rewrite updateStatus_eq by done. unfold update_aborts.
  destruct (invocation_ok snap j n rt); cbn [negb orb]; [|eauto].
  destruct (is_ignored now snap j n status) eqn:Hi; cbn [negb andb].
  { eexists _, _. split; [reflexivity|]. by apply unchanged_inv. }
  pose proof (update_cases (stored now snap j n) rt status (stored_wf _ _ _ _ Hinv) Hwf) as Hu.
  destruct (lacks_error rt status); [destruct Hu as [msg ->]; cbn; eauto|].
  destruct Hu as (st & E & Hst). rewrite E. simpl. eexists _, _. split; [reflexivity|].
  apply finish_inv; auto.
  - intros k Hk. unfold running_after.
    destruct (runningTasks_ snap !! (j, n)), (isRunning status);
      by rewrite ?lookup_insert_ne, ?lookup_delete_ne by congruence.
  - rewrite (update_isRunning _ _ _ _ E). unfold running_after, is_ignored in *.
    destruct (runningTasks_ snap !! (j, n)) eqn:Er, (isRunning status);
      rewrite ?lookup_insert_eq, ?lookup_delete_eq, ?Er; split; try done; eauto.
Qed.

(** When the guards hold, the call returns. *)
Lemma updateStatus_returns now snap j n rt status :
  snapshot_inv snap -> status_wf status -> advances_with_error status ->
  invocation_ok snap j n rt = true ->
  exists snap' st', updateStatus now snap j n rt status = Ret (snap', st') /\
    snapshot_inv snap'.
Proof.
  intros Hinv Hwf Hadv Hok. pose proof (updateStatus_cases now snap j n rt status Hinv Hwf) as H.
  unfold update_aborts in H. by rewrite Hok, advances_not_lacking, andb_false_r in H.
Qed.

(** ** [forgiveJob] *)

Lemma forgive_all sts :
  Forall status_wf sts ->
  exists sts', foldM (fun acc st => let* st' := forgive st in Ret (acc ++ [st'])) [] sts
                 = Ret sts' /\
    Forall2 (fun st st' => forgive st = Ret st') sts sts'.
Proof.
  assert (G : forall acc, Forall status_wf sts ->
    exists sts', foldM (fun acc st => let* st' := forgive st in Ret (acc ++ [st'])) acc sts
                   = Ret (acc ++ sts') /\
      Forall2 (fun st st' => forgive st = Ret st') sts sts').
  { induction sts as [|st sts IH]; intros acc Hwf.
    - exists []. rewrite app_nil_r. by split; [|constructor].
    - inversion_clear Hwf as [|? ? H1 H2].
      destruct (forgive_ok st H1) as (st' & E & _).
      destruct (IH (acc ++ [st']) H2) as (sts' & Es & Hs).
      exists (st' :: sts'). simpl. rewrite E. cbn [mbind outcome_bind].
      rewrite Es, <- app_assoc. by split; [|constructor]. }
  intros Hwf. destruct (G [] Hwf) as (sts' & E & H). by exists sts'.
Qed.

Lemma forgiveJob_cells snap job_id snap' :
  snapshot_inv snap -> forgiveJob snap job_id = Ret snap' ->
  runningTasks_ snap' = runningTasks_ snap /\
  (forall j n st', cell (rows_ snap') j n = Some st' ->
     exists st, cell (rows_ snap) j n = Some st /\
       (if decide (j = job_id) then forgive st = Ret st' else st' = st)) /\
  (forall j n st, cell (rows_ snap) j n = Some st ->
     exists st', cell (rows_ snap') j n = Some st').
Proof.
  intros [Hwf _] H. unfold forgiveJob in H.
  destruct (rows_ snap !! job_id) as [row|] eqn:Er.
  2: { injection H as <-. split_and!; eauto. intros j n st' Hc. exists st'. split; [done|].
       case_decide; [|done]. subst. unfold cell in Hc. by rewrite Er in Hc. }
  destruct (forgive_all (statuses_ row)) as (sts' & E & Hf).
  { apply Forall_lookup. intros n st Hn. apply (Hwf job_id n). unfold cell. by rewrite Er. }
  rewrite E in H. injection H as <-. simpl.
  assert (Hlt : (job_id < length (rows_ snap))%nat) by (by eapply lookup_lt_Some).
  split_and!; [done| |].
  - intros j n st'. unfold cell at 1. simpl. rewrite list_lookup_insert.
    destruct (decide (job_id = j /\ _)) as [[<- _]|Hn].
    + simpl. intros Hc. destruct (Forall2_lookup_r _ _ _ _ _ Hf Hc) as (st & Hst & Hfg).
      exists st. rewrite decide_True by done. unfold cell. rewrite Er. done.
    + intros Hc. exists st'. split; [done|]. rewrite decide_False; [done|naive_solver].
  - intros j n st Hc. unfold cell in *. simpl. rewrite list_lookup_insert.
    destruct (decide (job_id = j /\ _)) as [[<- _]|Hn]; [|eauto].
    rewrite Er in Hc. simpl in *.
    destruct (Forall2_lookup_l _ _ _ _ _ Hf Hc) as (st' & Hst & _). eauto.
Qed.

Lemma forgiveJob_inv snap job_id :
  snapshot_inv snap ->
  exists snap', forgiveJob snap job_id = Ret snap' /\ snapshot_inv snap'.
Proof.
  intros Hinv. pose proof Hinv as [Hwf Hrun].
  assert (exists snap', forgiveJob snap job_id = Ret snap') as [snap' E].
  { unfold forgiveJob. destruct (rows_ snap !! job_id) as [row|] eqn:Er; [|eauto].
    destruct (forgive_all (statuses_ row)) as (sts' & -> & _); [|simpl; eauto].
    apply Forall_lookup. intros n st Hn. apply (Hwf job_id n). unfold cell. by rewrite Er. }
  exists snap'. split; [done|].
  destruct (forgiveJob_cells _ _ _ Hinv E) as (Hm & H1 & H2).
  assert (Hst : forall j n st st', cell (rows_ snap) j n = Some st ->
            (if decide (j = job_id) then forgive st = Ret st' else st' = st) ->
            status_wf st' /\ isRunning st' = isRunning st).
  { intros j n st st' Hc Hif. specialize (Hwf j n st Hc).
    case_decide; [|by subst]. destruct (forgive_ok st Hwf) as (st1 & E1 & W & _ & R & _).
    rewrite E1 in Hif. by injection Hif as <-. }
  constructor.
  - intros j n st' Hc. destruct (H1 _ _ _ Hc) as (st & Hc0 & Hif). by eapply Hst.
  - intros j n. rewrite Hm, (Hrun j n). split; intros (st & Hc & Hr).
    + destruct (H2 _ _ _ Hc) as (st' & Hc'). destruct (H1 _ _ _ Hc') as (st0 & Hc0 & Hif).
      exists st'. split; [done|]. destruct (Hst _ _ _ _ Hc0 Hif) as [_ ->]. congruence.
    + destruct (H1 _ _ _ Hc) as (st0 & Hc0 & Hif). exists st0. split; [done|].
      by destruct (Hst _ _ _ _ Hc0 Hif) as [_ <-].
Qed.

(** ** [updateForConfig] *)

(** The running marks of a table agree with the running map. *)
Definition marks_ok (m : gmap TaskKey RunningTask) (rows : list StatusRow) : Prop :=
  rows_wf rows /\
  forall j n, is_Some (m !! (j, n)) <->
    exists st, cell rows j n = Some st /\ isRunning st = true.

(** Running tasks are filed under the IDs of their names. *)
Definition names_ok (names : NameTables) (m : gmap TaskKey RunningTask) : Prop :=
  table_wf (JobNameTable names) /\ table_wf (NodeNameTable names) /\
  forall j n rt, m !! (j, n) = Some rt ->
    lookup_obj (JobNameTable names) (rt_job rt) = Some j /\
    lookup_obj (NodeNameTable names) (rt_node rt) = Some n.

(** Changing one cell keeps the marks when the new status agrees with the map. *)
Lemma marks_ok_set now m rows j n st :
  marks_ok m rows -> status_wf st ->
  (is_Some (m !! (j, n)) <-> isRunning st = true) ->
  marks_ok m (set_cell (access_rows now rows j n) j n st).
Proof.
  intros [Hwf Hrun] Hst Hk.
  destruct (finish_inv now (mkSnapshot rows m) j n st m) as [H1 H2]; auto; [by constructor|].
  by split.
Qed.

Lemma marks_ok_access now m rows j n :
  marks_ok m rows -> marks_ok m (access_rows now rows j n).
Proof.
  intros [Hwf Hrun]. destruct (unchanged_inv now (mkSnapshot rows m) j n) as [H1 H2];
    [by constructor|by split].
Qed.

(** Two tables with the same cells have the same marks. *)
Lemma marks_ok_cells m rows rows' :
  (forall j n, cell rows' j n = cell rows j n) -> marks_ok m rows -> marks_ok m rows'.
Proof.
  intros Hc [Hwf Hrun]. split.
  - intros j n st. rewrite Hc. apply Hwf.
  - intros j n. rewrite (Hrun j n). by setoid_rewrite Hc.
Qed.

Lemma mark_running_loop now names m l rows cur :
  names_ok names m -> marks_ok m rows ->
  (forall rt, rt ∈ l -> exists k, m !! k = Some rt) ->
  exists rows' cur',
    foldM (mark_running now names) (rows, cur) l = Ret (rows', cur') /\
    marks_ok m rows' /\ cur ⊆ cur' /\
    (forall rt j n, rt ∈ l -> m !! (j, n) = Some rt -> j ∈ cur').
Proof.
  intros Hn. revert rows cur; induction l as [|rt l IH]; intros rows cur Hm Hl.
  { exists rows, cur. split_and!; try done. intros rt j n H. by apply not_elem_of_nil in H. }
  destruct (Hl rt) as [[j n] Hrt]; [by left|].
  destruct Hn as (Hw1 & Hw2 & Hn'). destruct (Hn' _ _ _ Hrt) as [Ej En].
  cbn [foldM mark_running]. rewrite Ej, En. cbn [mbind outcome_bind].
  destruct (IH (set_cell (access_rows now rows j n) j n (running now)) ({[j]} ∪ cur))
    as (rows' & cur' & E & Hm' & Hsub & Hj).
  { apply marks_ok_set; [done|apply running_wf|]. split; [done|]. intros _. eauto. }
  { intros rt' H. apply Hl. by right. }
  exists rows', cur'. split_and!; [done|done|set_solver|].
  intros rt' j' n' [->|H]%elem_of_cons Hk; [|by eapply Hj].
  destruct (Hn' _ _ _ Hk) as [Ej' _]. assert (j' = j) as -> by congruence. set_solver.
Qed.

Lemma cell_imap (f : nat -> StatusRow -> StatusRow) rows j n :
  cell (imap f rows) j n = row ← rows !! j; statuses_ (f j row) !! n.
Proof. unfold cell. rewrite list_lookup_imap. by destruct (rows !! j). Qed.

Lemma clear_deleted_marks m cur rows :
  (forall j n, is_Some (m !! (j, n)) -> j ∈ cur) ->
  marks_ok m rows -> marks_ok m (clear_deleted cur rows).
Proof.
  intros Hcur [Hwf Hrun].
  assert (Hsub : forall j n st, cell (clear_deleted cur rows) j n = Some st ->
                   cell rows j n = Some st).
  { intros j n st. unfold clear_deleted. rewrite cell_imap. unfold cell.
    destruct (rows !! j) as [row|]; [|done]. simpl. by case_match. }
  split; [intros j n st Hc; by eapply Hwf, Hsub|].
  intros j n. rewrite (Hrun j n). split; intros (st & Hc & Hr); [|by eauto].
  exists st. split; [|done]. unfold clear_deleted. rewrite cell_imap. unfold cell in Hc.
  destruct (rows !! j) as [row|] eqn:E; [|done]. simpl in *.
  rewrite bool_decide_false; [done|]. intros Hj. apply Hj, (Hcur j n), Hrun.
  exists st. unfold cell. by rewrite E.
Qed.

Lemma grow_rows_cells cur rows j n : cell (grow_rows cur rows) j n = cell rows j n.
Proof.
  unfold grow_rows, cell. case_match; [|done]. bprop.
  rewrite resize_lookup by lia. destruct (rows !! j); [done|].
  by destruct (_ <? _)%nat.
Qed.

Lemma max_job_id_ge cur j : j ∈ cur -> Z.of_nat j <= max_job_id cur.
Proof.
  intros Hj. apply elem_of_elements in Hj. unfold max_job_id.
  induction (elements cur) as [|x l IH]; [by apply not_elem_of_nil in Hj|]. simpl.
  apply elem_of_cons in Hj as [->|Hj]; [lia|]. specialize (IH Hj). lia.
Qed.

Lemma grow_rows_length cur rows j : j ∈ cur -> (j < length (grow_rows cur rows))%nat.
Proof.
  intros Hj. apply max_job_id_ge in Hj. unfold grow_rows. case_match; bprop; [|lia].
  rewrite length_resize. lia.
Qed.

Lemma length_access_ge now rows j n : (length rows <= length (access_rows now rows j n))%nat.
Proof.
  unfold access_rows. rewrite length_alter.
  destruct (Nat.leb_spec (length rows) j); [rewrite length_resize|]; lia.
Qed.

(** The store's rows do not concern running tasks. *)
Definition store_avoids_running (m : gmap TaskKey RunningTask) (l : list StoreRow) : Prop :=
  forall r k rt, r ∈ l -> m !! k = Some rt ->
    (rt_job rt, rt_node rt) <> (sr_job r, sr_node r).

Lemma load_status_loop now m l rows names :
  names_ok names m -> marks_ok m rows -> store_avoids_running m l ->
  (forall r, r ∈ l -> is_Some (lookup_obj (JobNameTable names) (sr_job r))) ->
  exists rows' names',
    foldM (load_status now) (rows, names) l = Ret (rows', names') /\
    marks_ok m rows' /\ names_ok names' m /\ JobNameTable names' = JobNameTable names /\
    (length rows <= length rows')%nat.
Proof.
  revert rows names; induction l as [|r l IH]; intros rows names Hn Hm Hav Hk.
  { exists rows, names. by split_and!. }
  destruct (Hk r) as [j Ej]; [by left|]. cbn [foldM load_status]. rewrite Ej.
  pose proof (insert_obj_wf (NodeNameTable names) (sr_node r)) as Hw.
  pose proof (insert_obj_lookup (NodeNameTable names) (sr_node r)) as Hl.
  pose proof (fun s' i => insert_obj_stable (NodeNameTable names) (sr_node r) s' i) as Hs.
  destruct (insert_obj (NodeNameTable names) (sr_node r)) as [nodes node_id]; simpl in *.
  destruct Hn as (Hw1 & Hw2 & Hn').
  match goal with |- context [foldM (load_status now) (?x, _) l] => set (rows1 := x) end.
  assert (Hnone : ~ is_Some (m !! (j, node_id))).
  { intros [rt Hrt]. destruct (Hn' _ _ _ Hrt) as [E1 E2].
    apply (Hav r (j, node_id) rt); [by left|done|].
    apply (Hs _ _ Hw2) in E2. specialize (Hw Hw2).
    assert (rt_job rt = sr_job r) as ->.
    { apply Hw1 in E1. apply Hw1 in Ej. congruence. }
    assert (rt_node rt = sr_node r) as ->; [|done].
    apply Hw in E2. apply Hw in Hl. congruence. }
  destruct (IH rows1 (mkNames (JobNameTable names) nodes)) as (rows' & names' & E & H1 & H2 & H3 & H4).
  - split_and!; simpl; auto. intros j' n' rt Hrt. destruct (Hn' _ _ _ Hrt) as [E1 E2]. auto.
  - unfold rows1. destruct (sr_result r).
    + apply marks_ok_set; [done|apply done_at_wf|]. split; [done|discriminate].
    + apply marks_ok_set; [done|apply failed_wf|]. split; [done|discriminate].
    + by apply marks_ok_access.
  - intros r' k rt H. apply Hav. by right.
  - intros r' H. apply Hk. by right.
  - exists rows', names'. split_and!; auto.
    etrans; [|exact H4]. unfold rows1.
    destruct (sr_result r); rewrite ?length_set_cell; apply length_access_ge.
Qed.

Lemma job_names_loop t l acc :
  table_wf t -> (forall j, j ∈ l -> exists s, lookup_id t j = Ret s) ->
  exists names, foldM (fun acc j => let* s := lookup_id t j in Ret (acc ++ [s])) acc l
                = Ret (acc ++ names) /\
    (forall s, s ∈ names <-> exists j, j ∈ l /\ lookup_obj t s = Some j).
Proof.
  intros Hwf. revert acc; induction l as [|j l IH]; intros acc Hl.
  { exists []. rewrite app_nil_r. split; [done|]. intros s.
    split; [by intros ?%not_elem_of_nil|by intros (j & ?%not_elem_of_nil & _)]. }
  destruct (Hl j) as [s Es]; [by left|]. cbn [foldM]. rewrite Es. cbn [mbind outcome_bind].
  destruct (IH (acc ++ [s])) as (names & E & Hn); [intros; apply Hl; by right|].
  exists (s :: names). rewrite E, <- app_assoc. split; [done|].
  assert (Ej : lookup_obj t s = Some j).
  { unfold lookup_id in Es. destruct (objects_ t !! j) eqn:Eo; [|done]. injection Es as ->. by apply Hwf in Eo. }
  intros s'. rewrite elem_of_cons, Hn. split.
  - intros [->|(j' & Hj & E')]; [exists j|exists j']; (split; [|done]); [by left|by right].
  - intros (j' & [->|Hj]%elem_of_cons & E'); [left|right; eauto].
    apply Hwf in E', Ej. congruence.
Qed.

Lemma mark_loaded_cells cur rows j n : cell (mark_loaded cur rows) j n = cell rows j n.
Proof.
  unfold mark_loaded. rewrite cell_imap. unfold cell.
  destruct (rows !! j) as [row|]; [|done]. simpl. by case_match.
Qed.

Lemma mark_loaded_loaded cur rows j m :
  j ∈ cur -> (j < length rows)%nat -> isJobLoaded (mkSnapshot (mark_loaded cur rows) m) j = true.
Proof.
  intros Hj Hl. unfold isJobLoaded, mark_loaded. simpl. rewrite list_lookup_imap.
  destruct (lookup_lt_is_Some_2 _ _ Hl) as [row ->]. simpl.
  by rewrite bool_decide_true.
Qed.

(** ** Properties *)

(** Accessing a cell that is there changes nothing. *)
Lemma access_rows_id now rows j n st :
  cell rows j n = Some st -> access_rows now rows j n = rows.
Proof.
  unfold cell, access_rows. destruct (rows !! j) as [row|] eqn:E; [|done]. simpl.
  intros Hn. pose proof (lookup_lt_Some _ _ _ E). pose proof (lookup_lt_Some _ _ _ Hn).
  rewrite (proj2 (Nat.leb_gt (length rows) j)) by lia.
  apply list_eq. intros i. rewrite list_lookup_alter. case_decide; [|done]. subst i.
  rewrite E. simpl. by rewrite (proj2 (Nat.leb_gt (length (statuses_ row)) n)) by lia.
Qed.

Lemma view_other now rows j n st j' n' :
  (j', n') <> (j, n) ->
  view (set_cell (access_rows now rows j n) j n st) j' n' = view rows j' n'.
Proof.
  intros Hne. rewrite <- (view_access_rows now rows j n j' n').
  unfold view. rewrite cell_set_cell. rewrite decide_False; [done|]. naive_solver.
Qed.

(** What [updateStatus] did, when it returned. *)
Lemma updateStatus_inv now snap j n rt status snap' st' :
  snapshot_inv snap -> updateStatus now snap j n rt status = Ret (snap', st') ->
  cell (rows_ snap') j n = Some st' /\
  runningTasks_ snap' = running_after snap j n rt status /\
  (is_ignored now snap j n status = true /\ st' = stored now snap j n \/
   update (stored now snap j n) rt status = Ret st') /\
  (forall j' n', (j', n') <> (j, n) -> view (rows_ snap') j' n' = view (rows_ snap) j' n').
Proof.
  intros Hinv. rewrite updateStatus_eq by done.
  destruct (invocation_ok snap j n rt); [|done]. simpl.
  destruct (is_ignored now snap j n status) eqn:Hi; intros H.
  - injection H as <- <-. simpl. split_and!.
    + unfold stored. by destruct (access_cell_is_Some now (rows_ snap) j n) as [? ->].
    + unfold running_after, is_ignored in *.
      destruct (runningTasks_ snap !! (j, n)) eqn:E; [done|].
      destruct (isRunning status); [done|]. by rewrite delete_id.
    + by left.
    + intros. apply view_access_rows.
  - destruct (update (stored now snap j n) rt status) as [st| | |] eqn:Eu; try done.
    injection H as <- <-. simpl. split_and!; [|done|by right|by apply view_other].
    rewrite cell_set_cell, decide_True by done.
    by destruct (access_cell_is_Some now (rows_ snap) j n) as [? ->].
Qed.

(** C6: For a well-formed status, [updateStatus] ends the process exactly
    when the task is already running under another invocation, or when the
    status is not ignored, asks for the next back-off without the Error bit and
    no back-off is left.  Otherwise it returns the status it leaves in the
    task's cell, keeps the table and the running map consistent, makes the task
    running exactly if the new status says so, and touches no other task. *)
Theorem updateStatus_toggles now snap j n rt status :
  snapshot_inv snap -> status_wf status ->
  if update_aborts now snap j n rt status
  then exists msg, updateStatus now snap j n rt status = Crash msg
  else exists snap' st',
      updateStatus now snap j n rt status = Ret (snap', st') /\
      snapshot_inv snap' /\ cell (rows_ snap') j n = Some st' /\
      (is_Some (runningTasks_ snap' !! (j, n)) <-> isRunning status = true) /\
      (forall k, k <> (j, n) -> runningTasks_ snap' !! k = runningTasks_ snap !! k) /\
      (forall j' n', (j', n') <> (j, n) ->
         view (rows_ snap') j' n' = view (rows_ snap) j' n').
Proof.
  intros Hinv Hwf. pose proof (updateStatus_cases now snap j n rt status Hinv Hwf) as Hc.
  destruct (update_aborts now snap j n rt status); [done|].
  destruct Hc as (snap' & st' & E & Hinv').
  destruct (updateStatus_inv _ _ _ _ _ _ _ _ Hinv E) as (Hc & Hm & _ & Hv).
  exists snap', st'. split_and!; auto; rewrite Hm; unfold running_after.
  - destruct (runningTasks_ snap !! (j, n)) eqn:Er, (isRunning status);
      rewrite ?lookup_insert_eq, ?lookup_delete_eq, ?Er; split; try done; eauto.
  - intros k Hk. destruct (runningTasks_ snap !! (j, n)), (isRunning status);
      by rewrite ?lookup_insert_ne, ?lookup_delete_ne by congruence.
Qed.

Definition sample_task (job node : string) (invocation : Z) : RunningTask :=
  mkRunningTask job node [] "worker" (mkInstanceID 100 invocation) (mkBackoffDuration false 60) 0.

Lemma updateStatus_toggles_witness :
  exists snap' st',
    updateStatus 100 emptySnapshot 1 2 (sample_task "job" "node" 1) (running 100)
      = Ret (snap', st') /\ is_Some (runningTasks_ snap' !! (1%nat, 2%nat)).
Proof.
  pose proof (updateStatus_toggles 100 emptySnapshot 1 2 (sample_task "job" "node" 1)
    (running 100) emptySnapshot_inv (running_wf 100)) as H.
  destruct H as (snap' & st' & H1 & _ & _ & H2 & _).
  exists snap', st'. split; [exact H1|]. apply H2. reflexivity.
Defined.

(** Reporting the same "not running" status again, for any invocation,
    changes nothing: a worker that retries an unacknowledged update uses up
    no retries of the task. *)
Theorem updateStatus_idempotent now now' snap j n rt rt' status snap1 st1 :
  snapshot_inv snap -> status_wf status -> isRunning status = false ->
  updateStatus now snap j n rt status = Ret (snap1, st1) ->
  updateStatus now' snap1 j n rt' status = Ret (snap1, st1).
Proof.
  intros Hinv Hwf Hnr E.
  destruct (updateStatus_inv _ _ _ _ _ _ _ _ Hinv E) as (Hc & Hm & Hst & _).
  assert (Hnone : runningTasks_ snap1 !! (j, n) = None).
  { rewrite Hm. unfold running_after. rewrite Hnr.
    destruct (runningTasks_ snap !! (j, n)); apply lookup_delete_eq. }
  unfold updateStatus. rewrite (access_rows_id _ _ _ _ _ Hc), Hc, Hnone, Hnr. simpl.
  destruct snap1 as [rows1 m1]. simpl.
  destruct Hst as [[Hi ->]|Hu].
  - unfold is_ignored in Hi. destruct (runningTasks_ snap !! (j, n)) eqn:Er; [done|].
    rewrite (stored_not_running now snap j n Hinv Er).
    destruct (isOverwriteable status); [done|].
    by destruct (isOverwriteable (stored now snap j n)); [rewrite Hnr in Hi|].
  - rewrite (update_isRunning _ _ _ _ Hu), Hnr, (update_isOverwriteable _ _ _ _ Hu).
    by destruct (isOverwriteable status).
Qed.

Lemma updateStatus_idempotent_witness :
  exists snap st,
    updateStatus 100 emptySnapshot 0 0 (sample_task "job" "node" 1) (failed 100)
      = Ret (snap, st) /\
    updateStatus 200 snap 0 0 (sample_task "job" "node" 2) (failed 100) = Ret (snap, st).
Proof.
  assert (E : exists r, updateStatus 100 emptySnapshot 0 0 (sample_task "job" "node" 1)
                          (failed 100) = Ret r) by (eexists; vm_compute; reflexivity).
  destruct E as [[snap st] E]. exists snap, st. split; [exact E|].
  apply (updateStatus_idempotent 100 200 emptySnapshot 0 0 (sample_task "job" "node" 1)
    (sample_task "job" "node" 2) (failed 100) snap st emptySnapshot_inv
    (failed_wf 100) eq_refl E).
Defined.

(** ** What [updateForConfig] keeps *)

Definition row_loaded (rows : list StatusRow) (j : nat) : bool :=
  match rows !! j with Some row => isLoaded_ row | None => false end.

Lemma loaded_access now rows j n j' :
  row_loaded (access_rows now rows j n) j' = row_loaded rows j'.
Proof.
  unfold row_loaded, access_rows. rewrite list_lookup_alter.
  set (rows1 := if (length rows <=? j)%nat then _ else _).
  assert (H1 : match rows1 !! j' with Some row => isLoaded_ row | None => false end
               = match rows !! j' with Some row => isLoaded_ row | None => false end).
  { unfold rows1. destruct (Nat.leb_spec (length rows) j); [|done].
    rewrite resize_lookup by lia. destruct (rows !! j'); [done|]. by destruct (_ <? _)%nat. }
  rewrite <- H1. destruct (decide (j = j')) as [<-|]; [|done].
  destruct (rows1 !! j) as [s|]; [|done]. simpl. clear.
  by destruct (length (statuses_ s) <=? n)%nat.
Qed.

Lemma loaded_set rows j n st j' : row_loaded (set_cell rows j n st) j' = row_loaded rows j'.
Proof.
  unfold row_loaded, set_cell. rewrite list_lookup_alter.
  case_decide; [|done]. subst. by destruct (rows !! j').
Qed.

(** Tables that agree on which rows are loaded, and on the visible cells of a
    set of tasks. *)
Definition frame (P : nat -> nat -> Prop) (rows rows' : list StatusRow) : Prop :=
  (forall j, row_loaded rows' j = row_loaded rows j) /\
  (forall j n, P j n -> view rows' j n = view rows j n).

Lemma frame_refl P rows : frame P rows rows.
Proof. by split. Qed.
Lemma frame_trans P r1 r2 r3 : frame P r1 r2 -> frame P r2 r3 -> frame P r1 r3.
Proof. intros [A1 B1] [A2 B2]. split; intros; [by rewrite A2, A1|by rewrite B2, B1]. Qed.

Lemma frame_access now P rows j n : frame P rows (access_rows now rows j n).
Proof. split; intros; [apply loaded_access|apply view_access_rows]. Qed.

Lemma frame_set now (P : nat -> nat -> Prop) rows j n st :
  ~ P j n -> frame P rows (set_cell (access_rows now rows j n) j n st).
Proof.
  intros HP. split.
  - intros j'. by rewrite loaded_set, loaded_access.
  - intros j' n' H. apply view_other. intros [= -> ->]. by apply HP.
Qed.

Lemma mark_running_frame now names m l rows cur rows' cur' :
  names_ok names m -> (forall rt, rt ∈ l -> exists k, m !! k = Some rt) ->
  foldM (mark_running now names) (rows, cur) l = Ret (rows', cur') ->
  frame (fun j n => m !! (j, n) = None) rows rows' /\
  (forall j, j ∈ cur' -> j ∈ cur \/ exists n rt, m !! (j, n) = Some rt).
Proof.
  intros (_ & _ & Hn) Hl E.
  apply (foldM_inv (fun c => frame (fun j n => m !! (j, n) = None) rows c.1 /\
    (forall j, j ∈ c.2 -> j ∈ cur \/ exists n rt, m !! (j, n) = Some rt))) in E; [done| |].
  - intros rt [rows1 cur1] [rows2 cur2] Hrt [Hf Hc] E1. unfold mark_running in E1.
    destruct (Hl rt Hrt) as [[j n] Hk]. destruct (Hn _ _ _ Hk) as [E2 E3].
    rewrite E2, E3 in E1. injection E1 as <- <-. simpl in *. split.
    + eapply frame_trans; [exact Hf|]. apply frame_set. rewrite Hk. discriminate.
    + intros j' [Hj|Hj]%elem_of_union; [|by apply Hc].
      apply elem_of_singleton in Hj as ->. eauto.
  - split; [apply frame_refl|]. by left.
Qed.

Lemma load_status_frame now l rows names rows' names' loaded :
  (forall r j, r ∈ l -> lookup_obj (JobNameTable names) (sr_job r) = Some j -> ~ loaded j) ->
  foldM (load_status now) (rows, names) l = Ret (rows', names') ->
  frame (fun j _ => loaded j) rows rows'.
Proof.
  intros Hl E.
  apply (foldM_inv (fun c => frame (fun j _ => loaded j) rows c.1 /\
    JobNameTable c.2 = JobNameTable names)) in E; [by destruct E| |].
  - intros r [rows1 names1] [rows2 names2] Hr [Hf Hj] E1. unfold load_status in E1. simpl in Hj.
    rewrite Hj in E1. destruct (lookup_obj (JobNameTable names) (sr_job r)) as [j|] eqn:Ej; [|done].
    specialize (Hl r j Hr Ej).
    destruct (insert_obj (NodeNameTable names1) (sr_node r)) as [nodes node_id].
    injection E1 as <- <-. simpl. split; [|done]. eapply frame_trans; [exact Hf|].
    destruct (sr_result r); [by apply frame_set|by apply frame_set|apply frame_access].
  - split; [apply frame_refl|done].
Qed.

Lemma clear_deleted_row cur rows j :
  j ∈ cur -> clear_deleted cur rows !! j = rows !! j.
Proof.
  intros Hj. unfold clear_deleted. rewrite list_lookup_imap.
  destruct (rows !! j) as [row|]; [|done]. simpl. by rewrite bool_decide_false by set_solver.
Qed.

Lemma clear_deleted_gone cur rows j n : j ∉ cur -> cell (clear_deleted cur rows) j n = None.
Proof.
  intros Hj. unfold clear_deleted. rewrite cell_imap.
  destruct (rows !! j) as [row|]; [|done]. simpl. rewrite bool_decide_true by done. simpl.
  case_bool_decide as Hs; simpl; [by rewrite Hs|done].
Qed.

Lemma grow_rows_loaded cur rows j : row_loaded (grow_rows cur rows) j = row_loaded rows j.
Proof.
  unfold grow_rows, row_loaded. destruct (_ <=? _) eqn:E; [|done]. bprop.
  rewrite resize_lookup by lia. destruct (rows !! j); [done|]. by destruct (_ <? _)%nat.
Qed.

Lemma unloaded_jobs_spec cur rows j :
  j ∈ unloaded_jobs cur rows <-> j ∈ cur /\ (j < length rows)%nat /\ row_loaded rows j = false.
Proof.
  unfold unloaded_jobs, row_loaded. rewrite list_elem_of_In, filter_In, <- list_elem_of_In, elem_of_elements.
  rewrite <- lookup_lt_is_Some. destruct (rows !! j) as [row|]; [rewrite negb_true_iff|]; naive_solver.
Qed.

(** The last result that the store has for a task is what is loaded. *)
Lemma load_status_last now l1 r l2 rows names rows' names' j :
  table_wf (JobNameTable names) -> table_wf (NodeNameTable names) ->
  foldM (load_status now) (rows, names) (l1 ++ r :: l2) = Ret (rows', names') ->
  lookup_obj (JobNameTable names) (sr_job r) = Some j ->
  (forall r', r' ∈ l2 -> sr_job r' = sr_job r -> sr_node r' <> sr_node r) ->
  exists n, lookup_obj (NodeNameTable names') (sr_node r) = Some n /\
    match sr_result r with
    | DONE => cell rows' j n = Some (done_at (sr_timestamp r))
    | FAILED => cell rows' j n = Some (failed now)
    | OTHER _ => True
    end.
Proof.
  intros Hw1 Hw2 E Ej Hlast. rewrite foldM_app in E. apply bind_Ret_iff in E as ([rows1 names1] & E1 & E).
  apply (foldM_inv (fun c => JobNameTable c.2 = JobNameTable names /\ table_wf (NodeNameTable c.2))) in E1
    as [Hj1 Hn1]; [| |done].
  2: { intros r0 [rows0 names0] [rows2 names2] _ [H1 H2] E0. unfold load_status in E0. cbn in H1, H2.
       rewrite H1 in E0. destruct (lookup_obj _ (sr_job r0)); [|done].
       pose proof (insert_obj_wf (NodeNameTable names0) (sr_node r0) H2) as H3.
       destruct (insert_obj _ (sr_node r0)). injection E0 as _ <-. done. }
  cbn [fst snd] in *. cbn [foldM] in E. apply bind_Ret_iff in E as ([rows2 names2] & E2 & E).
  unfold load_status in E2. rewrite Hj1, Ej in E2.
  pose proof (insert_obj_wf (NodeNameTable names1) (sr_node r) Hn1) as Hn2.
  pose proof (insert_obj_lookup (NodeNameTable names1) (sr_node r)) as Hl2.
  destruct (insert_obj (NodeNameTable names1) (sr_node r)) as [nodes n]. cbn [fst snd] in *.
  injection E2 as E2 <-.
  set (P := fun rows => match sr_result r with
    | DONE => cell rows j n = Some (done_at (sr_timestamp r))
    | FAILED => cell rows j n = Some (failed now)
    | OTHER _ => True end).
  assert (HP : P rows2).
  { unfold P. rewrite <- E2. destruct (sr_result r); [..|done]; rewrite cell_set_cell, decide_True by done;
      by destruct (access_cell_is_Some now rows1 j n) as [? ->]. }
  exists n. cut (JobNameTable names' = JobNameTable names /\ table_wf (NodeNameTable names') /\
    lookup_obj (NodeNameTable names') (sr_node r) = Some n /\ P rows').
  { by intros (_ & _ & ? & ?). }
  apply (foldM_inv (fun c => JobNameTable c.2 = JobNameTable names /\ table_wf (NodeNameTable c.2) /\
    lookup_obj (NodeNameTable c.2) (sr_node r) = Some n /\ P c.1)) in E; [done| |done].
  intros r0 [rows3 names3] [rows4 names4] Hr0 (H1 & H2 & H3 & H4) E0. unfold load_status in E0. cbn [fst snd] in *.
  rewrite H1 in E0. destruct (lookup_obj (JobNameTable names) (sr_job r0)) as [j0|] eqn:E0j; [|done].
  pose proof (insert_obj_wf (NodeNameTable names3) (sr_node r0) H2) as H5.
  pose proof (insert_obj_lookup (NodeNameTable names3) (sr_node r0)) as H6.
  pose proof (insert_obj_stable (NodeNameTable names3) (sr_node r0) _ _ H2 H3) as H7.
  destruct (insert_obj (NodeNameTable names3) (sr_node r0)) as [nodes0 n0]. cbn [fst snd] in *.
  injection E0 as <- <-. cbn [fst snd JobNameTable NodeNameTable]. split_and!; [done..|].
  assert (Hne : ~ (j = j0 /\ n = n0)).
  { intros [<- <-]. apply (Hlast r0 Hr0); [apply Hw1 in Ej, E0j|apply H5 in H6, H7]; congruence. }
  assert (Hacc : forall st, cell rows3 j n = Some st -> cell (access_rows now rows3 j0 n0) j n = Some st)
    by (intros st Hst; by rewrite cell_access_rows, Hst).
  assert (Hset : forall st st', cell rows3 j n = Some st ->
    cell (set_cell (access_rows now rows3 j0 n0) j0 n0 st') j n = Some st)
    by (intros st st' Hst; rewrite cell_set_cell, decide_False by done; auto).
  unfold P in *. destruct (sr_result r), (sr_result r0); auto.
Qed.

Section UpdateForConfig.

Context (now : Z) (fetch : list string -> list StoreRow).
Context (names : NameTables) (snap : TaskStatusSnapshot) (config_jobs : list nat).

(** The task store calls back with rows of the jobs it was asked for. *)
Definition fetch_requested : Prop := forall l r, r ∈ fetch l -> sr_job r ∈ l.
(** The jobs of a configuration have names. *)
Definition jobs_named : Prop :=
  forall j, j ∈ config_jobs -> exists s, lookup_id (JobNameTable names) j = Ret s.
(** Is the job configured, or does it have a running task? *)
Definition is_current (j : nat) : Prop :=
  j ∈ config_jobs \/ exists n rt, runningTasks_ snap !! (j, n) = Some rt.

Context (Hinv : snapshot_inv snap).
Context (Hnames : names_ok names (runningTasks_ snap)).
Context (Hjobs : jobs_named) (Hreq : fetch_requested).
Context (Havoid : forall l, store_avoids_running (runningTasks_ snap) (fetch l)).

Lemma updateForConfig_phases :
  exists rows1 cur rows2 names' asked,
    updateForConfig now fetch names snap config_jobs
      = Ret (mkSnapshot (mark_loaded cur rows2) (runningTasks_ snap), names') /\
    (forall j, j ∈ cur <-> is_current j) /\
    frame (fun j n => runningTasks_ snap !! (j, n) = None) (rows_ snap) rows1 /\
    frame (fun j _ => row_loaded rows1 j = true \/ j ∉ cur)
          (grow_rows cur (clear_deleted cur rows1)) rows2 /\
    marks_ok (runningTasks_ snap) rows2 /\ names_ok names' (runningTasks_ snap) /\
    (forall j, j ∈ cur -> (j < length rows2)%nat) /\
    (forall s, s ∈ asked <-> exists j, is_current j /\ isJobLoaded snap j = false /\
       lookup_obj (JobNameTable names) s = Some j) /\
    foldM (load_status now) (grow_rows cur (clear_deleted cur rows1), names) (fetch asked) = Ret (rows2, names').
Proof using All.
  destruct Hinv as [Hwf Hrun].
  assert (Hl : forall rt, rt ∈ map snd (map_to_list (runningTasks_ snap)) ->
                 exists k, runningTasks_ snap !! k = Some rt).
  { intros rt ([k rt'] & -> & H)%list_elem_of_fmap. apply elem_of_map_to_list in H. eauto. }
  destruct (mark_running_loop now names (runningTasks_ snap) _ (rows_ snap)
    (list_to_set config_jobs) Hnames (conj Hwf Hrun) Hl) as (rows1 & cur & E1 & Hm1 & Hsub & Hcur).
  destruct (mark_running_frame _ _ _ _ _ _ _ _ Hnames Hl E1) as [Hf1 Hcur'].
  assert (Hc : forall j, j ∈ cur <-> is_current j).
  { intros j. unfold is_current. split.
    - intros [H|H]%Hcur'; [left; by apply elem_of_list_to_set in H|by right].
    - intros [H|(n & rt & H)]; [apply Hsub; by apply elem_of_list_to_set|].
      apply (Hcur rt j n); [|done]. apply list_elem_of_fmap. exists (j, n, rt).
      split; [done|]. by apply elem_of_map_to_list. }
  assert (Hm2 : marks_ok (runningTasks_ snap) (grow_rows cur (clear_deleted cur rows1))).
  { eapply marks_ok_cells; [intros; apply grow_rows_cells|]. apply clear_deleted_marks; [|done].
    intros j n [rt H]. apply Hc. right. eauto. }
  pose proof Hnames as (Hw1 & Hw2 & Hn).
  assert (Hun : forall j, j ∈ unloaded_jobs cur (grow_rows cur (clear_deleted cur rows1)) <->
    is_current j /\ isJobLoaded snap j = false).
  { intros j. rewrite unloaded_jobs_spec, grow_rows_loaded, Hc. unfold row_loaded.
    assert (Hload : j ∈ cur -> match clear_deleted cur rows1 !! j with Some row => isLoaded_ row | None => false end
      = isJobLoaded snap j) by (intros Hj; rewrite clear_deleted_row by done; apply Hf1).
    split; [intros (H1 & _ & H2); split; [done|]; by rewrite <- Hload by (by apply Hc)|].
    intros [H1 H2]. split_and!; [done|apply grow_rows_length; by apply Hc|by rewrite Hload by (by apply Hc)]. }
  destruct (job_names_loop (JobNameTable names)
    (unloaded_jobs cur (grow_rows cur (clear_deleted cur rows1))) [] Hw1)
    as (job_names & E2 & Hjn).
  { intros j [Hj _]%Hun. destruct Hj as [Hj|(n & rt & Hj)]; [by apply Hjobs|].
    apply Hn in Hj as [Hj _]. apply Hw1 in Hj. unfold lookup_id. rewrite Hj. eauto. }
  assert (Hreq' : forall r j, r ∈ fetch job_names ->
      lookup_obj (JobNameTable names) (sr_job r) = Some j -> is_current j /\ isJobLoaded snap j = false).
  { intros r j Hr Hj. apply Hreq, Hjn in Hr as (j' & Hj' & E'). apply Hun. congruence. }
  destruct (load_status_loop now (runningTasks_ snap) (fetch job_names) _ names
    Hnames Hm2 (Havoid _)) as (rows2 & names' & E3 & Hm3 & Hn3 & _ & Hlen).
  { intros r Hr. apply Hreq, Hjn in Hr as (j & _ & ->). eauto. }
  exists rows1, cur, rows2, names', job_names. split_and!; auto.
  - unfold updateForConfig. rewrite E1. cbn [mbind outcome_bind]. cbv beta iota.
    change ([] ++ job_names) with job_names in E2. rewrite E2. cbn [mbind outcome_bind].
    by rewrite E3.
  - eapply load_status_frame; [|exact E3]. intros r j Hr Hj.
    destruct (Hreq' _ _ Hr Hj) as [H1 H2]. intros [H3|H3]; [|by rewrite Hc in H3].
    destruct Hf1 as [Hf1 _]. rewrite Hf1 in H3. unfold row_loaded, isJobLoaded in *. congruence.
  - intros j Hj. eapply Nat.lt_le_trans; [|exact Hlen]. by apply grow_rows_length.
  - intros s. rewrite Hjn. setoid_rewrite Hun. naive_solver.
Qed.

(** C28: As long as the task store has no row for a running task, and only
    rows of the jobs it is asked for, reconfiguring keeps the snapshot
    consistent and the running tasks as they are.  The store is asked for
    exactly the configured or running jobs that are not loaded; every task gets
    the last result that the store has for it, and every configured job ends up
    loaded.  Tasks of loaded current jobs that are not running keep their
    statuses; and the statuses of jobs that are neither configured nor running
    are dropped. *)
Theorem updateForConfig_correct :
  exists snap' names' asked,
    updateForConfig now fetch names snap config_jobs = Ret (snap', names') /\
    snapshot_inv snap' /\ runningTasks_ snap' = runningTasks_ snap /\
    names_ok names' (runningTasks_ snap') /\
    (forall j, j ∈ config_jobs -> isJobLoaded snap' j = true) /\
    (forall s, s ∈ asked <-> exists j, is_current j /\ isJobLoaded snap j = false /\
       lookup_obj (JobNameTable names) s = Some j) /\
    (forall l1 r l2 j, fetch asked = l1 ++ r :: l2 ->
       (forall r', r' ∈ l2 -> sr_job r' = sr_job r -> sr_node r' <> sr_node r) ->
       lookup_obj (JobNameTable names) (sr_job r) = Some j ->
       exists n, lookup_obj (NodeNameTable names') (sr_node r) = Some n /\
         match sr_result r with
         | DONE => cell (rows_ snap') j n = Some (done_at (sr_timestamp r))
         | FAILED => cell (rows_ snap') j n = Some (failed now)
         | OTHER _ => True
         end) /\
    (forall j n, is_current j -> isJobLoaded snap j = true ->
       runningTasks_ snap !! (j, n) = None ->
       view (rows_ snap') j n = view (rows_ snap) j n) /\
    (forall j n, ~ is_current j -> view (rows_ snap') j n = None).
Proof using All.
  destruct updateForConfig_phases as
    (rows1 & cur & rows2 & names' & asked & E & Hc & [Hf1 Hv1] & [_ Hv2] & Hm & Hn & Hlen & Hask & Hload).
  exists (mkSnapshot (mark_loaded cur rows2) (runningTasks_ snap)), names', asked.
  apply (marks_ok_cells _ _ (mark_loaded cur rows2)) in Hm;
    [|intros; apply mark_loaded_cells].
  assert (Hv : forall j n, view (mark_loaded cur rows2) j n = view rows2 j n)
    by (intros; unfold view; by rewrite mark_loaded_cells).
  split_and!; [done|by destruct Hm; constructor|done|done| |done| | |].
  - intros j Hj. assert (j ∈ cur) by (apply Hc; by left). apply mark_loaded_loaded; auto.
  - intros l1 r l2 j El Hlast Hj. rewrite El in Hload.
    destruct (load_status_last now l1 r l2 _ _ _ _ j (proj1 Hnames) (proj1 (proj2 Hnames)) Hload Hj Hlast)
      as (n & H1 & H2).
    exists n. split; [done|]. cbn [rows_]. rewrite mark_loaded_cells. exact H2.
  - intros j n Hcur Hjl Hnr. simpl. rewrite Hv, Hv2.
    2: { left. by rewrite Hf1. }
    unfold view at 1. rewrite grow_rows_cells. unfold cell.
    rewrite clear_deleted_row by (by apply Hc). fold (cell rows1 j n). by apply Hv1.
  - intros j n Hncur. assert (j ∉ cur) by (by rewrite Hc). simpl. rewrite Hv, Hv2 by (by right).
    unfold view. rewrite grow_rows_cells. by rewrite clear_deleted_gone.
Qed.

End UpdateForConfig.

(** A scheduler that knows two jobs and two nodes, and has learned from a
    worker that job [a] runs on node [n1] before it loaded the job. *)
Definition sample_names : NameTables := mkNames (tableOf ["a"; "b"]) (tableOf ["n1"; "n2"]).
Definition sample_running : RunningTask := sample_task "a" "n1" 1.
Definition sample_snapshot : TaskStatusSnapshot :=
  mkSnapshot [mkRow false [running 100]] {[ (0%nat, 0%nat) := sample_running ]}.
(** A task store with the given rows. *)
Definition store_with (rows : list StoreRow) (jobs : list string) : list StoreRow :=
  List.filter (fun r => bool_decide (sr_job r ∈ jobs)) rows.

Lemma sample_snapshot_inv : snapshot_inv sample_snapshot.
Proof.
  constructor.
  - intros [|j] [|n] st; try discriminate. intros [= <-]. apply running_wf.
  - intros j n. simpl. destruct (decide ((j, n) = (0%nat, 0%nat))) as [[= -> ->]|Hne].
    + split; [intros _; by exists (running 100)|intros _; by exists sample_running].
    + rewrite lookup_singleton_ne by congruence. split; [by intros []|].
      intros (st & H & _). destruct j as [|j]; [|done]. by destruct n.
Qed.

Lemma table2_wf s1 s2 : s1 <> s2 -> table_wf (tableOf [s1; s2]).
Proof.
  intros Hne s i. unfold tableOf, objToIndex_, objects_. cbn [imap foldl fst snd].
  rewrite !lookup_insert, lookup_empty.
  destruct i as [|[|i]]; simpl; repeat case_decide; naive_solver.
Qed.

Lemma sample_running_only k rt :
  runningTasks_ sample_snapshot !! k = Some rt -> k = (0%nat, 0%nat) /\ rt = sample_running.
Proof. simpl. intros [<- <-]%lookup_singleton_Some. done. Qed.

Lemma sample_names_ok : names_ok sample_names (runningTasks_ sample_snapshot).
Proof.
  split_and!; [by apply table2_wf|by apply table2_wf|].
  intros j n rt H. apply sample_running_only in H as [[= -> ->] ->]. done.
Qed.

Lemma store_with_requested rows : fetch_requested (store_with rows).
Proof.
  intros l r. unfold store_with. rewrite list_elem_of_In, filter_In. intros [_ H]. by bprop.
Qed.

Lemma updateForConfig_correct_witness :
  let fetch := store_with [mkStoreRow "b" "n2" DONE 50] in
  exists snap' names',
    updateForConfig 200 fetch sample_names sample_snapshot [0%nat; 1%nat]
      = Ret (snap', names') /\ snapshot_inv snap' /\
    isJobLoaded snap' 1 = true /\ cell (rows_ snap') 1 1 = Some (done_at 50).
Proof.
  intros fetch.
  destruct (updateForConfig_correct 200 fetch sample_names sample_snapshot [0%nat; 1%nat]
              sample_snapshot_inv sample_names_ok) as (snap' & names' & asked & H1 & H2 & _ & _ & H3 & H4 & H5 & _).
  - intros j Hj. rewrite !elem_of_cons, elem_of_nil in Hj.
    destruct Hj as [->|[->|[]]]; eexists; reflexivity.
  - apply store_with_requested.
  - intros l r k rt. unfold fetch, store_with. rewrite list_elem_of_In, filter_In.
    intros [[<-|[]] _] H. apply sample_running_only in H as [_ ->]. discriminate.
  - exists snap', names'. split_and!; [done|done|apply H3; set_solver|].
    assert (Hb : "b" ∈ asked).
    { apply H4. exists 1%nat. split; [left; set_solver|]. split; reflexivity. }
    assert (Ef : fetch asked = [] ++ mkStoreRow "b" "n2" DONE 50 :: [])
      by (unfold fetch, store_with; cbn; by rewrite bool_decide_true by done).
    destruct (H5 _ _ _ 1%nat Ef ltac:(set_solver) eq_refl) as (n & E1 & E2).
    assert (names' = sample_names) as -> by (vm_compute in H1; injection H1 as _ <-; reflexivity).
    vm_compute in E1. injection E1 as <-. exact E2.
Defined.

(** The callback that logs "Refusing to load status" loads it anyway:
    when the store has a result for a task that is running (say, it failed,
    was forgiven and restarted before the scheduler was), loading the job
    replaces the running mark by the stored result while the task stays in
    the running map, so the snapshot is no longer consistent. *)
Theorem updateForConfig_overwrites_running :
  exists snap' names',
    updateForConfig 200 (store_with [mkStoreRow "a" "n1" FAILED 50]) sample_names
      sample_snapshot [0%nat] = Ret (snap', names') /\
    snapshot_inv sample_snapshot /\
    runningTasks_ snap' !! (0%nat, 0%nat) = Some sample_running /\
    cell (rows_ snap') 0 0 = Some (failed 200) /\ ~ running_consistent snap'.
Proof.
  eexists _, _. split; [vm_compute; reflexivity|].
  split; [apply sample_snapshot_inv|]. split; [reflexivity|]. split; [reflexivity|].
  intros Hrun. destruct (Hrun 0%nat 0%nat) as [H _]. destruct H as (st & Hc & Hr); [by eexists|].
  injection Hc as <-. discriminate.
Qed.

(** Forgiving a job leaves no task of it failed, keeps which tasks
    are running and done, does not touch other jobs, and keeps the snapshot
    consistent. *)
Theorem forgiveJob_unfails snap job_id :
  snapshot_inv snap ->
  exists snap', forgiveJob snap job_id = Ret snap' /\ snapshot_inv snap' /\
    runningTasks_ snap' = runningTasks_ snap /\
    (forall j n st', cell (rows_ snap') j n = Some st' ->
       exists st, cell (rows_ snap) j n = Some st /\
         isRunning st' = isRunning st /\ isDone st' = isDone st /\
         (if decide (j = job_id) then isFailed st' = false else st' = st)) /\
    (forall j n, is_Some (cell (rows_ snap) j n) -> is_Some (cell (rows_ snap') j n)).
Proof.
  intros Hinv. destruct (forgiveJob_inv snap job_id Hinv) as (snap' & E & Hinv').
  destruct (forgiveJob_cells _ _ _ Hinv E) as (Hm & H1 & H2).
  exists snap'. split_and!; auto.
  - intros j n st' Hc. destruct (H1 _ _ _ Hc) as (st & Hc0 & Hif). exists st.
    split; [done|]. revert Hif. case_decide; [|by intros ->]. intros Hif.
    destruct (forgive_ok st) as (st1 & E1 & _ & F & R & D & _); [by eapply (inv_wf _ Hinv), Hc0|].
    rewrite E1 in Hif. by injection Hif as <-.
  - intros j n [st Hc]. eapply H2, Hc.
Qed.

Lemma forgiveJob_unfails_witness :
  exists snap', forgiveJob sample_snapshot 0 = Ret snap' /\ snapshot_inv snap'.
Proof.
  destruct (forgiveJob_unfails sample_snapshot 0 sample_snapshot_inv) as (s & H1 & H2 & _).
  exists s. split; [exact H1|exact H2].
Defined.

(** The result that a status makes persistent, if any. *)
Definition result_of (st : TaskStatus) : option TaskResult :=
  if isDone st then Some DONE else if isFailed st then Some FAILED else None.

(** Observers and stores report errors by exceptions only. *)
Definition returns_or_throws (m : outcome unit) : Prop := m = Ret tt \/ exists msg, m = Throw msg.

Lemma notify_observers_ok observers rt st :
  Forall (fun o : RunningTask -> TaskStatus -> outcome unit => returns_or_throws (o rt st)) observers ->
  notify_observers observers rt st = Ret tt.
Proof.
  unfold notify_observers. induction 1 as [|o l Ho _ IH]; [done|]. cbn [foldM].
  destruct Ho as [->|[msg ->]]; exact IH.
Qed.

(** What [TaskStatuses] writes to the task store is the final status
    it stored, under the IDs of the task's names.  Whatever the observers
    throw, an update returns exactly if the snapshot's update does and the
    store accepts the result; the result is persisted exactly once if the
    resulting status is done or failed, and nothing is persisted otherwise.
    A store that throws ends the process. *)
Theorem updateStatus_persists store observers now ts rt status :
  (forall job node r, returns_or_throws (store job node r)) ->
  (forall st, Forall (fun o => returns_or_throws (o rt st)) observers) ->
  let '(jobs, j) := insert_obj (JobNameTable (names_ ts)) (rt_job rt) in
  let '(nodes, n) := insert_obj (NodeNameTable (names_ ts)) (rt_node rt) in
  let result := ts_updateStatus (Some store) observers now ts rt status in
  lookup_obj jobs (rt_job rt) = Some j /\ lookup_obj nodes (rt_node rt) = Some n /\
  match updateStatus now (snapshot_ ts) j n rt status with
  | Ret (snap, st) =>
      match result_of st with
      | None => result = Ret (mkTaskStatuses snap (mkNames jobs nodes) (persisted ts))
      | Some r =>
          (store (rt_job rt) (rt_node rt) r = Ret tt /\
           result = Ret (mkTaskStatuses snap (mkNames jobs nodes)
                           (persisted ts ++ [(rt_job rt, rt_node rt, r)]))) \/
          ((exists msg, store (rt_job rt) (rt_node rt) r = Throw msg) /\
           exists msg, result = Crash msg)
      end
  | _ => is_ret result = false
  end.
Proof.
  intros Hstore Hobs. unfold ts_updateStatus, ts_updateStatus_ids, recordStatusUpdate.
  pose proof (insert_obj_lookup (JobNameTable (names_ ts)) (rt_job rt)) as Hj.
  pose proof (insert_obj_lookup (NodeNameTable (names_ ts)) (rt_node rt)) as Hn.
  destruct (insert_obj (JobNameTable (names_ ts)) (rt_job rt)) as [jobs j].
  destruct (insert_obj (NodeNameTable (names_ ts)) (rt_node rt)) as [nodes n].
  cbn [snapshot_ names_ persisted fst snd] in *. split_and!; [done|done|].
  destruct (updateStatus now (snapshot_ ts) j n rt status) as [[snap st]| | |]; [|done..].
  cbn [mbind outcome_bind]. rewrite notify_observers_ok by apply Hobs.
  cbn [mbind outcome_bind]. unfold result_of.
  destruct (isDone st); [|destruct (isFailed st); [|done]];
    match goal with |- context [store _ _ ?r] =>
      destruct (Hstore (rt_job rt) (rt_node rt) r) as [->|[msg ->]] end; eauto.
Qed.

Lemma updateStatus_persists_witness :
  exists ts', ts_updateStatus (Some (fun _ _ _ => Ret tt)) [fun _ _ => Throw "down"] 200
      (mkTaskStatuses sample_snapshot sample_names []) sample_running (failed 200) = Ret ts' /\
    persisted ts' = [("a", "n1", FAILED)].
Proof.
  pose proof (updateStatus_persists (fun _ _ _ => Ret tt) [fun _ _ => Throw "down"] 200
    (mkTaskStatuses sample_snapshot sample_names []) sample_running (failed 200)
    (fun _ _ _ => or_introl eq_refl)
    (fun _ => Forall_cons_2 _ _ _ (or_intror (ex_intro _ "down" eq_refl)) (Forall_nil_2 _)))
    as (_ & _ & [[_ E]|[[msg E] _]]).
  - eexists. split; [exact E|]. vm_compute. reflexivity.
  - discriminate E.
Defined.
