(* ===== verification/WorkerState.v ===== *)
(** [remote/RemoteWorkerState.{h,cpp}] and [remote/RemoteWorkerUpdate.h]: the
    health state of a worker, computed by the scheduler and by the worker
    itself, and the actions the scheduler accumulates for its workers.

    Times are seconds.  The additions of [computeState] are exact integers
    here; in C++ they add a 32-bit gap to a 64-bit time, which does not
    overflow for times below [2^63 - 2^31]. *)

From stdpp Require Import base gmap strings list.
From Stdlib Require Import ZArith Lia.
From S2P Require Import Prelude Thrift.

(** [RemoteWorkerState::State]. *)
Inductive State := NEW | HEALTHY | UNHEALTHY | MUST_DIE.
#[global] Instance State_eq_dec : EqDecision State.
Proof. solve_decision. Defined.

(** [static_cast<int32_t>(state_)]. *)
Definition State_to_int (s : State) : Z :=
  match s with NEW => 0 | HEALTHY => 1 | UNHEALTHY => 2 | MUST_DIE => 3 end.

Record RemoteWorkerState := mkWorkerState {
  state_ : State;
  timeBecameUnhealthy_ : Z;
  timeLastGoodHealthcheckSent_ : Z;
  timeLastHeartbeatReceived_ : Z;
  hasBeenHealthy_ : bool;
  notifyIfTasksNotRunningSequenceNum_ : Z
}.

(** [RemoteWorkerState(int64_t cur_time)]. *)
Definition newWorkerState (cur_time : Z) : RemoteWorkerState :=
  mkWorkerState NEW cur_time INT64_MIN INT64_MIN false 0.

(** [computeState]: the new state, and whether the worker is kept from being
    healthy only by [allowed_to_become_healthy]. *)
Definition computeState (st : RemoteWorkerState) (cur_time max_healthcheck_gap
    max_heartbeat_gap lose_unhealthy_worker_after : Z)
    (allowed_to_become_healthy : bool) : State * bool :=
  if decide (state_ st = MUST_DIE) then (MUST_DIE, false)
  else
    let '(new_state, disallowed) :=
      if decide (state_ st = NEW) then (NEW, false)
      else if (timeLastGoodHealthcheckSent_ st + max_healthcheck_gap <? cur_time)
              || (timeLastHeartbeatReceived_ st + max_heartbeat_gap <? cur_time)
      then (UNHEALTHY, false)
      else if negb allowed_to_become_healthy && negb (hasBeenHealthy_ st)
      then (UNHEALTHY, true)
      else (HEALTHY, false) in
    if negb disallowed
       && (0 <? lose_unhealthy_worker_after)
       && negb (bool_decide (new_state = HEALTHY))
       && negb (bool_decide (state_ st = HEALTHY))
       && (timeBecameUnhealthy_ st + lose_unhealthy_worker_after <? cur_time)
    then (MUST_DIE, disallowed)
    else (new_state, disallowed).

(** The command-line flags the remote worker code reads. *)
Record Flags := mkFlags {
  FLAGS_healthcheck_period : Z;
  FLAGS_healthcheck_grace_period : Z;
  FLAGS_heartbeat_grace_period : Z;
  FLAGS_lose_unhealthy_worker_after : Z;
  FLAGS_worker_check_interval : Z;
  FLAGS_CAUTION_worker_suicide_backoff_safety_margin_sec : Z;
  FLAGS_CAUTION_worker_suicide_task_kill_wait_ms : Z;
  FLAGS_allow_bump_unhealthy_worker : bool;
  FLAGS_unsure_if_running_check_initial_period : Z;
  FLAGS_CAUTION_startup_wait_for_workers : Z
}.

(** The defaults of the [DEFINE_]s. *)
Definition defaultFlags : Flags := mkFlags 60 60 60 500 5 60 5000 false 1 (-1).

Section Periods.
Context (flags : Flags).
Definition workerCheckInterval : Z := Z.max 1 (FLAGS_worker_check_interval flags).
Definition maxHealthcheckGap : Z :=
  Z.max 1 (FLAGS_healthcheck_period flags) + Z.max 1 (FLAGS_healthcheck_grace_period flags)
  + workerCheckInterval.
Definition heartbeatGracePeriod : Z := Z.max 1 (FLAGS_heartbeat_grace_period flags).
Definition loseUnhealthyWorkerAfter : Z := Z.max 1 (FLAGS_lose_unhealthy_worker_after flags).
Definition workerSuicideBackoffSafetyMarginSec : Z :=
  Z.max 1 (FLAGS_CAUTION_worker_suicide_backoff_safety_margin_sec flags).
Definition workerSuicideTaskKillWaitMs : Z :=
  Z.max 1 (FLAGS_CAUTION_worker_suicide_task_kill_wait_ms flags).

(** [getHeartbeatResponse]; the worker set is filled in by the caller. *)
Definition getHeartbeatResponse (st : RemoteWorkerState) : SchedulerHeartbeatResponse :=
  mkHeartbeatResponse maxHealthcheckGap heartbeatGracePeriod loseUnhealthyWorkerAfter
    workerCheckInterval (State_to_int (state_ st)) kProtocolVersion None.
End Periods.

(** ** [RemoteWorkerUpdate] *)

Record RemoteWorkerUpdate := mkUpdate {
  curTime_ : Z;
  workersToHealthcheck_ : gmap string BistroWorker;
  suicideWorkers_ : gmap string BistroWorker;
  newWorkers_ : gmap string BistroWorker;
  lostRunningTasks_ : gmap (string * string) RunningTask;
  unsureChecks_ : gmap string (BistroWorker * list RunningTask);
  initialWaitMessage_ : string
}.

(** [RemoteWorkerUpdate(UNIT_TEST_TIME, t)]; the other constructor passes the
    current time. *)
Definition newUpdate (t : Z) : RemoteWorkerUpdate := mkUpdate t ∅ ∅ ∅ ∅ ∅ "unknown".

(** [emplace] keeps the entry that is there. *)
Definition emplace {K V} `{Countable K} (k : K) (v : V) (m : gmap K V) : gmap K V :=
  match m !! k with Some _ => m | None => <[k := v]> m end.

Definition healthcheckWorker (u : RemoteWorkerUpdate) (w : BistroWorker) : RemoteWorkerUpdate :=
  mkUpdate (curTime_ u) (emplace (bw_shard w) w (workersToHealthcheck_ u)) (suicideWorkers_ u)
    (newWorkers_ u) (lostRunningTasks_ u) (unsureChecks_ u) (initialWaitMessage_ u).
Definition requestSuicide (u : RemoteWorkerUpdate) (w : BistroWorker) : RemoteWorkerUpdate :=
  mkUpdate (curTime_ u) (workersToHealthcheck_ u) (emplace (bw_shard w) w (suicideWorkers_ u))
    (newWorkers_ u) (lostRunningTasks_ u) (unsureChecks_ u) (initialWaitMessage_ u).
Definition addNewWorker (u : RemoteWorkerUpdate) (w : BistroWorker) : RemoteWorkerUpdate :=
  mkUpdate (curTime_ u) (workersToHealthcheck_ u) (suicideWorkers_ u)
    (emplace (bw_shard w) w (newWorkers_ u)) (lostRunningTasks_ u) (unsureChecks_ u)
    (initialWaitMessage_ u).
Definition loseRunningTask (u : RemoteWorkerUpdate) (k : string * string) (rt : RunningTask)
    : RemoteWorkerUpdate :=
  mkUpdate (curTime_ u) (workersToHealthcheck_ u) (suicideWorkers_ u) (newWorkers_ u)
    (emplace k rt (lostRunningTasks_ u)) (unsureChecks_ u) (initialWaitMessage_ u).
Definition checkUnsureIfRunningTasks (u : RemoteWorkerUpdate) (w : BistroWorker)
    (task_map : gmap (string * string) RunningTask) : RemoteWorkerUpdate :=
  mkUpdate (curTime_ u) (workersToHealthcheck_ u) (suicideWorkers_ u) (newWorkers_ u)
    (lostRunningTasks_ u)
    (emplace (bw_shard w) (w, map snd (map_to_list task_map)) (unsureChecks_ u))
    (initialWaitMessage_ u).
Definition setInitialWaitMessage (u : RemoteWorkerUpdate) (m : string) : RemoteWorkerUpdate :=
  mkUpdate (curTime_ u) (workersToHealthcheck_ u) (suicideWorkers_ u) (newWorkers_ u)
    (lostRunningTasks_ u) (unsureChecks_ u) m.

Lemma emplace_lookup {K V} `{Countable K} (k k' : K) (v : V) m :
  emplace k v m !! k' =
    match m !! k' with Some x => Some x | None => if decide (k = k') then Some v else None end.
Proof.
  unfold emplace. destruct (m !! k) eqn:E; [|rewrite lookup_insert];
    destruct (decide (k = k')) as [<-|]; rewrite ?E; try done; by destruct (m !! k').
Qed.

Lemma emplace_is_Some {K V} `{Countable K} (k : K) (v : V) m : is_Some (emplace k v m !! k).
Proof.
  rewrite emplace_lookup, decide_True by done. destruct (m !! k); eauto.
Qed.
#[export] Hint Resolve emplace_is_Some : bistro.

(** ** How states follow each other *)

(** The arrows of the diagram in [RemoteWorkerState.h], with staying put. *)
Inductive step_allowed : State -> State -> Prop :=
| step_refl s : step_allowed s s
| step_new_lost : step_allowed NEW MUST_DIE
| step_sick : step_allowed HEALTHY UNHEALTHY
| step_cured : step_allowed UNHEALTHY HEALTHY
| step_lost : step_allowed UNHEALTHY MUST_DIE.
#[export] Hint Constructors step_allowed : bistro.

Section ComputeState.
Context (st : RemoteWorkerState) (cur gap hgap lose : Z) (allowed : bool).

(** The health criteria: a recent healthcheck, a recent heartbeat, and the
    consent of the worker set unless the worker has been healthy before. *)
Definition timely : bool :=
  (cur <=? timeLastGoodHealthcheckSent_ st + gap)
  && (cur <=? timeLastHeartbeatReceived_ st + hgap).
Definition permitted : bool := allowed || hasBeenHealthy_ st.
Definition overdue : bool := (0 <? lose) && (timeBecameUnhealthy_ st + lose <? cur).

Lemma computeState_eq :
  computeState st cur gap hgap lose allowed =
    match state_ st with
    | MUST_DIE => (MUST_DIE, false)
    | NEW => (if overdue then MUST_DIE else NEW, false)
    | HEALTHY => if negb timely then (UNHEALTHY, false)
                 else if permitted then (HEALTHY, false) else (UNHEALTHY, true)
    | UNHEALTHY => if negb timely then (if overdue then MUST_DIE else UNHEALTHY, false)
                   else if permitted then (HEALTHY, false) else (UNHEALTHY, true)
    end.
Proof.
  unfold computeState, timely, permitted, overdue.
  rewrite !Z.ltb_antisym, negb_andb.
  destruct (state_ st), allowed, (hasBeenHealthy_ st), (cur <=? _), (cur <=? _),
    (cur <=? _), (lose <=? 0); reflexivity.
Qed.

Lemma computeState_step :
  step_allowed (state_ st) (computeState st cur gap hgap lose allowed).1.
Proof.
  rewrite computeState_eq.
  destruct (state_ st), timely, permitted, overdue; simpl; auto with bistro.
Qed.

Lemma computeState_healthy_iff :
  (computeState st cur gap hgap lose allowed).1 = HEALTHY <->
  (state_ st = HEALTHY \/ state_ st = UNHEALTHY) /\ timely = true /\ permitted = true.
Proof.
  rewrite computeState_eq.
  destruct (state_ st), timely, permitted, overdue; simpl; naive_solver.
Qed.
End ComputeState.

(** The computed state follows the diagram of the worker states: a
    lost worker stays lost, a new worker stays new or is lost, and a healthy
    worker is never lost in one step.  It is healthy exactly if it had left
    NEW, its last good healthcheck and heartbeat are recent, and it is
    permitted to be (it has been healthy, or the worker set agrees); a worker
    that only lacks the permission is unhealthy but not lost. *)
Theorem computeState_diagram st cur gap hgap lose allowed :
  let '(s, disallowed) := computeState st cur gap hgap lose allowed in
  step_allowed (state_ st) s /\
  (s = HEALTHY <-> (state_ st = HEALTHY \/ state_ st = UNHEALTHY) /\
     cur <= timeLastGoodHealthcheckSent_ st + gap /\
     cur <= timeLastHeartbeatReceived_ st + hgap /\
     (allowed = true \/ hasBeenHealthy_ st = true)) /\
  (disallowed = true -> s = UNHEALTHY).
Proof.
  pose proof (computeState_step st cur gap hgap lose allowed) as Hs.
  pose proof (computeState_healthy_iff st cur gap hgap lose allowed) as Hh.
  pose proof (computeState_eq st cur gap hgap lose allowed) as He.
  destruct (computeState st cur gap hgap lose allowed) as [s d]. simpl in *.
  split_and!; [done| |].
  - rewrite Hh. unfold timely, permitted. rewrite andb_true_iff, orb_true_iff, !Z.leb_le.
    naive_solver.
  - intros ->. destruct (state_ st), (timely st cur gap hgap), (permitted st allowed),
      (overdue st cur lose); simpl in He; congruence.
Qed.

(** How bad a state is. *)
Definition badness (s : State) : Z :=
  match s with HEALTHY => 0 | UNHEALTHY => 1 | NEW => 1 | MUST_DIE => 2 end.

(** A view of a worker that is fresher than another one by at most [d] seconds. *)
Record staler (d : Z) (a b : RemoteWorkerState) : Prop := {
  stale_state : state_ a = state_ b;
  stale_unhealthy : timeBecameUnhealthy_ a <= timeBecameUnhealthy_ b + d;
  stale_check : timeLastGoodHealthcheckSent_ a <= timeLastGoodHealthcheckSent_ b + d;
  stale_beat : timeLastHeartbeatReceived_ a <= timeLastHeartbeatReceived_ b + d;
  stale_been : hasBeenHealthy_ a = true -> hasBeenHealthy_ b = true
}.

(** The state the worker computes for itself in
    [BistroWorkerHandler::healthcheck], from the parameters of the last
    heartbeat response: it gives itself a little less time before it is lost,
    and never permits itself to become healthy. *)
Definition workerSelfState (r : SchedulerHeartbeatResponse) (heartbeatPeriodSec : Z)
    (st : RemoteWorkerState) (cur_time : Z) : State * bool :=
  computeState st cur_time (hr_maxHealthcheckGap r)
    (heartbeatPeriodSec + hr_heartbeatGracePeriod r)
    (hr_loseUnhealthyWorkerAfter r - hr_workerCheckInterval r) false.

Lemma computeState_monotone d a b cur cur' gap hgap lose lose' allowed allowed' :
  staler d a b -> cur + d <= cur' -> (allowed' = true -> allowed = true) -> 0 < lose' <= lose ->
  (computeState a cur' gap hgap lose' allowed').2 = false ->
  badness (computeState b cur gap hgap lose allowed).1
  <= badness (computeState a cur' gap hgap lose' allowed').1.
Proof.
  intros [Hst Hu Hc Hb Hh] Hcur Hall Hlose. rewrite !computeState_eq, Hst.
  assert (Ht : timely a cur' gap hgap = true -> timely b cur gap hgap = true)
    by (unfold timely; lia).
  assert (Hp : permitted a allowed' = true -> permitted b allowed = true)
    by (unfold permitted; destruct allowed, allowed', (hasBeenHealthy_ a), (hasBeenHealthy_ b);
        naive_solver).
  assert (Ho : overdue b cur lose = true -> overdue a cur' lose' = true) by (unfold overdue; lia).
  destruct (state_ b), (timely a cur' gap hgap), (timely b cur gap hgap),
    (permitted a allowed'), (permitted b allowed), (overdue a cur' lose'), (overdue b cur lose);
    naive_solver lia.
Qed.

(** C29: The worker judges itself at least as badly as the scheduler does, up
    to the time that a heartbeat takes.  If its timestamps are newer than the
    scheduler's by at most [d] (the code takes them after the synchronous call
    has returned), both start from the same state, and it is not held back by
    consensus alone, then once the scheduler loses the worker at [cur], the
    worker gives itself up at any time from [cur + d] on -- provided the time to
    lose a worker is longer than the interval of the scheduler's checks. *)
Theorem worker_dies_first flags d a b period cur cur' allowed :
  workerCheckInterval flags < loseUnhealthyWorkerAfter flags ->
  staler d a b -> cur + d <= cur' ->
  let r := getHeartbeatResponse flags b in
  (workerSelfState r period a cur').2 = false ->
  let scheduler := (computeState b cur (maxHealthcheckGap flags)
    (period + heartbeatGracePeriod flags) (loseUnhealthyWorkerAfter flags) allowed).1 in
  badness scheduler <= badness (workerSelfState r period a cur').1 /\
  (scheduler = MUST_DIE -> (workerSelfState r period a cur').1 = MUST_DIE).
Proof.
  intros Hflags Hst Hcur r Hd scheduler.
  assert (Hm : badness scheduler <= badness (workerSelfState r period a cur').1).
  { apply (computeState_monotone d); [done|done|done| |exact Hd].
    cbn. unfold workerCheckInterval in *. lia. }
  split; [exact Hm|]. intros E. rewrite E in Hm.
  destruct (workerSelfState r period a cur').1; cbn in Hm; (done || lia).
Qed.

Lemma worker_dies_first_witness :
  let st t := mkWorkerState UNHEALTHY t t t true 0 in
  (workerSelfState (getHeartbeatResponse defaultFlags (st 100)) 15 (st 103) 703).1 = MUST_DIE.
Proof.
  intros st. apply (worker_dies_first defaultFlags 3 (st 103) (st 100) 15 700 703 true);
    [by vm_compute|constructor; cbn; (done || lia)|lia|reflexivity|reflexivity].
Defined.

(** With a time to lose a worker that is not longer than the check
    interval, the worker's own deadline is not positive, which [computeState]
    takes for "never": such a worker never gives itself up, however long it
    has been cut off, while the scheduler loses it and restarts its tasks. *)
Theorem worker_never_dies flags st b period :
  loseUnhealthyWorkerAfter flags <= workerCheckInterval flags -> state_ st <> MUST_DIE ->
  forall cur, (workerSelfState (getHeartbeatResponse flags b) period st cur).1 <> MUST_DIE.
Proof.
  intros Hflags Hst cur. unfold workerSelfState. rewrite computeState_eq.
  assert (overdue st cur (hr_loseUnhealthyWorkerAfter (getHeartbeatResponse flags b)
            - hr_workerCheckInterval (getHeartbeatResponse flags b)) = false) as ->
    by (unfold overdue; cbn; lia).
  repeat case_match; (done || discriminate).
Qed.

Definition hastyFlags : Flags := mkFlags 60 60 60 5 5 60 5000 false 1 (-1).

(** A worker that was last heard of a day ago. *)
Lemma worker_never_dies_witness :
  let st := mkWorkerState UNHEALTHY 100 100 100 true 0 in
  (workerSelfState (getHeartbeatResponse hastyFlags st) 15 st 86400).1 <> MUST_DIE /\
  (computeState st 86400 (maxHealthcheckGap hastyFlags) (15 + heartbeatGracePeriod hastyFlags)
     (loseUnhealthyWorkerAfter hastyFlags) false).1 = MUST_DIE.
Proof.
  intros st. split; [|reflexivity].
  apply (worker_never_dies hastyFlags st st 15); [by vm_compute|discriminate].
Defined.
