(* ===== verification/RemoteWorker.v ===== *)
(** [remote/RemoteWorker.{h,cpp}]: the scheduler's side of the protocol with
    one remote worker.  The three callbacks a [RemoteWorker] is constructed
    with act on state of their owner; here they are the operations of the
    class [WorkerCobs] on that state, and [CobLaws] is what a [RemoteWorker]
    and its owner promise each other. *)

From stdpp Require Import base gmap strings list.
From Stdlib Require Import ZArith Lia.
From S2P Require Import Prelude Thrift WorkerSet Dynamic Backoff TaskStatus WorkerState.

(** ** State *)

Record RemoteWorker := mkRemoteWorker {
  worker_ : BistroWorker;
  rw_state : RemoteWorkerState;
  initialWorkerSetID_ : WorkerSetID;
  workerSetID_ : option WorkerSetID;
  firstAssociatedWorkerSetID_ : option WorkerSetID;
  indirectWorkerSetID_ : option WorkerSetID;
  timeLastHealthcheckSent_ : Z;
  rw_runningTasks : gmap (string * string) RunningTask;
  unsureIfRunningTasks_ : gmap (string * string) RunningTask;
  timeOfLastUnsureIfRunningCheck_ : Z;
  repeatsOfUnsureIfRunningCheck_ : Z;
  schedulerID_ : BistroInstanceID
}.

Definition shard_of (w : RemoteWorker) : string := bw_shard (worker_ w).
Definition getState (w : RemoteWorker) : State := state_ (rw_state w).
Definition isHealthy (w : RemoteWorker) : bool := bool_decide (getState w = HEALTHY).
Definition hasBeenHealthy (w : RemoteWorker) : bool := hasBeenHealthy_ (rw_state w).

(** The fields that change together, one assignment each. *)
Definition set_worker (w : RemoteWorker) (bw : BistroWorker) : RemoteWorker :=
  mkRemoteWorker bw (rw_state w) (initialWorkerSetID_ w) (workerSetID_ w)
    (firstAssociatedWorkerSetID_ w) (indirectWorkerSetID_ w) (timeLastHealthcheckSent_ w)
    (rw_runningTasks w) (unsureIfRunningTasks_ w) (timeOfLastUnsureIfRunningCheck_ w)
    (repeatsOfUnsureIfRunningCheck_ w) (schedulerID_ w).
Definition set_rw_state (w : RemoteWorker) (st : RemoteWorkerState) : RemoteWorker :=
  mkRemoteWorker (worker_ w) st (initialWorkerSetID_ w) (workerSetID_ w)
    (firstAssociatedWorkerSetID_ w) (indirectWorkerSetID_ w) (timeLastHealthcheckSent_ w)
    (rw_runningTasks w) (unsureIfRunningTasks_ w) (timeOfLastUnsureIfRunningCheck_ w)
    (repeatsOfUnsureIfRunningCheck_ w) (schedulerID_ w).
Definition set_ids (w : RemoteWorker) (cur first indirect : option WorkerSetID) : RemoteWorker :=
  mkRemoteWorker (worker_ w) (rw_state w) (initialWorkerSetID_ w) cur first indirect
    (timeLastHealthcheckSent_ w) (rw_runningTasks w) (unsureIfRunningTasks_ w)
    (timeOfLastUnsureIfRunningCheck_ w) (repeatsOfUnsureIfRunningCheck_ w) (schedulerID_ w).
Definition set_tasks (w : RemoteWorker) (running unsure : gmap (string * string) RunningTask)
    : RemoteWorker :=
  mkRemoteWorker (worker_ w) (rw_state w) (initialWorkerSetID_ w) (workerSetID_ w)
    (firstAssociatedWorkerSetID_ w) (indirectWorkerSetID_ w) (timeLastHealthcheckSent_ w)
    running unsure (timeOfLastUnsureIfRunningCheck_ w)
    (repeatsOfUnsureIfRunningCheck_ w) (schedulerID_ w).
Definition set_checks (w : RemoteWorker) (sent last_unsure repeats : Z) : RemoteWorker :=
  mkRemoteWorker (worker_ w) (rw_state w) (initialWorkerSetID_ w) (workerSetID_ w)
    (firstAssociatedWorkerSetID_ w) (indirectWorkerSetID_ w) sent
    (rw_runningTasks w) (unsureIfRunningTasks_ w) last_unsure repeats (schedulerID_ w).

(** Assignments to members of [state_]. *)
Definition set_unhealthy_time (w : RemoteWorker) (t : Z) : RemoteWorker :=
  let s := rw_state w in
  set_rw_state w (mkWorkerState (state_ s) t (timeLastGoodHealthcheckSent_ s)
    (timeLastHeartbeatReceived_ s) (hasBeenHealthy_ s) (notifyIfTasksNotRunningSequenceNum_ s)).
Definition set_good_healthcheck (w : RemoteWorker) (t : Z) : RemoteWorker :=
  let s := rw_state w in
  set_rw_state w (mkWorkerState (state_ s) (timeBecameUnhealthy_ s) t
    (timeLastHeartbeatReceived_ s) (hasBeenHealthy_ s) (notifyIfTasksNotRunningSequenceNum_ s)).
Definition set_heartbeat_time (w : RemoteWorker) (t : Z) : RemoteWorker :=
  let s := rw_state w in
  set_rw_state w (mkWorkerState (state_ s) (timeBecameUnhealthy_ s)
    (timeLastGoodHealthcheckSent_ s) t (hasBeenHealthy_ s)
    (notifyIfTasksNotRunningSequenceNum_ s)).

(** [setState]. *)
Definition setState (w : RemoteWorker) (new_state : State) : RemoteWorker :=
  let s := rw_state w in
  set_rw_state w (mkWorkerState new_state (timeBecameUnhealthy_ s)
    (timeLastGoodHealthcheckSent_ s) (timeLastHeartbeatReceived_ s)
    (hasBeenHealthy_ s || bool_decide (new_state = HEALTHY))
    (notifyIfTasksNotRunningSequenceNum_ s)).

(** [calledNotifyIfTasksNotRunning]. *)
Definition calledNotifyIfTasksNotRunning (w : RemoteWorker) : RemoteWorker * Z :=
  let s := rw_state w in
  let n := notifyIfTasksNotRunningSequenceNum_ s + 1 in
  (set_rw_state w (mkWorkerState (state_ s) (timeBecameUnhealthy_ s)
     (timeLastGoodHealthcheckSent_ s) (timeLastHeartbeatReceived_ s) (hasBeenHealthy_ s) n), n).

(** The constructor's member initializers; its body calls [newWorkerCob_]. *)
Definition freshWorker (cur_time : Z) (w_new : BistroWorker) (worker_set_id : WorkerSetID)
    (scheduler_id : BistroInstanceID) : RemoteWorker :=
  mkRemoteWorker w_new (newWorkerState cur_time) worker_set_id None None None INT64_MIN ∅ ∅
    INT64_MIN 0 scheduler_id.

(** [kMaxBackoffForUnsureIfRunningCheck]. *)
Definition kMaxBackoffForUnsureIfRunningCheck : Z := 8.
Definition kHealthcheckTaskJob : string := "__BISTRO_HEALTH_CHECK__".

(** [checkWorkerSchedulerProtocolVersion], [enforceWorkerSchedulerProtocolVersion]. *)
Definition checkWorkerSchedulerProtocolVersion (worker scheduler : Z) : bool :=
  worker =? scheduler.
Definition enforceWorkerSchedulerProtocolVersion (worker scheduler : Z) : outcome unit :=
  require (checkWorkerSchedulerProtocolVersion worker scheduler)
    "Worker-scheduler protocol version mismatch".

(** The callbacks: what they do to the owner's state [E], and, for the last,
    to the worker. *)
Class WorkerCobs (E : Type) := {
  newWorkerCob : E -> RemoteWorker -> outcome E;
  deadWorkerCob : E -> RemoteWorker -> outcome E;
  workerSetIDChangeCob : E -> RemoteWorker -> WorkerSetID -> outcome (E * RemoteWorker)
}.

Section Operations.
Context {E : Type} `{WorkerCobs E} (flags : Flags).

(** [RemoteWorker::RemoteWorker]. *)
Definition makeWorker (e : E) (cur_time : Z) (w_new : BistroWorker)
    (worker_set_id : WorkerSetID) (scheduler_id : BistroInstanceID) : outcome (E * RemoteWorker) :=
  let w := freshWorker cur_time w_new worker_set_id scheduler_id in
  let* e := newWorkerCob e w in
  Ret (e, w).

(** [RemoteWorker::computeState]. *)
Definition rw_computeState (w : RemoteWorker) (cur_time : Z) (permits : bool) : State * bool :=
  computeState (rw_state w) cur_time (maxHealthcheckGap flags)
    (bw_heartbeatPeriodSec (worker_ w) + heartbeatGracePeriod flags)
    (loseUnhealthyWorkerAfter flags) permits.

(** [loseRunningTasks]. *)
Definition loseRunningTasks (u : RemoteWorkerUpdate) (w : RemoteWorker)
    : RemoteWorkerUpdate * RemoteWorker :=
  (foldl (fun u p => loseRunningTask u p.1 p.2) u (map_to_list (rw_runningTasks w)),
   set_tasks w ∅ ∅).

(** The end of [updateState]: healthchecks and "unsure if running" checks. *)
Definition send_checks (u : RemoteWorkerUpdate) (w : RemoteWorker)
    : RemoteWorkerUpdate * RemoteWorker :=
  let '(u, w) :=
    if timeLastHealthcheckSent_ w + Z.max 1 (FLAGS_healthcheck_period flags) <=? curTime_ u
    then (healthcheckWorker u (worker_ w),
          set_checks w (curTime_ u) (timeOfLastUnsureIfRunningCheck_ w)
            (repeatsOfUnsureIfRunningCheck_ w))
    else (u, w) in
  if bool_decide (unsureIfRunningTasks_ w = ∅)
  then (u, set_checks w (timeLastHealthcheckSent_ w) (timeOfLastUnsureIfRunningCheck_ w) 0)
  else if timeOfLastUnsureIfRunningCheck_ w
          + s32 (Z.shiftl (Z.max 1 (FLAGS_unsure_if_running_check_initial_period flags))
                          (repeatsOfUnsureIfRunningCheck_ w)) <=? curTime_ u
  then (checkUnsureIfRunningTasks u (worker_ w) (unsureIfRunningTasks_ w),
        set_checks w (timeLastHealthcheckSent_ w) (curTime_ u)
          (if repeatsOfUnsureIfRunningCheck_ w <? kMaxBackoffForUnsureIfRunningCheck
           then repeatsOfUnsureIfRunningCheck_ w + 1 else repeatsOfUnsureIfRunningCheck_ w))
  else (u, w).

(** [updateState]. *)
Definition updateState (e : E) (u : RemoteWorkerUpdate) (w : RemoteWorker)
    (consensus_permits_becoming_healthy : bool)
    : outcome (E * RemoteWorkerUpdate * RemoteWorker) :=
  if bool_decide (getState w = MUST_DIE) then Ret (e, u, w)
  else
    let new_state := (rw_computeState w (curTime_ u) consensus_permits_becoming_healthy).1 in
    let u := if bool_decide (new_state = NEW) then addNewWorker u (worker_ w) else u in
    let w := if negb (bool_decide (new_state = HEALTHY)) && bool_decide (getState w = HEALTHY)
             then set_unhealthy_time w (curTime_ u) else w in
    if bool_decide (new_state = MUST_DIE) then
      let u := requestSuicide u (worker_ w) in
      let* e := deadWorkerCob e w in
      let '(u, w) := loseRunningTasks u w in
      Ret (e, u, setState w MUST_DIE)
    else
      let '(u, w) := send_checks u (setState w new_state) in
      Ret (e, u, w).

(** [updateNewWorker]. *)
Definition updateNewWorker (e : E) (u : RemoteWorkerUpdate) (w : RemoteWorker)
    (w_new : BistroWorker) (worker_set_id : WorkerSetID)
    : outcome (E * RemoteWorkerUpdate * RemoteWorker) :=
  let* e := (if negb (bool_decide (getState w = MUST_DIE)) then deadWorkerCob e w else Ret e) in
  let '(u, w) := loseRunningTasks u w in
  let* (e, w) := makeWorker e (curTime_ u) w_new worker_set_id (schedulerID_ w) in
  let w := set_heartbeat_time w (curTime_ u) in
  updateState e u w false.

(** The treatment of the echoed [WorkerSetID] in [updateCurrentWorker]. *)
Definition echoWorkerSetID (e : E) (w : RemoteWorker) (worker_set_id : WorkerSetID)
    : outcome (E * RemoteWorker) :=
  if bool_decide (ws_schedulerID worker_set_id = schedulerID_ w) then
    let* stale_initial :=
      (if bool_decide (ws_schedulerID worker_set_id = ws_schedulerID (initialWorkerSetID_ w))
       then let* earlier := WorkerSetIDEarlierThan (ws_version (initialWorkerSetID_ w))
                                                   (ws_version worker_set_id) in
            Ret (negb earlier)
       else Ret false) in
    if (stale_initial : bool) then Ret (e, w)
    else
      let* is_later :=
        match workerSetID_ w with
        | None => Ret true
        | Some cur => WorkerSetIDEarlierThan (ws_version cur) (ws_version worker_set_id)
        end in
      if (is_later : bool) then
        let* (e, w) := workerSetIDChangeCob e w worker_set_id in
        let* first :=
          match firstAssociatedWorkerSetID_ w with
          | None =>
              CHECK (negb (bool_decide (is_Some (workerSetID_ w)))) "CHECK(!workerSetID_)" ;;;
              CHECK (negb (bool_decide (initialWorkerSetID_ w = worker_set_id)))
                "CHECK(initialWorkerSetID_ != worker_set_id)" ;;;
              Ret (Some worker_set_id)
          | Some first => Ret (Some first)
          end in
        Ret (e, set_ids w (Some worker_set_id) first (indirectWorkerSetID_ w))
      else
        match workerSetID_ w with
        | Some cur =>
            if ws_version cur =? ws_version worker_set_id then
              CHECK (bool_decide (cur = worker_set_id)) "CHECK(*workerSetID_ == worker_set_id)" ;;;
              Ret (e, w)
            else Ret (e, w)  (* out of order *)
        | None => Undef "workerSetID_->version"
        end
  else Ret (e, w).

(** [updateCurrentWorker]. *)
Definition updateCurrentWorker (e : E) (u : RemoteWorkerUpdate) (w : RemoteWorker)
    (w_new : BistroWorker) (worker_set_id : WorkerSetID) (permits : bool)
    : outcome (E * RemoteWorkerUpdate * RemoteWorker) :=
  let w := set_worker w w_new in
  let* (e, w) := echoWorkerSetID e w worker_set_id in
  let w := set_heartbeat_time w (curTime_ u) in
  updateState e u w permits.

(** [processHeartbeat]; the last component is the reply, [None] if the
    heartbeat is rejected. *)
Definition processHeartbeat (e : E) (u : RemoteWorkerUpdate) (w : RemoteWorker)
    (w_new : BistroWorker) (worker_set_id : WorkerSetID) (permits : bool)
    : outcome (E * RemoteWorkerUpdate * RemoteWorker * option SchedulerHeartbeatResponse) :=
  CHECK (checkWorkerSchedulerProtocolVersion (bw_protocolVersion w_new) kProtocolVersion)
    "Worker & scheduler protocol mismatch" ;;;
  let w_cur := worker_ w in
  let reply m :=
    let* (e, u, w) := m in Ret (e, u, w, Some (getHeartbeatResponse flags (rw_state w))) in
  if negb (bool_decide (bw_machineLock w_cur = bw_machineLock w_new)) then
    let st := (rw_computeState w (curTime_ u) permits).1 in
    if bool_decide (st = MUST_DIE) then
      reply (updateNewWorker e (requestSuicide u w_cur) w w_new worker_set_id)
    else if FLAGS_allow_bump_unhealthy_worker flags && negb (bool_decide (st = HEALTHY)) then
      reply (updateNewWorker e (requestSuicide u w_cur) w w_new worker_set_id)
    else Ret (e, requestSuicide u w_new, w, None)
  else if negb (bool_decide (bw_id w_cur = bw_id w_new)) then
    if startTime (bw_id w_new) <? startTime (bw_id w_cur) then Ret (e, u, w, None)
    else reply (updateNewWorker e u w w_new worker_set_id)
  else
    let u := if bool_decide (getState w = MUST_DIE) then requestSuicide u w_cur else u in
    reply (updateCurrentWorker e u w w_new worker_set_id permits).

End Operations.

(** ** Task bookkeeping *)

(** [recordRunningTaskStatus]. *)
Definition recordRunningTaskStatus (w : RemoteWorker) (rt : RunningTask) (status : TaskStatus)
    : outcome RemoteWorker :=
  CHECK (isRunning status) "CHECK(status.isRunning())" ;;;
  let k := task_id_of rt in
  CHECK (negb (bool_decide (is_Some (unsureIfRunningTasks_ w !! k)))) "unsure if running" ;;;
  CHECK (negb (bool_decide (is_Some (rw_runningTasks w !! k)))) "already running" ;;;
  Ret (set_tasks w (<[k := rt]> (rw_runningTasks w)) (unsureIfRunningTasks_ w)).

(** [recordNonRunningTaskStatusImpl]. *)
Definition recordNonRunningTaskStatusImpl (w : RemoteWorker) (rt : RunningTask)
    (status : TaskStatus) : RemoteWorker * bool :=
  let k := task_id_of rt in
  match rw_runningTasks w !! k with
  | Some cur =>
      if negb (bool_decide (rt_invocationID cur = rt_invocationID rt)) then (w, false)
      else (set_tasks w (delete k (rw_runningTasks w)) (delete k (unsureIfRunningTasks_ w)), true)
  | None =>
      if isOverwriteable status then (w, false)
      else (set_tasks w (rw_runningTasks w) (delete k (unsureIfRunningTasks_ w)), true)
  end.

(** [recordFailedTask]. *)
Definition recordFailedTask (w : RemoteWorker) (rt : RunningTask) (status : TaskStatus)
    : outcome RemoteWorker :=
  CHECK (negb (isRunning status) && negb (isDone status)) "status is running or done" ;;;
  let '(w, ok) := recordNonRunningTaskStatusImpl w rt status in
  CHECK ok "CHECK(recordNonRunningTaskStatusImpl(rt, status))" ;;;
  Ret w.

(** [recordNonRunningTaskStatus]. *)
Definition recordNonRunningTaskStatus (w : RemoteWorker) (rt : RunningTask)
    (status : TaskStatus) (worker_id : BistroInstanceID) : outcome (RemoteWorker * bool) :=
  CHECK (negb (isRunning status)) "CHECK(!status.isRunning())" ;;;
  if negb (bool_decide (worker_id = bw_id (worker_ w)))
  then Throw "Got status from an unexpected worker"
  else if bool_decide (rt_job rt = kHealthcheckTaskJob) then
    if isDone status
    then Ret (set_good_healthcheck w (Z.max (startTime (rt_invocationID rt))
                (timeLastGoodHealthcheckSent_ (rw_state w))), false)
    else Ret (w, false)
  else if bool_decide (getState w = NEW)
  then Throw "Rejecting updateStatus from a worker in NEW state"
  else Ret (recordNonRunningTaskStatusImpl w rt status).

(** [initializeRunningTasks]. *)
Definition initializeRunningTasks (w : RemoteWorker) (running_tasks : list RunningTask)
    : outcome RemoteWorker :=
  CHECK (bool_decide (getState w = NEW)) "CHECK(state_ == NEW)" ;;;
  CHECK (bool_decide (rw_runningTasks w = ∅)) "expected 0 running tasks" ;;;
  CHECK (bool_decide (unsureIfRunningTasks_ w = ∅)) "expected 0 unsure tasks" ;;;
  let* running :=
    foldM (fun m rt =>
      CHECK (bool_decide (rt_workerShard rt = shard_of w)) "Bad shard for new task" ;;;
      CHECK (negb (bool_decide (is_Some (m !! task_id_of rt)))) "Duplicate new task" ;;;
      Ret (<[task_id_of rt := rt]> m)) (rw_runningTasks w) running_tasks in
  Ret (setState (set_tasks w running (unsureIfRunningTasks_ w)) UNHEALTHY).

(** [addUnsureIfRunningTask]. *)
Definition addUnsureIfRunningTask (w : RemoteWorker) (rt : RunningTask) : outcome RemoteWorker :=
  CHECK (negb (bool_decide (is_Some (unsureIfRunningTasks_ w !! task_id_of rt))))
    "Was already unsure about running status of task" ;;;
  Ret (set_tasks w (rw_runningTasks w) (<[task_id_of rt := rt]> (unsureIfRunningTasks_ w))).

(** [eraseUnsureIfRunningTasks]. *)
Definition eraseUnsureIfRunningTasks (w : RemoteWorker) (tasks : list RunningTask)
    : outcome RemoteWorker :=
  let* unsure :=
    foldM (fun m rt =>
      CHECK (bool_decide (rt_workerShard rt = shard_of w)) "Bad shard" ;;;
      match m !! task_id_of rt with
      | None => Ret m
      | Some cur =>
          if negb (bool_decide (rt_invocationID cur = rt_invocationID rt)) then Ret m
          else Ret (delete (task_id_of rt) m)
      end) (unsureIfRunningTasks_ w) tasks in
  Ret (set_tasks w (rw_runningTasks w) unsure).

(** ** What a worker and its owner promise each other *)

(** Workers that agree on everything the owner tracks. *)
Definition same_ids (w w' : RemoteWorker) : Prop :=
  bw_id (worker_ w) = bw_id (worker_ w') /\ shard_of w = shard_of w' /\
  initialWorkerSetID_ w = initialWorkerSetID_ w' /\ workerSetID_ w = workerSetID_ w' /\
  firstAssociatedWorkerSetID_ w = firstAssociatedWorkerSetID_ w' /\
  indirectWorkerSetID_ w = indirectWorkerSetID_ w' /\ schedulerID_ w = schedulerID_ w'.

Lemma same_ids_refl w : same_ids w w.
Proof. by repeat split. Qed.
Lemma same_ids_trans w1 w2 w3 : same_ids w1 w2 -> same_ids w2 w3 -> same_ids w1 w3.
Proof.
  intros (?&?&?&?&?&?&?) (?&?&?&?&?&?&?). repeat split; etrans; eassumption.
Qed.

#[export] Hint Resolve same_ids_refl : bistro.

(** The owner's state [E] tracks a shard as alive with a given worker, or as
    dead.  [valid_id e id] says that [id] may have been handed out by this
    scheduler so far, [older e id] that it is not the current one, and
    [room e] bounds the worker set changes to come. *)
Class CobLaws (E : Type) `{WorkerCobs E} (sched : BistroInstanceID) (shard : string) := {
  live : E -> RemoteWorker -> Prop;
  dead : E -> Prop;
  valid_id : E -> WorkerSetID -> Prop;
  older : E -> WorkerSetID -> Prop;
  room : E -> Z;
  live_same e w w' : same_ids w w' -> live e w -> live e w';
  live_first e w : live e w -> (workerSetID_ w = None <-> firstAssociatedWorkerSetID_ w = None);
  live_current e w id : live e w -> workerSetID_ w = Some id -> valid_id e id;
  live_initial e w : live e w ->
    ws_schedulerID (initialWorkerSetID_ w) = sched -> valid_id e (initialWorkerSetID_ w);
  older_valid e i : older e i -> valid_id e i;
  valid_order e a b : valid_id e a -> valid_id e b ->
    WorkerSetIDEarlierThan (ws_version a) (ws_version b) = Ret (ws_version a <? ws_version b);
  new_law e t bw id :
    dead e -> 0 < room e -> bw_shard bw = shard ->
    (ws_schedulerID id = sched -> valid_id e id) ->
    exists e', newWorkerCob e (freshWorker t bw id sched) = Ret e' /\
      live e' (freshWorker t bw id sched) /\ room e - 1 <= room e' <= room e /\
      (forall i, valid_id e i -> valid_id e' i) /\ (forall i, older e i -> older e' i);
  dead_law e w :
    live e w -> 0 < room e -> shard_of w = shard ->
    exists e', deadWorkerCob e w = Ret e' /\ dead e' /\ room e - 1 <= room e' <= room e /\
      (forall i, valid_id e i -> valid_id e' i) /\ (forall i, older e i -> older e' i) /\
      (forall i, valid_id e i -> older e' i);
  change_law e w id :
    live e w -> shard_of w = shard -> schedulerID_ w = sched ->
    valid_id e id -> ws_schedulerID id = sched ->
    (forall cur, workerSetID_ w = Some cur -> ws_version cur < ws_version id) ->
    exists e' ind,
      workerSetIDChangeCob e w id
        = Ret (e', set_ids w (workerSetID_ w) (firstAssociatedWorkerSetID_ w) ind) /\
      live e' (set_ids w (Some id) (Some (default id (firstAssociatedWorkerSetID_ w))) ind) /\
      room e' = room e /\ (forall i, valid_id e i -> valid_id e' i) /\
      (forall i, older e i -> older e' i)
}.

(** ** Lemmas on the pieces of [updateState] *)

Lemma lose_tasks_list u l k :
  lostRunningTasks_ (foldl (fun u p => loseRunningTask u p.1 p.2) u l) !! k =
    match lostRunningTasks_ u !! k with
    | Some rt => Some rt
    | None => (list_to_map l : gmap (string * string) RunningTask) !! k
    end.
Proof.
  revert u; induction l as [|[k' rt] l IH]; intros u; simpl.
  - rewrite lookup_empty. by destruct (lostRunningTasks_ u !! k).
  - rewrite IH. simpl. rewrite emplace_lookup, lookup_insert.
    destruct (lostRunningTasks_ u !! k); [done|]. by case_decide.
Qed.

(** [loseRunningTasks] reports every running task as lost, unless the update
    had already lost it. *)
Lemma loseRunningTasks_lost u w k :
  lostRunningTasks_ (loseRunningTasks u w).1 !! k =
    match lostRunningTasks_ u !! k with
    | Some rt => Some rt
    | None => rw_runningTasks w !! k
    end.
Proof. unfold loseRunningTasks. cbn [fst]. by rewrite lose_tasks_list, list_to_map_to_list. Qed.

(** The rest of the update is left alone. *)
Definition same_requests (u u' : RemoteWorkerUpdate) : Prop :=
  curTime_ u = curTime_ u' /\ suicideWorkers_ u = suicideWorkers_ u' /\
  newWorkers_ u = newWorkers_ u'.

Lemma loseRunningTasks_requests u w : same_requests u (loseRunningTasks u w).1.
Proof.
  unfold loseRunningTasks. cbn [fst]. revert u.
  induction (map_to_list (rw_runningTasks w)) as [|p l IH]; intros u; [done|].
  simpl. destruct (IH (loseRunningTask u p.1 p.2)) as (?&?&?). done.
Qed.

Lemma send_checks_same flags u w :
  let '(u', w') := send_checks flags u w in
  same_requests u u' /\ lostRunningTasks_ u' = lostRunningTasks_ u /\
  same_ids w w' /\ worker_ w' = worker_ w /\ rw_state w' = rw_state w /\
  rw_runningTasks w' = rw_runningTasks w /\
  unsureIfRunningTasks_ w' = unsureIfRunningTasks_ w.
Proof.
  unfold send_checks. destruct (_ <=? curTime_ u); cbn;
    (case_bool_decide; [by repeat split|]); (destruct (_ <=? _); by repeat split).
Qed.

Section Coherence.
Context {E : Type} `{HC : WorkerCobs E} (flags : Flags).
Context (sched : BistroInstanceID) (shard : string) `{!CobLaws E sched shard}.

(** A worker that is new or lost has no tasks. *)
Definition tasks_ok (w : RemoteWorker) : Prop :=
  getState w = NEW \/ getState w = MUST_DIE ->
  rw_runningTasks w = ∅ /\ unsureIfRunningTasks_ w = ∅.

(** The worker sets a worker knows of have been superseded. *)
Definition ids_older (e : E) (w : RemoteWorker) : Prop :=
  (forall id, workerSetID_ w = Some id -> older e id) /\
  (ws_schedulerID (initialWorkerSetID_ w) = sched -> older e (initialWorkerSetID_ w)).

(** The owner's state agrees with the worker. *)
Definition coherent (e : E) (w : RemoteWorker) : Prop :=
  shard_of w = shard /\ schedulerID_ w = sched /\ tasks_ok w /\
  if decide (getState w = MUST_DIE)
  then dead e /\ ids_older e w else live e w.

(** Validity of IDs only grows, and at most [n] changes were made. *)
Definition grows (n : Z) (e e' : E) : Prop :=
  room e - n <= room e' <= room e /\ (forall i, valid_id e i -> valid_id e' i) /\
  (forall i, older e i -> older e' i).

Lemma grows_refl e : grows 0 e e.
Proof. split; [lia|done]. Qed.
Lemma grows_le n m e e' : n <= m -> grows n e e' -> grows m e e'.
Proof. intros Hn [H1 H2]. split; [lia|done]. Qed.
Lemma grows_trans n m e1 e2 e3 : grows n e1 e2 -> grows m e2 e3 -> grows (n + m) e1 e3.
Proof. intros (A1 & B1 & C1) (A2 & B2 & C2). split; [lia|split; auto]. Qed.

(** What a heartbeat carries is an ID this scheduler may have handed out (or
    another scheduler's), the same one as before if it has the same version,
    and a worker that was given up does not learn of new versions. *)
Definition echo_ok (e : E) (w : RemoteWorker) (id : WorkerSetID) : Prop :=
  ws_schedulerID id = sched ->
  valid_id e id /\
  (forall cur, workerSetID_ w = Some cur -> ws_version cur = ws_version id -> cur = id) /\
  (getState w = MUST_DIE -> exists cur, workerSetID_ w = Some cur /\
     ws_version id <= ws_version cur).

(** Entering MUST_DIE asks the worker to kill itself and loses its tasks. *)
Definition handed_over (u u' : RemoteWorkerUpdate) (w w' : RemoteWorker) : Prop :=
  getState w <> MUST_DIE -> getState w' = MUST_DIE ->
  is_Some (suicideWorkers_ u' !! shard_of w) /\
  forall k rt, rw_runningTasks w !! k = Some rt -> is_Some (lostRunningTasks_ u' !! k).

Lemma coherent_same e w w' :
  same_ids w w' -> getState w' = getState w -> rw_runningTasks w' = rw_runningTasks w ->
  unsureIfRunningTasks_ w' = unsureIfRunningTasks_ w -> coherent e w -> coherent e w'.
Proof.
  intros Hs Hg Hr Hn (Hsh & Hsc & Htk & Hco). pose proof Hs as (_ & E1 & _ & _ & _ & _ & E2).
  split_and!; [congruence|congruence| |].
  - unfold tasks_ok. by rewrite Hg, Hr, Hn.
  - rewrite Hg. case_decide; [|by eapply live_same]. destruct Hs as (_&_&Ei&Ec&_). unfold ids_older in *.
    by rewrite <- Ei, <- Ec.
Qed.

(** What [updateState] makes of the owner's state, the update and the worker. *)
Definition well_updated (e : E) (u : RemoteWorkerUpdate) (w : RemoteWorker)
    (e' : E) (u' : RemoteWorkerUpdate) (w' : RemoteWorker) : Prop :=
  coherent e' w' /\ grows 1 e e' /\ same_ids w w' /\ worker_ w' = worker_ w /\
  step_allowed (getState w) (getState w') /\ handed_over u u' w w' /\
  (forall k, is_Some (lostRunningTasks_ u !! k) -> is_Some (lostRunningTasks_ u' !! k)) /\
  curTime_ u' = curTime_ u.

(** The branch of [updateState] that gives a worker up. *)
Lemma lose_worker_updated e u w :
  coherent e w -> 0 < room e -> getState w <> MUST_DIE ->
  step_allowed (getState w) MUST_DIE ->
  exists e' u', (let* e' := deadWorkerCob e w in
                 Ret (e', (loseRunningTasks (requestSuicide u (worker_ w)) w).1,
                      setState (set_tasks w ∅ ∅) MUST_DIE))
                = Ret (e', u', setState (set_tasks w ∅ ∅) MUST_DIE) /\
    well_updated e u w e' u' (setState (set_tasks w ∅ ∅) MUST_DIE).
Proof.
  intros (Hsh & Hsc & Htk & Hco) Hroom Hd Hstep. rewrite decide_False in Hco by done.
  destruct (dead_law e w) as (e' & -> & Hdead & Hgrow1 & Hgrow2 & Hgrow3 & Hold); [done..|].
  cbn [mbind outcome_bind]. eexists _, _. split; [reflexivity|].
  pose proof (loseRunningTasks_lost (requestSuicide u (worker_ w)) w) as Hl.
  pose proof (loseRunningTasks_requests (requestSuicide u (worker_ w)) w) as (Hr & Hsu & _).
  set (u' := (loseRunningTasks _ w).1) in *. clearbody u'.
  unfold well_updated, coherent. change (getState (setState _ MUST_DIE)) with MUST_DIE.
  rewrite decide_True by done. split_and!; auto.
  - by intros ?.
  - split; cbn; [intros id Hid; by apply Hold, (live_current e w)|].
    intros Hs. by apply Hold, live_initial.
  - split; [lia|by split].
  - by repeat split.
  - intros _ _. split; [rewrite <- Hsu; apply emplace_is_Some|].
    intros k rt Hk. rewrite Hl, Hk. case_match; by eexists.
  - intros k [x Hk]. rewrite Hl. cbn. rewrite Hk. eauto.
Qed.

(** The branch that keeps the worker. *)
Lemma keep_worker_updated e u w ns u' w' :
  coherent e w -> getState w <> MUST_DIE -> ns <> MUST_DIE -> step_allowed (getState w) ns ->
  send_checks flags u (setState w ns) = (u', w') -> well_updated e u w e u' w'.
Proof.
  intros (Hsh & Hsc & Htk & Hco) Hd Hns Hstep Esend. rewrite decide_False in Hco by done.
  pose proof (send_checks_same flags u (setState w ns)) as Hsend. rewrite Esend in Hsend.
  destruct Hsend as ((Ht & _) & Hl & Hs & Hb & Hst & Hr & Hn).
  assert (Hg : getState w' = ns) by (unfold getState; by rewrite Hst).
  assert (Hsw : same_ids w w') by (eapply same_ids_trans; [|exact Hs]; by repeat split).
  pose proof Hsw as (_ & E1 & _ & _ & _ & _ & E2).
  unfold well_updated, coherent. rewrite Hg, decide_False by done. split_and!; auto; try congruence.
  - unfold tasks_ok. rewrite Hg, Hr, Hn. intros [-> | ->]; [|done].
    apply Htk. left. by inversion Hstep.
  - by eapply live_same.
  - eapply grows_le, grows_refl. lia.
Qed.

Lemma well_updated_pre e u w u1 w1 e' u' w' :
  same_ids w w1 -> worker_ w1 = worker_ w -> getState w1 = getState w ->
  rw_runningTasks w1 = rw_runningTasks w ->
  curTime_ u1 = curTime_ u -> lostRunningTasks_ u1 = lostRunningTasks_ u ->
  well_updated e u1 w1 e' u' w' -> well_updated e u w e' u' w'.
Proof.
  intros Hs Hb Hg Hr Ht Hl (H1 & H2 & H3 & H4 & H5 & H6 & H7 & H8).
  assert (Hsh : shard_of w1 = shard_of w) by (unfold shard_of; congruence).
  unfold well_updated, handed_over in *. rewrite Hg, Hr, Hsh in *. rewrite Hl in H7.
  split_and!; auto; [by eapply same_ids_trans|congruence..].
Qed.

Lemma updateState_coherent e u w permits :
  coherent e w -> 0 < room e ->
  exists e' u' w', updateState flags e u w permits = Ret (e', u', w') /\
    well_updated e u w e' u' w'.
Proof.
  intros Hco Hroom. unfold updateState. case_bool_decide as Hd.
  { eexists _, _, _. split; [reflexivity|]. unfold well_updated. rewrite Hd.
    split_and!; auto with bistro; [|done]. eapply grows_le, grows_refl. lia. }
  pose proof (computeState_step (rw_state w) (curTime_ u) (maxHealthcheckGap flags)
    (bw_heartbeatPeriodSec (worker_ w) + heartbeatGracePeriod flags)
    (loseUnhealthyWorkerAfter flags) permits) as Hstep.
  change (computeState _ _ _ _ _ _) with (rw_computeState flags w (curTime_ u) permits) in Hstep.
  set (ns := (rw_computeState flags w (curTime_ u) permits).1) in *. clearbody ns.
  set (u1 := if bool_decide (ns = NEW) then _ else _).
  assert (Hu1 : curTime_ u1 = curTime_ u /\ lostRunningTasks_ u1 = lostRunningTasks_ u)
    by (unfold u1; by case_bool_decide).
  set (w1 := if _ && _ then _ else w).
  assert (Hw1 : same_ids w w1 /\ worker_ w1 = worker_ w /\ getState w1 = getState w /\
    rw_runningTasks w1 = rw_runningTasks w /\ unsureIfRunningTasks_ w1 = unsureIfRunningTasks_ w)
    by (unfold w1; destruct (_ && _); by repeat split).
  clearbody u1 w1. destruct Hu1 as [Ht1 Hl1], Hw1 as (Hs1 & Hb1 & Hg1 & Hr1 & Hn1).
  assert (Hco1 : coherent e w1) by (by apply (coherent_same e w)).
  fold (getState w) in Hstep. rewrite <- Hg1 in Hd, Hstep. case_bool_decide as Hns.
  - subst ns. destruct (lose_worker_updated e u1 w1) as (e' & u' & Heq & Hup); [done..|].
    eexists e', u', _. split; [exact Heq|]. by eapply well_updated_pre.
  - destruct (send_checks flags u1 (setState w1 ns)) as [u2 w2] eqn:Es.
    eexists _, _, _. split; [reflexivity|].
    eapply well_updated_pre, keep_worker_updated; eauto.
Qed.

(** The version a worker is known to hold does not go back. *)
Definition version_advances (w w' : RemoteWorker) : Prop :=
  forall cur, workerSetID_ w = Some cur ->
    exists cur', workerSetID_ w' = Some cur' /\
      (cur' = cur \/ ws_version cur < ws_version cur').

Lemma version_advances_same w w' : workerSetID_ w = workerSetID_ w' -> version_advances w w'.
Proof. intros E1 cur Hc. exists cur. rewrite <- E1. auto. Qed.

(** The comparisons of [echoWorkerSetID] with valid IDs answer. *)
Lemma stale_initial_ret e w id :
  valid_id e id -> ws_schedulerID id = sched ->
  (ws_schedulerID (initialWorkerSetID_ w) = sched -> valid_id e (initialWorkerSetID_ w)) ->
  exists b,
    (if bool_decide (ws_schedulerID id = ws_schedulerID (initialWorkerSetID_ w))
     then let* earlier := WorkerSetIDEarlierThan (ws_version (initialWorkerSetID_ w))
                                                 (ws_version id) in Ret (negb earlier)
     else Ret false) = Ret b /\ (b = false -> initialWorkerSetID_ w <> id).
Proof.
  intros Hv Hs Hi. case_bool_decide as Hb.
  - rewrite (valid_order e) by (auto; apply Hi; congruence). eexists. split; [reflexivity|].
    intros Hf Heq. rewrite Heq, Z.ltb_irrefl in Hf. discriminate.
  - exists false. split; [done|]. intros _ <-. congruence.
Qed.

(** The IDs a coherent worker knows are valid. *)
Lemma coherent_initial e w :
  coherent e w -> ws_schedulerID (initialWorkerSetID_ w) = sched -> valid_id e (initialWorkerSetID_ w).
Proof.
  intros (_ & _ & _ & Hst). case_decide; [|by apply live_initial].
  destruct Hst as (_ & _ & Ho). intros. by apply older_valid, Ho.
Qed.

Lemma coherent_current e w cur :
  coherent e w -> workerSetID_ w = Some cur -> valid_id e cur.
Proof.
  intros (_ & _ & _ & Hst). case_decide; [|intros; by eapply live_current].
  destruct Hst as (_ & Ho & _). intros. by apply older_valid, Ho.
Qed.

(** The version of a live worker moves on. *)
Lemma associate_coherent e w id :
  coherent e w -> getState w <> MUST_DIE -> valid_id e id -> ws_schedulerID id = sched ->
  initialWorkerSetID_ w <> id ->
  (forall cur, workerSetID_ w = Some cur -> ws_version cur < ws_version id) ->
  exists e' ind,
    (let* (e, w) := workerSetIDChangeCob e w id in
     let* first :=
       match firstAssociatedWorkerSetID_ w with
       | None => CHECK (negb (bool_decide (is_Some (workerSetID_ w)))) "CHECK(!workerSetID_)" ;;;
           CHECK (negb (bool_decide (initialWorkerSetID_ w = id)))
             "CHECK(initialWorkerSetID_ != worker_set_id)" ;;; Ret (Some id)
       | Some first => Ret (Some first)
       end in
     Ret (e, set_ids w (Some id) first (indirectWorkerSetID_ w)))
    = Ret (e', set_ids w (Some id) (Some (default id (firstAssociatedWorkerSetID_ w))) ind) /\
    coherent e' (set_ids w (Some id) (Some (default id (firstAssociatedWorkerSetID_ w))) ind) /\
    grows 0 e e'.
Proof.
  intros (Hsh & Hsc & Htk & Hst) Hnd Hv Hs Hi Hlt. rewrite decide_False in Hst by done.
  destruct (change_law e w id) as (e' & ind & -> & Hl' & Hg); auto.
  cbn [mbind outcome_bind set_ids firstAssociatedWorkerSetID_ workerSetID_ initialWorkerSetID_].
  exists e', ind. split_and!; [|split_and!; auto|destruct Hg as (?&?&?); split; [lia|by split]].
  - destruct (firstAssociatedWorkerSetID_ w) eqn:Ef; [done|].
    apply (live_first e w Hst) in Ef. rewrite Ef.
    rewrite (bool_decide_false (_ = _)) by done. done.
  - change (getState (set_ids _ _ _ _)) with (getState w). by rewrite decide_False by done.
Qed.

Lemma echo_coherent e w id :
  coherent e w -> echo_ok e w id ->
  exists e' w', echoWorkerSetID e w id = Ret (e', w') /\
    coherent e' w' /\ grows 0 e e' /\ version_advances w w' /\
    worker_ w' = worker_ w /\ rw_state w' = rw_state w /\
    rw_runningTasks w' = rw_runningTasks w.
Proof.
  intros Hco Hecho. pose proof Hco as (_ & Hsc & _ & _). unfold echoWorkerSetID.
  assert (Hsame : exists e' w', Ret (e, w) = Ret (e', w') /\ coherent e' w' /\ grows 0 e e' /\
    version_advances w w' /\ worker_ w' = worker_ w /\ rw_state w' = rw_state w /\
    rw_runningTasks w' = rw_runningTasks w).
  { exists e, w. split_and!; try done; [apply grows_refl|by apply version_advances_same]. }
  rewrite Hsc. case_bool_decide as Hs; [|exact Hsame].
  destruct (Hecho Hs) as (Hv & Heq & Hdead).
  destruct (stale_initial_ret e w id Hv Hs (coherent_initial e w Hco)) as (b & -> & Hb).
  cbn [mbind outcome_bind]. destruct b; [exact Hsame|]. specialize (Hb eq_refl).
  assert (Hlater : match workerSetID_ w with
    | None => Ret true
    | Some cur => WorkerSetIDEarlierThan (ws_version cur) (ws_version id) end
    = Ret match workerSetID_ w with None => true | Some cur => ws_version cur <? ws_version id end).
  { destruct (workerSetID_ w) as [cur|] eqn:Ec; [|done].
    apply (valid_order e); auto. by eapply coherent_current. }
  rewrite Hlater. cbn [mbind outcome_bind].
  destruct (match workerSetID_ w with None => true | Some _ => _ end) eqn:Eb.
  - assert (Hlt : forall cur, workerSetID_ w = Some cur -> ws_version cur < ws_version id)
      by (intros cur Hc; rewrite Hc in Eb; lia).
    destruct (associate_coherent e w id) as (e' & ind & -> & Hco' & Hg); auto.
    { intros Hd. destruct (Hdead Hd) as (c & Hc & Hle). specialize (Hlt c Hc). lia. }
    eexists _, _. split; [reflexivity|]. split_and!; auto.
    intros cur Hc. exists id. auto.
  - destruct (workerSetID_ w) as [cur|] eqn:Ec; [|done].
    destruct (Z.eqb_spec (ws_version cur) (ws_version id)) as [Ev|]; [|exact Hsame].
    rewrite (bool_decide_true (cur = id)) by auto. exact Hsame.
Qed.

(** Every running task of the worker is reported as lost. *)
Definition all_lost (u' : RemoteWorkerUpdate) (w : RemoteWorker) : Prop :=
  forall k rt, rw_runningTasks w !! k = Some rt -> is_Some (lostRunningTasks_ u' !! k).

Lemma updateCurrent_coherent e u w w_new id permits :
  coherent e w -> echo_ok e w id -> bw_shard w_new = shard -> bw_id w_new = bw_id (worker_ w) ->
  0 < room e ->
  exists e' u' w', updateCurrentWorker flags e u w w_new id permits = Ret (e', u', w') /\
    coherent e' w' /\ grows 1 e e' /\ version_advances w w' /\ worker_ w' = w_new /\
    step_allowed (getState w) (getState w') /\
    (getState w <> MUST_DIE -> getState w' = MUST_DIE -> all_lost u' w).
Proof.
  intros Hco Hecho Hshard Hid Hroom. unfold updateCurrentWorker.
  assert (Hco1 : coherent e (set_worker w w_new)).
  { apply (coherent_same e w); try done. repeat split; try done. destruct Hco as (Hsh & _).
    unfold shard_of in *. cbn. congruence. }
  destruct (echo_coherent e (set_worker w w_new) id Hco1 Hecho)
    as (e1 & w1 & -> & Hco2 & Hg1 & Hv & Hw1 & Hst1 & Hr1). cbn [mbind outcome_bind].
  assert (Hco3 : coherent e1 (set_heartbeat_time w1 (curTime_ u))).
  { by apply (coherent_same e1 w1). }
  destruct (updateState_coherent e1 u _ permits Hco3 ltac:(destruct Hg1; lia))
    as (e2 & u2 & w2 & -> & Hco4 & Hg2 & Hs2 & Hw2 & Hstep & Hlost & _ & _).
  assert (Hgs : getState (set_heartbeat_time w1 (curTime_ u)) = getState w)
    by (unfold getState; cbn; by rewrite Hst1).
  exists e2, u2, w2. rewrite <- Hgs. split_and!; auto.
  - by eapply (grows_trans 0 1).
  - intros cur Hc. destruct (Hv cur Hc) as (cur' & Hc' & Hor). exists cur'.
    destruct Hs2 as (_&_&_&Hcur&_). rewrite <- Hcur. done.
  - rewrite Hw2. exact Hw1.
  - intros H1 H2 k rt Hk. apply (proj2 (Hlost H1 H2) k rt). cbn. rewrite Hr1. exact Hk.
Qed.

(** [updateState] keeps a worker that just connected NEW. *)
Lemma updateState_fresh e u t bw id permits e' u' w' :
  curTime_ u = t ->
  updateState flags e u (set_heartbeat_time (freshWorker t bw id sched) t) permits
    = Ret (e', u', w') -> getState w' = NEW.
Proof.
  intros <-. unfold updateState. rewrite bool_decide_false by done.
  assert ((rw_computeState flags (set_heartbeat_time (freshWorker (curTime_ u) bw id sched)
            (curTime_ u)) (curTime_ u) permits).1 = NEW) as ->.
  { unfold rw_computeState. rewrite computeState_eq. cbn -[maxHealthcheckGap].
    assert (overdue _ (curTime_ u) (loseUnhealthyWorkerAfter flags) = false) as ->; [|done].
    unfold overdue, loseUnhealthyWorkerAfter. cbn. lia. }
  rewrite !bool_decide_false by done. rewrite (bool_decide_true (NEW = NEW)) by done.
  cbn [negb andb].
  match goal with |- context [send_checks flags ?v ?x] =>
    pose proof (send_checks_same flags v x) as Hs; destruct (send_checks flags v x) as [u2 w2] end.
  destruct Hs as (_ & _ & _ & _ & Hst & _). intros [= <- <- <-]. unfold getState. by rewrite Hst.
Qed.

Lemma updateNew_coherent e u w w_new id :
  coherent e w -> (ws_schedulerID id = sched -> valid_id e id) -> bw_shard w_new = shard ->
  3 <= room e ->
  exists e' u' w', updateNewWorker flags e u w w_new id = Ret (e', u', w') /\
    coherent e' w' /\ grows 3 e e' /\ worker_ w' = w_new /\ getState w' = NEW /\ all_lost u' w.
Proof.
  intros (Hsh & Hsc & Htk & Hco) Hid Hshard Hroom. unfold updateNewWorker.
  assert (Hd : exists e1, (if negb (bool_decide (getState w = MUST_DIE))
      then deadWorkerCob e w else Ret e) = Ret e1 /\ dead e1 /\ grows 1 e e1).
  { case_bool_decide as Hm; [rewrite decide_True in Hco by done; exists e; split_and!;
      [done|by destruct Hco|eapply grows_le, grows_refl; lia]|].
    rewrite decide_False in Hco by done.
    destruct (dead_law e w) as (e1 & ? & ? & ? & ? & ? & ?); [done|lia|done|].
    exists e1. split_and!; (done || lia). }
  destruct Hd as (e1 & -> & Hdead & Hg1). cbn [mbind outcome_bind].
  pose proof (loseRunningTasks_lost u w) as Hl.
  pose proof (loseRunningTasks_requests u w) as (Ht & _).
  destruct (loseRunningTasks u w) as [u1 w1] eqn:El. injection El as _ <-. cbn [fst] in *.
  unfold makeWorker. change (schedulerID_ (set_tasks w ∅ ∅)) with (schedulerID_ w). rewrite Hsc.
  destruct (new_law e1 (curTime_ u1) w_new id Hdead) as (e2 & -> & Hlive & Hg2);
    [destruct Hg1; lia|done|intros Hs; apply Hg1; auto|]. cbn [mbind outcome_bind].
  set (w2 := set_heartbeat_time _ _).
  assert (Hco2 : coherent e2 w2).
  { split_and!; try done. cbn. apply (live_same _ (freshWorker (curTime_ u1) w_new id sched));
      [by repeat split|done]. }
  destruct (updateState_coherent e2 u1 w2 false Hco2 ltac:(destruct Hg1, Hg2; lia))
    as (e3 & u3 & w3 & Eu & Hco3 & Hg3 & _ & Hw3 & _ & _ & Hl3 & _).
  exists e3, u3, w3. split_and!; auto.
  - apply (grows_trans 1 2 _ e1), (grows_trans 1 1 _ e2); done.
  - by apply updateState_fresh in Eu.
  - intros k rt Hk. apply Hl3. rewrite Hl, Hk. destruct (lostRunningTasks_ u !! k); by eexists.
Qed.

(** The heartbeats that are turned away: a process on another machine or port
    while the current worker is still good, and a message of an older
    instance on the same machine and port. *)
Definition rejected (u : RemoteWorkerUpdate) (w : RemoteWorker) (w_new : BistroWorker)
    (permits : bool) : bool :=
  if bool_decide (bw_machineLock (worker_ w) = bw_machineLock w_new)
  then negb (bool_decide (bw_id (worker_ w) = bw_id w_new))
       && (startTime (bw_id w_new) <? startTime (bw_id (worker_ w)))
  else let st := (rw_computeState flags w (curTime_ u) permits).1 in
       negb (bool_decide (st = MUST_DIE))
       && (negb (FLAGS_allow_bump_unhealthy_worker flags) || bool_decide (st = HEALTHY)).

(** Is it a heartbeat of the instance the scheduler already knows? *)
Definition same_instance (w : RemoteWorker) (w_new : BistroWorker) : bool :=
  bool_decide (bw_machineLock (worker_ w) = bw_machineLock w_new)
  && bool_decide (bw_id (worker_ w) = bw_id w_new).

Lemma processHeartbeat_cases e u w w_new id permits :
  bw_protocolVersion w_new = kProtocolVersion ->
  exists u1,
    processHeartbeat flags e u w w_new id permits =
      (if rejected u w w_new permits then Ret (e, u1, w, None)
       else
         let* (e, u, w) :=
           (if same_instance w w_new then updateCurrentWorker flags e u1 w w_new id permits
            else updateNewWorker flags e u1 w w_new id) in
         Ret (e, u, w, Some (getHeartbeatResponse flags (rw_state w)))) /\
    lostRunningTasks_ u1 = lostRunningTasks_ u /\ curTime_ u1 = curTime_ u.
Proof.
  intros Hp. unfold processHeartbeat, rejected, same_instance. rewrite Hp. cbn [mbind outcome_bind].
  rewrite CHECK_true by done. cbn [mbind outcome_bind].
  case_bool_decide as Hm; cbn [negb andb].
  - case_bool_decide as Hi; cbn [negb andb].
    + destruct (bool_decide (getState w = MUST_DIE)); eexists; split_and!; reflexivity.
    + exists u. split_and!; [|done|done]. by destruct (_ <? _).
  - case_bool_decide as H1; cbn [negb andb]; [eexists; split_and!; reflexivity|].
    destruct (FLAGS_allow_bump_unhealthy_worker flags); cbn [negb andb orb];
      [case_bool_decide; cbn [negb andb orb]|]; eexists; split_and!; reflexivity.
Qed.

Lemma processHeartbeat_ok e u w w_new id permits :
  coherent e w -> echo_ok e w id -> bw_shard w_new = shard ->
  bw_protocolVersion w_new = kProtocolVersion -> 3 <= room e ->
  exists e' u' w' r,
    processHeartbeat flags e u w w_new id permits = Ret (e', u', w', r) /\
    coherent e' w' /\ grows 3 e e' /\
    if rejected u w w_new permits then r = None /\ w' = w /\ e' = e
    else
      worker_ w' = w_new /\ hr_workerState <$> r = Some (State_to_int (getState w')) /\
      if same_instance w w_new
      then step_allowed (getState w) (getState w') /\ version_advances w w' /\
           (getState w <> MUST_DIE -> getState w' = MUST_DIE -> all_lost u' w)
      else getState w' = NEW /\ all_lost u' w.
Proof.
  intros Hco Hecho Hsh Hp Hroom.
  destruct (processHeartbeat_cases e u w w_new id permits Hp) as (u1 & -> & Hl & Ht).
  destruct (rejected u w w_new permits).
  { exists e, u1, w, None. split_and!; try done. eapply grows_le, grows_refl. lia. }
  destruct (same_instance w w_new) eqn:Hi; cbn [mbind outcome_bind].
  - unfold same_instance in Hi. bprop.
    destruct (updateCurrent_coherent e u1 w w_new id permits)
      as (e' & u' & w' & -> & ? & ? & ? & ? & ? & ?); auto; [lia|].
    eexists _, _, _, _. split; [reflexivity|]. split_and!; try done. eapply grows_le; [|done]. lia.
  - destruct (updateNew_coherent e u1 w w_new id Hco)
      as (e' & u' & w' & -> & ? & ? & ? & ? & ?); auto.
    { intros Hs. by destruct (Hecho Hs). }
    eexists _, _, _, _. split; [reflexivity|]. by split_and!.
Qed.

(** C11: A heartbeat with a compatible protocol never stops the scheduler
    when the worker echoes IDs it was given: the owner's records keep
    agreeing with the worker.  A rejected heartbeat changes nothing; an
    accepted one makes the sender the current worker and is answered with its
    state.  For the known instance the state follows the diagram and the
    echoed version never goes back; another instance starts out NEW.  Whenever
    the old instance is replaced or given up, all its tasks are reported
    lost. *)
Theorem heartbeat_protocol e u w w_new id permits :
  coherent e w -> echo_ok e w id -> bw_shard w_new = shard ->
  bw_protocolVersion w_new = kProtocolVersion -> 3 <= room e ->
  exists e' u' w' r,
    processHeartbeat flags e u w w_new id permits = Ret (e', u', w', r) /\
    coherent e' w' /\ grows 3 e e' /\
    if rejected u w w_new permits then r = None /\ w' = w /\ e' = e
    else
      worker_ w' = w_new /\ hr_workerState <$> r = Some (State_to_int (getState w')) /\
      if same_instance w w_new
      then step_allowed (getState w) (getState w') /\ version_advances w w' /\
           (getState w <> MUST_DIE -> getState w' = MUST_DIE -> all_lost u' w)
      else getState w' = NEW /\ all_lost u' w.
Proof. apply processHeartbeat_ok. Qed.

End Coherence.

(** ** The default callbacks *)

(** [NoOpWorkerCob], [NoOpWorkerSetIDChangeCob]. *)
#[global] Instance NoOpCobs : WorkerCobs unit := {
  newWorkerCob e _ := Ret e;
  deadWorkerCob e _ := Ret e;
  workerSetIDChangeCob e w _ := Ret (e, w)
}.

(** Versions that compare as integers: the first 2^62 of a scheduler. *)
Definition small_version (id : WorkerSetID) : Prop := 0 <= ws_version id < 2 ^ 62.

Lemma small_version_order a b :
  small_version a -> small_version b ->
  WorkerSetIDEarlierThan (ws_version a) (ws_version b) = Ret (ws_version a <? ws_version b).
Proof.
  unfold small_version. intros Ha Hb.
  rewrite <- (s64_id (ws_version a)), <- (s64_id (ws_version b)) at 1 by (unfold is_s64; lia).
  apply earlier_window. lia.
Qed.

Definition noop_live (sched : BistroInstanceID) (w : RemoteWorker) : Prop :=
  (workerSetID_ w = None <-> firstAssociatedWorkerSetID_ w = None) /\
  (forall id, workerSetID_ w = Some id -> small_version id) /\
  (ws_schedulerID (initialWorkerSetID_ w) = sched -> small_version (initialWorkerSetID_ w)).

#[global] Program Instance NoOpLaws sched shard : CobLaws unit sched shard := {
  live _ w := noop_live sched w;
  dead _ := True;
  valid_id _ id := small_version id;
  older _ id := small_version id;
  room _ := 2 ^ 62
}.
Next Obligation.
  intros sched shard e w w' (_&_&E1&E2&E3&_) H. unfold noop_live in *. by rewrite <- E1, <- E2, <- E3.
Qed.
Next Obligation. by intros sched shard e w (H & _). Qed.
Next Obligation. intros sched shard e w id (_ & H & _). apply H. Qed.
Next Obligation. intros sched shard e w (_ & _ & H). exact H. Qed.
Next Obligation. done. Qed.
Next Obligation. intros. by apply small_version_order. Qed.
Next Obligation. intros sched shard e t bw id _ _ _ Hid. exists e. by split_and!. Qed.
Next Obligation. intros sched shard e w _ _ _. exists e. by split_and!. Qed.
Next Obligation.
  intros sched shard e w id (_ & H2 & H3) _ _ Hv _ _. exists e, (indirectWorkerSetID_ w).
  split_and!; [by destruct w| |done|done|done]. split_and!; [done| |exact H3]. by intros i [= <-].
Qed.

Definition sample_bw (lock_port start : Z) : BistroWorker :=
  mkBistroWorker "shard" (mkMachinePortLock "host" lock_port) (mkServiceAddress "host" 1)
    (mkInstanceID start 7) 15 kProtocolVersion noUsableResources.
Definition sample_set (scheduler version : Z) : WorkerSetID :=
  mkWorkerSetID (mkInstanceID scheduler 1) version emptyWorkerSetHash.
Definition sample_worker : RemoteWorker :=
  freshWorker 100 (sample_bw 1 50) (sample_set 3 9) (mkInstanceID 4 1).

(** A second process on the same machine and port takes over. *)
Lemma heartbeat_protocol_witness :
  exists e' u' w' r,
    processHeartbeat defaultFlags tt (newUpdate 110) sample_worker (sample_bw 1 60)
      (sample_set 4 2) false = Ret (e', u', w', r) /\
    worker_ w' = sample_bw 1 60 /\ getState w' = NEW.
Proof.
  assert (Hco : coherent (E := unit) (mkInstanceID 4 1) "shard" tt sample_worker) by
    (split_and!; done).
  assert (Hecho : echo_ok (E := unit) (mkInstanceID 4 1) "shard" tt sample_worker (sample_set 4 2)).
  { intros _. split_and!; [split; cbn; lia|done|done]. }
  destruct (heartbeat_protocol defaultFlags (mkInstanceID 4 1) "shard" tt (newUpdate 110)
    sample_worker (sample_bw 1 60) (sample_set 4 2) false Hco Hecho eq_refl eq_refl ltac:(by vm_compute))
    as (e' & u' & w' & r & H1 & _ & _ & H2 & _ & H3 & _).
  exists e', u', w', r. split_and!; [exact H1|exact H2|exact H3].
Defined.

(** ** Task bookkeeping *)

(** Nothing but the bookkeeping of one task changes. *)
Definition only_task (k : string * string) (w w' : RemoteWorker) : Prop :=
  same_ids w w' /\ rw_state w' = rw_state w /\
  (forall k', k' <> k -> rw_runningTasks w' !! k' = rw_runningTasks w !! k' /\
                         unsureIfRunningTasks_ w' !! k' = unsureIfRunningTasks_ w !! k').

Lemma record_impl_spec w rt status :
  let '(w', ok) := recordNonRunningTaskStatusImpl w rt status in
  if ok
  then only_task (task_id_of rt) w w' /\ rw_runningTasks w' !! task_id_of rt = None /\
       unsureIfRunningTasks_ w' !! task_id_of rt = None /\
       (forall cur, rw_runningTasks w !! task_id_of rt = Some cur ->
          rt_invocationID cur = rt_invocationID rt)
  else w' = w /\
       match rw_runningTasks w !! task_id_of rt with
       | Some cur => rt_invocationID cur <> rt_invocationID rt
       | None => isOverwriteable status = true
       end.
Proof.
  unfold recordNonRunningTaskStatusImpl.
  destruct (rw_runningTasks w !! task_id_of rt) as [cur|] eqn:Ek.
  - case_bool_decide as Hi; cbn [negb]; [|done]. split_and!; cbn; rewrite ?lookup_delete_eq; try done.
    + split_and!; [done|done|]. intros k' Hk. cbn. by rewrite !lookup_delete_ne.
    + by intros cur' [= <-].
  - destruct (isOverwriteable status) eqn:Eo; [done|]. split_and!; cbn; rewrite ?lookup_delete_eq; try done.
    split_and!; [done|done|]. intros k' Hk. cbn. by rewrite !lookup_delete_ne.
Qed.

(** For a "not running" status, [recordNonRunningTaskStatus] never
    stops the scheduler.  It throws exactly if the status comes from another
    worker instance, or is not a healthcheck reply and the worker is NEW.  It
    returns true only after the task is in neither of the worker's task
    lists, leaving the other tasks alone, and never for a running task of
    another invocation; when it returns false the task lists are unchanged
    and only a healthcheck reply can have changed the worker, by moving the
    time of the last good healthcheck forward. *)
Theorem recordNonRunning_contract w rt status worker_id :
  isRunning status = false ->
  match recordNonRunningTaskStatus w rt status worker_id with
  | Ret (w', true) =>
      rt_job rt <> kHealthcheckTaskJob /\ only_task (task_id_of rt) w w' /\
      rw_runningTasks w' !! task_id_of rt = None /\
      unsureIfRunningTasks_ w' !! task_id_of rt = None /\
      (forall cur, rw_runningTasks w !! task_id_of rt = Some cur ->
         rt_invocationID cur = rt_invocationID rt)
  | Ret (w', false) =>
      rw_runningTasks w' = rw_runningTasks w /\
      unsureIfRunningTasks_ w' = unsureIfRunningTasks_ w /\ same_ids w w' /\
      getState w' = getState w /\
      timeLastGoodHealthcheckSent_ (rw_state w) <= timeLastGoodHealthcheckSent_ (rw_state w') /\
      (w' <> w -> rt_job rt = kHealthcheckTaskJob /\ isDone status = true)
  | Throw _ =>
      worker_id <> bw_id (worker_ w) \/
      (rt_job rt <> kHealthcheckTaskJob /\ getState w = NEW)
  | _ => False
  end.
Proof.
  intros Hr. unfold recordNonRunningTaskStatus. rewrite Hr. cbn [negb CHECK mbind outcome_bind].
  case_bool_decide as Hid; cbn [negb]; [|by left].
  case_bool_decide as Hh.
  - destruct (isDone status) eqn:Hd; [|by split_and!].
    split_and!; try done. cbn. lia.
  - case_bool_decide as Hn; [by right|].
    pose proof (record_impl_spec w rt status) as Hs.
    destruct (recordNonRunningTaskStatusImpl w rt status) as [w' [|]].
    + destruct Hs as (? & ? & ? & ?). by split_and!.
    + destruct Hs as [-> _]. by split_and!.
Qed.

Definition sample_rt (job : string) (invocation : Z) : RunningTask :=
  mkRunningTask job "node" [] "shard" (mkInstanceID 100 invocation)
    (mkBackoffDuration false 60) 0.

Lemma recordNonRunning_contract_witness :
  isRunning (failed 200) = false /\
  exists msg, recordNonRunningTaskStatus sample_worker (sample_rt "job" 1) (failed 200)
    (mkInstanceID 50 7) = Throw msg /\ getState sample_worker = NEW.
Proof.
  pose proof (recordNonRunning_contract sample_worker (sample_rt "job" 1) (failed 200)
    (mkInstanceID 50 7) eq_refl) as H.
  destruct (recordNonRunningTaskStatus sample_worker (sample_rt "job" 1) (failed 200)
    (mkInstanceID 50 7)) as [[w []]|m|m|m] eqn:E; try discriminate E.
  split; [reflexivity|]. exists m. split; [reflexivity|]. by destruct H as [H|[_ H]].
Defined.

(** The running tasks a new worker reports are accepted if they carry its
    shard and are distinct. *)
Definition reports_ok (w : RemoteWorker) (l : list RunningTask) : Prop :=
  Forall (fun rt => rt_workerShard rt = shard_of w) l /\ NoDup (map task_id_of l).

(** The tasks as a map. *)
Definition task_map (l : list RunningTask) : gmap (string * string) RunningTask :=
  list_to_map (map (fun rt => (task_id_of rt, rt)) l).

Lemma register_tasks shard l (m : gmap (string * string) RunningTask) :
  Forall (fun rt => rt_workerShard rt = shard) l -> NoDup (map task_id_of l) ->
  (forall rt, rt ∈ l -> m !! task_id_of rt = None) ->
  foldM (fun m rt =>
      CHECK (bool_decide (rt_workerShard rt = shard)) "Bad shard for new task" ;;;
      CHECK (negb (bool_decide (is_Some (m !! task_id_of rt)))) "Duplicate new task" ;;;
      Ret (<[task_id_of rt := rt]> m)) m l = Ret (task_map l ∪ m).
Proof.
  revert m; induction l as [|rt l IH]; intros m Hs Hd Hm; unfold task_map; simpl.
  - by rewrite (left_id_L ∅ (∪)).
  - inversion_clear Hs as [|? ? H1 H2]. inversion_clear Hd as [|? ? H3 H4].
    assert (Hrt : m !! task_id_of rt = None) by (apply Hm; by left).
    rewrite (bool_decide_true (rt_workerShard rt = shard)) by done. rewrite Hrt. cbn [CHECK mbind outcome_bind].
    rewrite (bool_decide_false (is_Some None)) by (by intros []). cbn [negb CHECK mbind outcome_bind].
    rewrite IH; [|done|done|].
    + f_equal. fold (task_map l). rewrite <- insert_union_r; [by rewrite insert_union_l|].
      apply not_elem_of_list_to_map_1. rewrite <- list_fmap_compose. exact H3.
    + intros rt' Hin. rewrite lookup_insert_ne; [apply Hm; by right|].
      intros E. apply H3. rewrite E. apply list_elem_of_fmap. eauto.
Qed.

(** A worker leaves NEW by reporting its running tasks: if they carry
    its shard and are distinct, they become exactly its running tasks, and
    the worker is UNHEALTHY, out of reach of a second report, which stops the
    scheduler. *)
Theorem initializeRunningTasks_once w l l' :
  getState w = NEW -> tasks_ok w -> reports_ok w l ->
  exists w', initializeRunningTasks w l = Ret w' /\ getState w' = UNHEALTHY /\
    rw_runningTasks w' = task_map l /\ same_ids w w' /\ hasBeenHealthy w' = hasBeenHealthy w /\
    exists msg, initializeRunningTasks w' l' = Crash msg.
Proof.
  intros Hn Htk [Hs Hd]. destruct Htk as [Hr Hu]; [by left|].
  unfold initializeRunningTasks at 1. rewrite !bool_decide_true by done.
  cbn [CHECK mbind outcome_bind].
  rewrite register_tasks; [|done|done|by intros; rewrite Hr, lookup_empty].
  cbn [mbind outcome_bind]. eexists. split; [reflexivity|]. split_and!; try done.
  - cbn. by rewrite Hr, (right_id_L ∅ (∪)).
  - unfold hasBeenHealthy. cbn. by destruct (hasBeenHealthy_ (rw_state w)).
  - by eexists.
Qed.

Lemma initializeRunningTasks_once_witness :
  exists w', initializeRunningTasks sample_worker [sample_rt "a" 1; sample_rt "b" 2] = Ret w' /\
    getState w' = UNHEALTHY.
Proof.
  destruct (initializeRunningTasks_once sample_worker [sample_rt "a" 1; sample_rt "b" 2] [])
    as (w' & H1 & H2 & _); [done|by intros _| |by exists w'].
  split; [repeat constructor|]. apply (bool_decide_unpack _). reflexivity.
Defined.
