(* ===== verification/RemoteWorkers.v ===== *)
(** [remote/RemoteWorkers.{h,cpp}]: the pool of remote workers, the set of
    workers the scheduler has not given up and its versions, and the rules
    for becoming healthy and for leaving the initial wait.

    A [std::set]/[std::map] ordered by the version comparison is a list in
    that order, a [std::multiset] of which only "all elements are equal" is
    asked is a list, and an [unordered_map] of workers is a [gmap], iterated
    in the order of [map_to_list]. *)

From stdpp Require Import base gmap strings list sorting.
From Stdlib Require Import ZArith Lia Permutation.
From S2P Require Import Prelude Thrift WorkerSet Dynamic Backoff TaskStatus WorkerState RemoteWorker.

(** ** State *)

(** [RemoteWorkers::HistoryStep]. *)
Record HistoryStep := mkStep { removed : option string; added : gset string }.

(** The members of [RemoteWorkers] the worker callbacks change. *)
Record WorkerSets := mkSets {
  initialWorkerSetIDs_ : list WorkerSetID;
  indirectVersions_ : list (Z * string);  (* indirectVersionsOfNonMustDieWorkers_ *)
  nonMustDieWorkerSetID_ : WorkerSetID;
  history_ : list (Z * HistoryStep);
  rws_schedulerID : BistroInstanceID
}.

(** [RoundRobinWorkerPool] of one host: its shards, in iteration order. *)
Record HostPool := mkHostPool { hp_shards : list string; hp_nextShard : string }.

Record RemoteWorkers := mkRemoteWorkers {
  inInitialWait_ : bool;
  startTime_ : Z;
  sets_ : WorkerSets;
  workerPool_ : gmap string RemoteWorker;
  pool_nextShard : string;
  hostToWorkerPool_ : gmap string HostPool
}.

Definition set_sets (rs : RemoteWorkers) (sets : WorkerSets) (pool : gmap string RemoteWorker)
    : RemoteWorkers :=
  mkRemoteWorkers (inInitialWait_ rs) (startTime_ rs) sets pool (pool_nextShard rs)
    (hostToWorkerPool_ rs).
Definition set_hosts (rs : RemoteWorkers) (hosts : gmap string HostPool) : RemoteWorkers :=
  mkRemoteWorkers (inInitialWait_ rs) (startTime_ rs) (sets_ rs) (workerPool_ rs)
    (pool_nextShard rs) hosts.

(** [RemoteWorkers::RemoteWorkers]; a [WorkerSetID]'s version starts at 0. *)
Definition emptySets (scheduler_id : BistroInstanceID) : WorkerSets :=
  mkSets [] [] (mkWorkerSetID scheduler_id 0 emptyWorkerSetHash) [] scheduler_id.
Definition newRemoteWorkers (start_time : Z) (scheduler_id : BistroInstanceID) : RemoteWorkers :=
  mkRemoteWorkers true start_time (emptySets scheduler_id) ∅ "" ∅.

Definition set_initial (s : WorkerSets) l :=
  mkSets l (indirectVersions_ s) (nonMustDieWorkerSetID_ s) (history_ s) (rws_schedulerID s).
Definition set_indirect (s : WorkerSets) l :=
  mkSets (initialWorkerSetIDs_ s) l (nonMustDieWorkerSetID_ s) (history_ s) (rws_schedulerID s).
Definition set_current (s : WorkerSets) id h :=
  mkSets (initialWorkerSetIDs_ s) (indirectVersions_ s) id h (rws_schedulerID s).

(** ** Ordered sets *)

(** [VersionAndShardEarlierThan]. *)
Definition VersionAndShardEarlierThan (a b : Z * string) : outcome bool :=
  let* e := WorkerSetIDEarlierThan a.1 b.1 in
  Ret (e || ((a.1 =? b.1) && String.ltb a.2 b.2)).

(** [emplace] into an ordered set: [None] if an equivalent element is there. *)
Fixpoint vss_emplace (x : Z * string) (l : list (Z * string))
    : outcome (option (list (Z * string))) :=
  match l with
  | [] => Ret (Some [x])
  | y :: l' =>
      let* xy := VersionAndShardEarlierThan x y in
      if (xy : bool) then Ret (Some (x :: l))
      else
        let* yx := VersionAndShardEarlierThan y x in
        if (yx : bool) then let* r := vss_emplace x l' in Ret (cons y <$> r)
        else Ret None
  end.

(** [erase] of a key: [None] if there was no equivalent element. *)
Fixpoint vss_erase (x : Z * string) (l : list (Z * string))
    : outcome (option (list (Z * string))) :=
  match l with
  | [] => Ret None
  | y :: l' =>
      let* xy := VersionAndShardEarlierThan x y in
      let* yx := VersionAndShardEarlierThan y x in
      if negb xy && negb yx then Ret (Some l')
      else let* r := vss_erase x l' in Ret (cons y <$> r)
  end.

(** [history_.emplace]. *)
Fixpoint history_emplace (v : Z) (s : HistoryStep) (l : list (Z * HistoryStep))
    : outcome (option (list (Z * HistoryStep))) :=
  match l with
  | [] => Ret (Some [(v, s)])
  | y :: l' =>
      let* xy := WorkerSetIDEarlierThan v y.1 in
      if (xy : bool) then Ret (Some ((v, s) :: l))
      else
        let* yx := WorkerSetIDEarlierThan y.1 v in
        if (yx : bool) then let* r := history_emplace v s l' in Ret (cons y <$> r)
        else Ret None
  end.

Definition CHECK_Some {A} (o : option A) (msg : string) : outcome A :=
  match o with Some a => Ret a | None => Crash msg end.

(** [addToVersionShardSet], [removeFromVersionShardSet]. *)
Definition addToVersionShardSet (l : list (Z * string)) (id : WorkerSetID) (shard : string)
    : outcome (list (Z * string)) :=
  let* r := vss_emplace (ws_version id, shard) l in CHECK_Some r "Duplicate".
Definition removeFromVersionShardSet (l : list (Z * string)) (id : WorkerSetID) (shard : string)
    : outcome (list (Z * string)) :=
  let* r := vss_erase (ws_version id, shard) l in CHECK_Some r "Not found".

(** ** The callbacks *)

(** [updateIndirectWorkerSetVersion]. *)
Definition updateIndirectWorkerSetVersion (s : WorkerSets) (w : RemoteWorker)
    (new_id : WorkerSetID) : outcome (WorkerSets * RemoteWorker) :=
  let maybe_id := indirectWorkerSetID_ w in
  match maybe_id with
  | Some id => CHECK (bool_decide (ws_schedulerID id = rws_schedulerID s)) "schedulerID"
  | None => Ret tt
  end ;;;
  let* nothing_to_update :=
    match maybe_id with
    | Some id => let* earlier := WorkerSetIDEarlierThan (ws_version id) (ws_version new_id) in
                 Ret (negb earlier)
    | None => Ret false
    end in
  if (nothing_to_update : bool) then Ret (s, w)
  else
    let* l :=
      match maybe_id with
      | Some id => removeFromVersionShardSet (indirectVersions_ s) id (shard_of w)
      | None => Ret (indirectVersions_ s)
      end in
    let* l := addToVersionShardSet l new_id (shard_of w) in
    Ret (set_indirect s l,
         set_ids w (workerSetID_ w) (firstAssociatedWorkerSetID_ w) (Some new_id)).

(** [++version]: the counter is meant to wrap around. *)
Definition next_version (v : Z) : Z := s64 (v + 1).

(** Both new and dead worker callbacks end with a new version of the set. *)
Definition bump_version (s : WorkerSets) (hash : WorkerSetHash) (step : HistoryStep)
    : outcome WorkerSets :=
  let v := next_version (ws_version (nonMustDieWorkerSetID_ s)) in
  let id := mkWorkerSetID (ws_schedulerID (nonMustDieWorkerSetID_ s)) v hash in
  let* r := history_emplace v step (history_ s) in
  let* h := CHECK_Some r "CHECK(history_.emplace)" in
  Ret (set_current s id h).

(** The "new worker" lambda of [processHeartbeat]. *)
Definition onNewWorker (s : WorkerSets) (w : RemoteWorker) : outcome WorkerSets :=
  let s := set_initial s (initialWorkerSetID_ w :: initialWorkerSetIDs_ s) in
  CHECK (negb (bool_decide (is_Some (workerSetID_ w)))) "CHECK(!workerSetID)" ;;;
  CHECK (negb (bool_decide (is_Some (indirectWorkerSetID_ w)))) "CHECK(!indirect)" ;;;
  CHECK (negb (bool_decide (is_Some (firstAssociatedWorkerSetID_ w)))) "CHECK(!first)" ;;;
  bump_version s (addWorkerIDToHash (ws_hash (nonMustDieWorkerSetID_ s)) (bw_id (worker_ w)))
    (mkStep None {[shard_of w]}).

(** Erase one occurrence; [None] if there is none. *)
Fixpoint erase_one (id : WorkerSetID) (l : list WorkerSetID) : option (list WorkerSetID) :=
  match l with
  | [] => None
  | x :: l' => if bool_decide (x = id) then Some l' else cons x <$> erase_one id l'
  end.

(** The "dead worker" lambda. *)
Definition onDeadWorker (s : WorkerSets) (w : RemoteWorker) : outcome WorkerSets :=
  let* l := CHECK_Some (erase_one (initialWorkerSetID_ w) (initialWorkerSetIDs_ s))
              "CHECK(ws_it != end)" in
  let s := set_initial s l in
  let* s :=
    match indirectWorkerSetID_ w with
    | Some id =>
        CHECK (bool_decide (ws_schedulerID id = rws_schedulerID s)) "schedulerID" ;;;
        let* l := removeFromVersionShardSet (indirectVersions_ s) id (shard_of w) in
        Ret (set_indirect s l)
    | None => Ret s
    end in
  let* hash := removeWorkerIDFromHash (ws_hash (nonMustDieWorkerSetID_ s)) (bw_id (worker_ w)) in
  bump_version s hash (mkStep (Some (shard_of w)) ∅).

(** The "worker set ID changed" lambda. *)
Definition onWorkerSetIDChange (s : WorkerSets) (w : RemoteWorker) (id : WorkerSetID)
    : outcome (WorkerSets * RemoteWorker) :=
  CHECK (bool_decide (rws_schedulerID s = ws_schedulerID id)) "schedulerID" ;;;
  updateIndirectWorkerSetVersion s w id.

#[global] Instance SetsCobs : WorkerCobs WorkerSets := {
  newWorkerCob := onNewWorker;
  deadWorkerCob := onDeadWorker;
  workerSetIDChangeCob := onWorkerSetIDChange
}.

(** [consensusPermitsBecomingHealthy]. *)
Definition consensusPermitsBecomingHealthy (s : WorkerSets) (w : RemoteWorker) : outcome bool :=
  let n := numWorkers (ws_hash (nonMustDieWorkerSetID_ s)) in
  CHECK (n =? Z.of_nat (length (initialWorkerSetIDs_ s))) "CHECK_EQ(numWorkers)" ;;;
  CHECK (length (indirectVersions_ s) <=? length (initialWorkerSetIDs_ s))%nat "CHECK_GE" ;;;
  match workerSetID_ w with
  | None => Ret false
  | Some id =>
      if negb (bool_decide (id = nonMustDieWorkerSetID_ s)) then Ret false
      else if negb (Z.of_nat (length (indirectVersions_ s)) =? n) then Ret false
      else
        match firstAssociatedWorkerSetID_ w with
        | None => Ret false
        | Some first =>
            match indirectVersions_ s with
            | [] => Undef "begin() of an empty set"
            | (v, _) :: _ =>
                let* earlier := WorkerSetIDEarlierThan v (ws_version first) in
                Ret (negb earlier)
            end
        end
  end.

(** ** Pools *)

(** [mutableHostWorkerPool]: makes an empty pool if there is none. *)
Definition mutableHostWorkerPool (rs : RemoteWorkers) (host : string) : RemoteWorkers * HostPool :=
  match hostToWorkerPool_ rs !! host with
  | Some p => (rs, p)
  | None => let p := mkHostPool [] "" in
            (set_hosts rs (<[host := p]> (hostToWorkerPool_ rs)), p)
  end.

(** [emplace(shard, ...)] into, and [erase(shard)] from a host's pool. *)
Definition host_emplace (rs : RemoteWorkers) (host shard : string) : outcome RemoteWorkers :=
  let '(rs, p) := mutableHostWorkerPool rs host in
  CHECK (negb (bool_decide (shard ∈ hp_shards p))) "pool already had shard" ;;;
  Ret (set_hosts rs (<[host := mkHostPool (hp_shards p ++ [shard]) (hp_nextShard p)]>
                       (hostToWorkerPool_ rs))).
Definition host_erase (rs : RemoteWorkers) (host shard : string) : outcome RemoteWorkers :=
  let '(rs, p) := mutableHostWorkerPool rs host in
  CHECK (bool_decide (shard ∈ hp_shards p)) "did not find shard in its host's pool" ;;;
  Ret (set_hosts rs (<[host := mkHostPool (List.filter (fun s => negb (String.eqb s shard))
                                             (hp_shards p)) (hp_nextShard p)]>
                       (hostToWorkerPool_ rs))).

(** The element after [x] in iteration order, wrapping to the first. *)
Fixpoint successor (first x : string) (l : list string) : string :=
  match l with
  | [] => first
  | y :: l' => if String.eqb y x then match l' with [] => first | z :: _ => z end
               else successor first x l'
  end.

(** [RoundRobinWorkerPool::getNextWorker]: the shard picked, and the next. *)
Definition getNextWorker (shards : list string) (nextShard : string) : option (string * string) :=
  match shards with
  | [] => None
  | first :: _ =>
      let ret := if bool_decide (nextShard ∈ shards) then nextShard else first in
      Some (ret, successor first ret shards)
  end.

Section Operations.
Context (flags : Flags).

(** [processHeartbeat]. *)
Definition rws_processHeartbeat (rs : RemoteWorkers) (u : RemoteWorkerUpdate)
    (worker : BistroWorker) (worker_set_id : WorkerSetID)
    : outcome (RemoteWorkers * RemoteWorkerUpdate * option SchedulerHeartbeatResponse) :=
  enforceWorkerSchedulerProtocolVersion (bw_protocolVersion worker) kProtocolVersion ;;;
  let shard := bw_shard worker in
  let* (rs, w) :=
    match workerPool_ rs !! shard with
    | Some w => Ret (rs, w)
    | None =>
        let* (s, w) := makeWorker (sets_ rs) (curTime_ u) worker worker_set_id
                         (rws_schedulerID (sets_ rs)) in
        let rs := set_sets rs s (<[shard := w]> (workerPool_ rs)) in
        let* rs := host_emplace rs (hostname (bw_machineLock worker)) shard in
        Ret (rs, w)
    end in
  let old_hostname := hostname (bw_machineLock (worker_ w)) in
  let* permits := consensusPermitsBecomingHealthy (sets_ rs) w in
  let* (s, u, w, response) :=
    processHeartbeat flags (sets_ rs) u w worker worker_set_id permits in
  let rs := set_sets rs s (<[shard := w]> (workerPool_ rs)) in
  let new_hostname := hostname (bw_machineLock (worker_ w)) in
  let* rs :=
    (if negb (String.eqb new_hostname old_hostname) then
       let* rs := host_erase rs old_hostname shard in
       host_emplace rs new_hostname shard
     else Ret rs) in
  Ret (rs, u,
       match response with
       | Some r => Some (mkHeartbeatResponse (hr_maxHealthcheckGap r) (hr_heartbeatGracePeriod r)
                           (hr_loseUnhealthyWorkerAfter r) (hr_workerCheckInterval r)
                           (hr_workerState r) (hr_protocolVersion r)
                           (Some (nonMustDieWorkerSetID_ s)))
       | None => None
       end).

(** ** History *)

(** [mergeHistoryStep]. *)
Definition mergeHistoryStep (step : HistoryStep) (acc : gset string) : outcome (gset string) :=
  let* acc :=
    match removed step with
    | Some r => CHECK (bool_decide (r ∈ acc)) "Worker was never added" ;;; Ret (acc ∖ {[r]})
    | None => Ret acc
    end in
  foldM (fun acc shard =>
    CHECK (negb (bool_decide (shard ∈ acc))) "Worker exists" ;;;
    Ret ({[shard]} ∪ acc)) acc (elements (added step)).

(** The earliest version a worker that is not MUST_DIE refers to. *)
Definition first_referenced (pool : gmap string RemoteWorker) : outcome (option Z) :=
  foldM (fun acc p =>
    if bool_decide (getState p.2 = MUST_DIE) then Ret acc
    else
      match workerSetID_ p.2, acc with
      | None, _ => Ret acc
      | Some id, None => Ret (Some (ws_version id))
      | Some id, Some v =>
          let* e := WorkerSetIDEarlierThan (ws_version id) v in
          Ret (if (e : bool) then Some (ws_version id) else acc)
      end) None (map_to_list pool).

(** The loop of [pruneUnusedHistoryVersions]: what is left of the history. *)
Fixpoint prune_loop (first : Z) (acc : gset string) (l : list (Z * HistoryStep))
    : outcome (gset string * list (Z * HistoryStep)) :=
  match l with
  | [] => Ret (acc, [])
  | (v, step) :: l' =>
      let* e := WorkerSetIDEarlierThan v first in
      if (e : bool) then
        let* acc := mergeHistoryStep step acc in
        prune_loop first acc l'
      else
        CHECK (first =? v) "First referenced WorkerSetID version was not found" ;;;
        let* acc := mergeHistoryStep step acc in
        Ret (∅, (v, mkStep None acc) :: l')
  end.

(** [pruneUnusedHistoryVersions]. *)
Definition pruneUnusedHistoryVersions (s : WorkerSets) (pool : gmap string RemoteWorker)
    : outcome WorkerSets :=
  let n := length (initialWorkerSetIDs_ s) in
  CHECK (length (indirectVersions_ s) <=? n)%nat "CHECK_GE" ;;;
  if (length (indirectVersions_ s) <? n)%nat then Ret s
  else
    let* first := first_referenced pool in
    match first with
    | None =>
        CHECK (n =? 0)%nat "CHECK(initialWorkerSetIDs_.size() == 0)" ;;;
        Ret (set_current s (nonMustDieWorkerSetID_ s) [])
    | Some first =>
        let* (acc, h) := prune_loop first ∅ (history_ s) in
        CHECK (bool_decide (acc = ∅)) "CHECK(added.empty())" ;;;
        Ret (set_current s (nonMustDieWorkerSetID_ s) h)
    end.

(** [mutableWorkerOrAbort]. *)
Definition mutableWorkerOrAbort (pool : gmap string RemoteWorker) (shard : string)
    : outcome RemoteWorker :=
  CHECK_Some (pool !! shard) "Unknown RemoteWorker".

(** The shards of a history step with an indirect version leave and join [vss]. *)
Definition propagate_step (sched : BistroInstanceID) (pool : gmap string RemoteWorker)
    (vss : list (Z * string)) (step : HistoryStep) : outcome (list (Z * string)) :=
  let with_id shard k vss :=
    let* w := mutableWorkerOrAbort pool shard in
    match indirectWorkerSetID_ w with
    | Some id => CHECK (bool_decide (ws_schedulerID id = sched)) "schedulerID" ;;; k vss id shard
    | None => Ret vss
    end in
  let* vss := match removed step with
              | Some shard => with_id shard removeFromVersionShardSet vss
              | None => Ret vss
              end in
  foldM (fun vss shard => with_id shard addToVersionShardSet vss) vss (elements (added step)).

(** The iterator after [x]: the first later element. *)
Fixpoint vss_after (x : Z * string) (l : list (Z * string)) : outcome (option (Z * string)) :=
  match l with
  | [] => Ret None
  | y :: l' =>
      let* xy := VersionAndShardEarlierThan x y in
      if (xy : bool) then Ret (Some y) else vss_after x l'
  end.

(** The inner loop for one history version [hv]; [it] is [indir_it]. *)
Fixpoint propagate_inner (fuel : nat) (hv : Z) (s : WorkerSets) (pool : gmap string RemoteWorker)
    (vss : list (Z * string)) (it : option (Z * string))
    : outcome (WorkerSets * gmap string RemoteWorker * list (Z * string) * option (Z * string)) :=
  match it, fuel with
  | None, _ => Ret (s, pool, vss, None)
  | Some _, O => Undef "fuel"
  | Some x, S fuel =>
      let* later := WorkerSetIDEarlierThan hv x.1 in
      if (later : bool) then Ret (s, pool, vss, it)
      else
        match list.last vss with
        | None => Crash "CHECK(!vss.empty())"
        | Some top =>
            CHECK (hv =? x.1) "CHECK_EQ(hp.first, indir_it->first)" ;;;
            let* next := vss_after x (indirectVersions_ s) in
            let* top_w := mutableWorkerOrAbort pool top.2 in
            let* new_id := CHECK_Some (indirectWorkerSetID_ top_w) "CHECK(new_id.has_value())" in
            CHECK (top.1 =? ws_version new_id) "CHECK_EQ(vss.rbegin()->first)" ;;;
            CHECK (bool_decide (ws_schedulerID new_id = rws_schedulerID s)) "schedulerID" ;;;
            let* w := mutableWorkerOrAbort pool x.2 in
            match indirectWorkerSetID_ w with
            | None => Undef "indirectWorkerSetID()->version"
            | Some id =>
                CHECK (x.1 =? ws_version id) "CHECK_EQ(it->first)" ;;;
                CHECK (String.eqb x.2 (shard_of w)) "CHECK_EQ(it->second)" ;;;
                let* erased := vss_erase x vss in
                let* vss := match erased with
                            | Some vss' => addToVersionShardSet vss' new_id x.2
                            | None => Ret vss
                            end in
                let* (s, w) := updateIndirectWorkerSetVersion s w new_id in
                CHECK (bool_decide (ws_version <$> indirectWorkerSetID_ w
                                    = Some (ws_version new_id))) "version" ;;;
                propagate_inner fuel hv s (<[x.2 := w]> pool) vss next
            end
        end
  end.

(** [propagateIndirectWorkerSets]: the outer loop over the history, and the
    final check.  The inner loop visits elements of version [hp.1], of which
    there are at most as many as the set has, and then tests its condition
    once more. *)
Definition propagateIndirectWorkerSets (s : WorkerSets) (pool : gmap string RemoteWorker)
    : outcome (WorkerSets * gmap string RemoteWorker) :=
  let* (s, pool, _, it) :=
    foldM (fun acc hp =>
      let '(s, pool, vss, it) := acc in
      match it with
      | None => Ret acc
      | Some x =>
          let* bad := WorkerSetIDEarlierThan x.1 hp.1 in
          CHECK (negb bad) "Worker refers to version not in history" ;;;
          let* vss := propagate_step (rws_schedulerID s) pool vss hp.2 in
          propagate_inner (S (length (indirectVersions_ s))) hp.1 s pool vss it
      end) (s, pool, [], head (indirectVersions_ s)) (history_ s) in
  CHECK (bool_decide (it = None)) "indirect version exceeds the maximum history version" ;;;
  Ret (s, pool).

(** ** Initial wait *)

Definition kMinSafeWait : Z :=
  maxHealthcheckGap flags + loseUnhealthyWorkerAfter flags + workerCheckInterval flags
  + workerSuicideBackoffSafetyMarginSec flags
  + Z.quot (workerSuicideTaskKillWaitMs flags) 1000 + 1.

(** The time by which the scheduler must have started to be out of the wait. *)
Definition min_start_time (cur_time : Z) : Z :=
  if FLAGS_CAUTION_startup_wait_for_workers flags <? 0 then cur_time - kMinSafeWait
  else cur_time - FLAGS_CAUTION_startup_wait_for_workers flags.

(** [initial_worker_set_id_consensus]: all initial IDs are the same, and its
    hash is that of the current set.  [*begin()] of the empty multiset is
    undefined behaviour. *)
Definition initial_consensus (s : WorkerSets) : outcome bool :=
  match initialWorkerSetIDs_ s with
  | [] => Undef "*initialWorkerSetIDs_.begin()"
  | id :: l => Ret (forallb (fun i => bool_decide (i = id)) l
                    && bool_decide (ws_hash (nonMustDieWorkerSetID_ s) = ws_hash id))
  end.

(** [updateInitialWait].  [wait_warnings] stands for the text put in front. *)
Definition updateInitialWait (wait_warnings : string) (rs : RemoteWorkers) (u : RemoteWorkerUpdate)
    : outcome (RemoteWorkers * RemoteWorkerUpdate) :=
  if negb (inInitialWait_ rs) then Ret (rs, setInitialWaitMessage u "")
  else
    let* consensus := initial_consensus (sets_ rs) in
    let msg := if (consensus : bool) then wait_warnings
               else String.append wait_warnings "No initial worker set ID consensus. " in
    if (min_start_time (curTime_ u) <? startTime_ rs) && negb consensus then
      Ret (rs, setInitialWaitMessage u
        (String.append msg "Waiting for all workers to connect before running tasks."))
    else if negb (bool_decide (newWorkers_ u = ∅)) then
      Ret (rs, setInitialWaitMessage u (String.append msg
        "Ready to exit initial wait, but not all workers' running tasks were fetched; not allowing tasks to start until all are fetched."))
    else
      Ret (mkRemoteWorkers false (startTime_ rs) (sets_ rs) (workerPool_ rs) (pool_nextShard rs)
             (hostToWorkerPool_ rs), setInitialWaitMessage u "").

(** The loop of [updateState] over the pool. *)
Definition update_workers (s : WorkerSets) (u : RemoteWorkerUpdate)
    (pool : gmap string RemoteWorker)
    : outcome (WorkerSets * RemoteWorkerUpdate * gmap string RemoteWorker) :=
  foldM (fun acc p =>
    let '(s, u, pool) := acc in
    let* permits := consensusPermitsBecomingHealthy s p.2 in
    let* (s, u, w) := updateState flags s u p.2 permits in
    Ret (s, u, <[p.1 := w]> pool)) (s, u, pool) (map_to_list pool).

(** [updateState]. *)
Definition rws_updateState (wait_warnings : string) (rs : RemoteWorkers) (u : RemoteWorkerUpdate)
    : outcome (RemoteWorkers * RemoteWorkerUpdate) :=
  CHECK (0 <? FLAGS_healthcheck_period flags) "--healthcheck_period must be positive" ;;;
  let* s := pruneUnusedHistoryVersions (sets_ rs) (workerPool_ rs) in
  let* (s, pool) := propagateIndirectWorkerSets s (workerPool_ rs) in
  let* (s, u, pool) := update_workers s u pool in
  updateInitialWait wait_warnings (set_sets rs s pool) u.

(** [initializeRunningTasks]. *)
Definition rws_initializeRunningTasks (rs : RemoteWorkers) (bw : BistroWorker)
    (running_tasks : list RunningTask) : outcome RemoteWorkers :=
  let* w := mutableWorkerOrAbort (workerPool_ rs) (bw_shard bw) in
  if negb (bool_decide (getState w = NEW)) then Ret rs
  else
    let* w := initializeRunningTasks w running_tasks in
    Ret (set_sets rs (sets_ rs) (<[bw_shard bw := w]> (workerPool_ rs))).

End Operations.

(** ** Ordered sets with small versions *)

Definition small (x : Z * string) : Prop := 0 <= x.1 < 2 ^ 62.
Definition lexb (a b : Z * string) : bool :=
  (a.1 <? b.1) || ((a.1 =? b.1) && String.ltb a.2 b.2).
Definition vss_before (a b : Z * string) : Prop := lexb a b = true.

Lemma small_earlier a b : 0 <= a < 2 ^ 62 -> 0 <= b < 2 ^ 62 ->
  WorkerSetIDEarlierThan a b = Ret (a <? b).
Proof.
  intros Ha Hb. rewrite <- (s64_id a), <- (s64_id b) at 1 by (unfold is_s64; lia).
  apply earlier_window. lia.
Qed.

Lemma small_lex a b : small a -> small b -> VersionAndShardEarlierThan a b = Ret (lexb a b).
Proof. intros Ha Hb. unfold VersionAndShardEarlierThan. by rewrite small_earlier. Qed.

Lemma ltb_total a b : String.ltb a b = false -> String.ltb b a = false -> a = b.
Proof.
  unfold String.ltb. rewrite (String.compare_antisym b a).
  destruct (String.compare a b) eqn:E; try discriminate.
  intros _ _. by apply String.compare_eq_iff.
Qed.

Lemma ltb_irrefl a : String.ltb a a = false.
Proof.
  unfold String.ltb. pose proof (String.compare_antisym a a) as H.
  by destruct (String.compare a a).
Qed.

Lemma lexb_total a b : lexb a b = false -> lexb b a = false -> a = b.
Proof.
  destruct a as [va sa], b as [vb sb]. unfold lexb. cbn. intros H1 H2.
  bprop. assert (va = vb) as -> by lia. rewrite Z.eqb_refl in *. f_equal. by apply ltb_total.
Qed.

Lemma lexb_irrefl a : lexb a a = false.
Proof. unfold lexb. rewrite Z.ltb_irrefl, ltb_irrefl. by destruct (_ =? _). Qed.

Lemma ltb_trans a b d : String.ltb a b = true -> String.ltb b d = true -> String.ltb a d = true.
Proof.
  unfold String.ltb. revert b d. induction a as [|x a IH]; intros [|y b] [|z d]; cbn; try done.
  unfold Ascii.compare.
  destruct (N.compare_spec (Ascii.N_of_ascii x) (Ascii.N_of_ascii y)) as [E1|L1|L1]; try done;
    destruct (N.compare_spec (Ascii.N_of_ascii y) (Ascii.N_of_ascii z)) as [E2|L2|L2]; try done;
    destruct (N.compare_spec (Ascii.N_of_ascii x) (Ascii.N_of_ascii z)) as [E3|L3|L3]; try done; try lia.
  apply IH.
Qed.

Lemma lexb_trans a b d : lexb a b = true -> lexb b d = true -> lexb a d = true.
Proof.
  unfold lexb. rewrite !orb_true_iff, !andb_true_iff, !Z.ltb_lt, !Z.eqb_eq.
  intros [?|[? ?]] [?|[? ?]]; [left; lia..|]. right. split; [lia|]. by eapply ltb_trans.
Qed.

Lemma lexb_ver a b : vss_before a b -> a.1 <= b.1.
Proof.
  unfold vss_before, lexb. rewrite orb_true_iff, andb_true_iff, Z.ltb_lt, Z.eqb_eq. lia.
Qed.

Lemma vss_emplace_ok x l :
  small x -> Forall small l -> x ∉ l ->
  exists l', vss_emplace x l = Ret (Some l') /\ l' ≡ₚ x :: l /\
    (StronglySorted vss_before l -> StronglySorted vss_before l').
Proof.
  intros Hx. induction l as [|y l IH]; intros Hl Hnin; simpl.
  { exists [x]. split_and!; [done|done|]. repeat constructor. }
  inversion_clear Hl as [|? ? Hy Hl']. apply not_elem_of_cons in Hnin as [Hne Hnin].
  rewrite !small_lex by done. cbn [mbind outcome_bind].
  destruct (lexb x y) eqn:Exy.
  { exists (x :: y :: l). split_and!; [done|done|]. intros Hs. constructor; [done|].
    inversion_clear Hs as [|? ? Hs' Hall]. constructor; [done|].
    eapply Forall_impl; [exact Hall|]. intros z Hz. by eapply lexb_trans. }
  destruct (lexb y x) eqn:Eyx; [|by apply lexb_total in Exy].
  destruct (IH Hl' Hnin) as (l' & -> & Hp & Hs'). cbn. exists (y :: l').
  split_and!; [done|rewrite Hp; constructor|].
  intros Hs. inversion_clear Hs as [|? ? Hs1 Hall]. constructor; [by apply Hs'|].
  rewrite Hp. by constructor.
Qed.

Lemma vss_erase_ok x l :
  small x -> Forall small l -> x ∈ l ->
  exists l', vss_erase x l = Ret (Some l') /\ l ≡ₚ x :: l' /\
    (StronglySorted vss_before l -> StronglySorted vss_before l').
Proof.
  intros Hx. induction l as [|y l IH]; intros Hl Hin; [by apply not_elem_of_nil in Hin|]. simpl.
  inversion_clear Hl as [|? ? Hy Hl'].
  rewrite !small_lex by done. cbn [mbind outcome_bind].
  destruct (lexb x y) eqn:Exy, (lexb y x) eqn:Eyx; cbn [negb andb].
  4: { apply lexb_total in Exy as <-; [|done]. exists l. split_and!; [done|done|].
       by inversion_clear 1. }
  all: assert (Hin' : x ∈ l) by
         (apply elem_of_cons in Hin as [<-|Hin]; [rewrite lexb_irrefl in *; discriminate|done]).
  all: destruct (IH Hl' Hin') as (l' & -> & Hp & Hs); cbn; exists (y :: l').
  all: split_and!; [done|rewrite Hp; constructor|].
  all: intros Hss; inversion_clear Hss as [|? ? Hs1 Hall]; constructor; [by apply Hs|].
  all: rewrite Hp in Hall; by inversion_clear Hall.
Qed.

Lemma history_emplace_ok v step l :
  0 <= v < 2 ^ 62 -> Forall (fun p => 0 <= p.1 < v) l ->
  history_emplace v step l = Ret (Some (l ++ [(v, step)])).
Proof.
  intros Hv. induction l as [|y l IH]; intros Hl; [done|]. inversion_clear Hl as [|? ? Hy Hl'].
  simpl. rewrite !small_earlier by lia. cbn [mbind outcome_bind].
  rewrite (proj2 (Z.ltb_ge v y.1)), (proj2 (Z.ltb_lt y.1 v)) by lia. by rewrite IH.
Qed.

Lemma erase_one_ok id l l' : l ≡ₚ id :: l' -> exists l1, erase_one id l = Some l1 /\ l1 ≡ₚ l'.
Proof.
  intros Hp. assert (Hin : id ∈ l) by (rewrite Hp; by left).
  assert (exists l1, erase_one id l = Some l1 /\ l ≡ₚ id :: l1) as (l1 & E & Hp1).
  { clear Hp l'. induction l as [|x l IH]; [by apply not_elem_of_nil in Hin|]. simpl.
    case_bool_decide as Hx; [subst; by exists l|].
    apply elem_of_cons in Hin as [->|Hin]; [done|].
    destruct (IH Hin) as (l1 & -> & Hp). exists (x :: l1). split; [done|].
    rewrite Hp. constructor. }
  exists l1. split; [done|]. apply (Permutation_cons_inv (a := id)). by rewrite <- Hp1.
Qed.

(** ** The invariant of the worker sets *)

(** An ID of this scheduler, of version at most [v]. *)
Definition ours (sched : BistroInstanceID) (v : Z) (id : WorkerSetID) : Prop :=
  ws_schedulerID id = sched /\ 0 <= ws_version id <= v.

(** What a worker that is not MUST_DIE knows of the worker sets: either it
    has not echoed any, or its first, its current and its indirect set are in
    this order. *)
Definition worker_inv (sched : BistroInstanceID) (v : Z) (shard : string) (w : RemoteWorker)
    : Prop :=
  shard_of w = shard /\ schedulerID_ w = sched /\
  (ws_schedulerID (initialWorkerSetID_ w) = sched ->
     0 <= ws_version (initialWorkerSetID_ w) <= v) /\
  match firstAssociatedWorkerSetID_ w, workerSetID_ w, indirectWorkerSetID_ w with
  | None, None, None => True
  | Some first, Some cur, Some indirect =>
      ours sched v first /\ ours sched v cur /\ ours sched v indirect /\
      ws_version first <= ws_version cur <= ws_version indirect
  | _, _, _ => False
  end.

(** A worker's entry in [indirectVersionsOfNonMustDieWorkers_]. *)
Definition entry (p : string * RemoteWorker) : option (Z * string) :=
  (fun id => (ws_version id, p.1)) <$> indirectWorkerSetID_ p.2.

(** The sets agree with the workers [L] that are not MUST_DIE. *)
Record sets_inv (sched : BistroInstanceID) (s : WorkerSets) (L : gmap string RemoteWorker)
    : Prop := {
  si_sched : rws_schedulerID s = sched;
  si_current : ours sched (2 ^ 62 - 1) (nonMustDieWorkerSetID_ s);
  si_hash : ws_hash (nonMustDieWorkerSetID_ s)
            = hash_of ((fun p => bw_id (worker_ p.2)) <$> map_to_list L);
  si_initial : initialWorkerSetIDs_ s ≡ₚ (fun p => initialWorkerSetID_ p.2) <$> map_to_list L;
  si_indirect : indirectVersions_ s ≡ₚ omap entry (map_to_list L);
  si_sorted : StronglySorted vss_before (indirectVersions_ s);
  si_history : Forall (fun p => 0 <= p.1 <= ws_version (nonMustDieWorkerSetID_ s)) (history_ s);
  si_workers : map_Forall (worker_inv sched (ws_version (nonMustDieWorkerSetID_ s))) L
}.

Lemma emptySets_inv sched : sets_inv sched (emptySets sched) ∅.
Proof.
  constructor; cbn; try done; rewrite ?map_to_list_empty; try done; try constructor; cbn; (done || lia).
Qed.

Lemma worker_inv_mono sched v v' shard w :
  v <= v' -> worker_inv sched v shard w -> worker_inv sched v' shard w.
Proof.
  intros Hv (H1 & H2 & H3 & H4). split_and!; [done|done|intros E; specialize (H3 E); lia|].
  destruct (firstAssociatedWorkerSetID_ w), (workerSetID_ w), (indirectWorkerSetID_ w); try done.
  unfold ours in *. naive_solver lia.
Qed.

Section Laws.
Context (sched : BistroInstanceID) (shard : string) (L0 : gmap string RemoteWorker).
Context (HL0 : L0 !! shard = None).

Definition cur_version (s : WorkerSets) : Z := ws_version (nonMustDieWorkerSetID_ s).

Lemma list_insert w : map_to_list (<[shard := w]> L0) ≡ₚ (shard, w) :: map_to_list L0.
Proof using HL0. by apply map_to_list_insert. Qed.

Lemma entries_small s L : sets_inv sched s L -> Forall small (indirectVersions_ s).
Proof.
  intros Hi. rewrite (si_indirect _ _ _ Hi). apply Forall_forall.
  intros x ([sh w] & Hin & Hx)%list_elem_of_omap. apply elem_of_map_to_list in Hin.
  destruct (si_workers _ _ _ Hi _ _ Hin) as (_ & _ & _ & Hw).
  pose proof (si_current _ _ _ Hi) as [_ Hc]. unfold entry in Hx. cbn in Hx.
  destruct (indirectWorkerSetID_ w) as [i|]; [|done]. injection Hx as <-.
  destruct (firstAssociatedWorkerSetID_ w), (workerSetID_ w); try done.
  destruct Hw as (_ & _ & [_ Hv] & _). unfold small. cbn. lia.
Qed.

(** No other worker has an entry for this shard. *)
Lemma entry_fresh v : (v, shard) ∉ omap entry (map_to_list L0).
Proof using HL0.
  intros ([sh w] & Hin & Hx)%list_elem_of_omap. apply elem_of_map_to_list in Hin.
  unfold entry in Hx. cbn in Hx. destruct (indirectWorkerSetID_ w); [|done].
  injection Hx as _ ->. congruence.
Qed.

Lemma omap_insert w :
  omap entry (map_to_list (<[shard := w]> L0)) ≡ₚ
    (match indirectWorkerSetID_ w with Some id => [(ws_version id, shard)] | None => [] end)
    ++ omap entry (map_to_list L0).
Proof using HL0.
  rewrite list_insert. cbn. unfold entry at 1. cbn. by destruct (indirectWorkerSetID_ w).
Qed.

(** A new version with the right hash keeps the rest. *)
Lemma bump_ok s L hash step :
  ours sched (2 ^ 62 - 2) (nonMustDieWorkerSetID_ s) ->
  Forall (fun p => 0 <= p.1 <= cur_version s) (history_ s) ->
  rws_schedulerID s = sched ->
  hash = hash_of ((fun p => bw_id (worker_ p.2)) <$> map_to_list L) ->
  initialWorkerSetIDs_ s ≡ₚ (fun p => initialWorkerSetID_ p.2) <$> map_to_list L ->
  indirectVersions_ s ≡ₚ omap entry (map_to_list L) ->
  StronglySorted vss_before (indirectVersions_ s) ->
  map_Forall (worker_inv sched (cur_version s)) L ->
  exists s', bump_version s hash step = Ret s' /\ sets_inv sched s' L /\
    cur_version s' = cur_version s + 1.
Proof.
  intros [Hs Hv] Hh H1 H2 H3 H4 H5 H6. unfold bump_version, next_version.
  fold (cur_version s) in *. rewrite s64_id by (unfold is_s64; lia).
  rewrite history_emplace_ok; [|lia|eapply Forall_impl; [exact Hh|cbn; intros; lia]].
  cbn [mbind outcome_bind CHECK_Some]. eexists. split; [reflexivity|]. split; [|done].
  constructor; cbn; try done.
  - split; cbn; [done|lia].
  - apply Forall_app. split; [eapply Forall_impl; [exact Hh|cbn; intros; lia]|].
    repeat constructor; cbn; lia.
  - intros sh w Hw. eapply worker_inv_mono; [|by apply H6]. lia.
Qed.

Lemma new_ok s t bw id :
  sets_inv sched s L0 -> cur_version s < 2 ^ 62 - 1 -> bw_shard bw = shard ->
  (ws_schedulerID id = sched -> 0 <= ws_version id <= cur_version s) ->
  exists s', onNewWorker s (freshWorker t bw id sched) = Ret s' /\
    sets_inv sched s' (<[shard := freshWorker t bw id sched]> L0) /\
    cur_version s' = cur_version s + 1.
Proof using HL0.
  intros Hi Hv Hsh Hid. unfold onNewWorker. cbn [freshWorker workerSetID_ indirectWorkerSetID_
    firstAssociatedWorkerSetID_ initialWorkerSetID_ worker_].
  rewrite (bool_decide_false (is_Some None)) by (by intros []). cbn [negb CHECK mbind outcome_bind].
  pose proof (si_current _ _ _ Hi) as [Hs Hc].
  change (cur_version s) with (cur_version (set_initial s (id :: initialWorkerSetIDs_ s))).
  apply bump_ok; cbn [set_initial nonMustDieWorkerSetID_ history_ rws_schedulerID
    initialWorkerSetIDs_ indirectVersions_].
  - split; [done|]. unfold cur_version in *. cbn. lia.
  - exact (si_history _ _ _ Hi).
  - exact (si_sched _ _ _ Hi).
  - rewrite (si_hash _ _ _ Hi), list_insert. cbn [fmap list_fmap]. by rewrite hash_of_cons.
  - rewrite list_insert, (si_initial _ _ _ Hi). done.
  - rewrite omap_insert. exact (si_indirect _ _ _ Hi).
  - exact (si_sorted _ _ _ Hi).
  - apply map_Forall_insert; [exact HL0|]. split; [|exact (si_workers _ _ _ Hi)]. by split_and!.
Qed.

Lemma dead_ok s w :
  sets_inv sched s (<[shard := w]> L0) -> cur_version s < 2 ^ 62 - 1 ->
  exists s', onDeadWorker s w = Ret s' /\ sets_inv sched s' L0 /\
    cur_version s' = cur_version s + 1.
Proof using HL0.
  intros Hi Hv. pose proof (si_current _ _ _ Hi) as [Hs Hc].
  pose proof (si_workers _ _ _ Hi) as Hw. apply map_Forall_insert in Hw as [Hw HL]; [|exact HL0].
  pose proof Hw as (Hsh & _ & _ & Hids).
  pose proof (si_initial _ _ _ Hi) as Hini. rewrite list_insert in Hini. cbn in Hini.
  destruct (erase_one_ok _ _ _ Hini) as (l1 & E1 & Hp1).
  pose proof (si_indirect _ _ _ Hi) as Hind. rewrite omap_insert in Hind.
  unfold onDeadWorker. rewrite E1. cbn [CHECK_Some mbind outcome_bind].
  pose proof (si_hash _ _ _ Hi) as Hh. cbn [set_initial set_indirect nonMustDieWorkerSetID_].
  assert (Hrem : removeWorkerIDFromHash (ws_hash (nonMustDieWorkerSetID_ s)) (bw_id (worker_ w))
    = Ret (hash_of ((fun p => bw_id (worker_ p.2)) <$> map_to_list L0))).
  { rewrite Hh. apply remove_hash_of. by rewrite list_insert. }
  assert (Hind' : exists l2, match indirectWorkerSetID_ w with
      | Some id => CHECK (bool_decide (ws_schedulerID id = rws_schedulerID (set_initial s l1)))
                     "schedulerID" ;;;
          let* l := removeFromVersionShardSet (indirectVersions_ (set_initial s l1)) id (shard_of w) in
          Ret (set_indirect (set_initial s l1) l)
      | None => Ret (set_initial s l1) end = Ret (set_indirect (set_initial s l1) l2) /\
      l2 ≡ₚ omap entry (map_to_list L0) /\ StronglySorted vss_before l2).
  { pose proof (si_sorted _ _ _ Hi) as Hsort.
    destruct (indirectWorkerSetID_ w) as [id|]; [|by exists (indirectVersions_ s)].
    destruct (firstAssociatedWorkerSetID_ w), (workerSetID_ w); try done.
    destruct Hids as (_ & _ & [Hids Hidv] & _).
    cbn [set_initial rws_schedulerID indirectVersions_].
    rewrite (si_sched _ _ _ Hi), bool_decide_true by done. cbn [CHECK mbind outcome_bind].
    unfold removeFromVersionShardSet. rewrite Hsh.
    destruct (vss_erase_ok (ws_version id, shard) (indirectVersions_ s)) as (l2 & -> & Hp & Hs2).
    - split; cbn; lia.
    - by eapply entries_small.
    - rewrite Hind. by left.
    - exists l2. split_and!; [done| |by apply Hs2].
      apply (Permutation_cons_inv (a := (ws_version id, shard))). by rewrite <- Hp, Hind. }
  destruct Hind' as (l2 & -> & Hp2 & Hs2). cbn [mbind outcome_bind set_indirect nonMustDieWorkerSetID_
    set_initial]. rewrite Hrem. cbn [mbind outcome_bind].
  change (cur_version s) with (cur_version (set_indirect (set_initial s l1) l2)).
  apply bump_ok; cbn; try done.
  - split; [done|]. unfold cur_version in *. lia.
  - exact (si_history _ _ _ Hi).
  - exact (si_sched _ _ _ Hi).
Qed.

(** Changing one worker's IDs, and its entry with them. *)
Lemma set_ids_inv s w first cur ind l :
  sets_inv sched s (<[shard := w]> L0) ->
  ours sched (cur_version s) first -> ours sched (cur_version s) cur ->
  ours sched (cur_version s) ind -> ws_version first <= ws_version cur <= ws_version ind ->
  l ≡ₚ (ws_version ind, shard) :: omap entry (map_to_list L0) -> StronglySorted vss_before l ->
  sets_inv sched (set_indirect s l)
    (<[shard := set_ids w (Some cur) (Some first) (Some ind)]> L0).
Proof using HL0.
  intros Hi H1 H2 H3 H4 Hl Hs. pose proof (si_workers _ _ _ Hi) as Hw.
  apply map_Forall_insert in Hw as [(Hsh & Hsc & Hini & _) HL]; [|exact HL0].
  constructor; cbn; try apply Hi; try done.
  - rewrite (si_hash _ _ _ Hi). apply hash_of_Permutation. by rewrite !list_insert.
  - rewrite (si_initial _ _ _ Hi). by rewrite !list_insert.
  - rewrite omap_insert. exact Hl.
  - apply map_Forall_insert; [exact HL0|]. split; [|exact HL]. by split_and!.
Qed.

Lemma change_ok s w id :
  sets_inv sched s (<[shard := w]> L0) -> ours sched (cur_version s) id ->
  (forall cur, workerSetID_ w = Some cur -> ws_version cur < ws_version id) ->
  exists s' ind,
    onWorkerSetIDChange s w id
      = Ret (s', set_ids w (workerSetID_ w) (firstAssociatedWorkerSetID_ w) ind) /\
    sets_inv sched s'
      (<[shard := set_ids w (Some id) (Some (default id (firstAssociatedWorkerSetID_ w))) ind]> L0) /\
    cur_version s' = cur_version s.
Proof using HL0.
  intros Hi Hid Hlater. pose proof (si_workers _ _ _ Hi) as Hw.
  apply map_Forall_insert in Hw as [(Hsh & Hsc & Hini & Hids) HL]; [|exact HL0].
  pose proof (si_current _ _ _ Hi) as [Hs Hc]. pose proof Hid as [Hids1 Hidv].
  pose proof (si_indirect _ _ _ Hi) as Hind. rewrite omap_insert in Hind.
  pose proof (entries_small _ _ Hi) as Hsmall. pose proof (si_sorted _ _ _ Hi) as Hsort.
  assert (Hidsmall : small (ws_version id, shard))
    by (split; cbn; unfold cur_version in *; lia).
  unfold onWorkerSetIDChange, updateIndirectWorkerSetVersion, addToVersionShardSet,
    removeFromVersionShardSet.
  rewrite (si_sched _ _ _ Hi), Hids1, Hsh, bool_decide_true by done. cbn [CHECK mbind outcome_bind].
  destruct (firstAssociatedWorkerSetID_ w) as [f|] eqn:Ef, (workerSetID_ w) as [c|] eqn:Ec,
    (indirectWorkerSetID_ w) as [i|] eqn:Ei; try done.
  - destruct Hids as (Hf & Hcu & Hin & Hle). pose proof (Hlater c eq_refl) as Hcid.
    pose proof Hin as [Hin1 Hin2]. unfold cur_version in *.
    rewrite bool_decide_true by done. cbn [CHECK mbind outcome_bind].
    rewrite small_earlier by lia. cbn [mbind outcome_bind].
    destruct (Z.ltb_spec (ws_version i) (ws_version id)) as [Hlt|Hge]; cbn [negb].
    + destruct (vss_erase_ok (ws_version i, shard) (indirectVersions_ s)) as (l1 & -> & Hp1 & Hs1);
        [split; cbn; lia|done|rewrite Hind; by left|]. cbn [mbind outcome_bind CHECK_Some].
      assert (Hl1 : l1 ≡ₚ omap entry (map_to_list L0)).
      { apply (Permutation_cons_inv (a := (ws_version i, shard))). by rewrite <- Hp1, Hind. }
      destruct (vss_emplace_ok (ws_version id, shard) l1) as (l2 & -> & Hp2 & Hs2); [done| | |].
      { rewrite Hp1 in Hsmall. by inversion_clear Hsmall. }
      { rewrite Hl1. by apply entry_fresh. }
      cbn [mbind outcome_bind CHECK_Some]. eexists _, _. split; [reflexivity|]. split; [|done].
      apply set_ids_inv; [done|done|done|done|cbn; lia|by rewrite Hp2, Hl1|].
      apply Hs2, Hs1, Hsort.
    + exists s, (Some i). split; [destruct w; cbn in *; by subst|].
      split; [|done].
      replace s with (set_indirect s (indirectVersions_ s)) at 1 by (by destruct s).
      apply set_ids_inv; [done|done|done|done|cbn; lia|exact Hind|done].
  - cbn [mbind outcome_bind].
    destruct (vss_emplace_ok (ws_version id, shard) (indirectVersions_ s)) as (l2 & -> & Hp2 & Hs2);
      [done|done|rewrite Hind; by apply entry_fresh|].
    cbn [mbind outcome_bind CHECK_Some]. eexists _, _. split; [reflexivity|]. split; [|done].
    apply set_ids_inv; [done|done|done|done|cbn; lia|by rewrite Hp2, Hind|by apply Hs2].
Qed.

Lemma worker_inv_same v w w' : same_ids w w' -> worker_inv sched v shard w -> worker_inv sched v shard w'.
Proof. intros (_ & E1 & E2 & E3 & E4 & E5 & E6) H. unfold worker_inv in *. by rewrite <- E1, <- E2, <- E3, <- E4, <- E5, <- E6. Qed.

Lemma sets_inv_same s w w' :
  same_ids w w' -> sets_inv sched s (<[shard := w]> L0) -> sets_inv sched s (<[shard := w']> L0).
Proof using HL0.
  intros Hsame Hi. pose proof Hsame as (E1 & _ & E2 & _ & _ & E5 & _).
  pose proof (si_workers _ _ _ Hi) as Hw.
  apply map_Forall_insert in Hw as [Hw HL]; [|exact HL0].
  constructor; try apply Hi.
  - rewrite (si_hash _ _ _ Hi). apply hash_of_Permutation. rewrite !list_insert. cbn. by rewrite E1.
  - rewrite (si_initial _ _ _ Hi). rewrite !list_insert. cbn. by rewrite E2.
  - rewrite (si_indirect _ _ _ Hi), !omap_insert. by rewrite E5.
  - apply map_Forall_insert; [exact HL0|]. split; [|exact HL]. by eapply worker_inv_same.
Qed.

#[local] Program Instance SetsLaws : CobLaws WorkerSets sched shard := {
  live s w := sets_inv sched s (<[shard := w]> L0);
  dead s := sets_inv sched s L0;
  valid_id s id := 0 <= ws_version id <= cur_version s /\ cur_version s < 2 ^ 62;
  older s id := 0 <= ws_version id < cur_version s /\ cur_version s < 2 ^ 62;
  room s := 2 ^ 62 - 1 - cur_version s
}.
Next Obligation. intros s w w'. apply sets_inv_same. Qed.
Next Obligation.
  intros s w Hi. destruct (si_workers _ _ _ Hi shard w) as (_&_&_&H); [apply lookup_insert_eq|].
  destruct (firstAssociatedWorkerSetID_ w), (workerSetID_ w), (indirectWorkerSetID_ w); done.
Qed.
Next Obligation.
  intros s w id Hi Hc. destruct (si_workers _ _ _ Hi shard w) as (_&_&_&H); [apply lookup_insert_eq|].
  rewrite Hc in H. pose proof (si_current _ _ _ Hi) as [_ ?]. unfold cur_version.
  destruct (firstAssociatedWorkerSetID_ w), (indirectWorkerSetID_ w); try done.
  destruct H as (_ & [_ ?] & _). lia.
Qed.
Next Obligation.
  intros s w Hi Hs. destruct (si_workers _ _ _ Hi shard w) as (_&_&H&_); [apply lookup_insert_eq|].
  pose proof (si_current _ _ _ Hi) as [_ ?]. unfold cur_version. specialize (H Hs). lia.
Qed.
Next Obligation. intros s i [H1 H2]. split; [lia|done]. Qed.
Next Obligation. intros s a b [Ha Hv] [Hb _]. apply small_earlier; lia. Qed.
Next Obligation.
  intros s t bw id Hi Hr Hsh Hid. destruct (new_ok s t bw id) as (s' & E & Hi' & Ev); auto; [lia|by intros H; apply Hid|].
  exists s'. split_and!; try done; intros; lia.
Qed.
Next Obligation.
  intros s w Hi Hr _. destruct (dead_ok s w) as (s' & E & Hi' & Ev); auto; [lia|].
  exists s'. split_and!; try done; intros; lia.
Qed.
Next Obligation.
  intros s w id Hi _ _ [Hv _] Hs Hl. destruct (change_ok s w id) as (s' & ind & E & Hi' & Ev); auto; [by split|].
  exists s', ind. rewrite Ev. split_and!; try done; intros; lia.
Qed.

(** The callbacks' laws, as facts about heartbeats. *)
Definition sets_coherent (s : WorkerSets) (w : RemoteWorker) : Prop := coherent sched shard s w.
Definition sets_echo_ok (s : WorkerSets) (w : RemoteWorker) (id : WorkerSetID) : Prop :=
  echo_ok sched shard s w id.

Lemma sets_heartbeat flags s u w w_new id permits :
  sets_coherent s w -> sets_echo_ok s w id -> bw_shard w_new = shard ->
  bw_protocolVersion w_new = kProtocolVersion -> cur_version s + 3 < 2 ^ 62 ->
  exists s' u' w' r, processHeartbeat flags s u w w_new id permits = Ret (s', u', w', r) /\
    sets_coherent s' w' /\ cur_version s' <= cur_version s + 3 /\
    cur_version s <= cur_version s' /\
    (r <> None -> worker_ w' = w_new).
Proof using HL0.
  intros Hco He Hsh Hp Hr.
  destruct (processHeartbeat_ok flags sched shard s u w w_new id permits)
    as (s' & u' & w' & r & E & Hco' & (Hr' & _ & Ho') & Hcase); auto; [cbn; lia|].
  cbn in Hr'. exists s', u', w', r. split_and!; try done; [lia|lia|].
  destruct (rejected flags u w w_new permits); [by destruct Hcase as [-> _]|by destruct Hcase].
Qed.

Lemma sets_updateState flags s u w permits :
  sets_coherent s w -> cur_version s + 1 < 2 ^ 62 ->
  exists s' u' w', updateState flags s u w permits = Ret (s', u', w') /\
    sets_coherent s' w' /\ cur_version s' <= cur_version s + 1 /\
    cur_version s <= cur_version s' /\
    worker_ w' = worker_ w.
Proof using HL0.
  intros Hco Hr.
  destruct (updateState_coherent flags sched shard s u w permits)
    as (s' & u' & w' & E & Hco' & (Hr' & _ & Ho') & _ & Hw & _); auto; [cbn; lia|].
  cbn in Hr'. exists s', u', w'. split_and!; (done || lia).
Qed.

End Laws.

(** ** The invariant of the pool *)

(** The workers that are not MUST_DIE. *)
Definition live_map (pool : gmap string RemoteWorker) : gmap string RemoteWorker :=
  filter (fun p => getState p.2 <> MUST_DIE) pool.

Lemma live_map_lookup pool shard w :
  live_map pool !! shard = Some w <-> pool !! shard = Some w /\ getState w <> MUST_DIE.
Proof. apply map_lookup_filter_Some. Qed.

Lemma live_map_insert pool shard w :
  live_map (<[shard := w]> pool) =
    if decide (getState w = MUST_DIE) then delete shard (live_map pool)
    else <[shard := w]> (delete shard (live_map pool)).
Proof.
  unfold live_map. case_decide as Hd.
  - rewrite map_filter_insert_False by (cbn; naive_solver). apply map_filter_delete.
  - by rewrite map_filter_insert_True, insert_delete_eq.
Qed.

(** A pooled worker is filed under its shard; a lost one has no tasks and
    knows only superseded worker sets. *)
Definition pooled (sched : BistroInstanceID) (s : WorkerSets) (shard : string) (w : RemoteWorker)
    : Prop :=
  shard_of w = shard /\ schedulerID_ w = sched /\ tasks_ok w /\
  (getState w = MUST_DIE ->
     (forall id, workerSetID_ w = Some id -> 0 <= ws_version id < cur_version s) /\
     (ws_schedulerID (initialWorkerSetID_ w) = sched ->
        0 <= ws_version (initialWorkerSetID_ w) < cur_version s)).

Definition core_inv (sched : BistroInstanceID) (s : WorkerSets) (pool : gmap string RemoteWorker)
    : Prop :=
  sets_inv sched s (live_map pool) /\ map_Forall (pooled sched s) pool.

Lemma pooled_mono sched s s' shard w :
  cur_version s <= cur_version s' -> pooled sched s shard w -> pooled sched s' shard w.
Proof.
  intros Hv (H1 & H2 & H3 & H4). split_and!; [done|done|done|]. intros Hd.
  destruct (H4 Hd) as [H5 H6]. split; [intros id Hid; specialize (H5 id Hid)|intros Hs; specialize (H6 Hs)]; lia.
Qed.

Section Pool.
Context (sched : BistroInstanceID) (shard : string).

Abbreviation others pool := (delete shard (live_map pool)).
Abbreviation agrees pool := (sets_coherent sched shard (others pool) (lookup_delete_eq _ _)).

Lemma pool_agrees s pool w :
  core_inv sched s pool -> pool !! shard = Some w -> agrees pool s w.
Proof.
  intros [Hi Hp] Hw. destruct (Hp _ _ Hw) as (Hsh & Hsc & Htk & Hdead).
  split_and!; [done|done|done|]. cbn.
  assert (HL : live_map (<[shard := w]> pool) = live_map pool) by (by rewrite insert_id).
  rewrite live_map_insert in HL. pose proof (si_current _ _ _ Hi) as [_ Hc].
  case_decide as Hd; [|by rewrite HL]. split; [by rewrite HL|].
  destruct (Hdead Hd) as [H1 H2]. unfold cur_version in *.
  split; [intros id Hid; specialize (H1 id Hid)|intros Hs; specialize (H2 Hs)]; cbn; unfold cur_version; lia.
Qed.

Lemma agrees_pool s s' pool w' :
  core_inv sched s pool -> cur_version s <= cur_version s' -> agrees pool s' w' ->
  core_inv sched s' (<[shard := w']> pool).
Proof.
  intros [_ Hp] Hv (Hsh & Hsc & Htk & Hco). split.
  - rewrite live_map_insert. cbn in Hco. case_decide; [by destruct Hco|done].
  - apply map_Forall_insert_2; [|intros sh w Hw; eapply pooled_mono, Hp; done].
    split_and!; [done|done|done|]. intros Hd. rewrite decide_True in Hco by done.
    destruct Hco as (_ & H1 & H2). cbn in H1, H2.
    split; [intros id Hid; specialize (H1 id Hid)|intros Hs; specialize (H2 Hs)]; lia.
Qed.

(** A shard nobody is known for yet: a new worker can be made. *)
Lemma make_agrees s pool t bw id :
  core_inv sched s pool -> pool !! shard = None -> bw_shard bw = shard ->
  cur_version s < 2 ^ 62 - 1 ->
  (ws_schedulerID id = sched -> 0 <= ws_version id <= cur_version s) ->
  exists s' w, makeWorker s t bw id sched = Ret (s', w) /\ agrees pool s' w /\
    cur_version s' = cur_version s + 1 /\ w = freshWorker t bw id sched.
Proof.
  intros [Hi Hp] Hn Hsh Hv Hid. unfold makeWorker.
  assert (HL : others pool = live_map pool).
  { apply delete_id. destruct (live_map pool !! shard) eqn:E; [|done].
    apply live_map_lookup in E as [E _]. congruence. }
  destruct (new_ok sched shard (others pool) (lookup_delete_eq _ _) s t bw id)
    as (s' & E & Hi' & Ev); auto; [by rewrite HL|].
  cbn [newWorkerCob SetsCobs]. rewrite E. cbn [mbind outcome_bind].
  eexists _, _. split; [reflexivity|]. by split_and!.
Qed.

End Pool.

(** ** Consensus *)

Lemma indirect_length sched s L :
  sets_inv sched s L -> (length (indirectVersions_ s) <= length (initialWorkerSetIDs_ s))%nat.
Proof.
  intros Hi. rewrite (si_indirect _ _ _ Hi), (si_initial _ _ _ Hi), length_fmap.
  induction (map_to_list L) as [|p l IH]; [done|]. cbn. destruct (entry p); cbn; lia.
Qed.

Lemma numWorkers_length sched s L :
  sets_inv sched s L ->
  numWorkers (ws_hash (nonMustDieWorkerSetID_ s)) = Z.of_nat (length (initialWorkerSetIDs_ s)).
Proof.
  intros Hi. rewrite (si_hash _ _ _ Hi), hash_of_numWorkers, (si_initial _ _ _ Hi), !length_fmap. done.
Qed.

(** All workers have an entry if there are as many entries as workers. *)
Lemma all_entries (l : list (string * RemoteWorker)) :
  length (omap entry l) = length l -> Forall (fun p => is_Some (indirectWorkerSetID_ p.2)) l.
Proof.
  induction l as [|p l IH]; [constructor|]. cbn. unfold entry at 1.
  assert (Hle : (length (omap entry l) <= length l)%nat)
    by (clear; induction l as [|q l IH]; [done|]; cbn; destruct (entry q); cbn; lia).
  destruct (indirectWorkerSetID_ p.2) eqn:E; cbn; intros H; [|lia].
  constructor; [rewrite E; eauto|]. apply IH. lia.
Qed.

(** When the worker [w] may become healthy: it echoed the current worker set,
    and every worker that is not lost indirectly requires a set that is no
    older than the first one with [w]. *)
Definition consensus (s : WorkerSets) (L : gmap string RemoteWorker) (w : RemoteWorker) : Prop :=
  workerSetID_ w = Some (nonMustDieWorkerSetID_ s) /\
  exists first, firstAssociatedWorkerSetID_ w = Some first /\
    map_Forall (fun _ w' => exists id, indirectWorkerSetID_ w' = Some id /\
                  ws_version first <= ws_version id) L.

Lemma consensus_spec sched s pool shard w :
  core_inv sched s pool -> pool !! shard = Some w ->
  exists b, consensusPermitsBecomingHealthy s w = Ret b /\
    (b = true -> consensus s (live_map pool) w /\ getState w <> MUST_DIE).
Proof.
  intros [Hi Hp] Hw. unfold consensusPermitsBecomingHealthy.
  rewrite (numWorkers_length _ _ _ Hi), Z.eqb_refl. cbn [CHECK mbind outcome_bind].
  rewrite (proj2 (Nat.leb_le _ _) (indirect_length _ _ _ Hi)). cbn [CHECK mbind outcome_bind].
  destruct (workerSetID_ w) as [id|] eqn:Ec; [|by exists false].
  case_bool_decide as Hid; cbn [negb]; [subst id|by exists false].
  destruct (Z.eqb_spec (Z.of_nat (length (indirectVersions_ s)))
              (Z.of_nat (length (initialWorkerSetIDs_ s)))) as [Hn|]; cbn [negb]; [|by exists false].
  assert (Hnd : getState w <> MUST_DIE).
  { intros Hd. destruct (Hp _ _ Hw) as (_ & _ & _ & Ho). destruct (Ho Hd) as [Ho1 _].
    specialize (Ho1 _ Ec). unfold cur_version in Ho1. lia. }
  assert (HwL : live_map pool !! shard = Some w) by (by apply live_map_lookup).
  destruct (si_workers _ _ _ Hi _ _ HwL) as (_ & _ & _ & Hids). rewrite Ec in Hids.
  destruct (firstAssociatedWorkerSetID_ w) as [f|] eqn:Ef; [|by exists false].
  destruct (indirectWorkerSetID_ w) as [i|] eqn:Ei; [|done].
  destruct Hids as ([Hf1 Hf2] & _).
  pose proof (si_current _ _ _ Hi) as [_ Hcur]. pose proof (si_sorted _ _ _ Hi) as Hsort.
  pose proof (entries_small _ _ _ Hi) as Hsmall.
  destruct (indirectVersions_ s) as [|[v sh] rest] eqn:Eind.
  { pose proof (si_indirect _ _ _ Hi) as Hind. rewrite Eind in Hind.
    assert (Hin : (shard, w) ∈ map_to_list (live_map pool)) by (by apply elem_of_map_to_list).
    assert (He : (ws_version i, shard) ∈ omap entry (map_to_list (live_map pool))).
    { apply list_elem_of_omap. exists (shard, w). split; [done|]. unfold entry. cbn. by rewrite Ei. }
    rewrite <- Hind in He. by apply not_elem_of_nil in He. }
  inversion_clear Hsmall as [|? ? Hsm _]. unfold small in Hsm. cbn in Hsm.
  rewrite small_earlier by lia. cbn [mbind outcome_bind]. eexists. split; [reflexivity|].
  intros Hb. split; [|done]. split; [done|]. exists f. split; [done|].
  intros sh' w' Hw'.
  assert (Hall : Forall (fun p => is_Some (indirectWorkerSetID_ p.2)) (map_to_list (live_map pool))).
  { apply all_entries. rewrite <- (si_indirect _ _ _ Hi), Eind.
    pose proof (si_initial _ _ _ Hi) as Hini. apply Permutation_length in Hini.
    rewrite length_fmap in Hini. lia. }
  rewrite Forall_forall in Hall.
  assert (Hin' : (sh', w') ∈ map_to_list (live_map pool)) by (by apply elem_of_map_to_list).
  destruct (Hall _ Hin') as [i' Hi']. cbn in Hi'. exists i'. split; [done|].
  assert (He : (ws_version i', sh') ∈ (v, sh) :: rest).
  { rewrite <- Eind, (si_indirect _ _ _ Hi). apply list_elem_of_omap. exists (sh', w').
    split; [done|]. unfold entry. cbn. by rewrite Hi'. }
  assert (v <= ws_version i'); [|lia].
  apply elem_of_cons in He as [[= <- _]|He]; [lia|].
  inversion_clear Hsort as [|? ? _ Hmin]. rewrite Forall_forall in Hmin. exact (lexb_ver _ _ (Hmin _ He)).
Qed.

(** ** Host pools *)

Definition host_shards (rs : RemoteWorkers) (host : string) : list string :=
  match hostToWorkerPool_ rs !! host with Some p => hp_shards p | None => [] end.
Definition host_of (w : RemoteWorker) : string := hostname (bw_machineLock (worker_ w)).

(** Only the host pools differ. *)
Definition same_but_hosts (rs rs' : RemoteWorkers) : Prop :=
  rs' = set_hosts rs (hostToWorkerPool_ rs').

Lemma same_but_hosts_fields rs rs' :
  same_but_hosts rs rs' -> sets_ rs' = sets_ rs /\ workerPool_ rs' = workerPool_ rs.
Proof. unfold same_but_hosts. intros ->. done. Qed.

Lemma host_emplace_ok rs host shard :
  shard ∉ host_shards rs host ->
  exists rs', host_emplace rs host shard = Ret rs' /\ same_but_hosts rs rs' /\
    forall h s, s ∈ host_shards rs' h <-> s ∈ host_shards rs h \/ h = host /\ s = shard.
Proof.
  intros Hn. unfold host_emplace, mutableHostWorkerPool, host_shards in *.
  destruct (hostToWorkerPool_ rs !! host) as [p|] eqn:E.
  - rewrite bool_decide_false by done. cbn [negb CHECK mbind outcome_bind].
    eexists. split; [reflexivity|]. split; [done|]. intros h s. cbn. rewrite lookup_insert.
    case_decide as Hh; [subst h; rewrite E; cbn; set_solver|]. naive_solver.
  - rewrite bool_decide_false by done. cbn [negb CHECK mbind outcome_bind].
    eexists. split; [reflexivity|]. split; [done|]. intros h s. cbn. rewrite insert_insert_eq, lookup_insert.
    case_decide as Hh; [subst h; rewrite E; cbn; set_solver|]. naive_solver.
Qed.

Lemma host_erase_ok rs host shard :
  shard ∈ host_shards rs host ->
  exists rs', host_erase rs host shard = Ret rs' /\ same_but_hosts rs rs' /\
    forall h s, s ∈ host_shards rs' h <-> s ∈ host_shards rs h /\ ~ (h = host /\ s = shard).
Proof.
  intros Hin. unfold host_erase, mutableHostWorkerPool, host_shards in *.
  destruct (hostToWorkerPool_ rs !! host) as [p|] eqn:E; [|by apply not_elem_of_nil in Hin].
  rewrite bool_decide_true by done. cbn [CHECK mbind outcome_bind].
  eexists. split; [reflexivity|]. split; [done|]. intros h s. cbn. rewrite lookup_insert.
  case_decide as Hh; [subst h; rewrite E; cbn|naive_solver].
  rewrite list_elem_of_In, filter_In, <- list_elem_of_In.
  destruct (String.eqb_spec s shard); naive_solver.
Qed.

Record rws_inv (sched : BistroInstanceID) (rs : RemoteWorkers) : Prop := {
  ri_core : core_inv sched (sets_ rs) (workerPool_ rs);
  ri_hosts : forall host shard, shard ∈ host_shards rs host <->
    exists w, workerPool_ rs !! shard = Some w /\ host_of w = host
}.

(** A heartbeat that echoes this scheduler's worker sets: a version it handed
    out, the same set as before if the version is the same, and nothing new
    if the worker has been given up. *)
Definition heartbeat_ok (sched : BistroInstanceID) (rs : RemoteWorkers) (worker : BistroWorker)
    (id : WorkerSetID) : Prop :=
  ws_schedulerID id = sched ->
  0 <= ws_version id <= cur_version (sets_ rs) /\
  forall w, workerPool_ rs !! bw_shard worker = Some w ->
    (forall cur, workerSetID_ w = Some cur -> ws_version cur = ws_version id -> cur = id) /\
    (getState w = MUST_DIE -> exists cur, workerSetID_ w = Some cur /\
       ws_version id <= ws_version cur).

(** Moving the worker to its new host's pool. *)
Lemma move_host sched rs shard w0 w s :
  core_inv sched s (<[shard := w]> (workerPool_ rs)) ->
  (forall host sh, sh ∈ host_shards rs host <->
     exists w', workerPool_ rs !! sh = Some w' /\ host_of w' = host) ->
  workerPool_ rs !! shard = Some w0 ->
  let rs1 := set_sets rs s (<[shard := w]> (workerPool_ rs)) in
  exists rs', (if negb (String.eqb (host_of w) (host_of w0)) then
      let* rs2 := host_erase rs1 (host_of w0) shard in host_emplace rs2 (host_of w) shard
    else Ret rs1) = Ret rs' /\ rws_inv sched rs' /\ same_but_hosts rs1 rs'.
Proof.
  intros Hcore Hh Hw0 rs1.
  destruct (String.eqb_spec (host_of w) (host_of w0)) as [Heq|Hne]; cbn [negb].
  { exists rs1. split; [done|]. split; [|done]. constructor; [done|]. intros host sh.
    change (host_shards rs1 host) with (host_shards rs host). rewrite Hh. cbn.
    rewrite lookup_insert. case_decide; [subst sh|done]. naive_solver. }
  destruct (host_erase_ok rs1 (host_of w0) shard) as (rs2 & -> & Hs2 & H2);
    [apply Hh; eauto|]. cbn [mbind outcome_bind].
  destruct (host_emplace_ok rs2 (host_of w) shard) as (rs3 & -> & Hs3 & H3).
  { rewrite H2. intros [Hin _]. apply Hh in Hin as (w' & Hw' & Hhw). congruence. }
  exists rs3. unfold same_but_hosts in *. split; [done|]. split; [|by rewrite Hs3, Hs2].
  destruct (same_but_hosts_fields _ _ Hs2) as [E1 E2].
  destruct (same_but_hosts_fields _ _ Hs3) as [E3 E4].
  constructor; [by rewrite E3, E4, E1, E2|]. intros host sh. rewrite H3, H2, E4, E2.
  change (host_shards rs1 host) with (host_shards rs host). rewrite Hh. cbn.
  rewrite lookup_insert. case_decide as Hc; [subst sh|naive_solver].
  split; [|naive_solver]. intros [[(w' & Hw' & <-) Hx]|[-> _]]; [|eauto].
  exfalso. apply Hx. split; [congruence|done].
Qed.

(** The worker is found, or made and put in the pools. *)
Lemma find_or_make sched rs u worker id :
  rws_inv sched rs -> heartbeat_ok sched rs worker id -> cur_version (sets_ rs) + 4 < 2 ^ 62 ->
  exists rs1 w,
    match workerPool_ rs !! bw_shard worker with
    | Some w => Ret (rs, w)
    | None =>
        let* (s, w) := makeWorker (sets_ rs) (curTime_ u) worker id (rws_schedulerID (sets_ rs)) in
        let rs := set_sets rs s (<[bw_shard worker := w]> (workerPool_ rs)) in
        let* rs := host_emplace rs (hostname (bw_machineLock worker)) (bw_shard worker) in
        Ret (rs, w)
    end = Ret (rs1, w) /\
    rws_inv sched rs1 /\ heartbeat_ok sched rs1 worker id /\
    workerPool_ rs1 !! bw_shard worker = Some w /\
    cur_version (sets_ rs1) <= cur_version (sets_ rs) + 1 /\
    (forall sh, sh <> bw_shard worker -> workerPool_ rs1 !! sh = workerPool_ rs !! sh).
Proof.
  intros [Hcore Hh] Hok Hv. destruct (workerPool_ rs !! bw_shard worker) as [w|] eqn:Ew.
  { exists rs, w. split_and!; try done. lia. }
  destruct (make_agrees sched (bw_shard worker) (sets_ rs) (workerPool_ rs) (curTime_ u) worker id)
    as (s & w & E & Hag & Ev & Hw); auto; [lia|intros Hs; by apply Hok|].
  rewrite (si_sched _ _ _ (proj1 Hcore)), E. cbn [mbind outcome_bind].
  set (rs0 := set_sets rs s (<[bw_shard worker := w]> (workerPool_ rs))).
  destruct (host_emplace_ok rs0 (hostname (bw_machineLock worker)) (bw_shard worker))
    as (rs1 & -> & Hs1 & H1).
  { intros Hin. apply (Hh (hostname (bw_machineLock worker)) (bw_shard worker)) in Hin
      as (? & ? & _). congruence. }
  destruct (same_but_hosts_fields _ _ Hs1) as [E1 E2]. cbn [mbind outcome_bind].
  exists rs1, w. rewrite E2. split; [done|]. split_and!.
  - constructor.
    + rewrite E1, E2. eapply agrees_pool; [exact Hcore|cbn; lia|exact Hag].
    + intros host sh. rewrite H1, E2. change (host_shards rs0 host) with (host_shards rs host).
      rewrite Hh. cbn. rewrite lookup_insert. case_decide as Hc; [subst sh|naive_solver].
      rewrite Ew. subst w. naive_solver.
  - intros Hs. destruct (Hok Hs) as [Hv1 _]. rewrite E1, E2. cbn. split; [lia|].
    rewrite lookup_insert_eq. intros w' [= <-]. subst w. done.
  - apply lookup_insert_eq.
  - rewrite E1. cbn. lia.
  - intros sh Hne. cbn. by rewrite lookup_insert_ne.
Qed.

Lemma heartbeat_echo sched rs shard w worker id L0 HL0 :
  shard = bw_shard worker -> cur_version (sets_ rs) < 2 ^ 62 ->
  heartbeat_ok sched rs worker id -> workerPool_ rs !! shard = Some w ->
  sets_echo_ok sched shard L0 HL0 (sets_ rs) w id.
Proof.
  intros -> Hv Hok Hw Hs. destruct (Hok Hs) as [H1 H2]. destruct (H2 _ Hw) as [H3 H4].
  split_and!; [by split|done|done].
Qed.

Section Heartbeats.
Context (flags : Flags) (sched : BistroInstanceID).

Lemma rws_heartbeat_ok rs u worker id :
  rws_inv sched rs -> heartbeat_ok sched rs worker id ->
  bw_protocolVersion worker = kProtocolVersion -> cur_version (sets_ rs) + 4 < 2 ^ 62 ->
  exists rs' u' r w,
    rws_processHeartbeat flags rs u worker id = Ret (rs', u', r) /\
    rws_inv sched rs' /\ workerPool_ rs' !! bw_shard worker = Some w /\
    cur_version (sets_ rs') <= cur_version (sets_ rs) + 4 /\
    (forall sh, sh <> bw_shard worker -> workerPool_ rs' !! sh = workerPool_ rs !! sh) /\
    (forall resp, r = Some resp ->
       worker_ w = worker /\ hr_workerSetID resp = Some (nonMustDieWorkerSetID_ (sets_ rs'))).
Proof.
  intros Hinv Hok Hp Hv. unfold rws_processHeartbeat, enforceWorkerSchedulerProtocolVersion,
    checkWorkerSchedulerProtocolVersion. rewrite Hp, Z.eqb_refl. cbn [require mbind outcome_bind].
  destruct (find_or_make sched rs u worker id Hinv Hok Hv)
    as (rs1 & w & Efm & Hinv1 & Hok1 & Hw & Hv1 & Hoth).
  cbn [mbind outcome_bind] in Efm. rewrite Efm. cbn [mbind outcome_bind].
  destruct Hinv1 as [Hcore1 Hh1].
  destruct (consensus_spec sched (sets_ rs1) _ _ w Hcore1 Hw) as (b & -> & _).
  cbn [mbind outcome_bind].
  destruct (sets_heartbeat sched (bw_shard worker) _ (lookup_delete_eq (live_map (workerPool_ rs1)) _)
              flags (sets_ rs1) u w worker id b)
    as (s' & u' & w' & r & -> & Hag & Hv2 & Hv3 & Hr); auto; [| |lia|].
  { by apply pool_agrees. }
  { eapply heartbeat_echo; [done|lia|exact Hok1|done]. }
  cbn [mbind outcome_bind].
  destruct (move_host sched rs1 (bw_shard worker) w w' s') as (rs2 & E2 & Hinv2 & Hs2); auto.
  { eapply agrees_pool; [exact Hcore1|exact Hv3|exact Hag]. }
  unfold host_of in E2. rewrite E2. cbn [mbind outcome_bind].
  destruct (same_but_hosts_fields _ _ Hs2) as [E3 E4].
  eexists _, _, _, w'. split; [reflexivity|]. rewrite E4, E3. split_and!; [done| | | |].
  - apply lookup_insert_eq.
  - cbn. lia.
  - intros sh Hne. cbn. rewrite lookup_insert_ne by done. by apply Hoth.
  - intros resp Hresp. destruct r; [|done]. injection Hresp as <-. split; [by apply Hr|done].
Qed.

(** C2: As long as workers echo the worker sets they were given, and a worker
    that has been given up (it is MUST_DIE) echoes none that is newer than its
    last one, a heartbeat of the scheduler's protocol never trips one of the
    scheduler's checks, and leaves its
    records in agreement with its workers: the hash and count of the current
    set are those of the workers that are not MUST_DIE, the initial IDs and
    indirect versions are exactly theirs, and every worker is in the pool of
    its host.  Other workers are untouched, and a reply carries the current
    worker set, whose hash counts the replying worker's instance unless it has
    been given up.  The second condition is needed:
    [lost_worker_heartbeat_crashes] is a heartbeat that violates it. *)
Theorem pool_heartbeat rs u worker id :
  rws_inv sched rs -> heartbeat_ok sched rs worker id ->
  bw_protocolVersion worker = kProtocolVersion -> cur_version (sets_ rs) + 4 < 2 ^ 62 ->
  exists rs' u' r w,
    rws_processHeartbeat flags rs u worker id = Ret (rs', u', r) /\
    rws_inv sched rs' /\ workerPool_ rs' !! bw_shard worker = Some w /\
    (forall sh, sh <> bw_shard worker -> workerPool_ rs' !! sh = workerPool_ rs !! sh) /\
    (forall resp, r = Some resp -> exists set, hr_workerSetID resp = Some set /\
       ws_schedulerID set = sched /\ worker_ w = worker /\
       exists ids, ws_hash set = hash_of ids /\
         (getState w <> MUST_DIE -> bw_id worker ∈ ids)).
Proof.
  intros Hinv Hok Hp Hv.
  destruct (rws_heartbeat_ok rs u worker id Hinv Hok Hp Hv)
    as (rs' & u' & r & w & E & Hinv' & Hw & _ & Hoth & Hr).
  exists rs', u', r, w. split_and!; [done|done|done|done|]. intros resp Hresp.
  destruct (Hr resp Hresp) as [Hwk Hset]. eexists. split; [exact Hset|].
  destruct Hinv' as [[Hi _] _]. split; [apply (si_current _ _ _ Hi)|]. split; [done|].
  eexists. split; [apply (si_hash _ _ _ Hi)|]. intros Hnd.
  apply list_elem_of_fmap. exists (bw_shard worker, w). cbn. rewrite Hwk. split; [done|].
  apply elem_of_map_to_list, live_map_lookup. done.
Qed.

End Heartbeats.

Lemma newRemoteWorkers_inv t sched : rws_inv sched (newRemoteWorkers t sched).
Proof.
  constructor.
  - split; [|apply map_Forall_empty].
    unfold live_map. cbn [newRemoteWorkers workerPool_ sets_]. rewrite map_filter_empty.
    apply emptySets_inv.
  - intros host sh. unfold host_shards. cbn. rewrite lookup_empty. split.
    + intros H. by apply not_elem_of_nil in H.
    + intros (w & H & _). by rewrite lookup_empty in H.
Qed.

Definition sample_sched : BistroInstanceID := mkInstanceID 4 1.

Lemma pool_heartbeat_witness :
  exists rs' u' r w,
    rws_processHeartbeat defaultFlags (newRemoteWorkers 90 sample_sched) (newUpdate 100)
      (sample_bw 1 50) (sample_set 3 9) = Ret (rs', u', r) /\
    rws_inv sample_sched rs' /\ workerPool_ rs' !! "shard" = Some w.
Proof.
  destruct (pool_heartbeat defaultFlags sample_sched (newRemoteWorkers 90 sample_sched)
    (newUpdate 100) (sample_bw 1 50) (sample_set 3 9)) as (rs' & u' & r & w & H1 & H2 & H3 & _).
  - apply newRemoteWorkers_inv.
  - intros H. discriminate H.
  - reflexivity.
  - by vm_compute.
  - exists rs', u', r, w. split_and!; [exact H1|exact H2|exact H3].
Defined.

(** ** The scheduler's periodic update *)

Section Updates.
Context (flags : Flags) (sched : BistroInstanceID).

(** The body of the loop over the workers. *)
Abbreviation update_body := (fun acc p =>
    let '(s, u, pool) := acc in
    let* permits := consensusPermitsBecomingHealthy s p.2 in
    let* (s, u, w) := updateState flags s u p.2 permits in
    Ret (s, u, <[p.1 := w]> pool)).

Lemma update_loop l s u pool :
  core_inv sched s pool -> NoDup l.*1 -> (forall k w, (k, w) ∈ l -> pool !! k = Some w) ->
  cur_version s + Z.of_nat (length l) < 2 ^ 62 ->
  exists s' u' pool', foldM update_body (s, u, pool) l = Ret (s', u', pool') /\
    core_inv sched s' pool' /\ worker_ <$> pool' = worker_ <$> pool.
Proof.
  revert s u pool; induction l as [|[k w] l IH]; intros s u pool Hcore Hnd Hl Hv.
  { by exists s, u, pool. }
  assert (Hw : pool !! k = Some w) by (apply Hl; by left).
  cbn [foldM fst snd].
  destruct (consensus_spec sched s pool k w Hcore Hw) as (b & -> & _). cbn [mbind outcome_bind].
  cbn [length] in Hv.
  destruct (sets_updateState sched k _ (lookup_delete_eq (live_map pool) k) flags s u w b)
    as (s1 & u1 & w1 & -> & Hag & Hv1 & Hv2 & Hw1); [by apply pool_agrees|lia|].
  cbn [mbind outcome_bind]. cbn in Hnd. apply NoDup_cons in Hnd as [Hk Hnd].
  destruct (IH s1 u1 (<[k := w1]> pool)) as (s' & u' & pool' & E & Hc & Hm); [|done| |lia|].
  - eapply agrees_pool; [exact Hcore|done|exact Hag].
  - intros k' w' Hin. rewrite lookup_insert_ne; [apply Hl; by right|].
    intros <-. apply Hk. apply list_elem_of_fmap. by exists (k, w').
  - exists s', u', pool'. split_and!; [done|done|]. rewrite Hm, fmap_insert, Hw1.
    apply insert_id. by rewrite lookup_fmap, Hw.
Qed.

(** C13: The loop over all workers that updates their states trips no
    check and keeps the scheduler's records in agreement with its workers,
    however many of them are lost on the way; it changes nobody's identity. *)
Theorem pool_update s u pool :
  core_inv sched s pool -> cur_version s + Z.of_nat (size pool) < 2 ^ 62 ->
  exists s' u' pool', update_workers flags s u pool = Ret (s', u', pool') /\
    core_inv sched s' pool' /\ worker_ <$> pool' = worker_ <$> pool.
Proof.
  intros Hcore Hv. unfold update_workers. apply update_loop; auto.
  - apply NoDup_fst_map_to_list.
  - intros k w. apply elem_of_map_to_list.
  - by rewrite length_map_to_list.
Qed.

End Updates.

(** C1: [consensusPermitsBecomingHealthy] never trips its checks nor reads
    an empty set, and it permits a worker to become healthy only if the
    worker has echoed the current worker set and every worker that is not
    lost has a worker set that (indirectly) requires it: its indirect set is
    no older than the first set the worker was in. *)
Theorem consensus_safe sched s pool shard w :
  core_inv sched s pool -> pool !! shard = Some w ->
  exists b, consensusPermitsBecomingHealthy s w = Ret b /\
    (b = true -> consensus s (live_map pool) w /\ getState w <> MUST_DIE).
Proof. apply consensus_spec. Qed.

(** Three heartbeats: two workers connect, and the first echoes. *)
Definition sample_beats (u : RemoteWorkerUpdate) (rs : RemoteWorkers)
    (beats : list (BistroWorker * WorkerSetID)) : outcome RemoteWorkers :=
  foldM (fun rs p => let* (rs, _, _) := rws_processHeartbeat defaultFlags rs u p.1 p.2 in Ret rs)
    rs beats.

Definition sample_hash : WorkerSetHash := hash_of [mkInstanceID 50 7].

(** One worker that has connected and echoed the set with itself. *)
Definition sample_pool : outcome RemoteWorkers :=
  sample_beats (newUpdate 100) (newRemoteWorkers 90 sample_sched)
    [(sample_bw 1 50, sample_set 3 9);
     (sample_bw 1 50, mkWorkerSetID sample_sched 1 sample_hash)].

Lemma sample_beat rs u worker id :
  rws_inv sample_sched rs -> heartbeat_ok sample_sched rs worker id ->
  bw_protocolVersion worker = kProtocolVersion -> cur_version (sets_ rs) + 4 < 2 ^ 62 ->
  exists rs', sample_beats u rs [(worker, id)] = Ret rs' /\ rws_inv sample_sched rs'.
Proof.
  intros H1 H2 H3 H4.
  destruct (rws_heartbeat_ok defaultFlags sample_sched rs u worker id H1 H2 H3 H4)
    as (rs' & u' & r & w & E & Hi & _). unfold sample_beats. cbn [foldM fst snd].
  rewrite E. eexists. by split.
Qed.

Lemma sample_pool_inv : exists rs, sample_pool = Ret rs /\ rws_inv sample_sched rs.
Proof.
  destruct (sample_beat (newRemoteWorkers 90 sample_sched) (newUpdate 100) (sample_bw 1 50)
    (sample_set 3 9)) as (rs1 & E1 & H1); [apply newRemoteWorkers_inv|discriminate|done|by vm_compute|].
  assert (Hp : match sample_beats (newUpdate 100) (newRemoteWorkers 90 sample_sched)
                       [(sample_bw 1 50, sample_set 3 9)] with
    | Ret rs => (cur_version (sets_ rs) =? 1) &&
        match workerPool_ rs !! "shard" with
        | Some w => bool_decide (workerSetID_ w = None) && bool_decide (getState w = NEW)
        | None => false
        end
    | _ => false end = true) by (vm_compute; reflexivity).
  rewrite E1 in Hp. bprop.
  destruct (sample_beat rs1 (newUpdate 100) (sample_bw 1 50)
    (mkWorkerSetID sample_sched 1 sample_hash)) as (rs2 & E2 & H2); [done| |done|lia|].
  - intros _. split; [cbn; lia|]. intros w Hw. change (bw_shard (sample_bw 1 50)) with "shard" in Hw.
    rewrite Hw in *. bprop. split; congruence.
  - exists rs2. split; [|done]. unfold sample_pool, sample_beats in *.
    change (foldM ?f ?b [?x; ?y]) with (let* b' := foldM f b [x] in foldM f b' [y]).
    rewrite E1. exact E2.
Qed.

Definition sample_permits (rs : RemoteWorkers) : bool :=
  match workerPool_ rs !! "shard" with
  | Some w => match consensusPermitsBecomingHealthy (sets_ rs) w with Ret b => b | _ => false end
  | None => false
  end.

Lemma consensus_safe_witness :
  exists rs w, sample_pool = Ret rs /\ workerPool_ rs !! "shard" = Some w /\
    consensusPermitsBecomingHealthy (sets_ rs) w = Ret true /\
    consensus (sets_ rs) (live_map (workerPool_ rs)) w.
Proof.
  destruct sample_pool_inv as (rs & E & [Hc _]).
  assert (Hp : match sample_pool with Ret rs => sample_permits rs | _ => false end = true)
    by (vm_compute; reflexivity).
  rewrite E in Hp. unfold sample_permits in Hp.
  destruct (workerPool_ rs !! "shard") as [w|] eqn:Hw; [|discriminate Hp].
  destruct (consensus_safe sample_sched (sets_ rs) (workerPool_ rs) "shard" w Hc Hw)
    as (b & Hb & H). rewrite Hb in Hp. subst b.
  exists rs, w. split_and!; [exact E|exact Hw|exact Hb|]. apply H. reflexivity.
Defined.

Lemma pool_update_witness :
  exists rs s' u' pool', sample_pool = Ret rs /\
    update_workers defaultFlags (sets_ rs) (newUpdate 110) (workerPool_ rs) = Ret (s', u', pool') /\
    core_inv sample_sched s' pool'.
Proof.
  destruct sample_pool_inv as (rs & E & [Hc _]).
  destruct (pool_update defaultFlags sample_sched (sets_ rs) (newUpdate 110) (workerPool_ rs) Hc)
    as (s' & u' & pool' & H1 & H2 & _).
  - assert (Hp : match sample_pool with
      | Ret rs => cur_version (sets_ rs) + Z.of_nat (size (workerPool_ rs)) <? 2 ^ 62
      | _ => false end = true) by (vm_compute; reflexivity).
    rewrite E in Hp. by apply Z.ltb_lt.
  - exists rs, s', u', pool'. split_and!; [exact E|exact H1|exact H2].
Defined.

(** ** Leaving the initial wait *)

Lemma initial_consensus_spec sched s L :
  sets_inv sched s L ->
  match initial_consensus s with
  | Ret b => b = true -> exists id, map_Forall (fun _ w => initialWorkerSetID_ w = id) L /\
      ws_hash id = hash_of ((fun p => bw_id (worker_ p.2)) <$> map_to_list L)
  | Undef _ => L = ∅
  | _ => False
  end.
Proof.
  intros Hi. unfold initial_consensus. pose proof (si_initial _ _ _ Hi) as Hini.
  destruct (initialWorkerSetIDs_ s) as [|id l].
  - apply Permutation_nil in Hini. apply fmap_nil_inv in Hini. by apply map_to_list_empty_iff.
  - intros [Hall Hh]%andb_true_iff. bprop. exists id. split.
    + intros sh w Hw. assert (Hin : initialWorkerSetID_ w ∈ id :: l).
      { rewrite Hini. apply list_elem_of_fmap. exists (sh, w). split; [done|].
        by apply elem_of_map_to_list. }
      apply elem_of_cons in Hin as [->|Hin]; [done|]. rewrite forallb_forall in Hall.
      apply list_elem_of_In in Hin. by apply Hall, bool_decide_eq_true_1 in Hin.
    + rewrite <- Hh. apply (si_hash _ _ _ Hi).
Qed.

(** The scheduler leaves the initial wait only when no worker's running
    tasks are still to be fetched and either the wait has expired or all
    workers that are not lost report the same previous worker set, with
    exactly their hash.  The message is empty exactly when it is out of the
    wait.  With no such worker, however, the first element of an empty
    multiset is read. *)
Theorem initial_wait_safe flags warnings sched rs u :
  rws_inv sched rs ->
  match updateInitialWait flags warnings rs u with
  | Ret (rs', u') =>
      sets_ rs' = sets_ rs /\ workerPool_ rs' = workerPool_ rs /\
      (inInitialWait_ rs' = false <-> initialWaitMessage_ u' = "") /\
      (inInitialWait_ rs = true -> inInitialWait_ rs' = false ->
         newWorkers_ u = ∅ /\
         (startTime_ rs <= min_start_time flags (curTime_ u) \/
          exists id, map_Forall (fun _ w => initialWorkerSetID_ w = id) (live_map (workerPool_ rs)) /\
            ws_hash id = hash_of ((fun p => bw_id (worker_ p.2)) <$>
                                    map_to_list (live_map (workerPool_ rs)))))
  | Undef _ => inInitialWait_ rs = true /\ live_map (workerPool_ rs) = ∅
  | _ => False
  end.
Proof.
  intros [[Hi _] _]. unfold updateInitialWait.
  destruct (inInitialWait_ rs) eqn:Ew; cbn [negb]; [|by rewrite Ew].
  pose proof (initial_consensus_spec _ _ _ Hi) as Hc.
  destruct (initial_consensus (sets_ rs)) as [b| | |]; [|done|done|done]. cbn [mbind outcome_bind].
  assert (Hmsg : forall a c s, (String.append a (String c s)) <> "") by (by intros [|]).
  destruct ((min_start_time flags (curTime_ u) <? startTime_ rs) && negb b) eqn:Et.
  { rewrite Ew. split_and!; try done. split; [done|]. cbn. intros H. by apply Hmsg in H. }
  case_bool_decide as Hn; cbn [negb].
  - split_and!; try done. intros _ _. split; [done|].
    destruct b; [right; by apply Hc|]. rewrite andb_true_r in Et. bprop. left. lia.
  - rewrite Ew. split_and!; try done. split; [done|]. cbn. intros H. by apply Hmsg in H.
Qed.

Lemma initial_wait_safe_witness :
  inInitialWait_ (newRemoteWorkers 90 sample_sched) = true /\
  exists msg, updateInitialWait defaultFlags "" (newRemoteWorkers 90 sample_sched) (newUpdate 100)
    = Undef msg /\ live_map (workerPool_ (newRemoteWorkers 90 sample_sched)) = ∅.
Proof.
  pose proof (initial_wait_safe defaultFlags "" sample_sched (newRemoteWorkers 90 sample_sched)
    (newUpdate 100) (newRemoteWorkers_inv 90 sample_sched)) as H.
  destruct (updateInitialWait defaultFlags "" (newRemoteWorkers 90 sample_sched) (newUpdate 100))
    as [[? ?]|m|m|m] eqn:E; try discriminate E.
  split; [reflexivity|]. exists m. split; [reflexivity|apply H].
Defined.

(** ** A lost worker that is not dead yet *)

Definition sample_bw_b : BistroWorker :=
  mkBistroWorker "shard_b" (mkMachinePortLock "host_b" 1) (mkServiceAddress "host_b" 1)
    (mkInstanceID 55 8) 15 kProtocolVersion noUsableResources.

(** Worker [shard] connects and echoes the first worker set.  Much later
    [shard_b] connects; [shard] sends one more heartbeat and is told of the
    second worker set.  Then the scheduler gives [shard] up, because its
    running tasks could not be fetched in time. *)
Definition lost_worker_story : outcome (option WorkerSetID * RemoteWorkers) :=
  let* rs := sample_pool in
  let u := newUpdate 590 in
  let* (rs, u, _) := rws_processHeartbeat defaultFlags rs u sample_bw_b (sample_set 3 9) in
  let* (rs, u, r) := rws_processHeartbeat defaultFlags rs u (sample_bw 1 50)
                       (mkWorkerSetID sample_sched 1 sample_hash) in
  let* (rs, _) := rws_updateState defaultFlags "" rs (newUpdate 610) in
  Ret (r ≫= hr_workerSetID, rs).

(** The next heartbeat of a worker that was given up after it had been
    told of a newer worker set stops the scheduler: [deadWorkerCob_] has
    already deleted the worker's indirect version, and the echoed set makes
    the scheduler delete it again. *)
Theorem lost_worker_heartbeat_crashes :
  exists id rs w msg,
    lost_worker_story = Ret (Some id, rs) /\
    workerPool_ rs !! "shard" = Some w /\ getState w = MUST_DIE /\
    rws_processHeartbeat defaultFlags rs (newUpdate 615) (sample_bw 1 50) id = Crash msg.
Proof.
  assert (H : match lost_worker_story with
    | Ret (Some id, rs) =>
        match workerPool_ rs !! "shard",
              rws_processHeartbeat defaultFlags rs (newUpdate 615) (sample_bw 1 50) id with
        | Some w, Crash _ => bool_decide (getState w = MUST_DIE)
        | _, _ => false
        end
    | _ => false end = true) by (vm_compute; reflexivity).
  destruct lost_worker_story as [[[id|] rs]| | |]; try discriminate H.
  destruct (workerPool_ rs !! "shard") as [w|] eqn:Ew; [|discriminate H].
  destruct (rws_processHeartbeat _ rs _ _ _) as [| |msg|] eqn:E; try discriminate H.
  bprop. by exists id, rs, w, msg.
Qed.

(** ** Round robin *)

(** [n] calls of [getNextWorker] on a pool that does not change. *)
Fixpoint take_turns (n : nat) (shards : list string) (next : string) : list string * string :=
  match n with
  | O => ([], next)
  | S n' =>
      match getNextWorker shards next with
      | None => ([], next)
      | Some (w, next') => let '(l, next'') := take_turns n' shards next' in (w :: l, next'')
      end
  end.

Lemma successor_split first x l1 l2 :
  x ∉ l1 -> successor first x (l1 ++ x :: l2) = default first (head l2).
Proof.
  induction l1 as [|y l1 IH]; intros Hx; cbn.
  - rewrite String.eqb_refl. by destruct l2.
  - apply not_elem_of_cons in Hx as [Hne Hx].
    rewrite (proj2 (String.eqb_neq y x)) by congruence. by apply IH.
Qed.

(** Turns along a segment of the pool. *)
Lemma take_turns_segment shards first l1 l2 l3 m :
  NoDup shards -> shards = l1 ++ l2 ++ l3 -> head shards = Some first ->
  take_turns (length l2 + m) shards (default first (head (l2 ++ l3))) =
    let '(l, next) := take_turns m shards (default first (head l3)) in (l2 ++ l, next).
Proof.
  revert l1; induction l2 as [|x l2 IH]; intros l1 Hnd Hs Hf; cbn [length Nat.add app].
  { by destruct (take_turns m shards (default first (head l3))). }
  cbn [head default from_option take_turns]. unfold getNextWorker.
  destruct shards as [|f rest] eqn:Esh; [done|]. injection Hf as <-. rewrite <- Esh in *.
  assert (Hin : x ∈ shards) by (rewrite Hs; set_solver).
  rewrite bool_decide_true by done. rewrite Hs at 2. cbn [app]. rewrite successor_split.
  2: { rewrite Hs in Hnd. apply NoDup_app in Hnd as (_ & Hd & _). intros Hx.
       by apply (Hd x Hx), list_elem_of_here. }
  rewrite (IH (l1 ++ [x])); [|done|by rewrite <- app_assoc|by rewrite Esh].
  by destruct (take_turns m shards (default f (head l3))).
Qed.

(** Round robin is fair: wherever the iterator stands, as many calls
    as the pool has workers pick each worker exactly once, and leave the
    iterator where they started, so the next round goes the same way. *)
Theorem round_robin_fair shards next :
  NoDup shards -> next ∈ shards ->
  (take_turns (length shards) shards next).1 ≡ₚ shards /\
  (take_turns (length shards) shards next).2 = next.
Proof.
  intros Hnd Hin. apply list_elem_of_split in Hin as (l1 & l2 & Hs).
  destruct (head shards) as [first|] eqn:Hf; [|by destruct shards, l1].
  assert (Hlen : length shards = (length (next :: l2) + (length l1 + 0))%nat)
    by (rewrite Hs, length_app; lia).
  pose proof (take_turns_segment shards first l1 (next :: l2) [] (length l1 + 0) Hnd) as H2.
  pose proof (take_turns_segment shards first [] l1 (next :: l2) 0 Hnd Hs Hf) as H1.
  rewrite <- Hs, Hf in H1. cbn [default from_option take_turns id head] in H1.
  rewrite app_nil_r in H2. cbn [head default from_option id] in H2. rewrite H1 in H2.
  rewrite Hlen, H2 by done. cbn [fst snd head app default from_option id]. split; [|done].
  rewrite Hs, app_nil_r. apply (Permutation_app_comm (next :: l2) l1).
Qed.

Lemma round_robin_fair_witness :
  (take_turns 3 ["a"; "b"; "c"] "b").1 ≡ₚ ["a"; "b"; "c"].
Proof.
  apply (round_robin_fair ["a"; "b"; "c"] "b"); [|set_solver].
  apply (bool_decide_unpack _). reflexivity.
Defined.
