(* ===== verification/Scheduling.v ===== *)
(** [config/Node.{h,cpp}] (the node tree), [scheduler/utils.cpp]
    ([try_to_schedule]) and the scheduling policies
    [scheduler/{RoundRobin,RankedPriority,LongTail,RandomizedPriority}SchedulerPolicy.cpp].

    Resource amounts are [int]s, and a subtraction that overflows is
    undefined.  A job's [nodes] vector is a list
    with its back first, since the policies only pop from the back.  The
    state of a run records, besides what the code keeps, the tasks that were
    tried and how that ended, in order. *)

From stdpp Require Import base gmap strings list sorting.
From Stdlib Require Import ZArith QArith Lia Permutation.
From S2P Require Import Prelude.

#[local] Open Scope Z_scope.
#[local] Set Warnings "-register-all".

(** ** Nodes *)

(** [Node]: the parent pointers of the nodes form trees. *)
Inductive Node := mkNode {
  node_id : nat;
  node_name : string;
  node_level : nat;
  node_enabled : bool;
  node_parent : option Node;
  node_tags : list string;
  node_offset : nat
}.

(** [traverseUp]: the node, its parent and so on up to the root. *)
Fixpoint traverseUp (n : Node) : list Node :=
  n :: match n with
       | mkNode _ _ _ _ (Some p) _ _ => traverseUp p
       | _ => []
       end.

(** [getPathToNode]: the names from the root down. *)
Fixpoint getPathToNode (n : Node) : list string :=
  match n with
  | mkNode _ name _ _ None _ _ => [name]
  | mkNode _ name _ _ (Some p) _ _ => getPathToNode p ++ [name]
  end.

(** [hasTags]. *)
Definition hasTags (n : Node) (tags : list string) : bool :=
  existsb (fun t => bool_decide (t ∈ node_tags n)) tags.

(** ** Resources *)

(** [NodeGroupToPackedResources]: for each level the packed amounts. *)
Abbreviation Packed := (gmap nat (list Z)).

(** A cell of the packed resources: level and index. *)
Definition amount (res : Packed) (c : nat * nat) : option Z :=
  match res !! c.1 with Some v => v !! c.2 | None => None end.

(** [TaskRunnerResponse]. *)
Inductive TaskRunnerResponse := RanTask | DidNotRunTask | DoNotRunMoreTasks.
#[global] Instance TaskRunnerResponse_eq_dec : EqDecision TaskRunnerResponse.
Proof. solve_decision. Defined.

(** The inner loop of [try_to_schedule]'s check: a job's needs at one node,
    cell by cell; [None] if one of them is not met. *)
Fixpoint check_cells (v : list Z) (lvl idx : nat) (job : list Z)
    : outcome (option (list ((nat * nat) * Z))) :=
  match job with
  | [] => Ret (Some [])
  | need :: job' =>
      match v !! idx with
      | None => Undef "packed resources out of range"
      | Some have =>
          if have <? need then Ret None
          else let* r := check_cells v lvl (S idx) job' in
               Ret (cons ((lvl, idx), need) <$> r)
      end
  end.

(** The loop over the node and its ancestors. *)
Fixpoint check_nodes (res : Packed) (needs : gmap nat (list Z)) (path : list Node)
    : outcome (option (list ((nat * nat) * Z))) :=
  match path with
  | [] => Ret (Some [])
  | n :: path' =>
      match needs !! node_level n with
      | None => Throw "nodeGroupResources().at(level)"
      | Some job =>
          match res !! node_level n with
          | None => Undef "nodes_"
          | Some v =>
              CHECK (node_offset n + length job <=? length v)%nat "CHECK_GE(nodes_->size())" ;;;
              let* r := check_cells v (node_level n) (node_offset n) job in
              match r with
              | None => Ret None
              | Some l =>
                  let* r' := check_nodes res needs path' in
                  Ret ((fun l' => l ++ l') <$> r')
              end
          end
      end
  end.

(** [*p.first -= p.second] for one update. *)
Definition subtract_one (res : Packed) (p : (nat * nat) * Z) : outcome Packed :=
  match amount res p.1 with
  | None => Undef "updates"
  | Some have =>
      CHECK (p.2 <=? have) "CHECK_GE(*p.first, p.second)" ;;;
      let* rest := sub32 have p.2 in
      Ret (alter (fun v => <[p.1.2 := rest]> v) p.1.1 res)
  end.

Section Policies.

(** Jobs with their priority (a finite double is a rational), and the state
    the task runner's callback acts on. *)
Context {Job E : Type} (priority : Job -> Q).
Context (cb : E -> Job -> Node -> outcome (E * TaskRunnerResponse)).

Record JobWithNodes := mkJobWithNodes {
  jwn_job : Job;
  jwn_needs : gmap nat (list Z);  (* the job_ of nodeGroupResources() *)
  jwn_nodes : list Node           (* back first *)
}.

(** A task to try: a job, its needs, and a node. *)
Definition task : Type := Job * gmap nat (list Z) * Node.

Record SchedState := mkSchedState {
  packed : Packed;
  env : E;
  scheduled_tasks : Z;
  tried : list (task * TaskRunnerResponse)
}.

(** [try_to_schedule]. *)
Definition try_to_schedule (res : Packed) (e : E) (task_node : Node) (job : Job)
    (needs : gmap nat (list Z)) : outcome (Packed * E * TaskRunnerResponse) :=
  let* updates := check_nodes res needs (traverseUp task_node) in
  match updates with
  | None => Ret (res, e, DidNotRunTask)
  | Some updates =>
      let* (e, ret) := cb e job task_node in
      match ret with
      | RanTask => let* res := foldM subtract_one res updates in Ret (res, e, RanTask)
      | _ => Ret (res, e, ret)
      end
  end.

(** One try, with its record; [++scheduled_tasks] if the task ran. *)
Definition try_one (st : SchedState) (j : JobWithNodes) (n : Node)
    : outcome (SchedState * TaskRunnerResponse) :=
  let* (res, e, r) := try_to_schedule (packed st) (env st) n (jwn_job j) (jwn_needs j) in
  Ret (mkSchedState res e
         (if bool_decide (r = RanTask) then scheduled_tasks st + 1 else scheduled_tasks st)
         (tried st ++ [((jwn_job j, jwn_needs j, n), r)]), r).

(** The inner [while (!nodes.empty())].  [one] tells whether it breaks once a
    task ran; the last component whether the policy returns at once. *)
Fixpoint job_loop (one : bool) (st : SchedState) (j : JobWithNodes) (nodes : list Node)
    : outcome (SchedState * list Node * bool) :=
  match nodes with
  | [] => Ret (st, [], false)
  | n :: rest =>
      let* (st, r) := try_one st j n in
      match r with
      | RanTask => if one then Ret (st, rest, false) else job_loop one st j rest
      | DoNotRunMoreTasks => Ret (st, rest, true)
      | DidNotRunTask => job_loop one st j rest
      end
  end.

Definition set_nodes (j : JobWithNodes) (nodes : list Node) : JobWithNodes :=
  mkJobWithNodes (jwn_job j) (jwn_needs j) nodes.

(** One pass [for (job_it = jobs.begin(); ...)]: jobs without nodes are
    erased. *)
Fixpoint pass (one : bool) (st : SchedState) (jobs : list JobWithNodes)
    : outcome (SchedState * list JobWithNodes * bool) :=
  match jobs with
  | [] => Ret (st, [], false)
  | j :: js =>
      match jwn_nodes j with
      | [] => pass one st js
      | nodes =>
          let* (st, rest, stop) := job_loop one st j nodes in
          if (stop : bool) then Ret (st, set_nodes j rest :: js, true)
          else let* (st, js, stop) := pass one st js in
               Ret (st, set_nodes j rest :: js, stop)
      end
  end.

(** What is left to do, which bounds the iterations of the outer loops. *)
Definition work (jobs : list JobWithNodes) : nat :=
  sum_list_with (fun j => S (length (jwn_nodes j))) jobs.

(** [RoundRobinSchedulerPolicy::schedule]. *)
Fixpoint round_robin_loop (fuel : nat) (st : SchedState) (jobs : list JobWithNodes)
    : outcome (SchedState * list JobWithNodes * bool) :=
  match jobs, fuel with
  | [], _ => Ret (st, [], false)
  | _, O => Undef "fuel"
  | _, S fuel =>
      let* (st, jobs, stop) := pass true st jobs in
      if (stop : bool) then Ret (st, jobs, true) else round_robin_loop fuel st jobs
  end.
Definition round_robin (st : SchedState) (jobs : list JobWithNodes) :=
  round_robin_loop (work jobs) st jobs.

(** [std::sort] with a comparison. *)
Context (sort : (JobWithNodes -> JobWithNodes -> bool) -> list JobWithNodes -> list JobWithNodes).

Definition Qltb (a b : Q) : bool := match Qcompare a b with Lt => true | _ => false end.
Definition higher_priority (a b : JobWithNodes) : bool :=
  Qltb (priority (jwn_job b)) (priority (jwn_job a)).
Definition fewer_nodes (a b : JobWithNodes) : bool :=
  (length (jwn_nodes a) <? length (jwn_nodes b))%nat.

(** [RankedPrioritySchedulerPolicy::schedule], [LongTailSchedulerPolicy::schedule]. *)
Definition ranked_priority (st : SchedState) (jobs : list JobWithNodes) :=
  pass false st (sort higher_priority jobs).
Definition long_tail (st : SchedState) (jobs : list JobWithNodes) :=
  pass false st (sort fewer_nodes jobs).

(** The draws of [JobPicker]: the [k]-th, given the priorities. *)
Context (pick : nat -> list Q -> nat).

(** [RandomizedPrioritySchedulerPolicy::schedule]. *)
Fixpoint randomized_loop (fuel k : nat) (st : SchedState) (jobs : list JobWithNodes)
    : outcome (SchedState * list JobWithNodes * bool) :=
  match jobs, fuel with
  | [], _ => Ret (st, [], false)
  | _, O => Undef "fuel"
  | _, S fuel =>
      let job_idx := pick k (map (fun j => priority (jwn_job j)) jobs) in
      match jobs !! job_idx with
      | None => Undef "jobs[job_idx]"
      | Some j =>
          match jwn_nodes j with
          | [] => randomized_loop fuel (S k) st (delete job_idx jobs)
          | nodes =>
              let* (st, rest, stop) := job_loop true st j nodes in
              let jobs := <[job_idx := set_nodes j rest]> jobs in
              if (stop : bool) then Ret (st, jobs, true)
              else randomized_loop fuel (S k) st jobs
          end
      end
  end.
Definition randomized_priority (st : SchedState) (jobs : list JobWithNodes) :=
  randomized_loop (work jobs) 0 st jobs.

End Policies.

(** ** What a task needs *)

(** The cells a job uses at one node. *)
Fixpoint cells_at (lvl idx : nat) (job : list Z) : list ((nat * nat) * Z) :=
  match job with
  | [] => []
  | need :: job' => ((lvl, idx), need) :: cells_at lvl (S idx) job'
  end.

(** The cells a job uses along a path of nodes. *)
Definition demands (needs : gmap nat (list Z)) (path : list Node) : list ((nat * nat) * Z) :=
  concat (map (fun n => cells_at (node_level n) (node_offset n)
                          (default [] (needs !! node_level n))) path).

(** How much of a cell is used. *)
Definition used (l : list ((nat * nat) * Z)) (c : nat * nat) : Z :=
  foldr (fun p s => (if decide (p.1 = c) then p.2 else 0) + s) 0 l.

Lemma used_app l l' c : used (l ++ l') c = used l c + used l' c.
Proof. induction l as [|p l IH]; simpl; [lia|]. rewrite IH. lia. Qed.

(** The path's cells exist. *)
Definition path_wf (res : Packed) (needs : gmap nat (list Z)) (path : list Node) : Prop :=
  Forall (fun n => exists job v, needs !! node_level n = Some job /\
            res !! node_level n = Some v /\ (node_offset n + length job <= length v)%nat) path.

(** Are all the demands met? *)
Definition met (res : Packed) (l : list ((nat * nat) * Z)) : bool :=
  forallb (fun p => match amount res p.1 with Some have => p.2 <=? have | None => false end) l.

Lemma check_cells_spec res v lvl idx job :
  res !! lvl = Some v -> (idx + length job <= length v)%nat ->
  check_cells v lvl idx job =
    Ret (if met res (cells_at lvl idx job) then Some (cells_at lvl idx job) else None).
Proof.
  intros Hv. revert idx; induction job as [|need job IH]; intros idx Hl; [done|].
  cbn [length] in Hl. simpl. unfold amount at 1. cbn [fst snd]. rewrite Hv.
  destruct (lookup_lt_is_Some_2 v idx) as [have ->]; [lia|].
  rewrite Z.ltb_antisym. destruct (need <=? have); cbn [negb andb]; [|done].
  rewrite IH by lia. cbn. by destruct (met res (cells_at lvl (S idx) job)).
Qed.

Lemma met_app res l l' : met res (l ++ l') = met res l && met res l'.
Proof. apply forallb_app. Qed.

Lemma check_nodes_spec res needs path :
  path_wf res needs path ->
  check_nodes res needs path =
    Ret (if met res (demands needs path) then Some (demands needs path) else None).
Proof.
  induction 1 as [|n path (job & v & Hj & Hv & Hl) _ IH]; [done|].
  cbn [check_nodes demands map concat]. rewrite Hj, Hv.
  rewrite (proj2 (Nat.leb_le _ _) Hl). cbn [CHECK mbind outcome_bind].
  rewrite (check_cells_spec res v) by done. cbn [mbind outcome_bind default from_option id].
  rewrite met_app. destruct (met res (cells_at (node_level n) (node_offset n) job)); [|done].
  rewrite IH. cbn [mbind outcome_bind andb]. fold (demands needs path).
  by destruct (met res (demands needs path)).
Qed.

Lemma amount_set res lvl idx x have c :
  amount res (lvl, idx) = Some have ->
  amount (alter (fun v => <[idx := x]> v) lvl res) c =
    if decide ((lvl, idx) = c) then Some x else amount res c.
Proof.
  unfold amount. cbn [fst snd]. destruct c as [l i]. cbn [fst snd].
  rewrite lookup_alter. destruct (res !! lvl) as [v|] eqn:E; [|done]. intros Hh.
  destruct (decide (lvl = l)) as [<-|Hne].
  - rewrite E. cbn. rewrite list_lookup_insert.
    pose proof (lookup_lt_Some _ _ _ Hh).
    destruct (decide (idx = i)) as [<-|Hi].
    + rewrite !decide_True by done. done.
    + rewrite (decide_False (P := idx = i /\ _)), decide_False by naive_solver. done.
  - rewrite decide_False by naive_solver. done.
Qed.

(** Same levels, same number of cells. *)
Definition same_shape (res res' : Packed) : Prop :=
  forall lvl, length <$> res' !! lvl = length <$> res !! lvl.

Lemma same_shape_set res lvl idx x :
  same_shape res (alter (fun v => <[idx := x]> v) lvl res).
Proof.
  intros l. rewrite lookup_alter. case_decide; [subst l|done].
  destruct (res !! lvl); cbn; by rewrite ?length_insert.
Qed.

Lemma path_wf_shape res res' needs path :
  same_shape res res' -> path_wf res needs path -> path_wf res' needs path.
Proof.
  intros Hs Hw. eapply Forall_impl; [exact Hw|]. intros n (job & v & Hj & Hv & Hl).
  specialize (Hs (node_level n)). rewrite Hv in Hs.
  destruct (res' !! node_level n) as [v'|]; [|done]. injection Hs as Hs.
  exists job, v'. split_and!; [done|done|lia].
Qed.

(** The amounts are [int]s. *)
Definition in_s32 (res : Packed) : Prop := forall c x, amount res c = Some x -> is_s32 x.

(** What subtracting resources keeps. *)
Definition keeps (res res' : Packed) : Prop := same_shape res res' /\ (in_s32 res -> in_s32 res').

#[local] Instance keeps_preorder : PreOrder keeps.
Proof.
  split; [by intros res|]. intros r1 r2 r3 [H1 H2] [H3 H4]. split; [|tauto].
  intros l. by rewrite H3, H1.
Qed.

(** Nobody needs a negative amount. *)
Definition nonneg (l : list ((nat * nat) * Z)) : Prop := Forall (fun p => 0 <= p.2) l.

Lemma in_s32_set res lvl idx have x :
  amount res (lvl, idx) = Some have -> in_s32 res -> is_s32 x ->
  in_s32 (alter (fun v => <[idx := x]> v) lvl res).
Proof.
  intros Ha Hr Hx c y. rewrite (amount_set _ _ _ _ _ _ Ha). case_decide; [|apply Hr].
  by intros [= <-].
Qed.

(** Subtracting distinct cells that are all available. *)
Lemma subtract_ok l res :
  NoDup l.*1 -> met res l = true -> nonneg l -> in_s32 res ->
  exists res', foldM subtract_one res l = Ret res' /\ keeps res res' /\
    forall c, amount res' c = (fun x => x - used l c) <$> amount res c.
Proof.
  revert res; induction l as [|[[lvl idx] need] l IH]; intros res Hnd Hmet Hneg Hres.
  { exists res. split_and!; [done|done|]. intros c. cbn. destruct (amount res c); cbn; [f_equal; lia|done]. }
  apply NoDup_cons in Hnd as [Hnin Hnd]. cbn [met forallb] in Hmet.
  apply andb_true_iff in Hmet as [H1 Hmet]. apply Forall_cons in Hneg as [H0 Hneg].
  cbn [fst snd] in *. destruct (amount res (lvl, idx)) as [have|] eqn:Ha; [|done].
  assert (Hs32 : is_s32 (have - need)).
  { pose proof (Hres _ _ Ha) as [? ?]. apply Z.leb_le in H1. split; lia. }
  assert (E1 : subtract_one res (lvl, idx, need)
               = Ret (alter (fun v => <[idx := have - need]> v) lvl res)).
  { unfold subtract_one. cbn [fst snd]. rewrite Ha, H1, sub32_ok by done. done. }
  cbn [foldM]. rewrite E1. cbn [mbind outcome_bind].
  destruct (IH (alter (fun v => <[idx := have - need]> v) lvl res)) as (res' & -> & Hs & Hu); [done| |done|by eapply in_s32_set|].
  { unfold met in *. rewrite forallb_forall in *. intros p Hp. specialize (Hmet p Hp).
    rewrite (amount_set _ _ _ _ _ _ Ha). rewrite decide_False; [done|]. intros E.
    apply Hnin. rewrite E. apply list_elem_of_fmap. exists p. split; [done|by apply list_elem_of_In]. }
  exists res'. split_and!; [done| |].
  - etrans; [|exact Hs]. split; [apply same_shape_set|]. intros _. by eapply in_s32_set.
  - intros c. rewrite Hu, (amount_set _ _ _ _ _ _ Ha). cbn [used foldr fst snd].
    fold (used l c). case_decide as Hc; cbn.
    + subst c. rewrite Ha. cbn. f_equal. lia.
    + by destruct (amount res c).
Qed.

Lemma cells_at_level lvl idx job c : c ∈ (cells_at lvl idx job).*1 -> c.1 = lvl /\ (idx <= c.2)%nat.
Proof.
  revert idx; induction job as [|need job IH]; intros idx; cbn.
  - intros H. by apply not_elem_of_nil in H.
  - intros [->|H]%elem_of_cons; [done|]. apply IH in H. lia.
Qed.

Lemma cells_at_NoDup lvl idx job : NoDup (cells_at lvl idx job).*1.
Proof.
  revert idx; induction job as [|need job IH]; intros idx; cbn; [constructor|].
  constructor; [|apply IH]. intros H. apply cells_at_level in H. cbn in H. lia.
Qed.

(** Nodes of different levels use different cells. *)
Lemma demands_NoDup needs path : NoDup (map node_level path) -> NoDup (demands needs path).*1.
Proof.
  induction path as [|n path IH]; [constructor|]. intros Hnd. cbn in Hnd.
  apply NoDup_cons in Hnd as [Hn Hnd]. unfold demands. cbn [map concat]. rewrite fmap_app.
  apply NoDup_app. split_and!; [apply cells_at_NoDup| |by apply IH].
  intros c Hc Hc'. apply cells_at_level in Hc as [Hl _]. apply Hn. rewrite <- Hl.
  clear -Hc'. apply list_elem_of_fmap in Hc' as ([c' a] & -> & Hin).
  apply list_elem_of_In, in_concat in Hin as (l & Hl & Hin).
  apply in_map_iff in Hl as (n & <- & Hn). apply list_elem_of_fmap. exists n.
  split; [|by apply list_elem_of_In]. cbn.
  eapply (cells_at_level _ _ _ c'). apply list_elem_of_fmap. exists (c', a).
  split; [done|]. by apply list_elem_of_In.
Qed.

(** No cell that had something left is overdrawn. *)
Definition solvent (res res' : Packed) : Prop :=
  forall c x, amount res c = Some x -> 0 <= x -> exists x', amount res' c = Some x' /\ 0 <= x'.

Lemma used_met l res c x :
  NoDup l.*1 -> met res l = true -> amount res c = Some x -> 0 <= x -> used l c <= x.
Proof.
  intros Hnd Hmet Hx H0. induction l as [|[c' a] l IH]; [done|].
  apply NoDup_cons in Hnd as [Hnin Hnd]. cbn [met forallb] in Hmet.
  apply andb_true_iff in Hmet as [H1 Hmet]. cbn [used foldr fst snd] in *. fold (used l c).
  case_decide as Hc; [|by apply IH]. subst c'. rewrite Hx in H1.
  assert (used l c = 0); [|lia]. clear -Hnin. induction l as [|[c' b] l IH]; [done|].
  cbn in *. apply not_elem_of_cons in Hnin as [Hne Hnin]. rewrite decide_False by done.
  by apply IH.
Qed.

(** ** What every policy does: trying pending tasks one by one *)

Section Runs.
Context {Job E : Type} (priority : Job -> Q).
Context (cb : E -> Job -> Node -> outcome (E * TaskRunnerResponse)).
Abbreviation JWN := (@JobWithNodes Job).
Abbreviation ST := (@SchedState Job E).
Abbreviation TASK := (@task Job).

Definition task_job (t : TASK) : Job := t.1.1.
Definition task_needs (t : TASK) : gmap nat (list Z) := t.1.2.
Definition task_node (t : TASK) : Node := t.2.
Definition task_demands (t : TASK) : list ((nat * nat) * Z) :=
  demands (task_needs t) (traverseUp (task_node t)).

(** The tasks of a job. *)
Definition tasks_of (j : JWN) (nodes : list Node) : list TASK :=
  map (fun n => (jwn_job j, jwn_needs j, n)) nodes.
Definition pending (jobs : list JWN) : list TASK :=
  concat (map (fun j => tasks_of j (jwn_nodes j)) jobs).

Definition try_task (st : ST) (t : TASK) : outcome (ST * TaskRunnerResponse) :=
  try_one cb st (mkJobWithNodes (task_job t) (task_needs t) []) (task_node t).

(** A run tries pending tasks in some order, each at most once, and stops at
    the first [DoNotRunMoreTasks].  The lists are what is pending before and
    after, the boolean tells whether it was stopped. *)
Inductive runs : ST -> list TASK -> ST -> list TASK -> bool -> Prop :=
| runs_done st P P' : P ≡ₚ P' -> runs st P st P' false
| runs_try st t P P1 st1 r st' P' b :
    P ≡ₚ t :: P1 -> try_task st t = Ret (st1, r) -> r <> DoNotRunMoreTasks ->
    runs st1 P1 st' P' b -> runs st P st' P' b
| runs_stop st t P P' st1 :
    P ≡ₚ t :: P' -> try_task st t = Ret (st1, DoNotRunMoreTasks) -> runs st P st1 P' true.

Lemma runs_perm st P Q st' P' b : P ≡ₚ Q -> runs st P st' P' b -> runs st Q st' P' b.
Proof.
  intros Hp H. destruct H as [st P P' H|st t P P1 st1 r st' P' b H|st t P P' st1 H].
  - apply runs_done. by rewrite <- Hp.
  - eapply runs_try; eauto. by rewrite <- Hp.
  - eapply runs_stop; eauto. by rewrite <- Hp.
Qed.

Lemma runs_perm_end st P st' P' Q' b : P' ≡ₚ Q' -> runs st P st' P' b -> runs st P st' Q' b.
Proof.
  intros Hp H. induction H as [st P P' H|st t P P1 st1 r st' P' b H E1 Hr _ IH|st t P P' st1 H E1].
  - apply runs_done. by rewrite H.
  - eapply runs_try; eauto.
  - eapply runs_stop; [|exact E1]. by rewrite <- Hp.
Qed.

Lemma runs_frame st P st' P' b R :
  runs st P st' P' b -> runs st (P ++ R) st' (P' ++ R) b.
Proof.
  induction 1 as [st P P' H|st t P P1 st1 r st' P' b H E1 Hr _ IH|st t P P' st1 H E1].
  - apply runs_done. by rewrite H.
  - eapply runs_try; [|exact E1|exact Hr|exact IH]. by rewrite H.
  - eapply runs_stop; [|exact E1]. by rewrite H.
Qed.

Lemma runs_trans st P st1 P1 st2 P2 b :
  runs st P st1 P1 false -> runs st1 P1 st2 P2 b -> runs st P st2 P2 b.
Proof.
  remember false as c eqn:Ec. intros H. revert Ec.
  induction H as [st P P' H|st t P Q st1 r st' P' c H E1 Hr _ IH|]; intros Ec H2; [| |done].
  - by eapply runs_perm.
  - eapply runs_try; [exact H|exact E1|exact Hr|]. by apply IH.
Qed.

(** ** One try *)

(** The cells a task uses exist and hold [int]s, its path has one node per
    level, and it needs no negative amounts. *)
Definition task_wf (res : Packed) (t : TASK) : Prop :=
  path_wf res (task_needs t) (traverseUp (task_node t)) /\
  NoDup (map node_level (traverseUp (task_node t))) /\
  nonneg (task_demands t) /\ in_s32 res.

(** The runner's callback returns (it is noexcept). *)
Context (Hcb : forall e j n, exists e' r, cb e j n = Ret (e', r)).

Lemma try_ok res e n j needs :
  path_wf res needs (traverseUp n) -> NoDup (map node_level (traverseUp n)) ->
  nonneg (demands needs (traverseUp n)) -> in_s32 res ->
  exists res' e' r, try_to_schedule cb res e n j needs = Ret (res', e', r) /\
    keeps res res' /\ solvent res res' /\
    (forall c, amount res' c =
       (fun x => x - if bool_decide (r = RanTask) then used (demands needs (traverseUp n)) c else 0)
         <$> amount res c) /\
    (if met res (demands needs (traverseUp n)) then cb e j n = Ret (e', r)
     else r = DidNotRunTask /\ e' = e).
Proof using Hcb.
  intros Hwf Hnd Hneg Hres. apply (demands_NoDup needs) in Hnd. unfold try_to_schedule. rewrite check_nodes_spec by done.
  cbn [mbind outcome_bind].
  assert (Hid : forall c, amount res c = (fun x => x - 0) <$> amount res c).
  { intros c. destruct (amount res c); cbn; [f_equal; lia|done]. }
  assert (Hsol : solvent res res) by (intros c x; eauto).
  destruct (met res (demands needs (traverseUp n))) eqn:Hm.
  2: { eexists _, _, _. split; [reflexivity|]. by split_and!. }
  destruct (Hcb e j n) as (e' & r & ->). cbn [mbind outcome_bind]. destruct r.
  - destruct (subtract_ok _ _ Hnd Hm Hneg Hres) as (res' & -> & Hs & Hu). cbn [mbind outcome_bind].
    eexists _, _, _. split; [reflexivity|]. split_and!; [done| |done|done].
    intros c x Hx H0. rewrite Hu, Hx. eexists. split; [reflexivity|].
    pose proof (used_met _ _ _ _ Hnd Hm Hx H0). lia.
  - eexists _, _, _. split; [reflexivity|]. by split_and!.
  - eexists _, _, _. split; [reflexivity|]. by split_and!.
Qed.

Lemma try_task_ok st t :
  task_wf (packed st) t ->
  exists st' r, try_task st t = Ret (st', r) /\
    tried st' = tried st ++ [(t, r)] /\
    scheduled_tasks st' = scheduled_tasks st + (if bool_decide (r = RanTask) then 1 else 0) /\
    keeps (packed st) (packed st') /\ solvent (packed st) (packed st') /\
    (forall c, amount (packed st') c =
       (fun x => x - if bool_decide (r = RanTask) then used (task_demands t) c else 0)
         <$> amount (packed st) c).
Proof using Hcb.
  intros (Hwf & Hnd & Hneg & Hres). destruct t as [[j needs] n].
  destruct (try_ok (packed st) (env st) n j needs Hwf Hnd Hneg Hres) as (res' & e' & r & E1 & Hs & Hsol & Hu & _).
  unfold try_task, try_one. cbn [jwn_job jwn_needs task_job task_needs task_node fst snd].
  rewrite E1. cbn [mbind outcome_bind]. eexists _, _. split; [reflexivity|].
  split_and!; [done| |done|done|done]. cbn. case_bool_decide; lia.
Qed.

Lemma task_wf_keeps res res' t : keeps res res' -> task_wf res t -> task_wf res' t.
Proof. intros [Hs Hr] (H1 & H2 & H3 & H4). split_and!; [by eapply path_wf_shape|done|done|auto]. Qed.

(** ** What a run does *)

(** The tasks that ran, among those tried. *)
Definition ran (l : list (TASK * TaskRunnerResponse)) : list TASK :=
  map fst (List.filter (fun p => bool_decide (p.2 = RanTask)) l).

Lemma ran_app l l' : ran (l ++ l') = ran l ++ ran l'.
Proof. unfold ran. by rewrite List.filter_app, map_app. Qed.

(** How much of a cell the tasks that ran use. *)
Definition used_by (l : list TASK) (c : nat * nat) : Z :=
  used (concat (map task_demands l)) c.

(** The books: tries are appended, tasks that ran are counted and their
    resources taken, what was tried is no longer pending, and only a last
    [DoNotRunMoreTasks] stops the run. *)
Definition accounts (st : ST) (P : list TASK) (st' : ST) (P' : list TASK) (stop : bool) : Prop :=
  exists new,
    tried st' = tried st ++ new /\ map fst new ++ P' ≡ₚ P /\
    scheduled_tasks st' = scheduled_tasks st + Z.of_nat (length (ran new)) /\
    (forall c, amount (packed st') c = (fun x => x - used_by (ran new) c) <$> amount (packed st) c) /\
    solvent (packed st) (packed st') /\
    (if stop then exists l t, new = l ++ [(t, DoNotRunMoreTasks)] /\
                    Forall (fun p => p.2 <> DoNotRunMoreTasks) l
     else Forall (fun p => p.2 <> DoNotRunMoreTasks) new).

Lemma used_by_cons t l c : used_by (t :: l) c = used (task_demands t) c + used_by l c.
Proof. unfold used_by. cbn. apply used_app. Qed.

Lemma amounts_compose (res res1 res2 : Packed) c x y :
  amount res1 c = (fun z => z - x) <$> amount res c ->
  amount res2 c = (fun z => z - y) <$> amount res1 c ->
  amount res2 c = (fun z => z - (x + y)) <$> amount res c.
Proof.
  intros E1 E2. rewrite E2, E1. destruct (amount res c); cbn; [f_equal; lia|done].
Qed.

Lemma runs_accounts st P st' P' b :
  runs st P st' P' b -> (forall t, t ∈ P -> task_wf (packed st) t) ->
  accounts st P st' P' b /\ keeps (packed st) (packed st').
Proof using Hcb.
  induction 1 as [st P P' H|st t P P1 st1 r st' P' b H E1 Hr _ IH|st t P P' st1 H E1]; intros Hwf.
  - split; [|done]. exists []. rewrite app_nil_r, Z.add_0_r.
    split_and!; try done; [|intros c x; eauto]. intros c. cbn. destruct (amount (packed st) c); cbn; [f_equal; lia|done].
  - assert (Ht : task_wf (packed st) t) by (apply Hwf; rewrite H; by left).
    destruct (try_task_ok st t Ht) as (st2 & r2 & E2 & Htr & Hsc & Hsh & Hsol & Ham).
    rewrite E1 in E2. injection E2 as <- <-.
    destruct IH as [(new & H1 & H2 & H3 & H4 & Hsol2 & H5) Hsh2].
    { intros t' Ht'. eapply task_wf_keeps; [exact Hsh|]. apply Hwf. rewrite H. by right. }
    split; [|by etrans]. exists ((t, r) :: new). split_and!.
    + rewrite H1, Htr, <- app_assoc. done.
    + cbn. by rewrite H2.
    + rewrite H3, Hsc. unfold ran. cbn. case_bool_decide; cbn; lia.
    + intros c. specialize (Ham c). specialize (H4 c).
      rewrite (amounts_compose _ _ _ _ _ _ Ham H4). unfold ran. cbn [List.filter snd].
      case_bool_decide; cbn [map fst]; [by rewrite used_by_cons|done].
    + intros c x Hx H0. destruct (Hsol c x Hx H0) as (x1 & Hx1 & H1'). by apply (Hsol2 c x1).
    + destruct b; [|by constructor]. destruct H5 as (l & t' & -> & H5).
      exists ((t, r) :: l), t'. split; [done|by constructor].
  - assert (Ht : task_wf (packed st) t) by (apply Hwf; rewrite H; by left).
    destruct (try_task_ok st t Ht) as (st2 & r2 & E2 & Htr & Hsc & Hsh & Hsol & Ham).
    rewrite E1 in E2. injection E2 as <- <-. split; [|done].
    exists [(t, DoNotRunMoreTasks)].
    split_and!; [done|by symmetry|done|done|done|exists [], t; by split; [|constructor]].
Qed.

(** ** The policies are runs *)

Lemma runs_sub st P st' P' b t : runs st P st' P' b -> t ∈ P' -> t ∈ P.
Proof.
  induction 1 as [st P P' H|st t' P P1 st1 r st' P' b H E1 Hr _ IH|st t' P P' st1 H E1]; intros Ht.
  - by rewrite H.
  - rewrite H. right. by apply IH.
  - rewrite H. by right.
Qed.

Abbreviation all_wf st P := (forall t, t ∈ P -> task_wf (packed st) t).

Lemma all_wf_after st st' P P' b :
  runs st P st' P' b -> all_wf st P -> all_wf st' P'.
Proof using Hcb.
  intros Hr Hwf t Ht. destruct (runs_accounts _ _ _ _ _ Hr Hwf) as [_ Hs].
  eapply task_wf_keeps; [exact Hs|]. apply Hwf. by eapply runs_sub.
Qed.

Lemma job_loop_runs one st j nodes :
  all_wf st (tasks_of j nodes) ->
  exists st' rest stop, job_loop cb one st j nodes = Ret (st', rest, stop) /\
    runs st (tasks_of j nodes) st' (tasks_of j rest) stop /\
    (nodes <> [] -> (length rest < length nodes)%nat) /\
    (one = false -> stop = false -> rest = []).
Proof using Hcb.
  revert st; induction nodes as [|n nodes IH]; intros st Hwf.
  { exists st, [], false. split_and!; try done. by apply runs_done. }
  assert (Ht : task_wf (packed st) (jwn_job j, jwn_needs j, n)) by (apply Hwf; by left).
  destruct (try_task_ok st _ Ht) as (st1 & r & E1 & _ & _ & Hsh & _ & _).
  assert (E1' : try_one cb st j n = Ret (st1, r)) by exact E1.
  cbn [job_loop tasks_of map]. rewrite E1'. cbn [mbind outcome_bind].
  assert (Hwf1 : all_wf st1 (tasks_of j nodes)).
  { intros t Hin. eapply task_wf_keeps; [exact Hsh|]. apply Hwf. by right. }
  assert (Hgo : r <> DoNotRunMoreTasks ->
    exists st' rest stop, job_loop cb one st1 j nodes = Ret (st', rest, stop) /\
    runs st (tasks_of j (n :: nodes)) st' (tasks_of j rest) stop /\
    (n :: nodes <> [] -> (length rest < length (n :: nodes))%nat) /\
    (one = false -> stop = false -> rest = [])).
  { intros Hr. destruct (IH st1 Hwf1) as (st' & rest & stop & E2 & Hruns & Hlen & Hone).
    exists st', rest, stop. split_and!; [done| | |done].
    - by eapply (runs_try st (jwn_job j, jwn_needs j, n) _ (tasks_of j nodes)).
    - intros _. destruct nodes; [|cbn; specialize (Hlen ltac:(done)); cbn in *; lia].
      injection E2 as _ <- _. cbn. lia. }
  destruct r; [destruct one| |]; try (by apply Hgo).
  - exists st1, nodes, false. split_and!; [done| |cbn; lia|done].
    eapply (runs_try st (jwn_job j, jwn_needs j, n) _ (tasks_of j nodes)); [done|done|done|].
    by apply runs_done.
  - exists st1, nodes, true. split_and!; [done| |cbn; lia|done].
    by apply (runs_stop st (jwn_job j, jwn_needs j, n)).
Qed.

Lemma pending_cons j js : pending (j :: js) = tasks_of j (jwn_nodes j) ++ pending js.
Proof. done. Qed.

Lemma work_cons (j : JWN) js : work (j :: js) = S (length (jwn_nodes j) + work js).
Proof. done. Qed.

Lemma pass_runs one st jobs :
  all_wf st (pending jobs) ->
  exists st' jobs' stop, pass cb one st jobs = Ret (st', jobs', stop) /\
    runs st (pending jobs) st' (pending jobs') stop /\
    (work jobs' + length jobs <= work jobs \/ stop = true)%nat /\
    (one = false -> stop = false -> pending jobs' = []).
Proof using Hcb.
  revert st; induction jobs as [|j js IH]; intros st Hwf.
  { exists st, [], false. split_and!; try done; [by apply runs_done|left; cbn; lia]. }
  cbn [pass]. rewrite pending_cons in *. destruct (jwn_nodes j) as [|n nodes] eqn:En.
  { destruct (IH st Hwf) as (st' & jobs' & stop & Ep & Hr & Hw & Ho).
    exists st', jobs', stop. split_and!; try done. rewrite work_cons. cbn. destruct Hw; [left; lia|by right]. }
  rewrite <- En in *.
  destruct (job_loop_runs one st j (jwn_nodes j)) as (st1 & rest & stop & -> & Hr1 & Hlen & Ho1).
  { intros t Ht. apply Hwf. set_solver. }
  assert (Hlen' : (length rest < length (jwn_nodes j))%nat) by (apply Hlen; by rewrite En).
  cbn [mbind outcome_bind]. apply (runs_frame _ _ _ _ _ (pending js)) in Hr1.
  destruct stop.
  { exists st1, (set_nodes j rest :: js), true. split_and!; try done. by right. }
  assert (Hwf1 : all_wf st1 (tasks_of j rest ++ pending js)) by (by eapply all_wf_after).
  destruct (IH st1) as (st2 & js' & stop & -> & Hr2 & Hw2 & Ho2).
  { intros t Ht. apply Hwf1. set_solver. }
  cbn [mbind outcome_bind]. exists st2, (set_nodes j rest :: js'), stop. split_and!; [done| | |].
  - eapply runs_trans; [exact Hr1|]. rewrite pending_cons. cbn [set_nodes jwn_nodes].
    apply (runs_frame _ _ _ _ _ (tasks_of j rest)) in Hr2.
    eapply runs_perm; [apply Permutation_app_comm|].
    eapply runs_perm_end; [apply Permutation_app_comm|]. exact Hr2.
  - rewrite !work_cons. cbn [set_nodes jwn_nodes length]. destruct Hw2; [left; lia|by right].
  - intros H1 H2. rewrite pending_cons. cbn [set_nodes jwn_nodes].
    rewrite (Ho1 H1 eq_refl), (Ho2 H1 H2). done.
Qed.

Lemma round_robin_runs fuel st jobs :
  (work jobs <= fuel)%nat -> all_wf st (pending jobs) ->
  exists st' jobs' stop, round_robin_loop cb fuel st jobs = Ret (st', jobs', stop) /\
    runs st (pending jobs) st' (pending jobs') stop /\ (stop = false -> jobs' = []).
Proof using Hcb.
  revert st jobs; induction fuel as [|fuel IH]; intros st [|j js] Hf Hwf.
  - exists st, [], false. split_and!; [done|by apply runs_done|done].
  - rewrite work_cons in Hf. lia.
  - exists st, [], false. split_and!; [done|by apply runs_done|done].
  - cbn [round_robin_loop].
    destruct (pass_runs true st (j :: js) Hwf) as (st1 & jobs1 & stop & -> & Hr1 & Hw1 & _).
    cbn [mbind outcome_bind]. destruct stop.
    { exists st1, jobs1, true. by split_and!. }
    destruct (IH st1 jobs1) as (st2 & jobs2 & stop & -> & Hr2 & Hs2).
    { destruct Hw1 as [Hw1|?]; [|done]. cbn [length] in Hw1. lia. }
    { by eapply all_wf_after. }
    exists st2, jobs2, stop. split_and!; [done| |done]. by eapply runs_trans.
Qed.

Context (pick : nat -> list Q -> nat).
(** [std::discrete_distribution]: for positive weights, a draw is the index
    of one of them. *)
Context (Hpick : forall k ps, ps <> [] -> Forall (Qlt 0) ps -> (pick k ps < length ps)%nat).

Definition positive (jobs : list JWN) : Prop := Forall (fun j => (0 < priority (jwn_job j))%Q) jobs.

Lemma positive_delete jobs i : positive jobs -> positive (delete i jobs).
Proof. intros H. by apply Forall_delete. Qed.

Lemma positive_set jobs i j rest :
  jobs !! i = Some j -> positive jobs -> positive (<[i := set_nodes j rest]> jobs).
Proof. intros Hj H. apply Forall_insert; [done|]. cbn. by apply (Forall_lookup_1 _ _ _ _ H Hj). Qed.

Lemma pending_split jobs i (j : JWN) :
  jobs !! i = Some j ->
  pending jobs ≡ₚ tasks_of j (jwn_nodes j) ++ pending (delete i jobs) /\
  (forall j', pending (<[i := j']> jobs) ≡ₚ tasks_of j' (jwn_nodes j') ++ pending (delete i jobs)) /\
  work jobs = (S (length (jwn_nodes j)) + work (delete i jobs))%nat /\
  (forall j', work (<[i := j']> jobs) = (S (length (jwn_nodes j')) + work (delete i jobs))%nat).
Proof.
  revert i; induction jobs as [|x jobs IH]; intros [|i] Hi; try done.
  - injection Hi as ->. by split_and!.
  - destruct (IH i Hi) as (H1 & H2 & H3 & H4).
    change (delete (S i) (x :: jobs)) with (x :: delete i jobs).
    rewrite !pending_cons, !work_cons. split_and!.
    + rewrite H1. apply Permutation_app_swap_app.
    + intros j'. cbn [insert list_insert]. rewrite !pending_cons, H2. apply Permutation_app_swap_app.
    + lia.
    + intros j'. cbn [insert list_insert]. rewrite work_cons, H4. lia.
Qed.

Lemma randomized_runs fuel k st jobs :
  (work jobs <= fuel)%nat -> all_wf st (pending jobs) -> positive jobs ->
  exists st' jobs' stop, randomized_loop priority cb pick fuel k st jobs = Ret (st', jobs', stop) /\
    runs st (pending jobs) st' (pending jobs') stop /\ (stop = false -> jobs' = []).
Proof using Hcb Hpick.
  revert k st jobs; induction fuel as [|fuel IH]; intros k st [|j0 js] Hf Hwf Hpos.
  - exists st, [], false. split_and!; [done|by apply runs_done|done].
  - rewrite work_cons in Hf. lia.
  - exists st, [], false. split_and!; [done|by apply runs_done|done].
  - cbn [randomized_loop]. set (jobs := j0 :: js) in *.
    set (i := pick k _).
    destruct (lookup_lt_is_Some_2 jobs i) as [j Hj].
    { unfold i. rewrite <- (length_map (fun j => priority (jwn_job j)) jobs). apply Hpick; [done|].
      by apply Forall_map. }
    rewrite Hj. destruct (pending_split jobs i j Hj) as (Hp & Hins & Hw & Hwins).
    destruct (jwn_nodes j) as [|n nodes] eqn:En.
    { destruct (IH (S k) st (delete i jobs)) as (st' & jobs' & stop & Ep & Hr & Hs).
      - rewrite Hw in Hf. cbn in Hf. lia.
      - intros t Ht. apply Hwf. by rewrite Hp.
      - by apply positive_delete.
      - exists st', jobs', stop. split_and!; [done| |done]. eapply runs_perm; [symmetry; exact Hp|done]. }
    rewrite <- En in *.
    destruct (job_loop_runs true st j (jwn_nodes j)) as (st1 & rest & stop & -> & Hr1 & Hlen & _).
    { intros t Ht. apply Hwf. rewrite Hp. set_solver. }
    assert (Hlen' : (length rest < length (jwn_nodes j))%nat) by (apply Hlen; by rewrite En).
    cbn [mbind outcome_bind].
    apply (runs_frame _ _ _ _ _ (pending (delete i jobs))) in Hr1.
    apply (runs_perm _ _ (pending jobs)) in Hr1; [|by symmetry].
    apply (runs_perm_end _ _ _ _ (pending (<[i := set_nodes j rest]> jobs))) in Hr1;
      [|symmetry; apply (Hins (set_nodes j rest))].
    destruct stop; [by exists st1, (<[i := set_nodes j rest]> jobs), true|].
    destruct (IH (S k) st1 (<[i := set_nodes j rest]> jobs)) as (st' & jobs' & stop & Ep & Hr & Hs).
    { rewrite Hwins. cbn [set_nodes jwn_nodes]. lia. }
    { by eapply all_wf_after. }
    { by apply positive_set. }
    exists st', jobs', stop. split_and!; [done| |done]. by eapply runs_trans.
Qed.

(** ** Order of the tries of a pass that does not break *)

Lemma job_loop_order st j nodes st' rest stop :
  job_loop cb false st j nodes = Ret (st', rest, stop) ->
  exists new, tried st' = tried st ++ new /\ map fst new ++ tasks_of j rest = tasks_of j nodes /\
    (stop = false -> rest = []).
Proof.
  revert st; induction nodes as [|n nodes IH]; intros st; cbn [job_loop].
  { intros [= <- <- <-]. exists []. by rewrite app_nil_r. }
  intros Hl. apply bind_Ret_iff in Hl as ([st1 r] & E1 & Hl).
  assert (Ht : tried st1 = tried st ++ [((jwn_job j, jwn_needs j, n), r)]).
  { unfold try_one in E1. apply bind_Ret_iff in E1 as ([[res e] r'] & _ & E1).
    by injection E1 as <- <-. }
  assert (Hgo : job_loop cb false st1 j nodes = Ret (st', rest, stop) ->
    exists new, tried st' = tried st ++ new /\
      map fst new ++ tasks_of j rest = tasks_of j (n :: nodes) /\ (stop = false -> rest = [])).
  { intros H. destruct (IH st1 H) as (new & H1 & H2 & H3).
    exists (((jwn_job j, jwn_needs j, n), r) :: new). split_and!; [|cbn; by rewrite H2|done].
    by rewrite H1, Ht, <- app_assoc. }
  destruct r; [by apply Hgo|by apply Hgo|]. injection Hl as <- <- <-.
  exists [((jwn_job j, jwn_needs j, n), DoNotRunMoreTasks)]. by split_and!.
Qed.

Lemma pass_order st jobs st' jobs' stop :
  pass cb false st jobs = Ret (st', jobs', stop) ->
  exists new, tried st' = tried st ++ new /\ map fst new `prefix_of` pending jobs.
Proof.
  revert st jobs'; induction jobs as [|j js IH]; intros st jobs'; cbn [pass].
  { intros [= <- <- <-]. exists []. rewrite app_nil_r. by split. }
  rewrite pending_cons. destruct (jwn_nodes j) as [|n nodes] eqn:En; [by apply IH|].
  intros H. apply bind_Ret_iff in H as ([[st1 rest] stop1] & E1 & H).
  destruct (job_loop_order _ _ _ _ _ _ E1) as (new1 & H1 & H2 & H3).
  destruct stop1.
  { injection H as <- <- <-. exists new1. split; [done|]. rewrite <- H2, <- app_assoc.
    by apply prefix_app_r. }
  apply bind_Ret_iff in H as ([[st2 js'] stop2] & E2 & H). injection H as <- <- <-.
  destruct (IH _ _ E2) as (new2 & H4 & H5). exists (new1 ++ new2).
  rewrite H4, H1, <- app_assoc, map_app. split; [done|].
  rewrite (H3 eq_refl), app_nil_r in H2. rewrite <- H2. by apply prefix_app.
Qed.

End Runs.

(** ** Properties *)

(** What [std::sort] requires of a comparison. *)
Definition strict_weak {A} (r : A -> A -> bool) : Prop :=
  (forall a, r a a = false) /\ (forall a b, r a b = true -> r b a = false) /\
  (forall a b c, r a b = false -> r b c = false -> r a c = false).

Section Claims.
Context {Job E : Type} (priority : Job -> Q).
Context (cb : E -> Job -> Node -> outcome (E * TaskRunnerResponse)).
Context (sort : (@JobWithNodes Job -> @JobWithNodes Job -> bool) ->
                list (@JobWithNodes Job) -> list (@JobWithNodes Job)).
Context (pick : nat -> list Q -> nat).

(** The runner's callback returns (it is noexcept). *)
Context (Hcb : forall e j n, exists e' r, cb e j n = Ret (e', r)).

(** [try_to_schedule], for a node whose path has one node per level
    and whose cells exist, and for a job that needs no negative amount, never
    trips its checks and never overflows.  The runner is asked
    exactly if every resource the job needs along the path is available; the
    amounts are subtracted exactly if it says the task ran, and no cell that
    was not overdrawn becomes so. *)
Theorem try_to_schedule_spec res e n j needs :
  path_wf res needs (traverseUp n) -> NoDup (map node_level (traverseUp n)) ->
  nonneg (demands needs (traverseUp n)) -> in_s32 res ->
  exists res' e' r, try_to_schedule cb res e n j needs = Ret (res', e', r) /\
    same_shape res res' /\ in_s32 res' /\ solvent res res' /\
    (forall c, amount res' c =
       (fun x => x - if bool_decide (r = RanTask) then used (demands needs (traverseUp n)) c else 0)
         <$> amount res c) /\
    (if met res (demands needs (traverseUp n)) then cb e j n = Ret (e', r)
     else r = DidNotRunTask /\ e' = e).
Proof using Hcb.
  intros H1 H2 H3 H4. destruct (try_ok cb Hcb res e n j needs H1 H2 H3 H4)
    as (res' & e' & r & E1 & [Hs Hr] & Hrest). exists res', e', r. auto.
Qed.

(** [std::sort] permutes; for positive weights, a draw of
    [std::discrete_distribution] is the index of one of them. *)
Context (Hsort : forall r l, sort r l ≡ₚ l).
Context (Hpick : forall k ps, ps <> [] -> Forall (Qlt 0) ps -> (pick k ps < length ps)%nat).

Lemma pending_perm (jobs jobs' : list (@JobWithNodes Job)) :
  jobs ≡ₚ jobs' -> pending jobs ≡ₚ pending jobs'.
Proof.
  induction 1 as [|j l l' _ IH|i j l|l l' l'' _ IH1 _ IH2]; [done| | |by etrans].
  - by rewrite !pending_cons, IH.
  - rewrite !pending_cons. apply Permutation_app_swap_app.
Qed.

Lemma sorted_pass st jobs r :
  (forall t, t ∈ pending jobs -> task_wf (packed st) t) ->
  exists st' jobs' stop, pass cb false st (sort r jobs) = Ret (st', jobs', stop) /\
    runs cb st (pending jobs) st' (pending jobs') stop /\ (stop = false -> pending jobs' = []).
Proof using Hcb Hsort.
  intros Hwf. assert (Hp : pending (sort r jobs) ≡ₚ pending jobs) by (by apply pending_perm).
  destruct (pass_runs cb Hcb false st (sort r jobs)) as (st' & jobs' & stop & E1 & Hr & _ & Hs).
  { intros t Ht. apply Hwf. by rewrite <- Hp. }
  exists st', jobs', stop. split_and!; [done|by eapply runs_perm|by apply Hs].
Qed.

(** What the books say of a policy. *)
Definition accounted (policy : @SchedState Job E -> list JobWithNodes ->
    outcome (@SchedState Job E * list JobWithNodes * bool)) st jobs : Prop :=
  exists st' jobs' stop, policy st jobs = Ret (st', jobs', stop) /\
    accounts st (pending jobs) st' (pending jobs') stop /\ (stop = false -> pending jobs' = []).

Lemma accounted_runs policy st jobs :
  (forall t, t ∈ pending jobs -> task_wf (packed st) t) ->
  (exists st' jobs' stop, policy st jobs = Ret (st', jobs', stop) /\
     runs cb st (pending jobs) st' (pending jobs') stop /\
     (stop = false -> pending jobs' = [])) ->
  accounted policy st jobs.
Proof using Hcb.
  intros Hwf (st' & jobs' & stop & E1 & Hr & Hs). exists st', jobs', stop.
  split_and!; [done| |done]. by apply (runs_accounts cb Hcb).
Qed.

(** The round robin, ranked priority and long tail policies terminate
    without tripping a check or overflowing, if no pending task needs a
    negative amount.  Each tries every pending task at most once;
    the tasks that ran are counted and exactly their resources are taken from
    the packed resources, with no cell overdrawn; it stops early only at the
    first [DoNotRunMoreTasks], and otherwise it has tried every pending
    task. *)
Theorem policies_account st jobs :
  (forall t, t ∈ pending jobs -> task_wf (packed st) t) ->
  accounted (round_robin cb) st jobs /\
  accounted (ranked_priority priority cb sort) st jobs /\
  accounted (long_tail cb sort) st jobs.
Proof using Hcb Hsort.
  intros Hwf. split_and!; apply accounted_runs; try done; [|by apply sorted_pass..].
  destruct (round_robin_runs cb Hcb (work jobs) st jobs) as (st' & jobs' & stop & E1 & Hr & Hs); auto.
  exists st', jobs', stop. split_and!; [done|done|]. intros H. by rewrite (Hs H).
Qed.

(** So does the randomized priority policy, whatever jobs it draws,
    if all jobs have positive priorities (a job's configuration is not
    checked for that). *)
Theorem randomized_accounts st jobs :
  (forall t, t ∈ pending jobs -> task_wf (packed st) t) -> positive priority jobs ->
  accounted (randomized_priority priority cb pick) st jobs.
Proof using Hcb Hpick.
  intros Hwf Hpos. apply accounted_runs; [done|].
  destruct (randomized_runs priority cb Hcb pick Hpick (work jobs) 0 st jobs)
    as (st' & jobs' & stop & E1 & Hr & Hs); auto.
  exists st', jobs', stop. split_and!; [done|done|]. intros H. by rewrite (Hs H).
Qed.

(** [std::sort] sorts by a strict weak order: no later element comes before
    an earlier one. *)
Context (Hsorted : forall r l, strict_weak r -> StronglySorted (fun a b => r b a = false) (sort r l)).

Definition prio_ge (a b : @task Job) : Prop :=
  (priority (task_job b) <= priority (task_job a))%Q.

Lemma Qltb_lt a b : Qltb a b = true <-> (a < b)%Q.
Proof. unfold Qltb, Qlt, Qcompare. destruct (Z.compare_spec (Qnum a * QDen b) (Qnum b * QDen a)); split; (done || lia). Qed.

Lemma Qltb_ge a b : Qltb a b = false <-> (b <= a)%Q.
Proof.
  rewrite <- not_true_iff_false, Qltb_lt. split; [apply Qnot_lt_le|apply Qle_not_lt].
Qed.

Lemma higher_priority_false a b :
  higher_priority priority b a = false <-> (priority (jwn_job b) <= priority (jwn_job a))%Q.
Proof. unfold higher_priority. apply Qltb_ge. Qed.

Lemma higher_priority_weak : strict_weak (higher_priority priority).
Proof.
  split_and!; intros *; rewrite ?higher_priority_false.
  - apply Qle_refl.
  - intros H. unfold higher_priority in H. apply Qltb_lt in H. by apply Qlt_le_weak.
  - intros H1 H2. by eapply Qle_trans.
Qed.

Lemma sorted_pending jobs :
  StronglySorted (fun a b => higher_priority priority b a = false) jobs ->
  StronglySorted prio_ge (pending jobs).
Proof.
  induction 1 as [|j js _ IH Hall]; [constructor|]. rewrite pending_cons.
  assert (Htail : Forall (fun t => (priority (task_job t) <= priority (jwn_job j))%Q) (pending js)).
  { clear IH. induction Hall as [|j' js H _ IH]; [constructor|]. rewrite pending_cons.
    apply Forall_app. split; [|done]. apply Forall_map, Forall_true. intros n.
    by apply higher_priority_false. }
  unfold tasks_of. induction (jwn_nodes j) as [|n nodes IHn]; [done|]. cbn. constructor; [done|].
  apply Forall_app. split; [|done]. apply Forall_map, Forall_true. intros n'. apply Qle_refl.
Qed.

Lemma sorted_prefix {A} (R : A -> A -> Prop) l l' :
  l `prefix_of` l' -> StronglySorted R l' -> StronglySorted R l.
Proof.
  intros [k ->]. induction l as [|a l IH]; [constructor|]. cbn. inversion_clear 1 as [|? ? Hs Hall].
  apply Forall_app in Hall as [Hall _]. constructor; auto.
Qed.

(** The ranked priority policy tries tasks in order of non-increasing
    priority of their jobs, also when it stops early: no task is tried before
    a pending task of a job with higher priority. *)
Theorem ranked_in_order st jobs st' jobs' stop :
  ranked_priority priority cb sort st jobs = Ret (st', jobs', stop) ->
  exists new, tried st' = tried st ++ new /\ StronglySorted prio_ge (map fst new) /\
    map fst new `prefix_of` pending (sort (higher_priority priority) jobs).
Proof using Hsorted.
  intros H. destruct (pass_order cb _ _ _ _ _ H) as (new & H1 & H2). exists new.
  split_and!; [done| |done]. eapply sorted_prefix; [exact H2|]. by apply sorted_pending, Hsorted, higher_priority_weak.
Qed.

End Claims.

(** A sample run: two jobs on a host with 3 slots, two tasks each. *)
Definition sample_host : Node := mkNode 0 "host" 0 true None [] 0.
Definition sample_node (i : nat) : Node := mkNode (S i) "db" 1 true (Some sample_host) [] i.
Definition sample_job (name : string) (slots : Z) : @JobWithNodes string :=
  mkJobWithNodes name {[0%nat := [slots]; 1%nat := [1]]} [sample_node 0; sample_node 1].
Definition sample_state : @SchedState string nat :=
  mkSchedState {[0%nat := [3]; 1%nat := [1; 1]]} 0%nat 0 [].
(** A runner that runs everything and counts its calls. *)
Definition run_all (e : nat) (j : string) (n : Node) : outcome (nat * TaskRunnerResponse) :=
  Ret (S e, RanTask).
Definition sample_priority (j : string) : Q := if String.eqb j "big" then 2%Q else 1%Q.
(** Insertion sort, and a picker that always draws the first job. *)
Fixpoint insert_by {A} (r : A -> A -> bool) (x : A) (l : list A) : list A :=
  match l with
  | [] => [x]
  | y :: l' => if r y x then y :: insert_by r x l' else x :: l
  end.
Definition insertion_sort {A} (r : A -> A -> bool) (l : list A) : list A :=
  foldr (insert_by r) [] l.

Lemma insert_by_perm {A} (r : A -> A -> bool) x l : insert_by r x l ≡ₚ x :: l.
Proof.
  induction l as [|y l IH]; cbn; [done|]. destruct (r y x); [|done]. rewrite IH. constructor.
Qed.

Lemma insertion_sort_perm {A} (r : A -> A -> bool) l : insertion_sort r l ≡ₚ l.
Proof.
  induction l as [|x l IH]; [done|]. etrans; [apply insert_by_perm|]. by constructor.
Qed.

Definition sample_jobs : list (@JobWithNodes string) := [sample_job "small" 1; sample_job "big" 2].

Lemma sample_wf t : t ∈ pending sample_jobs ->
  task_wf (packed sample_state) t.
Proof.
  cbn. rewrite !elem_of_cons, elem_of_nil.
  assert (Hr : in_s32 (packed sample_state)).
  { intros [l i] x. unfold amount. cbn [fst snd].
    destruct (packed sample_state !! l) as [v|] eqn:El; [|done]. intros Hx.
    apply list_elem_of_lookup_2 in Hx. cbn [packed sample_state] in El.
    apply lookup_insert_Some in El as [[_ <-]|[_ [_ <-]%lookup_singleton_Some]]; set_unfold in Hx;
      by destruct_or? Hx; subst. }
  intros [->|[->|[->|[->|[]]]]];
    (split; [|split; [apply (bool_decide_unpack _); vm_compute; exact I|
                      split; [apply (bool_decide_unpack _); vm_compute; exact I|exact Hr]]]);
    (apply Forall_cons; split; [|apply Forall_cons; split; [|apply Forall_nil; exact I]];
     eexists _, _; (split; [reflexivity|split; [reflexivity|cbn; lia]])).
Qed.

Lemma try_to_schedule_spec_witness :
  exists res' e' r,
    try_to_schedule run_all (packed sample_state) 0%nat (sample_node 1) "big"
      {[0%nat := [2]; 1%nat := [1]]} = Ret (res', e', r) /\
    solvent (packed sample_state) res'.
Proof.
  destruct (sample_wf ("big", {[0%nat := [2]; 1%nat := [1]]}, sample_node 1)) as (H1 & H2 & H3 & H4);
    [cbn; set_solver|].
  destruct (try_to_schedule_spec run_all (fun e j n => ex_intro _ _ (ex_intro _ _ eq_refl))
    (packed sample_state) 0%nat (sample_node 1) "big" {[0%nat := [2]; 1%nat := [1]]} H1 H2 H3 H4)
    as (res' & e' & r & E1 & _ & _ & Hs & _).
  exists res', e', r. split; [exact E1|exact Hs].
Defined.

Lemma insert_by_sorted {A} (r : A -> A -> bool) x l :
  strict_weak r -> StronglySorted (fun a b => r b a = false) l ->
  StronglySorted (fun a b => r b a = false) (insert_by r x l).
Proof.
  intros (Hirr & Hasym & Htr) H. induction H as [|y l Hs IH Hall]; cbn; [by repeat constructor|].
  destruct (r y x) eqn:Hr.
  - constructor; [done|]. clear IH Hs. induction Hall as [|z l Hz Hall IH]; cbn.
    + constructor; [by apply Hasym|done].
    + destruct (r z x); repeat (constructor; auto).
  - constructor; [by constructor|]. constructor; [done|].
    eapply Forall_impl; [exact Hall|]. intros z Hz. cbn in Hz. by eapply Htr.
Qed.

Lemma insertion_sort_sorted {A} (r : A -> A -> bool) l :
  strict_weak r -> StronglySorted (fun a b => r b a = false) (insertion_sort r l).
Proof.
  intros Hr. induction l as [|x l IH]; cbn; [constructor|]. by apply insert_by_sorted.
Qed.

Lemma run_all_returns e j n : exists e' r, run_all e j n = Ret (e', r).
Proof. eexists _, _. reflexivity. Qed.

Lemma policies_account_witness :
  accounted (round_robin run_all) sample_state sample_jobs /\
  accounted (ranked_priority sample_priority run_all (fun r => insertion_sort r))
    sample_state sample_jobs.
Proof.
  destruct (policies_account sample_priority run_all (fun r => insertion_sort r)
    run_all_returns (fun r l => insertion_sort_perm r l) sample_state sample_jobs sample_wf)
    as (H1 & H2 & _).
  split; assumption.
Defined.

Lemma randomized_accounts_witness :
  accounted (randomized_priority sample_priority run_all (fun k ps => (k mod length ps)%nat))
    sample_state sample_jobs.
Proof.
  apply randomized_accounts.
  - exact run_all_returns.
  - intros k ps Hps _. apply Nat.mod_upper_bound. destruct ps; [destruct (Hps eq_refl)|discriminate].
  - exact sample_wf.
  - repeat constructor.
Defined.

Lemma ranked_in_order_witness :
  exists st' jobs' new,
    ranked_priority sample_priority run_all (fun r => insertion_sort r) sample_state sample_jobs
      = Ret (st', jobs', false) /\
    tried st' = new /\ StronglySorted (prio_ge sample_priority) (map fst new) /\
    map (fun p => (task_job p.1, p.2)) new =
      [("big", RanTask); ("big", DidNotRunTask); ("small", DidNotRunTask); ("small", RanTask)].
Proof.
  eexists _, _, _. split; [vm_compute; reflexivity|].
  split; [vm_compute; reflexivity|]. split; [|vm_compute; reflexivity].
  destruct (ranked_in_order sample_priority run_all (fun r => insertion_sort r)
    (fun r l => insertion_sort_sorted r l) sample_state sample_jobs _ _ _ eq_refl) as (new & H1 & H2 & _).
  change (tried sample_state) with (@nil (@task string * TaskRunnerResponse)) in H1.
  cbn [app] in H1. subst new. exact H2.
Defined.
