(* ===== verification/Config.v ===== *)
(** The resource tables of [config/Config.cpp]: the part of the constructor
    that reads the "resources" object into the vectors that the scheduler
    indexes by level and resource ID.

    [folly::DynamicParser] walks the JSON value, catches what its callbacks
    throw and records it; the constructor throws at its end if anything was
    recorded.  A field is what the parser finds of it: nothing, something of
    another type, or an [int64_t].  The vectors hold [int]. *)

From stdpp Require Import base gmap strings list.
From S2P Require Import Prelude SymbolTable.

(** ** Data *)

Inductive field := Absent | OtherType | Int64 (n : Z).

(** One resource of one level. *)
Record ResourceSpec := mkSpec {
  spec_default : field;
  spec_limit : field;
  spec_weight : field
}.

Record ResourceTables := mkTables {
  defaultJobResources : list Z;
  resourceIDToWeight : list Z;
  resourcesByLevel : list (list Z);
  levelIDToResourceID : list (list nat);
  resourceNames : StringTable;
  parse_errors : bool
}.

(** The tables before parsing: [resize(levels.size())]. *)
Definition newTables (levels : StringTable) : ResourceTables :=
  mkTables [] [] (replicate (length (objects_ levels)) [])
    (replicate (length (objects_ levels)) []) emptyTable false.

(** ** Parsing *)

(** [p.required] and [p.optional] of an integer: what to store, and whether
    an error is recorded. *)
Definition required (f : field) : option Z * bool :=
  match f with Int64 n => (Some n, false) | _ => (None, true) end.
Definition optional_weight (f : field) : option Z * bool :=
  match f with
  | Absent => (None, false)
  | OtherType => (None, true)
  | Int64 n => if n <? 0 then (None, true) else (Some n, false)
  end.

(** [v[i] = n] for an [int64_t n] that was parsed, narrowed to [int]. *)
Definition store_int (v : list Z) (i : nat) (n : option Z) : list Z :=
  match n with Some n => <[i := s32 n]> v | None => v end.

(** The callback for one resource of a level. *)
Definition parse_resource (level_id : nat) (t : ResourceTables) (r : string * ResourceSpec)
    : ResourceTables :=
  let '(names, resource_id) := insert_obj (resourceNames t) r.1 in
  let '(dflt, e1) := required (spec_default r.2) in
  let '(limit, e2) := required (spec_limit r.2) in
  let '(weight, e3) := optional_weight (spec_weight r.2) in
  mkTables
    (store_int (resize (S resource_id) 0 (defaultJobResources t)) resource_id dflt)
    (store_int (resize (S resource_id) 0 (resourceIDToWeight t)) resource_id weight)
    (alter (fun level_rsrc =>
       store_int (<[resource_id := 0]> (resize (S resource_id) INT32_MAX level_rsrc))
         resource_id limit) level_id (resourcesByLevel t))
    (alter (fun rids => rids ++ [resource_id]) level_id (levelIDToResourceID t))
    names
    (parse_errors t || e1 || e2 || e3).

(** The callback for one level: an unknown level is recorded and skipped. *)
Definition parse_level (levels : StringTable) (t : ResourceTables)
    (l : string * list (string * ResourceSpec)) : ResourceTables :=
  match lookup_obj levels l.1 with
  | None => mkTables (defaultJobResources t) (resourceIDToWeight t) (resourcesByLevel t)
              (levelIDToResourceID t) (resourceNames t) true
  | Some level_id => foldl (parse_resource level_id) t l.2
  end.

(** "resources", and the throw at the end of the constructor. *)
Definition parse_resources (levels : StringTable)
    (d : list (string * list (string * ResourceSpec))) : outcome ResourceTables :=
  let t := foldl (parse_level levels) (newTables levels) d in
  if parse_errors t then Throw "Invalid config" else Ret t.

(** The levels: "instance", the configured ones, "worker". *)
Definition parse_levels (configured : list string) : StringTable :=
  (insert_obj (foldl (fun t s => (insert_obj t s).1) (tableOf ["instance"]) configured) "worker").1.

(** ** Consistency of the tables *)

(** What indexing by level and resource ID relies on. *)
Record tables_wf (nlevels : nat) (t : ResourceTables) : Prop := {
  names_table : table_wf (resourceNames t);
  limits_levels : length (resourcesByLevel t) = nlevels;
  rids_levels : length (levelIDToResourceID t) = nlevels;
  defaults_all : length (defaultJobResources t) = length (objects_ (resourceNames t));
  weights_all : length (resourceIDToWeight t) = length (objects_ (resourceNames t));
  rids_known : forall l rids rid, levelIDToResourceID t !! l = Some rids -> rid ∈ rids ->
    (rid < length (objects_ (resourceNames t)))%nat;
  rids_limits : forall l rids limits rid, levelIDToResourceID t !! l = Some rids ->
    resourcesByLevel t !! l = Some limits -> rid ∈ rids -> (rid < length limits)%nat;
  limits_short : forall l limits, resourcesByLevel t !! l = Some limits ->
    (length limits <= length (objects_ (resourceNames t)))%nat;
  rids_NoDup : forall l rids, levelIDToResourceID t !! l = Some rids -> NoDup rids
}.

(** A resource is in the tables as the configuration has it. *)
Definition configured (t : ResourceTables) (level : nat) (name : string) (spec : ResourceSpec)
    : Prop :=
  exists rid rids limits dflt limit,
    lookup_obj (resourceNames t) name = Some rid /\
    levelIDToResourceID t !! level = Some rids /\ rid ∈ rids /\
    resourcesByLevel t !! level = Some limits /\
    spec_default spec = Int64 dflt /\ defaultJobResources t !! rid = Some (s32 dflt) /\
    spec_limit spec = Int64 limit /\ limits !! rid = Some (s32 limit) /\
    resourceIDToWeight t !! rid =
      Some (match spec_weight spec with Int64 w => s32 w | _ => 0 end).

Definition spec_bad (s : ResourceSpec) : bool :=
  (required (spec_default s)).2 || (required (spec_limit s)).2 ||
  (optional_weight (spec_weight s)).2.

Lemma length_store_int v i n : length (store_int v i n) = length v.
Proof. destruct n; [apply length_insert|done]. Qed.

Lemma store_int_ne v i j n : i <> j -> store_int v i n !! j = v !! j.
Proof. intros H. destruct n; [by apply list_lookup_insert_ne|done]. Qed.

Lemma lookup_resize_old {A} (n i : nat) (x : A) v a :
  v !! i = Some a -> (length v <= n)%nat -> resize n x v !! i = Some a.
Proof.
  intros H Hl. pose proof (lookup_lt_Some _ _ _ H). rewrite lookup_resize by lia. done.
Qed.

Lemma insert_obj_fresh t s :
  lookup_obj t s = None ->
  insert_obj t s = (mkTable (<[s := length (objects_ t)]> (objToIndex_ t)) (objects_ t ++ [s]),
                    length (objects_ t)).
Proof. unfold lookup_obj, insert_obj. by intros ->. Qed.

(** Parsing a resource with a new name. *)
Lemma parse_resource_fresh level t name spec :
  lookup_obj (resourceNames t) name = None -> spec_bad spec = false ->
  let rid := length (objects_ (resourceNames t)) in
  let t' := parse_resource level t (name, spec) in
  lookup_obj (resourceNames t') name = Some rid /\
  (forall s, s <> name -> lookup_obj (resourceNames t') s = lookup_obj (resourceNames t) s) /\
  objects_ (resourceNames t') = objects_ (resourceNames t) ++ [name] /\
  defaultJobResources t' =
    store_int (resize (S rid) 0 (defaultJobResources t)) rid (required (spec_default spec)).1 /\
  resourceIDToWeight t' =
    store_int (resize (S rid) 0 (resourceIDToWeight t)) rid (optional_weight (spec_weight spec)).1 /\
  resourcesByLevel t' =
    alter (fun v => store_int (<[rid := 0]> (resize (S rid) INT32_MAX v)) rid
                      (required (spec_limit spec)).1) level (resourcesByLevel t) /\
  levelIDToResourceID t' = alter (fun rids => rids ++ [rid]) level (levelIDToResourceID t).
Proof.
  intros Hn Hb. unfold parse_resource. cbn [fst snd]. rewrite insert_obj_fresh by done.
  destruct (required (spec_default spec)) as [dflt e1], (required (spec_limit spec)) as [limit e2],
    (optional_weight (spec_weight spec)) as [weight e3]. cbn.
  split_and!; try done.
  - unfold lookup_obj. cbn. apply lookup_insert_eq.
  - intros s Hs. unfold lookup_obj. cbn. by apply lookup_insert_ne.
Qed.

Lemma list_lookup_alter_Some_inv {A} (f : A -> A) (l : list A) (i j : nat) (y : A) :
  alter f i l !! j = Some y ->
  exists x, l !! j = Some x /\ y = if decide (j = i) then f x else x.
Proof.
  destruct (decide (j = i)) as [->|Hne]; [rewrite list_lookup_alter_eq|rewrite list_lookup_alter_ne by done; eauto].
  destruct (l !! i); cbn; [|done]. intros [= <-]. eauto.
Qed.

Lemma parse_resource_wf nl level t name spec :
  tables_wf nl t -> lookup_obj (resourceNames t) name = None -> spec_bad spec = false ->
  tables_wf nl (parse_resource level t (name, spec)).
Proof.
  intros Hwf Hn Hb.
  pose proof (parse_resource_fresh level t name spec Hn Hb) as (_ & _ & Ho & Hd & Hw & Hl & Hr).
  set (t' := parse_resource level t (name, spec)) in *.
  assert (Hlen : length (objects_ (resourceNames t')) = S (length (objects_ (resourceNames t)))).
  { rewrite Ho, length_app. cbn. lia. }
  assert (Hrids : forall l rids, levelIDToResourceID t' !! l = Some rids ->
    exists old, levelIDToResourceID t !! l = Some old /\
      rids = if decide (l = level) then old ++ [length (objects_ (resourceNames t))] else old)
    by (intros l rids; rewrite Hr; apply list_lookup_alter_Some_inv).
  assert (Hlims : forall l limits, resourcesByLevel t' !! l = Some limits ->
    exists old, resourcesByLevel t !! l = Some old /\
      length limits = if decide (l = level) then length (objects_ (resourceNames t')) else length old).
  { intros l limits. rewrite Hl. intros (old & Ho' & ->)%list_lookup_alter_Some_inv. exists old.
    split; [done|]. case_decide; [|done].
    rewrite length_store_int, length_insert, length_resize. lia. }
  destruct Hwf as [W1 W2 W3 W4 W5 W6 W7 W8 W9]. split.
  - unfold t', parse_resource. cbn [fst snd]. pose proof (insert_obj_wf (resourceNames t) name W1) as H.
    destruct (insert_obj (resourceNames t) name), (required (spec_default spec)),
      (required (spec_limit spec)), (optional_weight (spec_weight spec)). exact H.
  - by rewrite Hl, length_alter.
  - by rewrite Hr, length_alter.
  - rewrite Hd, length_store_int, length_resize. lia.
  - rewrite Hw, length_store_int, length_resize. lia.
  - intros l rids rid (old & Hold & ->)%Hrids Hin. rewrite Hlen. case_decide.
    + apply elem_of_app in Hin as [Hin|Hin%list_elem_of_singleton]; [|lia].
      pose proof (W6 _ _ _ Hold Hin). lia.
    + pose proof (W6 _ _ _ Hold Hin). lia.
  - intros l rids limits rid (old & Hold & ->)%Hrids (lims & Hlim & ->)%Hlims Hin. case_decide.
    + rewrite Hlen. apply elem_of_app in Hin as [Hin|Hin%list_elem_of_singleton]; [|lia].
      pose proof (W6 _ _ _ Hold Hin). lia.
    + eapply W7; eauto.
  - intros l limits (lims & Hlim & ->)%Hlims. case_decide; [done|].
    pose proof (W8 _ _ Hlim). lia.
  - intros l rids (old & Hold & ->)%Hrids. case_decide; [|by eapply W9].
    apply NoDup_app. split_and!; [by eapply W9| |apply NoDup_singleton].
    intros x Hx Hin%list_elem_of_singleton. pose proof (W6 _ _ _ Hold Hx). lia.
Qed.

Lemma parse_resource_keeps nl level t name spec l n s :
  tables_wf nl t -> lookup_obj (resourceNames t) name = None -> spec_bad spec = false ->
  configured t l n s -> configured (parse_resource level t (name, spec)) l n s.
Proof.
  intros Hwf Hn Hb (rid & rids & limits & dflt & limit & H1 & H2 & H3 & H4 & H5 & H6 & H7 & H8 & H9).
  pose proof (parse_resource_fresh level t name spec Hn Hb) as (_ & Hs & _ & Hd & Hw & Hl & Hr).
  pose proof (rids_known _ _ Hwf _ _ _ H2 H3) as Hrid.
  set (t' := parse_resource level t (name, spec)) in *. destruct Hwf.
  assert (Hv : forall x v o a, v !! rid = Some a -> (length v <= S (length (objects_ (resourceNames t))))%nat ->
    store_int (resize (S (length (objects_ (resourceNames t)))) x v) (length (objects_ (resourceNames t))) o
      !! rid = Some a).
  { intros x v o a Hx Hle. rewrite store_int_ne by lia. by apply lookup_resize_old. }
  exists rid, (if decide (l = level) then rids ++ [length (objects_ (resourceNames t))] else rids),
    (if decide (l = level)
     then store_int (<[length (objects_ (resourceNames t)) := 0]>
            (resize (S (length (objects_ (resourceNames t)))) INT32_MAX limits))
            (length (objects_ (resourceNames t))) (required (spec_limit spec)).1
     else limits), dflt, limit.
  split_and!; try done.
  - rewrite Hs; [done|congruence].
  - rewrite Hr. case_decide; [subst l|]; by rewrite ?list_lookup_alter_eq, ?list_lookup_alter_ne, ?H2 by congruence.
  - case_decide; set_solver.
  - rewrite Hl. case_decide; [subst l|]; by rewrite ?list_lookup_alter_eq, ?list_lookup_alter_ne, ?H4 by congruence.
  - rewrite Hd. apply Hv; [done|lia].
  - case_decide; [|done]. rewrite store_int_ne, list_lookup_insert_ne by lia.
    pose proof (limits_short0 _ _ H4). apply lookup_resize_old; [done|lia].
  - rewrite Hw. apply Hv; [done|lia].
Qed.

Lemma parse_resource_adds nl level t name spec :
  tables_wf nl t -> lookup_obj (resourceNames t) name = None -> spec_bad spec = false ->
  (level < nl)%nat -> configured (parse_resource level t (name, spec)) level name spec.
Proof.
  intros Hwf Hn Hb Hlvl.
  pose proof (parse_resource_fresh level t name spec Hn Hb) as (Hn' & _ & _ & Hd & Hw & Hl & Hr).
  set (t' := parse_resource level t (name, spec)) in *.
  set (rid := length (objects_ (resourceNames t))) in *. destruct Hwf.
  destruct (lookup_lt_is_Some_2 (levelIDToResourceID t) level) as [rids Hrids]; [lia|].
  destruct (lookup_lt_is_Some_2 (resourcesByLevel t) level) as [limits Hlims]; [lia|].
  unfold spec_bad in Hb.
  destruct (spec_default spec) as [| |dflt] eqn:Ed; try discriminate Hb.
  destruct (spec_limit spec) as [| |limit] eqn:Elim; try discriminate Hb.
  cbn [required fst snd orb store_int] in *.
  eexists rid, (rids ++ [rid]), _, dflt, limit. split_and!; try done.
  - by rewrite Hr, list_lookup_alter_eq, Hrids.
  - set_solver.
  - by rewrite Hl, list_lookup_alter_eq, Hlims.
  - rewrite Hd. apply list_lookup_insert_eq. rewrite length_resize. lia.
  - apply list_lookup_insert_eq. rewrite length_insert, length_resize. lia.
  - rewrite Hw. destruct (spec_weight spec) as [| |w]; cbn in *; [| done|].
    + rewrite lookup_resize_new by lia. done.
    + destruct (w <? 0); [done|]. apply list_lookup_insert_eq. rewrite length_resize. lia.
Qed.

(** ** The whole object *)

(** All resources with the IDs of their levels, in order. *)
Definition flatten (levels : StringTable) (d : list (string * list (string * ResourceSpec)))
    : list (nat * (string * ResourceSpec)) :=
  concat (map (fun l => match lookup_obj levels l.1 with
                        | Some lid => map (pair lid) l.2
                        | None => [] end) d).

Definition level_bad (levels : StringTable) (l : string * list (string * ResourceSpec)) : bool :=
  match lookup_obj levels l.1 with
  | None => true
  | Some _ => existsb (fun r => spec_bad r.2) l.2
  end.

Lemma parse_resources_errors_level lid l t :
  parse_errors (foldl (parse_resource lid) t l) =
    parse_errors t || existsb (fun r => spec_bad r.2) l.
Proof.
  revert t; induction l as [|[n s] l IH]; intros t; cbn; [by rewrite orb_false_r|].
  rewrite IH, orb_assoc. f_equal. unfold parse_resource, spec_bad. cbn.
  destruct (insert_obj (resourceNames t) n), (required (spec_default s)),
    (required (spec_limit s)), (optional_weight (spec_weight s)). cbn. by rewrite !orb_assoc.
Qed.

Lemma parse_levels_errors levels d t :
  parse_errors (foldl (parse_level levels) t d) = parse_errors t || existsb (level_bad levels) d.
Proof.
  revert t; induction d as [|l d IH]; intros t; cbn; [by rewrite orb_false_r|].
  rewrite IH, orb_assoc. f_equal. unfold parse_level, level_bad.
  destruct (lookup_obj levels l.1); cbn; [apply parse_resources_errors_level|by rewrite orb_true_r].
Qed.

Lemma parse_levels_flat levels d t :
  existsb (level_bad levels) d = false ->
  foldl (parse_level levels) t d = foldl (fun t p => parse_resource p.1 t p.2) t (flatten levels d).
Proof.
  revert t; induction d as [|l d IH]; intros t; [done|]. cbn. intros [Hl Hd]%orb_false_iff.
  rewrite foldl_app, <- IH by done. f_equal. unfold parse_level. unfold level_bad in Hl.
  destruct (lookup_obj levels l.1); [|done]. clear Hl. generalize (l.2) as specs. intros specs.
  revert t; induction specs as [|s specs IHs]; intros t; [done|]. apply IHs.
Qed.

Lemma parse_flat_ok nl items t :
  tables_wf nl t -> Forall (fun p => (p.1 < nl)%nat /\ spec_bad p.2.2 = false) items ->
  NoDup (map (fun p => p.2.1) items) ->
  Forall (fun p => lookup_obj (resourceNames t) p.2.1 = None) items ->
  let t' := foldl (fun t p => parse_resource p.1 t p.2) t items in
  tables_wf nl t' /\ (forall l n s, configured t l n s -> configured t' l n s) /\
  Forall (fun p => configured t' p.1 p.2.1 p.2.2) items.
Proof.
  revert t; induction items as [|[lid [name spec]] items IH]; intros t Hwf Hb Hnd Hfresh; [by split_and!|].
  apply Forall_cons in Hb as [[Hl Hb] Hbs]. apply Forall_cons in Hfresh as [Hn Hfresh].
  apply NoDup_cons in Hnd as [Hnin Hnd]. cbn [fst snd foldl] in *.
  pose proof (parse_resource_fresh lid t name spec Hn Hb) as (_ & Hs & _).
  destruct (IH (parse_resource lid t (name, spec))) as (H1 & H2 & H3); [by apply parse_resource_wf|done|done| |].
  { apply Forall_forall. intros p Hp. rewrite Hs; [by apply (proj1 (Forall_forall _ _) Hfresh)|].
    intros E. apply Hnin. rewrite <- E. apply list_elem_of_fmap. eauto. }
  split_and!; [done| |].
  - intros l n s Hc. apply H2. by eapply parse_resource_keeps.
  - constructor; [|done]. apply H2. by eapply parse_resource_adds.
Qed.

Lemma newTables_wf levels : tables_wf (length (objects_ levels)) (newTables levels).
Proof.
  split; cbn; rewrite ?length_replicate; try done; try apply emptyTable_wf.
  - intros l rids rid [-> _]%lookup_replicate_1 H. by apply not_elem_of_nil in H.
  - intros l rids limits rid [-> _]%lookup_replicate_1 _ H. by apply not_elem_of_nil in H.
  - intros l limits [-> _]%lookup_replicate_1. done.
  - intros l rids [-> _]%lookup_replicate_1. constructor.
Qed.

Lemma flatten_names levels d :
  existsb (level_bad levels) d = false ->
  map (fun p => p.2.1) (flatten levels d) = concat (map (fun l => map fst l.2) d).
Proof.
  induction d as [|l d IH]; [done|]. cbn. intros [Hl Hd]%orb_false_iff.
  unfold flatten. cbn. rewrite map_app. f_equal; [|by apply IH].
  unfold level_bad in Hl. destruct (lookup_obj levels l.1); [|done].
  rewrite map_map. by apply map_ext.
Qed.

Lemma flatten_ok levels d :
  table_wf levels -> existsb (level_bad levels) d = false ->
  Forall (fun p => (p.1 < length (objects_ levels))%nat /\ spec_bad p.2.2 = false) (flatten levels d).
Proof.
  intros Hwf. induction d as [|l d IH]; [by constructor|]. cbn. intros [Hl Hd]%orb_false_iff.
  unfold flatten. cbn. apply Forall_app. split; [|by apply IH].
  unfold level_bad in Hl. destruct (lookup_obj levels l.1) as [lid|] eqn:E; [|done].
  apply Forall_map. apply Forall_forall. intros r Hr. cbn. split.
  - apply (proj1 (Hwf _ _)) in E. by eapply lookup_lt_Some.
  - apply not_true_iff_false. intros Hb. rewrite <- not_true_iff_false in Hl. apply Hl.
    apply existsb_exists. exists r. split; [by apply list_elem_of_In|done].
Qed.

Lemma parse_resources_tables levels d :
  table_wf levels -> NoDup (concat (map (fun l => map fst l.2) d)) ->
  match parse_resources levels d with
  | Ret t =>
      tables_wf (length (objects_ levels)) t /\
      forall level specs name spec, (level, specs) ∈ d -> (name, spec) ∈ specs ->
        exists lid, lookup_obj levels level = Some lid /\ configured t lid name spec
  | Throw _ => exists l, l ∈ d /\ level_bad levels l = true
  | _ => False
  end.
Proof.
  intros Hwf Hnd. unfold parse_resources. rewrite parse_levels_errors. cbn [newTables parse_errors orb].
  destruct (existsb (level_bad levels) d) eqn:Hb.
  { apply existsb_exists in Hb as (l & Hin & Hl). exists l. split; [by apply list_elem_of_In|done]. }
  rewrite parse_levels_flat by done.
  destruct (parse_flat_ok (length (objects_ levels)) (flatten levels d) (newTables levels))
    as (H1 & _ & H3); [apply newTables_wf|by apply flatten_ok|by rewrite flatten_names| |].
  { apply Forall_true. intros p. apply lookup_empty. }
  split; [done|]. intros level specs name spec Hl Hs.
  assert (Hlb : level_bad levels (level, specs) = false).
  { apply not_true_iff_false. intros Ht. rewrite <- not_true_iff_false in Hb. apply Hb.
    apply existsb_exists. eexists. split; [by apply list_elem_of_In|done]. }
  unfold level_bad in Hlb. cbn [fst snd] in Hlb. destruct (lookup_obj levels level) as [lid|] eqn:El; [|done].
  exists lid. split; [done|]. rewrite Forall_forall in H3. apply (H3 (lid, (name, spec))).
  apply list_elem_of_In, in_concat. exists (map (pair lid) specs). split.
  - apply in_map_iff. exists (level, specs). cbn [fst snd]. rewrite El. split; [done|by apply list_elem_of_In].
  - apply in_map_iff. exists (name, spec). split; [done|by apply list_elem_of_In].
Qed.

(** If no resource name is used twice, the constructor rejects the
    "resources" object exactly for an unknown level or a bad field, and
    otherwise builds consistent tables -- every resource ID of a level
    indexes the defaults, the weights and the limits of that level -- that
    hold, as [int]s, the configured numbers of every resource. *)
Theorem parse_resources_consistent levels d :
  table_wf levels -> NoDup (concat (map (fun l => map fst l.2) d)) ->
  match parse_resources levels d with
  | Ret t =>
      tables_wf (length (objects_ levels)) t /\
      forall level specs name spec, (level, specs) ∈ d -> (name, spec) ∈ specs ->
        exists lid, lookup_obj levels level = Some lid /\ configured t lid name spec
  | Throw _ => exists l, l ∈ d /\ level_bad levels l = true
  | _ => False
  end.
Proof. apply parse_resources_tables. Qed.

(** A sample: two levels below the instance. *)
Definition sample_levels : StringTable := parse_levels ["host"; "db"].
Definition plain_spec (dflt limit : Z) : ResourceSpec := mkSpec (Int64 dflt) (Int64 limit) Absent.

Lemma insert_objs_wf l t : table_wf t -> table_wf (foldl (fun t s => (insert_obj t s).1) t l).
Proof. revert t; induction l as [|s l IH]; intros t H; cbn; [done|]. by apply IH, insert_obj_wf. Qed.

Lemma parse_levels_wf configured : table_wf (parse_levels configured).
Proof.
  apply insert_obj_wf, insert_objs_wf. apply (insert_obj_wf emptyTable "instance"), emptyTable_wf.
Qed.

Lemma parse_resources_consistent_witness :
  exists t, parse_resources sample_levels
      [("host", [("slots", plain_spec 1 4)]); ("db", [("conns", plain_spec 2 9)])] = Ret t /\
    tables_wf 4 t /\ configured t 2 "conns" (plain_spec 2 9).
Proof.
  pose proof (parse_resources_consistent sample_levels
    [("host", [("slots", plain_spec 1 4)]); ("db", [("conns", plain_spec 2 9)])]
    (parse_levels_wf _)) as H.
  destruct (parse_resources sample_levels _) as [t| | |] eqn:E; try discriminate E.
  exists t. split; [reflexivity|].
  destruct H as [H1 H2]; [apply (bool_decide_unpack _); vm_compute; exact I|].
  split; [exact H1|].
  destruct (H2 "db" [("conns", plain_spec 2 9)] "conns" (plain_spec 2 9)) as (lid & Hl & Hc);
    [set_solver|set_solver|].
  vm_compute in Hl. injection Hl as <-. exact Hc.
Defined.

(** A resource name that two levels share, which the constructor
    accepts, shrinks the vectors that are resized to the reused ID: a
    resource of another level then has no default amount and no weight,
    although its ID is still listed for its level. *)
Theorem shared_resource_truncates :
  exists t rids,
    parse_resources sample_levels
      [("host", [("slots", plain_spec 1 4); ("memory", plain_spec 2 9)]);
       ("db", [("slots", plain_spec 1 4)])] = Ret t /\
    lookup_obj (resourceNames t) "memory" = Some 1%nat /\
    levelIDToResourceID t !! 1%nat = Some rids /\ 1%nat ∈ rids /\
    defaultJobResources t !! 1%nat = None /\ resourceIDToWeight t !! 1%nat = None.
Proof.
  eexists _, _. split; [vm_compute; reflexivity|]. split; [vm_compute; reflexivity|].
  split; [vm_compute; reflexivity|]. split; [set_solver|]. split; reflexivity.
Qed.
