(* ===== verification/Jobs.v ===== *)
(** [config/JobFilters.{h,cpp}], which nodes a job may use, and the parts of
    [config/Job.{h,cpp}] that the scheduler consults.

    A finite double is a rational.  [f * numeric_limits<size_t>::max()] is
    exactly [f * 2^64], since the limit rounds to a power of two; converting
    a value of 2^64 or more to [size_t] has no defined result. *)

From stdpp Require Import base gmap strings list.
From Stdlib Require Import ZArith QArith Qround Lia.
From S2P Require Import Prelude Dynamic Scheduling.

#[local] Open Scope Z_scope.

(** ** Filters *)

(** An absent regex is an [empty()] one.  [fractionOfNodes_] is not
    initialised by the default constructor; [fractionCutoff_] is [None] where
    it has no defined value. *)
Record JobFilters := mkFilters {
  whitelist_ : gset string;
  whitelistRegex_ : option string;
  blacklist_ : gset string;
  blacklistRegex_ : option string;
  tagWhitelist_ : list string;
  fractionOfNodes_ : option Q;
  fractionCutoff_ : option Z;
  isEmpty_ : bool;
  cb_ : option (Node -> bool)
}.

(** [JobFilters()]. *)
Definition noFilters : JobFilters := mkFilters ∅ None ∅ None [] None None true None.

(** [setFractionOfNodes]: the fraction and the cutoff. *)
Definition setFractionOfNodes (f : Q) : Q * option Z :=
  let f := if Qle_bool f 0 then 1%Q else f in
  (f, if Qle_bool 1 f then None else Some (Qfloor (f * inject_Z (2 ^ 64)))).

(** [isNonTriviallyEmpty]. *)
Definition isNonTriviallyEmpty (cb : option (Node -> bool)) (white : gset string)
    (white_re : option string) (black : gset string) (black_re : option string)
    (tags : list string) (fraction : Q) : bool :=
  negb (bool_decide (is_Some cb)) && bool_decide (white = ∅) && negb (bool_decide (is_Some white_re))
  && bool_decide (black = ∅) && negb (bool_decide (is_Some black_re))
  && bool_decide (tags = []) && Qeq_bool fraction 1.

Arguments isNonTriviallyEmpty : simpl never.

Section Filters.

(** folly's conversions, [boost::regex] and [std::hash]. *)
Context (asString : dynamic -> outcome string).
Context (asDouble : dynamic -> outcome Q).
Context (ofDouble : Q -> dynamic).
Context (regex_valid : string -> bool).
Context (regex_search : string -> string -> bool).  (* pattern, string *)
Context (hasher : string -> string -> Z).

(** [for (const auto& item : jt->second) ... item.asString()]. *)
Definition parse_strings (d : option dynamic) : outcome (list string) :=
  match d with
  | None => Ret []
  | Some (DArray l) => mapM asString l
  | Some _ => Throw "TypeError"
  end.

Definition parse_regex (d : option dynamic) : outcome (option string) :=
  match d with
  | None => Ret None
  | Some d =>
      let* s := asString d in
      require (regex_valid s) "regex_error" ;;; Ret (Some s)
  end.

(** [JobFilters(const dynamic&, NodeDoesPassCob)]. *)
Definition JobFilters_of (d : dynamic) (cb : option (Node -> bool)) : outcome JobFilters :=
  match d with
  | DObject kvs =>
      let* white := parse_strings (assoc "whitelist" kvs) in
      let* white_re := parse_regex (assoc "whitelist_regex" kvs) in
      let* black := parse_strings (assoc "blacklist" kvs) in
      let* black_re := parse_regex (assoc "blacklist_regex" kvs) in
      let* tags := parse_strings (assoc "tag_whitelist" kvs) in
      let* f := asDouble (default (ofDouble 1) (assoc "fraction_of_nodes" kvs)) in
      let '(fraction, cutoff) := setFractionOfNodes f in
      Ret (mkFilters (list_to_set white) white_re (list_to_set black) black_re tags
             (Some fraction) cutoff
             (isNonTriviallyEmpty cb (list_to_set white) white_re (list_to_set black) black_re
                tags fraction) cb)
  | _ => Throw "TypeError"
  end.

Definition strings_toDynamic (l : list string) : dynamic := DArray (map DString l).

(** [toDynamic]: the keys it sets, in order; an uninitialised fraction is
    never read, since such filters are empty. *)
Definition filters_toDynamic (f : JobFilters) : dynamic :=
  DObject (if isEmpty_ f then [] else
    (if bool_decide (whitelist_ f = ∅) then []
     else [("whitelist", strings_toDynamic (elements (whitelist_ f)))]) ++
    (match whitelistRegex_ f with None => [] | Some re => [("whitelist_regex", DString re)] end) ++
    (if bool_decide (blacklist_ f = ∅) then []
     else [("blacklist", strings_toDynamic (elements (blacklist_ f)))]) ++
    (match blacklistRegex_ f with None => [] | Some re => [("blacklist_regex", DString re)] end) ++
    (if bool_decide (tagWhitelist_ f = []) then []
     else [("tag_whitelist", strings_toDynamic (tagWhitelist_ f))]) ++
    (match fractionOfNodes_ f with
     | Some q => if Qle_bool 1 q then [] else [("fraction_of_nodes", ofDouble q)]
     | None => [] end)).

(** [doesPass(salt, s)]. *)
Definition doesPass_name (f : JobFilters) (salt s : string) : outcome bool :=
  if isEmpty_ f then Ret true
  else if (bool_decide (whitelist_ f = ∅) || bool_decide (s ∈ whitelist_ f))
    && (match whitelistRegex_ f with None => true | Some re => regex_search re s end)
    && (bool_decide (blacklist_ f = ∅) || negb (bool_decide (s ∈ blacklist_ f)))
    && (match blacklistRegex_ f with None => true | Some re => negb (regex_search re s) end)
  then match fractionOfNodes_ f with
       | None => Undef "fractionOfNodes_"
       | Some q =>
           if Qeq_bool q 1 then Ret true
           else match fractionCutoff_ f with
                | None => Undef "fractionCutoff_"
                | Some cutoff => Ret (hasher s salt <? cutoff)
                end
       end
  else Ret false.

(** [doesPass(salt, n)]. *)
Definition doesPass (f : JobFilters) (salt : string) (n : Node) : outcome bool :=
  let* b := doesPass_name f salt (node_name n) in
  Ret (b && (bool_decide (tagWhitelist_ f = []) || hasTags n (tagWhitelist_ f))
       && (match cb_ f with None => true | Some cb => cb n end)).

(** ** Jobs *)

(** The fields of [Job] that matter for scheduling.  [job_valid] tells
    whether [errors_] is empty; a missing level is [NotFound]. *)
Record Job := mkJob {
  job_id : nat;
  job_name : string;
  enabled_ : bool;
  job_valid : bool;
  levelForTasks_ : nat;
  job_priority : Q;
  resources_ : list Z;
  filters_ : list JobFilters;
  levelForHostPlacement_ : option nat;
  hostPlacement_ : string;
  dependsOn_ : list nat
}.

Definition canRun (j : Job) : bool := enabled_ j && job_valid j.

(** [requiredHostForTask]. *)
Definition requiredHostForTask (j : Job) (n : Node) : string :=
  if negb (bool_decide (hostPlacement_ j = "")) then hostPlacement_ j
  else match levelForHostPlacement_ j with
       | None => ""
       | Some level =>
           match List.find (fun n => Nat.eqb (node_level n) level) (traverseUp n) with
           | Some n => node_name n
           | None => ""
           end
       end.

Inductive ShouldRun := Yes | NoDisabled | NoAvoided.
#[global] Instance ShouldRun_eq_dec : EqDecision ShouldRun.
Proof. solve_decision. Defined.

(** [shouldRunOn]: the loop over the node and its ancestors. *)
Fixpoint shouldRun_path (j : Job) (path : list Node) : outcome ShouldRun :=
  match path with
  | [] => Ret Yes
  | n :: path' =>
      if negb (node_enabled n) then Ret NoDisabled
      else match filters_ j !! node_level n with
           | None => Undef "filters_[level]"
           | Some f =>
               let* b := doesPass f (job_name j) n in
               if (b : bool) then shouldRun_path j path' else Ret NoAvoided
           end
  end.
Definition shouldRunOn (j : Job) (n : Node) : outcome ShouldRun := shouldRun_path j (traverseUp n).

End Filters.

(** ** Filters print and parse *)

Section FiltersFacts.
Context (asString : dynamic -> outcome string) (asDouble : dynamic -> outcome Q).
Context (ofDouble : Q -> dynamic) (regex_valid : string -> bool).
(** folly: a string or a double converts to itself. *)
Context (HasString : forall s, asString (DString s) = Ret s).
Context (HasDouble : forall q, asDouble (ofDouble q) = Ret q).

Abbreviation parse := (JobFilters_of asString asDouble ofDouble regex_valid).

Lemma parse_strings_print l : parse_strings asString (Some (strings_toDynamic l)) = Ret l.
Proof using HasString.
  cbn. induction l as [|s l IH]; [done|]. cbn. rewrite HasString. cbn. by rewrite IH.
Qed.

Definition valid_regex (re : option string) : Prop :=
  match re with Some s => regex_valid s = true | None => True end.

Lemma parse_regex_valid d re : parse_regex asString regex_valid d = Ret re -> valid_regex re.
Proof.
  destruct d as [d|]; cbn; [|by intros [= <-]]. intros H.
  apply bind_Ret_iff in H as (s & _ & H). apply bind_Ret_iff in H as (u & Hr & [= <-]).
  by apply require_Ret in Hr.
Qed.

(** What the constructor builds. *)
Record filters_wf (f : JobFilters) : Prop := {
  wf_white_re : valid_regex (whitelistRegex_ f);
  wf_black_re : valid_regex (blacklistRegex_ f);
  wf_fraction : exists q, fractionOfNodes_ f = Some q /\ (0 < q)%Q /\
    setFractionOfNodes q = (q, fractionCutoff_ f) /\
    isEmpty_ f = isNonTriviallyEmpty (cb_ f) (whitelist_ f) (whitelistRegex_ f) (blacklist_ f)
                   (blacklistRegex_ f) (tagWhitelist_ f) q
}.

Lemma setFraction_pos f : (0 < (setFractionOfNodes f).1)%Q.
Proof.
  unfold setFractionOfNodes. cbn. destruct (Qle_bool f 0) eqn:E; [reflexivity|].
  apply Qnot_le_lt. intros H. apply Qle_bool_iff in H. congruence.
Qed.

Lemma setFraction_idem f :
  setFractionOfNodes (setFractionOfNodes f).1 = setFractionOfNodes f.
Proof.
  pose proof (setFraction_pos f) as H. unfold setFractionOfNodes at 1.
  destruct (Qle_bool (setFractionOfNodes f).1 0) eqn:E.
  { apply Qle_bool_iff, Qle_not_lt in E. done. }
  by unfold setFractionOfNodes.
Qed.

Lemma JobFilters_of_wf d cb f : parse d cb = Ret f -> filters_wf f /\ cb_ f = cb.
Proof.
  destruct d as [| | | | | |kvs]; try discriminate. unfold JobFilters_of. intros H.
  apply bind_Ret_iff in H as (white & _ & H). apply bind_Ret_iff in H as (wre & Hw & H).
  apply bind_Ret_iff in H as (black & _ & H). apply bind_Ret_iff in H as (bre & Hb & H).
  apply bind_Ret_iff in H as (tags & _ & H). apply bind_Ret_iff in H as (q & _ & H).
  pose proof (setFraction_idem q) as Hi. pose proof (setFraction_pos q) as Hp.
  destruct (setFractionOfNodes q) as [fr cutoff] eqn:Eq. injection H as <-. cbn in *.
  split; [|done]. split; cbn; [by eapply parse_regex_valid|by eapply parse_regex_valid|].
  exists fr. by split_and!.
Qed.

Lemma parse_regex_print re :
  valid_regex re -> parse_regex asString regex_valid (DString <$> re) = Ret re.
Proof using HasString. destruct re as [s|]; cbn; [|done]. intros Hv. by rewrite HasString; cbn; rewrite Hv. Qed.

(** What the printed object has under each key. *)
Lemma print_lookup f kvs q :
  filters_toDynamic ofDouble f = DObject kvs -> isEmpty_ f = false -> fractionOfNodes_ f = Some q ->
  assoc "whitelist" kvs = (if bool_decide (whitelist_ f = ∅) then None
                           else Some (strings_toDynamic (elements (whitelist_ f)))) /\
  assoc "whitelist_regex" kvs = DString <$> whitelistRegex_ f /\
  assoc "blacklist" kvs = (if bool_decide (blacklist_ f = ∅) then None
                           else Some (strings_toDynamic (elements (blacklist_ f)))) /\
  assoc "blacklist_regex" kvs = DString <$> blacklistRegex_ f /\
  assoc "tag_whitelist" kvs = (if bool_decide (tagWhitelist_ f = []) then None
                               else Some (strings_toDynamic (tagWhitelist_ f))) /\
  assoc "fraction_of_nodes" kvs = (if Qle_bool 1 q then None else Some (ofDouble q)).
Proof.
  intros [= <-] He Hq. rewrite He, Hq.
  destruct (bool_decide (whitelist_ f = ∅)), (whitelistRegex_ f), (bool_decide (blacklist_ f = ∅)),
    (blacklistRegex_ f), (bool_decide (tagWhitelist_ f = [])), (Qle_bool 1 q); by split_and!.
Qed.

Lemma parse_list_print (w : gset string) :
  exists l, parse_strings asString
      (if bool_decide (w = ∅) then None else Some (strings_toDynamic (elements w))) = Ret l /\
    list_to_set l = w.
Proof using HasString.
  case_bool_decide as H; [exists []; by subst|]. exists (elements w).
  rewrite parse_strings_print. split; [done|]. apply list_to_set_elements_L.
Qed.

Lemma parse_tags_print l :
  parse_strings asString (if bool_decide (l = []) then None else Some (strings_toDynamic l)) = Ret l.
Proof using HasString. case_bool_decide as H; [by subst|]. by rewrite parse_strings_print. Qed.

Lemma isNonTriviallyEmpty_inv cb w wre b bre tags q :
  isNonTriviallyEmpty cb w wre b bre tags q = true ->
  cb = None /\ w = ∅ /\ wre = None /\ b = ∅ /\ bre = None /\ tags = [] /\ (q == 1)%Q.
Proof.
  unfold isNonTriviallyEmpty. rewrite !andb_true_iff, !negb_true_iff, !bool_decide_eq_true,
    !bool_decide_eq_false, !eq_None_not_Some, Qeq_bool_iff. tauto.
Qed.

(** Filters with the same effect. *)
Definition same_filters (f g : JobFilters) : Prop :=
  forall regex_search hasher salt n,
    doesPass regex_search hasher f salt n = doesPass regex_search hasher g salt n.

(** The printed form of filters that are not empty parses, with the fraction
    [q'] that its key stands for. *)
Lemma parse_print_nonempty f q :
  filters_wf f -> isEmpty_ f = false -> cb_ f = None -> fractionOfNodes_ f = Some q ->
  let q' := if Qle_bool 1 q then 1%Q else q in
  parse (filters_toDynamic ofDouble f) None =
    let '(fraction, cutoff) := setFractionOfNodes q' in
    Ret (mkFilters (whitelist_ f) (whitelistRegex_ f) (blacklist_ f) (blacklistRegex_ f)
           (tagWhitelist_ f) (Some fraction) cutoff
           (isNonTriviallyEmpty None (whitelist_ f) (whitelistRegex_ f) (blacklist_ f)
              (blacklistRegex_ f) (tagWhitelist_ f) fraction) None).
Proof using HasString HasDouble.
  intros Hwf He Hcb Hq q'.
  destruct (filters_toDynamic ofDouble f) as [| | | | | |kvs] eqn:E; try discriminate.
  destruct (print_lookup f kvs q) as (K1 & K2 & K3 & K4 & K5 & K6); try done.
  unfold JobFilters_of. rewrite K1, K2, K3, K4, K5, K6.
  destruct (parse_list_print (whitelist_ f)) as (white & -> & Hw). cbn [mbind outcome_bind].
  rewrite parse_regex_print by apply Hwf. cbn [mbind outcome_bind].
  destruct (parse_list_print (blacklist_ f)) as (black & -> & Hb). cbn [mbind outcome_bind].
  rewrite parse_regex_print by apply Hwf. cbn [mbind outcome_bind].
  rewrite parse_tags_print. cbn [mbind outcome_bind].
  assert (Hf : asDouble (default (ofDouble 1) (if Qle_bool 1 q then None else Some (ofDouble q)))
               = Ret q') by (unfold q'; destruct (Qle_bool 1 q); apply HasDouble).
  rewrite Hf. cbn [mbind outcome_bind]. by rewrite Hw, Hb.
Qed.

(** The printed form of a job's filters parses back to filters that
    pass exactly the same nodes, for every filter the constructor can build
    from a configuration with a fraction of nodes of at most 1, whatever the
    regular expressions and the hash do. *)
Theorem filters_roundtrip d f q :
  parse d None = Ret f -> fractionOfNodes_ f = Some q -> (q <= 1)%Q ->
  exists f', parse (filters_toDynamic ofDouble f) None = Ret f' /\ same_filters f f'.
Proof using HasString HasDouble.
  intros Hd Hq Hle. apply JobFilters_of_wf in Hd as [Hwf Hcb].
  destruct (wf_fraction _ Hwf) as (q0 & Hq0 & Hpos & Hset & Hempty).
  rewrite Hq in Hq0. injection Hq0 as <-. destruct (isEmpty_ f) eqn:He.
  - symmetry in Hempty. apply isNonTriviallyEmpty_inv in Hempty as (_ & _ & _ & _ & _ & Ht & _).
    unfold filters_toDynamic. rewrite He. cbn. rewrite HasDouble. cbn. eexists. split; [done|].
    intros rs h salt n. unfold doesPass, doesPass_name. cbn. by rewrite He, Ht, Hcb.
  - rewrite (parse_print_nonempty f q) by done.
    destruct (Qle_bool 1 q) eqn:E1.
    + apply Qle_bool_iff in E1. assert (Heq : (q == 1)%Q) by (by apply Qle_antisym).
      change (setFractionOfNodes 1) with (1%Q, @None Z). cbn beta iota zeta.
      eexists. split; [done|]. intros rs h salt n. unfold doesPass, doesPass_name. cbn.
      rewrite He, Hq, Hcb, (proj2 (Qeq_bool_iff q 1) Heq).
      assert (Hn : isNonTriviallyEmpty None (whitelist_ f) (whitelistRegex_ f) (blacklist_ f)
        (blacklistRegex_ f) (tagWhitelist_ f) 1 = false).
      { rewrite Hempty, Hcb. unfold isNonTriviallyEmpty. by rewrite (proj2 (Qeq_bool_iff q 1) Heq). }
      by rewrite Hn.
    + rewrite Hset. cbn. eexists. split; [done|]. intros rs h salt n.
      unfold doesPass, doesPass_name. cbn. by rewrite <- Hcb, <- Hempty, He, Hq, Hcb.
Qed.

End FiltersFacts.

(** Sample conversions: only the exact types convert; the two integers of a
    double are read as a fraction. *)
Definition only_string (d : dynamic) : outcome string :=
  match d with DString s => Ret s | _ => Throw "TypeError" end.
Definition only_double (d : dynamic) : outcome Q :=
  match d with DDouble m e => Ret (m # Z.to_pos e) | _ => Throw "TypeError" end.
Definition as_double (q : Q) : dynamic := DDouble (Qnum q) (Zpos (Qden q)).

Definition sample_filters : dynamic :=
  DObject [("blacklist", DArray [DString "db7"]); ("fraction_of_nodes", as_double (1 # 2))].
Abbreviation sample_parse := (JobFilters_of only_string only_double as_double (fun _ => true)).

Lemma filters_roundtrip_witness :
  exists f f', sample_parse sample_filters None = Ret f /\
    sample_parse (filters_toDynamic as_double f) None = Ret f' /\ same_filters f f'.
Proof.
  assert (Hq : match sample_parse sample_filters None with
               | Ret f => fractionOfNodes_ f | _ => None end = Some (1 # 2)) by reflexivity.
  destruct (sample_parse sample_filters None) as [f| | |] eqn:E; try discriminate Hq.
  exists f.
  destruct (filters_roundtrip only_string only_double as_double (fun _ => true)
    (fun s => eq_refl) (fun q => match q with m # e => eq_refl end)
    sample_filters f (1 # 2) E Hq) as (f' & H1 & H2); [discriminate|].
  exists f'. split; [reflexivity|]. split; [exact H1|exact H2].
Defined.
