(* ===== verification/Cron.v ===== *)
(** Crontab selectors ([cron/CrontabSelector.cpp]), which match a periodic
    integer such as the month or the minute, and the crontab item that matches
    seconds since the epoch ([cron/EpochCrontabItem.cpp]).

    [dynamic::asInt] is a parameter; the ranges are those of the code, and
    64-bit overflow in the search for a match is undefined behaviour. *)

From stdpp Require Import base gmap strings list pretty sorting.
From Stdlib Require Import ZArith Ascii Lia.
From S2P Require Import Prelude Dynamic.

#[local] Open Scope Z_scope.

(** ** Selectors *)

Record CrontabSelector := mkSelector {
  sortedValues_ : list Z;
  start_ : Z;
  end_ : Z;
  period_ : Z;
  minVal_ : Z;
  maxVal_ : Z
}.

(** [transform(s, ::tolower)]. *)
Definition tolower (c : ascii) : ascii :=
  let n := nat_of_ascii c in
  if (65 <=? n)%nat && (n <=? 90)%nat then ascii_of_nat (n + 32) else c.
Fixpoint lowercase (s : string) : string :=
  match s with
  | EmptyString => EmptyString
  | String c s' => String (tolower c) (lowercase s')
  end.

(** [std::sort] on integers. *)
Definition sort_ints (l : list Z) : list Z := merge_sort Z.le l.

Section Parse.
Context (asInt : dynamic -> outcome Z).
Context (min_val max_val : Z) (str_to_value : option (string -> outcome Z)).

(** [parseValue]. *)
Definition parseValue (d : dynamic) : outcome Z :=
  let* res :=
    match d with
    | DInt n => Ret n
    | DString s =>
        match str_to_value with
        | None => Throw "Cannot parse string"
        | Some f => f (lowercase s)
        end
    | _ => Throw "Cannot parse"
    end in
  if (res <? min_val) || (max_val <? res) then Throw "Value out of range" else Ret res.

Definition defaultSelector : CrontabSelector := mkSelector [] min_val max_val 1 min_val max_val.
Definition with_values (sel : CrontabSelector) (l : list Z) : CrontabSelector :=
  mkSelector l (start_ sel) (end_ sel) (period_ sel) (minVal_ sel) (maxVal_ sel).

(** One key of a selector that is an object. *)
Definition parse_key (sel : CrontabSelector) (kv : string * dynamic) : outcome CrontabSelector :=
  if bool_decide (kv.1 = "period") then
    let* p := asInt kv.2 in
    if (p <? 1) || (maxVal_ sel - minVal_ sel <=? p) then Throw "period not in range"
    else Ret (mkSelector (sortedValues_ sel) (start_ sel) (end_ sel) p (minVal_ sel) (maxVal_ sel))
  else
    let* val := parseValue kv.2 in
    if bool_decide (kv.1 = "start") then
      Ret (mkSelector (sortedValues_ sel) val (end_ sel) (period_ sel) (minVal_ sel) (maxVal_ sel))
    else if bool_decide (kv.1 = "end") then
      Ret (mkSelector (sortedValues_ sel) (start_ sel) val (period_ sel) (minVal_ sel) (maxVal_ sel))
    else Throw "Unknown key".

(** [CrontabSelector::CrontabSelector]. *)
Definition CrontabSelector_of (d : dynamic) : outcome CrontabSelector :=
  let* sel :=
    match d with
    | DInt _ | DString _ =>
        let* v := parseValue d in Ret (with_values defaultSelector [v])
    | DArray l =>
        let* vs := mapM parseValue l in Ret (with_values defaultSelector vs)
    | DObject kvs => foldM parse_key defaultSelector kvs
    | _ => Throw "Bad type for crontab selector"
    end in
  Ret (with_values sel (sort_ints (sortedValues_ sel))).

End Parse.

(** [std::lower_bound] in a sorted vector. *)
Definition lower_bound (l : list Z) (t : Z) : option Z := List.find (fun v => t <=? v) l.

(** [findFirstMatch]: the match, and whether it wrapped around. *)
Definition findFirstMatch (sel : CrontabSelector) (t : Z) : outcome (Z * bool) :=
  match sortedValues_ sel with
  | v :: _ =>
      Ret match lower_bound (sortedValues_ sel) t with
          | None => (v, true)
          | Some i => (i, false)
          end
  | [] =>
      if t <? start_ sel then Ret (start_ sel, false)
      else
        let next := t + Z.rem (period_ sel - Z.rem (t - start_ sel) (period_ sel)) (period_ sel) in
        if INT64_MAX <? next then Undef "signed overflow"
        else Ret (if end_ sel <? next then (start_ sel, true) else (next, false))
  end.

(** [empty]. *)
Definition sel_empty (sel : CrontabSelector) : bool :=
  bool_decide (sortedValues_ sel = []) && (minVal_ sel =? start_ sel) && (maxVal_ sel =? end_ sel)
  && (1 =? period_ sel).

(** [getPrintable]. *)
Definition getPrintable (sel : CrontabSelector) : string :=
  let values := String.concat "," (map pretty (sortedValues_ sel)) in
  let range := (pretty (start_ sel) +:+ "-" +:+ pretty (end_ sel) +:+ ":" +:+ pretty (period_ sel))%string in
  if negb ((start_ sel =? minVal_ sel) && (end_ sel =? maxVal_ sel) && (period_ sel =? 1)) then
    match sortedValues_ sel with
    | [] => range
    | _ => (values +:+ "/" +:+ range)%string
    end
  else match sortedValues_ sel with
       | [] => "*"
       | _ => values
       end.

(** ** Items that match the epoch *)

(** [std::numeric_limits<time_t>::max()]. *)
Definition TIME_MAX : Z := INT64_MAX.

(** [dynamic::getDefault(key)]: the default is an empty object. *)
Definition getDefault (kvs : list (string * dynamic)) (k : string) : dynamic :=
  default (DObject []) (assoc k kvs).

(** [EpochCrontabItem::EpochCrontabItem]. *)
Definition EpochCrontabItem_of (asInt : dynamic -> outcome Z) (kvs : list (string * dynamic))
    : outcome CrontabSelector :=
  let* sel := CrontabSelector_of asInt 0 TIME_MAX None (getDefault kvs "epoch") in
  if bool_decide (length kvs = 1%nat) then Ret sel else Throw "Can only have the 'epoch' key".

(** [EpochCrontabItem::findFirstMatch]. *)
Definition epoch_findFirstMatch (epoch_sel_ : CrontabSelector) (t : Z) : outcome (option Z) :=
  let* (time, carry) := findFirstMatch epoch_sel_ t in
  Ret (if (carry : bool) then None else Some time).

(** ** What a selector matches *)

Definition selects (sel : CrontabSelector) (v : Z) : Prop :=
  match sortedValues_ sel with
  | [] => start_ sel <= v <= end_ sel /\ (period_ sel | v - start_ sel)
  | vs => v ∈ vs
  end.

(** What the constructor guarantees. *)
Record selector_wf (sel : CrontabSelector) : Prop := {
  sw_sorted : Sorted Z.le (sortedValues_ sel);
  sw_values : forall v, v ∈ sortedValues_ sel -> minVal_ sel <= v <= maxVal_ sel;
  sw_start : minVal_ sel <= start_ sel <= maxVal_ sel;
  sw_end : minVal_ sel <= end_ sel <= maxVal_ sel;
  sw_period : 1 <= period_ sel <= Z.max 1 (maxVal_ sel - minVal_ sel)
}.

(** What it does not check: the range is not reversed. *)
Definition in_order (sel : CrontabSelector) : Prop :=
  sortedValues_ sel = [] -> start_ sel <= end_ sel.

Lemma selects_range sel v : selector_wf sel -> selects sel v -> minVal_ sel <= v <= maxVal_ sel.
Proof.
  intros [_ Hv Hs He _]. unfold selects. destruct (sortedValues_ sel) as [|w l] eqn:E.
  - lia.
  - apply Hv.
Qed.

Lemma lower_bound_Some l t v :
  Sorted Z.le l -> lower_bound l t = Some v ->
  v ∈ l /\ t <= v /\ forall u, u ∈ l -> t <= u -> v <= u.
Proof.
  intros Hs Hf. apply Sorted_StronglySorted in Hs; [|intros ? ? ?; lia].
  induction Hs as [|w l Hs IH Hw]; [done|]. cbn in Hf. destruct (Z.leb_spec t w).
  - injection Hf as <-. split; [by left|]. split; [done|].
    intros u [->|Hu]%elem_of_cons _; [lia|]. rewrite Forall_forall in Hw. by apply Hw.
  - destruct (IH Hf) as (H1 & H2 & H3). split; [by right|]. split; [done|].
    intros u [->|Hu]%elem_of_cons Hle; [lia|]. by apply H3.
Qed.

Lemma lower_bound_None l t u : lower_bound l t = None -> u ∈ l -> u < t.
Proof.
  intros Hf Hu. pose proof (List.find_none _ _ Hf u) as H. rewrite <- list_elem_of_In in H.
  specialize (H Hu). cbn in H. lia.
Qed.

(** The next member of an arithmetic progression. *)
Lemma next_in_progression p s t :
  0 < p -> s <= t ->
  let next := t + Z.rem (p - Z.rem (t - s) p) p in
  t <= next < t + p /\ (p | next - s) /\ forall u, (p | u - s) -> t <= u -> next <= u.
Proof.
  intros Hp Hst next. unfold next.
  rewrite (Z.rem_mod_nonneg (t - s)) by lia.
  pose proof (Z.mod_pos_bound (t - s) p Hp) as Hb.
  rewrite Z.rem_mod_nonneg by lia.
  pose proof (Z.mod_pos_bound (p - (t - s) mod p) p Hp) as Hb2.
  assert (Hd : (p | t + (p - (t - s) mod p) mod p - s)).
  { apply Z.mod_divide; [lia|].
    replace (t + (p - (t - s) mod p) mod p - s) with ((t - s) + (p - (t - s) mod p) mod p) by lia.
    rewrite Z.add_mod_idemp_r by lia.
    replace (t - s + (p - (t - s) mod p)) with (p + ((t - s) - (t - s) mod p)) by lia.
    rewrite (Z.div_mod (t - s) p) at 1 by lia.
    replace (p + (p * ((t - s) / p) + (t - s) mod p - (t - s) mod p)) with ((1 + (t - s) / p) * p) by lia.
    by apply Z.mod_mul; lia. }
  split; [lia|]. split; [done|]. intros u [k Hk] Hu.
  destruct Hd as [j Hj]. set (next0 := t + _) in *. destruct (Z.le_gt_cases j k) as [Hjk|Hjk].
  - apply (Z.mul_le_mono_nonneg_r _ _ p) in Hjk; lia.
  - assert ((k + 1) * p <= j * p) by (apply Z.mul_le_mono_nonneg_r; lia). lia.
Qed.

(** [findFirstMatch] on a selector that the constructor made. *)
Lemma findFirstMatch_ok sel t :
  selector_wf sel -> in_order sel -> t + period_ sel <= INT64_MAX ->
  exists v carry, findFirstMatch sel t = Ret (v, carry) /\ selects sel v /\
    (carry = false -> t <= v /\ forall u, selects sel u -> t <= u -> v <= u) /\
    (carry = true -> forall u, selects sel u -> v <= u < t).
Proof.
  intros [Hs Hv Hst He Hp] Ho Hmax. unfold findFirstMatch, selects.
  unfold in_order in Ho. destruct (sortedValues_ sel) as [|w l] eqn:E.
  - specialize (Ho eq_refl). destruct (Z.ltb_spec t (start_ sel)).
    { eexists _, _. split; [done|]. split; [|split; [intros _; split; [lia|intros u [? _] _; lia]|done]].
      split; [lia|]. exists 0. lia. }
    destruct (next_in_progression (period_ sel) (start_ sel) t) as (H1 & H2 & H3); [lia..|].
    cbv zeta in *. set (next := t + Z.rem _ _) in *. rewrite (proj2 (Z.ltb_ge INT64_MAX next)) by lia.
    destruct (Z.ltb_spec (end_ sel) next); (eexists _, _; split; [reflexivity|]).
    + split; [split; [lia|exists 0; lia]|]. split; [done|]. intros _ u [Hu1 Hu2]. split; [lia|].
      destruct (Z.lt_ge_cases u t) as [|Ht]; [done|]. specialize (H3 u Hu2 Ht). lia.
    + split; [split; [lia|done]|]. split; [|done]. intros _. split; [lia|].
      intros u [_ Hu] Ht. by apply H3.
  - destruct (lower_bound (w :: l) t) as [v|] eqn:Ef.
    + apply lower_bound_Some in Ef as (H1 & H2 & H3); [|done]. eexists _, _. split; [done|].
      split; [done|]. split; [done|]. done.
    + eexists _, _. split; [done|]. split; [by left|]. split; [done|]. intros _ u Hu.
      split; [|by eapply lower_bound_None].
      apply Sorted_StronglySorted in Hs; [|intros ? ? ?; lia].
      apply StronglySorted_inv in Hs as [_ Hw]. rewrite Forall_forall in Hw.
      apply elem_of_cons in Hu as [->|Hu]; [lia|]. by apply Hw.
Qed.

Lemma sort_ints_spec l : Sorted Z.le (sort_ints l) /\ sort_ints l ≡ₚ l.
Proof. split; [apply (Sorted_merge_sort Z.le)|apply merge_sort_Permutation]. Qed.

(** ** What the constructor makes *)

Section Parsed.
Context (asInt : dynamic -> outcome Z) (min_val max_val : Z).
Context (str_to_value : option (string -> outcome Z)).
Hypothesis Hrange : min_val <= max_val.

Lemma parseValue_range d v :
  parseValue min_val max_val str_to_value d = Ret v -> min_val <= v <= max_val.
Proof.
  unfold parseValue. intros H. apply bind_Ret_iff in H as (r & _ & H).
  destruct (Z.ltb_spec r min_val), (Z.ltb_spec max_val r); cbn in H; try done. injection H as <-. lia.
Qed.

Lemma parse_values_range l vs v :
  mapM (parseValue min_val max_val str_to_value) l = Ret vs -> v ∈ vs -> min_val <= v <= max_val.
Proof.
  revert vs. induction l as [|d l IH]; cbn; intros vs H Hv.
  - injection H as <-. by apply not_elem_of_nil in Hv.
  - apply bind_Ret_iff in H as (r & Hr & H). apply bind_Ret_iff in H as (rs & Hrs & H).
    injection H as <-. apply elem_of_cons in Hv as [->|Hv]; [by eapply parseValue_range|].
    by eapply IH.
Qed.

Lemma parse_key_wf sel kv sel' :
  selector_wf sel -> minVal_ sel = min_val -> maxVal_ sel = max_val ->
  parse_key asInt min_val max_val str_to_value sel kv = Ret sel' ->
  selector_wf sel' /\ minVal_ sel' = min_val /\ maxVal_ sel' = max_val.
Proof.
  intros [H1 H2 H3 H4 H5] Hmin Hmax. unfold parse_key. case_bool_decide.
  - intros H6. apply bind_Ret_iff in H6 as (p & _ & H6).
    destruct (Z.ltb_spec p 1), (Z.leb_spec (maxVal_ sel - minVal_ sel) p); cbn in H6; try done.
    injection H6 as <-. split; [|done]. split; cbn; try done; lia.
  - intros H6. apply bind_Ret_iff in H6 as (v & Hv & H6). apply parseValue_range in Hv.
    repeat case_bool_decide; try done; injection H6 as <-; (split; [|done]); split; cbn; try done; lia.
Qed.

(** Every selector is well-formed, with the bounds it was given. *)
Lemma CrontabSelector_of_wf d sel :
  CrontabSelector_of asInt min_val max_val str_to_value d = Ret sel ->
  selector_wf sel /\ minVal_ sel = min_val /\ maxVal_ sel = max_val.
Proof using Hrange.
  unfold CrontabSelector_of. intros H. apply bind_Ret_iff in H as (s & Hs & H). injection H as <-.
  enough (Hwf : (forall v, v ∈ sortedValues_ s -> minVal_ s <= v <= maxVal_ s) /\
      minVal_ s <= start_ s <= maxVal_ s /\ minVal_ s <= end_ s <= maxVal_ s /\
      1 <= period_ s <= Z.max 1 (maxVal_ s - minVal_ s) /\
      minVal_ s = min_val /\ maxVal_ s = max_val).
  { destruct Hwf as (Hv & ? & ? & ? & ? & ?). destruct (sort_ints_spec (sortedValues_ s)) as [Hsort Hp].
    split; [|done]. split; cbn; try done. intros v. rewrite Hp. apply Hv. }
  destruct d as [| | | | |l|kvs]; try done; cbn match in Hs.
  - apply bind_Ret_iff in Hs as (v & Hv & Hs). injection Hs as <-. apply parseValue_range in Hv. cbn.
    split_and!; try lia. by intros w ->%list_elem_of_singleton.
  - apply bind_Ret_iff in Hs as (v & Hv & Hs). injection Hs as <-. apply parseValue_range in Hv. cbn.
    split_and!; try lia. by intros w ->%list_elem_of_singleton.
  - apply bind_Ret_iff in Hs as (vs & Hvs & Hs). injection Hs as <-. cbn.
    split_and!; try lia. intros w. by eapply parse_values_range.
  - apply (foldM_inv (fun s => selector_wf s /\ minVal_ s = min_val /\ maxVal_ s = max_val)) in Hs.
    + destruct Hs as ([_ ? ? ? ?] & ? & ?). done.
    + intros kv s1 s2 _ (? & ? & ?). by apply parse_key_wf.
    + split; [|done]. split; cbn; try lia; [constructor|by intros w ?%not_elem_of_nil].
Qed.
End Parsed.

(** A selector that was parsed returns the first value it matches from
    [t] on, or wraps around to its first value if none is left, as long as its
    range is not reversed and [t] plus the period fits 64 bits. *)
Theorem selector_first_match asInt min_val max_val str_to_value d sel t :
  min_val <= max_val ->
  CrontabSelector_of asInt min_val max_val str_to_value d = Ret sel ->
  in_order sel -> t + period_ sel <= INT64_MAX ->
  exists v carry, findFirstMatch sel t = Ret (v, carry) /\ selects sel v /\
    min_val <= v <= max_val /\
    (carry = false -> t <= v /\ forall u, selects sel u -> t <= u -> v <= u) /\
    (carry = true -> forall u, selects sel u -> v <= u < t).
Proof.
  intros Hr Hp Ho Ht. destruct (CrontabSelector_of_wf _ _ _ _ Hr _ _ Hp) as (Hwf & Hmin & Hmax).
  destruct (findFirstMatch_ok sel t Hwf Ho Ht) as (v & c & Hf & Hv & H1 & H2).
  exists v, c. split; [done|]. split; [done|]. rewrite <- Hmin, <- Hmax.
  split; [by apply selects_range|]. done.
Qed.

(** Integers are integers; nothing else is needed here. *)
Definition plain_asInt (d : dynamic) : outcome Z :=
  match d with DInt n => Ret n | _ => Throw "TypeError" end.

(** Every other month up to July: from April on, May; from August on, January. *)
Lemma selector_first_match_witness :
  exists sel, CrontabSelector_of plain_asInt 1 12 None
      (DObject [("period", DInt 2); ("end", DInt 7)]) = Ret sel /\
    findFirstMatch sel 4 = Ret (5, false) /\
    exists v carry, findFirstMatch sel 8 = Ret (v, carry) /\ v = 1 /\ carry = true /\
      forall u, selects sel u -> u < 8.
Proof.
  eexists. split; [reflexivity|]. split; [reflexivity|].
  destruct (selector_first_match plain_asInt 1 12 None (DObject [("period", DInt 2); ("end", DInt 7)])
    (mkSelector [] 1 7 2 1 12) 8) as (v & c & Hf & _ & _ & _ & Hc).
  - lia.
  - reflexivity.
  - intros _. cbn. lia.
  - vm_compute. discriminate.
  - exists v, c. vm_compute in Hf. injection Hf as <- <-. split; [reflexivity|].
    split; [reflexivity|]. split; [reflexivity|]. intros u Hu. by apply (Hc eq_refl).
Defined.

(** An item with the [epoch] key finds the first timestamp from [t] on
    that its selector matches, and nothing exactly if there is none. *)
Theorem epoch_first_match asInt kvs sel t :
  EpochCrontabItem_of asInt kvs = Ret sel -> in_order sel -> t + period_ sel <= INT64_MAX ->
  exists r, epoch_findFirstMatch sel t = Ret r /\
    match r with
    | Some v => t <= v /\ selects sel v /\ forall u, selects sel u -> t <= u -> v <= u
    | None => forall u, selects sel u -> u < t
    end.
Proof.
  unfold EpochCrontabItem_of. intros Hp Ho Ht. apply bind_Ret_iff in Hp as (s & Hs & Hp).
  case_bool_decide; [injection Hp as ->|done].
  destruct (CrontabSelector_of_wf asInt 0 TIME_MAX None ltac:(done) _ _ Hs) as (Hwf & _ & _).
  destruct (findFirstMatch_ok sel t Hwf Ho Ht) as (v & c & Hf & Hv & H1 & H2).
  unfold epoch_findFirstMatch. rewrite Hf. cbn. eexists. split; [done|]. destruct c.
  - intros u Hu. by apply H2.
  - destruct (H1 eq_refl). done.
Qed.

Lemma epoch_first_match_witness :
  exists sel r, EpochCrontabItem_of plain_asInt [("epoch", DArray [DInt 70; DInt 50])] = Ret sel /\
    epoch_findFirstMatch sel 55 = Ret r /\ r = Some 70.
Proof.
  destruct (epoch_first_match plain_asInt [("epoch", DArray [DInt 70; DInt 50])]
    (mkSelector [50; 70] 0 TIME_MAX 1 0 TIME_MAX) 55) as (r & Hr & _).
  - reflexivity.
  - intros ?. done.
  - vm_compute. discriminate.
  - eexists _, r. split; [reflexivity|]. split; [exact Hr|]. vm_compute in Hr. by injection Hr as <-.
Defined.

(** A reversed range is accepted; it matches nothing, and yet its start is
    reported as a match of everything before it. *)
Theorem reversed_range_matches :
  exists sel, CrontabSelector_of plain_asInt 1 7 None
      (DObject [("start", DInt 5); ("end", DInt 3)]) = Ret sel /\
    findFirstMatch sel 2 = Ret (5, false) /\ forall v, ~ selects sel v.
Proof.
  eexists. split; [reflexivity|]. split; [reflexivity|]. intros v [H _]. cbn in H. lia.
Qed.

(** The error message allows periods up to the width of the range, but that
    period itself is rejected. *)
Theorem widest_period_rejected :
  CrontabSelector_of plain_asInt 1 7 None (DObject [("period", DInt 6)])
    = Throw "period not in range".
Proof. reflexivity. Qed.
