(* ===== verification/CronItem.v ===== *)
(** Crontab items that match local time labels ([cron/StandardCrontabItem.cpp]):
    parsing, and the backtracking search for the first label that matches.

    The calendar of boost ([boost::gregorian]) is an interface with the facts
    that the search relies on. *)

From stdpp Require Import base gmap strings list.
From Stdlib Require Import ZArith Lia.
From S2P Require Import Prelude Dynamic Cron.

#[local] Open Scope Z_scope.

(** ** Boost's calendar *)

(** [gregorian_calendar::end_of_month_day] and [date::day_of_week], where
    Sunday is 0. *)
Class Calendar := {
  end_of_month_day : Z -> Z -> Z;
  day_of_week : Z -> Z -> Z -> Z
}.

(** A month has 28 to 31 days, and days of the week follow each other. *)
Class CalendarLaws (C : Calendar) := {
  month_length y m : 1 <= m <= 12 -> 28 <= end_of_month_day y m <= 31;
  week_range y m d : 1 <= m <= 12 -> 1 <= d <= end_of_month_day y m -> 0 <= day_of_week y m d < 7;
  week_step y m d : 1 <= m <= 12 -> 1 <= d -> d + 1 <= end_of_month_day y m ->
    day_of_week y m (d + 1) = (day_of_week y m d + 1) mod 7
}.

(** ** Parsing *)

Definition kDaysInWeek : Z := 7.

(** The first name that is equal. *)
Fixpoint parse_name (names : list (string * string)) (i : Z) (s : string) : outcome Z :=
  match names with
  | [] => Throw "Unknown name"
  | (short, long) :: names' =>
      if String.eqb s short || String.eqb s long then Ret i else parse_name names' (i + 1) s
  end.
Definition parseMonthName : string -> outcome Z :=
  parse_name [("jan", "january"); ("feb", "february"); ("mar", "march"); ("apr", "april");
              ("may", "may"); ("jun", "june"); ("jul", "july"); ("aug", "august");
              ("sep", "september"); ("oct", "october"); ("nov", "november"); ("dec", "december")] 1.
Definition parseDayOfWeek : string -> outcome Z :=
  parse_name [("sun", "sunday"); ("mon", "monday"); ("tue", "tuesday"); ("wed", "wednesday");
              ("thu", "thursday"); ("fri", "friday"); ("sat", "saturday")] 1.

Definition kDSTPolicyForward : Z := 1.
Definition kDSTPolicyRewind : Z := 2.
Definition kRequiredDSTPolicies : Z := 3.
Definition kDSTForwardDoUnskip : Z := 1.
Definition kDSTRewindUseEarly : Z := 2.
Definition kDSTRewindUseLate : Z := 4.

(** One entry of [dst_fixes]; the state is [dstFixes_] and [dst_policies]. *)
Definition parse_fix (st : Z * Z) (fix_name : dynamic) : outcome (Z * Z) :=
  let '(fixes, policies) := st in
  let add fixes policy :=
    if negb (Z.land policies policy =? 0) then Throw "DST policy already had a fix"
    else Ret (fixes, Z.lor policies policy) in
  match fix_name with
  | DString s =>
      if String.eqb s "skip" then add fixes kDSTPolicyForward
      else if String.eqb s "unskip" then add (Z.lor fixes kDSTForwardDoUnskip) kDSTPolicyForward
      else if String.eqb s "repeat_use_only_early"
        then add (Z.lor fixes kDSTRewindUseEarly) kDSTPolicyRewind
      else if String.eqb s "repeat_use_only_late"
        then add (Z.lor fixes kDSTRewindUseLate) kDSTPolicyRewind
      else if String.eqb s "repeat_use_both"
        then add (Z.lor fixes (Z.lor kDSTRewindUseEarly kDSTRewindUseLate)) kDSTPolicyRewind
      else Throw "Unknown dst_fixes entry"
  | _ => Throw "Unknown dst_fixes entry"
  end.

(** [parseDstFixes]. *)
Definition parseDstFixes (kvs : list (string * dynamic)) : outcome Z :=
  match assoc "dst_fixes" kvs with
  | Some (DArray l) =>
      let* (fixes, policies) := foldM parse_fix (0, 0) l in
      if negb (Z.land kRequiredDSTPolicies (Z.lnot policies) =? 0)
      then Throw "dst_fixes needs DST policy rules"
      else Ret fixes
  | _ => Throw "Specify DST handling in the dst_fixes list"
  end.

Record StandardCrontabItem := mkItem {
  dstFixes_ : Z;
  selectors_ : list CrontabSelector;
  maybeDayOfWeekSel_ : option CrontabSelector
}.

Definition item_keys : list string :=
  ["day_of_month"; "day_of_week"; "minute"; "year"; "month"; "hour"; "dst_fixes"].

(** [StandardCrontabItem::StandardCrontabItem]. *)
Definition StandardCrontabItem_of (asInt : dynamic -> outcome Z) (kvs : list (string * dynamic))
    : outcome StandardCrontabItem :=
  let* year := CrontabSelector_of asInt 1969 9999 None (getDefault kvs "year") in
  let* month := CrontabSelector_of asInt 1 12 (Some parseMonthName) (getDefault kvs "month") in
  let* day := CrontabSelector_of asInt 1 31 None (getDefault kvs "day_of_month") in
  let* hour := CrontabSelector_of asInt 0 23 None (getDefault kvs "hour") in
  let* minute := CrontabSelector_of asInt 0 59 None (getDefault kvs "minute") in
  let* dow :=
    match assoc "day_of_week" kvs with
    | Some d => let* s := CrontabSelector_of asInt 1 kDaysInWeek (Some parseDayOfWeek) d in Ret (Some s)
    | None => Ret None
    end in
  let* fixes := parseDstFixes kvs in
  if negb (forallb (fun kv => bool_decide (kv.1 ∈ item_keys)) kvs)
  then Throw "Unknown crontab item key"
  else if bool_decide (is_Some (assoc "day_of_month" kvs))
          && bool_decide (is_Some (assoc "day_of_week" kvs))
  then Throw "Cannot have both day_of_month and day_of_week"
  else if negb (bool_decide (is_Some (assoc "minute" kvs))) then Throw "Must have a minute selector"
  else Ret (mkItem fixes [year; month; day; hour; minute] dow).

(** [CrontabItem::fromDynamic]. *)
Inductive CrontabItem :=
| EpochItem (epoch_sel_ : CrontabSelector)
| StandardItem (item : StandardCrontabItem).
Definition fromDynamic (asInt : dynamic -> outcome Z) (d : dynamic) : outcome CrontabItem :=
  match d with
  | DObject kvs =>
      if bool_decide (is_Some (assoc "epoch" kvs)) then
        let* sel := EpochCrontabItem_of asInt kvs in Ret (EpochItem sel)
      else
        let* item := StandardCrontabItem_of asInt kvs in Ret (StandardItem item)
  | _ => Throw "CrontabItem must be an object"
  end.

(** [StandardCrontabItem::getPrintable]. *)
Definition item_getPrintable (item : StandardCrontabItem) : string :=
  let show i := match selectors_ item !! i with Some sel => getPrintable sel | None => "" end in
  String.concat " " [show 4%nat; show 3%nat; show 2%nat; show 1%nat;
    match maybeDayOfWeekSel_ item with Some sel => getPrintable sel | None => "*" end; show 0%nat].

(** ** The search *)

(** [enum class Position], which the code converts to and from [int]. *)
Abbreviation Position := nat.
Definition YEAR : Position := 0%nat.
Definition MONTH : Position := 1%nat.
Definition DAY_OF_MONTH : Position := 2%nat.
Definition HOUR : Position := 3%nat.
Definition MINUTE : Position := 4%nat.
Definition MAX : Position := 5%nat.

(** [MatchComputeState]; the depth is the fuel of the search. *)
Record MatchComputeState := mkState {
  pos_ : Position;
  vals_ : list Z;
  hasResult_ : bool
}.
Definition kMaxDepth : nat := 50.

Definition getVal (s : MatchComputeState) (p : Position) : Z := nth p (vals_ s) 0.
Definition setVal (s : MatchComputeState) (p : Position) (val : Z) : outcome MatchComputeState :=
  if (MAX <=? p)%nat then Throw "Bad position"
  else Ret (mkState (pos_ s) (<[p := val]> (vals_ s)) (hasResult_ s)).
Definition set_pos (s : MatchComputeState) (p : Position) : MatchComputeState :=
  mkState p (vals_ s) (hasResult_ s).

Section Search.
Context `{Calendar} (item : StandardCrontabItem).

(** [getDayOfWeek]: Sunday is 1. *)
Definition getDayOfWeek (s : MatchComputeState) : Z :=
  day_of_week (getVal s YEAR) (getVal s MONTH) (getVal s DAY_OF_MONTH) + 1.
Definition getEndOfMonthDay (s : MatchComputeState) : Z :=
  end_of_month_day (getVal s YEAR) (getVal s MONTH).

(** [findMatchingDayOfWeek]: the number of days to step. *)
Definition findMatchingDayOfWeek (sel : CrontabSelector) (s : MatchComputeState) (carry_steps : Z)
    : outcome Z :=
  let dow := getDayOfWeek s in
  if (dow <? 1) || (kDaysInWeek <? dow) || (1 <? carry_steps) then Throw "bad weekday"
  else
    let* (new_dow, carry_next) := findFirstMatch sel (dow + carry_steps) in
    if (carry_next : bool) then
      if dow <? new_dow then Throw "dow carried" else Ret (new_dow + kDaysInWeek - dow)
    else
      if new_dow <? dow then Throw "dow did not carry" else Ret (new_dow - dow).

(** [findMatchingPositions]: the steps it passes on. *)
Definition findMatchingPositions (s : MatchComputeState) (carry_steps : Z) : outcome Z :=
  match maybeDayOfWeekSel_ item with
  | Some sel =>
      if (pos_ s =? DAY_OF_MONTH)%nat then findMatchingDayOfWeek sel s carry_steps
      else if 1 <? carry_steps then Throw "bad carry_steps" else Ret carry_steps
  | None => if 1 <? carry_steps then Throw "bad carry_steps" else Ret carry_steps
  end.

(** [for (auto p = s->pos_; p < Position::MAX; p = nextPos(p))]. *)
Definition reset_later (s : MatchComputeState) : outcome MatchComputeState :=
  foldM (fun s p =>
    match selectors_ item !! p with
    | Some sel => setVal s p (minVal_ sel)
    | None => Undef "selectors_[p]"
    end) s (seq (pos_ s) (MAX - pos_ s)).

(** [findMatchingPositionsImpl]; [fuel] is [kMaxDepth - depth_]. *)
Fixpoint findMatchingPositionsImpl (fuel : nat) (s : MatchComputeState) (carry_steps : Z)
    : outcome MatchComputeState :=
  match fuel with
  | O => Throw "No matches in that many iterations. Does your selector never match?"
  | S fuel =>
      match selectors_ item !! pos_ s with
      | None => Undef "selectors_[pos_]"
      | Some sel =>
          let val := getVal s (pos_ s) in
          if (val <? minVal_ sel) || (maxVal_ sel <? val) then Throw "value not in range"
          else
            let* (new_val, carry_next) := findFirstMatch sel (val + carry_steps) in
            let carry_next := carry_next ||
              (pos_ s =? DAY_OF_MONTH)%nat && (getEndOfMonthDay s <? new_val) in
            if carry_next then
              if (pos_ s =? YEAR)%nat then Ret (mkState (pos_ s) (vals_ s) false)
              else
                let s := set_pos s (pos_ s - 1)%nat in
                let* steps := findMatchingPositions s 1 in
                findMatchingPositionsImpl fuel s steps
            else if (new_val <? val) || negb (carry_steps =? 0) && (new_val =? val)
            then Throw "value went back"
            else
              let* s := setVal s (pos_ s) new_val in
              let s := set_pos s (pos_ s + 1)%nat in
              if (pos_ s =? MAX)%nat then Ret s
              else
                let* s := if new_val =? val then Ret s else reset_later s in
                let* steps := findMatchingPositions s 0 in
                findMatchingPositionsImpl fuel s steps
      end
  end.

(** The search of [findUTCTimestampsForFirstMatch], from the label on: the
    first label that matches, if any. *)
Definition find_label (label : list Z) : outcome (option (list Z)) :=
  let s := mkState YEAR label true in
  let* steps := findMatchingPositions s 0 in
  let* s := findMatchingPositionsImpl kMaxDepth s steps in
  Ret (if hasResult_ s then Some (vals_ s) else None).

End Search.

(** ** Order on labels *)

(** Labels are compared field by field; a shorter list is compared with a
    prefix. *)
Fixpoint lex_lt (a b : list Z) : Prop :=
  match a, b with
  | x :: a', y :: b' => x < y \/ x = y /\ lex_lt a' b'
  | _, _ => False
  end.
Fixpoint lex_le (a b : list Z) : Prop :=
  match a, b with
  | x :: a', y :: b' => x < y \/ x = y /\ lex_le a' b'
  | _, _ => True
  end.

Lemma lex_le_refl a : lex_le a a.
Proof. induction a; cbn; auto. Qed.

Lemma lex_total a b : length a = length b -> lex_lt a b \/ a = b \/ lex_lt b a.
Proof.
  revert b. induction a as [|x a IH]; intros [|y b] Hl; [cbn; auto|done|done|]; cbn in *.
  destruct (IH b ltac:(lia)) as [?|[-> |?]], (Z.lt_trichotomy x y) as [?|[-> |?]]; auto.
Qed.

Lemma lex_le_cases a b : length a = length b -> lex_le a b -> lex_lt a b \/ a = b.
Proof.
  revert b. induction a as [|x a IH]; intros [|y b] Hl; [cbn; auto|done|done|]; cbn in *.
  intros [?|[-> H]]; [auto|]. destruct (IH b ltac:(lia) H) as [?| ->]; auto.
Qed.

Lemma lex_le_antisym a b : length a = length b -> lex_le a b -> lex_lt b a -> False.
Proof.
  revert b. induction a as [|x a IH]; intros [|y b] Hl; [cbn; auto|done|done|]; cbn in *.
  intros [?|[-> H1]] [?|[He H2]]; try lia. by eapply IH; [|exact H1|exact H2]; lia.
Qed.

Lemma lex_lt_le a b : lex_lt a b -> lex_le a b.
Proof. revert b. induction a as [|x a IH]; intros [|y b]; cbn; auto. intros [?|[-> ?]]; auto. Qed.

(** Comparing a label, split at position [p]. *)
Lemma lex_le_split p a b :
  (p < length a)%nat -> length a = length b ->
  lex_le a b <-> lex_lt (take p a) b \/
    take p a = take p b /\ lex_le (nth p a 0 :: drop (S p) a) (nth p b 0 :: drop (S p) b).
Proof.
  revert a b. induction p as [|p IH]; intros [|x a] [|y b] Hp Hl; cbn in Hp, Hl; try lia.
  - cbn. rewrite !drop_0. intuition.
  - cbn [take lex_lt lex_le nth drop]. rewrite (IH a b) by lia. split.
    + intros [?|(-> & [?|[-> ?]])]; auto.
    + intros [[?|(-> & ?)]|([= -> ->] & ?)]; auto.
Qed.

Lemma lex_lt_take p a b :
  (p < length a)%nat -> length a = length b ->
  lex_lt (take (S p) a) b <-> lex_lt (take p a) b \/ take p a = take p b /\ nth p a 0 < nth p b 0.
Proof.
  revert a b. induction p as [|p IH]; intros [|x a] [|y b] Hp Hl; cbn in Hp, Hl; try lia.
  - cbn. intuition.
  - change (take (S (S p)) (x :: a)) with (x :: take (S p) a). cbn [take lex_lt nth].
    rewrite (IH a b) by lia. split.
    + intros [?|(-> & [?|[-> ?]])]; auto.
    + intros [[?|(-> & ?)]|([= -> ->] & ?)]; auto.
Qed.

Lemma lex_le_mins mins b :
  (forall i, (i < length b)%nat -> nth i mins 0 <= nth i b 0) -> lex_le mins b.
Proof.
  revert b. induction mins as [|m mins IH]; intros [|y b] H; cbn; auto.
  pose proof (H 0%nat ltac:(cbn; lia)) as H0. cbn in H0.
  destruct (Z.eq_dec m y) as [->|]; [right|left; lia]. split; [done|]. apply IH.
  intros i Hi. apply (H (S i)). cbn. lia.
Qed.

(** ** What an item matches *)

(** The bounds of the fields of a label. *)
Definition field_min : list Z := [1969; 1; 1; 0; 0].
Definition field_max : list Z := [9999; 12; 31; 23; 59].

Definition good_selector (lo hi : Z) (sel : CrontabSelector) : Prop :=
  selector_wf sel /\ in_order sel /\ minVal_ sel = lo /\ maxVal_ sel = hi.

(** A parsed item whose ranges are not reversed. *)
Record item_wf (item : StandardCrontabItem) : Prop := {
  iw_selectors : forall p, (p < MAX)%nat -> exists sel, selectors_ item !! p = Some sel /\
    good_selector (nth p field_min 0) (nth p field_max 0) sel;
  iw_week : forall dsel, maybeDayOfWeekSel_ item = Some dsel ->
    good_selector 1 kDaysInWeek dsel /\
    selectors_ item !! DAY_OF_MONTH = Some (defaultSelector 1 31)
}.

Lemma good_first_match lo hi sel t :
  good_selector lo hi sel -> -1 <= lo -> hi <= 10000 -> t <= 20000 ->
  exists v carry, findFirstMatch sel t = Ret (v, carry) /\ selects sel v /\ lo <= v <= hi /\
    (carry = false -> t <= v /\ forall u, selects sel u -> t <= u -> v <= u) /\
    (carry = true -> forall u, selects sel u -> v <= u < t).
Proof.
  intros (Hwf & Ho & <- & <-) Hlo Hhi Ht. pose proof (sw_period _ Hwf).
  destruct (findFirstMatch_ok sel t Hwf Ho) as (v & c & Hf & Hv & Hc);
    [unfold INT64_MAX; lia|]. exists v, c. split; [done|]. split; [done|].
  split; [by apply selects_range|done].
Qed.

Section Matching.
Context {C : Calendar} {CL : CalendarLaws C} (item : StandardCrontabItem).

Definition year_of (pre : list Z) : Z := nth 0 pre 0.
Definition month_of (pre : list Z) : Z := nth 1 pre 0.

(** The value [n] fits at position [p] after the fields [pre]. *)
Definition fits (p : Position) (pre : list Z) (n : Z) : Prop :=
  (exists sel, selectors_ item !! p = Some sel /\ selects sel n) /\
  (p = DAY_OF_MONTH -> n <= end_of_month_day (year_of pre) (month_of pre) /\
     forall dsel, maybeDayOfWeekSel_ item = Some dsel ->
       selects dsel (day_of_week (year_of pre) (month_of pre) n + 1)).

Definition label_matches (x : list Z) : Prop :=
  length x = MAX /\ forall p, (p < MAX)%nat -> fits p (take p x) (nth p x 0).

(** A label of the calendar. *)
Record label_valid (x : list Z) : Prop := {
  lv_length : length x = MAX;
  lv_range : forall p, (p < MAX)%nat -> nth p field_min 0 <= nth p x 0 <= nth p field_max 0;
  lv_day : nth DAY_OF_MONTH x 0 <= end_of_month_day (nth YEAR x 0) (nth MONTH x 0)
}.

Lemma week_plus y m d j :
  1 <= m <= 12 -> 1 <= d -> 0 <= j -> d + j <= end_of_month_day y m ->
  day_of_week y m (d + j) = (day_of_week y m d + j) mod 7.
Proof using CL.
  intros Hm Hd Hj. pattern j. apply natlike_ind; [|clear j Hj; intros j Hj IH|done].
  - intros He. rewrite Z.add_0_r, Z.add_0_r. symmetry. apply Z.mod_small.
    apply week_range; lia.
  - intros He. replace (d + Z.succ j) with (d + j + 1) by lia.
    rewrite week_step by lia. rewrite IH by lia. rewrite Z.add_mod_idemp_l by lia. f_equal. lia.
Qed.

Lemma default_first_match d :
  1 <= d -> d <= 100 ->
  findFirstMatch (defaultSelector 1 31) d = Ret (if 31 <? d then (1, true) else (d, false)).
Proof.
  intros H1 H2. unfold findFirstMatch, defaultSelector. cbn [sortedValues_ start_ end_ period_].
  rewrite (proj2 (Z.ltb_ge d 1)) by lia. rewrite !Z.rem_1_r, Z.add_0_r.
  by rewrite (proj2 (Z.ltb_ge INT64_MAX d)) by (unfold INT64_MAX; lia).
Qed.

Lemma default_selects d : selects (defaultSelector 1 31) d <-> 1 <= d <= 31.
Proof.
  unfold selects, defaultSelector. cbn. split; [tauto|]. intros H. split; [done|]. apply Z.divide_1_l.
Qed.

(** The days until the next day of the week that is selected. *)
Lemma findMatchingDayOfWeek_ok dsel s c :
  good_selector 1 kDaysInWeek dsel -> label_valid (vals_ s) -> (c = 0 \/ c = 1) ->
  let y := getVal s YEAR in let m := getVal s MONTH in let d := getVal s DAY_OF_MONTH in
  exists k, findMatchingDayOfWeek dsel s c = Ret k /\ c <= k <= 7 /\
    (d + k <= end_of_month_day y m -> selects dsel (day_of_week y m (d + k) + 1)) /\
    (forall u, d + c <= u <= end_of_month_day y m -> selects dsel (day_of_week y m u + 1) -> d + k <= u).
Proof using CL.
  intros Hg [_ Hr Hd] Hc y m d.
  assert (Hm : 1 <= m <= 12) by (apply (Hr MONTH); unfold MONTH, MAX; lia).
  assert (Hd1 : 1 <= d <= 31) by (apply (Hr DAY_OF_MONTH); unfold DAY_OF_MONTH, MAX; lia).
  change (d <= end_of_month_day y m) in Hd.
  pose proof (week_range y m d Hm (conj (proj1 Hd1) Hd)) as Hw.
  unfold findMatchingDayOfWeek, getDayOfWeek. fold y m d. set (w := day_of_week y m d) in *.
  unfold kDaysInWeek in *.
  rewrite (proj2 (Z.ltb_ge (w + 1) 1)), (proj2 (Z.ltb_ge 7 (w + 1))), (proj2 (Z.ltb_ge 1 c)) by lia.
  cbn [orb]. destruct (good_first_match 1 7 dsel (w + 1 + c) Hg) as (nd & carry & Hf & Hs & Hnd & H0 & H1);
    [lia..|]. rewrite Hf. cbn [mbind outcome_bind].
  assert (Hday : forall j, 0 <= j -> d + j <= end_of_month_day y m ->
    day_of_week y m (d + j) = (w + j) mod 7) by (intros j Hj He; apply week_plus; lia).
  destruct carry.
  - pose proof (H1 eq_refl nd Hs) as Hlt. rewrite (proj2 (Z.ltb_ge (w + 1) nd)) by lia.
    eexists. split; [reflexivity|]. split; [lia|]. split.
    + intros He. rewrite Hday by lia. replace ((w + (nd + 7 - (w + 1))) mod 7) with (nd - 1);
        [by replace (nd - 1 + 1) with nd by lia|].
      replace (w + (nd + 7 - (w + 1))) with (nd - 1 + 1 * 7) by lia.
      rewrite Z.mod_add by lia. symmetry. apply Z.mod_small. lia.
    + intros u Hu Hsel. destruct (Z.le_gt_cases (d + (nd + 7 - (w + 1))) u) as [|Hlt2]; [done|exfalso].
      replace u with (d + (u - d)) in Hsel by lia. rewrite Hday in Hsel by lia.
      destruct (Z.lt_ge_cases (w + (u - d)) 7) as [Hsm|Hbig].
      * rewrite Z.mod_small in Hsel by lia. specialize (H1 eq_refl _ Hsel). lia.
      * replace (w + (u - d)) with (w + (u - d) - 7 + 1 * 7) in Hsel by lia.
        rewrite Z.mod_add, Z.mod_small in Hsel by lia. specialize (H1 eq_refl _ Hsel). lia.
  - destruct (H0 eq_refl) as [Hle Hmin]. rewrite (proj2 (Z.ltb_ge nd (w + 1))) by lia.
    eexists. split; [reflexivity|]. split; [lia|]. split.
    + intros He. rewrite Hday by lia. rewrite Z.mod_small by lia.
      by replace (w + (nd - (w + 1)) + 1) with nd by lia.
    + intros u Hu Hsel. destruct (Z.le_gt_cases (d + (nd - (w + 1))) u) as [|Hlt2]; [done|exfalso].
      replace u with (d + (u - d)) in Hsel by lia. rewrite Hday, Z.mod_small in Hsel by lia.
      specialize (Hmin _ Hsel). lia.
Qed.

Lemma nth_take_lt i p (v : list Z) : (i < p)%nat -> nth i (take p v) 0 = nth i v 0.
Proof.
  revert i v. induction p as [|p IH]; intros i v Hi; [lia|]. destruct v, i; cbn; try done.
  apply IH. lia.
Qed.

Hypothesis Hwf : item_wf item.

(** What one position of the search finds. *)
Definition position_spec (s : MatchComputeState) (c steps : Z) (sel : CrontabSelector) (n : Z)
    (carry : bool) : Prop :=
  let p := pos_ s in let val := getVal s p in let pre := take p (vals_ s) in
  if carry || (p =? DAY_OF_MONTH)%nat && (getEndOfMonthDay s <? n)
  then forall u, fits p pre u -> u < val + c
  else fits p pre n /\ val + c <= n <= nth p field_max 0 /\ (steps = 0 \/ val < n) /\
       forall u, fits p pre u -> val + c <= u -> n <= u.

Lemma plain_position s c sel n carry :
  (pos_ s < MAX)%nat -> (pos_ s = DAY_OF_MONTH -> maybeDayOfWeekSel_ item = None) ->
  (c = 0 \/ c = 1) -> selectors_ item !! pos_ s = Some sel -> selects sel n ->
  n <= nth (pos_ s) field_max 0 ->
  (carry = false -> getVal s (pos_ s) + c <= n /\
     forall u, selects sel u -> getVal s (pos_ s) + c <= u -> n <= u) ->
  (carry = true -> forall u, selects sel u -> n <= u < getVal s (pos_ s) + c) ->
  position_spec s c c sel n carry.
Proof.
  intros Hp Hdow Hc Hsel Hn Hmax H0 H1. unfold position_spec.
  assert (Hfit : forall u, fits (pos_ s) (take (pos_ s) (vals_ s)) u -> selects sel u).
  { intros u [(sel' & Hs' & Hu) _]. congruence. }
  assert (Heom : pos_ s = DAY_OF_MONTH -> forall u, fits (pos_ s) (take (pos_ s) (vals_ s)) u ->
    u <= getEndOfMonthDay s).
  { intros Hd u [_ Hu]. destruct (Hu Hd) as [Hu2 _]. unfold year_of, month_of in Hu2.
    rewrite Hd in Hu2. by rewrite !nth_take_lt in Hu2 by (unfold DAY_OF_MONTH; lia). }
  destruct carry; cbn [orb]; [intros u Hu; by apply H1, Hfit|]. destruct (H0 eq_refl) as [Hle Hmin].
  destruct (Nat.eqb_spec (pos_ s) DAY_OF_MONTH) as [Hd|Hd]; cbn [andb].
  - destruct (Z.ltb_spec (getEndOfMonthDay s) n) as [Hlt|Hge].
    + intros u Hu. destruct (Z.lt_ge_cases u (getVal s (pos_ s) + c)) as [|Hu2]; [done|].
      specialize (Hmin u (Hfit u Hu) Hu2). specialize (Heom Hd u Hu). lia.
    + split; [|split; [lia|split; [lia|intros u Hu; by apply Hmin, Hfit]]].
      split; [by exists sel|]. intros _. rewrite Hd. unfold year_of, month_of.
      rewrite !nth_take_lt by (unfold DAY_OF_MONTH; lia). split; [done|]. rewrite Hdow by done. done.
  - split; [split; [by exists sel|done]|]. split; [lia|]. split; [lia|].
    intros u Hu. by apply Hmin, Hfit.
Qed.

Lemma week_position s c dsel :
  label_valid (vals_ s) -> pos_ s = DAY_OF_MONTH -> maybeDayOfWeekSel_ item = Some dsel ->
  (c = 0 \/ c = 1) ->
  exists steps n carry, findMatchingDayOfWeek dsel s c = Ret steps /\ 0 <= steps <= 7 /\
    findFirstMatch (defaultSelector 1 31) (getVal s DAY_OF_MONTH + steps) = Ret (n, carry) /\
    position_spec s c steps (defaultSelector 1 31) n carry.
Proof using CL Hwf.
  intros Hv Hp Hdow Hc. destruct (iw_week _ Hwf _ Hdow) as [Hg Hdef].
  destruct (findMatchingDayOfWeek_ok dsel s c Hg Hv Hc) as (k & Hk & Hkr & Hsel & Hmin).
  pose proof Hv as [_ Hr Hd].
  assert (Hm : 1 <= getVal s MONTH <= 12) by (apply (Hr MONTH); unfold MONTH, MAX; lia).
  assert (Hd1 : 1 <= getVal s DAY_OF_MONTH <= 31) by (apply (Hr DAY_OF_MONTH); unfold DAY_OF_MONTH, MAX; lia).
  pose proof (month_length (getVal s YEAR) (getVal s MONTH) Hm) as Hlen.
  exists k. rewrite default_first_match by lia.
  set (d := getVal s DAY_OF_MONTH) in *. set (y := getVal s YEAR) in *. set (m := getVal s MONTH) in *.
  assert (Hfits : forall u, fits (pos_ s) (take (pos_ s) (vals_ s)) u ->
    1 <= u <= end_of_month_day y m /\ selects dsel (day_of_week y m u + 1)).
  { intros u [(sel' & Hs' & Hu) Hu2]. destruct (Hu2 Hp) as [Hu3 Hu4]. rewrite Hp in Hs', Hu3, Hu4.
    unfold year_of, month_of in Hu3, Hu4. rewrite !nth_take_lt in Hu3, Hu4 by (unfold DAY_OF_MONTH; lia).
    assert (sel' = defaultSelector 1 31) as -> by congruence. apply default_selects in Hu.
    split; [split; [lia|exact Hu3]|by apply Hu4]. }
  assert (Hcarry : end_of_month_day y m < d + k -> forall u,
    fits (pos_ s) (take (pos_ s) (vals_ s)) u -> u < d + c).
  { intros Hlt u Hu. destruct (Hfits u Hu) as [Hu1 Hu2]. destruct (Z.lt_ge_cases u (d + c)) as [|Hge]; [done|].
    specialize (Hmin u ltac:(lia) Hu2). lia. }
  unfold position_spec. rewrite Hp. change (getVal s DAY_OF_MONTH) with d.
  change (getEndOfMonthDay s) with (end_of_month_day y m).
  destruct (Z.ltb_spec 31 (d + k)) as [Hbig|Hsm].
  - exists 1, true. split; [done|]. split; [lia|]. split; [done|]. cbn [orb]. rewrite <- Hp. apply Hcarry. lia.
  - exists (d + k), false. split; [done|]. split; [lia|]. split; [done|]. cbn [orb].
    rewrite Nat.eqb_refl. cbn [andb]. destruct (Z.ltb_spec (end_of_month_day y m) (d + k)) as [Hlt|Hge].
    + rewrite <- Hp. by apply Hcarry.
    + split; [|split; [cbn; lia|split; [lia|]]].
      * split; [exists (defaultSelector 1 31); split; [done|apply default_selects; lia]|]. intros _.
        unfold year_of, month_of. rewrite !nth_take_lt by (unfold DAY_OF_MONTH; lia).
        split; [done|]. intros dsel' Hd'. assert (dsel' = dsel) as -> by congruence. by apply Hsel.
      * intros u Hu Hle. rewrite <- Hp in Hu. destruct (Hfits u Hu) as [Hu1 Hu2]. apply Hmin; [lia|done].
Qed.

Lemma position_step s c :
  label_valid (vals_ s) -> (pos_ s < MAX)%nat -> (c = 0 \/ c = 1) ->
  exists steps sel n carry, findMatchingPositions item s c = Ret steps /\
    selectors_ item !! pos_ s = Some sel /\ minVal_ sel <= getVal s (pos_ s) <= maxVal_ sel /\
    findFirstMatch sel (getVal s (pos_ s) + steps) = Ret (n, carry) /\
    position_spec s c steps sel n carry.
Proof using CL Hwf.
  intros Hv Hp Hc. destruct (iw_selectors _ Hwf _ Hp) as (sel & Hsel & Hg).
  pose proof (lv_range _ Hv _ Hp) as Hr. fold (getVal s (pos_ s)) in Hr.
  assert (Hb : -1 <= nth (pos_ s) field_min 0 /\ nth (pos_ s) field_max 0 <= 10000).
  { destruct (pos_ s) as [|[|[|[|[|]]]]]; cbn; unfold MAX in Hp; lia. }
  assert (Hrange : minVal_ sel <= getVal s (pos_ s) <= maxVal_ sel)
    by (destruct Hg as (_ & _ & -> & ->); done).
  destruct (decide (pos_ s = DAY_OF_MONTH /\ is_Some (maybeDayOfWeekSel_ item))) as [[Hd [dsel Hdow]]|Hno].
  - destruct (week_position s c dsel Hv Hd Hdow Hc) as (steps & n & carry & Hs & Hsr & Hf & Hspec).
    destruct (iw_week _ Hwf _ Hdow) as [_ Hdef]. rewrite Hd in Hsel. exists steps, sel, n, carry.
    assert (sel = defaultSelector 1 31) as -> by congruence. unfold findMatchingPositions.
    rewrite Hdow, Hd, Nat.eqb_refl. rewrite Hd in Hrange. done.
  - destruct (good_first_match _ _ sel (getVal s (pos_ s) + c) Hg) as (n & carry & Hf & Hn & Hnr & H0 & H1);
      [lia..|]. exists c, sel, n, carry.
    assert (findMatchingPositions item s c = Ret c) as ->.
    { unfold findMatchingPositions. rewrite (proj2 (Z.ltb_ge 1 c)) by lia.
      destruct (maybeDayOfWeekSel_ item); [|done].
      destruct (Nat.eqb_spec (pos_ s) DAY_OF_MONTH); [|done]. exfalso. apply Hno. eauto. }
    do 4 (split; [done|]). apply plain_position; try done; [|lia].
    intros Hd. destruct (maybeDayOfWeekSel_ item) as [dsel|]; [|done]. exfalso. apply Hno. eauto.
Qed.

(** Later fields start again at their least values. *)
Lemma reset_later_ok s :
  length (vals_ s) = MAX -> (0 < pos_ s < MAX)%nat ->
  reset_later item s = Ret (mkState (pos_ s) (take (pos_ s) (vals_ s) ++ drop (pos_ s) field_min) (hasResult_ s)).
Proof using Hwf.
  intros Hl Hp. unfold reset_later, MAX in *.
  assert (Hsel : forall p, (p < 5)%nat -> exists sel, selectors_ item !! p = Some sel /\
    minVal_ sel = nth p field_min 0).
  { intros p Hlt. destruct (iw_selectors _ Hwf p Hlt) as (sel & H1 & _ & _ & H2 & _). eauto. }
  destruct s as [p v h]. cbn [pos_ vals_ hasResult_] in *.
  do 6 (destruct v as [|? v]; try discriminate Hl).
  destruct (Hsel 1%nat) as (s1 & H1 & M1); [lia|]. destruct (Hsel 2%nat) as (s2 & H2 & M2); [lia|].
  destruct (Hsel 3%nat) as (s3 & H3 & M3); [lia|]. destruct (Hsel 4%nat) as (s4 & H4 & M4); [lia|].
  destruct p as [|[|[|[|[|]]]]]; try lia; cbn [seq Nat.sub foldM];
    rewrite ?H1; cbn; rewrite ?H2; cbn; rewrite ?H3; cbn; rewrite ?H4; cbn;
    rewrite ?M1, ?M2, ?M3, ?M4; done.
Qed.

(** The labels that are still to be searched. *)
Definition bound (p : Position) (v : list Z) (c : Z) (x : list Z) : Prop :=
  if c =? 0 then lex_le v x else lex_lt (take (S p) v) x.

Lemma bound_split p v c x :
  (p < MAX)%nat -> length v = MAX -> length x = MAX -> (c = 0 \/ c = 1) ->
  bound p v c x -> lex_lt (take p v) x \/ take p v = take p x /\ nth p v 0 + c <= nth p x 0.
Proof.
  intros Hp Hv Hx Hc. unfold bound. destruct Hc as [-> | ->]; cbn [Z.eqb].
  - rewrite (lex_le_split p) by (rewrite ?Hv, ?Hx; done). cbn. intros [?|(? & ?)]; [auto|].
    right. split; [done|]. lia.
  - rewrite lex_lt_take by (rewrite ?Hv, ?Hx; done). intros [?|(? & ?)]; [auto|]. right. split; [done|]. lia.
Qed.

Lemma bound_join p v c x :
  (p < MAX)%nat -> length v = MAX -> length x = MAX -> (c = 0 \/ c = 1) ->
  lex_lt (take p v) x \/ take p v = take p x /\ nth p v 0 < nth p x 0 -> bound p v c x.
Proof.
  intros Hp Hv Hx Hc. unfold bound. destruct Hc as [-> | ->]; cbn [Z.eqb].
  - rewrite (lex_le_split p) by (rewrite ?Hv, ?Hx; done). cbn. intuition.
  - rewrite lex_lt_take by (rewrite ?Hv, ?Hx; done). done.
Qed.

Definition advanced (p : Position) (v : list Z) (n : Z) : list Z :=
  if n =? nth p v 0 then v else take p v ++ n :: drop (S p) field_min.

Lemma take_app_nth p (v l : list Z) n :
  (p < length v)%nat -> length l = (length v - S p)%nat ->
  length (take p v ++ n :: l) = length v /\ take p (take p v ++ n :: l) = take p v /\
  nth p (take p v ++ n :: l) 0 = n /\ drop (S p) (take p v ++ n :: l) = l.
Proof.
  intros Hp Hl. assert (Ht : length (take p v) = p) by (rewrite length_take; lia). split_and!.
  - rewrite length_app. cbn. lia.
  - by rewrite take_app_length'.
  - rewrite app_nth2 by lia. by rewrite Ht, Nat.sub_diag.
  - rewrite drop_app. rewrite (drop_ge (take p v)) by lia. rewrite Ht.
    replace (S p - p)%nat with 1%nat by lia. done.
Qed.

Lemma fits_min x i : label_matches x -> (i < MAX)%nat -> nth i field_min 0 <= nth i x 0.
Proof using Hwf.
  intros [_ Hf] Hi. destruct (Hf i Hi) as [(sel & Hs & Hsel) _].
  destruct (iw_selectors _ Hwf i Hi) as (sel' & Hs' & (Hsw & _ & <- & _)).
  assert (sel' = sel) as -> by congruence. by apply selects_range.
Qed.

Lemma nth_skipn i p (l : list Z) : nth i (drop p l) 0 = nth (p + i) l 0.
Proof.
  revert p. induction l as [|a l IH]; intros [|p]; try done; [by destruct i|]. apply IH.
Qed.

(** Moving on to the next position keeps the labels to be searched. *)
Lemma advance_bound s c steps sel n carry x :
  label_valid (vals_ s) -> (pos_ s < MAX)%nat -> (c = 0 \/ c = 1) ->
  position_spec s c steps sel n carry ->
  carry || (pos_ s =? DAY_OF_MONTH)%nat && (getEndOfMonthDay s <? n) = false ->
  label_matches x ->
  bound (pos_ s) (vals_ s) c x <-> lex_le (advanced (pos_ s) (vals_ s) n) x.
Proof using Hwf.
  intros Hv Hp Hc Hspec Hcar Hx. unfold position_spec in Hspec. rewrite Hcar in Hspec.
  destruct Hspec as (_ & Hn & _ & Hmin). pose proof Hx as [Hlx Hfx]. pose proof (lv_length _ Hv) as Hlv.
  specialize (Hfx (pos_ s) Hp). unfold getVal in *. unfold advanced.
  set (p := pos_ s) in *. set (v := vals_ s) in *.
  destruct (Z.eqb_spec n (nth p v 0)) as [->|Hne].
  { assert (c = 0) as -> by lia. done. }
  destruct (take_app_nth p v (drop (S p) field_min) n) as (H1 & H2 & H3 & H4);
    [by rewrite Hlv|rewrite length_drop, Hlv; done|].
  rewrite (lex_le_split p (_ ++ _)) by (rewrite ?H1, Hlv, ?Hlx; done). rewrite H2, H3, H4.
  assert (Hrest : lex_le (drop (S p) field_min) (drop (S p) x)).
  { apply lex_le_mins. intros i Hi. rewrite !nth_skipn. apply fits_min; [done|].
    rewrite length_drop, Hlx in Hi. lia. }
  split.
  - intros Hb. apply bound_split in Hb; [|done..]. destruct Hb as [?|[Ht Hle]]; [by left|].
    right. split; [done|]. cbn. rewrite <- Ht in Hfx. specialize (Hmin _ Hfx Hle).
    destruct (Z.eq_dec n (nth p x 0)) as [Heq|]; [right; done|left; lia].
  - intros Hb. apply bound_join; try done. destruct Hb as [?|(Ht & Hle)]; [by left|]. right.
    split; [done|]. cbn in Hle. lia.
Qed.

(** No label with the same fields before this position is left. *)
Lemma carry_bound s c steps sel n carry x :
  label_valid (vals_ s) -> (pos_ s < MAX)%nat -> (c = 0 \/ c = 1) ->
  position_spec s c steps sel n carry ->
  carry || (pos_ s =? DAY_OF_MONTH)%nat && (getEndOfMonthDay s <? n) = true ->
  label_matches x ->
  bound (pos_ s) (vals_ s) c x <-> lex_lt (take (pos_ s) (vals_ s)) x.
Proof.
  intros Hv Hp Hc Hspec Hcar Hx. unfold position_spec in Hspec. rewrite Hcar in Hspec.
  pose proof Hx as [Hlx Hfx]. specialize (Hfx (pos_ s) Hp). split.
  - intros Hb. apply bound_split in Hb; [|done|apply Hv|done|done].
    destruct Hb as [?|[Ht Hle]]; [done|]. rewrite <- Ht in Hfx. specialize (Hspec _ Hfx).
    unfold getVal in Hspec. lia.
  - intros Hb. apply bound_join; [done|apply Hv|done|done|by left].
Qed.

Lemma advanced_prefix p v n q :
  (p < MAX)%nat -> length v = MAX -> (q <= p)%nat ->
  take q (advanced p v n) = take q v /\
  nth q (advanced p v n) 0 = if (q =? p)%nat then n else nth q v 0.
Proof.
  intros Hp Hl Hq. unfold advanced.
  destruct (Z.eqb_spec n (nth p v 0)) as [->|_].
  { split; [done|]. by destruct (Nat.eqb_spec q p) as [->|]. }
  destruct (take_app_nth p v (drop (S p) field_min) n) as (_ & H2 & H3 & _);
    [by rewrite Hl|rewrite length_drop, Hl; done|].
  assert (Ht : take q (take p v ++ n :: drop (S p) field_min) = take q v).
  { replace q with (q `min` p)%nat by lia. rewrite <- !take_take. by rewrite H2. }
  split; [done|]. destruct (Nat.eqb_spec q p) as [->|]; [done|].
  rewrite <- (nth_take_lt q p v), <- (nth_take_lt q p (_ ++ _)) by lia. by rewrite H2.
Qed.

Lemma advanced_valid s c steps sel n carry :
  label_valid (vals_ s) -> (pos_ s < MAX)%nat -> (c = 0 \/ c = 1) ->
  position_spec s c steps sel n carry ->
  carry || (pos_ s =? DAY_OF_MONTH)%nat && (getEndOfMonthDay s <? n) = false ->
  label_valid (advanced (pos_ s) (vals_ s) n) /\
  fits (pos_ s) (take (pos_ s) (vals_ s)) n /\ getVal s (pos_ s) <= n /\
  (steps = 0 \/ getVal s (pos_ s) < n).
Proof using CL.
  intros Hv Hp Hc Hspec Hcar. unfold position_spec in Hspec. rewrite Hcar in Hspec.
  destruct Hspec as (Hfit & Hn & Hsteps & _). split; [|split; [done|split; [lia|done]]].
  unfold advanced. destruct (Z.eqb_spec n (nth (pos_ s) (vals_ s) 0)) as [->|_]; [done|].
  destruct Hv as [Hl Hr Hd]. destruct Hfit as [_ Hday].
  assert (Hm := fun p Hp => Hr p Hp). unfold getVal in Hn. unfold MAX in *.
  destruct s as [p v h]. cbn [pos_ vals_] in *. unfold DAY_OF_MONTH, MONTH, YEAR in *.
  do 6 (destruct v as [|? v]; try discriminate Hl).
  pose proof (Hr 0%nat ltac:(lia)) as R0. pose proof (Hr 1%nat ltac:(lia)) as R1.
  pose proof (Hr 2%nat ltac:(lia)) as R2. pose proof (Hr 3%nat ltac:(lia)) as R3.
  pose proof (Hr 4%nat ltac:(lia)) as R4. cbn in R0, R1, R2, R3, R4, Hd.
  destruct p as [|[|[|[|[|]]]]]; try lia; cbn in Hn; (split; [done| |]);
    try (intros q Hq; destruct q as [|[|[|[|[|]]]]]; cbn; lia); cbn; try done.
  - pose proof (month_length n 1 ltac:(lia)). lia.
  - pose proof (month_length z n ltac:(lia)). lia.
  - by destruct (Hday eq_refl).
Qed.

(** What a search among the labels in [B] may return. *)
Definition kDepthMessage : string :=
  "No matches in that many iterations. Does your selector never match?".
Definition search_result (B : list Z -> Prop) (r : outcome MatchComputeState) : Prop :=
  match r with
  | Ret s =>
      if hasResult_ s
      then label_matches (vals_ s) /\ B (vals_ s) /\
           forall x, label_matches x -> B x -> lex_le (vals_ s) x
      else forall x, label_matches x -> ~ B x
  | Throw m => m = kDepthMessage
  | _ => False
  end.

Lemma search_result_ext B B' r :
  (forall x, label_matches x -> B x <-> B' x) -> search_result B r -> search_result B' r.
Proof.
  intros He. destruct r as [s| | |]; cbn; try done. destruct (hasResult_ s).
  - intros (H1 & H2 & H3). split; [done|]. split; [by apply He|]. intros x Hx Hb. by apply H3, He.
  - intros H x Hx Hb. by apply (H x Hx), He.
Qed.

Record searching (s : MatchComputeState) : Prop := {
  se_valid : label_valid (vals_ s);
  se_pos : (pos_ s < MAX)%nat;
  se_result : hasResult_ s = true;
  se_prefix : forall q, (q < pos_ s)%nat -> fits q (take q (vals_ s)) (nth q (vals_ s) 0)
}.

Definition search (fuel : nat) (s : MatchComputeState) (c : Z) : outcome MatchComputeState :=
  let* steps := findMatchingPositions item s c in findMatchingPositionsImpl item fuel s steps.

(** The state after a position has been settled. *)
Definition next_state (s : MatchComputeState) (n : Z) : MatchComputeState :=
  mkState (pos_ s + 1) (advanced (pos_ s) (vals_ s) n) (hasResult_ s).

(** One iteration: to the next position, back to the previous one, or the end. *)
Lemma search_step fuel s c :
  searching s -> (c = 0 \/ c = 1) ->
  exists steps sel n carry, position_spec s c steps sel n carry /\
    selectors_ item !! pos_ s = Some sel /\
    search (S fuel) s c =
      if carry || (pos_ s =? DAY_OF_MONTH)%nat && (getEndOfMonthDay s <? n) then
        if (pos_ s =? YEAR)%nat then Ret (mkState (pos_ s) (vals_ s) false)
        else search fuel (set_pos s (pos_ s - 1)) 1
      else if (pos_ s + 1 =? MAX)%nat then Ret (next_state s n)
      else search fuel (next_state s n) 0.
Proof using CL Hwf.
  intros [Hv Hp Hres Hpre] Hc.
  destruct (position_step s c Hv Hp Hc) as (steps & sel & n & carry & Hs & Hsel & Hr & Hf & Hspec).
  exists steps, sel, n, carry. split; [done|]. split; [done|]. unfold search at 1. rewrite Hs.
  cbn [mbind outcome_bind findMatchingPositionsImpl]. rewrite Hsel.
  rewrite (proj2 (Z.ltb_ge _ _) (proj1 Hr)), (proj2 (Z.ltb_ge _ _) (proj2 Hr)). cbn [orb].
  rewrite Hf. cbn [mbind outcome_bind].
  destruct (carry || (pos_ s =? DAY_OF_MONTH)%nat && (getEndOfMonthDay s <? n)) eqn:Hcar; [done|].
  destruct (advanced_valid _ _ _ _ _ _ Hv Hp Hc Hspec Hcar) as (Hv' & _ & Hle & Hst).
  rewrite (proj2 (Z.ltb_ge n _) Hle). cbn [orb].
  assert (negb (steps =? 0) && (n =? getVal s (pos_ s)) = false) as ->
    by (destruct (Z.eqb_spec steps 0), (Z.eqb_spec n (getVal s (pos_ s))); cbn; lia || done).
  unfold setVal. rewrite (proj2 (Nat.leb_gt MAX (pos_ s)) Hp). cbn [mbind outcome_bind set_pos pos_ vals_ hasResult_].
  pose proof (lv_length _ Hv) as Hl. unfold next_state, advanced. fold (getVal s (pos_ s)).
  destruct (Z.eqb_spec n (getVal s (pos_ s))) as [->|Hne].
  - assert (<[pos_ s := getVal s (pos_ s)]> (vals_ s) = vals_ s) as ->.
    { apply list_insert_id. unfold getVal. destruct (lookup_lt_is_Some_2 (vals_ s) (pos_ s)) as [a Ha];
        [by rewrite Hl|]. rewrite Ha. f_equal. symmetry. by apply nth_lookup_Some with (d := 0) in Ha. }
    destruct (_ =? MAX)%nat; done.
  - assert (Hins : <[pos_ s := n]> (vals_ s) = take (pos_ s) (vals_ s) ++ n :: drop (S (pos_ s)) (vals_ s))
      by (apply insert_take_drop; by rewrite Hl).
    destruct (Nat.eqb_spec (pos_ s + 1) MAX) as [He|He].
    + do 2 f_equal. rewrite Hins. do 2 f_equal. unfold MAX in *. rewrite !drop_ge; [done|cbn; lia|lia].
    + rewrite reset_later_ok; cbn [pos_ vals_ hasResult_ mbind outcome_bind].
      * replace (pos_ s + 1)%nat with (S (pos_ s)) by lia.
        cbn [set_pos pos_ vals_ hasResult_].
        rewrite (take_S_r (<[pos_ s := n]> (vals_ s)) (pos_ s) n)
          by (apply list_lookup_insert_eq; by rewrite Hl).
        rewrite take_insert_ge by done. by rewrite <- app_assoc.
      * cbn [set_pos vals_]. by rewrite length_insert.
      * cbn [set_pos pos_]. unfold MAX in *. lia.
Qed.

Lemma next_searching s c steps sel n carry :
  searching s -> (c = 0 \/ c = 1) -> position_spec s c steps sel n carry ->
  carry || (pos_ s =? DAY_OF_MONTH)%nat && (getEndOfMonthDay s <? n) = false ->
  label_valid (vals_ (next_state s n)) /\
  forall q, (q < pos_ (next_state s n))%nat ->
    fits q (take q (vals_ (next_state s n))) (nth q (vals_ (next_state s n)) 0).
Proof using CL.
  intros [Hv Hp _ Hpre] Hc Hspec Hcar.
  destruct (advanced_valid _ _ _ _ _ _ Hv Hp Hc Hspec Hcar) as (Hv' & Hfit & _).
  split; [done|]. cbn [next_state pos_ vals_]. intros q Hq.
  destruct (advanced_prefix (pos_ s) (vals_ s) n q Hp (lv_length _ Hv) ltac:(lia)) as [-> ->].
  destruct (Nat.eqb_spec q (pos_ s)) as [->|]; [done|]. apply Hpre. lia.
Qed.

Lemma searching_prev s : searching s -> pos_ s <> YEAR -> searching (set_pos s (pos_ s - 1)).
Proof.
  intros [Hv Hp Hr Hpre] Hn. split; [done| |done|]; cbn [set_pos pos_ vals_].
  - lia.
  - intros q Hq. apply Hpre. lia.
Qed.

Lemma search_ok fuel s c :
  searching s -> (c = 0 \/ c = 1) ->
  search_result (bound (pos_ s) (vals_ s) c) (search fuel s c).
Proof using CL Hwf.
  revert s c. induction fuel as [|fuel IH]; intros s c Hs Hc.
  { pose proof Hs as [Hv Hp _ _]. destruct (position_step s c Hv Hp Hc) as (steps & ? & ? & ? & H & _).
    unfold search. by rewrite H. }
  destruct (search_step fuel s c Hs Hc) as (steps & sel & n & carry & Hspec & Hsel & ->).
  pose proof Hs as [Hv Hp Hres _].
  destruct (carry || _) eqn:Hcar.
  - assert (Hb := fun x Hx => carry_bound s c steps sel n carry x Hv Hp Hc Hspec Hcar Hx).
    destruct (Nat.eqb_spec (pos_ s) YEAR) as [Hy|Hy].
    + cbn. intros x Hx. rewrite (Hb x Hx), Hy. by intros [].
    + eapply search_result_ext; [|apply IH; [by apply searching_prev|by right]].
      intros x Hx. rewrite (Hb x Hx). cbn [set_pos pos_ vals_]. unfold bound. cbn [Z.eqb].
      unfold YEAR in Hy. by replace (S (pos_ s - 1)) with (pos_ s) by lia.
  - destruct (next_searching _ _ _ _ _ _ Hs Hc Hspec Hcar) as [Hv' Hpre'].
    assert (Hb := fun x Hx => advance_bound s c steps sel n carry x Hv Hp Hc Hspec Hcar Hx).
    destruct (Nat.eqb_spec (pos_ s + 1) MAX) as [Hm|Hm].
    + cbn [search_result]. cbn [next_state hasResult_]. rewrite Hres.
      assert (Hlm : label_matches (advanced (pos_ s) (vals_ s) n)).
      { split; [apply Hv'|]. intros q Hq. apply Hpre'. cbn. lia. }
      split; [done|]. split; [by apply Hb, lex_le_refl|]. intros x Hx. by apply Hb.
    + eapply search_result_ext; [|apply IH; [split; [done| |done|done]|by left]].
      * intros x Hx. rewrite (Hb x Hx). done.
      * cbn [next_state pos_]. unfold MAX in *. lia.
Qed.

(** *** Depth *)

(** Every month that is selected has a day that is selected. *)
Definition days_everywhere : Prop :=
  forall y m, 1969 <= y <= 9999 -> 1 <= m <= 12 -> exists d, fits DAY_OF_MONTH [y; m] d.

(** The fields from this position on are the least. *)
Definition clean (s : MatchComputeState) : Prop :=
  drop (pos_ s) (vals_ s) = drop (pos_ s) field_min.

Lemma selector_nonempty p : (p < MAX)%nat -> exists sel n, selectors_ item !! p = Some sel /\ selects sel n.
Proof using Hwf.
  intros Hp. destruct (iw_selectors _ Hwf p Hp) as (sel & Hs & (Hw & Ho & _)). exists sel.
  unfold in_order in Ho. unfold selects. destruct (sortedValues_ sel) as [|v l] eqn:E.
  - exists (start_ sel). split; [done|]. split; [specialize (Ho eq_refl); lia|]. exists 0. lia.
  - exists v. split; [done|]. by left.
Qed.

(** From a clean state every position finds its value at once. *)
Lemma clean_no_carry s steps sel n carry :
  days_everywhere -> searching s -> clean s -> position_spec s 0 steps sel n carry ->
  carry || (pos_ s =? DAY_OF_MONTH)%nat && (getEndOfMonthDay s <? n) = false.
Proof using Hwf.
  intros Hdays [Hv Hp _ _] Hclean Hspec. unfold position_spec in Hspec.
  destruct (carry || _) eqn:Hcar; [exfalso|done].
  assert (Hval : getVal s (pos_ s) = nth (pos_ s) field_min 0).
  { unfold getVal. rewrite <- (Nat.add_0_r (pos_ s)), <- !nth_skipn. by rewrite Hclean. }
  assert (Hmin : forall u, fits (pos_ s) (take (pos_ s) (vals_ s)) u -> nth (pos_ s) field_min 0 <= u).
  { intros u [(sel' & Hs' & Hu) _]. destruct (iw_selectors _ Hwf _ Hp) as (sel2 & Hs2 & (Hw & _ & <- & _)).
    assert (sel2 = sel') as -> by congruence. by apply selects_range. }
  assert (exists u, fits (pos_ s) (take (pos_ s) (vals_ s)) u) as [u Hu].
  { destruct (decide (pos_ s = DAY_OF_MONTH)) as [Hd|Hd].
    - rewrite Hd. pose proof (lv_range _ Hv) as Hr. pose proof (lv_length _ Hv) as Hl.
      destruct (vals_ s) as [|y [|m v]]; try discriminate Hl. cbn.
      apply (Hdays y m); [apply (Hr 0%nat)|apply (Hr 1%nat)]; unfold MAX; lia.
    - destruct (selector_nonempty (pos_ s) Hp) as (sel' & u & Hs' & Hu).
      exists u. split; [by exists sel'|done]. }
  specialize (Hspec u Hu). specialize (Hmin u Hu). lia.
Qed.

Lemma clean_next s n :
  label_valid (vals_ s) -> (pos_ s < MAX)%nat -> clean s \/ n <> getVal s (pos_ s) ->
  clean (next_state s n).
Proof.
  intros Hv Hp Hor. unfold clean, next_state, advanced. cbn [pos_ vals_]. fold (getVal s (pos_ s)).
  replace (pos_ s + 1)%nat with (S (pos_ s)) by lia. pose proof (lv_length _ Hv) as Hl.
  destruct (Z.eqb_spec n (getVal s (pos_ s))) as [->|Hne].
  - destruct Hor as [Hc|]; [|done]. unfold clean in Hc.
    replace (S (pos_ s)) with (pos_ s + 1)%nat by lia. by rewrite <- !drop_drop, Hc.
  - apply take_app_nth; [by rewrite Hl|rewrite length_drop, Hl; done].
Qed.

(** A clean search ends after one iteration per position. *)
Lemma clean_search fuel s :
  days_everywhere -> searching s -> clean s -> (MAX - pos_ s <= fuel)%nat ->
  is_ret (search fuel s 0) = true.
Proof using CL Hwf.
  intros Hdays. revert s. induction fuel as [|fuel IH]; intros s Hs Hcl Hf.
  { pose proof (se_pos _ Hs). lia. }
  destruct (search_step fuel s 0 Hs ltac:(auto)) as (steps & sel & n & carry & Hspec & _ & ->).
  pose proof (clean_no_carry _ _ _ _ _ Hdays Hs Hcl Hspec) as Hcar. rewrite Hcar.
  destruct (Nat.eqb_spec (pos_ s + 1) MAX) as [Hm|Hm]; [done|].
  destruct (next_searching _ 0 _ _ _ _ Hs (or_introl eq_refl) Hspec Hcar) as [Hv' Hpre'].
  pose proof Hs as [Hv Hp Hres _]. apply IH.
  - split; [done| |done|done]. cbn. unfold MAX in *. lia.
  - apply clean_next; auto.
  - cbn [next_state pos_]. lia.
Qed.

(** A search that carries goes back to some position, then is clean. *)
Lemma carry_search fuel s :
  days_everywhere -> searching s -> (pos_ s + 5 <= fuel)%nat -> is_ret (search fuel s 1) = true.
Proof using CL Hwf.
  intros Hdays. revert s. induction fuel as [|fuel IH]; intros s Hs Hf; [lia|].
  destruct (search_step fuel s 1 Hs ltac:(auto)) as (steps & sel & n & carry & Hspec & _ & ->).
  pose proof Hs as [Hv Hp Hres _]. destruct (carry || _) eqn:Hcar.
  - destruct (Nat.eqb_spec (pos_ s) YEAR) as [Hy|Hy]; [done|]. apply IH; [by apply searching_prev|].
    cbn [set_pos pos_]. unfold YEAR in Hy. lia.
  - destruct (Nat.eqb_spec (pos_ s + 1) MAX) as [Hm|Hm]; [done|].
    destruct (next_searching _ 1 _ _ _ _ Hs (or_intror eq_refl) Hspec Hcar) as [Hv' Hpre'].
    apply clean_search; [done|split; [done| |done|done]| |]; cbn [next_state pos_]; unfold MAX in *; try lia.
    apply clean_next; [done|done|right]. unfold position_spec in Hspec. rewrite Hcar in Hspec. lia.
Qed.

(** Forward, back to some position, and forward again. *)
Lemma search_depth fuel s :
  days_everywhere -> searching s -> (13 <= fuel + pos_ s)%nat -> is_ret (search fuel s 0) = true.
Proof using CL Hwf.
  intros Hdays. revert s. induction fuel as [|fuel IH]; intros s Hs Hf.
  { pose proof (se_pos _ Hs). unfold MAX in *. lia. }
  destruct (search_step fuel s 0 Hs ltac:(auto)) as (steps & sel & n & carry & Hspec & _ & ->).
  pose proof Hs as [Hv Hp Hres _]. destruct (carry || _) eqn:Hcar.
  - destruct (Nat.eqb_spec (pos_ s) YEAR) as [Hy|Hy]; [done|].
    apply carry_search; [done|by apply searching_prev|]. cbn [set_pos pos_]. unfold YEAR, MAX in *. lia.
  - destruct (Nat.eqb_spec (pos_ s + 1) MAX) as [Hm|Hm]; [done|].
    destruct (next_searching _ 0 _ _ _ _ Hs (or_introl eq_refl) Hspec Hcar) as [Hv' Hpre'].
    apply IH; [split; [done| |done|done]|]; cbn [next_state pos_]; unfold MAX in *; lia.
Qed.

End Matching.

(** ** Parsed items *)

(** No range of the item is reversed. *)
Definition item_in_order (item : StandardCrontabItem) : Prop :=
  Forall in_order (selectors_ item) /\
  forall dsel, maybeDayOfWeekSel_ item = Some dsel -> in_order dsel.

Lemma StandardCrontabItem_of_wf asInt kvs item :
  StandardCrontabItem_of asInt kvs = Ret item -> item_in_order item -> item_wf item.
Proof.
  unfold StandardCrontabItem_of. intros Hp [Hord Hword].
  apply bind_Ret_iff in Hp as (sy & Hy & Hp). apply bind_Ret_iff in Hp as (sm & Hm & Hp).
  apply bind_Ret_iff in Hp as (sd & Hd & Hp). apply bind_Ret_iff in Hp as (sh & Hh & Hp).
  apply bind_Ret_iff in Hp as (si & Hi & Hp). apply bind_Ret_iff in Hp as (dow & Hw & Hp).
  apply bind_Ret_iff in Hp as (fixes & _ & Hp).
  destruct (negb (forallb _ _)); [done|]. destruct (bool_decide _ && _) eqn:Eb; [done|].
  destruct (negb _); [done|]. injection Hp as <-. cbn [selectors_ maybeDayOfWeekSel_] in *.
  rewrite !Forall_cons in Hord. destruct Hord as (Oy & Om & Od & Oh & Oi & _).
  assert (Hg : forall lo hi f d sel, lo <= hi -> CrontabSelector_of asInt lo hi f d = Ret sel ->
    in_order sel -> good_selector lo hi sel).
  { intros lo hi f d sel Hle Hs Ho.
    destruct (CrontabSelector_of_wf asInt lo hi f Hle d sel Hs) as (? & ? & ?). done. }
  split; cbn [selectors_ maybeDayOfWeekSel_].
  - pose proof (Hg 1969 9999 _ _ _ ltac:(lia) Hy Oy) as Gy.
    pose proof (Hg 1 12 _ _ _ ltac:(lia) Hm Om) as Gm. pose proof (Hg 1 31 _ _ _ ltac:(lia) Hd Od) as Gd.
    pose proof (Hg 0 23 _ _ _ ltac:(lia) Hh Oh) as Gh. pose proof (Hg 0 59 _ _ _ ltac:(lia) Hi Oi) as Gi.
    clear - Gy Gm Gd Gh Gi. intros p Hp. unfold MAX in Hp.
    destruct p as [|[|[|[|[|]]]]]; [..|lia]; eexists; (split; [reflexivity|assumption]).
  - intros dsel ->. destruct (assoc "day_of_week" kvs) as [d|] eqn:Ed; [|done].
    apply bind_Ret_iff in Hw as (s & Hw & He). injection He as ->.
    split; [exact (Hg 1 kDaysInWeek _ _ _ ltac:(unfold kDaysInWeek; lia) Hw (Hword _ eq_refl))|].
    rewrite (bool_decide_true (is_Some (Some d))), andb_true_r in Eb by eauto.
    apply bool_decide_eq_false in Eb. unfold getDefault in Hd.
    destruct (assoc "day_of_month" kvs); [exfalso; apply Eb; eauto|]. injection Hd as <-. done.
Qed.

Section Items.
Context {C : Calendar} {CL : CalendarLaws C}.

Lemma find_label_search item label :
  find_label item label =
    let* s := search item kMaxDepth (mkState YEAR label true) 0 in
    Ret (if hasResult_ s then Some (vals_ s) else None).
Proof.
  unfold find_label, search. generalize kMaxDepth as depth. intros depth.
  by destruct (findMatchingPositions _ _ _).
Qed.

Lemma start_searching item label : label_valid label -> searching item (mkState YEAR label true).
Proof. intros Hv. split; [done|cbn; unfold YEAR, MAX; lia|done|cbn; unfold YEAR; lia]. Qed.

(** C21: The backtracking search of a parsed item none of whose ranges is
    reversed, started at a label of the calendar, trips none of its internal errors: it returns the first label
    from there on whose fields all match and whose day exists and falls on a
    selected day of the week; or that there is none before the year 10000; or
    it gives up, with the error that says so, after 50 iterations.  The parser
    accepts reversed ranges, and the search for one may return a label that does
    not match. *)
Theorem first_matching_label asInt kvs item label :
  StandardCrontabItem_of asInt kvs = Ret item -> item_in_order item -> label_valid label ->
  match find_label item label with
  | Ret (Some l) => label_matches item l /\ lex_le label l /\
      forall x, label_matches item x -> lex_le label x -> lex_le l x
  | Ret None => forall x, label_matches item x -> ~ lex_le label x
  | Throw m => m = kDepthMessage
  | _ => False
  end.
Proof using CL.
  intros Hp Ho Hv. apply StandardCrontabItem_of_wf in Hp; [|done].
  pose proof (search_ok item Hp kMaxDepth _ 0 (start_searching item label Hv) ltac:(auto)) as Hs.
  rewrite find_label_search. destruct (search _ _ _ _) as [s| | |]; try done.
  cbn in Hs |- *. by destruct (hasResult_ s).
Qed.

(** Days of the week come round within the first week of each month. *)
Lemma week_everywhere item dsel :
  item_wf item -> maybeDayOfWeekSel_ item = Some dsel -> days_everywhere item.
Proof using CL.
  intros Hwf Hdow y m Hy Hm. destruct (iw_week _ Hwf _ Hdow) as [Hg Hdef].
  destruct (good_first_match 1 7 dsel 1 Hg) as (w & _ & _ & Hsel & Hw & _); [lia..|].
  pose proof (month_length y m Hm) as Hlen.
  assert (Hr : 0 <= day_of_week y m 1 < 7) by (apply week_range; lia). set (w1 := day_of_week y m 1) in *.
  set (j := (w - 1 - w1) mod 7). assert (Hj : 0 <= j < 7) by (apply Z.mod_pos_bound; lia).
  exists (1 + j). split.
  - exists (defaultSelector 1 31). split; [done|]. apply default_selects. lia.
  - intros _. unfold year_of, month_of. cbn [nth]. split; [lia|]. intros dsel' Hd'.
    assert (dsel' = dsel) as -> by congruence. rewrite week_plus by lia. fold w1. unfold j.
    rewrite Z.add_mod_idemp_r by lia. replace (w1 + (w - 1 - w1)) with (w - 1) by lia.
    rewrite Z.mod_small by lia. by replace (w - 1 + 1) with w by lia.
Qed.

Lemma early_day_everywhere item sel d :
  maybeDayOfWeekSel_ item = None -> selectors_ item !! DAY_OF_MONTH = Some sel ->
  selects sel d -> d <= 28 -> days_everywhere item.
Proof using CL.
  intros Hdow Hs Hd Hle y m _ Hm. exists d. split; [by exists sel|]. intros _.
  unfold year_of, month_of. cbn [nth]. pose proof (month_length y m Hm). split; [lia|].
  intros dsel. by rewrite Hdow.
Qed.

End Items.

(** ** The Gregorian calendar, for concrete items *)

Definition is_leap (y : Z) : bool :=
  (y mod 4 =? 0) && (negb (y mod 100 =? 0) || (y mod 400 =? 0)).
Definition month_days (y m : Z) : Z :=
  if m =? 2 then if is_leap y then 29 else 28
  else if (m =? 4) || (m =? 6) || (m =? 9) || (m =? 11) then 30 else 31.
(** Days since March 1st of the year 0; years start in March. *)
Definition civil_days (y m d : Z) : Z :=
  let y' := if m <=? 2 then y - 1 else y in
  let m' := if m <=? 2 then m + 9 else m - 3 in
  365 * y' + y' / 4 - y' / 100 + y' / 400 + (153 * m' + 2) / 5 + d - 1.
(** March 1st of the year 0 was a Wednesday. *)
#[export] Instance gregorian : Calendar := {
  end_of_month_day := month_days;
  day_of_week y m d := (civil_days y m d + 3) mod 7
}.

#[export] Instance gregorian_laws : CalendarLaws gregorian.
Proof.
  split; cbn.
  - intros y m Hm. unfold month_days. repeat case_match; lia.
  - intros y m d _ _. apply Z.mod_pos_bound. lia.
  - intros y m d _ _ _. rewrite Z.add_mod_idemp_l by lia. f_equal. unfold civil_days. lia.
Qed.

Definition sample_fixes : string * dynamic :=
  ("dst_fixes", DArray [DString "skip"; DString "repeat_use_both"]).
(** At noon on the 31st, and at 0:30 on Mondays. *)
Definition noon_on_31st : list (string * dynamic) :=
  [("minute", DInt 0); ("hour", DInt 12); ("day_of_month", DInt 31); sample_fixes].
Definition on_mondays : list (string * dynamic) :=
  [("minute", DInt 30); ("hour", DInt 0); ("day_of_week", DString "Mon"); sample_fixes].

Definition label_validb (x : list Z) : bool :=
  (length x =? MAX)%nat &&
  forallb (fun p => (nth p field_min 0 <=? nth p x 0) && (nth p x 0 <=? nth p field_max 0)) (seq 0 MAX) &&
  (nth DAY_OF_MONTH x 0 <=? end_of_month_day (nth YEAR x 0) (nth MONTH x 0)).

Lemma label_validb_ok x : label_validb x = true -> label_valid x.
Proof.
  unfold label_validb. intros [[Hl%Nat.eqb_eq Hr]%andb_prop Hd%Z.leb_le]%andb_prop. split; try done.
  intros p Hp. rewrite forallb_forall in Hr. specialize (Hr p). rewrite in_seq in Hr. specialize (Hr ltac:(lia)). lia.
Qed.

Lemma first_matching_label_witness :
  exists item, StandardCrontabItem_of plain_asInt noon_on_31st = Ret item /\
    find_label item [2013; 4; 3; 0; 0] = Ret (Some [2013; 5; 31; 12; 0]) /\
    label_matches item [2013; 5; 31; 12; 0].
Proof.
  destruct (StandardCrontabItem_of plain_asInt noon_on_31st) as [item| | |] eqn:E; try discriminate E.
  exists item. split; [reflexivity|].
  pose proof (first_matching_label plain_asInt noon_on_31st item [2013; 4; 3; 0; 0] E) as H.
  assert (Hf : find_label item [2013; 4; 3; 0; 0] = Ret (Some [2013; 5; 31; 12; 0]))
    by (vm_compute in E; injection E as <-; vm_compute; reflexivity).
  rewrite Hf in H. split; [done|]. apply H; [|by apply label_validb_ok].
  vm_compute in E. injection E as <-. split; [|done].
  repeat (apply Forall_cons_2; [intros _; cbn; lia|]). done.
Defined.


(** The limit of 50 iterations is reached although a match exists: February
    29th in years that are multiples of 25, from 2025 on, first comes in 2400. *)
Definition leap_jubilee : list (string * dynamic) :=
  [("minute", DInt 0); ("hour", DInt 0); ("day_of_month", DInt 29); ("month", DString "February");
   ("year", DObject [("start", DInt 2025); ("period", DInt 25)]); sample_fixes].
Theorem depth_misses_match :
  exists item, StandardCrontabItem_of plain_asInt leap_jubilee = Ret item /\
    find_label item [2025; 1; 1; 0; 0] = Throw kDepthMessage /\
    find_label item [2390; 1; 1; 0; 0] = Ret (Some [2400; 2; 29; 0; 0]).
Proof. eexists. split; [reflexivity|]. split; vm_compute; reflexivity. Qed.
