(* ===== verification/CronZone.v ===== *)
(** Local time labels and UTC timestamps ([cron/utils/date_time.cpp]), and how
    a crontab item finds the next timestamp in a time zone
    ([StandardCrontabItem::findFirstMatch] and its helpers).

    A [ptime] is its number of seconds since 1970.  Boost's conversions between
    a [ptime] and its fields, boost's time zones and the C library's
    [mktime] and [localtime_r] are parameters. *)

From stdpp Require Import base gmap strings list.
From Stdlib Require Import ZArith Lia.
From S2P Require Import Prelude Dynamic Cron CronItem.

#[local] Open Scope Z_scope.

(** ** Library interfaces *)

(** [struct tm], as far as it is used. *)
Record Tm := mkTm {
  tm_year : Z; tm_mon : Z; tm_mday : Z; tm_hour : Z; tm_min : Z; tm_sec : Z
}.
#[global] Instance Tm_eq_dec : EqDecision Tm.
Proof. solve_decision. Defined.

(** [boost::posix_time]: [to_tm], and [ptime(date, time_duration)] from the
    five fields of a label. *)
Class PosixTime := {
  posix_calendar :: Calendar;
  to_tm : Z -> Tm;
  make_ptime : list Z -> Z
}.

(** The fields of a [ptime]. *)
Definition fields_of (tm : Tm) : list Z :=
  [tm_year tm + 1900; tm_mon tm + 1; tm_mday tm; tm_hour tm; tm_min tm].

(** A [ptime] is read field by field, and made of them; later labels are
    later. *)
Class PosixTimeLaws (P : PosixTime) := {
  posix_calendar_laws :: CalendarLaws posix_calendar;
  pt_read t : make_ptime (fields_of (to_tm t)) + tm_sec (to_tm t) = t /\ 0 <= tm_sec (to_tm t) < 60;
  pt_valid t : 1969 <= tm_year (to_tm t) + 1900 <= 9999 -> label_valid (fields_of (to_tm t));
  pt_make l : label_valid l ->
    fields_of (to_tm (make_ptime l)) = l /\ tm_sec (to_tm (make_ptime l)) = 0;
  pt_mono l l' : label_valid l -> label_valid l' -> lex_le l l' -> make_ptime l <= make_ptime l';
  pt_minutes l : (60 | make_ptime l)
}.

(** [local_date_time(date, time, tz, is_dst)] returns, or throws
    [dst_not_valid] or [time_label_invalid]. *)
Inductive MadeTime :=
| Made (utc_time : Z) (is_dst : bool)
| DstNotValid
| TimeLabelInvalid.

(** A [time_zone_ptr]: a zone of boost, or null for that of the system. *)
Inductive time_zone :=
| BoostZone (local_time : Z -> Z) (local_date_time : Z -> bool -> MadeTime)
| SystemZone (utc_to_local : Z -> Z) (mktime : Tm -> bool -> Z)
    (localtime_r : Z -> option (Tm * Z)).

(** ** [date_time.cpp] *)

Definition kNotATime : Z := -1.
Record UTCTimestampsForLocalTime := mkTimestamps { dst_time : Z; non_dst_time : Z }.
Definition noTimestamps : UTCTimestampsForLocalTime := mkTimestamps kNotATime kNotATime.

Definition isNotATime (ts : UTCTimestampsForLocalTime) : bool :=
  (dst_time ts =? kNotATime) && (non_dst_time ts =? kNotATime).
Definition isAmbiguous (ts : UTCTimestampsForLocalTime) : bool :=
  negb (dst_time ts =? kNotATime) && negb (non_dst_time ts =? kNotATime).
Definition getUnique (ts : UTCTimestampsForLocalTime) : outcome Z :=
  if isAmbiguous ts then Throw "Local time maps to both"
  else if negb (dst_time ts =? kNotATime) then Ret (dst_time ts)
  else if negb (non_dst_time ts =? kNotATime) then Ret (non_dst_time ts)
  else Throw "This local time was skipped due to DST".
Definition getBothInOrder (ts : UTCTimestampsForLocalTime) : outcome (Z * Z) :=
  if negb (isAmbiguous ts) then Throw "not ambiguous"
  else Ret (if dst_time ts <? non_dst_time ts then (dst_time ts, non_dst_time ts)
            else (non_dst_time ts, dst_time ts)).

Definition set_time (ts : UTCTimestampsForLocalTime) (is_dst : bool) (t : Z)
    : UTCTimestampsForLocalTime :=
  if is_dst then mkTimestamps t (non_dst_time ts) else mkTimestamps (dst_time ts) t.

(** [utcPTimeToTimezoneLocalPTime]. *)
Definition utcPTimeToTimezoneLocalPTime (utc_pt : Z) (tz : time_zone) : Z :=
  match tz with
  | BoostZone local_time _ => local_time utc_pt
  | SystemZone utc_to_local _ _ => utc_to_local utc_pt
  end.

(** [getUTCOffset]. *)
Definition getUTCOffset (utc_time : Z) (tz : time_zone) : Z :=
  utcPTimeToTimezoneLocalPTime utc_time tz - utc_time.

(** [_boostTimezoneLocalPTimeToUTCTimestamps]: daylight saving time is tried
    first; an invalid label ends both attempts. *)
Definition boost_timestamps (local_date_time : Z -> bool -> MadeTime) (local_pt : Z)
    : UTCTimestampsForLocalTime :=
  let save ts is_dst :=
    match local_date_time local_pt is_dst with
    | Made utc d => Some (if Bool.eqb d is_dst then set_time ts is_dst utc else ts)
    | DstNotValid => Some ts
    | TimeLabelInvalid => None
    end in
  match save noTimestamps true with
  | None => noTimestamps
  | Some ts => default ts (save ts false)
  end.

Section System.
Context `{PosixTime} (mktime : Tm -> bool -> Z) (localtime_r : Z -> option (Tm * Z)).

(** [save_timestamp_if_valid] of the system's zone: the timestamps, and
    whether [tm_isdst] is negative. *)
Definition save_timestamp_if_valid (tm : Tm) (ts : UTCTimestampsForLocalTime) (t : Z) (is_dst : bool)
    : outcome (UTCTimestampsForLocalTime * bool) :=
  match localtime_r t with
  | None => Throw "localtime_r error"
  | Some (new_tm, tm_isdst) =>
      let ok := bool_decide (tm = new_tm) &&
        negb ((tm_isdst =? 0) && is_dst || (0 <? tm_isdst) && negb is_dst) in
      Ret (if ok then set_time ts is_dst t else ts, tm_isdst <? 0)
  end.

(** [_systemTimezoneLocalPTimeToUTCTimestamps]; the state of the loop counts
    negative [tm_isdst] and missing timestamps. *)
Definition system_timestamps (local_pt : Z) : outcome UTCTimestampsForLocalTime :=
  let tm := to_tm local_pt in
  let* (ts, negative, missing) :=
    foldM (fun st is_dst =>
      let '(ts, negative, missing) := st in
      let t := mktime tm is_dst in
      if t =? -1 then Ret (ts, negative, S missing)
      else
        let* (ts, neg) := save_timestamp_if_valid tm ts t is_dst in
        Ret (ts, if (neg : bool) then S negative else negative, missing))
      (noTimestamps, 0%nat, 0%nat) [false; true] in
  if negb (negative =? 0)%nat && negb (isAmbiguous ts)
  then Throw "negative tm_isdst but time label is unambiguous"
  else if (missing =? 0)%nat && (negative =? 1)%nat
  then Throw "one tm_isdst negative but not both"
  else if (missing =? 2)%nat then Throw "mktime failed for both is_dst choices"
  else Ret ts.
End System.

(** [timezoneLocalPTimeToUTCTimestamps]. *)
Definition timezoneLocalPTimeToUTCTimestamps `{PosixTime} (local_pt : Z) (tz : time_zone)
    : outcome UTCTimestampsForLocalTime :=
  let* res :=
    match tz with
    | BoostZone _ local_date_time => Ret (boost_timestamps local_date_time local_pt)
    | SystemZone _ mktime localtime_r => system_timestamps mktime localtime_r local_pt
    end in
  if isAmbiguous res && (dst_time res =? non_dst_time res)
  then Throw "local time maps to one timestamp regardless of tm_isdst"
  else Ret res.

(** ** The next match of an item *)

(** [std::partition_point] on [first, first + len): a binary search. *)
Fixpoint partition_point (fuel : nat) (pred : Z -> outcome bool) (first len : Z) : outcome Z :=
  match fuel with
  | O => Ret first
  | S fuel =>
      if len <=? 0 then Ret first
      else
        let half := Z.shiftr len 1 in
        let mid := first + half in
        let* b := pred mid in
        if (b : bool) then partition_point fuel pred (mid + 1) (len - half - 1)
        else partition_point fuel pred first half
  end.
(** A difference of [time_t]s is halved at most this often; the bound on nested
    calls below is the same. *)
Definition kSearchSteps : nat := 64.

Section NextMatch.
Context `{PosixTime} (tz : time_zone) (item : StandardCrontabItem).

Abbreviation timestamps pt := (timezoneLocalPTimeToUTCTimestamps pt tz).

(** The hours that [findPreSkipUTCTime] walks back. *)
Fixpoint walk_back (not_a_time : Z) (hours : list Z) (first_pt : Z) : outcome Z :=
  match hours with
  | [] => Ret first_pt
  | h :: hours =>
      let first_pt := not_a_time - 3600 * h in
      let* ts := timestamps first_pt in
      if negb (isNotATime ts) then Ret first_pt
      else if 24 <? h then Throw "No valid time found 24h before"
      else walk_back not_a_time hours first_pt
  end.

(** [findPreSkipUTCTime]. *)
Definition findPreSkipUTCTime (not_a_time : Z) : outcome Z :=
  let* first_pt := walk_back not_a_time [1; 2; 3; 6; 12; 24; 25] 0 in
  let* first_non_time :=
    partition_point kSearchSteps
      (fun pt => let* ts := timestamps pt in Ret (negb (isNotATime ts)))
      first_pt (not_a_time - first_pt) in
  let* ts := timestamps (first_non_time - 1) in
  getUnique ts.

(** [isBeforeRewind]. *)
Definition isBeforeRewind (t : Z) (ts : UTCTimestampsForLocalTime) : outcome bool :=
  if negb (t =? dst_time ts) && negb (t =? non_dst_time ts) then Throw "not one of the timestamps"
  else if negb (isAmbiguous ts) then Throw "not ambiguous in local tz"
  else Ret (t =? Z.min (dst_time ts) (non_dst_time ts)).

(** [isTimeBeforeRewind]. *)
Definition isTimeBeforeRewind (t : Z) : outcome bool :=
  let* ts := timestamps (utcPTimeToTimezoneLocalPTime t tz) in isBeforeRewind t ts.

(** [findRewindTime]. *)
Definition findRewindTime (a b : Z) : outcome Z :=
  let* before_a := isTimeBeforeRewind a in
  let* bad :=
    if negb before_a then Ret true else isTimeBeforeRewind b in
  if (bad : bool) then Throw "bad ambiguous pair"
  else
    let* rewind_t := partition_point kSearchSteps isTimeBeforeRewind a (b + 1 - a) in
    if b <? rewind_t then Throw "No DST rewind" else Ret rewind_t.

(** [MatchComputeState(pt)]. *)
Definition label_of (pt : Z) : outcome (list Z) :=
  let tm := to_tm pt in
  if negb (tm_sec tm =? 0) then Throw "nonzero seconds" else Ret (fields_of tm).

(** [findUTCTimestampsForFirstMatch]: the timestamps and the label.  It calls
    itself at most once, from the start of the ambiguous time. *)
Fixpoint findUTCTimestampsForFirstMatch (fuel : nat) (t : Z)
    : outcome (option (UTCTimestampsForLocalTime * Z)) :=
  match fuel with
  | O => Undef "stack overflow"
  | S fuel =>
      let local_pt := utcPTimeToTimezoneLocalPTime t tz in
      let* label := label_of local_pt in
      let* found := find_label item label in
      match found with
      | None => Ret None
      | Some vals =>
          let match_pt := make_ptime vals in
          let* utc_ts := timestamps match_pt in
          let* ts := timestamps local_pt in
          let* before := if isAmbiguous ts then isBeforeRewind t ts else Ret false in
          if (before : bool) then
            let* (first, second) := getBothInOrder ts in
            let* rewind_t := findRewindTime first second in
            let first_ambiguous := first - (second - rewind_t) in
            let first_unambiguous := second + (rewind_t - first) in
            if negb (t =? first_ambiguous)
               && (first_unambiguous <=? Z.max (dst_time utc_ts) (non_dst_time utc_ts))
            then findUTCTimestampsForFirstMatch fuel first_ambiguous
            else Ret (Some (utc_ts, match_pt))
          else Ret (Some (utc_ts, match_pt))
      end
  end.

Definition has_fix (bit : Z) : bool := negb (Z.land (dstFixes_ item) bit =? 0).

(** [findFirstMatch] and [findFirstMatchImpl]; [fuel] bounds the nested
    searches, one per match that a policy skips. *)
Fixpoint item_findFirstMatch (fuel : nat) (time_since_utc_epoch : Z) : outcome (option Z) :=
  match fuel with
  | O => Undef "stack overflow"
  | S fuel =>
      let t := time_since_utc_epoch + Z.rem (60 - Z.rem time_since_utc_epoch 60) 60 in
      let* found := findUTCTimestampsForFirstMatch kSearchSteps t in
      let* maybe_time :=
        match found with
        | None => Ret None
        | Some (utc_ts, match_pt) =>
            if isNotATime utc_ts then
              let* pre_skip_utc_t := findPreSkipUTCTime match_pt in
              if pre_skip_utc_t <? t then Throw "Input was after skip"
              else if has_fix kDSTForwardDoUnskip then Ret (Some pre_skip_utc_t)
              else item_findFirstMatch fuel (pre_skip_utc_t + 1)
            else if isAmbiguous utc_ts then
              let* (first, second) := getBothInOrder utc_ts in
              if t <=? first then
                if negb (has_fix kDSTRewindUseEarly) then item_findFirstMatch fuel (first + 1)
                else Ret (Some first)
              else if negb (has_fix kDSTRewindUseLate) then item_findFirstMatch fuel (second + 1)
              else Ret (Some second)
            else let* u := getUnique utc_ts in Ret (Some u)
        end in
      match maybe_time with
      | Some m => if m <? time_since_utc_epoch then Throw "findFirstMatch went back in time"
                  else Ret (Some m)
      | None => Ret None
      end
  end.
End NextMatch.

(** ** Zones with at most two offsets *)

(** How the library describes a zone: its offset with and without daylight
    saving time, and when the latter is in effect. *)
Record zone_rules := mkRules { off_dst : Z; off_std : Z; dst_at : Z -> bool }.
Definition local_at (z : zone_rules) (u : Z) : Z :=
  u + if dst_at z u then off_dst z else off_std z.

Definition offset (z : zone_rules) (d : bool) : Z := if d then off_dst z else off_std z.

Lemma local_at_iff z u l d :
  local_at z u = l /\ dst_at z u = d <-> u = l - offset z d /\ dst_at z u = d.
Proof. unfold local_at, offset. split; intros [H <-]; (split; [|done]); destruct (dst_at z u); lia. Qed.

(** A zone that follows the rules: what the documentation of boost and of the
    C library says of the functions. *)
Inductive implements `{PosixTime} (z : zone_rules) : time_zone -> Prop :=
| implements_boost local_time local_date_time :
    (forall u, local_time u = local_at z u) ->
    (forall l d u d', local_date_time l d = Made u d' -> local_at z u = l /\ dst_at z u = d') ->
    (forall u, local_date_time (local_at z u) (dst_at z u) = Made u (dst_at z u)) ->
    (forall l d u, local_date_time l d = TimeLabelInvalid -> local_at z u <> l) ->
    implements z (BoostZone local_time local_date_time)
| implements_system utc_to_local mktime localtime_r :
    (forall u, utc_to_local u = local_at z u) ->
    (forall u, localtime_r u = Some (to_tm (local_at z u), if dst_at z u then 1 else 0)) ->
    (forall u, mktime (to_tm (local_at z u)) (dst_at z u) = u) ->
    (forall l, exists d, mktime (to_tm l) d <> -1) ->
    implements z (SystemZone utc_to_local mktime localtime_r).

(** The timestamp of a label, if it is in effect with this choice of [is_dst]. *)
Definition timestamp_for (z : zone_rules) (l : Z) (d : bool) : Z :=
  if Bool.eqb (dst_at z (l - offset z d)) d then l - offset z d else kNotATime.
Definition timestamps_for (z : zone_rules) (l : Z) : UTCTimestampsForLocalTime :=
  mkTimestamps (timestamp_for z l true) (timestamp_for z l false).

Section Zones.
Context {P : PosixTime} {PL : PosixTimeLaws P} (z : zone_rules).

Lemma to_tm_inj l l' : to_tm l = to_tm l' -> l = l'.
Proof using PL. intros He. rewrite <- (proj1 (pt_read l)), <- (proj1 (pt_read l')), He. done. Qed.

Lemma timestamp_for_spec l d u :
  u <> kNotATime -> timestamp_for z l d = u <-> local_at z u = l /\ dst_at z u = d.
Proof.
  intros Hu. rewrite local_at_iff. unfold timestamp_for.
  destruct (Bool.eqb_spec (dst_at z (l - offset z d)) d) as [He|He]; split.
  - by intros <-.
  - by intros [-> _].
  - by intros <-.
  - by intros [-> ?].
Qed.

Lemma boost_timestamps_ok local_time make l :
  implements z (BoostZone local_time make) -> boost_timestamps make l = timestamps_for z l.
Proof.
  intros Hi. inversion Hi as [? ? _ Hmade Hmake Hinv|]; subst.
  assert (Hnone : forall d d', make l d = TimeLabelInvalid -> timestamp_for z l d' = kNotATime).
  { intros d d' Hm. unfold timestamp_for. destruct (Bool.eqb_spec (dst_at z (l - offset z d')) d') as [He|]; [|done].
    exfalso. apply (Hinv l d (l - offset z d') Hm). by apply (local_at_iff z _ l d'). }
  assert (Hsave : forall ts (d : bool), make l d <> TimeLabelInvalid ->
    (if d then dst_time ts else non_dst_time ts) = kNotATime ->
    match make l d with
    | Made utc d' => if Bool.eqb d' d then set_time ts d utc else ts
    | _ => ts
    end = set_time ts d (timestamp_for z l d)).
  { intros ts d Hno Hts. unfold timestamp_for.
    destruct (Bool.eqb_spec (dst_at z (l - offset z d)) d) as [He|He].
    - assert (Hl : local_at z (l - offset z d) = l) by (by apply (local_at_iff z _ l d)).
      specialize (Hmake (l - offset z d)). rewrite Hl, He in Hmake. rewrite Hmake.
      by rewrite Bool.eqb_reflx.
    - assert (Hsame : ts = set_time ts d kNotATime) by (destruct ts, d; cbn in *; congruence).
      destruct (make l d) as [u d'| |] eqn:Em; [|done|done].
      destruct (Bool.eqb_spec d' d) as [->|]; [|done]. exfalso.
      apply Hmade in Em. apply local_at_iff in Em as [-> ?]. done. }
  unfold boost_timestamps, timestamps_for.
  destruct (make l true) as [u d| |] eqn:E1; [..|by rewrite !(Hnone true)];
    (pose proof (Hsave noTimestamps true ltac:(congruence) eq_refl) as H1; rewrite E1 in H1; rewrite H1;
     destruct (make l false) as [u' d'| |] eqn:E2;
       [..|cbn; by rewrite !(Hnone false)];
     pose proof (Hsave (set_time noTimestamps true (timestamp_for z l true)) false ltac:(congruence) eq_refl) as H2;
     rewrite E2 in H2; cbn [default from_option id]; rewrite H2; done).
Qed.

Lemma system_timestamps_ok to_local mktime localtime_r l :
  implements z (SystemZone to_local mktime localtime_r) ->
  system_timestamps mktime localtime_r l = Ret (timestamps_for z l).
Proof using PL.
  intros Hi. inversion Hi as [|? ? ? _ Hlt Hmk Hsome]; subst.
  (* one round of the loop *)
  set (round := fun (st : UTCTimestampsForLocalTime * nat * nat) (is_dst : bool) =>
    let '(ts, negative, missing) := st in
    let t := mktime (to_tm l) is_dst in
    if t =? -1 then Ret (ts, negative, S missing)
    else
      let* (ts, neg) := save_timestamp_if_valid localtime_r (to_tm l) ts t is_dst in
      Ret (ts, if (neg : bool) then S negative else negative, missing)).
  assert (Hround : forall ts neg miss (d : bool), (if d then dst_time ts else non_dst_time ts) = kNotATime ->
    round (ts, neg, miss) d = Ret (set_time ts d (timestamp_for z l d), neg,
      if mktime (to_tm l) d =? -1 then S miss else miss)).
  { intros ts neg miss d Hts. unfold round.
    assert (Hsame : ts = set_time ts d kNotATime) by (destruct ts, d; cbn in *; congruence).
    assert (Hval : forall u, mktime (to_tm l) d = u -> u <> -1 ->
      timestamp_for z l d = if bool_decide (to_tm l = to_tm (local_at z u)) &&
        Bool.eqb (dst_at z u) d then u else kNotATime).
    { intros u Hu Hne. case_bool_decide as Ht; cbn [andb].
      - apply to_tm_inj in Ht. destruct (Bool.eqb_spec (dst_at z u) d) as [Hd|Hd].
        + by apply timestamp_for_spec.
        + unfold timestamp_for. destruct (Bool.eqb_spec (dst_at z (l - offset z d)) d) as [Hd2|]; [|done].
          exfalso. specialize (Hmk (l - offset z d)).
          rewrite (proj1 (proj2 (local_at_iff z _ l d) (conj eq_refl Hd2))), Hd2 in Hmk. congruence.
      - unfold timestamp_for. destruct (Bool.eqb_spec (dst_at z (l - offset z d)) d) as [Hd2|]; [|done].
        exfalso. apply Ht. specialize (Hmk (l - offset z d)).
        pose proof (proj1 (proj2 (local_at_iff z _ l d) (conj eq_refl Hd2))) as Hl.
        rewrite Hl, Hd2 in Hmk. rewrite <- Hu, Hmk. by rewrite Hl. }
    destruct (Z.eqb_spec (mktime (to_tm l) d) (-1)) as [He|He].
    - do 3 f_equal. rewrite Hsame at 1. f_equal. unfold timestamp_for.
      destruct (Bool.eqb_spec (dst_at z (l - offset z d)) d) as [Hd2|]; [|done].
      specialize (Hmk (l - offset z d)).
      rewrite (proj1 (proj2 (local_at_iff z _ l d) (conj eq_refl Hd2))), Hd2 in Hmk. unfold kNotATime. congruence.
    - rewrite (Hval _ eq_refl He). unfold save_timestamp_if_valid. rewrite Hlt. cbn [mbind outcome_bind].
      assert (negb (((if dst_at z (mktime (to_tm l) d) then 1 else 0) =? 0) && d
        || (0 <? if dst_at z (mktime (to_tm l) d) then 1 else 0) && negb d)
        = Bool.eqb (dst_at z (mktime (to_tm l) d)) d) as -> by (by destruct (dst_at z _), d).
      assert (((if dst_at z (mktime (to_tm l) d) then 1 else 0) <? 0) = false) as -> by (by destruct (dst_at z _)).
      destruct (_ && _); [done|]. by rewrite <- Hsame. }
  unfold system_timestamps. fold round. cbn [foldM]. rewrite Hround by done.
  cbn [mbind outcome_bind]. rewrite Hround by done. cbn [mbind outcome_bind]. cbn [Nat.eqb negb andb].
  destruct (Hsome l) as [d Hd].
  destruct d; rewrite (proj2 (Z.eqb_neq _ _) Hd); destruct (_ =? -1); reflexivity.
Qed.

Lemma zone_timestamps tz l :
  implements z tz -> timezoneLocalPTimeToUTCTimestamps l tz = Ret (timestamps_for z l).
Proof using PL.
  intros Hi. unfold timezoneLocalPTimeToUTCTimestamps.
  assert (match tz with
    | BoostZone _ make => Ret (boost_timestamps make l)
    | SystemZone _ mktime localtime_r => system_timestamps mktime localtime_r l
    end = Ret (timestamps_for z l)) as ->.
  { destruct tz; [f_equal; by eapply boost_timestamps_ok|by eapply system_timestamps_ok]. }
  cbn [mbind outcome_bind].
  destruct (isAmbiguous _ && _) eqn:E; [exfalso|done].
  apply andb_prop in E as [[H1 H2]%andb_prop He%Z.eqb_eq].
  apply negb_true_iff, Z.eqb_neq in H1, H2. cbn in H1, H2, He.
  pose proof (proj1 (timestamp_for_spec l true _ H1) eq_refl) as [_ Hd1].
  pose proof (proj1 (timestamp_for_spec l false _ H2) eq_refl) as [_ Hd2].
  rewrite He in Hd1. congruence.
Qed.

Lemma zone_local tz u : implements z tz -> utcPTimeToTimezoneLocalPTime u tz = local_at z u.
Proof. intros Hi. inversion Hi; subst; cbn; auto. Qed.

(** With boost's time zones as with the C library's, the conversion of a
    local time label returns exactly the UTC timestamps that have this label:
    none for a label that was skipped, two for one that was repeated; only
    the timestamp -1 is taken for "no time". *)
Theorem label_timestamps tz l :
  implements z tz ->
  exists ts, timezoneLocalPTimeToUTCTimestamps l tz = Ret ts /\
    forall u, u <> kNotATime ->
      (dst_time ts = u <-> local_at z u = l /\ dst_at z u = true) /\
      (non_dst_time ts = u <-> local_at z u = l /\ dst_at z u = false).
Proof using PL.
  intros Hi. exists (timestamps_for z l). split; [by apply zone_timestamps|]. intros u Hu.
  split; by apply timestamp_for_spec.
Qed.

(** *** Every match is real *)

Section Items.
Context (tz : time_zone) (item : StandardCrontabItem).
Hypothesis Hzone : implements z tz.
Hypothesis Hwf : item_wf item.

(** The item matches the label of this timestamp. *)
Definition matches_at (u : Z) : Prop :=
  exists l, label_of (local_at z u) = Ret l /\ label_matches item l.

Lemma matches_valid l : label_matches item l -> label_valid l.
Proof using Hwf.
  intros [Hl Hf]. split; [done| |].
  - intros p Hp. destruct (Hf p Hp) as [(sel & Hs & Hsel) _].
    destruct (iw_selectors _ Hwf p Hp) as (sel' & Hs' & (Hw & _ & <- & <-)).
    assert (sel' = sel) as -> by congruence. by apply selects_range.
  - destruct (Hf DAY_OF_MONTH ltac:(unfold DAY_OF_MONTH, MAX; lia)) as [_ Hd].
    destruct (Hd eq_refl) as [Hle _]. unfold year_of, month_of in Hle.
    by rewrite !nth_take_lt in Hle by (unfold DAY_OF_MONTH; lia).
Qed.

Lemma label_of_make l : label_valid l -> label_of (make_ptime l) = Ret l.
Proof using PL. intros Hv. unfold label_of. destruct (pt_make l Hv) as [-> ->]. done. Qed.

(** The search rejects years that the calendar does not have. *)
Lemma find_label_year l r : find_label item l = Ret r -> 1969 <= nth YEAR l 0 <= 9999.
Proof using Hwf.
  unfold find_label. assert (exists k, kMaxDepth = S k) as [k ->] by (by exists 49%nat).
  intros Hf. apply bind_Ret_iff in Hf as (steps & _ & Hf).
  apply bind_Ret_iff in Hf as (s & Hf & _). cbn [findMatchingPositionsImpl pos_] in Hf.
  destruct (iw_selectors _ Hwf YEAR ltac:(unfold YEAR, MAX; lia)) as (sel & Hs & (_ & _ & Hmin & Hmax)).
  rewrite Hs in Hf. cbn in Hmin, Hmax. rewrite Hmin, Hmax in Hf. unfold getVal in Hf. cbn [vals_] in Hf.
  destruct (Z.ltb_spec (nth YEAR l 0) 1969), (Z.ltb_spec 9999 (nth YEAR l 0)); cbn [orb] in Hf; try done.
Qed.

Lemma found_label u l r :
  label_of u = Ret l -> find_label item l = Ret r ->
  label_valid l /\ make_ptime l = u.
Proof using PL Hwf.
  unfold label_of. destruct (Z.eqb_spec (tm_sec (to_tm u)) 0) as [Hs|]; [|done]. cbn [negb].
  intros [= <-] Hf. apply find_label_year in Hf. destruct (pt_read u) as [Hr _].
  split; [by apply pt_valid|lia].
Qed.

(** What [findUTCTimestampsForFirstMatch] returns: a label that matches, and
    its timestamps. *)
Lemma first_match_label fuel t ts pt :
  findUTCTimestampsForFirstMatch tz item fuel t = Ret (Some (ts, pt)) ->
  exists l, label_matches item l /\ pt = make_ptime l /\ ts = timestamps_for z pt.
Proof using PL Hzone Hwf.
  revert t. induction fuel as [|fuel IH]; intros t Hf; [done|]. cbn in Hf.
  apply bind_Ret_iff in Hf as (label & Hl & Hf). apply bind_Ret_iff in Hf as (found & Hfound & Hf).
  destruct found as [vals|]; [|done].
  pose proof (found_label _ _ _ Hl Hfound) as [Hv _].
  pose proof (search_ok item Hwf kMaxDepth _ 0 (start_searching item label Hv) ltac:(auto)) as Hs.
  rewrite find_label_search in Hfound. apply bind_Ret_iff in Hfound as (s & Es & Hfound).
  rewrite Es in Hs. cbn in Hs, Hfound. destruct (hasResult_ s); [|done]. injection Hfound as <-.
  rewrite !(zone_timestamps tz _ Hzone) in Hf. cbn [mbind outcome_bind] in Hf.
  assert (Hend : Ret (Some (timestamps_for z (make_ptime (vals_ s)), make_ptime (vals_ s)))
      = Ret (Some (ts, pt)) -> exists l, label_matches item l /\ pt = make_ptime l /\ ts = timestamps_for z pt).
  { intros [= <- <-]. exists (vals_ s). split; [apply Hs|done]. }
  apply bind_Ret_iff in Hf as (before & _ & Hf). destruct before; [|by apply Hend].
  apply bind_Ret_iff in Hf as ([a b] & _ & Hf). apply bind_Ret_iff in Hf as (rw & _ & Hf).
  destruct (negb _ && _); [by apply IH in Hf|by apply Hend].
Qed.

(** A timestamp of a label that matches. *)
Lemma timestamp_matches l d u :
  label_matches item l -> timestamp_for z (make_ptime l) d = u -> u <> kNotATime -> matches_at u.
Proof using PL Hwf.
  intros Hl Hu Hne. apply timestamp_for_spec in Hu as [Hu _]; [|done]. exists l. rewrite Hu.
  split; [by apply label_of_make, matches_valid|done].
Qed.

(** C20: In any time zone with at most two offsets, whatever the policies of an
    item whose ranges are not reversed (the parser accepts reversed ones), a
    timestamp that [findFirstMatch] returns is not before the given time, and
    the item matches its local label -- or the item asks for skipped times,
    the label that matches was skipped, and the timestamp is the one that was
    found right before the skip. *)
Theorem matches_are_real fuel t r :
  item_findFirstMatch tz item fuel t = Ret (Some r) ->
  t <= r /\
  (matches_at r \/
   has_fix item kDSTForwardDoUnskip = true /\ exists l, label_matches item l /\
     findPreSkipUTCTime tz (make_ptime l) = Ret r /\
     forall u, u <> kNotATime -> local_at z u <> make_ptime l).
Proof using PL Hzone Hwf.
  revert t r. induction fuel as [|fuel IH]; intros t r Hf; [done|]. cbn [item_findFirstMatch] in Hf.
  set (t' := t + _) in Hf. apply bind_Ret_iff in Hf as (found & Hfound & Hf).
  apply bind_Ret_iff in Hf as (mt & Hmt & Hf). destruct mt as [m|]; [|done].
  destruct (Z.ltb_spec m t) as [|Hge]; [done|]. injection Hf as <-. split; [lia|].
  destruct found as [[ts pt]|]; [|done].
  apply first_match_label in Hfound as (l & Hl & -> & ->).
  destruct (isNotATime (timestamps_for z (make_ptime l))) eqn:En.
  { apply bind_Ret_iff in Hmt as (pre & Hpre & Hmt). destruct (pre <? t'); [done|].
    destruct (has_fix item kDSTForwardDoUnskip) eqn:Efix; [|by apply IH in Hmt as [_ ?]].
    injection Hmt as <-. right. split; [done|]. exists l. split; [done|]. split; [done|].
    intros u Hu He. apply andb_prop in En as [E1%Z.eqb_eq E2%Z.eqb_eq]. cbn in E1, E2.
    destruct (dst_at z u) eqn:Ed.
    - pose proof (proj2 (timestamp_for_spec (make_ptime l) true u Hu) (conj He Ed)). congruence.
    - pose proof (proj2 (timestamp_for_spec (make_ptime l) false u Hu) (conj He Ed)). congruence. }
  destruct (isAmbiguous (timestamps_for z (make_ptime l))) eqn:Ea.
  - unfold getBothInOrder in Hmt. rewrite Ea in Hmt. cbn [negb] in Hmt.
    apply bind_Ret_iff in Hmt as ([a b] & Hab & Hmt).
    apply andb_prop in Ea as [E1%negb_true_iff%Z.eqb_neq E2%negb_true_iff%Z.eqb_neq]. cbn in E1, E2, Hab.
    assert (Hboth : matches_at a /\ matches_at b).
    { destruct (_ <? _); injection Hab as <- <-; split; by eapply timestamp_matches. }
    destruct (t' <=? a), (negb (has_fix item _)); try (by apply IH in Hmt as [_ ?]);
      injection Hmt as <-; left; apply Hboth.
  - apply bind_Ret_iff in Hmt as (u & Hu & Hmt). injection Hmt as <-. left.
    unfold getUnique in Hu. rewrite Ea in Hu. cbn in Hu.
    destruct (Z.eqb_spec (timestamp_for z (make_ptime l) true) kNotATime); cbn [negb] in Hu;
      [destruct (Z.eqb_spec (timestamp_for z (make_ptime l) false) kNotATime); cbn [negb] in Hu; [done|]|];
      injection Hu as <-; by eapply timestamp_matches.
Qed.

(** *** A zone without daylight saving time *)

(** [findFirstMatchImpl] rounds up to the minute. *)
Definition round_up (t : Z) : Z := t + Z.rem (60 - Z.rem t 60) 60.

Lemma round_up_spec t :
  (60 | round_up t) /\ t <= round_up t /\ forall u, (60 | u) -> t <= u -> round_up t <= u.
Proof.
  unfold round_up. split; [|split; [|intros u [k ->]]].
  - apply Z.mod_divide; [lia|]. Z.to_euclidean_division_equations. lia.
  - Z.to_euclidean_division_equations. lia.
  - Z.to_euclidean_division_equations. lia.
Qed.

Lemma minute_label x : (60 | x) -> label_of x = Ret (fields_of (to_tm x)) /\ make_ptime (fields_of (to_tm x)) = x.
Proof using PL.
  intros [k Hk]. destruct (pt_read x) as [Hr Hs]. destruct (pt_minutes (fields_of (to_tm x))) as [j Hj].
  assert (tm_sec (to_tm x) = 0) as H0 by lia. unfold label_of. rewrite H0. split; [done|lia].
Qed.

Lemma label_of_inv x l : label_of x = Ret l -> l = fields_of (to_tm x) /\ make_ptime l = x.
Proof using PL.
  unfold label_of. destruct (Z.eqb_spec (tm_sec (to_tm x)) 0) as [Hs|]; [|done]. cbn [negb].
  intros [= <-]. split; [done|]. destruct (pt_read x). lia.
Qed.

Hypothesis Hfixed : forall u, dst_at z u = false.
Hypothesis Hminutes : (60 | off_std z).

Lemma fixed_timestamps l : timestamps_for z l = mkTimestamps kNotATime (l - off_std z).
Proof using Hfixed. unfold timestamps_for, timestamp_for, offset. by rewrite !Hfixed. Qed.

Lemma fixed_local u : local_at z u = u + off_std z.
Proof using Hfixed. unfold local_at. by rewrite Hfixed. Qed.

(** The search in the zone is the search among labels. *)
Lemma fixed_search fuel t :
  (60 | t) ->
  let label := fields_of (to_tm (t + off_std z)) in
  findUTCTimestampsForFirstMatch tz item (S fuel) t =
    let* found := find_label item label in
    Ret ((fun l => (timestamps_for z (make_ptime l), make_ptime l)) <$> found).
Proof using PL Hzone Hfixed Hminutes.
  intros Ht label. cbn [findUTCTimestampsForFirstMatch]. rewrite (zone_local tz t Hzone), fixed_local.
  assert (Hd : (60 | t + off_std z)) by (by apply Z.divide_add_r).
  destruct (minute_label _ Hd) as [-> _]. cbn [mbind outcome_bind]. fold label.
  destruct (find_label item label) as [[l|]| | |]; try done. cbn [mbind outcome_bind].
  rewrite !(zone_timestamps tz _ Hzone). cbn [mbind outcome_bind].
  rewrite (fixed_timestamps (t + off_std z)). cbn. done.
Qed.

(** The search in such a zone; see [next_match_fixed_zone]. *)
Lemma fixed_zone_match fuel t :
  1969 <= tm_year (to_tm (round_up t + off_std z)) + 1900 <= 9999 ->
  match item_findFirstMatch tz item (S fuel) t with
  | Ret (Some r) => t <= r /\ matches_at r /\ forall u, matches_at u -> t <= u -> r <= u
  | Ret None => forall u, matches_at u -> u < t
  | Throw m => m = kDepthMessage
  | _ => False
  end.
Proof using PL Hzone Hwf Hfixed Hminutes.
  intros Hyear. destruct (round_up_spec t) as (Hd & Hle & Hleast).
  cbn [item_findFirstMatch]. fold (round_up t).
  assert (exists k, kSearchSteps = S k) as [k ->] by (by exists 63%nat).
  rewrite fixed_search by done. set (label := fields_of (to_tm (round_up t + off_std z))).
  assert (Hv : label_valid label) by (by apply pt_valid).
  assert (Hlabel : make_ptime label = round_up t + off_std z)
    by (apply minute_label; by apply Z.divide_add_r).
  (* a match from [t] on has a label from [label] on *)
  assert (Hlater : forall u, matches_at u -> t <= u ->
    exists x, label_matches item x /\ make_ptime x = u + off_std z /\ lex_le label x).
  { intros u (x & Hx & Hm) Hu. rewrite fixed_local in Hx.
    destruct (label_of_inv _ _ Hx) as [Hfx Hpx]. exists x. split; [done|]. split; [done|].
    assert (Hu60 : (60 | u)).
    { replace u with (make_ptime x - off_std z) by lia. apply Z.divide_sub_r; [apply pt_minutes|done]. }
    specialize (Hleast u Hu60 Hu). pose proof (matches_valid _ Hm) as Hvx.
    destruct (lex_total label x) as [Hlt|[->|Hlt]];
      [by rewrite (lv_length _ Hv), (lv_length _ Hvx)|by apply lex_lt_le|apply lex_le_refl|].
    pose proof (pt_mono x label Hvx Hv (lex_lt_le _ _ Hlt)) as Hmono.
    assert (u = round_up t) as -> by lia. rewrite Hfx. apply lex_le_refl. }
  pose proof (search_ok item Hwf kMaxDepth _ 0 (start_searching item label Hv) ltac:(auto)) as Hs.
  rewrite find_label_search. destruct (search _ _ _ _) as [s|m|m|m]; cbn [mbind outcome_bind];
    [|exact Hs|destruct Hs|destruct Hs].
  cbn [search_result] in Hs. destruct (hasResult_ s).
  - destruct Hs as (Hm & Hb & Hmin). cbn [fmap option_fmap option_map]. set (pt := make_ptime (vals_ s)).
    pose proof (matches_valid _ Hm) as Hvs.
    assert (Hne : pt - off_std z <> kNotATime).
    { intros He. destruct (pt_minutes (vals_ s)) as [j Hj], Hminutes as [i Hi]. unfold kNotATime in He.
      unfold pt in He. lia. }
    rewrite fixed_timestamps. unfold isNotATime, isAmbiguous, getUnique, isAmbiguous.
    cbn [dst_time non_dst_time]. rewrite (proj2 (Z.eqb_neq _ _) Hne).
    replace (kNotATime =? kNotATime) with true by done. cbn [andb negb mbind outcome_bind].
    pose proof (pt_mono _ _ Hv Hvs Hb) as Hmono. fold pt in Hmono.
    rewrite (proj2 (Z.ltb_ge _ _)) by lia. split; [lia|]. split.
    + exists (vals_ s). rewrite fixed_local. replace (pt - off_std z + off_std z) with pt by lia.
      split; [by apply label_of_make|done].
    + intros u Hu Htu. destruct (Hlater u Hu Htu) as (x & Hmx & Hpx & Hlx).
      pose proof (pt_mono _ _ Hvs (matches_valid _ Hmx) (Hmin x Hmx Hlx)). fold pt in H. lia.
  - intros u Hu. destruct (Z.lt_ge_cases u t) as [|Htu]; [done|].
    destruct (Hlater u Hu ltac:(lia)) as (x & Hmx & _ & Hlx). by destruct (Hs x Hmx).
Qed.

(** In a zone without daylight saving time, whose offset is a number of
    minutes, [findFirstMatch] returns the first timestamp from the given time
    on whose local label the item matches, or nothing if there is none before
    the year 10000; the only error is the limit on iterations. *)
Theorem next_match_fixed_zone fuel t :
  1969 <= tm_year (to_tm (round_up t + off_std z)) + 1900 <= 9999 ->
  match item_findFirstMatch tz item (S fuel) t with
  | Ret (Some r) => t <= r /\ matches_at r /\ forall u, matches_at u -> t <= u -> r <= u
  | Ret None => forall u, matches_at u -> u < t
  | Throw m => m = kDepthMessage
  | _ => False
  end.
Proof using PL Hzone Hwf Hfixed Hminutes. apply fixed_zone_match. Qed.
End Items.
End Zones.

(** ** The Gregorian calendar and zones, for concrete items *)

Definition month_start (y m : Z) : Z := civil_days y m 1.
(** The year and month of a day: an estimate, corrected by one. *)
Definition year_at (n : Z) : Z :=
  let y := 400 * (n + 60) / 146097 in
  if n <? month_start y 1 then y - 1 else if month_start (y + 1) 1 <=? n then y + 1 else y.
Fixpoint month_at (fuel : nat) (y m n : Z) : Z :=
  match fuel with
  | O => m
  | S fuel => if month_start y m <=? n then m else month_at fuel y (m - 1) n
  end.
(** The first of January 1970. *)
Definition kEpochDay : Z := civil_days 1970 1 1.
Definition gregorian_tm (t : Z) : Tm :=
  let n := t / 86400 + kEpochDay in let s := t mod 86400 in
  let y := year_at n in let m := month_at 11 y 12 n in
  mkTm (y - 1900) (m - 1) (n - month_start y m + 1) (s / 3600) (s / 60 mod 60) (s mod 60).
Definition gregorian_ptime (l : list Z) : Z :=
  86400 * (civil_days (nth 0 l 0) (nth 1 l 0) (nth 2 l 0) - kEpochDay)
  + 3600 * nth 3 l 0 + 60 * nth 4 l 0.
#[export] Instance gregorian_time : PosixTime := {
  to_tm := gregorian_tm;
  make_ptime := gregorian_ptime
}.

(** A zone of boost with these rules. *)
Definition boost_of (z : zone_rules) : time_zone :=
  let valid (l : Z) (d : bool) := Bool.eqb (dst_at z (l - if d then off_dst z else off_std z)) d in
  BoostZone (local_at z) (fun l d =>
    if valid l d then Made (l - if d then off_dst z else off_std z) d
    else if valid l (negb d) then DstNotValid else TimeLabelInvalid).
(** The Pacific time zone in 2013. *)
Definition pacific : zone_rules :=
  mkRules (-25200) (-28800) (fun u => (1362909600 <=? u) && (u <? 1383469200)).

Lemma month_start_jan y : month_start y 1 = 365 * (y - 1) + (y - 1) / 4 - (y - 1) / 100 + (y - 1) / 400 + 306.
Proof.
  unfold month_start, civil_days. change (1 <=? 2) with true. cbv beta iota zeta.
  change ((153 * (1 + 9) + 2) / 5) with 306. lia.
Qed.

Lemma year_at_spec n : month_start (year_at n) 1 <= n < month_start (year_at n + 1) 1.
Proof.
  unfold year_at. set (y := 400 * (n + 60) / 146097).
  assert (Hy : 146097 * y <= 400 * (n + 60) < 146097 * y + 146097) by (unfold y; Z.to_euclidean_division_equations; lia).
  clearbody y. destruct (Z.ltb_spec n (month_start y 1)); [|destruct (Z.leb_spec (month_start (y + 1) 1) n)];
    rewrite !month_start_jan in *; Z.to_euclidean_division_equations; lia.
Qed.

Lemma month_next y m : 1 <= m <= 11 -> month_start y (m + 1) = month_start y m + month_days y m.
Proof.
  intros Hm. assert (m = 1 \/ m = 2 \/ m = 3 \/ m = 4 \/ m = 5 \/ m = 6 \/ m = 7 \/ m = 8 \/ m = 9 \/
    m = 10 \/ m = 11) as H by lia.
  destruct (decide (m = 2)) as [->|Hne].
  - unfold month_start, civil_days, month_days, is_leap. change (2 <=? 2) with true.
    change (2 + 1 <=? 2) with false. change (2 =? 2) with true. cbv beta iota zeta.
    destruct (Z.eqb_spec (y mod 4) 0), (Z.eqb_spec (y mod 100) 0), (Z.eqb_spec (y mod 400) 0); cbn [andb orb negb];
      Z.to_euclidean_division_equations; lia.
  - repeat destruct H as [->|H]; try done; [..|subst]; unfold month_start, civil_days, month_days;
      repeat match goal with
      | |- context [Z.leb ?a ?b] => let v := eval vm_compute in (Z.leb a b) in change (Z.leb a b) with v
      | |- context [Z.eqb ?a ?b] => let v := eval vm_compute in (Z.eqb a b) in change (Z.eqb a b) with v
      end; cbv beta iota zeta; cbn [orb]; Z.to_euclidean_division_equations; lia.
Qed.

Lemma year_next y : month_start (y + 1) 1 = month_start y 12 + 31.
Proof.
  rewrite month_start_jan. unfold month_start, civil_days. change (12 <=? 2) with false.
  cbv beta iota zeta. change ((153 * (12 - 3) + 2) / 5) with 275.
  replace (y + 1 - 1) with y by lia. lia.
Qed.

Lemma month_days_ge y m : 1 <= m <= 12 -> 28 <= month_days y m <= 31.
Proof. apply (month_length (C := gregorian)). Qed.

Lemma month_at_spec fuel y m n :
  (fuel < 12)%nat -> Z.of_nat fuel = m - 1 -> m <= 12 -> month_start y 1 <= n ->
  (n < month_start y m + month_days y m) ->
  let r := month_at fuel y m n in 1 <= r <= 12 /\ month_start y r <= n < month_start y r + month_days y r.
Proof.
  revert m. induction fuel as [|fuel IH]; intros m Hf Hm Hle Hlo Hhi; cbn.
  - assert (m = 1) as -> by lia. lia.
  - destruct (Z.leb_spec (month_start y m) n); [lia|]. apply IH; [lia..|].
    rewrite <- month_next by lia. by replace (m - 1 + 1) with m by lia.
Qed.

Lemma gregorian_read t :
  let tm := gregorian_tm t in
  gregorian_ptime (fields_of tm) + tm_sec tm = t /\ 0 <= tm_sec tm < 60 /\
  0 <= tm_hour tm <= 23 /\ 0 <= tm_min tm <= 59 /\ 1 <= tm_mon tm + 1 <= 12 /\
  1 <= tm_mday tm <= month_days (tm_year tm + 1900) (tm_mon tm + 1).
Proof.
  unfold gregorian_tm. set (n := t / 86400 + kEpochDay). set (y := year_at n). set (m := month_at 11 y 12 n).
  assert (Hm : 1 <= m <= 12 /\ month_start y m <= n < month_start y m + month_days y m).
  { apply (month_at_spec 11 y 12 n); try lia; [apply year_at_spec|].
    change (month_days y 12) with 31. rewrite <- year_next. apply year_at_spec. }
  unfold gregorian_ptime, fields_of. cbn [nth tm_year tm_mon tm_mday tm_hour tm_min tm_sec].
  replace (y - 1900 + 1900) with y by lia. replace (m - 1 + 1) with m by lia.
  assert (Hc : civil_days y m (n - month_start y m + 1) = n) by (unfold month_start, civil_days; lia).
  rewrite Hc. unfold n at 1.
  split; [|split; [|split; [|split; [|split]]]]; try lia; Z.to_euclidean_division_equations; lia.
Qed.

(** Months in sequence. *)
Lemma month_start_mono y m y' m' :
  1 <= m <= 12 -> 1 <= m' <= 12 -> 12 * y + m < 12 * y' + m' ->
  month_start y m + month_days y m <= month_start y' m'.
Proof.
  intros Hm Hm' Hlt. remember (Z.to_nat (12 * y' + m' - (12 * y + m) - 1)) as k eqn:Hk.
  revert y' m' Hm' Hlt Hk. induction k as [|k IH]; intros y' m' Hm' Hlt Hk.
  - assert (12 * y' + m' = 12 * y + m + 1) as He by lia. destruct (decide (m = 12)) as [->|].
    + assert (y' = y + 1 /\ m' = 1) as [-> ->] by lia. rewrite year_next. change (month_days y 12) with 31. lia.
    + assert (y' = y /\ m' = m + 1) as [-> ->] by lia. rewrite month_next by lia. lia.
  - destruct (decide (m' = 1)) as [->|].
    + specialize (IH (y' - 1) 12 ltac:(lia) ltac:(lia) ltac:(lia)).
      pose proof (year_next (y' - 1)) as Hn. replace (y' - 1 + 1) with y' in Hn by lia. lia.
    + specialize (IH y' (m' - 1) ltac:(lia) ltac:(lia) ltac:(lia)).
      pose proof (month_next y' (m' - 1) ltac:(lia)) as Hn. replace (m' - 1 + 1) with m' in Hn by lia.
      pose proof (month_days_ge y' (m' - 1) ltac:(lia)). lia.
Qed.

(** Fields of any year. *)
Definition plain_valid (l : list Z) : Prop :=
  exists y m d h i, l = [y; m; d; h; i] /\ 1 <= m <= 12 /\ 1 <= d <= month_days y m /\
    0 <= h <= 23 /\ 0 <= i <= 59.

Lemma gregorian_order l l' :
  plain_valid l -> plain_valid l' -> lex_lt l l' -> gregorian_ptime l + 60 <= gregorian_ptime l'.
Proof.
  intros (y & m & d & h & i & -> & Hm & Hd & Hh & Hi) (y' & m' & d' & h' & i' & -> & Hm' & Hd' & Hh' & Hi') Hlt.
  unfold gregorian_ptime. cbn [nth]. cbn [lex_lt] in Hlt.
  assert (Hday : forall y m d, civil_days y m d = month_start y m + d - 1)
    by (intros; unfold month_start, civil_days; lia).
  rewrite !Hday. pose proof (month_start_mono y m y' m' Hm Hm') as Hmono.
  destruct Hlt as [Hlt|[-> [Hlt|[-> [Hlt|[-> [Hlt|[-> [Hlt|[_ []]]]]]]]]]]; try lia;
    specialize (Hmono ltac:(lia)); lia.
Qed.

Lemma plain_of_valid l : label_valid (C := gregorian) l -> plain_valid l.
Proof.
  intros [Hl Hr Hd]. unfold MAX in *. do 6 (destruct l as [|? l]; try discriminate Hl).
  pose proof (Hr 1%nat ltac:(lia)) as R1. pose proof (Hr 2%nat ltac:(lia)) as R2.
  pose proof (Hr 3%nat ltac:(lia)) as R3. pose proof (Hr 4%nat ltac:(lia)) as R4. cbn in R1, R2, R3, R4, Hd.
  do 5 eexists. split; [reflexivity|]. lia.
Qed.

#[export] Instance gregorian_time_laws : PosixTimeLaws gregorian_time.
Proof.
  assert (Hread : forall t, plain_valid (fields_of (gregorian_tm t))).
  { intros t. destruct (gregorian_read t) as (_ & _ & ? & ? & ? & ?). do 5 eexists.
    split; [reflexivity|]. done. }
  split; cbn [to_tm make_ptime gregorian_time posix_calendar].
  - exact gregorian_laws.
  - intros t. destruct (gregorian_read t) as (? & ? & _). done.
  - intros t Hy. destruct (gregorian_read t) as (_ & _ & Hh & Hi & Hm & Hd). split; [done| |apply Hd].
    intros p Hp. unfold MAX in Hp. pose proof (month_days_ge (tm_year (gregorian_tm t) + 1900) _ Hm).
    destruct p as [|[|[|[|[|]]]]]; cbn [nth fields_of field_min field_max]; lia.
  - intros l Hv%plain_of_valid. destruct (gregorian_read (gregorian_ptime l)) as (He & Hs & _).
    pose proof (Hread (gregorian_ptime l)) as Hf. set (f := fields_of _) in *.
    destruct (lex_total f l) as [Hlt|[Heq|Hlt]].
    + by destruct Hv as (? & ? & ? & ? & ? & -> & _).
    + apply gregorian_order in Hlt; [lia|done..].
    + split; [done|]. rewrite Heq in He. lia.
    + apply gregorian_order in Hlt; [lia|done..].
  - intros l l' Hv Hv' Hle. apply lex_le_cases in Hle as [Hlt| ->]; [|lia|].
    + apply gregorian_order in Hlt; [lia|by apply plain_of_valid..].
    + by rewrite (lv_length _ Hv), (lv_length _ Hv').
  - intros l. unfold gregorian_ptime. 
    exists (1440 * (civil_days (nth 0 l 0) (nth 1 l 0) (nth 2 l 0) - kEpochDay) + 60 * nth 3 l 0 + nth 4 l 0).
    lia.
Qed.

(** ** Samples *)

Lemma boost_of_implements z : implements z (boost_of z).
Proof.
  apply implements_boost; [done|..].
  - intros l d u d' Hm. destruct (Bool.eqb_spec (dst_at z (l - if d then off_dst z else off_std z)) d) as [He|].
    + injection Hm as <- <-. by apply (local_at_iff z _ l d).
    + by destruct (Bool.eqb _ _).
  - intros u. assert (Hu : local_at z u - (if dst_at z u then off_dst z else off_std z) = u)
      by (unfold local_at; lia). rewrite Hu. by rewrite Bool.eqb_reflx.
  - intros l d u Hm Hl. destruct (local_at_iff z u l (dst_at z u)) as [Hc _].
    destruct (Hc (conj Hl eq_refl)) as [Hu _]. unfold offset in Hu.
    destruct (decide (d = dst_at z u)) as [->|Hne].
    + rewrite <- Hu, Bool.eqb_reflx in Hm. discriminate Hm.
    + assert (negb d = dst_at z u) as Hn by (destruct d, (dst_at z u); done).
      destruct (Bool.eqb _ d); [done|]. rewrite Hn, <- Hu, Bool.eqb_reflx in Hm. discriminate Hm.
Qed.

Lemma label_timestamps_witness :
  exists ts, timezoneLocalPTimeToUTCTimestamps (make_ptime [2013; 11; 3; 1; 30]) (boost_of pacific) = Ret ts /\
    dst_time ts = 1383467400 /\ non_dst_time ts = 1383471000.
Proof.
  destruct (label_timestamps pacific (boost_of pacific) (make_ptime [2013; 11; 3; 1; 30])
    (boost_of_implements pacific)) as (ts & Hts & Hu). exists ts. split; [exact Hts|]. split.
  - apply (Hu 1383467400); [discriminate|]. split; vm_compute; reflexivity.
  - apply (Hu 1383471000); [discriminate|]. split; vm_compute; reflexivity.
Defined.

(** An item with the given policies. *)
Definition sample_item (fixes : list string) (kvs : list (string * dynamic)) : StandardCrontabItem :=
  match StandardCrontabItem_of plain_asInt (("dst_fixes", DArray (map DString fixes)) :: kvs) with
  | Ret item => item
  | _ => mkItem 0 [] None
  end.
Definition at_2_30 : list (string * dynamic) := [("minute", DInt 30); ("hour", DInt 2)].
Definition at_1_30 : list (string * dynamic) := [("minute", DInt 30); ("hour", DInt 1)].

Lemma sample_item_wf fixes kvs :
  is_ret (StandardCrontabItem_of plain_asInt (("dst_fixes", DArray (map DString fixes)) :: kvs)) = true ->
  item_in_order (sample_item fixes kvs) -> item_wf (sample_item fixes kvs).
Proof.
  unfold sample_item. destruct (StandardCrontabItem_of _ _) as [item| | |] eqn:E; try done.
  intros _. by eapply StandardCrontabItem_of_wf.
Qed.

(** 2:30 was skipped on March 10th 2013: the second before the skip. *)
Lemma matches_are_real_witness :
  exists r, item_findFirstMatch (boost_of pacific) (sample_item ["unskip"; "repeat_use_both"] at_2_30) 1
      1362902400 = Ret (Some r) /\ r = 1362909599 /\ 1362902400 <= r.
Proof.
  eexists. split; [vm_compute; reflexivity|]. split; [reflexivity|].
  apply (matches_are_real pacific (boost_of pacific) (sample_item ["unskip"; "repeat_use_both"] at_2_30)
    (boost_of_implements pacific)) with (fuel := 1%nat).
  - apply sample_item_wf; [reflexivity|]. split; [|done].
    repeat (apply Forall_cons_2; [intros _; cbn; lia|]). done.
  - vm_compute. reflexivity.
Defined.

(** In UTC-8: from 0:00 on, 1:30 on the same day. *)
Lemma next_match_fixed_zone_witness :
  exists r, item_findFirstMatch (boost_of (mkRules 0 (-28800) (fun _ => false)))
      (sample_item ["skip"; "repeat_use_both"] at_1_30) 1 28801 = Ret (Some r) /\ r = 28800 + 5400 /\
    forall u, matches_at (mkRules 0 (-28800) (fun _ => false))
      (sample_item ["skip"; "repeat_use_both"] at_1_30) u -> 28801 <= u -> r <= u.
Proof.
  eexists. split; [vm_compute; reflexivity|]. split; [reflexivity|].
  pose proof (next_match_fixed_zone (mkRules 0 (-28800) (fun _ => false))
    (boost_of (mkRules 0 (-28800) (fun _ => false))) (sample_item ["skip"; "repeat_use_both"] at_1_30)
    (boost_of_implements _)) as H.
  assert (Hf : item_findFirstMatch (boost_of (mkRules 0 (-28800) (fun _ => false)))
      (sample_item ["skip"; "repeat_use_both"] at_1_30) 1 28801 = Ret (Some 34200)) by (vm_compute; reflexivity).
  specialize (H ltac:(apply sample_item_wf; [reflexivity|split; [|done];
    repeat (apply Forall_cons_2; [intros _; cbn; lia|]); done])).
  specialize (H (fun _ => eq_refl) ltac:(exists (-480); reflexivity) 0%nat 28801).
  rewrite Hf in H. apply H. vm_compute. split; discriminate.
Defined.

(** The policies at the end of daylight saving time, November 3rd 2013, for an
    item that matches 1:30: early at 1383467400 and late at 1383471000. *)
Theorem rewind_policies :
  forall t p r, In (t, p, r)
    [(1383467400, "repeat_use_both", 1383467400); (1383467401, "repeat_use_both", 1383471000);
     (1383471001, "repeat_use_both", 1383557400); (1383467400, "repeat_use_only_early", 1383467400);
     (1383467401, "repeat_use_only_early", 1383557400); (1383465600, "repeat_use_only_late", 1383471000);
     (1383471001, "repeat_use_only_late", 1383557400)] ->
  item_findFirstMatch (boost_of pacific) (sample_item ["skip"; p] at_1_30) 3 t = Ret (Some r).
Proof.
  intros t p r H. repeat (destruct H as [[= <- <- <-]|H]; [vm_compute; reflexivity|]). destruct H.
Qed.

(** The timestamp -1 is taken for a label that was skipped. *)
Theorem minus_one_is_no_time :
  exists ts, timezoneLocalPTimeToUTCTimestamps (-1) (boost_of (mkRules 0 0 (fun _ => false))) = Ret ts /\
    isNotATime ts = true.
Proof. eexists. split; vm_compute; reflexivity. Qed.
