(* ===== verification/Selectors.v ===== *)
(** [remote/RemoteWorkerSelector.cpp],
    [remote/{RoundRobin,Busiest}RemoteWorkerSelector.cpp]: how the scheduler
    picks the worker that a task runs on, and takes the job's resources from
    that worker's.

    A worker is named by its shard, which stands for the pointer to its
    [RemoteWorker].  The resources of a worker are the vector of [int]s
    [ResourceVector]; overflow of [int] is undefined. *)

From stdpp Require Import base gmap strings list sorting.
From Stdlib Require Import ZArith QArith Lia Permutation.
From S2P Require Import Prelude Thrift WorkerSet WorkerState RemoteWorker RemoteWorkers.
From S2P Require Import SymbolTable Scheduling Config Jobs.

#[local] Open Scope Z_scope.

(** [WorkerResources]: by shard. *)
Abbreviation WorkerResources := (gmap string (list Z)).

(** What [findWorker] reports through its out parameters. *)
Definition found : Type := option (BistroWorker * Z).

Section Selectors.

(** [boost::regex] and [std::hash], see the filters. *)
Context (regex_search : string -> string -> bool) (hasher : string -> string -> Z).

(** [RemoteWorkerSelector::jobCanRunOnWorker]. *)
Definition jobCanRunOnWorker (job : Job) (worker : BistroWorker) (worker_level : nat)
    : outcome bool :=
  match filters_ job !! worker_level with
  | None => Crash "CHECK(worker_level < job.filters().size())"
  | Some f => doesPass_name regex_search hasher f (job_name job) (hostname (bw_machineLock worker))
  end.

(** ** Round robin *)

(** The loop of [tryToRun]: what is left of the resources, [None] if one runs
    out. *)
Fixpoint subtract_resources (have need : list Z) : outcome (option (list Z)) :=
  match have, need with
  | [], _ => Ret (Some [])
  | _ :: _, [] => Undef "job_resources[i]"
  | a :: have', n :: need' =>
      let* rest := sub32 a n in
      if rest <? 0 then Ret None
      else let* r := subtract_resources have' need' in Ret (cons rest <$> r)
  end.

(** [tryToRun]: the new resources, if the job fits. *)
Definition tryToRun (job : Job) (worker : BistroWorker) (worker_level : nat)
    (worker_resources : WorkerResources) : outcome (option WorkerResources) :=
  let* can := jobCanRunOnWorker job worker worker_level in
  if negb can then Ret None
  else
    match worker_resources !! bw_shard worker with
    | None => Ret None  (* not yet known to updateConfig *)
    | Some rv =>
        let* r := subtract_resources rv (resources_ job) in
        Ret ((fun rv' => <[bw_shard worker := rv']> worker_resources) <$> r)
    end.

(** The shards of the pool, in iteration order. *)
Definition pool_shards (rs : RemoteWorkers) : list string :=
  map fst (map_to_list (workerPool_ rs)).

Definition set_nextShard (rs : RemoteWorkers) (next : string) : RemoteWorkers :=
  mkRemoteWorkers (inInitialWait_ rs) (startTime_ rs) (sets_ rs) (workerPool_ rs) next
    (hostToWorkerPool_ rs).

(** [workers->getNextWorker()] or, given a host, [getNextWorkerByHost]. *)
Definition nextWorker (host : string) (rs : RemoteWorkers) : RemoteWorkers * option string :=
  if bool_decide (host = "") then
    match getNextWorker (pool_shards rs) (pool_nextShard rs) with
    | None => (rs, None)
    | Some (shard, next) => (set_nextShard rs next, Some shard)
    end
  else
    let '(rs, p) := mutableHostWorkerPool rs host in
    match getNextWorker (hp_shards p) (hp_nextShard p) with
    | None => (rs, None)
    | Some (shard, next) =>
        (set_hosts rs (<[host := mkHostPool (hp_shards p) next]> (hostToWorkerPool_ rs)), Some shard)
    end.

(** The [do ... while (worker != first_worker)]. *)
Fixpoint search_loop (fuel : nat) (job : Job) (worker_level : nat) (host first_worker worker : string)
    (saw_healthy_worker : bool) (worker_resources : WorkerResources) (rs : RemoteWorkers)
    : outcome (RemoteWorkers * WorkerResources * found * TaskRunnerResponse) :=
  match fuel with
  | O => Undef "fuel"
  | S fuel =>
      match workerPool_ rs !! worker with
      | None => Undef "worker pointer"
      | Some w =>
          let* ran := (if isHealthy w
                       then tryToRun job (worker_ w) worker_level worker_resources else Ret None) in
          let saw_healthy_worker := saw_healthy_worker || isHealthy w in
          match ran with
          | Some worker_resources =>
              Ret (rs, worker_resources,
                   Some (worker_ w, notifyIfTasksNotRunningSequenceNum_ (rw_state w)), RanTask)
          | None =>
              match nextWorker host rs with
              | (_, None) => Crash "Workers cannot disappear during search"
              | (rs, Some worker) =>
                  if negb (String.eqb worker first_worker)
                  then search_loop fuel job worker_level host first_worker worker
                         saw_healthy_worker worker_resources rs
                  else Ret (rs, worker_resources, None,
                            if saw_healthy_worker then DidNotRunTask else DoNotRunMoreTasks)
              end
          end
      end
  end.

(** [RoundRobinRemoteWorkerSelector::findWorker].  The fuel is the number of
    workers there are. *)
Definition RoundRobin_findWorker (job : Job) (node : Node) (worker_level : nat)
    (worker_resources : WorkerResources) (rs : RemoteWorkers)
    : outcome (RemoteWorkers * WorkerResources * found * TaskRunnerResponse) :=
  let host := requiredHostForTask job node in
  match nextWorker host rs with
  | (rs, None) => Ret (rs, worker_resources, None, DoNotRunMoreTasks)
  | (rs, Some first_worker) =>
      search_loop (S (size (workerPool_ rs))) job worker_level host first_worker first_worker false
        worker_resources rs
  end.

(** ** The busiest worker *)

(** [a + b * c] on [int]s. *)
Definition is_s32b (z : Z) : bool := (- 2 ^ 31 <=? z) && (z <? 2 ^ 31).
Definition add_mul32 (acc b c : Z) : outcome Z :=
  if is_s32b (b * c) && is_s32b (acc + b * c) then Ret (acc + b * c) else Undef "signed overflow".

(** The loop over the worker-level resources: the weight of what would be left,
    -1 if the task does not fit. *)
Fixpoint remainingWeight (weights rv need : list Z) (rids : list nat) (acc : Z) : outcome Z :=
  match rids with
  | [] => Ret acc
  | rid :: rids' =>
      match rv !! rid, weights !! rid with
      | None, _ => Crash "CHECK(rid < rv.size())"
      | _, None => Crash "CHECK(rid < resourceIDToWeight.size())"
      | Some have, Some weight =>
          CHECK (negb (have =? INT32_MAX)) "CHECK(rv[rid] != INT_MAX)" ;;;
          match need !! rid with
          | None => Crash "CHECK(rid < job.resources().size())"
          | Some n =>
              if have <? n then Ret (-1)
              else
                let* rest := sub32 have n in
                let* acc := add_mul32 acc rest weight in
                remainingWeight weights rv need rids' acc
          end
      end
  end.

(** The state of the loop over the pool: [least_weight], [busiest_worker] and
    [saw_healthy_worker]. *)
Definition busiest_step (t : ResourceTables) (rids : list nat) (job : Job) (worker_level : nat)
    (worker_resources : WorkerResources) (acc : Z * option (string * RemoteWorker) * bool)
    (p : string * RemoteWorker) : outcome (Z * option (string * RemoteWorker) * bool) :=
  let '(least_weight, busiest_worker, saw_healthy_worker) := acc in
  if negb (isHealthy p.2) then Ret acc
  else
    match worker_resources !! p.1 with
    | None => Ret acc
    | Some rv =>
        let* can := jobCanRunOnWorker job (worker_ p.2) worker_level in
        if negb can then Ret (least_weight, busiest_worker, true)
        else
          let* weight := remainingWeight (resourceIDToWeight t) rv (resources_ job) rids 0 in
          if (0 <=? weight) && (weight <? least_weight)
          then Ret (weight, Some p, true)
          else Ret (least_weight, busiest_worker, true)
    end.

(** The final loop takes the job's resources from the worker's. *)
Definition take_rid (need : list Z) (rv : list Z) (rid : nat) : outcome (list Z) :=
  match rv !! rid, need !! rid with
  | Some have, Some n =>
      CHECK (n <=? have) "CHECK_GE" ;;;
      let* rest := sub32 have n in Ret (<[rid := rest]> rv)
  | _, _ => Undef "[rid]"
  end.

(** [BusiestRemoteWorkerSelector::findWorker].  Looking up the pool of a host
    creates it. *)
Definition Busiest_findWorker (t : ResourceTables) (job : Job) (node : Node) (worker_level : nat)
    (worker_resources : WorkerResources) (rs : RemoteWorkers)
    : outcome (RemoteWorkers * WorkerResources * found * TaskRunnerResponse) :=
  let host := requiredHostForTask job node in
  let '(rs, shards) :=
    if bool_decide (host = "") then (rs, pool_shards rs)
    else let '(rs, p) := mutableHostWorkerPool rs host in (rs, hp_shards p) in
  let worker_pool :=
    omap (fun s => (fun w => (s, w)) <$> workerPool_ rs !! s) shards in
  match levelIDToResourceID t !! worker_level with
  | None => Crash "levelIDToResourceID.at(worker_level)"  (* thrown in a noexcept function *)
  | Some rids =>
      let* (_, busiest_worker, saw_healthy_worker) :=
        foldM (busiest_step t rids job worker_level worker_resources) (INT32_MAX, None, false)
          worker_pool in
      match busiest_worker with
      | None => Ret (rs, worker_resources, None,
                     if (saw_healthy_worker : bool) then DidNotRunTask else DoNotRunMoreTasks)
      | Some (shard, w) =>
          match worker_resources !! shard with
          | None => Undef "busiest_worker_rsrc"
          | Some rv =>
              let* rv := foldM (take_rid (resources_ job)) rv rids in
              Ret (rs, <[shard := rv]> worker_resources,
                   Some (worker_ w, notifyIfTasksNotRunningSequenceNum_ (rw_state w)), RanTask)
          end
      end
  end.

(** [RemoteWorkerSelectorType] and [RemoteWorkerSelector::getSingleton]. *)
Inductive RemoteWorkerSelectorType := RoundRobin | Busiest.
Definition findWorker (type : RemoteWorkerSelectorType) (t : ResourceTables) :=
  match type with
  | RoundRobin => RoundRobin_findWorker
  | Busiest => Busiest_findWorker t
  end.
(** ** The order of the search *)

(** The cyclic order from [x]; the whole list if [x] is not in it. *)
Fixpoint rotate (x : string) (before l : list string) : list string :=
  match l with
  | [] => rev before
  | y :: l' => if String.eqb y x then l ++ rev before else rotate x (y :: before) l'
  end.

Lemma rotate_split x l1 l2 before :
  x ∉ l1 -> rotate x before (l1 ++ x :: l2) = x :: l2 ++ rev before ++ l1.
Proof.
  revert before; induction l1 as [|y l1 IH]; intros before Hx; cbn.
  - by rewrite String.eqb_refl, app_nil_r.
  - apply not_elem_of_cons in Hx as [Hne Hx].
    rewrite (proj2 (String.eqb_neq y x)) by congruence. rewrite IH by done. cbn.
    by rewrite <- app_assoc.
Qed.

Lemma rotate_absent x l before : x ∉ l -> rotate x before l = rev before ++ l.
Proof.
  revert before; induction l as [|y l IH]; intros before Hx; cbn; [by rewrite app_nil_r|].
  apply not_elem_of_cons in Hx as [Hne Hx].
  rewrite (proj2 (String.eqb_neq y x)) by congruence. rewrite IH by done. cbn.
  by rewrite <- app_assoc.
Qed.

(** In a cyclic order [o], [getNextWorker] goes from an element to the next. *)
Definition cyclic (shards o : list string) : Prop :=
  o ≡ₚ shards /\ forall l1 x l2, o = l1 ++ x :: l2 ->
    getNextWorker shards x = Some (x, default x (head (l2 ++ o))).

Lemma getNextWorker_split a z b :
  NoDup (a ++ z :: b) ->
  getNextWorker (a ++ z :: b) z = Some (z, default z (head (b ++ a ++ [z]))).
Proof.
  intros Hnd. assert (Ha : z ∉ a).
  { apply NoDup_app in Hnd as (_ & Hd & _). intros Ha. apply (Hd z Ha). by left. }
  unfold getNextWorker. destruct (a ++ z :: b) as [|f rest] eqn:El; [by destruct a|].
  rewrite bool_decide_true by (rewrite <- El; set_solver). rewrite <- El, successor_split by done.
  destruct b; [|done]. destruct a; cbn in *; congruence.
Qed.

Lemma cyclic_rotation l1 y l2 : NoDup (l1 ++ y :: l2) -> cyclic (l1 ++ y :: l2) (y :: l2 ++ l1).
Proof.
  intros Hnd. split; [apply (Permutation_app_comm (y :: l2) l1)|].
  intros k1 z k2 Hk. change (y :: l2 ++ l1) with ((y :: l2) ++ l1) in Hk.
  apply app_eq_inv in Hk as [(k & Hk1 & Hk2)|(k & Hk1 & Hk2)].
  - destruct k as [|z' k]; cbn in Hk2.
    + rewrite app_nil_r in Hk1. subst. pose proof (getNextWorker_split [] z (k2 ++ y :: l2) Hnd) as H.
      etransitivity; [exact H|]. by destruct k2.
    + injection Hk2 as <- ->. rewrite Hk1, app_assoc in Hnd |- *.
      rewrite getNextWorker_split by done. destruct k; [|done].
      destruct l1, k1; cbn in *; congruence.
  - subst l1. rewrite <- app_assoc in Hnd |- *. cbn in *.
    rewrite getNextWorker_split by done. by destruct k2.
Qed.

Lemma rotate_cyclic x l : NoDup l -> l <> [] -> exists y o,
  rotate x [] l = y :: o /\ cyclic l (y :: o) /\
  getNextWorker l x = Some (y, default y (head (o ++ [y]))).
Proof.
  intros Hnd Hne. destruct (decide (x ∈ l)) as [Hx|Hx].
  - apply list_elem_of_split in Hx as (l1 & l2 & ->).
    rewrite rotate_split.
    2: { apply NoDup_app in Hnd as (_ & Hd & _). intros Ha. apply (Hd x Ha). by left. }
    cbn. pose proof (cyclic_rotation l1 x l2 Hnd) as Hc. exists x, (l2 ++ l1).
    split_and!; [done..|]. destruct Hc as [_ Hc].
    rewrite (Hc [] x (l2 ++ l1)) by done. by destruct (l2 ++ l1).
  - rewrite rotate_absent by done. destruct l as [|y l]; [done|]. cbn.
    pose proof (cyclic_rotation [] y l Hnd) as Hc. rewrite app_nil_r in Hc. cbn in Hc.
    exists y, l. split_and!; [done..|]. destruct Hc as [_ Hc].
    specialize (Hc [] y l eq_refl). cbn in Hc |- *.
    rewrite bool_decide_false by done. rewrite bool_decide_true in Hc by set_solver.
    rewrite String.eqb_refl in Hc |- *. destruct l; cbn in *; congruence.
Qed.

(** ** Resources *)

(** The job fits into the resources [rids] of a worker. *)
Definition fitsb (rids : list nat) (rv need : list Z) : bool :=
  forallb (fun i => match rv !! i, need !! i with
                    | Some a, Some n => n <=? a
                    | _, _ => false
                    end) rids.

(** What is left of a worker's resources. *)
Definition remaining (rids : list nat) (rv need : list Z) : list Z :=
  imap (fun i a => if bool_decide (i ∈ rids) then a - default 0 (need !! i) else a) rv.

(** All resources of the vector. *)
Definition all_rids (rv : list Z) : list nat := seq 0 (length rv).

Lemma fitsb_cons a n rv need :
  fitsb (all_rids (a :: rv)) (a :: rv) (n :: need) = (n <=? a) && fitsb (all_rids rv) rv need.
Proof.
  unfold fitsb, all_rids. cbn. f_equal. rewrite <- seq_shift.
  induction (seq 0 (length rv)) as [|i l IH]; [done|]. cbn. by rewrite IH.
Qed.

Lemma remaining_cons a n rv need :
  remaining (all_rids (a :: rv)) (a :: rv) (n :: need) =
    (a - n) :: remaining (all_rids rv) rv need.
Proof.
  unfold remaining, all_rids. rewrite imap_cons. f_equal. apply imap_ext. intros i x Hx. cbn.
  apply lookup_lt_Some in Hx. cbn [length].
  change (0%nat :: seq 1 (length rv)) with (seq 0 (S (length rv))).
  rewrite !bool_decide_true by (rewrite elem_of_seq; lia). done.
Qed.

Lemma subtract_resources_spec rv need :
  (length rv <= length need)%nat ->
  (forall i a n, rv !! i = Some a -> need !! i = Some n -> is_s32 (a - n)) ->
  subtract_resources rv need =
    Ret (if fitsb (all_rids rv) rv need then Some (remaining (all_rids rv) rv need) else None).
Proof.
  revert need; induction rv as [|a rv IH]; intros need Hlen Hok; [done|].
  destruct need as [|n need]; cbn in Hlen; [lia|]. cbn [subtract_resources].
  rewrite sub32_ok by exact (Hok 0%nat a n eq_refl eq_refl). cbn [mbind outcome_bind].
  rewrite fitsb_cons, remaining_cons.
  destruct (Z.ltb_spec (a - n) 0); destruct (Z.leb_spec n a); try lia; cbn; [done|].
  rewrite IH; [|lia|intros i; exact (Hok (S i))]. by case_match.
Qed.

(** ** What a selector promises *)

Abbreviation find_worker := (Job -> Node -> nat -> WorkerResources -> RemoteWorkers ->
  outcome (RemoteWorkers * WorkerResources * found * TaskRunnerResponse)).

Definition report (w : RemoteWorker) : found :=
  Some (worker_ w, notifyIfTasksNotRunningSequenceNum_ (rw_state w)).

(** The worker is healthy, passes the filter, and the job fits in those of
    its resources that the selector looks at. *)
Definition usable (checked : list Z -> list nat) (job : Job) (level : nat) (wr : WorkerResources)
    (w : RemoteWorker) : bool :=
  isHealthy w && bool_decide (jobCanRunOnWorker job (worker_ w) level = Ret true) &&
  match wr !! shard_of w with
  | Some rv => fitsb (checked rv) rv (resources_ job)
  | None => false
  end.

(** The job's resources leave those of the worker. *)
Definition charge (checked : list Z -> list nat) (job : Job) (wr : WorkerResources)
    (w : RemoteWorker) : WorkerResources :=
  alter (fun rv => remaining (checked rv) rv (resources_ job)) (shard_of w) wr.

(** ** The pool that is searched *)

Definition candidates (host : string) (rs : RemoteWorkers) : list string :=
  if bool_decide (host = "") then pool_shards rs else host_shards rs host.
Definition cursor (host : string) (rs : RemoteWorkers) : string :=
  if bool_decide (host = "") then pool_nextShard rs
  else match hostToWorkerPool_ rs !! host with Some p => hp_nextShard p | None => "" end.

(** The iterator moves, or an empty pool is made; all else is the same. *)
Definition same_pool (rs rs' : RemoteWorkers) : Prop :=
  inInitialWait_ rs' = inInitialWait_ rs /\ startTime_ rs' = startTime_ rs /\
  sets_ rs' = sets_ rs /\ workerPool_ rs' = workerPool_ rs /\
  forall h, candidates h rs' = candidates h rs.

#[local] Instance same_pool_preorder : PreOrder same_pool.
Proof.
  split; [done|]. intros a b c (?&?&?&?&Hab) (?&?&?&?&Hbc).
  split_and!; [congruence..|]. intros h. by rewrite Hbc, Hab.
Qed.

Lemma nextWorker_moves host rs s n :
  getNextWorker (candidates host rs) (cursor host rs) = Some (s, n) ->
  exists rs', nextWorker host rs = (rs', Some s) /\ same_pool rs rs' /\ cursor host rs' = n.
Proof.
  unfold nextWorker, candidates, cursor. case_bool_decide as Hh.
  - intros ->. eexists. split; [reflexivity|]. split; [done|]. done.
  - unfold host_shards, mutableHostWorkerPool.
    destruct (hostToWorkerPool_ rs !! host) as [p|] eqn:Ep; [|done]. intros ->.
    eexists. split; [reflexivity|]. split.
    + split_and!; try done. intros h. unfold candidates. case_bool_decide; [done|].
      unfold host_shards. cbn. rewrite lookup_insert. case_decide; [by subst; rewrite Ep|done].
    + cbn. by rewrite lookup_insert_eq.
Qed.

Lemma nextWorker_empty host rs : candidates host rs = [] ->
  exists rs', nextWorker host rs = (rs', None) /\ same_pool rs rs'.
Proof.
  unfold nextWorker. intros Hc. unfold candidates in Hc. case_bool_decide as Hh.
  - rewrite Hc. by exists rs.
  - unfold host_shards, mutableHostWorkerPool in *.
    destruct (hostToWorkerPool_ rs !! host) as [p|] eqn:Ep.
    + rewrite Hc. by exists rs.
    + eexists. split; [reflexivity|]. split_and!; try done. intros h. unfold candidates.
      case_bool_decide; [done|]. unfold host_shards. cbn. rewrite lookup_insert.
      case_decide; [by subst; rewrite Ep|done].
Qed.

(** What the round robin does with one worker. *)
Definition attempt (job : Job) (worker_level : nat) (wr : WorkerResources) (w : RemoteWorker)
    : outcome (option WorkerResources) :=
  if isHealthy w then tryToRun job (worker_ w) worker_level wr else Ret None.

Lemma NoDup_keys_length {A} (m : gmap string A) (l : list string) :
  NoDup l -> (forall s, s ∈ l -> is_Some (m !! s)) -> (length l <= size m)%nat.
Proof.
  intros Hnd Hl. rewrite <- (size_list_to_set (C := gset string) l Hnd), <- size_dom.
  apply subseteq_size. intros s. rewrite elem_of_list_to_set, elem_of_dom. apply Hl.
Qed.

Section Search.
Context (job : Job) (worker_level : nat) (wr : WorkerResources) (pool : gmap string RemoteWorker).

Definition no_fit (s : string) : Prop :=
  exists w, pool !! s = Some w /\ attempt job worker_level wr w = Ret None.
Definition healthy_shard (s : string) : bool :=
  match pool !! s with Some w => isHealthy w | None => false end.

(** The answer of a search in the order [o], [saw] telling whether a healthy
    worker was seen before. *)
Inductive searched (saw : bool) (o : list string)
  : WorkerResources -> found -> TaskRunnerResponse -> list string -> Prop :=
| searched_ran l1 s w l2 wr' :
    o = l1 ++ s :: l2 -> Forall no_fit l1 -> pool !! s = Some w ->
    attempt job worker_level wr w = Ret (Some wr') ->
    searched saw o wr' (report w) RanTask l2
| searched_none :
    Forall no_fit o ->
    searched saw o wr None (if saw || existsb healthy_shard o then DidNotRunTask
                            else DoNotRunMoreTasks) [].

Lemma searched_cons saw s o wr' fd resp rem :
  no_fit s -> searched (saw || healthy_shard s) o wr' fd resp rem ->
  searched saw (s :: o) wr' fd resp rem.
Proof.
  intros Hs [l1 s2 w l2 wr2 -> Hl1 Hw Ha|Ho].
  - by apply (searched_ran _ _ (s :: l1) s2 w); [|constructor|..].
  - rewrite <- orb_assoc. apply (searched_none saw (s :: o)). by constructor.
Qed.

Lemma search_loop_spec host shards first o :
  cyclic shards (first :: o) -> NoDup (first :: o) ->
  (forall s, s ∈ shards -> exists w r, pool !! s = Some w /\ attempt job worker_level wr w = Ret r) ->
  forall seen s rest saw rs fuel,
  first :: o = seen ++ s :: rest -> candidates host rs = shards -> workerPool_ rs = pool ->
  cursor host rs = default s (head (rest ++ first :: o)) -> (length rest < fuel)%nat ->
  exists rs' wr' fd resp left,
    search_loop fuel job worker_level host first s saw wr rs = Ret (rs', wr', fd, resp) /\
    same_pool rs rs' /\ searched saw (s :: rest) wr' fd resp left /\
    (resp = RanTask -> cursor host rs' = default s (head (left ++ first :: o))).
Proof.
  intros [Hperm Hcyc] Hnd Htot seen s rest. revert seen s.
  induction rest as [|s' rest IH]; intros seen s saw rs fuel Ho Hcand Hpool Hcur Hfuel;
    (destruct fuel as [|fuel]; [cbn in Hfuel; lia|]); cbn [search_loop];
    (destruct (Htot s) as (w & r & Hw & Hr); [rewrite <- Hperm, Ho; set_solver|]);
    rewrite Hpool, Hw; pose proof Hr as Ha; unfold attempt in Ha; rewrite Ha;
    cbn [mbind outcome_bind];
    (destruct r as [wr'|];
     [exists rs, wr', (report w), RanTask; eexists; split; [reflexivity|]; split; [done|]; split;
      [by apply (searched_ran _ _ [] s w)|by intros _; rewrite Hcur]|]);
    (assert (Hnf : no_fit s) by by exists w).
  - destruct (nextWorker_moves host rs first (default first (head (o ++ first :: o))))
      as (rs' & Hn & Hsame & _).
    { rewrite Hcand, Hcur. exact (Hcyc [] first o eq_refl). }
    rewrite Hn, String.eqb_refl. cbn [negb]. do 5 eexists. split; [reflexivity|].
    split; [done|]. split.
    + replace (saw || isHealthy w) with (saw || existsb healthy_shard [s]).
      * constructor. by constructor.
      * cbn. unfold healthy_shard. by rewrite Hw, orb_false_r.
    + by destruct (saw || isHealthy w).
  - destruct (nextWorker_moves host rs s' (default s' (head (rest ++ first :: o))))
      as (rs' & Hn & Hsame & Hcur').
    { rewrite Hcand, Hcur. cbn. apply (Hcyc (seen ++ [s])). by rewrite <- app_assoc. }
    rewrite Hn. assert (Hne : s' <> first).
    { intros ->. destruct seen as [|f seen]; injection Ho as -> Ho;
        apply NoDup_cons in Hnd as [Hf _]; apply Hf; rewrite Ho; set_solver. }
    rewrite (proj2 (String.eqb_neq _ _) Hne). cbn [negb].
    destruct (IH (seen ++ [s]) s' (saw || isHealthy w) rs' fuel)
      as (rs2 & wr2 & fd & resp & rem & Hl & Hs2 & Hse & Hc2).
    { by rewrite <- app_assoc. }
    { destruct Hsame as (_ & _ & _ & _ & Hc). by rewrite Hc. }
    { destruct Hsame as (_ & _ & _ & Hp & _). by rewrite Hp. }
    { done. }
    { cbn in Hfuel. lia. }
    exists rs2, wr2, fd, resp, rem. split; [exact Hl|]. split; [by etransitivity|]. split.
    + apply searched_cons; [done|]. unfold healthy_shard. by rewrite Hw.
    + intros Hr2. rewrite (Hc2 Hr2). by destruct rem.
Qed.
End Search.

(** The pool to search has distinct, known workers, whose filter can be
    evaluated, and whose resources [ok] accepts. *)
Record selectable (ok : list Z -> list Z -> Prop) (job : Job) (node : Node) (level : nat)
    (wr : WorkerResources) (rs : RemoteWorkers) : Prop := {
  sl_NoDup : NoDup (candidates (requiredHostForTask job node) rs);
  sl_known : forall s, s ∈ candidates (requiredHostForTask job node) rs ->
    exists w b, workerPool_ rs !! s = Some w /\ shard_of w = s /\
      jobCanRunOnWorker job (worker_ w) level = Ret b;
  sl_resources : forall s rv, wr !! s = Some rv -> ok rv (resources_ job)
}.

(** The interface of [RemoteWorkerSelector] to the runner: no check fails;
    either a usable worker is found and pays for the task, or there is none
    and no resources are taken. *)
Class SelectorLaws (level : nat) (find : find_worker) := {
  sel_checked : list Z -> list nat;
  sel_ok : list Z -> list Z -> Prop;
  sel_law : forall job node wr rs,
    selectable sel_ok job node level wr rs ->
    let shards := candidates (requiredHostForTask job node) rs in
    exists rs' wr' fd resp,
      find job node level wr rs = Ret (rs', wr', fd, resp) /\ same_pool rs rs' /\
      ((exists s w, s ∈ shards /\ workerPool_ rs !! s = Some w /\ shard_of w = s /\
          usable sel_checked job level wr w = true /\ fd = report w /\ resp = RanTask /\
          wr' = charge sel_checked job wr w) \/
       ((forall s w, s ∈ shards -> workerPool_ rs !! s = Some w ->
           usable sel_checked job level wr w = false) /\
        fd = None /\ resp <> RanTask /\ wr' = wr))
}.

(** *** Round robin *)

Definition rr_ok (rv need : list Z) : Prop :=
  (length rv <= length need)%nat /\
  forall i a n, rv !! i = Some a -> need !! i = Some n -> is_s32 (a - n).

Lemma attempt_spec job level wr w b :
  jobCanRunOnWorker job (worker_ w) level = Ret b ->
  (forall s rv, wr !! s = Some rv -> rr_ok rv (resources_ job)) ->
  attempt job level wr w =
    Ret (if usable all_rids job level wr w then Some (charge all_rids job wr w) else None).
Proof.
  intros Hb Hok. unfold attempt, usable, tryToRun, charge. destruct (isHealthy w); [|done].
  rewrite Hb. cbn [mbind outcome_bind]. destruct b; [|done]. cbn [negb].
  rewrite bool_decide_true by done. cbn [andb]. change (bw_shard (worker_ w)) with (shard_of w).
  destruct (wr !! shard_of w) as [rv|] eqn:E; [|done]. destruct (Hok _ _ E) as [H1 H2].
  rewrite subtract_resources_spec by done. cbn [mbind outcome_bind]. case_match; [|done].
  cbn. do 2 f_equal. apply map_eq. intros k. rewrite lookup_insert, lookup_alter.
  case_decide; [subst; by rewrite E|done].
Qed.

Section RoundRobin.
Context (job : Job) (node : Node) (level : nat) (wr : WorkerResources) (rs : RemoteWorkers).
Let host := requiredHostForTask job node.
Let order := rotate (cursor host rs) [] (candidates host rs).

Lemma round_robin_searched :
  selectable rr_ok job node level wr rs ->
  exists rs' wr' fd resp rem,
    RoundRobin_findWorker job node level wr rs = Ret (rs', wr', fd, resp) /\
    same_pool rs rs' /\ searched job level wr (workerPool_ rs) false order wr' fd resp rem /\
    (resp = RanTask -> cursor host rs' = default "" (head (rem ++ order))).
Proof.
  intros [Hnd Hknown Hres]. unfold RoundRobin_findWorker. fold host in Hnd, Hknown |- *.
  destruct (decide (candidates host rs = [])) as [Hc|Hc].
  - destruct (nextWorker_empty _ _ Hc) as (rs' & Hn & Hs). rewrite Hn. subst order.
    rewrite Hc. do 5 eexists. split; [reflexivity|]. split; [done|]. split; [|done].
    by apply (searched_none _ _ _ _ false []).
  - destruct (rotate_cyclic (cursor host rs) _ Hnd Hc) as (first & o & Ho & Hcyc & Hn).
    destruct (nextWorker_moves _ _ _ _ Hn) as (rs1 & Hn1 & Hs1 & Hc1). rewrite Hn1.
    fold order in Ho.
    destruct (search_loop_spec job level wr (workerPool_ rs) host _ first o Hcyc)
      with (seen := @nil string) (s := first) (rest := o) (saw := false) (rs := rs1)
           (fuel := S (size (workerPool_ rs1)))
      as (rs' & wr' & fd & resp & rem & Hl & Hs' & Hse & Hcur).
    + by rewrite (proj1 Hcyc).
    + intros s Hin. destruct (Hknown s Hin) as (w & b & Hw & _ & Hb). exists w.
      rewrite (attempt_spec job level wr w b Hb Hres). eauto.
    + done.
    + destruct Hs1 as (_ & _ & _ & _ & ->). done.
    + by destruct Hs1 as (_ & _ & _ & -> & _).
    + rewrite Hc1. by destruct o.
    + destruct Hs1 as (_ & _ & _ & -> & _).
      assert (length (first :: o) <= size (workerPool_ rs))%nat; [|cbn in *; lia].
      apply NoDup_keys_length; [by rewrite (proj1 Hcyc)|].
      intros s. rewrite (proj1 Hcyc). intros Hin. destruct (Hknown s Hin) as (w & _ & Hw & _). eauto.
    + exists rs', wr', fd, resp, rem. rewrite Ho. split_and!; [done|by etransitivity|done|].
      intros Hr. rewrite (Hcur Hr). by destruct rem.
Qed.

Definition unusable (checked : list Z -> list nat) (l : list string) : Prop :=
  forall s w, s ∈ l -> workerPool_ rs !! s = Some w -> usable checked job level wr w = false.

Lemma no_fit_unusable l :
  selectable rr_ok job node level wr rs -> l ⊆ candidates host rs ->
  Forall (no_fit job level wr (workerPool_ rs)) l -> unusable all_rids l.
Proof.
  intros [_ Hknown Hres] Hsub Hl s w Hs Hw.
  destruct (Hknown s (Hsub s Hs)) as (w' & b & Hw' & _ & Hb). simplify_eq.
  rewrite Forall_forall in Hl. destruct (Hl s Hs) as (w' & Hw'' & Ha). simplify_eq.
  rewrite (attempt_spec _ _ _ _ b Hb Hres) in Ha. by destruct (usable _ _ _ _ _).
Qed.

Lemma order_perm : NoDup (candidates host rs) -> order ≡ₚ candidates host rs.
Proof.
  intros Hnd. subst order. destruct (decide (candidates host rs = [])) as [->|Hc]; [done|].
  destruct (rotate_cyclic (cursor host rs) _ Hnd Hc) as (y & o & -> & [Hp _] & _). done.
Qed.

(** The result of a round robin search, with [rem] the workers after the one
    that was picked. *)
Lemma round_robin_result :
  selectable rr_ok job node level wr rs ->
  exists rs' wr' fd resp,
    RoundRobin_findWorker job node level wr rs = Ret (rs', wr', fd, resp) /\
    same_pool rs rs' /\
    ((exists before s w rem, order = before ++ s :: rem /\ unusable all_rids before /\
        workerPool_ rs !! s = Some w /\ shard_of w = s /\
        usable all_rids job level wr w = true /\ fd = report w /\ resp = RanTask /\
        wr' = charge all_rids job wr w /\ cursor host rs' = default "" (head (rem ++ order))) \/
     (unusable all_rids order /\ fd = None /\ wr' = wr /\
      resp = if existsb (healthy_shard (workerPool_ rs)) order then DidNotRunTask
             else DoNotRunMoreTasks)).
Proof.
  intros Hsel. pose proof (order_perm (sl_NoDup _ _ _ _ _ _ Hsel)) as Hp.
  destruct (round_robin_searched Hsel) as (rs' & wr' & fd & resp & rem & Hf & Hs & Hse & Hcur).
  exists rs', wr', fd, resp. split; [done|]. split; [done|].
  destruct Hse as [before s w rem wr' Ho Hb Hw Ha|Ho].
  - left. exists before, s, w, rem.
    assert (Hin : forall x, x ∈ before ++ s :: rem -> x ∈ candidates host rs)
      by (intros x; rewrite <- Ho, Hp; done).
    destruct (sl_known _ _ _ _ _ _ Hsel s) as (w' & b & Hw' & Hsh & Hc); [apply Hin; set_solver|].
    simplify_eq. rewrite (attempt_spec _ _ _ _ b Hc (sl_resources _ _ _ _ _ _ Hsel)) in Ha.
    destruct (usable all_rids job level wr w) eqn:Eu; [|done]. injection Ha as <-.
    split_and!; try done; [|by apply Hcur].
    apply no_fit_unusable; [done| |done]. intros x Hx. apply Hin. set_solver.
  - right. split_and!; [|done..]. apply no_fit_unusable; [done| |done].
    intros x. by rewrite Hp.
Qed.
End RoundRobin.

#[global] Instance RoundRobin_laws level : SelectorLaws level RoundRobin_findWorker.
Proof.
  refine {| sel_checked := all_rids; sel_ok := rr_ok |}.
  intros job node wr rs Hsel shards.
  destruct (round_robin_result job node level wr rs Hsel)
    as (rs' & wr' & fd & resp & Hf & Hs & Hr).
  pose proof (order_perm job node rs (sl_NoDup _ _ _ _ _ _ Hsel)) as Hp.
  exists rs', wr', fd, resp. split; [done|]. split; [done|].
  destruct Hr as [(bef & s & w & rem & Ho & _ & Hw & Hsh & Hu & Hfd & Hresp & Hwr & _)
                 |(Hun & Hfd & Hwr & Hresp)].
  - left. exists s, w. split_and!; try done. subst shards. rewrite <- Hp, Ho. set_solver.
  - right. split_and!; try done; [|by rewrite Hresp; case_match].
    intros s w Hin. apply Hun. by rewrite Hp.
Defined.

(** *** The busiest worker *)

Section Busiest.
Context (t : ResourceTables) (rids : list nat).

(** The weight of the resources [rids] a worker would have left. *)
Definition term (rv need : list Z) (rid : nat) : Z :=
  (default 0 (rv !! rid) - default 0 (need !! rid)) * default 0 (resourceIDToWeight t !! rid).
Definition weight_left (rv need : list Z) : Z := foldr Z.add 0 (map (term rv need) rids).

(** The tables know the resources; amounts and weights are not negative, and
    the weight of a whole worker is below the largest [int]. *)
Definition amounts_ok (rv need : list Z) (rid : nat) : Prop :=
  exists a n v, rv !! rid = Some a /\ need !! rid = Some n /\ resourceIDToWeight t !! rid = Some v /\
    - 2 ^ 31 <= a < INT32_MAX /\ 0 <= n < 2 ^ 31 /\ 0 <= v.
Definition full_weight (rv : list Z) (l : list nat) : Z :=
  foldr Z.add 0 (map (fun rid =>
    Z.max 0 (default 0 (rv !! rid)) * default 0 (resourceIDToWeight t !! rid)) l).
Definition busiest_ok (rv need : list Z) : Prop :=
  (forall rid, rid ∈ rids -> amounts_ok rv need rid) /\ full_weight rv rids < INT32_MAX.

Lemma full_weight_nonneg rv need l :
  (forall rid, rid ∈ l -> amounts_ok rv need rid) -> 0 <= full_weight rv l.
Proof.
  induction l as [|rid l IH]; intros H; [done|]. cbn.
  destruct (H rid) as (a & n & v & -> & _ & -> & ? & ? & ?); [by left|]. cbn.
  specialize (IH (fun r Hr => H r (list_elem_of_further _ _ _ Hr))). unfold full_weight in IH. nia.
Qed.

Lemma remainingWeight_spec rv need l acc :
  (forall rid, rid ∈ l -> amounts_ok rv need rid) -> 0 <= acc ->
  acc + full_weight rv l < INT32_MAX ->
  exists z, remainingWeight (resourceIDToWeight t) rv need l acc = Ret z /\
    (if fitsb l rv need
     then z = acc + foldr Z.add 0 (map (term rv need) l) /\ 0 <= z < INT32_MAX else z = -1).
Proof.
  revert acc; induction l as [|rid l IH]; intros acc Hl Hacc Hfull.
  { cbn in *. exists acc. split; [done|]. lia. }
  pose proof (fun r Hr => Hl r (list_elem_of_further _ _ _ Hr)) as Hl'.
  pose proof (full_weight_nonneg _ _ _ Hl') as Hnn.
  cbn in Hfull. fold (full_weight rv l) in Hfull.
  destruct (Hl rid) as (a & n & v & Ha & Hn & Hv & Hra & Hrn & Hrv); [by left|].
  cbn [remainingWeight fitsb forallb map foldr]. unfold term at 1.
  rewrite Ha, Hn, Hv in *. cbn [default from_option id] in *. unfold INT32_MAX in *.
  rewrite CHECK_true by (apply negb_true_iff, Z.eqb_neq; lia). cbn [mbind outcome_bind].
  destruct (Z.ltb_spec a n); destruct (Z.leb_spec n a); try lia; cbn [andb].
  { by exists (-1). }
  assert (0 <= (a - n) * v <= Z.max 0 a * v) by nia.
  rewrite sub32_ok by (unfold is_s32; lia). cbn [mbind outcome_bind].
  unfold add_mul32, is_s32b.
  rewrite !(proj2 (Z.leb_le _ _)), !(proj2 (Z.ltb_lt _ _)) by lia.
  cbn [andb mbind outcome_bind].
  destruct (IH (acc + (a - n) * v) Hl') as (z & Hz & Hs); [lia..|].
  exists z. split; [done|]. fold (fitsb l rv need). case_match; [|done]. lia.
Qed.

Lemma remaining_lookup l rv need i :
  remaining l rv need !! i =
    (fun a => if bool_decide (i ∈ l) then a - default 0 (need !! i) else a) <$> rv !! i.
Proof. apply list_lookup_imap. Qed.

Lemma take_rids_spec rv need l :
  NoDup l -> (forall rid, rid ∈ l -> amounts_ok rv need rid) -> fitsb l rv need = true ->
  foldM (take_rid need) rv l = Ret (remaining l rv need).
Proof.
  revert rv; induction l as [|rid l IH]; intros rv Hnd Hok Hf.
  { cbn. f_equal. apply list_eq. intros i. rewrite remaining_lookup. by destruct (rv !! i). }
  apply NoDup_cons in Hnd as [Hrid Hnd].
  destruct (Hok rid) as (a & n & v & Ha & Hn & Hv & Hra & Hrn & Hrv); [by left|].
  cbn in Hf. rewrite Ha, Hn in Hf. apply andb_prop in Hf as [Hle Hf].
  assert (Ht : take_rid need rv rid = Ret (<[rid := a - n]> rv)).
  { unfold take_rid. rewrite Ha, Hn, CHECK_true by done. cbn [mbind outcome_bind].
    apply Z.leb_le in Hle. unfold INT32_MAX in *. by rewrite sub32_ok by (unfold is_s32; lia). }
  cbn [foldM]. rewrite Ht. cbn [mbind outcome_bind].
  assert (Hne : forall r, r ∈ l -> <[rid := a - n]> rv !! r = rv !! r)
    by (intros r Hr; apply list_lookup_insert_ne; congruence).
  rewrite IH; [|done| |].
  - f_equal. apply list_eq. intros i. rewrite !remaining_lookup.
    destruct (decide (i = rid)) as [->|Hi].
    + rewrite list_lookup_insert_eq by (by eapply lookup_lt_Some). rewrite Ha. cbn.
      rewrite bool_decide_false, bool_decide_true by set_solver. by rewrite Hn.
    + rewrite list_lookup_insert_ne by done.
      by rewrite (bool_decide_ext (i ∈ rid :: l) (i ∈ l)) by set_solver.
  - intros r Hr. unfold amounts_ok. rewrite Hne by done. apply Hok. by right.
  - unfold fitsb in *. rewrite forallb_forall in Hf |- *. intros r Hr.
    rewrite Hne by by apply list_elem_of_In. by apply Hf.
Qed.

(** What the loop over the pool knows after the workers [l]. *)
Context (job : Job) (level : nat) (wr : WorkerResources).
Abbreviation usable_here := (usable (fun _ => rids) job level wr).

Definition weight_of (w : RemoteWorker) : Z :=
  match wr !! shard_of w with Some rv => weight_left rv (resources_ job) | None => 0 end.
Definition known (w : RemoteWorker) : bool :=
  isHealthy w && bool_decide (is_Some (wr !! shard_of w)).

Definition best_so_far (l : list (string * RemoteWorker))
    (acc : Z * option (string * RemoteWorker) * bool) : Prop :=
  let '(least, best, saw) := acc in
  saw = existsb (fun p => known p.2) l /\
  match best with
  | None => least = INT32_MAX /\ forall p, p ∈ l -> usable_here p.2 = false
  | Some p => p ∈ l /\ usable_here p.2 = true /\ least = weight_of p.2 /\
      forall p', p' ∈ l -> usable_here p'.2 = true -> least <= weight_of p'.2
  end.

Lemma busiest_step_spec l acc p b :
  shard_of p.2 = p.1 -> jobCanRunOnWorker job (worker_ p.2) level = Ret b ->
  (forall s rv, wr !! s = Some rv -> busiest_ok rv (resources_ job)) ->
  best_so_far l acc ->
  exists acc', busiest_step t rids job level wr acc p = Ret acc' /\ best_so_far (l ++ [p]) acc'.
Proof.
  intros Hsh Hb Hok Hacc. destruct acc as [[least best] saw]. destruct Hacc as [Hsaw Hbest].
  assert (Hskip : forall b', usable_here p.2 = false -> b' = saw || known p.2 ->
            best_so_far (l ++ [p]) (least, best, b')).
  { intros b' Hu ->. split; [rewrite existsb_app, <- Hsaw; cbn; by rewrite orb_false_r|].
    destruct best as [q|].
    - destruct Hbest as (Hq & Huq & Hl & Hmin). split_and!; [set_solver|done..|].
      intros p' Hp'. apply elem_of_app in Hp' as [?|?%list_elem_of_singleton]; [by apply Hmin|].
      subst. congruence.
    - destruct Hbest as [Hl Hno]. split; [done|].
      intros p' Hp'. apply elem_of_app in Hp' as [?|?%list_elem_of_singleton]; [by apply Hno|].
      by subst. }
  unfold busiest_step. destruct (isHealthy p.2) eqn:Eh; cbn [negb].
  2: { eexists. split; [reflexivity|].
       apply Hskip; [by unfold usable; rewrite Eh|by unfold known; rewrite Eh, orb_false_r]. }
  rewrite <- Hsh. destruct (wr !! shard_of p.2) as [rv|] eqn:Er.
  2: { eexists. split; [reflexivity|].
       apply Hskip; [by unfold usable; rewrite Er, andb_false_r|].
       by unfold known; rewrite Eh, Er, orb_false_r. }
  assert (Hk : true = saw || known p.2) by (unfold known; by rewrite Eh, Er, orb_true_r).
  rewrite Hb. cbn [mbind outcome_bind]. destruct b; cbn [negb].
  2: { eexists. split; [reflexivity|]. apply Hskip; [|done].
       unfold usable. by rewrite Eh, Hb, bool_decide_false. }
  destruct (Hok _ _ Er) as [Ham Hfull].
  destruct (remainingWeight_spec rv (resources_ job) rids 0 Ham) as (z & Hz & Hzs); [lia..|].
  rewrite Hz. cbn [mbind outcome_bind].
  destruct (fitsb rids rv (resources_ job)) eqn:Ef.
  2: { subst z. eexists. split; [reflexivity|]. apply Hskip; [|done].
       unfold usable. by rewrite Er, Ef, andb_false_r. }
  destruct Hzs as [Hze [Hz0 Hz1]].
  assert (Hw : weight_of p.2 = z) by (unfold weight_of; rewrite Er; unfold weight_left; lia).
  assert (Hu : usable_here p.2 = true)
    by (unfold usable; rewrite Eh, Er, Hb, (bool_decide_true (Ret true = Ret true) eq_refl); exact Ef).
  assert (Hsaw' : true = existsb (fun q => known q.2) (l ++ [p])).
  { rewrite existsb_app. cbn. unfold known at 2. rewrite Eh, Er, bool_decide_true by done.
    by rewrite orb_true_r. }
  rewrite (proj2 (Z.leb_le _ _) Hz0). cbn [andb].
  destruct (Z.ltb_spec z least) as [Hlt|Hge]; (eexists; split; [reflexivity|]; split; [done|]).
  - split_and!; [set_solver|done..|]. intros p' Hp' Hu'.
    apply elem_of_app in Hp' as [Hp'|Hp'%list_elem_of_singleton]; [|subst p'; lia].
    destruct best as [q|]; [|destruct Hbest as [_ Hno]; rewrite Hno in Hu' by done; done].
    destruct Hbest as (_ & _ & _ & Hmin). specialize (Hmin p' Hp' Hu'). lia.
  - destruct best as [q|]; [|destruct Hbest; lia]. destruct Hbest as (Hq & Huq & Hl & Hmin).
    split_and!; [set_solver|done..|]. intros p' Hp' Hu'.
    apply elem_of_app in Hp' as [Hp'|Hp'%list_elem_of_singleton]; [by apply Hmin|subst p'; lia].
Qed.

Lemma busiest_loop_spec todo seen acc :
  (forall p, p ∈ todo -> shard_of p.2 = p.1 /\
     exists b, jobCanRunOnWorker job (worker_ p.2) level = Ret b) ->
  (forall s rv, wr !! s = Some rv -> busiest_ok rv (resources_ job)) ->
  best_so_far seen acc ->
  exists acc', foldM (busiest_step t rids job level wr) acc todo = Ret acc' /\
    best_so_far (seen ++ todo) acc'.
Proof.
  revert seen acc; induction todo as [|p todo IH]; intros seen acc Hp Hok Hacc.
  { rewrite app_nil_r. by exists acc. }
  destruct (Hp p) as (Hsh & b & Hb); [by left|].
  destruct (busiest_step_spec _ _ p b Hsh Hb Hok Hacc) as (acc1 & H1 & Hacc1).
  cbn. rewrite H1. cbn. replace (seen ++ p :: todo) with ((seen ++ [p]) ++ todo)
    by by rewrite <- app_assoc.
  apply IH; [|done..]. intros q Hq. apply Hp. by right.
Qed.

(** The workers of the pool that is searched. *)
Definition pool_of (host : string) (rs : RemoteWorkers) : list (string * RemoteWorker) :=
  omap (fun s => (fun w => (s, w)) <$> workerPool_ rs !! s) (candidates host rs).

Lemma elem_of_pool_of host rs s w :
  (s, w) ∈ pool_of host rs <-> s ∈ candidates host rs /\ workerPool_ rs !! s = Some w.
Proof.
  unfold pool_of. rewrite list_elem_of_omap. split.
  - intros (s' & Hs & Hw). destruct (workerPool_ rs !! s') eqn:E; cbn in Hw; naive_solver.
  - intros [Hs Hw]. exists s. by rewrite Hw.
Qed.

(** The result of the search for the busiest worker. *)
Lemma busiest_result node rs :
  levelIDToResourceID t !! level = Some rids -> NoDup rids ->
  selectable busiest_ok job node level wr rs ->
  let host := requiredHostForTask job node in
  exists rs' wr' fd resp,
    Busiest_findWorker t job node level wr rs = Ret (rs', wr', fd, resp) /\
    same_pool rs rs' /\
    ((exists s w, (s, w) ∈ pool_of host rs /\ shard_of w = s /\ usable_here w = true /\
        (forall s' w', (s', w') ∈ pool_of host rs -> usable_here w' = true ->
           weight_of w <= weight_of w') /\
        fd = report w /\ resp = RanTask /\ wr' = charge (fun _ => rids) job wr w) \/
     ((forall s w, (s, w) ∈ pool_of host rs -> usable_here w = false) /\
      fd = None /\ wr' = wr /\
      resp = if existsb (fun p => known p.2) (pool_of host rs) then DidNotRunTask
             else DoNotRunMoreTasks)).
Proof.
  intros Hrids Hnd [_ Hknown Hres] host. unfold Busiest_findWorker. fold host.
  set (view := if bool_decide (host = "") then _ else _).
  assert (Hview : exists rs', view = (rs', candidates host rs) /\ same_pool rs rs').
  { subst view. unfold candidates. case_bool_decide; [by eexists|].
    unfold mutableHostWorkerPool, host_shards.
    destruct (hostToWorkerPool_ rs !! host) as [p|] eqn:Ep; [by eexists|].
    eexists. split; [reflexivity|]. split_and!; try done. intros h. unfold candidates.
    case_bool_decide; [done|]. unfold host_shards. cbn. rewrite lookup_insert.
    case_decide; [by subst; rewrite Ep|done]. }
  destruct Hview as (rs' & -> & Hsame). rewrite Hrids.
  assert (workerPool_ rs' = workerPool_ rs) as -> by by destruct Hsame as (_ & _ & _ & ? & _).
  fold (pool_of host rs).
  destruct (busiest_loop_spec (pool_of host rs) [] (INT32_MAX, None, false))
    as ([[least best] saw] & -> & Hsaw & Hbest);
    [|done|split_and!; [done..|by intros p ?%not_elem_of_nil]|].
  { intros [s w] Hin. apply elem_of_pool_of in Hin as [Hs Hw].
    destruct (Hknown s Hs) as (w' & b & Hw' & Hsh & Hb). simplify_eq. eauto. }
  cbn [mbind outcome_bind app] in *. destruct best as [[s w]|].
  - destruct Hbest as (Hin & Hu & Hl & Hmin).
    pose proof Hin as [Hs Hw]%elem_of_pool_of.
    destruct (Hknown s Hs) as (w' & b & Hw' & Hsh & _). simplify_eq. cbn in Hu.
    assert (exists rv, wr !! shard_of w = Some rv /\ fitsb rids rv (resources_ job) = true)
      as (rv & Hrv & Hf).
    { unfold usable in Hu. apply andb_prop in Hu as [_ Hu].
      destruct (wr !! shard_of w) as [rv|]; [by exists rv|done]. }
    rewrite Hrv, take_rids_spec by (done || exact (proj1 (Hres _ _ Hrv))).
    do 4 eexists. split; [reflexivity|]. split; [done|]. left. exists (shard_of w), w.
    split_and!; [done..| |done|done|].
    + intros s' w' Hin'. exact (Hmin (s', w') Hin').
    + unfold charge. apply map_eq. intros k. rewrite lookup_insert, lookup_alter.
      case_decide; [subst; by rewrite Hrv|done].
  - do 4 eexists. split; [reflexivity|]. split; [done|]. right. destruct Hbest as [_ Hno].
    split_and!; [|done|done|by rewrite Hsaw]. intros s w Hin. exact (Hno (s, w) Hin).
Qed.
End Busiest.

#[global] Instance Busiest_laws n t level :
  tables_wf n t -> (level < n)%nat -> SelectorLaws level (Busiest_findWorker t).
Proof.
  intros Hwf Hlt.
  refine {| sel_checked := fun _ => default [] (levelIDToResourceID t !! level);
            sel_ok := busiest_ok t (default [] (levelIDToResourceID t !! level)) |}.
  intros job node wr rs Hsel shards.
  destruct (lookup_lt_is_Some_2 (levelIDToResourceID t) level) as [rids Hr];
    [by rewrite (rids_levels _ _ Hwf)|].
  rewrite Hr in *. cbn in *.
  destruct (busiest_result t rids job level wr node rs Hr (rids_NoDup _ _ Hwf _ _ Hr) Hsel)
    as (rs' & wr' & fd & resp & Hf & Hs & Hres).
  exists rs', wr', fd, resp. split; [done|]. split; [done|].
  destruct Hres as [(s & w & Hin & Hsh & Hu & _ & Hfd & Hresp & Hwr)|(Hno & Hfd & Hwr & Hresp)].
  - left. apply elem_of_pool_of in Hin as [Hin Hw]. by exists s, w.
  - right. split_and!; try done; [|by rewrite Hresp; case_match].
    intros s w Hin Hw. apply (Hno s). by apply elem_of_pool_of.
Defined.

(** ** The theorems *)

(** C17: Round robin takes the first usable worker in the cyclic order that starts at
    the pool's iterator: the workers before it cannot run the task now, only
    its resources are charged, and the iterator ends up behind it.  If no
    worker is usable nothing is charged, and the scheduler is told to stop
    exactly if none was healthy. *)
Theorem round_robin_first_fit job node level wr rs :
  selectable rr_ok job node level wr rs ->
  let host := requiredHostForTask job node in
  let order := rotate (cursor host rs) [] (candidates host rs) in
  order ≡ₚ candidates host rs /\
  exists rs' wr' fd resp,
    RoundRobin_findWorker job node level wr rs = Ret (rs', wr', fd, resp) /\
    same_pool rs rs' /\
    ((exists before s w rem, order = before ++ s :: rem /\
        unusable job level wr rs all_rids before /\
        workerPool_ rs !! s = Some w /\ shard_of w = s /\
        usable all_rids job level wr w = true /\ fd = report w /\ resp = RanTask /\
        wr' = charge all_rids job wr w /\ cursor host rs' = default "" (head (rem ++ order))) \/
     (unusable job level wr rs all_rids order /\ fd = None /\ wr' = wr /\
      resp = if existsb (healthy_shard (workerPool_ rs)) order then DidNotRunTask
             else DoNotRunMoreTasks)).
Proof.
  intros Hsel host order. split.
  - exact (order_perm job node rs (sl_NoDup _ _ _ _ _ _ Hsel)).
  - exact (round_robin_result job node level wr rs Hsel).
Qed.

(** C18: The busiest-worker selector takes a usable worker that would have the least
    weight of resources left, trips none of its checks and never overflows an
    [int] if a whole worker weighs less than 2^31 - 1.  If no worker is usable
    it takes nothing, and stops the scheduler exactly if no worker is healthy
    with known resources. *)
Theorem busiest_least_weight n t job node level wr rs :
  tables_wf n t -> (level < n)%nat ->
  let rids := default [] (levelIDToResourceID t !! level) in
  let host := requiredHostForTask job node in
  let is_usable := usable (fun _ => rids) job level wr in
  let weight := weight_of t rids job wr in
  selectable (busiest_ok t rids) job node level wr rs ->
  exists rs' wr' fd resp,
    Busiest_findWorker t job node level wr rs = Ret (rs', wr', fd, resp) /\
    same_pool rs rs' /\
    ((exists s w, (s, w) ∈ pool_of host rs /\ shard_of w = s /\ is_usable w = true /\
        (forall s' w', (s', w') ∈ pool_of host rs -> is_usable w' = true -> weight w <= weight w') /\
        fd = report w /\ resp = RanTask /\ wr' = charge (fun _ => rids) job wr w) \/
     ((forall s w, (s, w) ∈ pool_of host rs -> is_usable w = false) /\
      fd = None /\ wr' = wr /\
      resp = if existsb (fun p => known wr p.2) (pool_of host rs) then DidNotRunTask
             else DoNotRunMoreTasks)).
Proof.
  intros Hwf Hlt rids host is_usable weight Hsel.
  assert (levelIDToResourceID t !! level = Some rids) as Hr.
  { destruct (lookup_lt_is_Some_2 (levelIDToResourceID t) level) as [r Hr];
      [by rewrite (rids_levels _ _ Hwf)|]. subst rids. by rewrite Hr. }
  exact (busiest_result t rids job level wr node rs Hr (rids_NoDup _ _ Hwf _ _ Hr) Hsel).
Qed.

End Selectors.

(** ** Samples *)

Definition sample_remote (shard : string) (state : State) : RemoteWorker :=
  mkRemoteWorker (mkBistroWorker shard (mkMachinePortLock "host" 1) (mkServiceAddress "host" 2)
      (mkInstanceID 1 1) 15 kProtocolVersion noUsableResources)
    (mkWorkerState state 0 0 0 true 7) (mkWorkerSetID (mkInstanceID 4 1) 1 emptyWorkerSetHash)
    None None None 0 ∅ ∅ 0 0 (mkInstanceID 4 1).
Definition sample_workers : RemoteWorkers :=
  mkRemoteWorkers false 0 (emptySets (mkInstanceID 4 1))
    (list_to_map ((fun p => (p.1, sample_remote p.1 p.2)) <$>
       [("a", HEALTHY); ("b", HEALTHY); ("c", UNHEALTHY); ("d", HEALTHY)])) "b" ∅.
Definition sample_wjob : Job := mkJob 0 "job" true true 1 1%Q [2] [noFilters; noFilters] None "" [].
Definition sample_leaf : Node := mkNode 0 "leaf" 1 true None [] 0.
Definition sample_wr : WorkerResources := list_to_map [("a", [5]); ("b", [1]); ("c", [9]); ("d", [3])].
Definition sample_resources : list (string * list (string * ResourceSpec)) :=
  [("worker", [("slots", mkSpec (Int64 0) (Int64 4) (Int64 1))])].
Definition sample_tables : ResourceTables :=
  match parse_resources (parse_levels []) sample_resources with
  | Ret t => t
  | _ => newTables emptyTable
  end.
Definition no_regex (re s : string) : bool := false.
Definition no_hash (s salt : string) : Z := 0.

Lemma sample_selectable (ok : list Z -> list Z -> Prop) :
  Forall (fun a => ok [a] [2]) [5; 1; 9; 3] ->
  selectable no_regex no_hash ok sample_wjob sample_leaf 1 sample_wr sample_workers.
Proof.
  intros Hok. split.
  - apply (bool_decide_unpack _). vm_compute. exact I.
  - intros s Hs. apply list_elem_of_In in Hs. vm_compute in Hs.
    repeat destruct Hs as [<-|Hs]; try (do 2 eexists; split_and!; vm_compute; reflexivity).
    done.
  - intros s rv Hrv. apply elem_of_map_to_list, list_elem_of_In in Hrv. vm_compute in Hrv.
    rewrite !Forall_cons in Hok. destruct Hok as (? & ? & ? & ? & _).
    repeat destruct Hrv as [[= <- <-]|Hrv]; done.
Qed.

(** The shard that was found. *)
Definition found_shard (r : outcome (RemoteWorkers * WorkerResources * found * TaskRunnerResponse))
    : string :=
  match r with Ret (_, _, Some (bw, _), RanTask) => bw_shard bw | _ => "" end.

Lemma round_robin_first_fit_witness :
  exists rs' wr' fd resp, RoundRobin_findWorker no_regex no_hash sample_wjob sample_leaf 1 sample_wr
      sample_workers = Ret (rs', wr', fd, resp) /\
    found_shard (Ret (rs', wr', fd, resp)) = "d".
Proof.
  destruct (round_robin_first_fit no_regex no_hash sample_wjob sample_leaf 1 sample_wr
    sample_workers) as [_ (rs' & wr' & fd & resp & Hf & _)].
  - apply sample_selectable. repeat (apply Forall_cons_2; [split; [cbn; lia|]|]); [..|done];
      intros i a n Ha Hn; destruct i; simplify_eq/=; unfold is_s32; lia.
  - exists rs', wr', fd, resp. split; [exact Hf|]. rewrite <- Hf. vm_compute. reflexivity.
Defined.

Lemma sample_tables_wf : tables_wf 2 sample_tables.
Proof.
  pose proof (parse_resources_tables (parse_levels []) sample_resources (parse_levels_wf [])) as H.
  unfold sample_tables. destruct (parse_resources _ _) as [t| | |] eqn:E; try discriminate E.
  apply H. apply (bool_decide_unpack _). vm_compute. exact I.
Qed.

Lemma sample_busiest_ok a : 0 <= a < 100 ->
  busiest_ok sample_tables (default [] (levelIDToResourceID sample_tables !! 1%nat)) [a] [2].
Proof.
  intros Ha. assert (Hr : levelIDToResourceID sample_tables !! 1%nat = Some [0%nat]) by reflexivity.
  rewrite Hr. cbn [default from_option id].
  assert (Hw : resourceIDToWeight sample_tables !! 0%nat = Some 1) by reflexivity. split.
  - intros rid ->%list_elem_of_singleton. exists a, 2, 1. unfold INT32_MAX. split_and!; try done; lia.
  - unfold full_weight. cbn [map foldr]. rewrite Hw. cbn [lookup list_lookup default from_option id].
    unfold INT32_MAX. lia.
Qed.

Lemma busiest_least_weight_witness :
  exists rs' wr' fd resp, Busiest_findWorker no_regex no_hash sample_tables sample_wjob sample_leaf 1
      sample_wr sample_workers = Ret (rs', wr', fd, resp) /\
    found_shard (Ret (rs', wr', fd, resp)) = "d".
Proof.
  destruct (busiest_least_weight no_regex no_hash 2 sample_tables sample_wjob sample_leaf 1
    sample_wr sample_workers) as (rs' & wr' & fd & resp & Hf & _).
  - exact sample_tables_wf.
  - lia.
  - apply sample_selectable. repeat (apply Forall_cons_2; [apply sample_busiest_ok; lia|]). done.
  - exists rs', wr', fd, resp. split; [exact Hf|]. rewrite <- Hf. vm_compute. reflexivity.
Defined.

(** The comment in the loop says that the weight "can never become negative
    since weights are nonnegative"; a large weight, which the configuration
    accepts, overflows it. *)
Theorem busiest_weight_overflows :
  exists t, parse_resources (parse_levels [])
      [("worker", [("slots", mkSpec (Int64 0) (Int64 4) (Int64 (2 ^ 30)))])] = Ret t /\
    Busiest_findWorker no_regex no_hash t sample_wjob sample_leaf 1
      {["a" := [4]]} sample_workers = Undef "signed overflow".
Proof.
  assert (H : match parse_resources (parse_levels [])
      [("worker", [("slots", mkSpec (Int64 0) (Int64 4) (Int64 (2 ^ 30)))])] with
    | Ret t => match Busiest_findWorker no_regex no_hash t sample_wjob sample_leaf 1
                 {["a" := [4]]} sample_workers with
               | Undef m => String.eqb m "signed overflow"
               | _ => false
               end
    | _ => false
    end = true) by (vm_compute; reflexivity).
  destruct (parse_resources _ _) as [t| | |]; [|done..]. exists t. split; [done|].
  destruct (Busiest_findWorker _ _ _ _ _ _ _ _) as [| | |m]; try done.
  by apply String.eqb_eq in H as ->.
Qed.
