(* ===== verification/Resources.v ===== *)
(** [runners/RemoteWorkerRunner.cpp]: the resources of the workers.  How a
    worker's vector of resources is put together from the configured
    defaults, what the worker measured, and the configured overrides, minus
    what running tasks use ([updateConfig]); and how a task's logical
    resources become limits of its cgroup.

    Doubles are the IEEE binary64 numbers of [SpecFloat].  Converting a
    double to an integer type that cannot hold it is undefined. *)

From stdpp Require Import base gmap strings list pretty.
From Stdlib Require Import ZArith Lia SpecFloat.
From S2P Require Import Prelude Thrift SymbolTable RemoteWorker RemoteWorkers Config Selectors.

#[local] Open Scope Z_scope.

(** ** Doubles *)

Definition f_sub : spec_float -> spec_float -> spec_float := SFsub 53 1024.
Definition f_mul : spec_float -> spec_float -> spec_float := SFmul 53 1024.
Definition f_div : spec_float -> spec_float -> spec_float := SFdiv 53 1024.
(** The conversion of an integer. *)
Definition f_of (z : Z) : spec_float := binary_normalize 53 1024 z 0 false.
Definition f_zero : spec_float := S754_zero false.

(** The integer part of a finite number. *)
Definition f_trunc (x : spec_float) : option Z :=
  match x with
  | S754_zero _ => Some 0
  | S754_finite s m e =>
      let a := Z.shiftl (Zpos m) e in Some (if s then - a else a)
  | _ => None
  end.

(** [::round]: half away from zero; the result is a double again. *)
Definition f_round (x : spec_float) : spec_float :=
  match x with
  | S754_finite s m e =>
      if 0 <=? e then x
      else let a := Z.shiftr (Z.shiftl (Zpos m) (e + 1) + 1) 1 in f_of (if s then - a else a)
  | _ => x
  end.

(** ** Configuration *)

Inductive PhysicalResource := RAM_MBYTES | CPU_CORES | GPU_CARDS.
Inductive PhysicalResourceEnforcement := NONE | SOFT | HARD.
#[global] Instance PhysicalResource_eq_dec : EqDecision PhysicalResource.
Proof. solve_decision. Defined.
#[global] Instance PhysicalResourceEnforcement_eq_dec : EqDecision PhysicalResourceEnforcement.
Proof. solve_decision. Defined.

Record PhysicalResourceConfig := mkPhysical {
  prc_physical : PhysicalResource;
  prc_logical : string;
  prc_logicalResourceID : Z;
  multiplyLogicalBy : spec_float;
  prc_enforcement : PhysicalResourceEnforcement;
  physicalReserveAmount : spec_float
}.

(** The parts of [Config] that the runner reads. *)
Record RunnerConfig := mkRunnerConfig {
  rc_levels : StringTable;
  rc_tables : ResourceTables;
  physicalResourceConfigs : list PhysicalResourceConfig;
  logicalToPhysical : gmap string nat;
  workerResourcesOverride : gmap string (list (nat * Z));
  remoteWorkerSelectorType : RemoteWorkerSelectorType;
  exitInitialWaitBeforeTimestamp : Z
}.

(** ** Physical and logical resources *)

(** [clampPhysical<T>], with [max] the largest [T]. *)
Definition clampPhysical (max : Z) (unclamped : spec_float) : outcome Z :=
  if SFltb unclamped f_zero then Ret 0
  else if SFltb (f_of max) unclamped then Ret max
  else match f_trunc unclamped with
       | Some z => if z <=? max then Ret z else Undef "conversion of a double"
       | None => Undef "conversion of a double"
       end.

(** [logicalToIntPhysicalResource]. *)
Definition logicalToIntPhysicalResource (max : Z) (p : PhysicalResourceConfig) (r : Resource)
    : outcome Z :=
  clampPhysical max (f_round (f_mul (multiplyLogicalBy p) (f_of (res_amount r)))).

(** [physicalToLogicalResource]. *)
Definition physicalToLogicalResource (c : PhysicalResourceConfig) (physical : spec_float)
    : outcome (option Z) :=
  if SFeqb physical f_zero then Ret None
  else
    let r := f_div (f_sub physical (physicalReserveAmount c)) (multiplyLogicalBy c) in
    match f_trunc r with
    | Some z => if z <? 0 then Ret (Some 0)
                else if z <=? INT32_MAX then Ret (Some z) else Undef "conversion of a double"
    | None => if SFltb r f_zero then Ret (Some 0) else Undef "conversion of a double"
    end.

(** [cgroupOptions] of a task: the CPU shares and the memory limit. *)
Record CGroupLimits := mkLimits { cpuShares : Z; memoryLimitInBytes : Z }.

Definition INT16_MAX : Z := 2 ^ 15 - 1.

(** The loop of [runTaskImpl] over the worker's resources of a task. *)
Definition cgroup_limit (config : RunnerConfig) (l : CGroupLimits) (r : Resource)
    : outcome CGroupLimits :=
  match logicalToPhysical config !! res_name r with
  | None => Ret l
  | Some i =>
      match physicalResourceConfigs config !! i with
      | None => Throw "physicalResourceConfigs.at"
      | Some p =>
          if bool_decide (prc_physical p = RAM_MBYTES) && bool_decide (prc_enforcement p = HARD)
          then let* m := logicalToIntPhysicalResource INT64_MAX p r in
               Ret (mkLimits (cpuShares l) m)
          else if bool_decide (prc_physical p = CPU_CORES) && bool_decide (prc_enforcement p = SOFT)
          then let* c := logicalToIntPhysicalResource INT16_MAX p r in
               let* c := clampPhysical INT16_MAX (f_of (2 * c)) in
               Ret (mkLimits c (memoryLimitInBytes l))
          else Ret l
      end
  end.
Definition cgroup_limits (config : RunnerConfig) (rs : list Resource) : outcome CGroupLimits :=
  foldM (cgroup_limit config) (mkLimits 0 0) rs.

(** ** The resources of one worker *)

(** [++w_res[rid]] for a card whose model is a resource of the worker. *)
Definition count_gpu (config : RunnerConfig) (w_res : list Z) (gpu : GPUInfo) : list Z :=
  match lookup_obj (resourceNames (rc_tables config)) (String.append "GPU: " (gpu_name gpu)) with
  | None => w_res
  | Some rid =>
      match w_res !! rid with
      | None => w_res
      | Some n => if n =? INT32_MAX then w_res else <[rid := n + 1]> w_res
      end
  end.

(** The loop over [physicalResourceConfigs]. *)
Definition apply_physical (config : RunnerConfig) (w : BistroWorker) (w_res : list Z)
    (prc : PhysicalResourceConfig) : outcome (list Z) :=
  let usable := bw_usableResources w in
  let* val := physicalToLogicalResource prc
    match prc_physical prc with
    | RAM_MBYTES => memoryMB usable
    | CPU_CORES => cpuCores usable
    | GPU_CARDS => f_of (Z.of_nat (length (gpus usable)))
    end in
  let* w_res :=
    match val with
    | None => Ret w_res
    | Some v =>
        CHECK (0 <=? prc_logicalResourceID prc) "CHECK_GE(logicalResourceID, 0)" ;;;
        CHECK (prc_logicalResourceID prc <? Z.of_nat (length w_res)) "CHECK_LT(logicalResourceID)" ;;;
        Ret (<[Z.to_nat (prc_logicalResourceID prc) := v]> w_res)
    end in
  Ret (if bool_decide (prc_physical prc = GPU_CARDS)
       then foldl (count_gpu config) w_res (gpus usable) else w_res).

(** The overrides for a worker: by host and port, else by host, else by
    shard. *)
Definition worker_override (config : RunnerConfig) (w : BistroWorker) : option (list (nat * Z)) :=
  let lock := bw_machineLock w in
  match workerResourcesOverride config
          !! String.append (hostname lock) (String.append ":" (pretty (lock_port lock))) with
  | Some o => Some o
  | None =>
      match workerResourcesOverride config !! hostname lock with
      | Some o => Some o
      | None => workerResourcesOverride config !! bw_shard w
      end
  end.

(** [w_res[p.first] = p.second]. *)
Definition apply_override (w_res : list Z) (p : nat * Z) : outcome (list Z) :=
  if (p.1 <? length w_res)%nat then Ret (<[p.1 := p.2]> w_res) else Undef "w_res[p.first]".

(** The body of the loop over the workers. *)
Definition worker_capacity (config : RunnerConfig) (def_resources : list Z) (w : BistroWorker)
    : outcome (list Z) :=
  let* w_res := foldM (apply_physical config w) def_resources (physicalResourceConfigs config) in
  foldM apply_override w_res (default [] (worker_override config w)).

(** ** What running tasks use *)

(** [resources[rid] -= amount]. *)
Definition use_resource (config : RunnerConfig) (resources : list Z) (r : Resource)
    : outcome (list Z) :=
  match lookup_obj (resourceNames (rc_tables config)) (res_name r) with
  | None => Ret resources
  | Some rid =>
      match resources !! rid with
      | None => Ret resources
      | Some n => let* n := sub32 n (res_amount r) in Ret (<[rid := n]> resources)
      end
  end.

(** The loop over the nodes of a running task; an unknown worker ends it. *)
Fixpoint use_nodes (config : RunnerConfig) (shard : string) (wr : WorkerResources)
    (nrs : list NodeResources) : outcome WorkerResources :=
  match nrs with
  | [] => Ret wr
  | nr :: nrs' =>
      if negb (String.eqb (nr_node nr) shard) then use_nodes config shard wr nrs'
      else match wr !! shard with
           | None => Ret wr
           | Some resources =>
               let* resources := foldM (use_resource config) resources (nr_resources nr) in
               use_nodes config shard (<[shard := resources]> wr) nrs'
           end
  end.

(** The whole computation of [workerResources_], given the workers and the
    running tasks. *)
Definition computeResources (config : RunnerConfig) (worker_level : nat)
    (workers : list BistroWorker) (running_tasks : list RunningTask) : outcome WorkerResources :=
  match resourcesByLevel (rc_tables config) !! worker_level with
  | None => Undef "resourcesByLevel[workerLevel_]"
  | Some def_resources =>
      let* wr := foldM (fun (wr : WorkerResources) w =>
        let* w_res := worker_capacity config def_resources w in
        Ret (<[bw_shard w := w_res]> wr)) ∅ workers in
      foldM (fun wr rt => use_nodes config (rt_workerShard rt) wr (rt_nodeResources rt)) wr
        running_tasks
  end.

(** ** Accounting *)

(** Amounts leave a vector of resources. *)
Definition less (v : list Z) (f : nat -> Z) : list Z := imap (fun i n => n - f i) v.

Lemma less_lookup v f i : less v f !! i = (fun n => n - f i) <$> v !! i.
Proof. apply list_lookup_imap. Qed.
Lemma less_less v f g : less (less v f) g = less v (fun i => f i + g i).
Proof. apply list_eq. intros i. rewrite !less_lookup. destruct (v !! i); cbn; [f_equal; lia|done]. Qed.
Lemma less_ext v f g : (forall i, f i = g i) -> less v f = less v g.
Proof. intros H. apply imap_ext. intros i x _. by rewrite H. Qed.
Lemma less_zero v : less v (fun _ => 0) = v.
Proof. apply list_eq. intros i. rewrite less_lookup. destruct (v !! i); cbn; [f_equal; lia|done]. Qed.

Definition sum_by {A} (f : A -> Z) (l : list A) : Z := foldr (fun a z => f a + z) 0 l.

Lemma sum_by_nonneg {A} (f : A -> Z) l : (forall a, a ∈ l -> 0 <= f a) -> 0 <= sum_by f l.
Proof.
  induction l as [|a l IH]; intros H; cbn; [lia|].
  pose proof (H a (list_elem_of_here _ _)).
  assert (0 <= sum_by f l) by (apply IH; intros; apply H; by right). fold (sum_by f l). lia.
Qed.

(** The amount of resource [rid] in a list, and on the nodes named [shard]. *)
Section Accounting.
Context (config : RunnerConfig).

Definition use_of (rid : nat) (r : Resource) : Z :=
  if bool_decide (lookup_obj (resourceNames (rc_tables config)) (res_name r) = Some rid)
  then res_amount r else 0.
Definition uses (rs : list Resource) (rid : nat) : Z := sum_by (use_of rid) rs.
Definition node_uses (shard : string) (nrs : list NodeResources) (rid : nat) : Z :=
  sum_by (fun nr => if String.eqb (nr_node nr) shard then uses (nr_resources nr) rid else 0) nrs.
Definition task_uses (shard : string) (rts : list RunningTask) (rid : nat) : Z :=
  sum_by (fun rt => if String.eqb (rt_workerShard rt) shard
                    then node_uses shard (rt_nodeResources rt) rid else 0) rts.

(** The vector stays within [int] when [f] leaves it. *)
Definition affords (v : list Z) (f : nat -> Z) : Prop :=
  forall i n, v !! i = Some n -> n < 2 ^ 31 /\ - 2 ^ 31 <= n - f i.
Definition nonneg_amounts (rs : list Resource) : Prop := forall r, r ∈ rs -> 0 <= res_amount r.

Lemma uses_nonneg rs rid : nonneg_amounts rs -> 0 <= uses rs rid.
Proof. intros H. apply sum_by_nonneg. intros r Hr. unfold use_of. case_bool_decide; [by apply H|lia]. Qed.

Lemma uses_cons r rs rid : uses (r :: rs) rid = use_of rid r + uses rs rid.
Proof. reflexivity. Qed.
Lemma node_uses_cons shard nr nrs rid :
  node_uses shard (nr :: nrs) rid =
    (if String.eqb (nr_node nr) shard then uses (nr_resources nr) rid else 0) + node_uses shard nrs rid.
Proof. reflexivity. Qed.

Lemma use_resource_ok v r f :
  0 <= res_amount r -> (forall i, 0 <= f i) -> affords v (fun i => use_of i r + f i) ->
  use_resource config v r = Ret (less v (fun i => use_of i r)) /\
  affords (less v (fun i => use_of i r)) f.
Proof.
  intros Hr Hf Hv. split.
  - unfold use_resource.
    assert (Hid : forall i, use_of i r = 0 \/
              lookup_obj (resourceNames (rc_tables config)) (res_name r) = Some i)
      by (intros i; unfold use_of; case_bool_decide; auto).
    destruct (lookup_obj _ _) as [rid|] eqn:El.
    2: { f_equal. rewrite <- (less_zero v) at 1. apply less_ext. intros i. by destruct (Hid i). }
    assert (Hne : forall i, i <> rid -> use_of i r = 0) by (intros i Hi; destruct (Hid i); congruence).
    destruct (v !! rid) as [n|] eqn:En.
    + destruct (Hv rid n En). pose proof (Hf rid).
      assert (Hu : use_of rid r = res_amount r) by (unfold use_of; by rewrite bool_decide_true).
      rewrite sub32_ok by (unfold is_s32; lia). cbn. f_equal. apply list_eq. intros i.
      rewrite less_lookup. destruct (decide (i = rid)) as [->|Hi].
      * rewrite list_lookup_insert_eq by (by eapply lookup_lt_Some). rewrite En. cbn. by rewrite Hu.
      * rewrite list_lookup_insert_ne by done. rewrite Hne by done.
        destruct (v !! i); cbn; [f_equal; lia|done].
    + f_equal. apply list_eq. intros i. rewrite less_lookup.
      destruct (decide (i = rid)) as [->|Hi]; [by rewrite En|]. rewrite Hne by done.
      destruct (v !! i); cbn; [f_equal; lia|done].
  - intros i n. rewrite less_lookup. destruct (v !! i) as [m|] eqn:Em; [|done]. intros [= <-].
    destruct (Hv i m Em). assert (0 <= use_of i r) by (unfold use_of; case_bool_decide; lia). lia.
Qed.

Lemma use_resources_ok rs v f :
  nonneg_amounts rs -> (forall i, 0 <= f i) -> affords v (fun i => uses rs i + f i) ->
  foldM (use_resource config) v rs = Ret (less v (uses rs)) /\ affords (less v (uses rs)) f.
Proof.
  revert v; induction rs as [|r rs IH]; intros v Hr Hf Hv.
  { split; [cbn; by rewrite less_zero|]. by rewrite less_zero. }
  assert (Hrs : nonneg_amounts rs) by (intros x Hx; apply Hr; by right).
  destruct (use_resource_ok v r (fun i => uses rs i + f i)) as [H1 H2].
  { apply Hr. by left. }
  { intros i. pose proof (uses_nonneg rs i Hrs). specialize (Hf i). lia. }
  { intros i n Hn. specialize (Hv i n Hn). cbv beta in Hv. rewrite uses_cons in Hv. lia. }
  cbn [foldM]. rewrite H1. cbn [mbind outcome_bind].
  destruct (IH _ Hrs Hf H2) as [H3 H4]. rewrite less_less in H3, H4.
  by split.
Qed.

Definition nonneg_nodes (nrs : list NodeResources) : Prop :=
  forall nr, nr ∈ nrs -> nonneg_amounts (nr_resources nr).

Lemma node_uses_nonneg shard nrs rid : nonneg_nodes nrs -> 0 <= node_uses shard nrs rid.
Proof. intros H. apply sum_by_nonneg. intros nr Hn. case_match; [by apply uses_nonneg, H|lia]. Qed.

Lemma use_nodes_ok shard nrs wr v f :
  nonneg_nodes nrs -> (forall i, 0 <= f i) -> wr !! shard = Some v ->
  affords v (fun i => node_uses shard nrs i + f i) ->
  use_nodes config shard wr nrs = Ret (<[shard := less v (node_uses shard nrs)]> wr) /\
  affords (less v (node_uses shard nrs)) f.
Proof.
  revert wr v; induction nrs as [|nr nrs IH]; intros wr v Hn Hf Hv Ha.
  { cbn [use_nodes]. rewrite less_zero, insert_id by done. done. }
  assert (Hns : nonneg_nodes nrs) by (intros x Hx; apply Hn; by right).
  cbn [use_nodes]. destruct (String.eqb (nr_node nr) shard) eqn:Es; cbn [negb].
  - rewrite Hv.
    destruct (use_resources_ok (nr_resources nr) v (fun i => node_uses shard nrs i + f i)) as [H1 H2].
    { apply Hn. by left. }
    { intros i. pose proof (node_uses_nonneg shard nrs i Hns). specialize (Hf i). lia. }
    { intros i n Hi. specialize (Ha i n Hi). cbv beta in Ha. rewrite node_uses_cons, Es in Ha. lia. }
    rewrite H1. cbn [mbind outcome_bind].
    destruct (IH (<[shard := less v (uses (nr_resources nr))]> wr) _ Hns Hf
                (lookup_insert_eq _ _ _) H2) as [H3 H4].
    rewrite H3, insert_insert_eq. rewrite less_less in H3, H4 |- *.
    assert (He : forall i, node_uses shard (nr :: nrs) i
              = uses (nr_resources nr) i + node_uses shard nrs i)
      by (intros i; by rewrite node_uses_cons, Es).
    rewrite (less_ext _ _ _ He). done.
  - destruct (IH wr v Hns Hf Hv) as [H3 H4].
    { intros i n Hi. specialize (Ha i n Hi). cbv beta in Ha. rewrite node_uses_cons, Es in Ha. lia. }
    assert (He : forall i, node_uses shard (nr :: nrs) i = node_uses shard nrs i)
      by (intros i; by rewrite node_uses_cons, Es).
    by rewrite (less_ext _ _ _ He).
Qed.

(** A task on an unknown worker is skipped. *)
Lemma use_nodes_unknown shard nrs wr : wr !! shard = None -> use_nodes config shard wr nrs = Ret wr.
Proof.
  intros Hn. induction nrs as [|nr nrs IH]; cbn; [done|]. rewrite Hn. by destruct (negb _).
Qed.

Lemma task_uses_cons shard rt rts rid :
  task_uses shard (rt :: rts) rid =
    (if String.eqb (rt_workerShard rt) shard
     then node_uses shard (rt_nodeResources rt) rid else 0) + task_uses shard rts rid.
Proof. reflexivity. Qed.

Lemma task_uses_nonneg shard rts rid :
  (forall rt, rt ∈ rts -> nonneg_nodes (rt_nodeResources rt)) -> 0 <= task_uses shard rts rid.
Proof. intros H. apply sum_by_nonneg. intros rt Hr. case_match; [by apply node_uses_nonneg, H|lia]. Qed.

Lemma use_tasks_ok rts (wr : WorkerResources) :
  (forall rt, rt ∈ rts -> nonneg_nodes (rt_nodeResources rt)) ->
  (forall s v, wr !! s = Some v -> affords v (task_uses s rts)) ->
  exists wr', foldM (fun wr rt => use_nodes config (rt_workerShard rt) wr (rt_nodeResources rt))
                wr rts = Ret wr' /\
    forall s, wr' !! s = (fun v => less v (task_uses s rts)) <$> wr !! s.
Proof.
  revert wr; induction rts as [|rt rts IH]; intros wr Hn Ha.
  { exists wr. split; [done|]. intros s. destruct (wr !! s); cbn; [|done]. by rewrite less_zero. }
  assert (Hns : forall rt, rt ∈ rts -> nonneg_nodes (rt_nodeResources rt))
    by (intros x Hx; apply Hn; by right).
  cbn [foldM]. set (shard := rt_workerShard rt) in *.
  destruct (wr !! shard) as [v|] eqn:Ev.
  - destruct (use_nodes_ok shard (rt_nodeResources rt) wr v (task_uses shard rts)) as [H1 H2].
    { apply Hn. by left. }
    { intros i. by apply task_uses_nonneg. }
    { done. }
    { intros i n Hi. specialize (Ha _ _ Ev i n Hi). cbv beta in Ha.
      rewrite task_uses_cons, String.eqb_refl in Ha. done. }
    rewrite H1. cbn [mbind outcome_bind].
    destruct (IH (<[shard := less v (node_uses shard (rt_nodeResources rt))]> wr) Hns)
      as (wr' & H3 & H4).
    { intros s v' Hv'. rewrite lookup_insert in Hv'. case_decide as Hs; [by simplify_eq|].
      intros i n Hi. specialize (Ha _ _ Hv' i n Hi). rewrite task_uses_cons in Ha.
      fold shard in Ha. rewrite (proj2 (String.eqb_neq _ _) Hs) in Ha. lia. }
    exists wr'. split; [done|]. intros s. rewrite H4, lookup_insert. case_decide as Hs.
    + subst s. rewrite Ev. cbn. rewrite less_less. f_equal. apply less_ext. intros i.
      rewrite task_uses_cons. fold shard. by rewrite String.eqb_refl.
    + destruct (wr !! s); [|done]. cbn. f_equal. apply less_ext. intros i.
      rewrite task_uses_cons. fold shard. by rewrite (proj2 (String.eqb_neq _ _) Hs).
  - rewrite use_nodes_unknown by done. cbn [mbind outcome_bind].
    assert (He : forall s v, wr !! s = Some v -> forall i, task_uses s (rt :: rts) i = task_uses s rts i).
    { intros s v Hv i. rewrite task_uses_cons. fold shard.
      by rewrite (proj2 (String.eqb_neq shard s)) by congruence. }
    destruct (IH wr Hns) as (wr' & H3 & H4).
    { intros s v Hv i n Hi. rewrite <- (He s v Hv). by apply (Ha s v Hv). }
    exists wr'. split; [done|]. intros s. rewrite H4. destruct (wr !! s) eqn:E; [|done]. cbn.
    f_equal. apply less_ext. intros i. by rewrite (He _ _ E).
Qed.

(** The vectors before running tasks are taken out. *)
Lemma capacities_ok def_resources cap workers (wr : WorkerResources) :
  NoDup (map bw_shard workers) ->
  (forall w, w ∈ workers -> worker_capacity config def_resources w = Ret (cap w)) ->
  exists wr', foldM (fun (wr : WorkerResources) w =>
      let* w_res := worker_capacity config def_resources w in
      Ret (<[bw_shard w := w_res]> wr)) wr workers = Ret wr' /\
    (forall w, w ∈ workers -> wr' !! bw_shard w = Some (cap w)) /\
    (forall s, s ∉ map bw_shard workers -> wr' !! s = wr !! s).
Proof.
  revert wr; induction workers as [|w workers IH]; intros wr Hnd Hcap.
  { exists wr. split; [done|]. split; [by intros w Hw%not_elem_of_nil|done]. }
  cbn in Hnd. apply NoDup_cons in Hnd as [Hw Hnd]. cbn [foldM].
  rewrite (Hcap w) by by left. cbn [mbind outcome_bind].
  destruct (IH (<[bw_shard w := cap w]> wr) Hnd) as (wr' & H1 & H2 & H3).
  { intros x Hx. apply Hcap. by right. }
  exists wr'. split; [done|]. split.
  - intros x [->|Hx]%elem_of_cons; [|by apply H2]. rewrite H3 by done. apply lookup_insert_eq.
  - intros s [Hs Hs']%not_elem_of_cons. rewrite H3 by done. by apply lookup_insert_ne.
Qed.

(** The result of [computeResources], for capacities that can afford what is
    running. *)
Lemma computeResources_ok level workers rts def_resources cap :
  resourcesByLevel (rc_tables config) !! level = Some def_resources ->
  NoDup (map bw_shard workers) ->
  (forall w, w ∈ workers -> worker_capacity config def_resources w = Ret (cap w)) ->
  (forall rt, rt ∈ rts -> nonneg_nodes (rt_nodeResources rt)) ->
  (forall w, w ∈ workers -> affords (cap w) (task_uses (bw_shard w) rts)) ->
  exists wr, computeResources config level workers rts = Ret wr /\
    (forall w, w ∈ workers -> wr !! bw_shard w = Some (less (cap w) (task_uses (bw_shard w) rts))) /\
    (forall s, s ∉ map bw_shard workers -> wr !! s = None).
Proof.
  intros Hd Hnd Hcap Hn Ha. unfold computeResources. rewrite Hd.
  destruct (capacities_ok def_resources cap workers ∅ Hnd Hcap) as (wr0 & H1 & H2 & H3).
  rewrite H1. cbn [mbind outcome_bind].
  destruct (use_tasks_ok rts wr0 Hn) as (wr & H4 & H5).
  { intros s v Hv. destruct (decide (s ∈ map bw_shard workers)) as [Hs|Hs].
    - apply list_elem_of_In, in_map_iff in Hs as (w & <- & Hw). apply list_elem_of_In in Hw.
      rewrite (H2 w Hw) in Hv. injection Hv as <-. by apply Ha.
    - by rewrite H3 in Hv. }
  exists wr. split; [done|]. split.
  - intros w Hw. by rewrite H5, (H2 w Hw).
  - intros s Hs. by rewrite H5, H3.
Qed.

End Accounting.

(** ** The capacity of a worker *)

Section Capacity.
Context (config : RunnerConfig) (w : BistroWorker).

(** The value the overrides give a resource: the last one wins. *)
Definition overridden (o : list (nat * Z)) (rid : nat) : option Z :=
  foldl (fun acc p => if (p.1 =? rid)%nat then Some p.2 else acc) None o.

Lemma overridden_app o p rid :
  overridden (o ++ [p]) rid = if (p.1 =? rid)%nat then Some p.2 else overridden o rid.
Proof. unfold overridden. by rewrite foldl_app. Qed.

Lemma overrides_ok o v :
  (forall p, p ∈ o -> (p.1 < length v)%nat) ->
  exists v', foldM apply_override v o = Ret v' /\ length v' = length v /\
    forall rid, (rid < length v)%nat ->
      v' !! rid = match overridden o rid with Some z => Some z | None => v !! rid end.
Proof.
  induction o as [|p o IH] using rev_ind; intros Hlt.
  { exists v. by split_and!. }
  destruct IH as (v1 & H1 & Hlen & H2); [intros q Hq; apply Hlt; set_solver|].
  rewrite foldM_app, H1. cbn. unfold apply_override. rewrite Hlen.
  rewrite (proj2 (Nat.ltb_lt _ _)) by (apply Hlt; set_solver). cbn. eexists.
  split; [reflexivity|]. split; [by rewrite length_insert|].
  intros rid Hrid. rewrite overridden_app. destruct (Nat.eqb_spec p.1 rid) as [<-|Hne].
  - apply list_lookup_insert_eq. lia.
  - rewrite list_lookup_insert_ne by done. by apply H2.
Qed.

(** What the worker measured of a physical resource. *)
Definition measured (prc : PhysicalResourceConfig) : outcome (option Z) :=
  physicalToLogicalResource prc
    match prc_physical prc with
    | RAM_MBYTES => memoryMB (bw_usableResources w)
    | CPU_CORES => cpuCores (bw_usableResources w)
    | GPU_CARDS => f_of (Z.of_nat (length (gpus (bw_usableResources w))))
    end.

(** The resource counts cards of one model. *)
Definition gpu_model (rid : nat) : Prop :=
  exists gpu, gpu ∈ gpus (bw_usableResources w) /\
    lookup_obj (resourceNames (rc_tables config)) (String.append "GPU: " (gpu_name gpu)) = Some rid.

(** The cards among [l] whose model is the resource. *)
Definition cards (l : list GPUInfo) (rid : nat) : Z :=
  Z.of_nat (length (List.filter (fun gpu => bool_decide (lookup_obj (resourceNames (rc_tables config))
    (String.append "GPU: " (gpu_name gpu)) = Some rid)) l)).

Lemma cards_cons gpu l rid :
  cards (gpu :: l) rid = cards l rid +
    if bool_decide (lookup_obj (resourceNames (rc_tables config)) (String.append "GPU: " (gpu_name gpu)) = Some rid)
    then 1 else 0.
Proof. unfold cards. cbn. case_bool_decide; cbn [length]; lia. Qed.

Lemma cards_nonneg l rid : 0 <= cards l rid.
Proof. unfold cards. lia. Qed.

(** The cards are counted up to the largest [int]. *)
Lemma count_gpus_exact l v rid n :
  v !! rid = Some n -> n <= INT32_MAX ->
  foldl (count_gpu config) v l !! rid = Some (Z.min INT32_MAX (n + cards l rid)).
Proof.
  revert v n; induction l as [|gpu l IH]; intros v n Hv Hn.
  { unfold cards. cbn. rewrite Hv. f_equal. lia. }
  cbn [foldl]. rewrite cards_cons. unfold count_gpu at 2. pose proof (cards_nonneg l rid) as Hc.
  destruct (lookup_obj _ _) as [r|]; [|rewrite bool_decide_false by done; rewrite Z.add_0_r; by apply IH].
  case_bool_decide as Hr.
  - injection Hr as ->. rewrite Hv. destruct (Z.eqb_spec n INT32_MAX) as [->|Hne].
    + rewrite (IH v INT32_MAX) by done. f_equal. lia.
    + rewrite (IH _ (n + 1)); [f_equal; lia| |lia]. apply list_lookup_insert_eq. by eapply lookup_lt_Some.
  - rewrite Z.add_0_r. destruct (v !! r) as [m|]; [|by apply IH]. case_match; [by apply IH|].
    apply IH; [|done]. rewrite list_lookup_insert_ne; [done|congruence].
Qed.

Lemma count_gpus_length l v : length (foldl (count_gpu config) v l) = length v.
Proof.
  revert v; induction l as [|gpu l IH]; intros v; [done|]. cbn [foldl]. rewrite IH.
  unfold count_gpu. repeat case_match; rewrite ?length_insert; done.
Qed.

(** What a physical resource makes of the amount [n] of a resource: what was
    measured if it stands for the resource, plus the cards of its model. *)
Definition physical_amount (rid : nat) (n : Z) (prc : PhysicalResourceConfig) : Z :=
  let n := match measured prc with
           | Ret (Some x) => if Z.of_nat rid =? prc_logicalResourceID prc then x else n
           | _ => n
           end in
  if bool_decide (prc_physical prc = GPU_CARDS) then Z.min INT32_MAX (n + cards (gpus (bw_usableResources w)) rid)
  else n.

Lemma measured_int prc x : measured prc = Ret (Some x) -> x <= INT32_MAX.
Proof.
  unfold measured, physicalToLogicalResource, INT32_MAX. intros H. repeat case_match; try done;
    injection H as <-; bprop; lia.
Qed.

Lemma physical_amount_int rid n prc : n <= INT32_MAX -> physical_amount rid n prc <= INT32_MAX.
Proof.
  intros Hn. unfold physical_amount. case_bool_decide; [lia|].
  destruct (measured prc) as [[x|]| | |] eqn:Hm; try done. apply measured_int in Hm. by destruct (_ =? _).
Qed.

Lemma apply_physical_ok v prc m :
  measured prc = Ret m -> 0 <= prc_logicalResourceID prc < Z.of_nat (length v) ->
  exists v', apply_physical config w v prc = Ret v' /\ length v' = length v /\
    forall rid n, v !! rid = Some n -> n <= INT32_MAX -> v' !! rid = Some (physical_amount rid n prc).
Proof.
  intros Hm Hid. unfold apply_physical, physical_amount. rewrite Hm. unfold measured in Hm. rewrite Hm.
  cbn [mbind outcome_bind].
  set (v1 := match m with Some x => <[Z.to_nat (prc_logicalResourceID prc) := x]> v | None => v end).
  assert (match m with
    | Some v2 => CHECK (0 <=? prc_logicalResourceID prc) "CHECK_GE(logicalResourceID, 0)" ;;;
        CHECK (prc_logicalResourceID prc <? Z.of_nat (length v)) "CHECK_LT(logicalResourceID)" ;;;
        Ret (<[Z.to_nat (prc_logicalResourceID prc) := v2]> v)
    | None => Ret v end = Ret v1) as ->.
  { unfold v1. destruct m; [|done]. rewrite !CHECK_true by lia. done. }
  cbn [mbind outcome_bind]. eexists. split; [reflexivity|].
  assert (Hv1 : length v1 = length v) by (unfold v1; destruct m; [apply length_insert|done]).
  split; [case_bool_decide; by rewrite ?count_gpus_length|]. intros rid n Hv Hn.
  set (n1 := match m with Some x => if Z.of_nat rid =? prc_logicalResourceID prc then x else n | None => n end).
  assert (H1 : v1 !! rid = Some n1).
  { unfold v1, n1. destruct m; [|done]. destruct (Z.eqb_spec (Z.of_nat rid) (prc_logicalResourceID prc)).
    - replace (Z.to_nat (prc_logicalResourceID prc)) with rid by lia.
      apply list_lookup_insert_eq. by eapply lookup_lt_Some.
    - rewrite list_lookup_insert_ne by lia. done. }
  assert (Hn1 : n1 <= INT32_MAX).
  { unfold n1. destruct m as [x|]; [|done]. destruct (_ =? _); [|done]. by apply (measured_int prc). }
  case_bool_decide; [|done]. by apply count_gpus_exact.
Qed.

Lemma physical_loop l v :
  (forall prc, prc ∈ l -> (exists m, measured prc = Ret m) /\
     0 <= prc_logicalResourceID prc < Z.of_nat (length v)) ->
  exists v', foldM (apply_physical config w) v l = Ret v' /\ length v' = length v /\
    forall rid n, v !! rid = Some n -> n <= INT32_MAX -> v' !! rid = Some (foldl (physical_amount rid) n l).
Proof.
  revert v; induction l as [|p l IH]; intros v Hl.
  { exists v. by split_and!. }
  destruct (Hl p (list_elem_of_here _ _)) as [[m Hm] Hid].
  destruct (apply_physical_ok v p m Hm Hid) as (v1 & H1 & Hlen & H2).
  destruct (IH v1) as (v' & H3 & Hlen' & H4).
  { intros q Hq. rewrite Hlen. apply Hl. by right. }
  cbn [foldM]. rewrite H1. cbn [mbind outcome_bind]. exists v'. split; [done|].
  split; [congruence|]. intros rid n Hv Hn. cbn [foldl]. apply H4; [by apply H2|by apply physical_amount_int].
Qed.

(** Without cards of the resource's model, the amount is what was measured for
    it, if anything was. *)
Lemma cards_none rid : ~ gpu_model rid -> cards (gpus (bw_usableResources w)) rid = 0.
Proof.
  unfold gpu_model, cards. induction (gpus (bw_usableResources w)) as [|gpu l IH]; intros Hg; [done|]. cbn.
  rewrite bool_decide_false; [apply IH; intros (g & ? & ?); apply Hg; exists g; split; [by right|done]|].
  intros E. apply Hg. exists gpu. split; [by left|done].
Qed.

Lemma physical_plain rid l n :
  ~ gpu_model rid -> n <= INT32_MAX -> NoDup (map prc_logicalResourceID l) ->
  foldl (physical_amount rid) n l =
    match List.find (fun p => prc_logicalResourceID p =? Z.of_nat rid) l with
    | Some prc => match measured prc with Ret (Some x) => x | _ => n end
    | None => n
    end.
Proof.
  intros Hg. revert n. induction l as [|p l IH]; intros n Hn Hnd; [done|]. cbn in Hnd.
  apply NoDup_cons in Hnd as [Hp Hnd]. cbn [foldl List.find].
  assert (Ep : physical_amount rid n p = match measured p with
    | Ret (Some x) => if Z.of_nat rid =? prc_logicalResourceID p then x else n | _ => n end).
  { pose proof (physical_amount_int rid n p Hn) as Hle. unfold physical_amount in *.
    rewrite (cards_none rid Hg), Z.add_0_r in *. case_bool_decide; [|done].
    apply Z.min_r. destruct (measured p) as [[x|]| | |] eqn:Hm; try done. apply measured_int in Hm. by destruct (_ =? _). }
  rewrite IH; [|by apply physical_amount_int|done]. rewrite Ep. clear Ep IH.
  destruct (Z.eqb_spec (prc_logicalResourceID p) (Z.of_nat rid)) as [E|E].
  - rewrite E, Z.eqb_refl. destruct (List.find _ l) as [q|] eqn:Ef; [|by destruct (measured p) as [[]| | |]].
    exfalso. apply List.find_some in Ef as [Hq Eq%Z.eqb_eq]. apply Hp. rewrite E, <- Eq.
    apply list_elem_of_In. by apply in_map.
  - assert ((Z.of_nat rid =? prc_logicalResourceID p) = false) as -> by lia.
    by destruct (measured p) as [[]| | |].
Qed.

End Capacity.

(** ** The theorem on [computeResources] *)

Section Compute.
Context (config : RunnerConfig) (def_resources : list Z).

Definition measured_for (w : BistroWorker) (rid : nat) : option Z :=
  match List.find (fun p => prc_logicalResourceID p =? Z.of_nat rid)
          (physicalResourceConfigs config) with
  | Some prc => match measured w prc with Ret m => m | _ => None end
  | None => None
  end.

(** An override, else the default as the physical resources change it. *)
Definition base_amount (w : BistroWorker) (rid : nat) : option Z :=
  match overridden (default [] (worker_override config w)) rid with
  | Some z => Some z
  | None => (fun n => foldl (physical_amount config w rid) n (physicalResourceConfigs config)) <$> def_resources !! rid
  end.
(** The same for a resource that is no model of a card of the worker: an
    override, else what was measured, else the default. *)
Definition plain_amount (w : BistroWorker) (rid : nat) : option Z :=
  match overridden (default [] (worker_override config w)) rid with
  | Some z => Some z
  | None => match measured_for w rid with Some x => Some x | None => def_resources !! rid end
  end.

(** What the parser of the configuration ensures, and that what the worker
    reports fits into an [int]. *)
Record config_fits (w : BistroWorker) : Prop := {
  cf_physical : forall prc, prc ∈ physicalResourceConfigs config ->
    (exists m, measured w prc = Ret m) /\
    0 <= prc_logicalResourceID prc < Z.of_nat (length def_resources);
  cf_distinct : NoDup (map prc_logicalResourceID (physicalResourceConfigs config));
  cf_overrides : forall p, p ∈ default [] (worker_override config w) ->
    (p.1 < length def_resources)%nat;
  cf_ints : Forall (fun n => n <= INT32_MAX) def_resources
}.

Lemma worker_capacity_ok w :
  config_fits w ->
  exists cap, worker_capacity config def_resources w = Ret cap /\
    length cap = length def_resources /\
    forall rid, (rid < length def_resources)%nat -> cap !! rid = base_amount w rid.
Proof.
  intros [Hp Hd Ho Hi]. unfold worker_capacity.
  destruct (physical_loop config w _ def_resources Hp) as (v & -> & Hlen & Hv).
  cbn [mbind outcome_bind].
  destruct (overrides_ok (default [] (worker_override config w)) v) as (cap & H1 & Hlen' & H2).
  { intros p. rewrite Hlen. apply Ho. }
  exists cap. split; [done|]. split; [congruence|]. intros rid Hr.
  rewrite H2 by lia. unfold base_amount. case_match; [done|].
  destruct (lookup_lt_is_Some_2 _ _ Hr) as [n Hn]. rewrite Hn. cbn. apply Hv; [done|].
  by eapply (Forall_lookup_1 _ _ _ _ Hi).
Qed.

Lemma base_plain w rid :
  config_fits w -> ~ gpu_model config w rid -> (rid < length def_resources)%nat ->
  base_amount w rid = plain_amount w rid.
Proof.
  intros [Hp Hd _ Hi] Hg Hr. unfold base_amount, plain_amount, measured_for. case_match; [done|].
  destruct (lookup_lt_is_Some_2 _ _ Hr) as [n Hn]. rewrite Hn. cbn.
  rewrite physical_plain; [|done|by eapply (Forall_lookup_1 _ _ _ _ Hi)|done].
  destruct (List.find _ _) as [prc|]; [|done]. by destruct (measured w prc) as [[]| | |].
Qed.

(** C27: [updateConfig] gives every worker, and no other shard, a vector of
    resources whose entry for each resource is what the configuration's
    override says, else its default as the physical resources change it in
    their order -- replaced by what was measured for it, and raised by one for
    each card of the worker whose model it is --, minus everything its running
    tasks recorded for that worker.  For a resource that is no model of a card
    this is the override, else what was measured, else the default.  There is
    no overflow, provided what the worker measured fits into an int, running
    tasks record no negative amounts and do not exceed a capacity by 2^31. *)
Theorem worker_resources_accounted level workers rts :
  resourcesByLevel (rc_tables config) !! level = Some def_resources ->
  NoDup (map bw_shard workers) -> (forall w, w ∈ workers -> config_fits w) ->
  (forall rt, rt ∈ rts -> nonneg_nodes (rt_nodeResources rt)) ->
  (forall w cap, w ∈ workers -> worker_capacity config def_resources w = Ret cap ->
     affords cap (task_uses config (bw_shard w) rts)) ->
  exists wr, computeResources config level workers rts = Ret wr /\
    (forall s, is_Some (wr !! s) <-> s ∈ map bw_shard workers) /\
    (forall w, w ∈ workers -> exists rv, wr !! bw_shard w = Some rv /\
       length rv = length def_resources /\
       forall rid, (rid < length def_resources)%nat ->
         rv !! rid = (fun n => n - task_uses config (bw_shard w) rts rid) <$> base_amount w rid /\
         (~ gpu_model config w rid -> base_amount w rid = plain_amount w rid)).
Proof.
  intros Hd Hnd Hfit Hn Ha.
  set (cap := fun w => match worker_capacity config def_resources w with Ret c => c | _ => [] end).
  assert (Hcap : forall w, w ∈ workers -> worker_capacity config def_resources w = Ret (cap w)).
  { intros w Hw. destruct (worker_capacity_ok w (Hfit w Hw)) as (c & Hc & _). unfold cap. by rewrite Hc. }
  destruct (computeResources_ok config level workers rts def_resources cap Hd Hnd Hcap Hn)
    as (wr & H1 & H2 & H3); [intros w Hw; apply Ha; auto|].
  exists wr. split; [done|]. split.
  - intros s. split; intros Hs.
    + destruct (decide (s ∈ map bw_shard workers)) as [|Hno]; [done|].
      rewrite H3 in Hs by done. by destruct Hs.
    + apply list_elem_of_In, in_map_iff in Hs as (w & <- & Hw%list_elem_of_In). rewrite H2; eauto.
  - intros w Hw. eexists. split; [by apply H2|].
    destruct (worker_capacity_ok w (Hfit w Hw)) as (c & Hc & Hlen & Hb).
    rewrite (Hcap w Hw) in Hc. injection Hc as Hc. rewrite Hc. split.
    + unfold less. by rewrite length_imap.
    + intros rid Hr. split; [by rewrite less_lookup, Hb|]. intros Hg. apply base_plain; auto.
Qed.

End Compute.

(** ** Samples *)

(** A worker level with slots and memory, the memory measured in MB and
    configured in GB. *)
Definition sample_gb : PhysicalResourceConfig :=
  mkPhysical RAM_MBYTES "mem_gb" 1 (f_of 1024) HARD (f_of 2048).
Definition sample_config : RunnerConfig :=
  mkRunnerConfig (parse_levels [])
    match parse_resources (parse_levels [])
      [("worker", [("slots", mkSpec (Int64 1) (Int64 4) Absent);
                   ("mem_gb", mkSpec (Int64 0) (Int64 1) Absent)])] with
    | Ret t => t
    | _ => newTables emptyTable
    end
    [sample_gb] {["mem_gb" := 0%nat]} {["host" := [(0%nat, 9)]]} RoundRobin 0.
Definition sample_big_worker : BistroWorker :=
  mkBistroWorker "w" (mkMachinePortLock "host" 1) (mkServiceAddress "host" 2) (mkInstanceID 1 1) 15
    kProtocolVersion (mkUsable 0 (f_of 8) (f_of 65536) []).
Definition sample_big_task : RunningTask :=
  mkRunningTask "job" "node"
    [mkNodeResources "node" [mkResource "slots" 3];
     mkNodeResources "w" [mkResource "slots" 2; mkResource "mem_gb" 5]]
    "w" (mkInstanceID 1 2) (mkBackoffDuration false 60) 0.

Lemma sample_fits w : w ∈ [sample_big_worker] -> config_fits sample_config [4; 1] w.
Proof.
  intros ->%list_elem_of_singleton. split.
  - intros prc ->%list_elem_of_singleton. split; [eexists; vm_compute; reflexivity|by vm_compute].
  - apply (bool_decide_unpack _). vm_compute. exact I.
  - intros p Hp. apply list_elem_of_In in Hp. vm_compute in Hp. destruct Hp as [<-|[]]. cbn. lia.
  - repeat constructor; by vm_compute.
Qed.

(** The worker has 9 slots by override and 62 GB by measurement. *)
Lemma worker_resources_accounted_witness :
  exists wr rv, computeResources sample_config 1 [sample_big_worker] [sample_big_task] = Ret wr /\
    wr !! "w" = Some rv /\ rv !! 0%nat = Some 7 /\ rv !! 1%nat = Some 57.
Proof.
  destruct (worker_resources_accounted sample_config [4; 1] 1 [sample_big_worker] [sample_big_task])
    as (wr & H1 & _ & H2).
  - reflexivity.
  - apply (bool_decide_unpack _). vm_compute. exact I.
  - exact sample_fits.
  - intros rt ->%list_elem_of_singleton nr Hnr r Hr.
    repeat (apply elem_of_cons in Hnr as [->|Hnr]; [cbn in Hr;
      repeat (apply elem_of_cons in Hr as [->|Hr]; [cbn; lia|]); by apply not_elem_of_nil in Hr|]).
    by apply not_elem_of_nil in Hnr.
  - intros w cap ->%list_elem_of_singleton Hc. vm_compute in Hc. injection Hc as <-.
    intros i n Hi. do 2 (destruct i as [|i]; [injection Hi as <-; by vm_compute|]). done.
  - destruct (H2 sample_big_worker (list_elem_of_here _ _)) as (rv & H3 & _ & H4).
    exists wr, rv. split; [done|]. split; [done|].
    split; (match goal with |- _ !! ?i = _ => destruct (H4 i) as [E1 E2] end;
      [cbn; lia|rewrite E1, E2; [reflexivity|by intros (gpu & ?%not_elem_of_nil & _)]]).
Defined.

(** A worker level that counts cards, and cards of one model: the worker has
    three cards, two of that model. *)
Definition sample_gpu_config : RunnerConfig :=
  mkRunnerConfig (parse_levels [])
    match parse_resources (parse_levels [])
      [("worker", [("cards", mkSpec (Int64 0) (Int64 0) Absent);
                   ("GPU: K80", mkSpec (Int64 0) (Int64 0) Absent)])] with
    | Ret t => t
    | _ => newTables emptyTable
    end
    [mkPhysical GPU_CARDS "cards" 0 (f_of 1) NONE (f_of 0)] {["cards" := 0%nat]} ∅ RoundRobin 0.
Definition sample_gpu_worker : BistroWorker :=
  mkBistroWorker "w" (mkMachinePortLock "host" 1) (mkServiceAddress "host" 2) (mkInstanceID 1 1) 15
    kProtocolVersion (mkUsable 0 (f_of 8) (f_of 65536)
      (map (fun name => mkGPUInfo name "" (f_of 0) (f_of 0)) ["K80"; "M40"; "K80"])).

Example cards_are_counted :
  computeResources sample_gpu_config 1 [sample_gpu_worker] [] = Ret {["w" := [3; 2]]} /\
  base_amount sample_gpu_config [0; 0] sample_gpu_worker 1 = Some 2 /\
  gpu_model sample_gpu_config sample_gpu_worker 1.
Proof.
  split; [vm_compute; reflexivity|]. split; [vm_compute; reflexivity|].
  exists (mkGPUInfo "K80" "" (f_of 0) (f_of 0)). split; [left|vm_compute; reflexivity].
Qed.

(** A task that reserves 3 GB, with 1024 MB to a GB, gets a cgroup whose
    memory limit is 3072 bytes: the number of megabytes is not converted. *)
Theorem memory_limit_in_megabytes :
  cgroup_limits sample_config [mkResource "mem_gb" 3] = Ret (mkLimits 0 3072).
Proof. vm_compute. reflexivity. Qed.
