(* ===== verification/Runner.v ===== *)
(** [runners/RemoteWorkerRunner.{h,cpp}] and [runners/TaskRunner.cpp]: the
    scheduler's task runner.  It picks workers for tasks, takes in the
    heartbeats and the status reports of the workers, and keeps two records
    of what is running: the tasks of every [RemoteWorker], and the scheduler's
    [TaskStatuses].

    Every operation below holds the lock on [workers_] from start to end,
    except where the code releases it: a heartbeat or a periodic check returns
    the update it made, and applying the update comes later.  Messages to
    workers are returned as [Request]s; each kind of reply has an operation. *)

From stdpp Require Import base gmap strings list.
From Stdlib Require Import ZArith Lia.
From S2P Require Import Prelude Thrift WorkerSet Dynamic Backoff TaskStatus SymbolTable.
From S2P Require Import Snapshot WorkerState RemoteWorker RemoteWorkers Scheduling Config Jobs.
From S2P Require Import Selectors Resources.

#[local] Open Scope Z_scope.

(** ** State *)

Record Runner := mkRunner {
  workers_ : RemoteWorkers;
  workerResources_ : WorkerResources;
  config_ : option RunnerConfig;
  workerLevel_ : option nat;
  taskStatuses_ : TaskStatuses;
  runner_inInitialWait : bool;
  runner_schedulerID : BistroInstanceID
}.

Definition set_workers (r : Runner) (rs : RemoteWorkers) : Runner :=
  mkRunner rs (workerResources_ r) (config_ r) (workerLevel_ r) (taskStatuses_ r)
    (runner_inInitialWait r) (runner_schedulerID r).
Definition set_statuses (r : Runner) (ts : TaskStatuses) : Runner :=
  mkRunner (workers_ r) (workerResources_ r) (config_ r) (workerLevel_ r) ts
    (runner_inInitialWait r) (runner_schedulerID r).
Definition set_resources (r : Runner) (wr : WorkerResources) : Runner :=
  mkRunner (workers_ r) wr (config_ r) (workerLevel_ r) (taskStatuses_ r)
    (runner_inInitialWait r) (runner_schedulerID r).

(** [RemoteWorkerRunner::RemoteWorkerRunner]. *)
Definition newRunner (now : Z) (scheduler_id : BistroInstanceID) (ts : TaskStatuses) : Runner :=
  mkRunner (newRemoteWorkers now scheduler_id) ∅ None None ts true scheduler_id.

(** The calls to workers that are handed to the event base. *)
Inductive Request :=
| ReqRunTask (worker : BistroWorker) (rt : RunningTask) (job_args : list (string * dynamic))
    (limits : CGroupLimits) (did_not_run_sequence_num : Z)
| ReqHealthcheck (worker : BistroWorker) (is_new_worker : bool)
| ReqSuicide (worker : BistroWorker)
| ReqNotifyIfTasksNotRunning (worker : BistroWorker) (tasks : list RunningTask)
| ReqGetRunningTasks (worker : BistroWorker).

Section Operations.
Context (flags : Flags) (wait_warnings : string).
Context (regex_search : string -> string -> bool) (hasher : string -> string -> Z).
Context (taskStore_ : option (string -> string -> TaskResult -> outcome unit)).
Context (statusObservers_ : list (RunningTask -> TaskStatus -> outcome unit)).

Definition record_status (r : Runner) (now : Z) (rt : RunningTask) (status : TaskStatus)
    : outcome Runner :=
  let* ts := ts_updateStatus taskStore_ statusObservers_ now (taskStatuses_ r) rt status in
  Ret (set_statuses r ts).

(** A change to one worker; the shard must be known. *)
Definition on_worker (r : Runner) (shard : string) (f : RemoteWorker -> outcome RemoteWorker)
    : outcome Runner :=
  let* w := mutableWorkerOrAbort (workerPool_ (workers_ r)) shard in
  let* w := f w in
  Ret (set_workers r (set_sets (workers_ r) (sets_ (workers_ r))
         (<[shard := w]> (workerPool_ (workers_ r))))).

(** ** [updateConfig] *)
Definition updateConfig (r : Runner) (config : RunnerConfig) : outcome Runner :=
  match lookup_obj (rc_levels config) "worker" with
  | None => Crash "CHECK(workerLevel_ != NotFound)"
  | Some level =>
      let* wr := computeResources config level
        (map (fun p => worker_ p.2) (map_to_list (workerPool_ (workers_ r))))
        (map snd (map_to_list (runningTasks_ (snapshot_ (taskStatuses_ r))))) in
      Ret (mkRunner (workers_ r) wr (Some config) (Some level) (taskStatuses_ r)
             (runner_inInitialWait r) (runner_schedulerID r))
  end.

(** ** Running a task *)

(** [TaskRunner::addNodeResourcesToRunningTask]. *)
Definition addNodeResourcesToRunningTask (t : ResourceTables) (rt : RunningTask)
    (resources_by_node : list (string * dynamic)) (node_name : string) (node_level : nat)
    (job_resources : list Z)
    : outcome (RunningTask * list (string * dynamic) * option NodeResources) :=
  match levelIDToResourceID t !! node_level with
  | None => Undef "levelIDToResourceID[node_level]"
  | Some [] => Ret (rt, resources_by_node, None)
  | Some rids =>
      let* rs := mapM (fun rid =>
        let* rsrc_name := lookup_id (resourceNames t) rid in
        match job_resources !! rid with
        | None => Undef "job_resources[resource_id]"
        | Some rsrc_val => Ret (mkResource rsrc_name rsrc_val)
        end) rids in
      let nr := mkNodeResources node_name rs in
      Ret (mkRunningTask (rt_job rt) (rt_node rt) (rt_nodeResources rt ++ [nr]) (rt_workerShard rt)
             (rt_invocationID rt) (rt_nextBackoffDuration rt) (rt_workerSuicideTaskKillWaitMs rt),
           assoc_set node_name
             (DObject (foldl (fun kvs r => assoc_set (res_name r) (DInt (res_amount r)) kvs) [] rs))
             resources_by_node,
           Some nr)
  end.

Definition set_shard (rt : RunningTask) (shard : string) : RunningTask :=
  mkRunningTask (rt_job rt) (rt_node rt) (rt_nodeResources rt) shard
    (rt_invocationID rt) (rt_nextBackoffDuration rt) (rt_workerSuicideTaskKillWaitMs rt).

(** The callback of [Bistro::scheduleOnce]. *)
Definition scheduler_cb (r : Runner) (now : Z) (job_id node_id : nat) (rt : RunningTask)
    (status : TaskStatus) : outcome Runner :=
  let* ts := noexcept (ts_updateStatus_ids taskStore_ statusObservers_ now (taskStatuses_ r)
                         job_id node_id rt status) in
  Ret (set_statuses r ts).

(** [RemoteWorkerRunner::runTaskImpl], up to the request to the worker. *)
Definition runTaskImpl (r : Runner) (now : Z) (job : Job) (node : Node) (rt : RunningTask)
    (job_args : list (string * dynamic))
    : outcome (Runner * list Request * TaskRunnerResponse) :=
  if runner_inInitialWait r then Ret (r, [], DoNotRunMoreTasks)
  else noexcept (
    match config_ r, workerLevel_ r with
    | None, _ => Crash "Cannot runTask before updateConfig"
    | _, None => Crash "updateConfig must always be invoked before runTask"
    | Some config, Some level =>
        let* (rs, wr, fd, response) :=
          findWorker regex_search hasher (remoteWorkerSelectorType config) (rc_tables config)
            job node level (workerResources_ r) (workers_ r) in
        let r := set_resources (set_workers r rs) wr in
        match response, fd with
        | RanTask, None => Undef "found_worker"
        | RanTask, Some (worker, did_not_run_sequence_num) =>
            let shard := bw_shard worker in
            let rt := set_shard rt shard in
            let job_args := assoc_set "worker_host" (DString (hostname (bw_machineLock worker)))
                              (assoc_set "worker_node" (DString shard) job_args) in
            match assoc "resources_by_node" job_args with
            | Some (DObject by_node) =>
                CHECK (negb (bool_decide (is_Some (assoc shard by_node))))
                  "Cannot have both a node and a worker with this name" ;;;
                let* (rt, by_node, nr) :=
                  addNodeResourcesToRunningTask (rc_tables config) rt by_node shard level
                    (resources_ job) in
                let job_args := assoc_set "resources_by_node" (DObject by_node) job_args in
                let* limits :=
                  match nr with
                  | Some nr => cgroup_limits config (nr_resources nr)
                  | None => Ret (mkLimits 0 0)
                  end in
                let status := running_data now (Some (DObject
                  [("shard", DString shard);
                   ("hostname", DString (hostname (bw_machineLock worker)));
                   ("port", DInt (lock_port (bw_machineLock worker)))])) in
                let* r := on_worker r shard (fun w => recordRunningTaskStatus w rt status) in
                let* r := scheduler_cb r now (job_id job) (node_id node) rt status in
                Ret (r, [ReqRunTask worker rt job_args limits did_not_run_sequence_num], RanTask)
            | _ => Throw "TypeError"
            end
        | _, _ => Ret (r, [], response)
        end
    end).

(** [TaskRunner::runTask]; [now] and [rnd] make the invocation ID. *)
Definition runTask (r : Runner) (now rnd : Z) (t : ResourceTables) (job : Job)
    (job_config : dynamic) (backoffSettings : JobBackoffSettings) (node : Node)
    (prev_status : option TaskStatus) : outcome (Runner * list Request * TaskRunnerResponse) :=
  let rt := mkRunningTask (job_name job) (node_name node) [] "" (mkInstanceID 0 0)
              (mkBackoffDuration false 0) 0 in
  noexcept (
    let* (rt, by_node) :=
      foldM (fun acc n =>
        let '(rt, by_node) := acc in
        let* (rt, by_node, _) :=
          addNodeResourcesToRunningTask t rt by_node (node_name n) (node_level n) (resources_ job) in
        Ret (rt, by_node)) (rt, []) (traverseUp node) in
    let job_args :=
      [("id", DString (job_name job));
       ("path_to_node", DArray (map DString (getPathToNode node)));
       ("config", job_config);
       ("resources_by_node", DObject by_node)] ++
      match prev_status with
      | Some st => [("prev_status", DObject (toDynamic st))]
      | None => []
      end in
    let* next := nextBackoffDuration_for backoffSettings prev_status in
    let rt := mkRunningTask (rt_job rt) (rt_node rt) (rt_nodeResources rt) (rt_workerShard rt)
                (mkInstanceID now rnd) next (workerSuicideTaskKillWaitMs flags) in
    runTaskImpl r now job node rt job_args).

(** *** Replies to [ReqRunTask] *)

(** The worker refused the task, or could not be reached. *)
Definition runTask_never_started (r : Runner) (now : Z) (worker : BistroWorker)
    (job_id node_id : nat) (rt : RunningTask) (msg : string) : outcome Runner :=
  noexcept (
    let status := neverStarted now msg in
    let* r := on_worker r (bw_shard worker) (fun w => recordFailedTask w rt status) in
    scheduler_cb r now job_id node_id rt status).

(** Any other error: the task may be running. *)
Definition runTask_unsure (r : Runner) (worker : BistroWorker) (rt : RunningTask)
    : outcome Runner :=
  noexcept (on_worker r (bw_shard worker) (fun w => addUnsureIfRunningTask w rt)).

(** ** Status reports *)

(** [remoteUpdateStatus]. *)
Definition remoteUpdateStatus (r : Runner) (now : Z) (rt : RunningTask) (status : TaskStatus)
    (scheduler_id worker_id : BistroInstanceID) : outcome Runner :=
  if negb (bool_decide (scheduler_id = runner_schedulerID r))
  then Throw "Got a status from a different scheduler"
  else
    match workerPool_ (workers_ r) !! rt_workerShard rt with
    | None => Throw "Unknown RemoteWorker"
    | Some w =>
        let* (w, accepted) := recordNonRunningTaskStatus w rt status worker_id in
        let r := set_workers r (set_sets (workers_ r) (sets_ (workers_ r))
                   (<[rt_workerShard rt := w]> (workerPool_ (workers_ r)))) in
        if (accepted : bool) then record_status r now rt status else Ret r
    end.

(** ** Heartbeats and periodic checks *)

Definition kHealthcheckTaskNewWorkerNode : string := "__NEW_WORKER__".
(** The task of [sendWorkerHealthcheck]. *)
Definition sendWorkerHealthcheck (now : Z) (w : BistroWorker) (is_new_worker : bool) : RunningTask :=
  mkRunningTask kHealthcheckTaskJob (if is_new_worker then kHealthcheckTaskNewWorkerNode else "") []
    (bw_shard w) (mkInstanceID now 0) (mkBackoffDuration false 0) 0.

(** [kSafeBackoffSec]; the sum is exact here, an [int32_t] in the code. *)
Definition kSafeBackoffSec (rt : RunningTask) : Z :=
  workerSuicideBackoffSafetyMarginSec flags
  + Z.quot (if rt_workerSuicideTaskKillWaitMs rt =? 0 then workerSuicideTaskKillWaitMs flags
            else rt_workerSuicideTaskKillWaitMs rt) 1000 + 1.

(** [applyUpdate], one lost task. *)
Definition apply_lost (r : Runner) (now : Z) (rt : RunningTask) : outcome Runner :=
  let next := rt_nextBackoffDuration rt in
  let tweaked_rt :=
    if seconds next <? kSafeBackoffSec rt
    then mkRunningTask (rt_job rt) (rt_node rt) (rt_nodeResources rt) (rt_workerShard rt)
           (rt_invocationID rt) (mkBackoffDuration (noMoreBackoffs next) (kSafeBackoffSec rt))
           (rt_workerSuicideTaskKillWaitMs rt)
    else rt in
  record_status r now tweaked_rt (workerLost now (rt_workerShard rt) (seconds next)).

(** What [applyUpdate] sends before and after it updates lost tasks. *)
Definition requests_of (u : RemoteWorkerUpdate) : list Request :=
  map (fun p => ReqSuicide p.2) (map_to_list (suicideWorkers_ u)) ++
  map (fun p => ReqHealthcheck p.2 (bool_decide (is_Some (newWorkers_ u !! p.1))))
    (map_to_list (workersToHealthcheck_ u)) ++
  map (fun p => ReqNotifyIfTasksNotRunning p.2.1 p.2.2) (map_to_list (unsureChecks_ u)).
Definition fetchRunningTasksForNewWorkers (u : RemoteWorkerUpdate) : list Request :=
  map (fun p => ReqGetRunningTasks p.2) (map_to_list (newWorkers_ u)).

(** [applyUpdate]. *)
Definition applyUpdate (r : Runner) (now : Z) (u : RemoteWorkerUpdate)
    : outcome (Runner * list Request) :=
  let* r := foldM (fun r p => apply_lost r now p.2) r (map_to_list (lostRunningTasks_ u)) in
  Ret (r, requests_of u ++ fetchRunningTasksForNewWorkers u).

(** [processWorkerHeartbeat], the part under the lock. *)
Definition heartbeat_locked (r : Runner) (now : Z) (worker : BistroWorker)
    (worker_set_id : WorkerSetID)
    : outcome (Runner * RemoteWorkerUpdate * option SchedulerHeartbeatResponse) :=
  let* (rs, u, response) :=
    rws_processHeartbeat flags (workers_ r) (newUpdate now) worker worker_set_id in
  Ret (set_workers r rs, u, response).

(** [processWorkerHeartbeat].  The reply carries the scheduler's ID; [None]
    is the [runtime_error] that is thrown once the update has been applied. *)
Definition processWorkerHeartbeat (r : Runner) (now : Z) (worker : BistroWorker)
    (worker_set_id : WorkerSetID)
    : outcome (Runner * list Request * option (SchedulerHeartbeatResponse * BistroInstanceID)) :=
  let* (r, u, response) := heartbeat_locked r now worker worker_set_id in
  let* (r, reqs) := applyUpdate r now u in
  Ret (r, reqs, (fun response => (response, runner_schedulerID r)) <$> response).

(** The thread that checks the workers, the part under the lock and the end
    of the initial wait. *)
Definition check_workers_locked (r : Runner) (now : Z) : outcome (Runner * RemoteWorkerUpdate) :=
  let* (rs, u) := rws_updateState flags wait_warnings (workers_ r) (newUpdate now) in
  let '(rs, u) :=
    match config_ r with
    | Some config =>
        if negb (bool_decide (initialWaitMessage_ u = ""))
           && (curTime_ u <? exitInitialWaitBeforeTimestamp config)
        then (mkRemoteWorkers false (startTime_ rs) (sets_ rs) (workerPool_ rs) (pool_nextShard rs)
                (hostToWorkerPool_ rs), setInitialWaitMessage u "")
        else (rs, u)
    | None => (rs, u)
    end in
  Ret (mkRunner rs (workerResources_ r) (config_ r) (workerLevel_ r) (taskStatuses_ r)
         (runner_inInitialWait r && negb (bool_decide (initialWaitMessage_ u = "")))
         (runner_schedulerID r), u).
Definition check_workers (r : Runner) (now : Z) : outcome (Runner * list Request) :=
  let* (r, u) := check_workers_locked r now in applyUpdate r now u.

(** *** Replies to the requests of an update *)

(** [getRunningTasks] returned. *)
Definition gotRunningTasks (r : Runner) (now : Z) (worker : BistroWorker)
    (running_tasks : list RunningTask) : outcome Runner :=
  let* rs := rws_initializeRunningTasks (workers_ r) worker running_tasks in
  foldM (fun r rt => record_status r now rt (running now)) (set_workers r rs) running_tasks.

(** [checkUnsureIfRunningTasks], when the event base runs it: the sequence
    number that is sent along. *)
Definition send_notify (r : Runner) (worker : BistroWorker) : outcome (Runner * Z) :=
  let* w := mutableWorkerOrAbort (workerPool_ (workers_ r)) (bw_shard worker) in
  let '(w, n) := calledNotifyIfTasksNotRunning w in
  Ret (set_workers r (set_sets (workers_ r) (sets_ (workers_ r))
         (<[bw_shard worker := w]> (workerPool_ (workers_ r)))), n).

(** [notifyIfTasksNotRunning] returned. *)
Definition notified (r : Runner) (worker : BistroWorker) (tasks : list RunningTask)
    : outcome Runner :=
  on_worker r (bw_shard worker) (fun w => eraseUnsureIfRunningTasks w tasks).

(** [killTask]: the worker to ask. *)
Definition killTask (r : Runner) (rt : RunningTask) : outcome BistroWorker :=
  match workerPool_ (workers_ r) !! rt_workerShard rt with
  | None => Throw "Could not get worker"
  | Some w => Ret (worker_ w)
  end.

End Operations.
