(* ===== verification/RunnerStories.v ===== *)
(** Runs of the remote worker runner from a new scheduler on: two workers
    connect, become healthy and run a task.  Two of the runs end the process:
    a report, and an error reply, that arrive later than the code expects. *)

From stdpp Require Import base gmap strings list.
From Stdlib Require Import ZArith QArith.
From S2P Require Import Prelude Thrift WorkerSet Dynamic Backoff TaskStatus SymbolTable.
From S2P Require Import Snapshot WorkerState RemoteWorker RemoteWorkers Scheduling Config Jobs.
From S2P Require Import Selectors Resources Runner.

#[local] Open Scope Z_scope.

(** The defaults, but a worker is lost soon after it becomes unhealthy. *)
Definition story_flags : Flags := mkFlags 60 60 60 1 5 60 5000 false 1 (-1).
Definition story_sched : BistroInstanceID := mkInstanceID 90 4.
Definition story_worker (shard : string) (start : Z) : BistroWorker :=
  mkBistroWorker shard (mkMachinePortLock shard 1) (mkServiceAddress shard 2)
    (mkInstanceID start 1) 15 kProtocolVersion noUsableResources.
Definition worker_a : BistroWorker := story_worker "a" 50.
Definition worker_b : BistroWorker := story_worker "b" 51.

(** One job, one node, and one slot per worker. *)
Definition story_statuses : TaskStatuses :=
  mkTaskStatuses emptySnapshot (mkNames (tableOf ["job"]) (tableOf ["leaf"])) [].
Definition story_tables : ResourceTables :=
  match parse_resources (parse_levels []) [("worker", [("slots", plain_spec 1 1)])] with
  | Ret t => t
  | _ => newTables emptyTable
  end.
(** The administrator ends the initial wait. *)
Definition story_config : RunnerConfig :=
  mkRunnerConfig (parse_levels []) story_tables [] ∅ ∅ RoundRobin 1000.
Definition story_job : Job :=
  mkJob 0 "job" true true 0 1%Q [1] [noFilters; noFilters] None "" [].
Definition story_node : Node := mkNode 0 "leaf" 0 true None [] 0.

Definition report_from (r : Runner) (t : Z) (w : BistroWorker) (rt : RunningTask) (st : TaskStatus)
    : outcome Runner :=
  remoteUpdateStatus None [] r t rt st story_sched (bw_id w).

(** A heartbeat with the worker set the worker knows; the set of the reply. *)
Definition beat (r : Runner) (t : Z) (w : BistroWorker) (id : WorkerSetID)
    : outcome (Runner * WorkerSetID) :=
  let* (r, _, resp) := processWorkerHeartbeat story_flags None [] r t w id in
  match resp with
  | Some (resp, _) =>
      match hr_workerSetID resp with Some id => Ret (r, id) | None => Throw "no worker set" end
  | None => Throw "rejected"
  end.
Definition old_set : WorkerSetID := mkWorkerSetID (mkInstanceID 1 1) 1 emptyWorkerSetHash.

(** First heartbeat, no running tasks, a good healthcheck, second heartbeat. *)
Definition connect (r : Runner) (t : Z) (w : BistroWorker) : outcome (Runner * WorkerSetID) :=
  let* (r, id) := beat r t w old_set in
  let* r := gotRunningTasks None [] r t w [] in
  let* r := report_from r t w (sendWorkerHealthcheck t w true) (done_now t) in
  beat r t w id.
Definition check_now (r : Runner) (t : Z) : outcome Runner :=
  let* (r, _) := check_workers story_flags "" None [] r t in Ret r.

(** Both workers are healthy and the initial wait is over. *)
Definition two_workers : outcome (Runner * WorkerSetID) :=
  let r := newRunner 100 story_sched story_statuses in
  let* (r, _) := connect r 100 worker_a in
  let* (r, id) := connect r 101 worker_b in
  let* (r, _) := beat r 102 worker_a id in
  let* (r, _) := beat r 103 worker_b id in
  let* (r, _) := beat r 104 worker_a id in
  let* r := check_now r 105 in
  let* r := updateConfig r story_config in
  let* r := check_now r 106 in
  Ret (r, id).

Definition run_job (r : Runner) (t : Z) : outcome (Runner * list Request * TaskRunnerResponse) :=
  runTask story_flags no_regex no_hash None [] r t t story_tables story_job DNull
    (mkBackoff [15; 30] true) story_node (view (rows_ (snapshot_ (taskStatuses_ r))) 0 0).

(** The worker and the record of the task that was asked for. *)
Definition run_job_on (r : Runner) (t : Z) : outcome (Runner * BistroWorker * RunningTask) :=
  let* (r, reqs, _) := run_job r t in
  match reqs with
  | [ReqRunTask w rt _ _ _] => Ret (r, w, rt)
  | _ => Throw "not started"
  end.

(** ** A report from a worker that was given up *)

(** The worker that runs the task is cut off and lost; its task is started
    again on the other worker. *)
Definition restarted : outcome (Runner * BistroWorker * RunningTask) :=
  let* (r, id) := two_workers in
  let* (r, w, rt) := run_job_on r 107 in
  let other := if bool_decide (w = worker_a) then worker_b else worker_a in
  let* r := report_from r 300 other (sendWorkerHealthcheck 300 other false) (done_now 300) in
  let* (r, id) := beat r 300 other id in
  let* r := check_now r 300 in
  let* r := check_now r 302 in
  let* (r, _) := beat r 370 other id in
  let* r := updateConfig r story_config in
  let* (r, _, _) := run_job_on r 370 in
  Ret (r, w, rt).

(** When the connection to a lost worker heals after its task was
    started elsewhere, the final status it still reports for its own
    invocation of the task ends the scheduler: the worker's record accepts the
    report, since it has forgotten the task, and the invocation check of
    [TaskStatuses] fails. *)
Theorem late_report_aborts :
  exists r w rt, restarted = Ret (r, w, rt) /\
    report_from r 371 w rt (done_now 371)
      = Crash "Cannot updateStatus since the invocation IDs don't match".
Proof.
  assert (H : match restarted with
    | Ret (r, w, rt) => match report_from r 371 w rt (done_now 371) with
        | Crash m => String.eqb m "Cannot updateStatus since the invocation IDs don't match"
        | _ => false end
    | _ => false end = true) by (vm_compute; reflexivity).
  destruct restarted as [[[r w] rt]| | |]; [|done..]. exists r, w, rt. split; [done|].
  destruct (report_from r 371 w rt (done_now 371)); try done. by apply String.eqb_eq in H as ->.
Qed.

(** ** An error reply for a worker that was replaced *)

(** The worker restarts while the call that started the task is pending. *)
Definition replaced : outcome (Runner * BistroWorker * RunningTask * BistroWorker) :=
  let* (r, id) := two_workers in
  let* (r, w, rt) := run_job_on r 107 in
  let w' := story_worker (bw_shard w) 110 in
  let* (r, _) := beat r 111 w' id in
  Ret (r, w, rt, w').

(** If a worker restarts and the error of the pending [runTask] call to
    its old instance comes after the first heartbeat of the new one, the task
    is filed as "unsure" with the new instance; the reply to the first
    [getRunningTasks] then finds that instance with an unsure task and ends
    the scheduler. *)
Theorem late_error_aborts :
  exists r w rt w' r2, replaced = Ret (r, w, rt, w') /\ runTask_unsure r w rt = Ret r2 /\
    gotRunningTasks None [] r2 112 w' [] = Crash "expected 0 unsure tasks".
Proof.
  assert (H : match replaced with
    | Ret (r, w, rt, w') => match runTask_unsure r w rt with
        | Ret r2 => match gotRunningTasks None [] r2 112 w' [] with
            | Crash m => String.eqb m "expected 0 unsure tasks" | _ => false end
        | _ => false end
    | _ => false end = true) by (vm_compute; reflexivity).
  destruct replaced as [[[[r w] rt] w']| | |]; [|done..].
  destruct (runTask_unsure r w rt) as [r2| | |] eqn:E; [|done..].
  exists r, w, rt, w', r2. split; [done|]. split; [done|].
  destruct (gotRunningTasks None [] r2 112 w' []); try done. by apply String.eqb_eq in H as ->.
Qed.
