(* ===== verification/RunnerSafety.v ===== *)
(** The two records of running tasks agree: the tasks of the [RemoteWorker]s
    and the running tasks of [TaskStatuses], across every interleaving of
    heartbeats, periodic checks, status reports, replies and newly started
    tasks -- as long as reports of one invocation of a task do not outlive it. *)

From stdpp Require Import base gmap strings list.
From Stdlib Require Import ZArith Lia.
From S2P Require Import Prelude Thrift WorkerSet Dynamic Backoff TaskStatus SymbolTable.
From S2P Require Import Snapshot WorkerState RemoteWorker RemoteWorkers Scheduling Config Jobs.
From S2P Require Import Selectors Resources Runner RunnerStories.

#[local] Open Scope Z_scope.

Abbreviation task_map := (gmap (string * string) RunningTask).

(** ** How workers lose tasks *)

(** The tasks of every worker. *)
Definition tasks_of (pool : gmap string RemoteWorker) : gmap string task_map :=
  rw_runningTasks <$> pool.

(** Workers are lost, or replaced, or new: the tasks of a worker move to the
    lost tasks of the update. *)
Inductive loses : gmap string task_map * task_map -> gmap string task_map * task_map -> Prop :=
| loses_refl x : loses x x
| loses_one T L s m x : T !! s = Some m -> loses (<[s := ∅]> T, L ∪ m) x -> loses (T, L) x
| loses_new T L s x : T !! s = None -> loses (<[s := ∅]> T, L) x -> loses (T, L) x.
#[local] Hint Constructors loses : core.

Lemma loses_trans x y z : loses x y -> loses y z -> loses x z.
Proof. induction 1; eauto. Qed.

(** What one worker and the update become. *)
Definition moved (u : RemoteWorkerUpdate) (w : RemoteWorker) (u' : RemoteWorkerUpdate)
    (w' : RemoteWorker) : Prop :=
  rw_runningTasks w' = rw_runningTasks w /\ lostRunningTasks_ u' = lostRunningTasks_ u \/
  rw_runningTasks w' = ∅ /\ lostRunningTasks_ u' = lostRunningTasks_ u ∪ rw_runningTasks w.

Lemma moved_loses pool s w u u' w' :
  pool !! s = Some w -> moved u w u' w' ->
  loses (tasks_of pool, lostRunningTasks_ u) (tasks_of (<[s := w']> pool), lostRunningTasks_ u').
Proof.
  intros Hw Hm. unfold tasks_of. rewrite fmap_insert.
  assert (Hs : (rw_runningTasks <$> pool) !! s = Some (rw_runningTasks w))
    by (by rewrite lookup_fmap, Hw).
  destruct Hm as [[-> ->]|[-> ->]]; [|eapply loses_one; eauto]. rewrite insert_id by done. auto.
Qed.

Lemma lose_tasks_union u w :
  lostRunningTasks_ (loseRunningTasks u w).1 = lostRunningTasks_ u ∪ rw_runningTasks w.
Proof.
  apply map_eq. intros k. rewrite loseRunningTasks_lost, lookup_union.
  destruct (lostRunningTasks_ u !! k), (rw_runningTasks w !! k); done.
Qed.

Section Worker.
Context {E : Type} `{WorkerCobs E} (flags : Flags).

Lemma updateState_moved e u w permits e' u' w' :
  updateState flags e u w permits = Ret (e', u', w') -> moved u w u' w'.
Proof.
  unfold updateState. case_bool_decide; [intros [= <- <- <-]; by left|].
  set (ns := (rw_computeState flags w (curTime_ u) permits).1).
  set (u1 := if bool_decide (ns = NEW) then _ else _).
  assert (Hu1 : lostRunningTasks_ u1 = lostRunningTasks_ u) by (unfold u1; by case_bool_decide).
  set (w1 := if _ && _ then _ else w).
  assert (Hw1 : rw_runningTasks w1 = rw_runningTasks w) by (unfold w1; by destruct (_ && _)).
  clearbody u1 w1. case_bool_decide.
  - intros Hr. apply bind_Ret_iff in Hr as (e1 & _ & Hr).
    pose proof (lose_tasks_union (requestSuicide u1 (worker_ w1)) w1) as Hl.
    assert (Hw : (loseRunningTasks (requestSuicide u1 (worker_ w1)) w1).2 = set_tasks w1 ∅ ∅) by done.
    destruct (loseRunningTasks _ w1) as [u2 w2]. cbn in Hl, Hw. subst w2.
    injection Hr as _ <- <-. right. split; [done|]. rewrite Hl. congruence.
  - pose proof (send_checks_same flags u1 (setState w1 ns)) as Hs.
    destruct (send_checks flags u1 (setState w1 ns)) as [u2 w2].
    destruct Hs as (_ & Hl & _ & _ & _ & Hr & _). intros [= <- <- <-]. left.
    split; [rewrite Hr; done|congruence].
Qed.

Lemma makeWorker_fresh e t bw id sched e' w' :
  makeWorker e t bw id sched = Ret (e', w') -> rw_runningTasks w' = ∅.
Proof.
  unfold makeWorker. intros Hr. apply bind_Ret_iff in Hr as (e1 & _ & Hr). by injection Hr as _ <-.
Qed.

(** A fresh worker replaces the old one. *)
Lemma updateNewWorker_moved e u w w_new id e' u' w' :
  updateNewWorker flags e u w w_new id = Ret (e', u', w') -> moved u w u' w'.
Proof.
  unfold updateNewWorker. intros Hr. apply bind_Ret_iff in Hr as (e1 & _ & Hr).
  pose proof (lose_tasks_union u w) as Hl.
  destruct (loseRunningTasks u w) as [u1 w1]. cbn [fst] in Hl.
  apply bind_Ret_iff in Hr as ([e2 w2] & Hm & Hr). apply makeWorker_fresh in Hm.
  apply updateState_moved in Hr. right. destruct Hr as [[H1 H2]|[H1 H2]];
    cbn in H1, H2; rewrite H1, H2, ?Hm, ?Hl, ?(right_id_L ∅ (∪)); done.
Qed.
End Worker.

Section Pool.
Context (flags : Flags).

Lemma indirect_tasks s w id s' w' :
  updateIndirectWorkerSetVersion s w id = Ret (s', w') -> rw_runningTasks w' = rw_runningTasks w.
Proof.
  unfold updateIndirectWorkerSetVersion. intros Hr. apply bind_Ret_iff in Hr as (? & _ & Hr).
  apply bind_Ret_iff in Hr as (b & _ & Hr). destruct b; [by injection Hr as _ <-|].
  do 2 apply bind_Ret_iff in Hr as (? & _ & Hr). by injection Hr as _ <-.
Qed.

Lemma change_tasks s w id s' w' :
  onWorkerSetIDChange s w id = Ret (s', w') -> rw_runningTasks w' = rw_runningTasks w.
Proof.
  unfold onWorkerSetIDChange. intros Hr. apply bind_Ret_iff in Hr as (? & _ & Hr).
  by apply indirect_tasks in Hr.
Qed.

Lemma echo_tasks (s : WorkerSets) w id s' w' :
  echoWorkerSetID s w id = Ret (s', w') -> rw_runningTasks w' = rw_runningTasks w.
Proof.
  unfold echoWorkerSetID. case_bool_decide; [|intros Hr; by injection Hr as _ <-].
  intros Hr. apply bind_Ret_iff in Hr as (b & _ & Hr). destruct b; [by injection Hr as _ <-|].
  apply bind_Ret_iff in Hr as (b & _ & Hr). destruct b.
  - apply bind_Ret_iff in Hr as ([s1 w1] & Hc & Hr). apply change_tasks in Hc.
    apply bind_Ret_iff in Hr as (f & _ & Hr). injection Hr as _ <-. done.
  - destruct (workerSetID_ w); [|done]. case_match; [|by injection Hr as _ <-].
    apply bind_Ret_iff in Hr as (? & _ & Hr). by injection Hr as _ <-.
Qed.

Lemma heartbeat_moved (s : WorkerSets) u w w_new id permits s' u' w' resp :
  processHeartbeat flags s u w w_new id permits = Ret (s', u', w', resp) -> moved u w u' w'.
Proof.
  unfold processHeartbeat. intros Hr. apply bind_Ret_iff in Hr as (? & _ & Hr).
  assert (Hreply : forall m, (let* (e, u, w) := m in
      Ret (e, u, w, Some (getHeartbeatResponse flags (rw_state w)))) = Ret (s', u', w', resp) ->
    m = Ret (s', u', w')).
  { intros m Hm. apply bind_Ret_iff in Hm as ([[a b] c] & -> & Hm). by injection Hm as <- <- <- _. }
  case_bool_decide; cbn [negb] in Hr.
  - case_bool_decide; cbn [negb] in Hr.
    + apply Hreply in Hr. unfold updateCurrentWorker in Hr.
      apply bind_Ret_iff in Hr as ([s1 w1] & He & Hr). apply echo_tasks in He. cbn in He.
      apply updateState_moved in Hr. unfold moved in *. cbn in Hr. rewrite He in Hr.
      by destruct (bool_decide (getState w = MUST_DIE)).
    + case_match; [injection Hr as <- <- <- _; by left|].
      apply Hreply, updateNewWorker_moved in Hr. done.
  - case_bool_decide; [by apply Hreply, updateNewWorker_moved in Hr|].
    case_match; [by apply Hreply, updateNewWorker_moved in Hr|].
    injection Hr as <- <- <- _. by left.
Qed.

Lemma host_tasks_erase rs h s rs' : host_erase rs h s = Ret rs' -> workerPool_ rs' = workerPool_ rs.
Proof.
  unfold host_erase, mutableHostWorkerPool. destruct (hostToWorkerPool_ rs !! h);
    intros Hr; apply bind_Ret_iff in Hr as (? & _ & Hr); by injection Hr as <-.
Qed.
Lemma host_tasks_emplace rs h s rs' : host_emplace rs h s = Ret rs' -> workerPool_ rs' = workerPool_ rs.
Proof.
  unfold host_emplace, mutableHostWorkerPool. destruct (hostToWorkerPool_ rs !! h);
    intros Hr; apply bind_Ret_iff in Hr as (? & _ & Hr); by injection Hr as <-.
Qed.

(** A heartbeat moves tasks only from workers to the update. *)
Lemma rws_heartbeat_loses rs u worker id rs' u' resp :
  rws_processHeartbeat flags rs u worker id = Ret (rs', u', resp) ->
  loses (tasks_of (workerPool_ rs), lostRunningTasks_ u)
        (tasks_of (workerPool_ rs'), lostRunningTasks_ u').
Proof.
  unfold rws_processHeartbeat. intros Hr. apply bind_Ret_iff in Hr as (? & _ & Hr).
  apply bind_Ret_iff in Hr as ([rs1 w] & Hfind & Hr).
  assert (H1 : workerPool_ rs1 !! bw_shard worker = Some w /\
    loses (tasks_of (workerPool_ rs), lostRunningTasks_ u)
          (tasks_of (workerPool_ rs1), lostRunningTasks_ u)).
  { destruct (workerPool_ rs !! bw_shard worker) as [w0|] eqn:Ew;
      [injection Hfind as <- <-; auto|].
    apply bind_Ret_iff in Hfind as ([s0 w0] & Hm & Hfind). apply makeWorker_fresh in Hm.
    apply bind_Ret_iff in Hfind as (rs0 & Hh & Hfind). injection Hfind as <- <-.
    apply host_tasks_emplace in Hh. rewrite Hh. cbn. split; [apply lookup_insert_eq|].
    unfold tasks_of. rewrite fmap_insert, Hm. eapply loses_new; [|auto].
    by rewrite lookup_fmap, Ew. }
  destruct H1 as [Hw H1].
  apply bind_Ret_iff in Hr as (b & _ & Hr).
  apply bind_Ret_iff in Hr as ([[[s2 u2] w2] r2] & Hp & Hr). apply heartbeat_moved in Hp.
  apply bind_Ret_iff in Hr as (rs2 & Hh & Hr). injection Hr as <- <- _.
  assert (workerPool_ rs2 = <[bw_shard worker := w2]> (workerPool_ rs1)) as ->.
  { destruct (negb _) in Hh; [|injection Hh as <-; done].
    apply bind_Ret_iff in Hh as (rs3 & H3 & H4).
    apply host_tasks_erase in H3. apply host_tasks_emplace in H4. by rewrite H4, H3. }
  eapply loses_trans; [exact H1|]. by eapply moved_loses.
Qed.

Lemma propagate_inner_tasks fuel hv s pool vss it s' pool' vss' it' :
  propagate_inner fuel hv s pool vss it = Ret (s', pool', vss', it') -> tasks_of pool' = tasks_of pool.
Proof.
  revert s pool vss it; induction fuel as [|fuel IH]; intros s pool vss it; cbn.
  { destruct it; [done|]. intros Hr. by injection Hr as _ <- _ _. }
  destruct it as [x|]; [|intros Hr; by injection Hr as _ <- _ _].
  intros Hr. apply bind_Ret_iff in Hr as (later & _ & Hr).
  destruct later; [by injection Hr as _ <- _ _|].
  destruct (list.last vss) as [top|]; [|done].
  do 6 apply bind_Ret_iff in Hr as (? & _ & Hr).
  apply bind_Ret_iff in Hr as (w & Hw & Hr).
  destruct (indirectWorkerSetID_ w) as [id|]; [|done].
  do 4 apply bind_Ret_iff in Hr as (? & _ & Hr).
  apply bind_Ret_iff in Hr as ([s1 w1] & Hu & Hr). apply bind_Ret_iff in Hr as (? & _ & Hr).
  apply IH in Hr. apply indirect_tasks in Hu. rewrite Hr. unfold tasks_of.
  rewrite fmap_insert, Hu. apply insert_id. rewrite lookup_fmap.
  unfold mutableWorkerOrAbort, CHECK_Some in Hw. destruct (pool !! x.2) as [w0|]; [|done].
  injection Hw as <-. done.
Qed.

Lemma propagate_tasks s pool s' pool' :
  propagateIndirectWorkerSets s pool = Ret (s', pool') -> tasks_of pool' = tasks_of pool.
Proof.
  unfold propagateIndirectWorkerSets. intros Hr.
  apply bind_Ret_iff in Hr as ([[[s1 pool1] vss] it] & Hf & Hr).
  apply bind_Ret_iff in Hr as (? & _ & Hr). injection Hr as _ <-.
  apply (foldM_inv (fun acc => tasks_of acc.1.1.2 = tasks_of pool)) in Hf; [done| |done].
  intros hp [[[s2 pool2] vss2] it2] [[[s3 pool3] vss3] it3] _ Hinv Hstep. cbn [fst snd] in *.
  destruct it2 as [y|]; [|by injection Hstep as _ <- _ _].
  do 3 apply bind_Ret_iff in Hstep as (? & _ & Hstep).
  apply propagate_inner_tasks in Hstep. congruence.
Qed.

Lemma update_loop_loses l s u pool s' u' pool' :
  NoDup l.*1 -> (forall p, p ∈ l -> pool !! p.1 = Some p.2) ->
  foldM (fun acc p =>
    let '(s, u, pool) := acc in
    let* permits := consensusPermitsBecomingHealthy s p.2 in
    let* (s, u, w) := updateState flags s u p.2 permits in
    Ret (s, u, <[p.1 := w]> pool)) (s, u, pool) l = Ret (s', u', pool') ->
  loses (tasks_of pool, lostRunningTasks_ u) (tasks_of pool', lostRunningTasks_ u').
Proof.
  revert s u pool; induction l as [|p l IH]; intros s u pool Hnd Hl Hr.
  { cbn in Hr. injection Hr as _ <- <-. auto. }
  cbn in Hnd. apply NoDup_cons in Hnd as [Hp Hnd].
  cbn [foldM] in Hr. apply bind_Ret_iff in Hr as ([[s1 u1] pool1] & Hs & Hr).
  apply bind_Ret_iff in Hs as (b & _ & Hs). apply bind_Ret_iff in Hs as ([[s2 u2] w2] & Hu & Hs).
  injection Hs as <- <- <-. apply updateState_moved in Hu.
  eapply loses_trans; [eapply moved_loses; [apply Hl; by left|exact Hu]|].
  apply IH in Hr; [done|done|]. intros q Hq. rewrite lookup_insert_ne; [apply Hl; by right|].
  intros Heq. apply Hp. rewrite Heq. apply list_elem_of_fmap. eauto.
Qed.

(** The periodic check moves tasks only from workers to the update. *)
Lemma rws_updateState_loses warnings rs u rs' u' :
  rws_updateState flags warnings rs u = Ret (rs', u') ->
  loses (tasks_of (workerPool_ rs), lostRunningTasks_ u)
        (tasks_of (workerPool_ rs'), lostRunningTasks_ u').
Proof.
  unfold rws_updateState. intros Hr. do 2 apply bind_Ret_iff in Hr as (? & _ & Hr).
  apply bind_Ret_iff in Hr as ([s1 pool1] & Hp & Hr). apply propagate_tasks in Hp.
  apply bind_Ret_iff in Hr as ([[s2 u2] pool2] & Hu & Hr). rewrite <- Hp.
  unfold update_workers in Hu. apply update_loop_loses in Hu;
    [|apply NoDup_fst_map_to_list|intros [k w] Hk; by apply elem_of_map_to_list].
  enough (workerPool_ rs' = pool2 /\ lostRunningTasks_ u' = lostRunningTasks_ u2) as [-> ->] by done.
  unfold updateInitialWait in Hr. destruct (negb _) in Hr; [by injection Hr as <- <-|].
  apply bind_Ret_iff in Hr as (c & _ & Hr). destruct (_ && _) in Hr; [by injection Hr as <- <-|].
  destruct (negb _) in Hr; by injection Hr as <- <-.
Qed.

End Pool.

(** ** When the two records agree *)

(** [T]: the tasks of the workers; [P]: lost tasks whose update has yet to be
    applied; [R]: the tasks that [TaskStatuses] has as running. *)
Record agree (T : gmap string task_map) (P : list RunningTask)
    (R : string * string -> option RunningTask) : Prop := {
  ag_worker : forall s m k rt, T !! s = Some m -> m !! k = Some rt ->
    task_id_of rt = k /\ rt_workerShard rt = s /\ R k = Some rt;
  ag_running : forall k rt, R k = Some rt ->
    (exists m, T !! rt_workerShard rt = Some m /\ m !! k = Some rt) \/
    (rt ∈ P /\ task_id_of rt = k);
  ag_lost : forall rt, rt ∈ P ->
    (forall rt', R (task_id_of rt) = Some rt' -> rt' = rt) /\
    (forall s m, T !! s = Some m -> m !! task_id_of rt = None)
}.

Definition vals (L : task_map) : list RunningTask := map snd (map_to_list L).
Definition keyed (L : task_map) : Prop := forall k rt, L !! k = Some rt -> task_id_of rt = k.

Lemma elem_of_vals L rt : rt ∈ vals L <-> exists k, L !! k = Some rt.
Proof.
  unfold vals. rewrite list_elem_of_In, in_map_iff. split.
  - intros ([k x] & <- & Hin). exists k. by apply elem_of_map_to_list, list_elem_of_In.
  - intros [k Hk]. exists (k, rt). split; [done|]. by apply list_elem_of_In, elem_of_map_to_list.
Qed.

Lemma agree_ext T P P' R R' :
  (forall rt, rt ∈ P <-> rt ∈ P') -> (forall k, R k = R' k) -> agree T P R -> agree T P' R'.
Proof.
  intros HP HR [H1 H2 H3]. split.
  - intros s m k rt. rewrite <- HR. apply H1.
  - intros k rt. rewrite <- HR, <- HP. apply H2.
  - intros rt. rewrite <- HP, <- HR. apply H3.
Qed.

(** Lost tasks are pending, nothing else changes. *)
Lemma agree_loses x y P R :
  loses x y -> keyed x.2 -> agree x.1 (P ++ vals x.2) R ->
  agree y.1 (P ++ vals y.2) R /\ keyed y.2.
Proof.
  induction 1 as [x|T L s m x Hs Hl IH|T L s x Hs Hl IH]; cbn [fst snd] in *; [done| |];
    intros HL Ha; apply IH; clear IH Hl; destruct Ha as [H1 H2 H3].
  - intros k rt [Hk|[_ Hk]]%lookup_union_Some_raw; [by apply HL|]. by eapply H1.
  - assert (Hnew : forall rt, rt ∈ P ++ vals (L ∪ m) <->
              rt ∈ P ++ vals L \/ exists k, m !! k = Some rt).
    { intros rt. rewrite !elem_of_app, !elem_of_vals. split.
      - intros [?|[k [Hk|[_ Hk]]%lookup_union_Some_raw]]; eauto.
      - intros [[?|[k Hk]]|[k Hk]]; [by left|right; exists k..].
        + by apply lookup_union_Some_l.
        + apply lookup_union_Some_raw. right. split; [|done].
          destruct (L !! k) as [rt'|] eqn:El; [|done]. exfalso.
          destruct (H3 rt') as [_ Hno]; [apply elem_of_app; right; apply elem_of_vals; eauto|].
          rewrite (HL _ _ El) in Hno. specialize (Hno s m Hs). congruence. }
    split.
    + intros s' m' k rt. rewrite lookup_insert. case_decide as Hd; [|by apply H1].
      intros [= <-]. by rewrite lookup_empty.
    + intros k rt Hk. destruct (H2 k rt Hk) as [(m' & Hm' & Hk')|[Hin He]].
      * destruct (decide (s = rt_workerShard rt)) as [->|Hd].
        -- right. rewrite Hnew. assert (m' = m) as -> by congruence. split; [eauto|]. by eapply H1.
        -- left. exists m'. by rewrite lookup_insert_ne.
      * right. rewrite Hnew. auto.
    + intros rt Hin. rewrite Hnew in Hin.
      assert (Hb : (forall rt', R (task_id_of rt) = Some rt' -> rt' = rt) /\
                forall s' m', s' <> s -> T !! s' = Some m' -> m' !! task_id_of rt = None).
      { destruct Hin as [Hin|[k Hk]].
        - destruct (H3 rt Hin) as [Ha Hb]. eauto.
        - destruct (H1 s m k rt Hs Hk) as (He & Hsh & HR). rewrite He. split; [congruence|].
          intros s' m' Hne Hm'. destruct (m' !! k) as [rt'|] eqn:Ek; [|done].
          destruct (H1 s' m' k rt' Hm' Ek) as (_ & Hsh' & HR'). congruence. }
      destruct Hb as [Hb1 Hb2]. split; [done|]. intros s' m'. rewrite lookup_insert.
      case_decide as Hd; [intros [= <-]; apply lookup_empty|]. apply Hb2. congruence.
  - done.
  - split.
    + intros s' m' k rt. rewrite lookup_insert. case_decide as Hd; [|by apply H1].
      intros [= <-]. by rewrite lookup_empty.
    + intros k rt Hk. destruct (H2 k rt Hk) as [(m' & Hm' & Hk')|?]; [|by right].
      left. exists m'. rewrite lookup_insert_ne; [done|congruence].
    + intros rt Hin. destruct (H3 rt Hin) as [Ha Hb]. split; [done|]. intros s' m'.
      rewrite lookup_insert. case_decide; [intros [= <-]; apply lookup_empty|apply Hb].
Qed.

(** Point updates of what is running. *)
Definition upd (R : string * string -> option RunningTask) (k0 : string * string)
    (v : option RunningTask) : string * string -> option RunningTask :=
  fun k => if decide (k = k0) then v else R k.

(** A task that is not running and not pending is started on a worker. *)
Lemma agree_start T P R s m rt :
  agree T P R -> T !! s = Some m -> rt_workerShard rt = s ->
  R (task_id_of rt) = None -> (forall rt', rt' ∈ P -> task_id_of rt' <> task_id_of rt) ->
  agree (<[s := <[task_id_of rt := rt]> m]> T) P (upd R (task_id_of rt) (Some rt)).
Proof.
  intros [H1 H2 H3] Hm Hs HR HP. unfold upd. split.
  - intros s' m' k rt'. rewrite lookup_insert. case_decide as Hd.
    + subst s'. intros [= <-]. rewrite lookup_insert. case_decide as Hk.
      * intros [= <-]. subst k. by rewrite decide_True.
      * intros Hrt. rewrite decide_False by done. by eapply H1.
    + intros Hm' Hk. destruct (H1 s' m' k rt' Hm' Hk) as (? & ? & HRk).
      rewrite decide_False; [done|congruence].
  - intros k rt'. case_decide as Hk.
    + intros [= <-]. left. subst. eexists. rewrite lookup_insert_eq. split; [done|].
      apply lookup_insert_eq.
    + intros HRk. destruct (H2 k rt' HRk) as [(m' & Hm' & Hk')|?]; [|by right].
      left. rewrite lookup_insert. case_decide as Hd.
      * exists (<[task_id_of rt := rt]> m). split; [done|]. rewrite lookup_insert_ne by done.
        congruence.
      * eauto.
  - intros rt' Hin. destruct (H3 rt' Hin) as [Ha Hb]. rewrite decide_False by by apply HP.
    split; [done|]. intros s' m'. rewrite lookup_insert. case_decide.
    + intros [= <-]. rewrite lookup_insert_ne by (apply not_eq_sym; by apply HP). by eapply Hb.
    + apply Hb.
Qed.

(** A task stops running, on the worker its record names, or while it is
    pending. *)
Lemma agree_stop T P R s k0 :
  agree T P R -> (forall rt, R k0 = Some rt -> rt_workerShard rt = s) ->
  agree (alter (delete k0) s T) P (upd R k0 None).
Proof.
  intros [H1 H2 H3] Hs. unfold upd.
  assert (Hlook : forall s' m', alter (delete k0) s T !! s' = Some m' ->
    exists m, T !! s' = Some m /\ forall k, m' !! k = if decide (s' = s /\ k = k0) then None else m !! k).
  { intros s' m'. rewrite lookup_alter. case_decide as Hd.
    - subst s'. destruct (T !! s) as [m|] eqn:Em; [|done]. intros [= <-]. exists m. split; [done|].
      intros k. rewrite lookup_delete. repeat case_decide; naive_solver.
    - intros Hm. exists m'. split; [done|]. intros k. rewrite decide_False; [done|]. naive_solver. }
  split.
  - intros s' m' k rt Hm' Hk. destruct (Hlook s' m' Hm') as (m & Hm & Hk').
    rewrite Hk' in Hk. case_decide as Hd; [done|]. destruct (H1 s' m k rt Hm Hk) as (? & ? & HRk).
    rewrite decide_False; [done|]. intros ->. apply Hd. split; [|done]. rewrite <- (Hs rt HRk). done.
  - intros k rt. case_decide as Hd; [done|]. intros HRk.
    destruct (H2 k rt HRk) as [(m & Hm & Hk)|?]; [|by right]. left.
    rewrite lookup_alter. case_decide.
    + subst s. rewrite Hm. cbn. eexists. split; [done|]. by rewrite lookup_delete_ne.
    + eauto.
  - intros rt Hin. destruct (H3 rt Hin) as [Ha Hb]. split.
    + intros rt'. case_decide; [done|]. apply Ha.
    + intros s' m' Hm'. destruct (Hlook s' m' Hm') as (m & Hm & Hk). rewrite Hk.
      destruct (decide (s' = s /\ task_id_of rt = k0)); [done|]. by eapply Hb.
Qed.

(** The update of a lost task is applied. *)
Lemma agree_apply T P1 P2 R rt :
  agree T (P1 ++ rt :: P2) R -> agree T (P1 ++ P2) (upd R (task_id_of rt) None).
Proof.
  intros [H1 H2 H3]. unfold upd. destruct (H3 rt) as [Ha Hb]; [set_solver|]. split.
  - intros s m k rt' Hm Hk. rewrite decide_False; [by eapply H1|].
    intros ->. specialize (Hb s m Hm). congruence.
  - intros k rt'. case_decide as Hd; [done|]. intros HRk. destruct (H2 k rt' HRk) as [?|[Hin He]];
      [by left|]. right. split; [|done]. set_unfold. naive_solver.
  - intros rt' Hin. destruct (H3 rt') as [Ha' Hb']; [set_solver|]. split; [|done].
    intros rt2. case_decide; [done|]. apply Ha'.
Qed.

(** ** Running tasks by name *)

Definition ts_run (ts : TaskStatuses) (k : string * string) : option RunningTask :=
  match lookup_obj (JobNameTable (names_ ts)) k.1, lookup_obj (NodeNameTable (names_ ts)) k.2 with
  | Some j, Some n => runningTasks_ (snapshot_ ts) !! (j, n)
  | _, _ => None
  end.

Definition ts_inv (ts : TaskStatuses) : Prop :=
  snapshot_inv (snapshot_ ts) /\ names_ok (names_ ts) (runningTasks_ (snapshot_ ts)).

(** An index belongs to one name. *)
Lemma lookup_obj_inj t s s' i :
  table_wf t -> lookup_obj t s = Some i -> lookup_obj t s' = Some i -> s = s'.
Proof. intros Hwf H1%Hwf H2%Hwf. congruence. Qed.

Lemma ts_run_key ts k rt : ts_inv ts -> ts_run ts k = Some rt -> task_id_of rt = k.
Proof.
  intros [_ (Hj & Hn & Hk)]. unfold ts_run.
  destruct (lookup_obj (JobNameTable _) k.1) as [j|] eqn:Ej; [|done].
  destruct (lookup_obj (NodeNameTable _) k.2) as [n|] eqn:En; [|done].
  intros Hrt. destruct (Hk _ _ _ Hrt) as [H1 H2]. unfold task_id_of.
  rewrite (lookup_obj_inj _ _ _ _ Hj H1 Ej), (lookup_obj_inj _ _ _ _ Hn H2 En). by destruct k.
Qed.

Section Statuses.
Context (store : option (string -> string -> TaskResult -> outcome unit)).
Context (observers : list (RunningTask -> TaskStatus -> outcome unit)).
(** Observers report errors by exceptions. *)
Hypothesis Hobs : forall rt st, Forall (fun o => returns_or_throws (o rt st)) observers.

(** The store accepts the results of a task, or throws at one of them. *)
Definition store_accepts (rt : RunningTask) : Prop :=
  forall f, store = Some f -> forall r, f (rt_job rt) (rt_node rt) r = Ret tt.
Definition store_throws (rt : RunningTask) : Prop :=
  exists f r e, store = Some f /\ f (rt_job rt) (rt_node rt) r = Throw e.

Lemma recordStatusUpdate_Ret ts rt st ts' :
  recordStatusUpdate store observers ts rt st = Ret ts' ->
  snapshot_ ts' = snapshot_ ts /\ names_ ts' = names_ ts.
Proof using.
  unfold recordStatusUpdate. intros Hr. apply bind_Ret_iff in Hr as (? & _ & Hr).
  destruct store as [f|]; [|by injection Hr as <-].
  destruct (isDone st); [|destruct (isFailed st); [|by injection Hr as <-]];
    destruct (f _ _ _); try done; cbn in Hr; by injection Hr as <-.
Qed.

(** It returns unless the store throws. *)
Lemma recordStatusUpdate_cases ts rt st :
  (forall f, store = Some f -> forall job node r, returns_or_throws (f job node r)) ->
  (exists ts', recordStatusUpdate store observers ts rt st = Ret ts') \/
  store_throws rt /\ exists msg, recordStatusUpdate store observers ts rt st = Crash msg.
Proof using Hobs.
  intros Hstore. unfold recordStatusUpdate. rewrite notify_observers_ok by apply Hobs. cbn [mbind outcome_bind].
  unfold store_throws. destruct store as [f|]; [|eauto].
  assert (Hf : forall r, f (rt_job rt) (rt_node rt) r = Ret tt \/ exists e, f (rt_job rt) (rt_node rt) r = Throw e)
    by (intros r; by apply Hstore).
  destruct (isDone st); [|destruct (isFailed st); [|eauto]];
    match goal with |- context [f _ _ ?x] => destruct (Hf x) as [E|[e E]]; rewrite E; cbn; [eauto|right] end;
    (split; [by do 3 eexists|eauto]).
Qed.

Lemma accepts_not_throws rt : store_accepts rt -> ~ store_throws rt.
Proof using. intros Ha (f & r & e & Ef & E). rewrite (Ha f Ef r) in E. done. Qed.

(** What the update of a task whose names are known has done if it returned. *)
Lemma update_ids_Ret now ts j n rt status ts' :
  ts_inv ts -> status_wf status ->
  lookup_obj (JobNameTable (names_ ts)) (rt_job rt) = Some j ->
  lookup_obj (NodeNameTable (names_ ts)) (rt_node rt) = Some n ->
  ts_updateStatus_ids store observers now ts j n rt status = Ret ts' ->
  (forall rt', ts_run ts (task_id_of rt) = Some rt' -> rt_invocationID rt' = rt_invocationID rt) /\
  ts_inv ts' /\ names_ ts' = names_ ts /\
  forall k, ts_run ts' k =
    upd (ts_run ts) (task_id_of rt)
      (if isRunning status then Some (default rt (ts_run ts (task_id_of rt))) else None) k.
Proof using.
  intros [Hsnap (Hj & Hn & Hk)] Hwf Ej En E. unfold ts_updateStatus_ids in E.
  apply bind_Ret_iff in E as ([snap st] & Hu & E). apply recordStatusUpdate_Ret in E as [Hs Hnames].
  cbn in Hs, Hnames.
  assert (Erun : ts_run ts (task_id_of rt) = runningTasks_ (snapshot_ ts) !! (j, n)).
  { unfold ts_run, task_id_of. cbn [fst snd]. by rewrite Ej, En. }
  rewrite Erun.
  pose proof (updateStatus_cases now (snapshot_ ts) j n rt status Hsnap Hwf) as Hc.
  unfold update_aborts in Hc. destruct (invocation_ok (snapshot_ ts) j n rt) eqn:Hok; cbn [negb orb] in Hc.
  2: { destruct Hc as [m Hc]. congruence. }
  assert (Hsnap' : snapshot_inv snap).
  { destruct (_ && _); [destruct Hc as [m Hc]; congruence|]. destruct Hc as (? & ? & Hc & ?).
    rewrite Hu in Hc. by injection Hc as <- _. }
  split.
  { intros rt' Hrt. unfold invocation_ok in Hok. rewrite Hrt in Hok. by apply bool_decide_eq_true in Hok. }
  destruct (updateStatus_inv _ _ _ _ _ _ _ _ Hsnap Hu) as (_ & Hrun & _ & _).
  assert (Hlook : forall j' n', runningTasks_ snap !! (j', n') =
    if decide ((j', n') = (j, n))
    then (if isRunning status then Some (default rt (runningTasks_ (snapshot_ ts) !! (j, n))) else None)
    else runningTasks_ (snapshot_ ts) !! (j', n')).
  { intros j' n'. rewrite Hrun. unfold running_after.
    destruct (runningTasks_ (snapshot_ ts) !! (j, n)) as [cur|] eqn:Ec, (isRunning status);
      case_decide as Hd; try (injection Hd as -> ->);
      rewrite ?lookup_insert_eq, ?lookup_delete_eq, ?lookup_insert_ne, ?lookup_delete_ne by congruence;
      try done. }
  split; [split; [by rewrite Hs|]|split; [done|]].
  - rewrite Hs, Hnames. split_and!; [done|done|]. intros j' n' rt'. rewrite Hlook.
    case_decide as Hd; [|by apply Hk]. injection Hd as -> ->. destruct (isRunning status); [|done].
    intros [= <-]. destruct (runningTasks_ (snapshot_ ts) !! (j, n)) as [cur|] eqn:Ec; [|done].
    by apply Hk.
  - intros k. unfold upd, ts_run. rewrite Hs, Hnames. case_decide as Hd.
    + subst k. unfold task_id_of. cbn [fst snd]. rewrite Ej, En, Hlook, decide_True by done. done.
    + destruct (lookup_obj (JobNameTable (names_ ts)) k.1) as [j'|] eqn:Ej'; [|done].
      destruct (lookup_obj (NodeNameTable (names_ ts)) k.2) as [n'|] eqn:En'; [|done].
      rewrite Hlook, decide_False; [done|]. intros [= -> ->]. apply Hd.
      rewrite (surjective_pairing k). unfold task_id_of.
      by rewrite (lookup_obj_inj _ _ _ _ Hj Ej' Ej), (lookup_obj_inj _ _ _ _ Hn En' En).
Qed.

(** It returns for the current invocation unless the store throws. *)
Lemma update_ids_cases now ts j n rt status :
  (forall f, store = Some f -> forall job node r, returns_or_throws (f job node r)) ->
  ts_inv ts -> status_wf status -> advances_with_error status ->
  lookup_obj (JobNameTable (names_ ts)) (rt_job rt) = Some j ->
  lookup_obj (NodeNameTable (names_ ts)) (rt_node rt) = Some n ->
  (forall rt', ts_run ts (task_id_of rt) = Some rt' -> rt_invocationID rt' = rt_invocationID rt) ->
  (exists ts', ts_updateStatus_ids store observers now ts j n rt status = Ret ts') \/
  store_throws rt /\ exists msg, ts_updateStatus_ids store observers now ts j n rt status = Crash msg.
Proof using Hobs.
  intros Hstore [Hsnap _] Hwf Hadv Ej En Hinv.
  assert (Hok : invocation_ok (snapshot_ ts) j n rt = true).
  { unfold ts_run, task_id_of in Hinv. cbn [fst snd] in Hinv. rewrite Ej, En in Hinv.
    unfold invocation_ok. destruct (runningTasks_ (snapshot_ ts) !! (j, n)) as [cur|]; [|done].
    apply bool_decide_eq_true_2. by apply Hinv. }
  destruct (updateStatus_returns now (snapshot_ ts) j n rt status Hsnap Hwf Hadv Hok) as (snap & st & Hu & _).
  unfold ts_updateStatus_ids. rewrite Hu. cbn [mbind outcome_bind]. by apply recordStatusUpdate_cases.
Qed.

(** A status that says that the task is running is never stored. *)
Lemma update_ids_started now ts j n rt status :
  ts_inv ts -> status_wf status -> isRunning status = true -> usesBackoff status = false ->
  isDone status = false -> isFailed status = false ->
  lookup_obj (JobNameTable (names_ ts)) (rt_job rt) = Some j ->
  lookup_obj (NodeNameTable (names_ ts)) (rt_node rt) = Some n ->
  (forall rt', ts_run ts (task_id_of rt) = Some rt' -> rt_invocationID rt' = rt_invocationID rt) ->
  exists ts', ts_updateStatus_ids store observers now ts j n rt status = Ret ts' /\
    ts_inv ts' /\ names_ ts' = names_ ts /\
    forall k, ts_run ts' k = upd (ts_run ts) (task_id_of rt) (Some (default rt (ts_run ts (task_id_of rt)))) k.
Proof using Hobs.
  intros Hts Hwf Hrun Hback Hdone Hfail Ej En Hinv.
  assert (Hret : exists ts', ts_updateStatus_ids store observers now ts j n rt status = Ret ts').
  { destruct Hts as [Hsnap _].
    assert (Hok : invocation_ok (snapshot_ ts) j n rt = true).
    { unfold ts_run, task_id_of in Hinv. cbn [fst snd] in Hinv. rewrite Ej, En in Hinv.
      unfold invocation_ok. destruct (runningTasks_ (snapshot_ ts) !! (j, n)) as [cur|]; [|done].
      apply bool_decide_eq_true_2. by apply Hinv. }
    destruct (updateStatus_returns now (snapshot_ ts) j n rt status Hsnap Hwf) as (snap & st & Hu & _);
      [by unfold advances_with_error; rewrite Hback|done|].
    destruct (updateStatus_inv _ _ _ _ _ _ _ _ Hsnap Hu) as (_ & _ & Hst & _).
    assert (st = status) as ->.
    { destruct Hst as [[Hi _]|Hst].
      - unfold is_ignored in Hi. rewrite Hrun in Hi. by destruct (_ !! _).
      - unfold update in Hst. apply bind_Ret_iff in Hst as (? & _ & Hst). rewrite Hback in Hst. by injection Hst. }
    unfold ts_updateStatus_ids. rewrite Hu. cbn [mbind outcome_bind]. unfold recordStatusUpdate.
    rewrite notify_observers_ok by apply Hobs. cbn [mbind outcome_bind]. rewrite Hdone, Hfail.
    destruct store; eauto. }
  destruct Hret as [ts' E]. exists ts'. split; [done|].
  apply update_ids_Ret in E as (_ & H1 & H2 & H3); [|done..]. by rewrite Hrun in H3.
Qed.

(** Names are added; what is running stays the same. *)
Lemma names_grow ts job node :
  ts_inv ts ->
  let '(jobs, j) := insert_obj (JobNameTable (names_ ts)) job in
  let '(nodes, n) := insert_obj (NodeNameTable (names_ ts)) node in
  let ts' := mkTaskStatuses (snapshot_ ts) (mkNames jobs nodes) (persisted ts) in
  ts_inv ts' /\ lookup_obj jobs job = Some j /\ lookup_obj nodes node = Some n /\
  forall k, ts_run ts' k = ts_run ts k.
Proof.
  intros [Hsnap (Hj & Hn & Hk)].
  pose proof (insert_obj_wf _ job Hj) as Hj'. pose proof (insert_obj_wf _ node Hn) as Hn'.
  pose proof (insert_obj_lookup (JobNameTable (names_ ts)) job) as Lj.
  pose proof (insert_obj_lookup (NodeNameTable (names_ ts)) node) as Ln.
  pose proof (fun s i => insert_obj_stable _ job s i Hj) as Sj.
  pose proof (fun s i => insert_obj_stable _ node s i Hn) as Sn.
  destruct (insert_obj (JobNameTable (names_ ts)) job) as [jobs j].
  destruct (insert_obj (NodeNameTable (names_ ts)) node) as [nodes n]. cbn [fst snd] in *.
  split; [split; [done|]|split; [done|split; [done|]]].
  - split_and!; [done|done|]. cbn. intros j' n' rt Hrt. destruct (Hk _ _ _ Hrt). eauto.
  - intros k. unfold ts_run. cbn [names_ JobNameTable NodeNameTable snapshot_].
    assert (Hrt : forall j' n' rt, lookup_obj jobs k.1 = Some j' -> lookup_obj nodes k.2 = Some n' ->
      runningTasks_ (snapshot_ ts) !! (j', n') = Some rt ->
      lookup_obj (JobNameTable (names_ ts)) k.1 = Some j' /\
      lookup_obj (NodeNameTable (names_ ts)) k.2 = Some n').
    { intros j' n' rt E1 E2 Hrt. destruct (Hk _ _ _ Hrt) as [F1 F2].
      rewrite <- (lookup_obj_inj _ _ _ _ Hj' (Sj _ _ F1) E1).
      by rewrite <- (lookup_obj_inj _ _ _ _ Hn' (Sn _ _ F2) E2). }
    destruct (lookup_obj jobs k.1) as [j'|] eqn:F1.
    2: { destruct (lookup_obj (JobNameTable (names_ ts)) k.1) as [j1|] eqn:E1; [|done].
         by rewrite (Sj _ _ E1) in F1. }
    destruct (lookup_obj nodes k.2) as [n'|] eqn:F2.
    2: { destruct (lookup_obj (NodeNameTable (names_ ts)) k.2) as [n1|] eqn:E2;
           [by rewrite (Sn _ _ E2) in F2|]. by case_match. }
    destruct (runningTasks_ (snapshot_ ts) !! (j', n')) as [rt|] eqn:Er.
    { destruct (Hrt _ _ rt eq_refl eq_refl Er) as [-> ->]. by rewrite Er. }
    destruct (lookup_obj (JobNameTable (names_ ts)) k.1) as [j1|] eqn:E1; [|done].
    destruct (lookup_obj (NodeNameTable (names_ ts)) k.2) as [n1|] eqn:E2; [|done].
    rewrite (Sj _ _ E1) in F1. rewrite (Sn _ _ E2) in F2. congruence.
Qed.

(** [TaskStatuses::updateStatus] in terms of names. *)
Lemma update_Ret now ts rt status ts' :
  ts_inv ts -> status_wf status -> ts_updateStatus store observers now ts rt status = Ret ts' ->
  (forall rt', ts_run ts (task_id_of rt) = Some rt' -> rt_invocationID rt' = rt_invocationID rt) /\
  ts_inv ts' /\
  forall k, ts_run ts' k =
    upd (ts_run ts) (task_id_of rt)
      (if isRunning status then Some (default rt (ts_run ts (task_id_of rt))) else None) k.
Proof using.
  intros Hts Hwf. unfold ts_updateStatus. pose proof (names_grow ts (rt_job rt) (rt_node rt) Hts) as Hg.
  destruct (insert_obj (JobNameTable (names_ ts)) (rt_job rt)) as [jobs j].
  destruct (insert_obj (NodeNameTable (names_ ts)) (rt_node rt)) as [nodes n].
  destruct Hg as (Hts' & Lj & Ln & Hrun). intros E.
  apply update_ids_Ret in E as (Hinv & Hi & _ & Hr); [|done..].
  split; [intros rt'; rewrite <- Hrun; apply Hinv|]. split; [done|].
  intros k. rewrite Hr. unfold upd. by rewrite !Hrun.
Qed.

Lemma update_run_cases now ts rt status :
  (forall f, store = Some f -> forall job node r, returns_or_throws (f job node r)) ->
  ts_inv ts -> status_wf status -> advances_with_error status ->
  (forall rt', ts_run ts (task_id_of rt) = Some rt' -> rt_invocationID rt' = rt_invocationID rt) ->
  (exists ts', ts_updateStatus store observers now ts rt status = Ret ts') \/
  store_throws rt /\ exists msg, ts_updateStatus store observers now ts rt status = Crash msg.
Proof using Hobs.
  intros Hstore Hts Hwf Hadv Hinv. unfold ts_updateStatus.
  pose proof (names_grow ts (rt_job rt) (rt_node rt) Hts) as Hg.
  destruct (insert_obj (JobNameTable (names_ ts)) (rt_job rt)) as [jobs j].
  destruct (insert_obj (NodeNameTable (names_ ts)) (rt_node rt)) as [nodes n].
  destruct Hg as (Hts' & Lj & Ln & Hrun). apply update_ids_cases; try done.
  intros rt'. rewrite Hrun. apply Hinv.
Qed.
End Statuses.

(** ** The operations of the runner *)

(** Selecting a worker moves an iterator, nothing else of the workers. *)
Section Selecting.
Context (regex_search : string -> string -> bool) (hasher : string -> string -> Z).

Lemma nextWorker_pool host rs rs' o : nextWorker host rs = (rs', o) -> workerPool_ rs' = workerPool_ rs.
Proof.
  unfold nextWorker, mutableHostWorkerPool. intros Hn. repeat case_match; simplify_eq; done.
Qed.

Lemma search_pool fuel job level host first worker saw wr rs rs' wr' fd resp :
  search_loop regex_search hasher fuel job level host first worker saw wr rs = Ret (rs', wr', fd, resp) ->
  workerPool_ rs' = workerPool_ rs.
Proof.
  revert worker saw rs; induction fuel as [|fuel IH]; intros worker saw rs; cbn; [done|].
  destruct (workerPool_ rs !! worker) as [w|]; [|done]. intros Hr.
  apply bind_Ret_iff in Hr as (ran & _ & Hr). destruct ran; [by injection Hr as <- _ _ _|].
  destruct (nextWorker host rs) as [rs1 [w1|]] eqn:En; [|done]. apply nextWorker_pool in En.
  case_match; [|by injection Hr as <- _ _ _]. apply IH in Hr. congruence.
Qed.

Lemma findWorker_pool type t job node level wr rs rs' wr' fd resp :
  findWorker regex_search hasher type t job node level wr rs = Ret (rs', wr', fd, resp) ->
  workerPool_ rs' = workerPool_ rs.
Proof.
  destruct type; cbn [findWorker].
  - unfold RoundRobin_findWorker. intros Hr.
    destruct (nextWorker _ rs) as [rs1 [w1|]] eqn:En; apply nextWorker_pool in En.
    + apply search_pool in Hr. congruence.
    + by injection Hr as <- _ _ _.
  - unfold Busiest_findWorker, mutableHostWorkerPool. intros Hr.
    set (view := if bool_decide _ then _ else _) in Hr.
    assert (Hv : workerPool_ view.1 = workerPool_ rs)
      by (subst view; repeat case_match; simplify_eq; done).
    destruct view as [rs1 shards]. cbn in Hv. destruct (levelIDToResourceID t !! level); [|done].
    apply bind_Ret_iff in Hr as ([[least best] saw] & _ & Hr). destruct best as [[s w]|].
    + destruct (wr !! s); [|done]. apply bind_Ret_iff in Hr as (rv & _ & Hr). by injection Hr as <- _ _ _.
    + by injection Hr as <- _ _ _.
Qed.
End Selecting.

Lemma record_tasks w rt status w' acc :
  recordNonRunningTaskStatusImpl w rt status = (w', acc) ->
  rw_runningTasks w' = if acc then delete (task_id_of rt) (rw_runningTasks w) else rw_runningTasks w.
Proof.
  unfold recordNonRunningTaskStatusImpl.
  destruct (rw_runningTasks w !! task_id_of rt) as [cur|] eqn:E.
  - case_bool_decide; cbn [negb]; intros [= <- <-]; done.
  - destruct (isOverwriteable status); intros [= <- <-]; [done|]. cbn. by rewrite delete_id.
Qed.

Section Steps.
Context (flags : Flags) (warnings : string).
Context (regex_search : string -> string -> bool) (hasher : string -> string -> Z).
Context (store : option (string -> string -> TaskResult -> outcome unit)).
Context (observers : list (RunningTask -> TaskStatus -> outcome unit)).

Abbreviation tasks r := (tasks_of (workerPool_ (workers_ r))).
Abbreviation run r := (ts_run (taskStatuses_ r)).

Record runner_inv (r : Runner) (P : list RunningTask) : Prop := {
  ri_agree : agree (tasks r) P (run r);
  ri_ts : ts_inv (taskStatuses_ r)
}.

(** A report about the invocation that is running names the worker that it was
    sent to. *)
Definition echoes (r : Runner) (rt : RunningTask) : Prop :=
  forall rt', run r (task_id_of rt) = Some rt' ->
    rt_invocationID rt' = rt_invocationID rt -> rt_workerShard rt' = rt_workerShard rt.

(** A report concerns the invocation that is running, if any is. *)
Definition current (r : Runner) (rt : RunningTask) : Prop :=
  forall rt', run r (task_id_of rt) = Some rt' ->
    rt_invocationID rt' = rt_invocationID rt /\ rt_workerShard rt' = rt_workerShard rt.

Definition fresh_task (r : Runner) (P : list RunningTask) (k : string * string) : Prop :=
  run r k = None /\ forall rt, rt ∈ P -> task_id_of rt <> k.

Definition good_status (st : TaskStatus) : Prop := status_wf st /\ advances_with_error st.

Definition ids_known (r : Runner) (rt : RunningTask) (j n : nat) : Prop :=
  lookup_obj (JobNameTable (names_ (taskStatuses_ r))) (rt_job rt) = Some j /\
  lookup_obj (NodeNameTable (names_ (taskStatuses_ r))) (rt_node rt) = Some n.

Lemma tasks_set_worker r s w w' :
  workerPool_ (workers_ r) !! s = Some w ->
  tasks (set_workers r (set_sets (workers_ r) (sets_ (workers_ r))
    (<[s := w']> (workerPool_ (workers_ r))))) = <[s := rw_runningTasks w']> (tasks r) /\
  tasks r !! s = Some (rw_runningTasks w).
Proof. intros Hw. unfold tasks_of. cbn. by rewrite fmap_insert, lookup_fmap, Hw. Qed.

(** The state once a worker's task and the status have been dropped. *)
Lemma stop_inv r P r1 ts' s w w' rt :
  runner_inv r P -> workerPool_ (workers_ r) !! s = Some w -> rt_workerShard rt = s ->
  current r rt -> rw_runningTasks w' = delete (task_id_of rt) (rw_runningTasks w) ->
  workerPool_ (workers_ r1) = <[s := w']> (workerPool_ (workers_ r)) ->
  ts_inv ts' -> (forall k, ts_run ts' k = upd (run r) (task_id_of rt) None k) ->
  taskStatuses_ r1 = ts' -> runner_inv r1 P.
Proof.
  intros [Ha Ht] Hw Hs Hc Hd Hpool Hts Hrun <-. split; [|done].
  pose proof (agree_stop _ _ _ s (task_id_of rt) Ha) as Hst.
  rewrite Hpool. unfold tasks_of in *. rewrite fmap_insert.
  assert (<[s := rw_runningTasks w']> (rw_runningTasks <$> workerPool_ (workers_ r)) =
    alter (delete (task_id_of rt)) s (rw_runningTasks <$> workerPool_ (workers_ r))) as ->.
  { apply map_eq. intros s'. rewrite lookup_insert, lookup_alter. case_decide; [|done]. subst.
    by rewrite lookup_fmap, Hw, Hd. }
  eapply agree_ext; [done| |apply Hst]; [intros k; by rewrite Hrun|].
  intros rt' Hrt'. destruct (Hc rt' Hrt') as [_ ?]. congruence.
Qed.

(** *** Status reports *)

Lemma report_inv r P now rt status sid wid r' :
  runner_inv r P -> status_wf status -> rt_job rt = kHealthcheckTaskJob \/ echoes r rt ->
  remoteUpdateStatus store observers r now rt status sid wid = Ret r' -> runner_inv r' P.
Proof.
  intros Hi Hwf Hc. unfold remoteUpdateStatus. case_bool_decide; [|done]. cbn [negb].
  destruct (workerPool_ (workers_ r) !! rt_workerShard rt) as [w|] eqn:Ew; [|done].
  intros Hr. apply bind_Ret_iff in Hr as ([w' acc] & Hrec & Hr).
  unfold recordNonRunningTaskStatus in Hrec.
  apply bind_Ret_iff in Hrec as ([] & Hnr%CHECK_Ret & Hrec). apply negb_true_iff in Hnr.
  assert (Hsame : forall w2, rw_runningTasks w2 = rw_runningTasks w -> Ret (w2, false) = Ret (w', acc) ->
            runner_inv r' P).
  { intros w2 Ht. intros [= <- <-]. injection Hr as <-. destruct Hi as [Ha Ht']. split; [|done].
    destruct (tasks_set_worker r (rt_workerShard rt) w w2 Ew) as [-> Hl].
    rewrite Ht, insert_id by done. done. }
  case_bool_decide; [cbn [negb] in Hrec|done].
  case_bool_decide as Hjob.
  { destruct (isDone status); [eapply (Hsame (set_good_healthcheck w _)); [done|exact Hrec]|].
    by apply (Hsame w). }
  destruct Hc as [?|Hc]; [done|]. case_bool_decide; [done|]. injection Hrec as Hrec. pose proof (record_tasks _ _ _ _ _ Hrec) as Hd.
  destruct acc; [|by apply (Hsame w')].
  unfold record_status in Hr. apply bind_Ret_iff in Hr as (ts' & Hu & Hr). injection Hr as <-.
  cbn in Hu. apply update_Ret in Hu as (Hinv & Hts2 & Hrun); [|apply Hi|done]. rewrite Hnr in Hrun.
  eapply (stop_inv r P _ ts' _ w w' rt); try done. intros rt' Hrt'. split; auto.
Qed.
(** *** Updates *)

Lemma heartbeat_inv r P now worker id r' u resp :
  runner_inv r P -> heartbeat_locked flags r now worker id = Ret (r', u, resp) ->
  runner_inv r' (P ++ vals (lostRunningTasks_ u)).
Proof.
  intros [Ha Ht] Hr. unfold heartbeat_locked in Hr.
  apply bind_Ret_iff in Hr as ([[rs u'] resp'] & Hh & Hr). injection Hr as <- <- _.
  apply rws_heartbeat_loses in Hh. split; [|done]. cbn.
  apply (agree_loses _ _ P (run r) Hh); cbn [fst snd newUpdate lostRunningTasks_].
  - intros k rt. by rewrite lookup_empty.
  - eapply agree_ext; [|done|exact Ha]. intros rt. rewrite elem_of_app, elem_of_vals.
    split; [by left|]. intros [?|[k Hk]]; [done|]. by rewrite lookup_empty in Hk.
Qed.

Lemma check_inv r P now r' u :
  runner_inv r P -> check_workers_locked flags warnings r now = Ret (r', u) ->
  runner_inv r' (P ++ vals (lostRunningTasks_ u)).
Proof.
  intros [Ha Ht] Hr. unfold check_workers_locked in Hr.
  apply bind_Ret_iff in Hr as ([rs u'] & Hh & Hr). apply rws_updateState_loses in Hh.
  set (out := match config_ r with Some config => _ | None => _ end) in Hr.
  assert (Hout : workerPool_ out.1 = workerPool_ rs /\ lostRunningTasks_ out.2 = lostRunningTasks_ u').
  { subst out. destruct (config_ r); [|done]. by destruct (_ && _). }
  destruct out as [rs2 u2]. cbn in Hout. destruct Hout as [Hp Hl]. injection Hr as <- <-.
  split; [|done]. cbn. rewrite Hp, Hl.
  apply (agree_loses _ _ P (run r) Hh); cbn [fst snd newUpdate lostRunningTasks_].
  - intros k rt. by rewrite lookup_empty.
  - eapply agree_ext; [|done|exact Ha]. intros rt. rewrite elem_of_app, elem_of_vals.
    split; [by left|]. intros [?|[k Hk]]; [done|]. by rewrite lookup_empty in Hk.
Qed.

Lemma workerLost_advances now s n : advances_with_error (workerLost now s n).
Proof. intros _ _. reflexivity. Qed.

(** The update of a pending lost task, if it returns. *)
Lemma apply_lost_Ret r P1 P2 now rt r' :
  runner_inv r (P1 ++ rt :: P2) -> apply_lost flags store observers r now rt = Ret r' ->
  runner_inv r' (P1 ++ P2) /\ run r' (task_id_of rt) = None.
Proof.
  intros [Ha Ht]. unfold apply_lost.
  set (rt' := if _ <? _ then _ else rt).
  assert (Hk : task_id_of rt' = task_id_of rt) by (unfold rt'; by destruct (_ <? _)). clearbody rt'.
  unfold record_status. intros Hr. apply bind_Ret_iff in Hr as (ts' & Hu & Hr). injection Hr as <-.
  apply update_Ret in Hu as (_ & Hts & Hrun); [|done|apply workerLost_wf].
  change (isRunning (workerLost now (rt_workerShard rt) (seconds (rt_nextBackoffDuration rt))))
    with false in Hrun. rewrite Hk in Hrun. split; [split; [|done]|].
  - eapply agree_ext; [done| |apply agree_apply, Ha]. intros k. by rewrite Hrun.
  - cbn. rewrite Hrun. unfold upd. by rewrite decide_True.
Qed.

(** It returns unless the store throws. *)
Lemma apply_lost_returns r P1 P2 now rt :
  (forall rt st, Forall (fun o => returns_or_throws (o rt st)) observers) ->
  (forall f, store = Some f -> forall job node r, returns_or_throws (f job node r)) ->
  store_accepts store rt -> runner_inv r (P1 ++ rt :: P2) ->
  exists r', apply_lost flags store observers r now rt = Ret r'.
Proof.
  intros Hobs Hstore Hacc [Ha Ht]. unfold apply_lost.
  set (rt' := if _ <? _ then _ else rt).
  assert (Hrt : task_id_of rt' = task_id_of rt /\ rt_invocationID rt' = rt_invocationID rt /\
    rt_job rt' = rt_job rt /\ rt_node rt' = rt_node rt) by (unfold rt'; by destruct (_ <? _)).
  destruct Hrt as (Hk & Hinv & Hj & Hn). clearbody rt'.
  destruct (update_run_cases store observers Hobs now (taskStatuses_ r) rt'
    (workerLost now (rt_workerShard rt) (seconds (rt_nextBackoffDuration rt)))) as [[ts' Hu]|[Hth _]]; try done.
  - apply workerLost_wf.
  - intros rt2. rewrite Hk. intros Hr2. destruct (ag_lost _ _ _ Ha rt) as [Hl _]; [apply elem_of_app; right; by left|].
    rewrite (Hl rt2 Hr2). done.
  - unfold record_status. rewrite Hu. cbn. eauto.
  - exfalso. apply (accepts_not_throws store rt'); [|done]. unfold store_accepts. by rewrite Hj, Hn.
Qed.

(** *** Replies *)

Lemma noexcept_Ret {A} (m : outcome A) a : noexcept m = Ret a -> m = Ret a.
Proof. by destruct m. Qed.

Lemma cb_run r now j n rt status r' :
  ts_inv (taskStatuses_ r) -> status_wf status -> ids_known r rt j n ->
  scheduler_cb store observers r now j n rt status = Ret r' ->
  (forall rt', run r (task_id_of rt) = Some rt' -> rt_invocationID rt' = rt_invocationID rt) /\
  exists ts', r' = set_statuses r ts' /\ ts_inv ts' /\
    forall k, ts_run ts' k = upd (run r) (task_id_of rt)
      (if isRunning status then Some (default rt (run r (task_id_of rt))) else None) k.
Proof.
  intros Ht Hwf [Hj Hn] Hr. unfold scheduler_cb in Hr. apply bind_Ret_iff in Hr as (ts' & Hu & Hr).
  injection Hr as <-. apply noexcept_Ret, update_ids_Ret in Hu as (Hinv & Hts & _ & Hrun); [|done..]. eauto.
Qed.


Lemma on_worker_Ret r s f r' :
  on_worker r s f = Ret r' -> exists w w', workerPool_ (workers_ r) !! s = Some w /\ f w = Ret w' /\
    r' = set_workers r (set_sets (workers_ r) (sets_ (workers_ r))
           (<[s := w']> (workerPool_ (workers_ r)))).
Proof.
  unfold on_worker, mutableWorkerOrAbort, CHECK_Some. destruct (workerPool_ (workers_ r) !! s) as [w|];
    [|done]. cbn. intros Hr. apply bind_Ret_iff in Hr as (w' & Hf & Hr). injection Hr as <-. eauto.
Qed.

Lemma never_started_inv r P now worker j n rt msg r' :
  runner_inv r P -> bw_shard worker = rt_workerShard rt -> echoes r rt -> ids_known r rt j n ->
  runTask_never_started store observers r now worker j n rt msg = Ret r' -> runner_inv r' P.
Proof.
  intros Hi Hs Hc Hids Hr. apply noexcept_Ret, bind_Ret_iff in Hr as (r1 & Ho & Hr).
  apply on_worker_Ret in Ho as (w & w' & Hw & Hf & ->).
  unfold recordFailedTask in Hf. apply bind_Ret_iff in Hf as (? & _ & Hf).
  destruct (recordNonRunningTaskStatusImpl w rt (neverStarted now msg)) as [w2 acc] eqn:Erec.
  apply bind_Ret_iff in Hf as (? & ->%CHECK_Ret & Hf). injection Hf as <-.
  apply record_tasks in Erec.
  apply cb_run in Hr as (Hinv & ts' & -> & Hts & Hrun); [|apply Hi|by apply wf_plain|done].
  eapply (stop_inv r P _ ts' _ w w2 rt); try done. intros rt' Hrt'. split; [by apply Hinv|by apply Hc; [|apply Hinv]].
Qed.

(** Changes of a worker that leave its tasks alone. *)
Lemma same_tasks_inv r P s f r' :
  runner_inv r P -> (forall w w', f w = Ret w' -> rw_runningTasks w' = rw_runningTasks w) ->
  on_worker r s f = Ret r' -> runner_inv r' P.
Proof.
  intros [Ha Ht] Hf Ho. apply on_worker_Ret in Ho as (w & w' & Hw & Hfw & ->). split; [|done].
  destruct (tasks_set_worker r s w w' Hw) as [-> Hl]. by rewrite (Hf _ _ Hfw), insert_id.
Qed.

Lemma unsure_inv r P worker rt r' :
  runner_inv r P -> runTask_unsure r worker rt = Ret r' -> runner_inv r' P.
Proof.
  intros Hi Hr. apply noexcept_Ret in Hr. eapply same_tasks_inv; [done| |exact Hr].
  intros w w' Hw. unfold addUnsureIfRunningTask in Hw. apply bind_Ret_iff in Hw as (? & _ & Hw).
  by injection Hw as <-.
Qed.

Lemma notified_inv r P worker l r' :
  runner_inv r P -> notified r worker l = Ret r' -> runner_inv r' P.
Proof.
  intros Hi Hr. eapply same_tasks_inv; [done| |exact Hr].
  intros w w' Hw. unfold eraseUnsureIfRunningTasks in Hw. apply bind_Ret_iff in Hw as (? & _ & Hw).
  by injection Hw as <-.
Qed.

Lemma send_notify_inv r P worker r' n :
  runner_inv r P -> send_notify r worker = Ret (r', n) -> runner_inv r' P.
Proof.
  intros [Ha Ht] Hr. unfold send_notify, mutableWorkerOrAbort, CHECK_Some in Hr.
  destruct (workerPool_ (workers_ r) !! bw_shard worker) as [w|] eqn:Ew; [|done].
  cbn in Hr. injection Hr as <- _. split; [|done].
  match goal with |- agree (tasks_of (workerPool_ (workers_ (set_workers r (set_sets _ _ (<[_ := ?w2]> _)))))) _ _ =>
    destruct (tasks_set_worker r _ w w2 Ew) as [-> Hl] end.
  by rewrite insert_id.
Qed.

Lemma updateConfig_inv r P config r' :
  runner_inv r P -> updateConfig r config = Ret r' -> runner_inv r' P.
Proof.
  intros [Ha Ht] Hr. unfold updateConfig in Hr. destruct (lookup_obj _ _); [|done].
  apply bind_Ret_iff in Hr as (wr & _ & Hr). injection Hr as <-. by split.
Qed.

(** *** Running tasks of a new worker *)

Lemma fetch_loop now s shard T P rts m m' r r' :
  foldM (fun m rt =>
    CHECK (bool_decide (rt_workerShard rt = shard)) "Bad shard for new task" ;;;
    CHECK (negb (bool_decide (is_Some (m !! task_id_of rt)))) "Duplicate new task" ;;;
    Ret (<[task_id_of rt := rt]> m)) m rts = Ret m' ->
  agree (<[s := m]> T) P (run r) -> ts_inv (taskStatuses_ r) ->
  (forall rt, rt ∈ rts -> rt_workerShard rt = s /\
     (run r (task_id_of rt) = None \/ is_Some (m !! task_id_of rt)) /\
     forall rt', rt' ∈ P -> task_id_of rt' <> task_id_of rt) ->
  foldM (fun r rt => record_status store observers r now rt (running now)) r rts = Ret r' ->
  agree (<[s := m']> T) P (run r') /\ ts_inv (taskStatuses_ r') /\ workers_ r' = workers_ r.
Proof.
  revert m r; induction rts as [|rt rts IH]; intros m r Hm Ha Ht Hf Hr.
  { cbn in Hm, Hr. injection Hm as <-. injection Hr as <-. done. }
  cbn [foldM] in Hm, Hr. apply bind_Ret_iff in Hm as (m1 & Hm1 & Hm).
  apply bind_Ret_iff in Hm1 as (? & _ & Hm1). apply bind_Ret_iff in Hm1 as (? & Hfr%CHECK_Ret & Hm1).
  injection Hm1 as <-. apply negb_true_iff, bool_decide_eq_false_1 in Hfr.
  destruct (Hf rt (list_elem_of_here _ _)) as (Hs & [HR|?] & HP); [|done].
  apply bind_Ret_iff in Hr as (r1 & Hr1 & Hr). unfold record_status in Hr1.
  apply bind_Ret_iff in Hr1 as (ts' & Hu & Hr1). injection Hr1 as <-.
  apply update_Ret in Hu as (_ & Hts & Hrun); [|done|apply running_wf].
  change (isRunning (running now)) with true in Hrun. rewrite HR in Hrun. cbn [default from_option id] in Hrun.
  pose proof (agree_start _ P (run r) s m rt Ha (lookup_insert_eq _ _ _) Hs HR HP) as Ha'.
  rewrite insert_insert_eq in Ha'.
  assert (Hnext : forall rt', rt' ∈ rts -> rt_workerShard rt' = s /\
     (ts_run ts' (task_id_of rt') = None \/ is_Some (<[task_id_of rt := rt]> m !! task_id_of rt')) /\
     forall x, x ∈ P -> task_id_of x <> task_id_of rt').
  { intros rt' Hin. destruct (Hf rt') as (Hs' & HR' & HP'); [by right|]. split_and!; [done| |done].
    rewrite Hrun. unfold upd. case_decide as Hd; [right; rewrite Hd, lookup_insert_eq; eauto|].
    rewrite lookup_insert_ne by congruence. done. }
  destruct (IH (<[task_id_of rt := rt]> m) (set_statuses r ts') Hm) as (H1 & H2 & H3); [|done|done|done|].
  - eapply agree_ext; [done| |exact Ha']. intros k. symmetry. apply Hrun.
  - done.
Qed.

Definition is_new (r : Runner) (shard : string) : Prop :=
  exists w, workerPool_ (workers_ r) !! shard = Some w /\ getState w = NEW.

Lemma fetched_inv r P now worker rts r' :
  runner_inv r P ->
  (forall rt, rt ∈ rts -> is_new r (bw_shard worker) /\ rt_workerShard rt = bw_shard worker /\
     fresh_task r P (task_id_of rt)) ->
  gotRunningTasks store observers r now worker rts = Ret r' -> runner_inv r' P.
Proof.
  intros [Ha Ht] Hf Hr. unfold gotRunningTasks, rws_initializeRunningTasks,
    mutableWorkerOrAbort, CHECK_Some in Hr.
  destruct (workerPool_ (workers_ r) !! bw_shard worker) as [w|] eqn:Hw; [|done].
  cbn [mbind outcome_bind] in Hr. case_bool_decide as Hnew; cbn [negb] in Hr.
  2: { destruct rts as [|rt rts]; [cbn in Hr; by injection Hr as <-|].
       destruct (Hf rt (list_elem_of_here _ _)) as [(w2 & Hw2 & ?) _]. congruence. }
  apply bind_Ret_iff in Hr as (rs & Hinit & Hr).
  apply bind_Ret_iff in Hinit as (w' & Hinit & Hrs). injection Hrs as <-.
  unfold initializeRunningTasks in Hinit. apply bind_Ret_iff in Hinit as (? & _ & Hinit).
  apply bind_Ret_iff in Hinit as (? & He%CHECK_Ret & Hinit). apply bool_decide_eq_true_1 in He.
  apply bind_Ret_iff in Hinit as (? & _ & Hinit).
  apply bind_Ret_iff in Hinit as (m' & Hm & Hinit). injection Hinit as <-.
  destruct (tasks_set_worker r (bw_shard worker) w
    (setState (set_tasks w m' (unsureIfRunningTasks_ w)) UNHEALTHY) Hw) as [Htk Hl].
  eapply fetch_loop in Hr as (H1 & H2 & H3); [| | |exact Ht|].
  - split; [|done]. rewrite H3, Htk. exact H1.
  - exact Hm.
  - rewrite He, insert_id; [exact Ha|]. by rewrite <- He.
  - intros rt Hin. destruct (Hf rt Hin) as (_ & Hs & HR & HP). split_and!; [done|by left|done].
Qed.

(** *** Starting a task *)

Lemma addNodeResources_same t rt by_node name level res rt' by_node' nr :
  addNodeResourcesToRunningTask t rt by_node name level res = Ret (rt', by_node', nr) ->
  task_id_of rt' = task_id_of rt /\ rt_workerShard rt' = rt_workerShard rt /\
  rt_invocationID rt' = rt_invocationID rt /\ rt_job rt' = rt_job rt /\ rt_node rt' = rt_node rt.
Proof.
  unfold addNodeResourcesToRunningTask. destruct (levelIDToResourceID t !! level) as [[|rid rids]|];
    intros Hr; [by injection Hr as <- _ _| |done].
  apply bind_Ret_iff in Hr as (rs & _ & Hr). by injection Hr as <- _ _.
Qed.

Lemma run_inv r P now job node rt args r' reqs resp :
  runner_inv r P -> fresh_task r P (task_id_of rt) -> ids_known r rt (job_id job) (node_id node) ->
  runTaskImpl regex_search hasher store observers r now job node rt args = Ret (r', reqs, resp) ->
  runner_inv r' P.
Proof.
  intros [Ha Ht] [HR HP] Hids Hr. unfold runTaskImpl in Hr.
  destruct (runner_inInitialWait r); [by injection Hr as <- _ _|]. apply noexcept_Ret in Hr.
  destruct (config_ r) as [config|]; [|done]. destruct (workerLevel_ r) as [level|]; [|done].
  apply bind_Ret_iff in Hr as ([[[rs wr] fd] response] & Hfind & Hr).
  apply findWorker_pool in Hfind. set (r1 := set_resources (set_workers r rs) wr) in Hr.
  assert (Hi1 : runner_inv r1 P) by (split; [cbn; by rewrite Hfind|done]).
  destruct response; [|by injection Hr as <- _ _..].
  destruct fd as [[worker seq]|]; [|done]. destruct (assoc _ _) as [d|]; [|done].
  destruct d as [| | | | | |by_node]; try done. apply bind_Ret_iff in Hr as (? & _ & Hr).
  apply bind_Ret_iff in Hr as ([[rt1 by1] nr] & Hadd & Hr).
  apply addNodeResources_same in Hadd as (Hk & Hs & Hinv & Hj & Hn). cbn in Hs, Hinv, Hj, Hn.
  change (task_id_of (set_shard rt (bw_shard worker))) with (task_id_of rt) in Hk.
  apply bind_Ret_iff in Hr as (limits & _ & Hr). apply bind_Ret_iff in Hr as (r2 & Ho & Hr).
  apply on_worker_Ret in Ho as (w & w' & Hw & Hrec & ->).
  apply bind_Ret_iff in Hr as (r3 & Hcb & Hr). injection Hr as <- _ _.
  unfold recordRunningTaskStatus in Hrec. do 3 apply bind_Ret_iff in Hrec as (? & _ & Hrec).
  injection Hrec as <-.
  apply cb_run in Hcb as (_ & ts' & -> & Hts & Hrun); [|done| |].
  - split; [|done]. destruct (tasks_set_worker r1 (bw_shard worker) w
      (set_tasks w (<[task_id_of rt1 := rt1]> (rw_runningTasks w)) (unsureIfRunningTasks_ w)) Hw)
      as [Htk Hl]. cbn [rw_runningTasks set_tasks] in Htk.
    pose proof (agree_start _ P (run r1) (bw_shard worker) _ rt1 (ri_agree _ _ Hi1) Hl Hs) as Hst.
    rewrite <- Htk in Hst. assert (HR1 : run r1 (task_id_of rt1) = None) by by rewrite Hk.
    eapply agree_ext; [done| |apply Hst; [exact HR1|by rewrite Hk]].
    intros k. rewrite Hrun.
    change (run (set_workers r1 _) (task_id_of rt1)) with (run r1 (task_id_of rt1)).
    by rewrite HR1.
  - by apply wf_plain.
  - unfold ids_known in *. cbn. by rewrite Hj, Hn.
Qed.

(** ** Interleavings *)

(** One operation of the runner, and the lost tasks of the updates that have
    not been applied yet.  A call that ends the process leads to no state.  The
    guards are what the runner relies on: a report has a well-formed status and
    names the worker that the running invocation was sent to; a task is started,
    or reported by a new worker, while no other invocation of it is running or
    waits to be marked as lost. *)
Inductive rstep : Runner * list RunningTask -> Runner * list RunningTask -> Prop :=
| step_heartbeat r P now worker id r' u resp :
    heartbeat_locked flags r now worker id = Ret (r', u, resp) ->
    rstep (r, P) (r', P ++ vals (lostRunningTasks_ u))
| step_check r P now r' u :
    check_workers_locked flags warnings r now = Ret (r', u) ->
    rstep (r, P) (r', P ++ vals (lostRunningTasks_ u))
| step_apply r P1 P2 now rt r' :
    apply_lost flags store observers r now rt = Ret r' ->
    rstep (r, P1 ++ rt :: P2) (r', P1 ++ P2)
| step_report r P now rt status sid wid r' :
    status_wf status -> rt_job rt = kHealthcheckTaskJob \/ echoes r rt ->
    remoteUpdateStatus store observers r now rt status sid wid = Ret r' ->
    rstep (r, P) (r', P)
| step_run r P now job node rt args r' reqs resp :
    fresh_task r P (task_id_of rt) -> ids_known r rt (job_id job) (node_id node) ->
    runTaskImpl regex_search hasher store observers r now job node rt args = Ret (r', reqs, resp) ->
    rstep (r, P) (r', P)
| step_never_started r P now worker j n rt msg r' :
    bw_shard worker = rt_workerShard rt -> echoes r rt -> ids_known r rt j n ->
    runTask_never_started store observers r now worker j n rt msg = Ret r' ->
    rstep (r, P) (r', P)
| step_unsure r P worker rt r' :
    runTask_unsure r worker rt = Ret r' -> rstep (r, P) (r', P)
| step_fetched r P now worker rts r' :
    (forall rt, rt ∈ rts -> is_new r (bw_shard worker) /\ rt_workerShard rt = bw_shard worker /\
       fresh_task r P (task_id_of rt)) ->
    gotRunningTasks store observers r now worker rts = Ret r' -> rstep (r, P) (r', P)
| step_notify r P worker r' n : send_notify r worker = Ret (r', n) -> rstep (r, P) (r', P)
| step_notified r P worker l r' : notified r worker l = Ret r' -> rstep (r, P) (r', P)
| step_config r P config r' : updateConfig r config = Ret r' -> rstep (r, P) (r', P).

Lemma rstep_inv x y : rstep x y -> runner_inv x.1 x.2 -> runner_inv y.1 y.2.
Proof.
  destruct 1; cbn [fst snd]; intros Hi.
  - by eapply heartbeat_inv.
  - by eapply check_inv.
  - by eapply apply_lost_Ret.
  - by eapply report_inv.
  - by eapply run_inv.
  - by eapply never_started_inv.
  - by eapply unsure_inv.
  - by eapply fetched_inv.
  - by eapply send_notify_inv.
  - by eapply notified_inv.
  - by eapply updateConfig_inv.
Qed.

Lemma new_runner_inv now sid ts :
  ts_inv ts -> runningTasks_ (snapshot_ ts) = ∅ -> runner_inv (newRunner now sid ts) [].
Proof.
  intros Ht He. split; [|done]. cbn. unfold tasks_of. rewrite fmap_empty. split.
  - intros s m k rt. by rewrite lookup_empty.
  - intros k rt. unfold ts_run. rewrite He. by repeat case_match.
  - by intros rt ?%not_elem_of_nil.
Qed.

Lemma reachable_inv x y : rtc rstep x y -> runner_inv x.1 x.2 -> runner_inv y.1 y.2.
Proof. induction 1 as [|x y z H1 _ IH]; [done|]. intros Hi. by apply IH, (rstep_inv x y). Qed.

(** Applying an update, a whole heartbeat and a whole check are sequences of
    steps. *)
Lemma applyUpdate_steps r P now u r' reqs :
  applyUpdate flags store observers r now u = Ret (r', reqs) ->
  rtc rstep (r, P ++ vals (lostRunningTasks_ u)) (r', P).
Proof.
  unfold applyUpdate, vals. intros Hr. apply bind_Ret_iff in Hr as (r1 & Hf & Hr).
  injection Hr as <- _. revert r Hf.
  induction (map_to_list (lostRunningTasks_ u)) as [|p l IH]; intros r Hf.
  { cbn in Hf. injection Hf as <-. cbn. by rewrite app_nil_r. }
  cbn in Hf. apply bind_Ret_iff in Hf as (r2 & H2 & Hf).
  eapply rtc_l; [by apply (step_apply r P (map snd l) now p.2)|]. by apply IH.
Qed.

Lemma heartbeat_steps r P now worker id r' reqs resp :
  processWorkerHeartbeat flags store observers r now worker id = Ret (r', reqs, resp) ->
  rtc rstep (r, P) (r', P).
Proof.
  unfold processWorkerHeartbeat. intros Hr. apply bind_Ret_iff in Hr as ([[r1 u] resp1] & Hh & Hr).
  apply bind_Ret_iff in Hr as ([r2 reqs2] & Ha & Hr). injection Hr as <- _ _.
  eapply rtc_l; [by eapply step_heartbeat|]. by eapply applyUpdate_steps.
Qed.

Lemma check_steps r P now r' reqs :
  check_workers flags warnings store observers r now = Ret (r', reqs) -> rtc rstep (r, P) (r', P).
Proof.
  unfold check_workers. intros Hr. apply bind_Ret_iff in Hr as ([r1 u] & Hh & Hr).
  eapply rtc_l; [by eapply step_check|]. by eapply applyUpdate_steps.
Qed.


Lemma worker_current r P rt w cur :
  runner_inv r P -> current r rt -> workerPool_ (workers_ r) !! rt_workerShard rt = Some w ->
  rw_runningTasks w !! task_id_of rt = Some cur -> rt_invocationID cur = rt_invocationID rt.
Proof.
  intros [Ha _] Hc Hw Hk. apply Hc. eapply (ag_worker _ _ _ Ha (rt_workerShard rt)); [|exact Hk].
  unfold tasks_of. by rewrite lookup_fmap, Hw.
Qed.


End Steps.

(** ** The runs of the stories are interleavings *)

Abbreviation story_step := (rstep story_flags "" no_regex no_hash None []).

Lemma no_observers : forall rt st, Forall (fun o => returns_or_throws (o rt st))
  (@nil (RunningTask -> TaskStatus -> outcome unit)).
Proof. constructor. Qed.
Lemma done_good t : good_status (done_now t).
Proof. split; [by apply wf_plain|by intros ?]. Qed.

Lemma beat_steps r P t w id r' id' :
  beat r t w id = Ret (r', id') -> rtc story_step (r, P) (r', P).
Proof.
  unfold beat. intros Hr. apply bind_Ret_iff in Hr as ([[r1 reqs] resp] & Hb & Hr).
  apply (heartbeat_steps _ "" no_regex no_hash) with (P := P) in Hb.
  destruct resp as [[resp ?]|]; [|done]. by destruct (hr_workerSetID resp); [injection Hr as <- _|].
Qed.

Lemma check_now_steps r P t r' : check_now r t = Ret r' -> rtc story_step (r, P) (r', P).
Proof.
  unfold check_now. intros Hr. apply bind_Ret_iff in Hr as ([r1 reqs] & Hc & Hr). injection Hr as <-.
  by eapply check_steps.
Qed.

Lemma connect_steps r P t w r' id :
  connect r t w = Ret (r', id) -> rtc story_step (r, P) (r', P).
Proof.
  unfold connect. intros Hr. apply bind_Ret_iff in Hr as ([r1 id1] & H1 & Hr).
  apply bind_Ret_iff in Hr as (r2 & H2 & Hr). apply bind_Ret_iff in Hr as (r3 & H3 & Hr).
  etransitivity; [by eapply beat_steps|].
  eapply rtc_l; [eapply step_fetched; [|exact H2]; by intros rt ?%not_elem_of_nil|].
  eapply rtc_l; [eapply step_report; [| |exact H3]; [apply done_good; exact 0|by left]|]. by eapply beat_steps.
Qed.

Lemma two_workers_steps r id :
  two_workers = Ret (r, id) ->
  rtc story_step (newRunner 100 story_sched story_statuses, []) (r, []).
Proof.
  unfold two_workers. intros Hr.
  apply bind_Ret_iff in Hr as ([r1 id1] & H1%(connect_steps _ []) & Hr).
  apply bind_Ret_iff in Hr as ([r2 id2] & H2%(connect_steps _ []) & Hr).
  apply bind_Ret_iff in Hr as ([r3 id3] & H3%(beat_steps _ []) & Hr).
  apply bind_Ret_iff in Hr as ([r4 id4] & H4%(beat_steps _ []) & Hr).
  apply bind_Ret_iff in Hr as ([r5 id5] & H5%(beat_steps _ []) & Hr).
  apply bind_Ret_iff in Hr as (r6 & H6%(check_now_steps _ []) & Hr).
  apply bind_Ret_iff in Hr as (r7 & H7 & Hr).
  apply bind_Ret_iff in Hr as (r8 & H8%(check_now_steps _ []) & Hr). injection Hr as <- _.
  do 6 (etransitivity; [eassumption|]). eapply rtc_l; [by eapply step_config|]. done.
Qed.

Lemma node_resources_same t need nodes rt by_node rt' by_node' :
  foldM (fun acc n =>
    let '(rt, by_node) := acc in
    let* (rt, by_node, _) :=
      addNodeResourcesToRunningTask t rt by_node (node_name n) (node_level n) need in
    Ret (rt, by_node)) (rt, by_node) nodes = Ret (rt', by_node') ->
  rt_job rt' = rt_job rt /\ rt_node rt' = rt_node rt.
Proof.
  revert rt by_node. induction nodes as [|m l IH]; intros rt by_node Hf; cbn in Hf.
  { by injection Hf as <- _. }
  apply bind_Ret_iff in Hf as ([rt2 b2] & H2 & Hf).
  apply bind_Ret_iff in H2 as ([[rt1 b1] nr] & H1 & H2). injection H2 as <- <-.
  apply addNodeResources_same in H1 as (_ & _ & _ & Hj & Hn). apply IH in Hf as [H1 H2].
  by rewrite H1, H2, Hj, Hn.
Qed.

(** [runTask] only prepares the record and the arguments of the task. *)
Lemma runTask_impl flags regex_search hasher store observers r now rnd t job cfg bs node prev r' reqs resp :
  runTask flags regex_search hasher store observers r now rnd t job cfg bs node prev
    = Ret (r', reqs, resp) ->
  exists rt args, rt_job rt = job_name job /\ rt_node rt = node_name node /\
    runTaskImpl regex_search hasher store observers r now job node rt args = Ret (r', reqs, resp).
Proof.
  unfold runTask. intros Hr. apply noexcept_Ret in Hr.
  apply bind_Ret_iff in Hr as ([rt by_node] & Hf & Hr). apply bind_Ret_iff in Hr as (next & _ & Hr).
  apply node_resources_same in Hf as [Hj Hn]. eexists _, _. split_and!; [| |exact Hr]; [exact Hj|exact Hn].
Qed.

(** One task is running on one of two workers. *)
Definition one_task : outcome (Runner * BistroWorker * RunningTask) :=
  let* (r, _) := two_workers in run_job_on r 107.

Lemma one_task_steps r w rt :
  one_task = Ret (r, w, rt) ->
  rtc story_step (newRunner 100 story_sched story_statuses, []) (r, []).
Proof.
  unfold one_task. intros Hr. apply bind_Ret_iff in Hr as ([r1 id] & H1 & Hr).
  assert (Hb : match two_workers with Ret (r, _) =>
      bool_decide (ts_run (taskStatuses_ r) ("job", "leaf") = None) &&
      bool_decide (lookup_obj (JobNameTable (names_ (taskStatuses_ r))) "job" = Some 0%nat) &&
      bool_decide (lookup_obj (NodeNameTable (names_ (taskStatuses_ r))) "leaf" = Some 0%nat)
    | _ => false end = true) by (vm_compute; reflexivity).
  rewrite H1 in Hb. apply andb_prop in Hb as [[Hn%bool_decide_eq_true_1 Hj%bool_decide_eq_true_1]%andb_prop
    Hl%bool_decide_eq_true_1]. apply two_workers_steps in H1.
  unfold run_job_on in Hr. apply bind_Ret_iff in Hr as ([[r2 reqs] resp] & H2 & Hr).
  apply runTask_impl in H2 as (rt2 & args & Hjob & Hnode & H2).
  assert (r2 = r) as -> by (by repeat case_match; simplify_eq).
  eapply rtc_r; [exact H1|]. eapply step_run; [| |exact H2].
  - unfold task_id_of. rewrite Hjob, Hnode. split; [exact Hn|by intros x ?%not_elem_of_nil].
  - split; [by rewrite Hjob|by rewrite Hnode].
Qed.

Lemma table1_wf x : table_wf (tableOf [x]).
Proof.
  intros s i. unfold tableOf, objToIndex_, objects_. cbn [imap foldl fst snd].
  rewrite lookup_insert. case_decide as Hx; [subst; destruct i; naive_solver|].
  rewrite lookup_empty. destruct i; naive_solver.
Qed.

Lemma story_statuses_inv : ts_inv story_statuses.
Proof.
  split; [apply emptySnapshot_inv|]. split_and!; [apply table1_wf..|]. intros j n rt Hrt.
  cbn in Hrt. by rewrite lookup_empty in Hrt.
Qed.


(** The same report with a store that takes the result, and one that throws. *)
Definition keeping_store (job node : string) (r : TaskResult) : outcome unit := Ret tt.
Definition failing_store (job node : string) (r : TaskResult) : outcome unit := Throw "disk full".

