(* ===== verification/RunnerTasks.v ===== *)
(** Starting a task: [TaskRunner::runTask] and [runTaskImpl] against the
    interface of the worker selectors.  The resources that are taken from a
    worker when a task starts are those that [updateConfig] takes out when it
    recomputes them from the running tasks. *)

From stdpp Require Import base gmap strings list.
From Stdlib Require Import ZArith QArith Lia.
From S2P Require Import Prelude Thrift WorkerSet Dynamic Backoff TaskStatus SymbolTable.
From S2P Require Import Snapshot WorkerState RemoteWorker RemoteWorkers Scheduling Config Jobs.
From S2P Require Import Selectors Resources Runner RunnerStories RunnerSafety.

#[local] Open Scope Z_scope.

(** ** The resources a task records *)

(** The resources [rids] of a job, by name. *)
Definition named_resources (t : ResourceTables) (need : list Z) (rids : list nat) : list Resource :=
  omap (fun rid => match objects_ (resourceNames t) !! rid, need !! rid with
                   | Some name, Some n => Some (mkResource name n)
                   | _, _ => None
                   end) rids.

Definition add_node_resources (rt : RunningTask) (nr : NodeResources) : RunningTask :=
  mkRunningTask (rt_job rt) (rt_node rt) (rt_nodeResources rt ++ [nr]) (rt_workerShard rt)
    (rt_invocationID rt) (rt_nextBackoffDuration rt) (rt_workerSuicideTaskKillWaitMs rt).

Section Recorded.
Context (n : nat) (t : ResourceTables) (level : nat) (rids : list nat) (need : list Z).
Hypothesis Hwf : tables_wf n t.
Hypothesis Hrids : levelIDToResourceID t !! level = Some rids.
Hypothesis Hneed : length need = length (objects_ (resourceNames t)).

Lemma rid_known rid : rid ∈ rids -> exists name x,
  objects_ (resourceNames t) !! rid = Some name /\ need !! rid = Some x.
Proof using Hwf Hrids Hneed.
  intros Hin. pose proof (rids_known _ _ Hwf _ _ _ Hrids Hin) as Hlt.
  destruct (lookup_lt_is_Some_2 _ _ Hlt) as [name ?]. rewrite <- Hneed in Hlt.
  destruct (lookup_lt_is_Some_2 _ _ Hlt) as [x ?]. eauto.
Qed.

Lemma mapM_named l :
  (forall rid, rid ∈ l -> rid ∈ rids) ->
  mapM (fun rid =>
    let* rsrc_name := lookup_id (resourceNames t) rid in
    match need !! rid with
    | None => Undef "job_resources[resource_id]"
    | Some rsrc_val => Ret (mkResource rsrc_name rsrc_val)
    end) l = Ret (named_resources t need l).
Proof using Hwf Hrids Hneed.
  induction l as [|rid l IH]; intros Hl; [done|]. cbn [mapM].
  destruct (rid_known rid) as (name & x & Hname & Hx); [apply Hl; by left|].
  rewrite IH by (intros r Hr; apply Hl; by right). unfold lookup_id. rewrite Hname.
  cbn [mbind outcome_bind]. rewrite Hx. cbn. by rewrite Hname, Hx.
Qed.

(** [addNodeResourcesToRunningTask] returns. *)
Lemma addNodeResources_ok rt by_node name :
  exists rt' by_node' nr, addNodeResourcesToRunningTask t rt by_node name level need
      = Ret (rt', by_node', nr) /\
    match nr with
    | None => rids = [] /\ rt' = rt
    | Some nr => nr = mkNodeResources name (named_resources t need rids) /\
                 rt' = add_node_resources rt nr
    end.
Proof using Hwf Hrids Hneed.
  unfold addNodeResourcesToRunningTask. rewrite Hrids.
  pose proof (mapM_named rids (fun _ H => H)) as Hm. clear Hrids. destruct rids as [|rid l].
  - eexists _, _, None. split; [reflexivity|done].
  - rewrite Hm. cbn [mbind outcome_bind]. eexists _, _, (Some _). split; [reflexivity|]. done.
Qed.
(** What [updateConfig] reads back of the recorded resources. *)
Lemma named_uses config l rid :
  rc_tables config = t -> NoDup l -> (forall r, r ∈ l -> r ∈ rids) ->
  uses config (named_resources t need l) rid =
    if bool_decide (rid ∈ l) then default 0 (need !! rid) else 0.
Proof using Hwf Hrids Hneed.
  intros Hc. induction l as [|r l IH]; intros Hnd Hl.
  { by rewrite bool_decide_false by apply not_elem_of_nil. }
  apply NoDup_cons in Hnd as [Hr Hnd].
  destruct (rid_known r) as (name & x & Hname & Hx); [apply Hl; by left|].
  unfold named_resources. cbn [omap list_omap]. rewrite Hname, Hx. rewrite uses_cons.
  fold (named_resources t need l). rewrite IH; [|done|intros q Hq; apply Hl; by right].
  unfold use_of. rewrite Hc. cbn [res_name res_amount].
  assert (Hlook : lookup_obj (resourceNames t) name = Some r)
    by (by apply (names_table _ _ Hwf)).
  rewrite Hlook. destruct (decide (r = rid)) as [->|Hne].
  - rewrite (bool_decide_true (Some rid = Some rid)) by done.
    rewrite (bool_decide_false (rid ∈ l)) by done.
    rewrite (bool_decide_true (rid ∈ rid :: l)) by by left. rewrite Hx. cbn. lia.
  - rewrite (bool_decide_false (Some r = Some rid)) by congruence.
    rewrite (bool_decide_ext (rid ∈ r :: l) (rid ∈ l)); [lia|].
    rewrite elem_of_cons. naive_solver.
Qed.
End Recorded.

(** ** A started task *)

Section Start.
Context (regex_search : string -> string -> bool) (hasher : string -> string -> Z).
Context (store : option (string -> string -> TaskResult -> outcome unit)).
Context (observers : list (RunningTask -> TaskStatus -> outcome unit)).
Hypothesis Hobs : forall rt st, Forall (fun o => returns_or_throws (o rt st)) observers.

Abbreviation run r := (ts_run (taskStatuses_ r)).
Abbreviation pool r := (workerPool_ (workers_ r)).
Abbreviation start := (runTaskImpl regex_search hasher store observers).

(** What [runTaskImpl] relies on: the configuration has been set, the job's
    resources are those of the configuration, the arguments have been made by
    [runTask] and name no worker as a node, the cgroup limits are integers,
    and no worker that may be picked has an unsettled older request for the
    task. *)
Record can_start (r : Runner) (P : list RunningTask) (config : RunnerConfig) (level : nat)
    (job : Job) (node : Node) (rt : RunningTask) (args by_node : list (string * dynamic)) : Prop := {
  cs_waited : runner_inInitialWait r = false;
  cs_config : config_ r = Some config /\ workerLevel_ r = Some level;
  cs_tables : exists n, tables_wf n (rc_tables config) /\ (level < n)%nat;
  cs_need : length (resources_ job) = length (objects_ (resourceNames (rc_tables config)));
  cs_args : assoc "resources_by_node" args = Some (DObject by_node);
  cs_names : forall s w, pool r !! s = Some w -> assoc s by_node = None;
  cs_limits : forall rids, levelIDToResourceID (rc_tables config) !! level = Some rids ->
    is_ret (cgroup_limits config (named_resources (rc_tables config) (resources_ job) rids)) = true;
  cs_settled : forall s w, pool r !! s = Some w -> unsureIfRunningTasks_ w !! task_id_of rt = None;
  cs_fresh : fresh_task r P (task_id_of rt);
  cs_ids : ids_known r rt (job_id job) (node_id node)
}.

(** The record of a task that runs on a worker. *)
Definition started (config : RunnerConfig) (level : nat) (job : Job) (rt : RunningTask)
    (shard : string) : RunningTask :=
  match default [] (levelIDToResourceID (rc_tables config) !! level) with
  | [] => set_shard rt shard
  | rids => add_node_resources (set_shard rt shard)
              (mkNodeResources shard (named_resources (rc_tables config) (resources_ job) rids))
  end.

Lemma on_worker_ok r s w f w' :
  pool r !! s = Some w -> f w = Ret w' ->
  on_worker r s f = Ret (set_workers r (set_sets (workers_ r) (sets_ (workers_ r))
    (<[s := w']> (pool r)))).
Proof. intros Hw Hf. unfold on_worker, mutableWorkerOrAbort. rewrite Hw. cbn. by rewrite Hf. Qed.

Lemma run_found r P now config level job node rt args by_node rs wr s w seq :
  runner_inv r P -> can_start r P config level job node rt args by_node ->
  findWorker regex_search hasher (remoteWorkerSelectorType config) (rc_tables config)
    job node level (workerResources_ r) (workers_ r)
    = Ret (rs, wr, Some (worker_ w, seq), RanTask) ->
  pool r !! s = Some w -> shard_of w = s ->
  exists r' args' limits, start r now job node rt args =
      Ret (r', [ReqRunTask (worker_ w) (started config level job rt s) args' limits seq], RanTask) /\
    runner_inv r' P /\ workerResources_ r' = wr /\
    forall k, run r' k = upd (run r) (task_id_of rt) (Some (started config level job rt s)) k.
Proof using Hobs.
  intros Hi Hc Hfind Hw Hs. pose proof Hc as [Hwait [Hcfg Hlvl] (n & Hwf & Hlt) Hneed Hargs Hnames Hlim Hset [HR HP] Hids].
  pose proof (findWorker_pool _ _ _ _ _ _ _ _ _ _ _ _ _ Hfind) as Hpool.
  destruct (lookup_lt_is_Some_2 (levelIDToResourceID (rc_tables config)) level) as [rids Hr];
    [by rewrite (rids_levels _ _ Hwf)|].
  subst s. set (s := shard_of w) in *.
  destruct (addNodeResources_ok n _ level rids (resources_ job) Hwf Hr Hneed (set_shard rt s) by_node s)
    as (rt1 & by1 & nr & Hadd & Hnr).
  assert (Hrt1 : rt1 = started config level job rt s).
  { unfold started. rewrite Hr. cbn [default from_option id]. destruct nr as [nr|].
    - destruct Hnr as [Hnr ->]. destruct rids; [|by rewrite Hnr].
      unfold addNodeResourcesToRunningTask in Hadd. rewrite Hr in Hadd. discriminate Hadd.
    - destruct Hnr as [Hnr ->]. by rewrite Hnr. }
  pose proof (addNodeResources_same _ _ _ _ _ _ _ _ _ Hadd) as (Hk & Hsh & Hinv & Hj & Hn).
  change (task_id_of (set_shard rt s)) with (task_id_of rt) in Hk. cbn in Hj, Hn.
  assert (exists limits, match nr with
      | Some nr => cgroup_limits config (nr_resources nr) | None => Ret (mkLimits 0 0) end
      = Ret limits) as [limits Hl].
  { destruct nr as [nr|]; [|eauto]. destruct Hnr as [-> _]. cbn [nr_resources]. specialize (Hlim rids Hr).
    destruct (cgroup_limits config _); [eauto|discriminate Hlim..]. }
  set (st := running_data now (Some (DObject
    [("shard", DString s); ("hostname", DString (hostname (bw_machineLock (worker_ w))));
     ("port", DInt (lock_port (bw_machineLock (worker_ w))))]))).
  set (r1 := set_resources (set_workers r rs) wr).
  assert (Hw1 : pool r1 !! s = Some w) by (cbn; by rewrite Hpool).
  assert (Hrec : recordRunningTaskStatus w rt1 st =
    Ret (set_tasks w (<[task_id_of rt1 := rt1]> (rw_runningTasks w)) (unsureIfRunningTasks_ w))).
  { unfold recordRunningTaskStatus. rewrite Hk, (Hset s w Hw).
    assert (rw_runningTasks w !! task_id_of rt = None) as ->; [|reflexivity].
    destruct (rw_runningTasks w !! task_id_of rt) as [x|] eqn:Ex; [|done].
    destruct (ag_worker _ _ _ (ri_agree _ _ Hi) s (rw_runningTasks w) (task_id_of rt) x)
      as (_ & _ & Hx); [unfold tasks_of; by rewrite lookup_fmap, Hw|done|]. congruence. }
  pose proof (on_worker_ok r1 s w (fun w => recordRunningTaskStatus w rt1 st) _ Hw1 Hrec) as Hon.
  match type of Hon with _ = Ret ?r2 => set (r2' := r2) in * end.
  destruct (update_ids_started store observers Hobs now (taskStatuses_ r2') (job_id job)
    (node_id node) rt1 st) as (ts' & Hu & _ & _ & Hrun).
  { apply Hi. }
  { by apply wf_plain. }
  1-4: reflexivity.
  { cbn. rewrite Hj. apply Hids. }
  { cbn. rewrite Hn. apply Hids. }
  { intros rt'. cbn. by rewrite Hk, HR. }
  assert (Hcb : scheduler_cb store observers r2' now (job_id job) (node_id node) rt1 st =
    Ret (set_statuses r2' ts')) by (unfold scheduler_cb; by rewrite Hu).
  assert (Hret : exists args', start r now job node rt args = Ret (set_statuses r2' ts',
      [ReqRunTask (worker_ w) (started config level job rt s) args' limits seq], RanTask)).
  { eexists. unfold runTaskImpl. rewrite Hwait, Hcfg, Hlvl, Hfind. cbn [mbind outcome_bind].
    rewrite !assoc_set_ne, Hargs by done.
    change (bw_shard (worker_ w)) with s. rewrite (Hnames s w Hw), CHECK_true by done.
    cbn [mbind outcome_bind]. rewrite Hadd. cbn [mbind outcome_bind]. rewrite Hl.
    cbn [mbind outcome_bind]. fold st. fold r1. rewrite Hon. cbn [mbind outcome_bind].
    rewrite Hcb. cbn. rewrite <- Hrt1. reflexivity. }
  destruct Hret as [args' Hret]. exists (set_statuses r2' ts'), args', limits. split; [done|].
  split; [by eapply run_inv|]. split; [done|]. intros k. cbn. rewrite Hrun.
  change (isRunning st) with true. cbn. rewrite Hk, HR, <- Hrt1. done.
Qed.
#[global] Instance findWorker_laws n type t level :
  tables_wf n t -> (level < n)%nat ->
  SelectorLaws regex_search hasher level (findWorker regex_search hasher type t).
Proof.
  intros Hwf Hlt. destruct type; cbn; [apply RoundRobin_laws|by eapply Busiest_laws].
Defined.

(** C15: [runTaskImpl] is built on the promise of the worker selectors: it
    trips no check; if a candidate worker is usable it asks exactly one such
    worker to run the task, charges the job's resources to it, and has the
    task running in both records from then on, else it asks nobody, charges
    nothing and changes no status. *)
Theorem runTask_starts r P now config level job node rt args by_node
    (L : SelectorLaws regex_search hasher level
           (findWorker regex_search hasher (remoteWorkerSelectorType config) (rc_tables config))) :
  runner_inv r P -> can_start r P config level job node rt args by_node ->
  selectable regex_search hasher (sel_ok regex_search hasher) job node level (workerResources_ r) (workers_ r) ->
  let candidate s w := s ∈ candidates (requiredHostForTask job node) (workers_ r) /\
                       pool r !! s = Some w in
  let is_usable := usable regex_search hasher (sel_checked regex_search hasher) job level (workerResources_ r) in
  exists r' reqs resp, start r now job node rt args = Ret (r', reqs, resp) /\ runner_inv r' P /\
    ((exists s w args' limits seq, candidate s w /\ is_usable w = true /\ resp = RanTask /\
        reqs = [ReqRunTask (worker_ w) (started config level job rt s) args' limits seq] /\
        workerResources_ r' = charge (sel_checked regex_search hasher) job (workerResources_ r) w /\
        forall k, run r' k = upd (run r) (task_id_of rt) (Some (started config level job rt s)) k) \/
     ((forall s w, candidate s w -> is_usable w = false) /\ resp <> RanTask /\ reqs = [] /\
        workerResources_ r' = workerResources_ r /\ taskStatuses_ r' = taskStatuses_ r)).
Proof using Hobs.
  intros Hi Hc Hsel candidate is_usable.
  destruct (sel_law regex_search hasher job node (workerResources_ r) (workers_ r) Hsel)
    as (rs & wr & fd & resp & Hf & Hsame & Hres).
  destruct Hres as [(s & w & Hin & Hw & Hsh & Hu & Hfd & Hresp & Hwr)|(Hno & Hfd & Hresp & Hwr)].
  - subst fd resp. unfold report in Hf.
    destruct (run_found r P now config level job node rt args by_node rs wr s w _ Hi Hc Hf Hw Hsh)
      as (r' & args' & limits & Hr & Hi' & Hwr' & Hrun).
    do 3 eexists. split; [exact Hr|]. split; [done|]. left.
    exists s, w, args', limits. eexists. split; [done|]. split; [done|]. split; [done|].
    split; [done|]. split; [by rewrite Hwr'|done].
  - assert (Hr : start r now job node rt args = Ret (set_resources (set_workers r rs) wr, [], resp)).
    { unfold runTaskImpl. destruct Hc as [-> [-> ->] _ _ _ _ _ _ _ _]. rewrite Hf.
      cbn [mbind outcome_bind]. by destruct resp. }
    do 3 eexists. split; [exact Hr|]. split; [eapply run_inv; [exact Hi|apply Hc|apply Hc|exact Hr]|].
    right. split; [|done]. intros s w [Hin Hw]. by apply (Hno s w).
Qed.
End Start.

(** ** Charging and recomputing *)

Lemma sum_by_perm {A} (f : A -> Z) l l' : l ≡ₚ l' -> sum_by f l = sum_by f l'.
Proof. induction 1; unfold sum_by in *; cbn; lia. Qed.

Lemma sum_by_app {A} (f : A -> Z) l l' : sum_by f (l ++ l') = sum_by f l + sum_by f l'.
Proof. induction l as [|a l IH]; unfold sum_by in *; cbn; lia. Qed.

Lemma sum_by_zero {A} (f : A -> Z) l : (forall a, a ∈ l -> f a = 0) -> sum_by f l = 0.
Proof.
  induction l as [|a l IH]; intros H; [done|]. cbn. rewrite (H a) by by left.
  fold (sum_by f l). rewrite IH; [done|]. intros x Hx. apply H. by right.
Qed.

(** The started task uses on its worker what the job needs, on no other. *)
Lemma started_uses n config level rids job rt s s' rid :
  tables_wf n (rc_tables config) -> levelIDToResourceID (rc_tables config) !! level = Some rids ->
  length (resources_ job) = length (objects_ (resourceNames (rc_tables config))) ->
  (forall nr, nr ∈ rt_nodeResources rt -> nr_node nr <> s) ->
  task_uses config s' [started config level job rt s] rid =
    if bool_decide (s' = s /\ rid ∈ rids) then default 0 (resources_ job !! rid) else 0.
Proof.
  intros Hwf Hr Hneed Hnodes. rewrite task_uses_cons.
  assert (Hsh : rt_workerShard (started config level job rt s) = s)
    by (unfold started; by case_match).
  rewrite Hsh. change (task_uses config s' [] rid) with 0. destruct (String.eqb_spec s s') as [<-|Hne].
  2: { rewrite bool_decide_false; [lia|naive_solver]. }
  assert (H0 : node_uses config s (rt_nodeResources rt) rid = 0).
  { apply sum_by_zero. intros nr Hn. by rewrite (proj2 (String.eqb_neq _ _) (Hnodes nr Hn)). }
  rewrite (bool_decide_ext (s = s /\ rid ∈ rids) (rid ∈ rids)) by naive_solver.
  unfold started. rewrite Hr. cbn [default from_option id]. destruct rids as [|r0 l] eqn:El.
  - cbn [rt_nodeResources set_shard]. rewrite H0, bool_decide_false; [done|apply not_elem_of_nil].
  - cbn [rt_nodeResources set_shard add_node_resources]. unfold node_uses. rewrite sum_by_app.
    fold (node_uses config s (rt_nodeResources rt) rid). rewrite H0. cbn [sum_by foldr nr_node nr_resources].
    rewrite String.eqb_refl.
    rewrite (named_uses n (rc_tables config) level (r0 :: l) (resources_ job) Hwf) by
      (done || exact (rids_NoDup _ _ Hwf _ _ Hr)). lia.
Qed.

Section Recompute.
Context (n : nat) (config : RunnerConfig) (level : nat) (def_resources : list Z) (rids : list nat).
Context (workers : list BistroWorker) (rts rts' : list RunningTask).
Context (job : Job) (rt : RunningTask) (w : RemoteWorker) (checked : list Z -> list nat).
Hypothesis Hwf : tables_wf n (rc_tables config).
Hypothesis Hrids : levelIDToResourceID (rc_tables config) !! level = Some rids.
Hypothesis Hdef : resourcesByLevel (rc_tables config) !! level = Some def_resources.
Hypothesis Hneed : length (resources_ job) = length (objects_ (resourceNames (rc_tables config))).
(** The workers, and what they can give. *)
Hypothesis Hshards : NoDup (map bw_shard workers).
Hypothesis Hfits : forall v, v ∈ workers -> config_fits config def_resources v.
Hypothesis Hafford : forall v cap, v ∈ workers -> worker_capacity config def_resources v = Ret cap ->
  affords cap (task_uses config (bw_shard v) rts').
(** Amounts are not negative, and no node has the name of the worker. *)
Hypothesis Hamounts : forall x, x ∈ rts' -> nonneg_nodes (rt_nodeResources x).
Hypothesis Hnodes : forall nr, nr ∈ rt_nodeResources rt -> nr_node nr <> shard_of w.
(** [rts'] is [rts] with the new task, and the selector looked at the
    resources of the worker level at least. *)
Hypothesis Hperm : rts' ≡ₚ started config level job rt (shard_of w) :: rts.
Hypothesis Hchecked : forall v rid, rid ∈ rids -> rid ∈ checked v.

Definition capacity_of (v : BistroWorker) : list Z :=
  match worker_capacity config def_resources v with Ret c => c | _ => [] end.

Lemma capacity_of_ok v : v ∈ workers ->
  worker_capacity config def_resources v = Ret (capacity_of v).
Proof using Hfits.
  intros Hv. destruct (worker_capacity_ok config def_resources v (Hfits v Hv)) as (c & Hc & _).
  unfold capacity_of. by rewrite Hc.
Qed.

Lemma uses_grow s rid :
  task_uses config s rts' rid = task_uses config s rts rid +
    (if bool_decide (s = shard_of w /\ rid ∈ rids) then default 0 (resources_ job !! rid) else 0).
Proof using Hwf Hrids Hneed Hnodes Hperm.
  unfold task_uses. rewrite (sum_by_perm _ _ _ Hperm).
  change (started config level job rt (shard_of w) :: rts)
    with ([started config level job rt (shard_of w)] ++ rts).
  rewrite sum_by_app. fold (task_uses config s [started config level job rt (shard_of w)] rid).
  rewrite (started_uses n config level rids job rt (shard_of w) s rid) by done. lia.
Qed.

Lemma old_affords v : v ∈ workers -> affords (capacity_of v) (task_uses config (bw_shard v) rts).
Proof using Hwf Hrids Hneed Hfits Hafford Hamounts Hnodes Hperm.
  intros Hv i x Hx. pose proof (Hafford v _ Hv (capacity_of_ok v Hv) i x Hx) as Ha.
  enough (task_uses config (bw_shard v) rts i <= task_uses config (bw_shard v) rts' i) by lia.
  unfold task_uses. rewrite (sum_by_perm _ _ _ Hperm).
  change (started config level job rt (shard_of w) :: rts)
    with ([started config level job rt (shard_of w)] ++ rts).
  rewrite sum_by_app.
  assert (0 <= sum_by (fun rt => if String.eqb (rt_workerShard rt) (bw_shard v)
    then node_uses config (bw_shard v) (rt_nodeResources rt) i else 0)
    [started config level job rt (shard_of w)]); [|lia].
  apply (task_uses_nonneg config (bw_shard v) [_]). intros x' ->%list_elem_of_singleton.
  apply Hamounts. rewrite Hperm. by left.
Qed.

(** Both vectors give the same amounts of these resources. *)
Definition same_amounts (rids : list nat) (a b : list Z) : Prop :=
  forall rid, rid ∈ rids -> a !! rid = b !! rid.

(** The resources that starting a task takes from its worker are those
    that [updateConfig] takes out when it next recomputes all resources from
    the running tasks: for every worker, both vectors agree on the resources
    of the worker level. *)
Theorem charge_is_recomputed :
  exists wr wr', computeResources config level workers rts = Ret wr /\
    computeResources config level workers rts' = Ret wr' /\
    forall v, v ∈ workers -> exists a b,
      charge checked job wr w !! bw_shard v = Some a /\ wr' !! bw_shard v = Some b /\
      same_amounts rids a b.
Proof using All.
  destruct (computeResources_ok config level workers rts def_resources capacity_of Hdef Hshards
    capacity_of_ok) as (wr & H1 & H2 & _); [|exact old_affords|].
  { intros x Hx. apply Hamounts. rewrite Hperm. by right. }
  destruct (computeResources_ok config level workers rts' def_resources capacity_of Hdef Hshards
    capacity_of_ok Hamounts) as (wr' & H3 & H4 & _);
    [intros v Hv; by apply Hafford, capacity_of_ok|].
  exists wr, wr'. split; [done|]. split; [done|]. intros v Hv.
  unfold charge. rewrite lookup_alter, (H4 v Hv). case_decide as Hs.
  - rewrite Hs, (H2 v Hv). eexists _, _. split; [reflexivity|]. split; [reflexivity|]. intros rid Hrid.
    rewrite remaining_lookup, !less_lookup, uses_grow.
    rewrite (bool_decide_true (bw_shard v = shard_of w /\ rid ∈ rids)) by done.
    rewrite bool_decide_true by by apply Hchecked.
    destruct (capacity_of v !! rid); [cbn; f_equal; lia|done].
  - rewrite (H2 v Hv). eexists _, _. split; [reflexivity|]. split; [reflexivity|]. intros rid Hrid.
    rewrite !less_lookup, uses_grow, bool_decide_false by (intros [? _]; congruence).
    destruct (capacity_of v !! rid); [cbn; f_equal; lia|done].
Qed.
End Recompute.

(** ** Samples *)

Definition idle_config : RunnerConfig :=
  mkRunnerConfig (parse_levels []) sample_tables [] ∅ ∅ RoundRobin 0.
(** Four idle workers. *)
Definition idle_runner : Runner :=
  mkRunner sample_workers sample_wr (Some idle_config) (Some 1%nat) story_statuses false story_sched.
Definition asked_task : RunningTask :=
  mkRunningTask "job" "leaf" [] "" (mkInstanceID 5 6) (mkBackoffDuration false 15) 0.

Lemma idle_inv r :
  (forall s w, workerPool_ (workers_ r) !! s = Some w -> rw_runningTasks w = ∅) ->
  ts_inv (taskStatuses_ r) -> runningTasks_ (snapshot_ (taskStatuses_ r)) = ∅ -> runner_inv r [].
Proof.
  intros Hw Ht He. split; [|done]. split.
  - intros s m k rt. unfold tasks_of. rewrite lookup_fmap.
    destruct (workerPool_ (workers_ r) !! s) as [w|] eqn:E; [|done]. cbn. rewrite (Hw s w E).
    intros [= <-]. by rewrite lookup_empty.
  - intros k rt. unfold ts_run. rewrite He. by repeat case_match.
  - by intros rt ?%not_elem_of_nil.
Qed.

Lemma idle_workers s w : workerPool_ sample_workers !! s = Some w ->
  rw_runningTasks w = ∅ /\ unsureIfRunningTasks_ w = ∅.
Proof.
  intros Hw. apply elem_of_map_to_list, list_elem_of_In in Hw. vm_compute in Hw.
  by repeat destruct Hw as [[= <- <-]|Hw].
Qed.

Lemma runTask_starts_witness :
  exists r' reqs, runTaskImpl no_regex no_hash None [] idle_runner 9 sample_wjob sample_leaf
      asked_task [("resources_by_node", DObject [])] = Ret (r', reqs, RanTask) /\
    exists s, ts_run (taskStatuses_ r') ("job", "leaf")
      = Some (started idle_config 1 sample_wjob asked_task s).
Proof.
  destruct (runTask_starts no_regex no_hash None [] no_observers idle_runner [] 9 idle_config 1
    sample_wjob sample_leaf asked_task [("resources_by_node", DObject [])] []
    (RoundRobin_laws no_regex no_hash 1)) as (r' & reqs & resp & Hr & _ & Hres).
  - apply idle_inv; [apply idle_workers|exact story_statuses_inv|done].
  - split; try done.
    + exists 2%nat. split; [exact sample_tables_wf|lia].
    + intros rids Hrids. vm_compute in Hrids. injection Hrids as <-. by vm_compute.
    + intros s w Hw. by rewrite (proj2 (idle_workers s w Hw)).
    + split; [done|by intros x ?%not_elem_of_nil].
  - apply sample_selectable. repeat (apply Forall_cons_2; [split; [cbn; lia|]|]); [..|done];
      intros i a m Ha Hm; destruct i; simplify_eq/=; unfold is_s32; lia.
  - exists r', reqs. destruct Hres as [(s & w & a & l & q & _ & _ & -> & _ & _ & Hrun)|(_ & Hn & _)].
    + split; [exact Hr|]. exists s. by rewrite Hrun.
    + exfalso. apply Hn. assert (H : match runTaskImpl no_regex no_hash None [] idle_runner 9
        sample_wjob sample_leaf asked_task [("resources_by_node", DObject [])] with
        | Ret (_, _, RanTask) => true | _ => false end = true) by (vm_compute; reflexivity).
      rewrite Hr in H. by destruct resp.
Defined.

Definition big_remote : RemoteWorker :=
  mkRemoteWorker sample_big_worker (mkWorkerState HEALTHY 0 0 0 true 7)
    (mkWorkerSetID (mkInstanceID 4 1) 1 emptyWorkerSetHash) None None None 0 ∅ ∅ 0 0 (mkInstanceID 4 1).
Definition big_job : Job := mkJob 0 "job" true true 1 1%Q [2; 3] [noFilters; noFilters] None "" [].
Definition big_tasks : list RunningTask :=
  [started sample_config 1 big_job asked_task "w"; sample_big_task].

Lemma big_tables_wf : tables_wf 2 (rc_tables sample_config).
Proof.
  pose proof (parse_resources_tables (parse_levels [])
    [("worker", [("slots", mkSpec (Int64 1) (Int64 4) Absent);
                 ("mem_gb", mkSpec (Int64 0) (Int64 1) Absent)])] (parse_levels_wf [])) as H.
  cbn [rc_tables sample_config]. destruct (parse_resources _ _) as [t| | |] eqn:E; try discriminate E.
  apply H. apply (bool_decide_unpack _). vm_compute. exact I.
Qed.

Lemma charge_is_recomputed_witness :
  exists wr wr' a b,
    computeResources sample_config 1 [sample_big_worker] [sample_big_task] = Ret wr /\
    computeResources sample_config 1 [sample_big_worker] big_tasks = Ret wr' /\
    charge all_rids big_job wr big_remote !! "w" = Some a /\ wr' !! "w" = Some b /\
    a !! 0%nat = b !! 0%nat /\ a !! 1%nat = b !! 1%nat.
Proof.
  destruct (charge_is_recomputed 2 sample_config 1 [4; 1] [0%nat; 1%nat] [sample_big_worker]
    [sample_big_task] big_tasks big_job asked_task big_remote (fun _ => [0%nat; 1%nat]))
    as (wr & wr' & H1 & H2 & H3); try done.
  - exact big_tables_wf.
  - apply (bool_decide_unpack _). vm_compute. exact I.
  - exact sample_fits.
  - intros w cap ->%list_elem_of_singleton Hc. vm_compute in Hc. injection Hc as <-.
    intros i n Hi. do 2 (destruct i as [|i]; [injection Hi as <-; by vm_compute|]). done.
  - intros x Hx nr Hnr r Hr. apply list_elem_of_In in Hx, Hnr, Hr. vm_compute in Hx.
    repeat destruct Hx as [<-|Hx]; try done; cbn in Hnr;
      repeat destruct Hnr as [<-|Hnr]; try done; cbn in Hr;
      repeat destruct Hr as [<-|Hr]; try done; cbn; lia.
  - by intros nr ?%not_elem_of_nil.
  - destruct (H3 sample_big_worker (list_elem_of_here _ _)) as (a & b & Ha & Hb & Hab).
    exists wr, wr', a, b. split; [done|]. split; [done|]. split; [|split; [done|]].
    + rewrite <- Ha. vm_compute in H1. injection H1 as <-. vm_compute. reflexivity.
    + split; apply Hab; set_solver.
Defined.
