(* ===== verification/Scheduler.v ===== *)
(** [scheduler/Scheduler.cpp]: one round of scheduling.  Nodes are grouped by
    level and given cells of the packed resources, the resources of running
    tasks are taken out, the cross product of jobs and nodes is reduced to
    the tasks that may run, and the configured policy
    ([scheduler/SchedulerPolicies.cpp]) tries them.

    The node objects are a vector; a parent pointer is an index into it, and
    the mutable [offset]s of the objects are a vector of their own, which
    packing updates.  Once packing is done, [node_values] reads a node with
    its offset and those of its ancestors.  [std::sort], [std::shuffle], the
    shuffling of the jobs and the order of the hash map of groups are
    arguments. *)

From stdpp Require Import base gmap strings list sorting.
From Stdlib Require Import ZArith QArith Lia Permutation.
From S2P Require Import Prelude Thrift SymbolTable TaskStatus Snapshot Scheduling Config Jobs.

#[local] Open Scope Z_scope.

(** ** Data *)

Record NodeObj := mkNodeObj {
  obj_id : nat;
  obj_name : string;
  obj_level : nat;
  obj_enabled : bool;
  obj_parent : option nat;
  obj_tags : list string
}.

Inductive NodeOrderType := Original | Lexicographic | Random.

(** The parts of [Config] that [schedule] reads. *)
Record Config := mkConfig {
  cfg_levels : StringTable;
  cfg_tables : ResourceTables;
  cfg_jobs : gmap string Job;
  nodeOrderType : NodeOrderType;
  schedulerPolicyName : string
}.

Record Result := mkResult {
  areTasksRunning_ : bool;
  orphanTasks_ : list RunningTask
}.

(** ** Node groups *)

(** [makeResourceToIndex]: the names of a group's resources. *)
Definition makeResourceToIndex (t : ResourceTables) (rids : list nat) : outcome (gmap string nat) :=
  foldM (fun m p => let* name := lookup_id (resourceNames t) p.2 in Ret (<[name := p.1]> m))
    ∅ (imap pair rids).

(** [node_groups.at(node->level()).nodes_.push_back(node)], for all nodes. *)
Definition group_nodes (nlevels : nat) (nodes : list NodeObj) : outcome (list (list nat)) :=
  foldM (fun groups p =>
           require (obj_level p.2 <? nlevels)%nat "node_groups.at(level)" ;;;
           Ret (alter (fun g => g ++ [p.1]) (obj_level p.2) groups))
    (replicate nlevels []) (imap pair nodes).

(** The amounts of a group's resources, in the order of [rids]. *)
Definition group_amounts (limits : list Z) (rids : list nat) : outcome (list Z) :=
  foldM (fun amounts rid =>
           match limits !! rid with
           | None => Throw "rid_to_amount.at(rid)"
           | Some amount =>
               CHECK (negb (amount =? INT32_MAX)) "CHECK_NE(INT_MAX, amount)" ;;;
               Ret (amounts ++ [amount])
           end) [] rids.

(** One node of [packResourcesInto]'s loop: the offsets by name, the offsets
    of the objects, and the packed resources of the group. *)
Definition pack_node (nodes : list NodeObj) (amounts : list Z)
    (acc : gmap string nat * list nat * list Z) (i : nat)
    : outcome (gmap string nat * list nat * list Z) :=
  let '(by_name, offsets, packed) := acc in
  match nodes !! i with
  | None => Undef "nodes_"
  | Some o =>
      match by_name !! obj_name o with
      | Some k => Ret (by_name, <[i := (k * length amounts)%nat]> offsets, packed)
      | None =>
          Ret (<[obj_name o := size by_name]> by_name,
               <[i := (size by_name * length amounts)%nat]> offsets, packed ++ amounts)
      end
  end.

(** [packResourcesInto] for the group [ngid]. *)
Definition packResourcesInto (t : ResourceTables) (nodes : list NodeObj)
    (acc : list nat * Packed) (group : nat * list nat) : outcome (list nat * Packed) :=
  match resourcesByLevel t !! group.1, levelIDToResourceID t !! group.1 with
  | Some limits, Some rids =>
      let* amounts := group_amounts limits rids in
      let* (by_name, offsets, packed) :=
        foldM (pack_node nodes amounts) (∅, acc.1, default [] (acc.2 !! group.1)) group.2 in
      CHECK (size by_name * length amounts =? length packed)%nat "CHECK_EQ(packed_resources.size())" ;;;
      Ret (offsets, <[group.1 := packed]> acc.2)
  | _, _ => Throw "at(nodeGroupID_)"
  end.

(** The node objects as values, each with its offset and its ancestors. *)
Definition node_values (nodes : list NodeObj) (offsets : list nat) : list Node :=
  foldl (fun vs p => vs ++ [mkNode (obj_id p.1) (obj_name p.1) (obj_level p.1) (obj_enabled p.1)
                              (obj_parent p.1 ≫= fun i => vs !! i) (obj_tags p.1) p.2])
    [] (zip nodes offsets).

(** ** Running tasks *)

(** [node_to_tasks]: [push_front]. *)
Definition tasks_by_node (running : list RunningTask) : gmap string (list RunningTask) :=
  foldl (fun m rt => <[rt_node rt := rt :: default [] (m !! rt_node rt)]> m) ∅ running.

(** [node_used_resources]. *)
Definition used_by_node (running : list RunningTask) : gmap string (list Resource) :=
  foldl (fun m rt =>
    foldl (fun m nr => <[nr_node nr := default [] (m !! nr_node nr) ++ nr_resources nr]> m)
      m (rt_nodeResources rt)) ∅ running.

(** Is the task's job known and able to run? *)
Definition job_can_run (jobs : gmap string Job) (rt : RunningTask) : bool :=
  match jobs !! rt_job rt with Some j => canRun j | None => false end.

(** [amount -= *r->amount()] for one resource of a node; unknown resources
    are logged and ignored. *)
Definition take_resource (index : gmap string nat) (offset : nat) (packed : list Z) (r : Resource)
    : outcome (list Z) :=
  match index !! res_name r with
  | None => Ret packed
  | Some k =>
      match packed !! (offset + k)%nat with
      | None => Throw "packed_resources.at"
      | Some amount =>
          let* rest := sub32 amount (res_amount r) in
          Ret (<[(offset + k)%nat := rest]> packed)
      end
  end.

(** One node of the loop: tasks that are no orphans are dropped from
    [node_to_tasks], and what was used on the node is taken and erased. *)
Definition process_node (jobs : gmap string Job) (nodes : list NodeObj) (offsets : list nat)
    (index : gmap string nat)
    (acc : gmap string (list RunningTask) * gmap string (list Resource) * list Z) (i : nat)
    : outcome (gmap string (list RunningTask) * gmap string (list Resource) * list Z) :=
  let '(to_tasks, used, packed) := acc in
  match nodes !! i, offsets !! i with
  | Some o, Some offset =>
      let to_tasks :=
        if obj_enabled o
        then alter (List.filter (fun rt => negb (job_can_run jobs rt))) (obj_name o) to_tasks
        else to_tasks in
      match used !! obj_name o with
      | None => Ret (to_tasks, used, packed)
      | Some rs =>
          let* packed := foldM (take_resource index offset) packed rs in
          Ret (to_tasks, delete (obj_name o) used, packed)
      end
  | _, _ => Undef "nodes_"
  end.

(** One group of the loop. *)
Definition process_group (cfg : Config) (nodes : list NodeObj) (offsets : list nat)
    (groups : list (list nat))
    (acc : gmap string (list RunningTask) * gmap string (list Resource) * Packed) (ngid : nat)
    : outcome (gmap string (list RunningTask) * gmap string (list Resource) * Packed) :=
  let '(to_tasks, used, packed) := acc in
  let* index := makeResourceToIndex (cfg_tables cfg)
                  (default [] (levelIDToResourceID (cfg_tables cfg) !! ngid)) in
  let* (to_tasks, used, v) :=
    foldM (process_node (cfg_jobs cfg) nodes offsets index)
      (to_tasks, used, default [] (packed !! ngid)) (default [] (groups !! ngid)) in
  Ret (to_tasks, used, <[ngid := v]> packed).

(** [processRunningTasks], with the groups in the order [order]; what remains
    of the used resources is only logged. *)
Definition processRunningTasks (cfg : Config) (nodes : list NodeObj) (offsets : list nat)
    (groups : list (list nat)) (order : list nat) (running : list RunningTask) (packed : Packed)
    : outcome (Packed * list RunningTask) :=
  let* (to_tasks, used, packed) :=
    foldM (process_group cfg nodes offsets groups)
      (tasks_by_node running, used_by_node running, packed) order in
  match lookup_obj (cfg_levels cfg) "worker" with
  | None => Crash "CHECK_GE(worker_level, 0)"
  | Some worker_level =>
      match levelIDToResourceID (cfg_tables cfg) !! worker_level with
      | None => Crash "CHECK_LT(worker_level, levelIDToResourceID.size())"
      | Some rids =>
          let* _ := makeResourceToIndex (cfg_tables cfg) rids in
          Ret (packed, concat (map snd (map_to_list to_tasks)))
      end
  end.

(** ** Tasks that may run *)

(** [JobWithNodes(cfg, job, packed_resources)]: the job's needs in each
    group. *)
Definition job_needs (t : ResourceTables) (j : Job) (ngroups : nat) : outcome (gmap nat (list Z)) :=
  foldM (fun needs ngid =>
           match levelIDToResourceID t !! ngid with
           | None => Undef "levelIDToResourceID[ngid]"
           | Some rids =>
               let* l := foldM (fun l rid =>
                           match resources_ j !! rid with
                           | None => Undef "resources()[rid]"
                           | Some n => Ret (l ++ [n])
                           end) [] rids in
               Ret (<[ngid := l]> needs)
           end) ∅ (seq 0 ngroups).

(** [s->isRunning() || s->isDone() || s->isFailed() || s->isInBackoff()]. *)
Definition must_wait (cur_time : Z) (s : option TaskStatus) : bool :=
  match s with
  | None => false
  | Some s => isRunning s || isDone s || isFailed s || isInBackoff s cur_time
  end.

(** The [all_of] on the dependencies, which stops at the first unmet one. *)
Fixpoint dependencies_done (snap : TaskStatusSnapshot) (node_id : nat) (deps : list nat)
    : outcome bool :=
  match deps with
  | [] => Ret true
  | d :: deps' =>
      let* st := getPtr snap d node_id in
      match st with
      | Some st => if isDone st then dependencies_done snap node_id deps' else Ret false
      | None => Ret false
      end
  end.

Section Schedule.

Context (regex_search : string -> string -> bool) (hasher : string -> string -> Z).

(** One node of the cross product: is it added to the job's nodes? *)
Definition may_run (cur_time : Z) (snap : TaskStatusSnapshot) (row : option StatusRow) (j : Job)
    (n : Node) : outcome bool :=
  if must_wait cur_time (TaskStatusRow_getPtr row (node_id n)) then Ret false
  else
    let* r := shouldRunOn regex_search hasher j n in
    if bool_decide (r = Yes) then dependencies_done snap (node_id n) (dependsOn_ j)
    else Ret false.

(** The nodes of one job; the last one pushed is the first of the list. *)
Definition job_nodes (cur_time : Z) (snap : TaskStatusSnapshot) (row : option StatusRow) (j : Job)
    (values : list Node) (group : list nat) : outcome (list Node) :=
  foldM (fun l i =>
           match values !! i with
           | None => Undef "nodes_"
           | Some n =>
               let* b := may_run cur_time snap row j n in
               Ret (if (b : bool) then n :: l else l)
           end) [] group.

(** One job of the cross product. *)
Definition add_job (cur_time : Z) (snap : TaskStatusSnapshot) (t : ResourceTables)
    (groups : list (list nat)) (values : list Node)
    (acc : list (@JobWithNodes Job)) (j : Job) : outcome (list (@JobWithNodes Job)) :=
  if negb (canRun j) then Ret acc
  else
    let* needs := job_needs t j (length groups) in
    let* row := getRow snap (job_id j) in
    match groups !! levelForTasks_ j with
    | None => Ret (acc ++ [mkJobWithNodes j needs []])
    | Some group =>
        let* nodes := job_nodes cur_time snap row j values group in
        Ret (acc ++ [mkJobWithNodes j needs nodes])
    end.

(** ** The round *)

Context {E : Type}.
Context (cb : E -> Job -> Node -> outcome (E * TaskRunnerResponse)).
Context (sort_jobs : (@JobWithNodes Job -> @JobWithNodes Job -> bool) ->
                     list (@JobWithNodes Job) -> list (@JobWithNodes Job)).
Context (pick : nat -> list Q -> nat).
Context (sort_nodes : (nat -> nat -> bool) -> list nat -> list nat).
Context (shuffle_nodes : list nat -> list nat).
Context (shuffle_jobs : list Job -> list Job).
Context (group_order : list nat).

(** [reorderNodes]. *)
Definition node_name_lt (nodes : list NodeObj) (a b : nat) : bool :=
  match nodes !! a, nodes !! b with
  | Some x, Some y => String.ltb (obj_name x) (obj_name y)
  | _, _ => false
  end.
Definition reorderNodes (order : NodeOrderType) (nodes : list NodeObj) (group : list nat) : list nat :=
  match order with
  | Original => group
  | Lexicographic => sort_nodes (node_name_lt nodes) group
  | Random => shuffle_nodes group
  end.

(** [getSchedulerPolicy]: the policies that are registered by default, the
    one for unit tests left out. *)
Definition getSchedulerPolicy (name : string)
    : outcome (@SchedState Job E -> list (@JobWithNodes Job) ->
               outcome (@SchedState Job E * list (@JobWithNodes Job) * bool)) :=
  if bool_decide (name = "roundrobin") then Ret (round_robin cb)
  else if bool_decide (name = "ranked_priority") then Ret (ranked_priority job_priority cb sort_jobs)
  else if bool_decide (name = "randomized_priority") then Ret (randomized_priority job_priority cb pick)
  else if bool_decide (name = "long_tail") then Ret (long_tail cb sort_jobs)
  else Throw "scheduler policy is not registered".

(** Grouping, reordering and packing: offsets, packed resources, groups. *)
Definition pack_nodes (cfg : Config) (nodes : list NodeObj) (old_offsets : list nat)
    : outcome (list nat * Packed * list (list nat)) :=
  let t := cfg_tables cfg in
  CHECK (length (levelIDToResourceID t) =? length (resourcesByLevel t))%nat
    "CHECK(levelIDToResourceID.size() == resourcesByLevel.size())" ;;;
  let* groups := group_nodes (length (levelIDToResourceID t)) nodes in
  let groups := map (reorderNodes (nodeOrderType cfg) nodes) groups in
  let* (offsets, packed) :=
    foldM (packResourcesInto t nodes) (old_offsets, ∅)
      (map (fun ngid => (ngid, default [] (groups !! ngid))) group_order) in
  Ret (offsets, packed, groups).

(** [Scheduler::schedule].  Besides the result, the state and the jobs the
    policy ended with, and whether it was stopped. *)
Definition schedule (cur_time : Z) (cfg : Config) (nodes : list NodeObj) (old_offsets : list nat)
    (snap : TaskStatusSnapshot) (e : E)
    : outcome (Result * @SchedState Job E * list (@JobWithNodes Job) * bool) :=
  let running := map snd (map_to_list (runningTasks_ snap)) in
  let* (offsets, packed, groups) := pack_nodes cfg nodes old_offsets in
  let* (packed, orphans) :=
    processRunningTasks cfg nodes offsets groups group_order running packed in
  let values := node_values nodes offsets in
  let* jobs :=
    foldM (add_job cur_time snap (cfg_tables cfg) groups values) []
      (shuffle_jobs (map snd (map_to_list (cfg_jobs cfg)))) in
  let* policy := getSchedulerPolicy (schedulerPolicyName cfg) in
  let* (st, jobs, stopped) := policy (mkSchedState packed e 0 []) jobs in
  Ret (mkResult (negb (bool_decide (runningTasks_ snap = ∅)) || (0 <? scheduled_tasks st)) orphans,
       st, jobs, stopped).

End Schedule.

(** ** Grouping *)

(** The indices of the nodes of a level. *)
Definition level_indices (nodes : list NodeObj) (l : nat) : list nat :=
  List.filter (fun i => match nodes !! i with Some o => Nat.eqb (obj_level o) l | None => false end)
    (seq 0 (length nodes)).

Lemma elem_of_level_indices nodes l i :
  i ∈ level_indices nodes l <-> exists o, nodes !! i = Some o /\ obj_level o = l.
Proof.
  unfold level_indices. rewrite list_elem_of_In, filter_In, in_seq. split.
  - intros [_ H]. destruct (nodes !! i) as [o|]; [|done]. apply Nat.eqb_eq in H. eauto.
  - intros (o & Ho & <-). rewrite Ho. pose proof (lookup_lt_Some _ _ _ Ho).
    split; [lia|by apply Nat.eqb_refl].
Qed.

Lemma level_indices_NoDup nodes l : NoDup (level_indices nodes l).
Proof. apply NoDup_ListNoDup, List.NoDup_filter, seq_NoDup. Qed.

Lemma level_indices_snoc nodes o l :
  level_indices (nodes ++ [o]) l =
    level_indices nodes l ++ if decide (obj_level o = l) then [length nodes] else [].
Proof.
  unfold level_indices. rewrite length_app, seq_app, List.filter_app. f_equal.
  - apply List.filter_ext_in. intros i [_ Hi]%in_seq. by rewrite lookup_app_l by lia.
  - cbn. rewrite list_lookup_middle by done. case_decide as H.
    + by rewrite (proj2 (Nat.eqb_eq _ _) H).
    + by rewrite (proj2 (Nat.eqb_neq _ _) H).
Qed.

Lemma group_nodes_spec nl nodes :
  Forall (fun o => (obj_level o < nl)%nat) nodes ->
  group_nodes nl nodes = Ret (map (level_indices nodes) (seq 0 nl)).
Proof.
  unfold group_nodes. induction nodes as [|o nodes IH] using rev_ind; intros Hl.
  - cbn. f_equal. apply list_eq. intros i. rewrite list_lookup_fmap.
    destruct (decide (i < nl)%nat).
    + rewrite lookup_replicate_2, lookup_seq_lt by lia. done.
    + rewrite !lookup_ge_None_2; [done| |]; rewrite ?length_replicate, ?length_seq; lia.
  - apply Forall_app in Hl as [Hl [Ho _]%Forall_cons].
    rewrite imap_app, foldM_app, IH by done. cbn [mbind outcome_bind imap foldM fst snd].
    rewrite (proj2 (Nat.ltb_lt _ _) Ho). cbn. rewrite Nat.add_0_r. f_equal.
    apply list_eq. intros i. rewrite list_lookup_fmap.
    destruct (decide (i = obj_level o)) as [->|Hne].
    + rewrite list_lookup_alter_eq, list_lookup_fmap, lookup_seq_lt by done. cbn.
      by rewrite level_indices_snoc, decide_True.
    + rewrite list_lookup_alter_ne, list_lookup_fmap by done.
      destruct (seq 0 nl !! i) as [l|] eqn:E; [|done]. cbn.
      apply lookup_seq in E as [-> _]. by rewrite level_indices_snoc, decide_False, app_nil_r by done.
Qed.

(** ** Packing *)

Lemma group_amounts_spec limits rids :
  Forall (fun rid => exists a, limits !! rid = Some a /\ a <> INT32_MAX) rids ->
  group_amounts limits rids = Ret (map (fun rid => default 0 (limits !! rid)) rids).
Proof.
  intros H. unfold group_amounts.
  enough (G : forall acc, foldM (fun amounts rid => match limits !! rid with
      | None => Throw "rid_to_amount.at(rid)"
      | Some amount => CHECK (negb (amount =? INT32_MAX)) "CHECK_NE(INT_MAX, amount)" ;;;
                       Ret (amounts ++ [amount]) end) acc rids
    = Ret (acc ++ map (fun rid => default 0 (limits !! rid)) rids)) by apply (G []).
  induction H as [|rid rids (a & Ha & Hne) _ IH]; intros acc; cbn [foldM map]; [by rewrite app_nil_r|].
  rewrite Ha. rewrite (proj2 (Z.eqb_neq _ _) Hne). cbn [negb CHECK mbind outcome_bind].
  rewrite IH, <- app_assoc. done.
Qed.

(** What packing a group has established for the nodes [seen]. *)
Record group_packed (nodes : list NodeObj) (amounts : list Z) (seen : list nat)
    (by_name : gmap string nat) (offsets : list nat) (packed : list Z) : Prop := {
  gp_packed : packed = concat (replicate (size by_name) amounts);
  gp_bound : forall s k, by_name !! s = Some k -> (k < size by_name)%nat;
  gp_inj : forall s s' k, by_name !! s = Some k -> by_name !! s' = Some k -> s = s';
  gp_offset : forall i o, i ∈ seen -> nodes !! i = Some o ->
    exists k, by_name !! obj_name o = Some k /\ offsets !! i = Some (k * length amounts)%nat
}.

Lemma length_concat_replicate {A} n (l : list A) :
  length (concat (replicate n l)) = (n * length l)%nat.
Proof. induction n as [|n IH]; cbn; [done|]. rewrite length_app. lia. Qed.

Lemma concat_replicate_S {A} n (l : list A) :
  concat (replicate (S n) l) = concat (replicate n l) ++ l.
Proof. rewrite replicate_S_end, concat_app. cbn. by rewrite app_nil_r. Qed.

Lemma pack_node_step nodes amounts seen by_name offsets packed i :
  group_packed nodes amounts seen by_name offsets packed ->
  i ∉ seen -> (i < length nodes)%nat -> length offsets = length nodes ->
  exists by_name' offsets' packed',
    pack_node nodes amounts (by_name, offsets, packed) i = Ret (by_name', offsets', packed') /\
    group_packed nodes amounts (seen ++ [i]) by_name' offsets' packed' /\
    length offsets' = length offsets /\ (forall j, j <> i -> offsets' !! j = offsets !! j).
Proof.
  intros [Hp Hb Hi Ho] Hnin Hlt Hlen. unfold pack_node.
  destruct (lookup_lt_is_Some_2 nodes i Hlt) as [o Eo]. rewrite Eo.
  assert (Hoff : forall (m : gmap string nat) k, m !! obj_name o = Some k ->
    (forall s k', by_name !! s = Some k' -> m !! s = Some k') ->
    forall j x, j ∈ seen ++ [i] -> nodes !! j = Some x ->
    exists k', m !! obj_name x = Some k' /\
      <[i := (k * length amounts)%nat]> offsets !! j = Some (k' * length amounts)%nat).
  { intros m k Hk Hm j x [Hj|Hj%list_elem_of_singleton]%elem_of_app Hx.
    - destruct (Ho _ _ Hj Hx) as (k' & H1 & H2). exists k'. split; [by apply Hm|].
      rewrite list_lookup_insert_ne; [done|]. intros ->. done.
    - subst j. rewrite Eo in Hx. injection Hx as <-. exists k. split; [done|].
      apply list_lookup_insert_eq. lia. }
  destruct (by_name !! obj_name o) as [k|] eqn:Ek.
  - eexists _, _, _. split; [reflexivity|]. split_and!.
    + split; try done. apply Hoff; [done|done].
    + apply length_insert.
    + intros j Hj. by apply list_lookup_insert_ne.
  - assert (Hsz : size (<[obj_name o := size by_name]> by_name) = S (size by_name)).
    { by rewrite map_size_insert, Ek. }
    eexists _, _, _. split; [reflexivity|]. split_and!.
    + split.
      * by rewrite Hsz, concat_replicate_S, <- Hp.
      * intros s k'. rewrite Hsz, lookup_insert. case_decide; [intros [= <-]; lia|].
        intros Hk%Hb. lia.
      * intros s s' k' H1 H2. rewrite lookup_insert in H1, H2.
        destruct (decide (obj_name o = s)) as [<-|Hs], (decide (obj_name o = s')) as [<-|Hs'].
        -- done.
        -- injection H1 as <-. apply Hb in H2. lia.
        -- injection H2 as <-. apply Hb in H1. lia.
        -- by eapply Hi.
      * apply Hoff; [by rewrite lookup_insert_eq|]. intros s k' Hs.
        rewrite lookup_insert_ne; [done|]. congruence.
    + apply length_insert.
    + intros j Hj. by apply list_lookup_insert_ne.
Qed.

Lemma pack_loop nodes amounts g : forall seen by_name offsets packed,
  group_packed nodes amounts seen by_name offsets packed ->
  NoDup (seen ++ g) -> Forall (fun i => (i < length nodes)%nat) g ->
  length offsets = length nodes ->
  exists by_name' offsets' packed',
    foldM (pack_node nodes amounts) (by_name, offsets, packed) g
      = Ret (by_name', offsets', packed') /\
    group_packed nodes amounts (seen ++ g) by_name' offsets' packed' /\
    length offsets' = length offsets /\ (forall j, j ∉ g -> offsets' !! j = offsets !! j).
Proof.
  induction g as [|i g IH]; intros seen by_name offsets packed Hgp Hnd Hlt Hlen.
  { eexists _, _, _. split; [reflexivity|]. rewrite app_nil_r. by split_and!. }
  apply Forall_cons in Hlt as [Hi Hlt].
  assert (Hnin : i ∉ seen).
  { intros Hin. apply NoDup_app in Hnd as (_ & Hnd & _). apply (Hnd i Hin). by left. }
  destruct (pack_node_step nodes amounts seen by_name offsets packed i)
    as (b1 & o1 & p1 & E1 & Hgp1 & Hl1 & Hf1); try done.
  cbn [foldM]. rewrite E1. cbn [mbind outcome_bind].
  destruct (IH (seen ++ [i]) b1 o1 p1) as (b2 & o2 & p2 & E2 & Hgp2 & Hl2 & Hf2).
  { done. } { by rewrite <- app_assoc. } { done. } { by rewrite Hl1. }
  exists b2, o2, p2. rewrite <- app_assoc in Hgp2. split_and!; [done|done|congruence|].
  intros j [Hj1 Hj2]%not_elem_of_cons. by rewrite Hf2, Hf1.
Qed.

(** The amounts of a level. *)
Definition amounts_of (limits : list Z) (rids : list nat) : list Z :=
  map (fun rid => default 0 (limits !! rid)) rids.

(** A level that has been packed. *)
Definition level_packed (t : ResourceTables) (nodes : list NodeObj) (offsets : list nat)
    (packed : Packed) (l : nat) : Prop :=
  exists rids limits by_name v,
    levelIDToResourceID t !! l = Some rids /\ resourcesByLevel t !! l = Some limits /\
    packed !! l = Some v /\
    group_packed nodes (amounts_of limits rids) (level_indices nodes l) by_name offsets v.

(** No limit is the sentinel of a resource that a level lacks. *)
Definition limits_real (t : ResourceTables) : Prop :=
  forall l rids limits rid a, levelIDToResourceID t !! l = Some rids ->
    resourcesByLevel t !! l = Some limits -> rid ∈ rids -> limits !! rid = Some a -> a <> INT32_MAX.

Section Packing.
Context (t : ResourceTables) (nl : nat) (nodes : list NodeObj).
Context (Htables : tables_wf nl t) (Hlimits : limits_real t).

Lemma level_tables l : (l < nl)%nat ->
  exists rids limits, levelIDToResourceID t !! l = Some rids /\
    resourcesByLevel t !! l = Some limits /\
    Forall (fun rid => exists a, limits !! rid = Some a /\ a <> INT32_MAX) rids.
Proof using Htables Hlimits.
  intros Hl. destruct (lookup_lt_is_Some_2 (levelIDToResourceID t) l) as [rids Hr].
  { by rewrite (rids_levels _ _ Htables). }
  destruct (lookup_lt_is_Some_2 (resourcesByLevel t) l) as [limits Hm].
  { by rewrite (limits_levels _ _ Htables). }
  exists rids, limits. split_and!; [done|done|]. apply Forall_forall. intros rid Hin.
  destruct (lookup_lt_is_Some_2 limits rid) as [a Ha]; [by eapply (rids_limits _ _ Htables)|].
  exists a. split; [done|by eapply Hlimits].
Qed.

Lemma group_packed_seen amounts seen seen' by_name offsets v :
  group_packed nodes amounts seen by_name offsets v -> (forall i, i ∈ seen' -> i ∈ seen) ->
  group_packed nodes amounts seen' by_name offsets v.
Proof. intros [H1 H2 H3 H4] H. split; try done. intros i o Hi. apply H4. by apply H. Qed.

Lemma packResourcesInto_ok offsets packed l g :
  (l < nl)%nat -> packed !! l = None -> g ≡ₚ level_indices nodes l -> length offsets = length nodes ->
  exists offsets' packed',
    packResourcesInto t nodes (offsets, packed) (l, g) = Ret (offsets', packed') /\
    level_packed t nodes offsets' packed' l /\ length offsets' = length offsets /\
    (forall j, j ∉ level_indices nodes l -> offsets' !! j = offsets !! j) /\
    (forall l', l' <> l -> packed' !! l' = packed !! l').
Proof using Htables Hlimits.
  intros Hl Hnone Hg Hlen. destruct (level_tables l Hl) as (rids & limits & Hr & Hm & Hok).
  unfold packResourcesInto. cbn [fst snd]. rewrite Hr, Hm, group_amounts_spec by done.
  cbn [mbind outcome_bind]. rewrite Hnone. cbn [from_option]. fold (amounts_of limits rids).
  destruct (pack_loop nodes (amounts_of limits rids) g [] ∅ offsets []) as (b & o & p & -> & Hgp & Hl' & Hf).
  { split; [by rewrite map_size_empty|set_solver..]. }
  { rewrite Hg. apply level_indices_NoDup. }
  { apply Forall_forall. intros i Hi. rewrite Hg in Hi.
    apply elem_of_level_indices in Hi as (x & Hx & _). by eapply lookup_lt_Some. }
  { done. }
  cbn [mbind outcome_bind].
  assert (Hsz : (size b * length (amounts_of limits rids) =? length p)%nat = true).
  { rewrite (gp_packed _ _ _ _ _ _ Hgp), length_concat_replicate. apply Nat.eqb_refl. }
  rewrite Hsz. cbn [CHECK mbind outcome_bind].
  eexists _, _. split; [reflexivity|]. split_and!.
  - exists rids, limits, b, p. split_and!; [done|done|by rewrite lookup_insert_eq|].
    eapply group_packed_seen; [exact Hgp|]. intros i. cbn. by rewrite Hg.
  - done.
  - intros j Hj. apply Hf. by rewrite Hg.
  - intros l' Hne. by rewrite lookup_insert_ne.
Qed.

Lemma level_packed_frame offsets offsets' packed packed' l :
  level_packed t nodes offsets packed l ->
  (forall j, j ∈ level_indices nodes l -> offsets' !! j = offsets !! j) ->
  packed' !! l = packed !! l -> level_packed t nodes offsets' packed' l.
Proof.
  intros (rids & limits & b & v & H1 & H2 & H3 & [G1 G2 G3 G4]) Ho Hp.
  exists rids, limits, b, v. split_and!; [done|done|congruence|]. split; try done.
  intros i o Hi Hx. destruct (G4 i o Hi Hx) as (k & K1 & K2). exists k. by rewrite Ho.
Qed.

Lemma level_indices_disjoint l l' i :
  i ∈ level_indices nodes l -> i ∈ level_indices nodes l' -> l = l'.
Proof.
  rewrite !elem_of_level_indices. intros (o & Ho & <-) (o' & Ho' & <-). congruence.
Qed.

Lemma pack_groups_ok (group : nat -> list nat) order : forall offsets packed,
  Forall (fun l => (l < nl)%nat /\ packed !! l = None) order -> NoDup order ->
  (forall l, (l < nl)%nat -> group l ≡ₚ level_indices nodes l) ->
  length offsets = length nodes ->
  exists offsets' packed',
    foldM (packResourcesInto t nodes) (offsets, packed) (map (fun l => (l, group l)) order)
      = Ret (offsets', packed') /\
    (forall l, l ∈ order -> level_packed t nodes offsets' packed' l) /\
    length offsets' = length offsets /\
    (forall j, (forall l, l ∈ order -> j ∉ level_indices nodes l) -> offsets' !! j = offsets !! j) /\
    (forall l, l ∉ order -> packed' !! l = packed !! l).
Proof using Htables Hlimits.
  induction order as [|l order IH]; intros offsets packed Hf Hnd Hg Hlen.
  { exists offsets, packed. split_and!; try done. intros l Hl. by apply not_elem_of_nil in Hl. }
  apply Forall_cons in Hf as [[Hl Hn] Hf]. apply NoDup_cons in Hnd as [Hnin Hnd]. cbn [map foldM].
  destruct (packResourcesInto_ok offsets packed l (group l)) as (o1 & p1 & -> & Hp1 & Hl1 & Ho1 & Hq1);
    [done|done|by apply Hg|done|]. cbn [mbind outcome_bind].
  destruct (IH o1 p1) as (o2 & p2 & -> & Hp2 & Hl2 & Ho2 & Hq2); [|done|done|congruence|].
  { apply Forall_forall. intros l' Hin. destruct (proj1 (Forall_forall _ _) Hf l' Hin) as [H1 H2].
    split; [done|]. rewrite Hq1; [done|]. by intros ->. }
  exists o2, p2. split_and!; [done| |congruence| |].
  - intros l' [->|Hin]%elem_of_cons; [|by apply Hp2].
    eapply level_packed_frame; [exact Hp1| |by apply Hq2].
    intros j Hj. apply Ho2. intros l' Hin Hj'.
    rewrite (level_indices_disjoint _ _ _ Hj Hj') in Hnin. done.
  - intros j Hj. rewrite Ho2, Ho1; [done| |]; [apply Hj; by left|]. intros l' Hin. apply Hj. by right.
  - intros l' [H1 H2]%not_elem_of_cons. by rewrite Hq2, Hq1.
Qed.

End Packing.

Lemma lookup_concat_replicate {A} n (l : list A) k m :
  (k < n)%nat -> (m < length l)%nat ->
  concat (replicate n l) !! (k * length l + m)%nat = l !! m.
Proof.
  revert k; induction n as [|n IH]; intros k Hk Hm; [lia|]. cbn.
  destruct k as [|k]; cbn.
  - by rewrite lookup_app_l.
  - rewrite lookup_app_r by lia. rewrite <- (IH k) by lia. f_equal. lia.
Qed.

Lemma mul_add_inj (k k' len m m' : nat) :
  (m < len)%nat -> (m' < len)%nat -> (k * len + m = k' * len + m')%nat -> k = k' /\ m = m'.
Proof.
  intros Hm Hm' H. assert (k = k') as ->; [|split; [done|lia]].
  destruct (Nat.lt_trichotomy k k') as [?|[?|?]]; [exfalso; nia|done|exfalso; nia].
Qed.

(** The offset and the cells of a node. *)
Lemma level_packed_cell t nodes offsets packed l i o :
  level_packed t nodes offsets packed l -> nodes !! i = Some o -> obj_level o = l ->
  exists rids limits v off, levelIDToResourceID t !! l = Some rids /\
    resourcesByLevel t !! l = Some limits /\ packed !! l = Some v /\
    offsets !! i = Some off /\ (off + length rids <= length v)%nat /\
    (forall m rid, rids !! m = Some rid -> v !! (off + m)%nat = Some (default 0 (limits !! rid))) /\
    (forall i' o' off' m m', nodes !! i' = Some o' -> obj_level o' = l -> offsets !! i' = Some off' ->
       (m < length rids)%nat -> (m' < length rids)%nat ->
       (off + m = off' + m')%nat <-> obj_name o = obj_name o' /\ m = m').
Proof.
  intros (rids & limits & b & v & H1 & H2 & H3 & [G1 G2 G3 G4]) Ho Hl.
  assert (Hlen : length (amounts_of limits rids) = length rids) by apply length_map.
  assert (Hin : i ∈ level_indices nodes l) by (apply elem_of_level_indices; eauto).
  destruct (G4 i o Hin Ho) as (k & K1 & K2). pose proof (G2 _ _ K1) as Hk. rewrite Hlen in K2.
  exists rids, limits, v, (k * length rids)%nat. split_and!; try done.
  - rewrite G1, length_concat_replicate, Hlen. nia.
  - intros m rid Hm. pose proof (lookup_lt_Some _ _ _ Hm). rewrite G1, <- Hlen.
    rewrite lookup_concat_replicate by lia. unfold amounts_of. by rewrite list_lookup_fmap, Hm.
  - intros i' o' off' m m' Ho' Hl' Hoff' Hm Hm'.
    assert (Hin' : i' ∈ level_indices nodes l) by (apply elem_of_level_indices; eauto).
    destruct (G4 i' o' Hin' Ho') as (k' & K1' & K2'). rewrite Hlen, Hoff' in K2'. injection K2' as ->.
    split.
    + intros [-> ->]%mul_add_inj; [|done|done]. split; [by eapply G3|done].
    + intros [Hn ->]. rewrite Hn in K1. rewrite K1 in K1'. by injection K1' as ->.
Qed.

(** What a configuration and its nodes must satisfy: consistent tables of
    [int]s, the "worker" level, levels in range, and parents that come earlier and are of
    a lower level. *)
Record input_wf (cfg : Config) (nodes : list NodeObj) (nl : nat) : Prop := {
  in_tables : tables_wf nl (cfg_tables cfg);
  in_limits : limits_real (cfg_tables cfg);
  in_ints : Forall (Forall is_s32) (resourcesByLevel (cfg_tables cfg));
  in_worker : exists l, lookup_obj (cfg_levels cfg) "worker" = Some l /\ (l < nl)%nat;
  in_levels : Forall (fun o => (obj_level o < nl)%nat) nodes;
  in_parents : forall i o p, nodes !! i = Some o -> obj_parent o = Some p ->
    (p < i)%nat /\ exists po, nodes !! p = Some po /\ (obj_level po < obj_level o)%nat
}.

Section PackNodes.
Context (sort_nodes : (nat -> nat -> bool) -> list nat -> list nat).
Context (shuffle_nodes : list nat -> list nat).
Context (group_order : list nat).
(** [std::sort] and [std::shuffle] permute. *)
Context (Hsort : forall r l, sort_nodes r l ≡ₚ l).
Context (Hshuffle : forall l, shuffle_nodes l ≡ₚ l).
Context (cfg : Config) (nodes : list NodeObj) (nl : nat).
Context (Hin : input_wf cfg nodes nl).
(** The hash map of groups has each group once. *)
Context (Horder : group_order ≡ₚ seq 0 nl).

Lemma reorderNodes_perm g : reorderNodes sort_nodes shuffle_nodes (nodeOrderType cfg) nodes g ≡ₚ g.
Proof using Hsort Hshuffle. unfold reorderNodes. destruct (nodeOrderType cfg); auto. Qed.

(** What packing establishes. *)
Record packing (offsets : list nat) (packed : Packed) (groups : list (list nat)) : Prop := {
  pk_offsets : length offsets = length nodes;
  pk_groups : length groups = nl;
  pk_group : forall l g, groups !! l = Some g -> g ≡ₚ level_indices nodes l;
  pk_levels : forall l, (l < nl)%nat -> level_packed (cfg_tables cfg) nodes offsets packed l;
  pk_dom : forall l, (nl <= l)%nat -> packed !! l = None
}.

Lemma pack_nodes_packs old_offsets :
  length old_offsets = length nodes ->
  exists offsets packed groups,
    pack_nodes sort_nodes shuffle_nodes group_order cfg nodes old_offsets
      = Ret (offsets, packed, groups) /\ packing offsets packed groups.
Proof using All.
  intros Hlen. pose proof (in_tables _ _ _ Hin) as Ht. unfold pack_nodes.
  rewrite (rids_levels _ _ Ht), (limits_levels _ _ Ht), Nat.eqb_refl. cbn [CHECK mbind outcome_bind].
  rewrite group_nodes_spec by apply Hin. cbn [mbind outcome_bind].
  set (groups := map _ (map (level_indices nodes) (seq 0 nl))).
  assert (Hg : forall l, (l < nl)%nat -> exists g, groups !! l = Some g /\ g ≡ₚ level_indices nodes l).
  { intros l Hl. unfold groups. rewrite !list_lookup_fmap, lookup_seq_lt by done.
    eexists. split; [reflexivity|]. apply reorderNodes_perm. }
  destruct (pack_groups_ok (cfg_tables cfg) nl nodes Ht (in_limits _ _ _ Hin)
    (fun l => default [] (groups !! l)) group_order old_offsets ∅)
    as (offsets & packed & -> & Hp & Hl & _ & Hd).
  - apply Forall_forall. intros l Hl. rewrite Horder in Hl. apply elem_of_seq in Hl.
    split; [lia|done].
  - rewrite Horder. apply NoDup_seq.
  - intros l Hl. destruct (Hg l Hl) as (g & -> & H). done.
  - done.
  - cbn [mbind outcome_bind]. eexists _, _, _. split; [reflexivity|]. split.
    + congruence.
    + unfold groups. by rewrite !length_map, length_seq.
    + intros l g Hlg. assert (Hll : (l < nl)%nat).
      { apply lookup_lt_Some in Hlg. unfold groups in Hlg. by rewrite !length_map, length_seq in Hlg. }
      destruct (Hg l Hll) as (g' & Hg' & H). congruence.
    + intros l Hll. apply Hp. rewrite Horder. apply elem_of_seq. lia.
    + intros l Hll. rewrite Hd; [done|]. rewrite Horder, elem_of_seq. lia.
Qed.

(** The packed amounts are [int]s. *)
Lemma packing_ints offsets packed groups : packing offsets packed groups -> in_s32 packed.
Proof using Hin.
  intros Hpk [l i] x. unfold amount. cbn [fst snd].
  destruct (packed !! l) as [v|] eqn:Ev; [|done]. intros Hx.
  destruct (decide (l < nl)%nat) as [Hl|Hl]; [|by rewrite (pk_dom _ _ _ Hpk l) in Ev by lia].
  destruct (pk_levels _ _ _ Hpk l Hl) as (rids & limits & b & v' & _ & Hm & Hv & [G1 _ _ _]).
  rewrite Ev in Hv. injection Hv as <-. rewrite G1 in Hx.
  apply list_elem_of_lookup_2, list_elem_of_In, in_concat in Hx as (a & Ha & Hx).
  apply list_elem_of_In, elem_of_replicate in Ha as [-> _].
  apply in_map_iff in Hx as (rid & <- & _). pose proof (Forall_lookup_1 _ _ _ _ (in_ints _ _ _ Hin) Hm) as Hall.
  destruct (limits !! rid) as [y|] eqn:Ey; [|done]. by apply (Forall_lookup_1 _ _ _ _ Hall Ey).
Qed.

(** Packing succeeds on a well-formed configuration, in whatever order
    nodes and groups come.  The cell of each node and resource of its level
    holds the configured limit; two nodes of a level share a cell exactly if
    they have the same name (replicas), and resources never share one. *)
Theorem nodes_get_cells old_offsets :
  length old_offsets = length nodes ->
  exists offsets packed groups,
    pack_nodes sort_nodes shuffle_nodes group_order cfg nodes old_offsets
      = Ret (offsets, packed, groups) /\
    forall i o, nodes !! i = Some o ->
      exists rids limits off, levelIDToResourceID (cfg_tables cfg) !! obj_level o = Some rids /\
        resourcesByLevel (cfg_tables cfg) !! obj_level o = Some limits /\
        offsets !! i = Some off /\
        (forall m rid, rids !! m = Some rid ->
           amount packed (obj_level o, (off + m)%nat) = Some (default 0 (limits !! rid))) /\
        (forall i' o' off' m m', nodes !! i' = Some o' -> obj_level o' = obj_level o ->
           offsets !! i' = Some off' -> (m < length rids)%nat -> (m' < length rids)%nat ->
           (off + m = off' + m')%nat <-> obj_name o = obj_name o' /\ m = m').
Proof using All.
  intros Hlen. destruct (pack_nodes_packs old_offsets Hlen) as (offsets & packed & groups & E1 & Hp).
  exists offsets, packed, groups. split; [done|]. intros i o Ho.
  assert (Hl : (obj_level o < nl)%nat) by (by apply (Forall_lookup_1 _ _ _ _ (in_levels _ _ _ Hin) Ho)).
  destruct (level_packed_cell _ _ _ _ _ i o (pk_levels _ _ _ Hp _ Hl) Ho eq_refl)
    as (rids & limits & v & off & H1 & H2 & H3 & H4 & _ & H5 & H6).
  exists rids, limits, off. split_and!; try done. intros m rid Hm.
  unfold amount. cbn. rewrite H3. by apply H5.
Qed.

End PackNodes.

(** ** Running tasks *)

Lemma index_spec t nl l rids :
  tables_wf nl t -> levelIDToResourceID t !! l = Some rids ->
  exists index, makeResourceToIndex t rids = Ret index /\
    forall s m, index !! s = Some m <->
      exists rid, rids !! m = Some rid /\ objects_ (resourceNames t) !! rid = Some s.
Proof.
  intros Ht Hr. pose proof (rids_NoDup _ _ Ht _ _ Hr) as Hnd.
  assert (Hk : Forall (fun rid => (rid < length (objects_ (resourceNames t)))%nat) rids).
  { apply Forall_forall. intros rid. by apply (rids_known _ _ Ht _ _ _ Hr). }
  clear Hr. unfold makeResourceToIndex. induction rids as [|rid rids IH] using rev_ind.
  { exists ∅. split; [done|]. intros s m. rewrite lookup_empty. split; [done|]. by intros (? & ? & _). }
  apply NoDup_app in Hnd as (Hnd & Hnin & _). apply Forall_app in Hk as [Hk [Hrid _]%Forall_cons].
  destruct (IH Hnd Hk) as (index & E1 & Hi). clear IH.
  destruct (lookup_lt_is_Some_2 _ _ Hrid) as [name Hname].
  rewrite imap_app, foldM_app, E1. cbn. unfold lookup_id. rewrite Hname. cbn.
  eexists. split; [reflexivity|]. intros s m. rewrite Nat.add_0_r, lookup_insert. case_decide as Hs.
  - subst s. split.
    + intros [= <-]. exists rid. split; [by apply list_lookup_middle|done].
    + intros (rid' & [H|[Hge H]]%lookup_app_Some & H2).
      * exfalso. assert (rid' = rid) as ->.
        { pose proof (proj2 (names_table _ _ Ht name _) H2). pose proof (proj2 (names_table _ _ Ht name _) Hname).
          congruence. }
        apply (Hnin rid); [by eapply list_elem_of_lookup_2|by left].
      * apply list_lookup_singleton_Some in H as [H _]. f_equal. lia.
  - rewrite Hi. split; intros (rid' & H1 & H2).
    + exists rid'. split; [by apply lookup_app_l_Some|done].
    + apply lookup_app_Some in H1 as [H1|[_ H1]]; [eauto|].
      apply list_lookup_singleton_Some in H1 as [_ <-]. congruence.
Qed.

(** How much of a resource a list of uses takes. *)
Definition used_amount (rs : list Resource) (name : string) : Z :=
  foldr (fun r s => (if decide (res_name r = name) then res_amount r else 0) + s) 0 rs.

(** How much of the cell [c] it takes, for a node at [offset]. *)
Definition taken (index : gmap string nat) (offset : nat) (rs : list Resource) (c : nat) : Z :=
  foldr (fun r s => (match index !! res_name r with
                     | Some k => if decide (offset + k = c)%nat then res_amount r else 0
                     | None => 0 end) + s) 0 rs.

(** No use is negative. *)
Abbreviation no_negative := (Forall (fun r => 0 <= res_amount r)).

Lemma taken_nonneg index offset rs c : no_negative rs -> 0 <= taken index offset rs c.
Proof.
  induction 1 as [|r rs Hr _ IH]; cbn; [done|]. fold (taken index offset rs c).
  destruct (index !! res_name r); [case_decide|]; lia.
Qed.

Lemma take_resources_ok index offset rs : forall packed,
  (forall s k, index !! s = Some k -> (offset + k < length packed)%nat) -> no_negative rs ->
  (forall c x, packed !! c = Some x -> is_s32 x /\ is_s32 (x - taken index offset rs c)) ->
  exists packed', foldM (take_resource index offset) packed rs = Ret packed' /\
    length packed' = length packed /\
    forall c, packed' !! c = (fun x => x - taken index offset rs c) <$> packed !! c.
Proof.
  induction rs as [|r rs IH]; intros packed Hb Hneg Hfit.
  { exists packed. split_and!; [done|done|]. intros c. cbn. destruct (packed !! c); cbn; [f_equal; lia|done]. }
  apply Forall_cons in Hneg as [Hr Hneg].
  cbn [foldM taken foldr] in *. fold (taken index offset rs) in *.
  destruct (index !! res_name r) as [k|] eqn:Ek.
  - destruct (lookup_lt_is_Some_2 packed (offset + k)%nat) as [x Hx]; [by eapply Hb|].
    pose proof (taken_nonneg index offset rs (offset + k) Hneg) as Hpos.
    assert (Hfx : is_s32 (x - res_amount r)).
    { destruct (Hfit _ _ Hx) as [H1 H2]. rewrite decide_True in H2 by done.
      unfold is_s32, taken in *. lia. }
    assert (Et : take_resource index offset packed r
                 = Ret (<[(offset + k)%nat := x - res_amount r]> packed)).
    { unfold take_resource. rewrite Ek, Hx, sub32_ok by done. done. }
    rewrite Et. cbn [mbind outcome_bind].
    destruct (IH (<[(offset + k)%nat := x - res_amount r]> packed)) as (packed' & E1 & Hl & Hc).
    { intros s k' Hk'. rewrite length_insert. by eapply Hb. }
    { done. }
    { intros c y Hy. apply list_lookup_insert_Some in Hy as [(<- & <- & _)|[Hne Hy]].
      - split; [done|]. destruct (Hfit _ _ Hx) as [_ H2]. rewrite decide_True in H2 by done.
        unfold is_s32, taken in *. lia.
      - pose proof (Hfit _ _ Hy) as H. by rewrite decide_False in H by done. }
    exists packed'. split_and!; [done|by rewrite Hl, length_insert|]. intros c. rewrite Hc.
    case_decide as Heq.
    + subst c. rewrite list_lookup_insert_eq by (by eapply lookup_lt_Some). rewrite Hx. cbn. f_equal. unfold taken. lia.
    + rewrite list_lookup_insert_ne by done. by destruct (packed !! c).
  - assert (Et : take_resource index offset packed r = Ret packed).
    { unfold take_resource. by rewrite Ek. }
    rewrite Et. cbn [mbind outcome_bind]. by apply IH.
Qed.

Lemma taken_same index offset rs m name :
  (forall s, index !! s = Some m <-> s = name) ->
  taken index offset rs (offset + m) = used_amount rs name.
Proof.
  intros Hi. induction rs as [|r rs IH]; [done|]. cbn. fold (taken index offset rs (offset + m)).
  fold (used_amount rs name). rewrite IH. f_equal. case_decide as H.
  - rewrite (proj2 (Hi _) H). by rewrite decide_True.
  - destruct (index !! res_name r) as [k|] eqn:Ek; [|done]. rewrite decide_False; [done|].
    intros Hk. apply H, Hi. rewrite Ek. f_equal. lia.
Qed.

Lemma taken_other index offset rs c :
  (forall s k, index !! s = Some k -> (offset + k)%nat <> c) -> taken index offset rs c = 0.
Proof.
  intros Hi. induction rs as [|r rs IH]; [done|]. cbn. fold (taken index offset rs c). rewrite IH.
  destruct (index !! res_name r) as [k|] eqn:Ek; [|done].
  rewrite decide_False; [done|]. by eapply Hi.
Qed.

(** Has a node with this name (enabled, for the second) been seen? *)
Definition seen_name (nodes : list NodeObj) (seen : list nat) (s : string) : bool :=
  existsb (fun i => match nodes !! i with Some o => bool_decide (obj_name o = s) | None => false end) seen.
Definition seen_enabled (nodes : list NodeObj) (seen : list nat) (s : string) : bool :=
  existsb (fun i => match nodes !! i with
                    | Some o => obj_enabled o && bool_decide (obj_name o = s)
                    | None => false end) seen.

Lemma seen_name_snoc nodes seen i o s :
  nodes !! i = Some o ->
  seen_name nodes (seen ++ [i]) s = seen_name nodes seen s || bool_decide (obj_name o = s).
Proof. intros Ho. unfold seen_name. rewrite existsb_app. cbn. by rewrite Ho, orb_false_r. Qed.

Lemma seen_enabled_snoc nodes seen i o s :
  nodes !! i = Some o ->
  seen_enabled nodes (seen ++ [i]) s =
    seen_enabled nodes seen s || (obj_enabled o && bool_decide (obj_name o = s)).
Proof. intros Ho. unfold seen_enabled. rewrite existsb_app. cbn. by rewrite Ho, orb_false_r. Qed.

(** Nodes of the same name are of the same level. *)
Definition names_level (nodes : list NodeObj) : Prop :=
  forall i j o o', nodes !! i = Some o -> nodes !! j = Some o' -> obj_name o = obj_name o' ->
    obj_level o = obj_level o'.

(** The uses of the running tasks, by node, fit: none is negative, and a limit
    minus what is used of it is an [int]. *)
Definition uses_fit (cfg : Config) (nodes : list NodeObj) (uses : string -> string -> Z) : Prop :=
  forall i o rids limits rid s, nodes !! i = Some o ->
    levelIDToResourceID (cfg_tables cfg) !! obj_level o = Some rids ->
    resourcesByLevel (cfg_tables cfg) !! obj_level o = Some limits -> rid ∈ rids ->
    objects_ (resourceNames (cfg_tables cfg)) !! rid = Some s ->
    - 2 ^ 31 <= default 0 (limits !! rid) - uses (obj_name o) s.

Section Running.
Context (cfg : Config) (nodes : list NodeObj) (nl : nat).
Context (Hin : input_wf cfg nodes nl) (Hnames : names_level nodes).
Context (offsets : list nat) (packed0 : Packed) (groups : list (list nat)).
Context (Hpk : packing cfg nodes nl offsets packed0 groups).
Context (tasks0 : gmap string (list RunningTask)) (used0 : gmap string (list Resource)).
Context (Hneg : map_Forall (fun _ rs => no_negative rs) used0).
Context (Hfit : uses_fit cfg nodes (fun n s => used_amount (default [] (used0 !! n)) s)).

Abbreviation t := (cfg_tables cfg).
Abbreviation orphan := (fun rt => negb (job_can_run (cfg_jobs cfg) rt)).

(** The loop has treated the nodes [seen]. *)
Record processed (seen : list nat) (tasks : gmap string (list RunningTask))
    (used : gmap string (list Resource)) (packed : Packed) : Prop := {
  pr_used : forall s, used !! s = if seen_name nodes seen s then None else used0 !! s;
  pr_tasks : forall s, default [] (tasks !! s) =
    if seen_enabled nodes seen s then List.filter orphan (default [] (tasks0 !! s))
    else default [] (tasks0 !! s);
  pr_keeps : keeps packed0 packed;
  pr_cells : forall i o off rids m rid s, nodes !! i = Some o -> offsets !! i = Some off ->
    levelIDToResourceID t !! obj_level o = Some rids -> rids !! m = Some rid ->
    objects_ (resourceNames t) !! rid = Some s ->
    amount packed (obj_level o, (off + m)%nat) =
      (fun x => x - if seen_name nodes seen (obj_name o)
                    then used_amount (default [] (used0 !! obj_name o)) s else 0)
        <$> amount packed0 (obj_level o, (off + m)%nat)
}.

Lemma filter_idem {A} (f : A -> bool) l : List.filter f (List.filter f l) = List.filter f l.
Proof.
  induction l as [|x l IH]; cbn; [done|]. destruct (f x) eqn:E; cbn; [by rewrite E, IH|done].
Qed.

Lemma tasks_step seen (tasks : gmap string (list RunningTask)) i o :
  nodes !! i = Some o ->
  (forall s, default [] (tasks !! s) =
    if seen_enabled nodes seen s then List.filter orphan (default [] (tasks0 !! s))
    else default [] (tasks0 !! s)) ->
  forall s, default [] ((if obj_enabled o then alter (List.filter orphan) (obj_name o) tasks else tasks) !! s) =
    if seen_enabled nodes (seen ++ [i]) s then List.filter orphan (default [] (tasks0 !! s))
    else default [] (tasks0 !! s).
Proof.
  intros Ho H s. rewrite (seen_enabled_snoc _ _ _ _ _ Ho). destruct (obj_enabled o); cbn;
    [|by rewrite orb_false_r].
  case_bool_decide as Hs; [|rewrite orb_false_r, lookup_alter_ne by done; apply H].
  subst s. rewrite orb_true_r, lookup_alter_eq. specialize (H (obj_name o)).
  destruct (tasks !! obj_name o) as [l|]; cbn in *.
  - rewrite H. destruct (seen_enabled nodes seen (obj_name o)); [apply filter_idem|done].
  - destruct (seen_enabled nodes seen (obj_name o)); [done|by rewrite <- H].
Qed.

(** No subtraction of a node's uses overflows. *)
Lemma uses_are_ints i o off rids limits rs (v : list Z) (index : gmap string nat) :
  nodes !! i = Some o -> levelIDToResourceID t !! obj_level o = Some rids ->
  resourcesByLevel t !! obj_level o = Some limits -> used0 !! obj_name o = Some rs ->
  (forall s m, index !! s = Some m <->
     exists rid, rids !! m = Some rid /\ objects_ (resourceNames t) !! rid = Some s) ->
  (forall c x, v !! c = Some x -> is_s32 x) ->
  (forall m rid, rids !! m = Some rid -> v !! (off + m)%nat = Some (default 0 (limits !! rid))) ->
  forall c x, v !! c = Some x -> is_s32 x /\ is_s32 (x - taken index off rs c).
Proof using Hin Hneg Hfit.
  intros Ho Hr Hm Hrs Hidx Hints Hcells c x Hx. pose proof (Hints c x Hx) as H32. split; [done|].
  pose proof (taken_nonneg index off rs c (Hneg _ _ Hrs)) as Hpos.
  destruct (decide (off <= c)%nat) as [Hle|Hgt].
  2: { rewrite taken_other; [by rewrite Z.sub_0_r|]. intros s k _. lia. }
  destruct (rids !! (c - off)%nat) as [rid|] eqn:Erid.
  2: { rewrite taken_other; [by rewrite Z.sub_0_r|]. intros s k (rid & Hk & _)%Hidx Heq.
       replace k with (c - off)%nat in Hk by lia. congruence. }
  assert (Hin' : rid ∈ rids) by (by eapply list_elem_of_lookup_2).
  destruct (lookup_lt_is_Some_2 _ _ (rids_known _ _ (in_tables _ _ _ Hin) _ _ _ Hr Hin')) as [s Hs].
  assert (Ht : taken index off rs c = used_amount rs s).
  { replace c with (off + (c - off))%nat by lia. apply taken_same. intros s'. rewrite Hidx.
    split; [intros (? & ? & ?); congruence|intros ->; eauto]. }
  rewrite Ht in *. replace c with (off + (c - off))%nat in Hx by lia.
  rewrite (Hcells _ _ Erid) in Hx. injection Hx as <-.
  pose proof (Hfit i o rids limits rid s Ho Hr Hm Hin' Hs) as Hf. cbn beta in Hf. rewrite Hrs in Hf.
  cbn [default from_option id] in Hf.
  unfold is_s32 in *. lia.
Qed.

(** The cells of the group after one node. *)
Lemma cells_step seen i o off rids v (packed : Packed) (index : gmap string nat) :
  nodes !! i = Some o -> offsets !! i = Some off ->
  levelIDToResourceID t !! obj_level o = Some rids -> packed !! obj_level o = Some v ->
  (forall s m, index !! s = Some m <->
     exists rid, rids !! m = Some rid /\ objects_ (resourceNames t) !! rid = Some s) ->
  same_shape packed0 packed -> (forall c x, v !! c = Some x -> is_s32 x) ->
  (seen_name nodes seen (obj_name o) = false -> forall m rid, rids !! m = Some rid ->
     amount packed (obj_level o, (off + m)%nat) = amount packed0 (obj_level o, (off + m)%nat)) ->
  exists v',
    (match (if seen_name nodes seen (obj_name o) then None else used0 !! obj_name o) with
     | None => Ret v
     | Some rs => foldM (take_resource index off) v rs end) = Ret v' /\
    length v' = length v /\ (forall c x, v' !! c = Some x -> is_s32 x) /\
    forall j o' off' m rid s, nodes !! j = Some o' -> obj_level o' = obj_level o ->
      offsets !! j = Some off' -> rids !! m = Some rid ->
      objects_ (resourceNames t) !! rid = Some s ->
      v' !! (off' + m)%nat =
        (fun x => x - if decide (obj_name o = obj_name o')
                      then if seen_name nodes seen (obj_name o) then 0
                           else used_amount (default [] (used0 !! obj_name o)) s
                      else 0) <$> v !! (off' + m)%nat.
Proof using Hin Hpk Hneg Hfit.
  intros Ho Hoff Hr Hv Hidx Hsh Hints Hnow.
  assert (Hl : (obj_level o < nl)%nat) by (by apply (Forall_lookup_1 _ _ _ _ (in_levels _ _ _ Hin) Ho)).
  destruct (level_packed_cell _ _ _ _ _ i o (pk_levels _ _ _ _ _ _ Hpk _ Hl) Ho eq_refl)
    as (rids' & limits & v0 & off0 & Hr' & Hm & Hv0 & Hoff0 & Hb & Hcell & Hinj).
  rewrite Hr in Hr'. injection Hr' as <-. rewrite Hoff in Hoff0. injection Hoff0 as <-.
  assert (Hlen : length v = length v0).
  { specialize (Hsh (obj_level o)). rewrite Hv, Hv0 in Hsh. by injection Hsh. }
  assert (Hid : forall c, v !! c = (fun x => x - 0) <$> v !! c).
  { intros c. destruct (v !! c); cbn; [f_equal; lia|done]. }
  destruct (seen_name nodes seen (obj_name o)); [|specialize (Hnow eq_refl)].
  { exists v. split_and!; [done|done|done|]. intros. destruct (decide _); apply Hid. }
  destruct (used0 !! obj_name o) as [rs|] eqn:Ers; cbn [default from_option].
  2: { exists v. split_and!; [done|done|done|]. intros. destruct (decide _); apply Hid. }
  assert (Hnofl : forall c x, v !! c = Some x -> is_s32 x /\ is_s32 (x - taken index off rs c)).
  { apply (uses_are_ints i o off rids limits); try done. intros m rid Hrid. specialize (Hnow m rid Hrid).
    unfold amount in Hnow. cbn in Hnow. by rewrite Hv, Hv0, (Hcell m rid Hrid) in Hnow. }
  destruct (take_resources_ok index off rs v) as (v' & E1 & Hl' & Hc); [|by apply (Hneg _ _ Ers)|done|].
  { intros s k (rid & Hk & _)%Hidx. apply lookup_lt_Some in Hk. lia. }
  exists v'. split_and!; [done|done| |].
  { intros c x. rewrite Hc. destruct (v !! c) eqn:Ec; [|done]. intros [= <-]. by apply Hnofl. }
  clear Hm. intros j o' off' m rid s Hj Hlo Hoff' Hm Hs. rewrite Hc.
  pose proof (lookup_lt_Some _ _ _ Hm) as Hml.
  destruct (decide (obj_name o = obj_name o')) as [Hn|Hn].
  - assert (off = off') as ->.
    { pose proof (proj2 (Hinj j o' off' m m Hj Hlo Hoff' Hml Hml) (conj Hn eq_refl)). lia. }
    rewrite (taken_same _ _ _ _ s); [done|]. intros s'. rewrite Hidx. split.
    + intros (rid' & H1 & H2). congruence.
    + intros ->. eauto.
  - rewrite taken_other; [done|]. intros s' k (rid' & Hk & _)%Hidx Heq.
    apply lookup_lt_Some in Hk. by apply (Hinj j o' off' k m Hj Hlo Hoff' Hk Hml) in Heq as [? _].
Qed.

Lemma process_node_step seen tasks used packed v i o (index : gmap string nat) rids :
  processed seen tasks used packed -> nodes !! i = Some o ->
  levelIDToResourceID t !! obj_level o = Some rids -> packed !! obj_level o = Some v ->
  (forall s m, index !! s = Some m <->
     exists rid, rids !! m = Some rid /\ objects_ (resourceNames t) !! rid = Some s) ->
  exists tasks' used' v',
    process_node (cfg_jobs cfg) nodes offsets index (tasks, used, v) i = Ret (tasks', used', v') /\
    processed (seen ++ [i]) tasks' used' (<[obj_level o := v']> packed).
Proof using All.
  intros [Hu Ht [Hs Hints] Hc] Ho Hr Hv Hidx.
  destruct (lookup_lt_is_Some_2 offsets i) as [off Hoff].
  { rewrite (pk_offsets _ _ _ _ _ _ Hpk). by eapply lookup_lt_Some. }
  specialize (Hints (packing_ints _ _ _ Hin _ _ _ Hpk)).
  destruct (cells_step seen i o off rids v packed index) as (v' & E1 & Hl & Hv' & Hcell); try done.
  { intros c x Hx. apply (Hints (obj_level o, c)). unfold amount. cbn. by rewrite Hv. }
  { intros Hseen m rid Hm. destruct (lookup_lt_is_Some_2 (objects_ (resourceNames t)) rid) as [s Hsn].
    { eapply (rids_known _ _ (in_tables _ _ _ Hin)); [exact Hr|by eapply list_elem_of_lookup_2]. }
    rewrite (Hc i o off rids m rid s), Hseen by done.
    destruct (amount packed0 _); cbn; [f_equal; lia|done]. }
  exists (if obj_enabled o then alter (List.filter orphan) (obj_name o) tasks else tasks),
    (delete (obj_name o) used), v'.
  assert (Hdel : forall s, (delete (obj_name o) used) !! s =
    if seen_name nodes (seen ++ [i]) s then None else used0 !! s).
  { intros s. rewrite (seen_name_snoc _ _ _ _ _ Ho), lookup_delete.
    case_bool_decide; [subst; by rewrite decide_True, orb_true_r by done|].
    by rewrite decide_False, orb_false_r by done. }
  split.
  - unfold process_node. rewrite Ho, Hoff, Hu. revert E1.
    destruct (if seen_name nodes seen (obj_name o) then None else used0 !! obj_name o) as [rs|] eqn:Es.
    + intros ->. done.
    + intros [= ->]. rewrite delete_id; [done|]. by rewrite Hu, Es.
  - split; [done|by apply tasks_step| |].
    + split.
      * intros l. rewrite <- Hs. rewrite lookup_insert. case_decide; [subst l|done].
        rewrite Hv. cbn. by rewrite Hl.
      * intros _ [l c] x. unfold amount. cbn [fst snd]. rewrite lookup_insert.
        case_decide; [apply Hv'|apply (Hints (l, c))].
    + intros j o' off' rids' m rid s Hj Hoff' Hr' Hm Hname.
      specialize (Hc j o' off' rids' m rid s Hj Hoff' Hr' Hm Hname).
      rewrite (seen_name_snoc _ _ _ _ _ Ho).
      destruct (decide (obj_level o' = obj_level o)) as [Hlo|Hlo].
      * rewrite Hlo in *. rewrite Hr in Hr'. injection Hr' as <-.
        specialize (Hcell j o' off' m rid s Hj Hlo Hoff' Hm Hname).
        unfold amount in *. cbn [fst snd] in *. rewrite lookup_insert_eq, Hcell. rewrite Hv in Hc. rewrite Hc.
        destruct (packed0 !! obj_level o) as [v0|]; [|done]. destruct (v0 !! (off' + m)%nat); [|done].
        cbn. f_equal. case_decide as Hn.
        -- rewrite <- Hn, bool_decide_true, orb_true_r by done.
           destruct (seen_name nodes seen (obj_name o)); lia.
        -- rewrite bool_decide_false, orb_false_r by done. lia.
      * unfold amount in *. cbn [fst snd] in *. rewrite lookup_insert_ne by done. rewrite Hc.
        rewrite bool_decide_false, orb_false_r; [done|]. intros Hn. apply Hlo. symmetry.
        by eapply Hnames.
Qed.

Lemma process_nodes_ok l rids (index : gmap string nat) g : forall seen tasks used packed v,
  processed seen tasks used packed -> levelIDToResourceID t !! l = Some rids ->
  packed !! l = Some v ->
  (forall s m, index !! s = Some m <->
     exists rid, rids !! m = Some rid /\ objects_ (resourceNames t) !! rid = Some s) ->
  Forall (fun i => exists o, nodes !! i = Some o /\ obj_level o = l) g ->
  exists tasks' used' v',
    foldM (process_node (cfg_jobs cfg) nodes offsets index) (tasks, used, v) g = Ret (tasks', used', v') /\
    processed (seen ++ g) tasks' used' (<[l := v']> packed).
Proof using All.
  induction g as [|i g IH]; intros seen tasks used packed v Hp Hr Hv Hidx Hg.
  { exists tasks, used, v. by rewrite app_nil_r, insert_id. }
  apply Forall_cons in Hg as [(o & Ho & <-) Hg].
  destruct (process_node_step seen tasks used packed v i o index rids) as (t1 & u1 & v1 & E1 & Hp1); try done.
  cbn [foldM]. rewrite E1. cbn [mbind outcome_bind].
  destruct (IH (seen ++ [i]) t1 u1 (<[obj_level o := v1]> packed) v1) as (t2 & u2 & v2 & E2 & Hp2);
    [done|done|by rewrite lookup_insert_eq|done|done|].
  exists t2, u2, v2. split; [done|]. by rewrite <- app_assoc, insert_insert_eq in Hp2.
Qed.

Lemma process_group_ok seen tasks used packed l :
  processed seen tasks used packed -> (l < nl)%nat ->
  exists tasks' used' packed',
    process_group cfg nodes offsets groups (tasks, used, packed) l = Ret (tasks', used', packed') /\
    processed (seen ++ default [] (groups !! l)) tasks' used' packed'.
Proof using All.
  intros Hp Hl. unfold process_group.
  destruct (pk_levels _ _ _ _ _ _ Hpk l Hl) as (rids & _ & _ & v0 & Hr & _ & Hv0 & _).
  destruct (index_spec t nl l rids (in_tables _ _ _ Hin) Hr) as (index & Ei & Hidx).
  rewrite Hr. cbn [default from_option id]. rewrite Ei. cbn [mbind outcome_bind].
  assert (Hv : exists v, packed !! l = Some v).
  { pose proof (proj1 (pr_keeps _ _ _ _ Hp) l) as Hs. rewrite Hv0 in Hs. destruct (packed !! l); [eauto|done]. }
  destruct Hv as [v Hv]. rewrite Hv. cbn [default from_option id].
  destruct (process_nodes_ok l rids index (default [] (groups !! l)) seen tasks used packed v)
    as (t' & u' & v' & -> & Hp'); try done.
  - destruct (groups !! l) as [g|] eqn:Eg; [|by constructor]. cbn. apply Forall_forall. intros i Hi.
    rewrite (pk_group _ _ _ _ _ _ Hpk _ _ Eg) in Hi. by apply elem_of_level_indices.
  - eexists _, _, _. split; [reflexivity|]. done.
Qed.

Lemma process_groups_ok order : forall seen tasks used packed,
  processed seen tasks used packed -> Forall (fun l => (l < nl)%nat) order ->
  exists tasks' used' packed',
    foldM (process_group cfg nodes offsets groups) (tasks, used, packed) order
      = Ret (tasks', used', packed') /\
    processed (seen ++ concat (map (fun l => default [] (groups !! l)) order)) tasks' used' packed'.
Proof using All.
  induction order as [|l order IH]; intros seen tasks used packed Hp Ho.
  { eexists _, _, _. split; [reflexivity|]. by rewrite app_nil_r. }
  apply Forall_cons in Ho as [Hl Ho]. cbn [foldM map concat].
  destruct (process_group_ok seen tasks used packed l Hp Hl) as (t1 & u1 & p1 & -> & Hp1).
  cbn [mbind outcome_bind].
  destruct (IH _ _ _ _ Hp1 Ho) as (t2 & u2 & p2 & -> & Hp2).
  eexists _, _, _. split; [reflexivity|]. by rewrite <- app_assoc in Hp2.
Qed.

Lemma processed_start : processed [] tasks0 used0 packed0.
Proof.
  split; try done. intros i o off rids m rid s _ _ _ _ _. cbn.
  destruct (amount packed0 _); cbn; [f_equal; lia|done].
Qed.

(** Every node is in one of the groups. *)
Lemma all_seen order i o :
  order ≡ₚ seq 0 nl -> nodes !! i = Some o ->
  i ∈ concat (map (fun l => default [] (groups !! l)) order).
Proof using Hin Hpk.
  intros Horder Ho.
  assert (Hl : (obj_level o < nl)%nat) by (by apply (Forall_lookup_1 _ _ _ _ (in_levels _ _ _ Hin) Ho)).
  destruct (lookup_lt_is_Some_2 groups (obj_level o)) as [g Hg]; [by rewrite (pk_groups _ _ _ _ _ _ Hpk)|].
  apply list_elem_of_In, in_concat. exists g. split.
  - apply in_map_iff. exists (obj_level o). rewrite Hg. split; [done|].
    apply list_elem_of_In. rewrite Horder. apply elem_of_seq. lia.
  - apply list_elem_of_In. rewrite (pk_group _ _ _ _ _ _ Hpk _ _ Hg). apply elem_of_level_indices. eauto.
Qed.

End Running.

Lemma seen_name_spec nodes seen i o :
  nodes !! i = Some o -> i ∈ seen -> seen_name nodes seen (obj_name o) = true.
Proof.
  intros Ho Hi. apply existsb_exists. exists i. split; [by apply list_elem_of_In|].
  rewrite Ho. by apply bool_decide_true.
Qed.

Lemma seen_enabled_spec nodes seen s :
  seen_enabled nodes seen s = true <->
  exists i o, i ∈ seen /\ nodes !! i = Some o /\ obj_enabled o = true /\ obj_name o = s.
Proof.
  unfold seen_enabled. rewrite existsb_exists. split.
  - intros (i & Hi & H). destruct (nodes !! i) as [o|] eqn:Ho; [|done].
    apply andb_true_iff in H as [H1 H2]. apply bool_decide_eq_true in H2.
    exists i, o. by rewrite list_elem_of_In.
  - intros (i & o & Hi & Ho & H1 & H2). exists i. rewrite Ho, H1, bool_decide_true by done.
    by rewrite <- list_elem_of_In.
Qed.

(** ** The two views of the running tasks *)

Lemma elem_of_tasks_by_node running s rt :
  rt ∈ default [] (tasks_by_node running !! s) <-> rt ∈ running /\ rt_node rt = s.
Proof.
  unfold tasks_by_node. induction running as [|x running IH] using rev_ind.
  - cbn [foldl]. rewrite lookup_empty. cbn. set_solver.
  - rewrite foldl_snoc, lookup_insert. case_decide as Hs.
    + subst s. cbn [default from_option id]. rewrite elem_of_cons, IH. set_solver.
    + rewrite IH. set_solver.
Qed.

(** What the running tasks use of a resource on a node. *)
Definition node_uses (nrs : list NodeResources) (node res : string) : Z :=
  foldr (fun nr s => (if decide (nr_node nr = node) then used_amount (nr_resources nr) res else 0) + s)
    0 nrs.
Definition running_uses (running : list RunningTask) (node res : string) : Z :=
  foldr (fun rt s => node_uses (rt_nodeResources rt) node res + s) 0 running.

Lemma used_amount_app l l' s : used_amount (l ++ l') s = used_amount l s + used_amount l' s.
Proof. induction l as [|r l IH]; cbn; [done|]. fold (used_amount (l ++ l') s). fold (used_amount l s). lia. Qed.

Lemma used_by_node_task (m : gmap string (list Resource)) nrs node res :
  used_amount (default [] (foldl (fun m nr =>
      <[nr_node nr := default [] (m !! nr_node nr) ++ nr_resources nr]> m) m nrs !! node)) res
  = used_amount (default [] (m !! node)) res + node_uses nrs node res.
Proof.
  revert m; induction nrs as [|nr nrs IH]; intros m; cbn; [lia|].
  fold (node_uses nrs node res). rewrite IH, lookup_insert. case_decide as H.
  - subst node. cbn [default from_option id]. rewrite used_amount_app. lia.
  - lia.
Qed.

Lemma used_by_node_spec running node res :
  used_amount (default [] (used_by_node running !! node)) res = running_uses running node res.
Proof.
  unfold used_by_node.
  enough (G : forall m : gmap string (list Resource),
    used_amount (default [] (foldl (fun m rt => foldl (fun m nr =>
        <[nr_node nr := default [] (m !! nr_node nr) ++ nr_resources nr]> m) m (rt_nodeResources rt))
      m running !! node)) res
    = used_amount (default [] (m !! node)) res + running_uses running node res).
  { rewrite G, lookup_empty. done. }
  induction running as [|rt running IH]; intros m; cbn; [lia|].
  fold (running_uses running node res). rewrite IH, used_by_node_task. lia.
Qed.

(** The running tasks report no negative use. *)
Definition no_negative_use (running : list RunningTask) : Prop :=
  Forall (fun rt => Forall (fun nr => no_negative (nr_resources nr)) (rt_nodeResources rt)) running.

Lemma used_by_node_nonneg running :
  no_negative_use running -> map_Forall (fun _ rs => no_negative rs) (used_by_node running).
Proof.
  unfold no_negative_use, used_by_node. intros H.
  enough (G : forall m : gmap string (list Resource), map_Forall (fun _ rs => no_negative rs) m ->
    map_Forall (fun _ rs => no_negative rs) (foldl (fun m rt => foldl (fun m nr =>
      <[nr_node nr := default [] (m !! nr_node nr) ++ nr_resources nr]> m) m (rt_nodeResources rt)) m running))
    by apply G, map_Forall_empty.
  induction H as [|rt running Hrt _ IH]; intros m Hm; [done|]. cbn [foldl]. apply IH. clear IH.
  revert m Hm. induction Hrt as [|nr nrs Hnr _ IH]; intros m Hm; [done|]. cbn [foldl]. apply IH.
  apply map_Forall_insert_2; [|done]. apply Forall_app. split; [|done].
  destruct (m !! nr_node nr) as [rs|] eqn:E; [by apply (Hm _ _ E)|constructor].
Qed.

(** What is left in [node_to_tasks] once the nodes [seen] were treated. *)
Lemma orphans_left jobs nodes seen running (tasks : gmap string (list RunningTask)) :
  (forall s, default [] (tasks !! s) =
     if seen_enabled nodes seen s
     then List.filter (fun rt => negb (job_can_run jobs rt)) (default [] (tasks_by_node running !! s))
     else default [] (tasks_by_node running !! s)) ->
  forall rt, rt ∈ concat (map snd (map_to_list tasks)) <->
    rt ∈ running /\ ~ (job_can_run jobs rt = true /\ seen_enabled nodes seen (rt_node rt) = true).
Proof.
  intros Ht rt. rewrite list_elem_of_In, in_concat.
  trans (exists s, rt ∈ default [] (tasks !! s)).
  { split.
    - intros (l & ([s l'] & <- & Hin'%list_elem_of_In%elem_of_map_to_list)%in_map_iff & Hrt).
      exists s. rewrite Hin'. by apply list_elem_of_In.
    - intros [s Hrt]. destruct (tasks !! s) as [l|] eqn:Es; [|by apply not_elem_of_nil in Hrt].
      exists l. split; [|by apply list_elem_of_In]. apply in_map_iff. exists (s, l). split; [done|].
      by apply list_elem_of_In, elem_of_map_to_list. }
  setoid_rewrite Ht. split.
  - intros (s & H). destruct (seen_enabled nodes seen s) eqn:Ese.
    + apply list_elem_of_In, filter_In in H as [H Horph]. apply list_elem_of_In, elem_of_tasks_by_node in H as [H1 H2].
      split; [done|]. intros [Hj _]. by rewrite Hj in Horph.
    + apply elem_of_tasks_by_node in H as [H1 H2]. split; [done|]. intros [_ He]. congruence.
  - intros [Hrun Hno]. exists (rt_node rt).
    assert (Hb : rt ∈ default [] (tasks_by_node running !! rt_node rt)) by (by apply elem_of_tasks_by_node).
    destruct (seen_enabled nodes _ (rt_node rt)) eqn:Ese; [|done].
    apply list_elem_of_In, filter_In. split; [by apply list_elem_of_In|].
    destruct (job_can_run jobs rt); [|done]. exfalso. by apply Hno.
Qed.

Lemma processRunningTasks_ok cfg nodes nl offsets packed groups order running :
  input_wf cfg nodes nl -> names_level nodes -> packing cfg nodes nl offsets packed groups ->
  order ≡ₚ seq 0 nl -> no_negative_use running -> uses_fit cfg nodes (running_uses running) ->
  exists packed' orphans,
    processRunningTasks cfg nodes offsets groups order running packed = Ret (packed', orphans) /\
    keeps packed packed' /\
    (forall i o off rids m rid s, nodes !! i = Some o -> offsets !! i = Some off ->
       levelIDToResourceID (cfg_tables cfg) !! obj_level o = Some rids -> rids !! m = Some rid ->
       objects_ (resourceNames (cfg_tables cfg)) !! rid = Some s ->
       amount packed' (obj_level o, (off + m)%nat) =
         (fun x => x - running_uses running (obj_name o) s)
           <$> amount packed (obj_level o, (off + m)%nat)) /\
    (forall rt, rt ∈ orphans <-> rt ∈ running /\
       ~ (job_can_run (cfg_jobs cfg) rt = true /\
          exists i o, nodes !! i = Some o /\ obj_enabled o = true /\ obj_name o = rt_node rt)).
Proof.
  intros Hin Hnames Hpk Horder Hneg Hfit. unfold processRunningTasks.
  destruct (process_groups_ok cfg nodes nl Hin Hnames offsets packed groups Hpk
    (tasks_by_node running) (used_by_node running) (used_by_node_nonneg _ Hneg)) with
    (order := order) (seen := @nil nat) (tasks := tasks_by_node running)
    (used := used_by_node running) (packed := packed) as (tasks & used & packed' & -> & [_ Ht Hs Hc]).
  { intros i o rids limits rid s Ho Hr Hm Hrid Hname. rewrite used_by_node_spec. by eapply Hfit. }
  { apply processed_start. }
  { apply Forall_forall. intros l Hl. rewrite Horder in Hl. apply elem_of_seq in Hl. lia. }
  cbn [mbind outcome_bind app] in *.
  destruct (in_worker _ _ _ Hin) as (w & -> & Hw).
  destruct (level_tables _ _ (in_tables _ _ _ Hin) (in_limits _ _ _ Hin) w Hw) as (rids & _ & Hr & _).
  rewrite Hr. destruct (index_spec _ _ _ _ (in_tables _ _ _ Hin) Hr) as (index & -> & _).
  cbn [mbind outcome_bind]. eexists _, _. split; [reflexivity|]. split_and!; [done| |].
  - intros i o off rids' m rid s Ho Hoff Hr' Hm Hname.
    rewrite (Hc i o off rids' m rid s Ho Hoff Hr' Hm Hname).
    rewrite (seen_name_spec nodes _ i o Ho) by (by eapply all_seen).
    by rewrite used_by_node_spec.
  - intros rt. rewrite (orphans_left _ _ _ _ _ Ht). apply and_iff_compat_l, not_iff_compat, and_iff_compat_l.
    rewrite seen_enabled_spec. split; [intros (i & o & _ & H); eauto|].
    intros (i & o & Ho & H). exists i, o. split; [by eapply all_seen|done].
Qed.

(** ** Node values *)

Lemma node_values_snoc nodes offsets o off :
  length offsets = length nodes ->
  node_values (nodes ++ [o]) (offsets ++ [off]) =
    node_values nodes offsets ++
      [mkNode (obj_id o) (obj_name o) (obj_level o) (obj_enabled o)
         (obj_parent o ≫= fun i => node_values nodes offsets !! i) (obj_tags o) off].
Proof.
  intros H. unfold node_values. rewrite zip_with_app by done. cbn. by rewrite foldl_snoc.
Qed.

Lemma length_node_values nodes offsets :
  length offsets = length nodes -> length (node_values nodes offsets) = length nodes.
Proof.
  revert offsets; induction nodes as [|o nodes IH] using rev_ind; intros offsets H.
  { by destruct offsets. }
  destruct offsets as [|off offsets _] using rev_ind; [rewrite length_app in H; cbn in H; lia|].
  rewrite !length_app in H. cbn in H. rewrite node_values_snoc, !length_app by lia.
  cbn. rewrite IH by lia. done.
Qed.

(** The value of a node object: its fields, its offset, and its parent's
    value. *)
Definition value_of (nodes : list NodeObj) (offsets : list nat) (i : nat) (o : NodeObj) (n : Node) : Prop :=
  exists off, offsets !! i = Some off /\
    n = mkNode (obj_id o) (obj_name o) (obj_level o) (obj_enabled o)
          (obj_parent o ≫= fun p => node_values nodes offsets !! p) (obj_tags o) off.

Lemma node_values_lookup nodes offsets i o :
  length offsets = length nodes ->
  (forall i o p, nodes !! i = Some o -> obj_parent o = Some p -> (p < i)%nat) ->
  nodes !! i = Some o ->
  exists n, node_values nodes offsets !! i = Some n /\ value_of nodes offsets i o n.
Proof.
  revert offsets; induction nodes as [|x nodes IH] using rev_ind; intros offsets H Hp Ho; [done|].
  destruct offsets as [|off offsets _] using rev_ind; [rewrite length_app in H; cbn in H; lia|].
  rewrite !length_app in H. cbn in H. assert (Hlen : length offsets = length nodes) by lia.
  pose proof (length_node_values nodes offsets Hlen) as Hv.
  unfold value_of. rewrite node_values_snoc by done.
  assert (Hpar : forall j, (j <= length nodes)%nat -> forall o', (nodes ++ [x]) !! j = Some o' ->
    (obj_parent o' ≫= fun p => node_values nodes offsets !! p) =
    (obj_parent o' ≫= fun p => (node_values nodes offsets ++ [mkNode (obj_id x) (obj_name x)
       (obj_level x) (obj_enabled x) (obj_parent x ≫= fun i => node_values nodes offsets !! i)
       (obj_tags x) off]) !! p)).
  { intros j Hj o' Ho'. destruct (obj_parent o') as [p|] eqn:Ep; [|done]. cbn.
    pose proof (Hp _ _ _ Ho' Ep). by rewrite lookup_app_l by lia. }
  apply lookup_app_Some in Ho as Ho2. destruct Ho2 as [Ho2|[Hge Ho2]].
  - pose proof (lookup_lt_Some _ _ _ Ho2). destruct (IH offsets Hlen) as (n & Hn & off' & Hoff & ->).
    { intros j o' p Ho'. apply Hp. by apply lookup_app_l_Some. } { done. }
    eexists. split; [by apply lookup_app_l_Some|]. exists off'. split; [by apply lookup_app_l_Some|].
    f_equal. apply (Hpar i); [lia|done].
  - apply list_lookup_singleton_Some in Ho2 as [Hi ->]. assert (i = length nodes) as -> by lia.
    eexists. split; [rewrite <- Hv; by apply list_lookup_middle|].
    exists off. split; [rewrite <- Hlen; by apply list_lookup_middle|].
    f_equal. by apply (Hpar (length nodes)).
Qed.

Section Values.
Context (cfg : Config) (nodes : list NodeObj) (nl : nat).
Context (Hin : input_wf cfg nodes nl).
Context (offsets : list nat) (Hlen : length offsets = length nodes).

Lemma value_lookup i o : nodes !! i = Some o ->
  exists n, node_values nodes offsets !! i = Some n /\ value_of nodes offsets i o n.
Proof using Hin Hlen.
  apply node_values_lookup; [done|]. intros j x p Hx Hp. by apply (in_parents _ _ _ Hin j x p).
Qed.

Lemma traverseUp_eq n :
  traverseUp n = n :: match node_parent n with Some p => traverseUp p | None => [] end.
Proof. by destruct n as [? ? ? ? [p|] ? ?]. Qed.

(** The path of a node: values of node objects, of decreasing levels. *)
Lemma value_path i : forall o n, nodes !! i = Some o -> node_values nodes offsets !! i = Some n ->
  Forall (fun x => exists j oj, nodes !! j = Some oj /\ value_of nodes offsets j oj x /\
            (node_level x <= obj_level o)%nat) (traverseUp n) /\
  NoDup (map node_level (traverseUp n)).
Proof using Hin Hlen.
  induction i as [i IH] using lt_wf_ind. intros o n Ho Hn.
  destruct (value_lookup i o Ho) as (n' & Hn' & Hv). rewrite Hn in Hn'. injection Hn' as <-.
  assert (Hl : node_level n = obj_level o) by (by destruct Hv as (off & _ & ->)).
  assert (Hp : node_parent n = obj_parent o ≫= fun p => node_values nodes offsets !! p)
    by (by destruct Hv as (off & _ & ->)).
  assert (Hhead : exists j oj, nodes !! j = Some oj /\ value_of nodes offsets j oj n /\
    (node_level n <= obj_level o)%nat) by (exists i, o; split_and!; [done|done|lia]).
  rewrite traverseUp_eq, Hp. destruct (obj_parent o) as [p|] eqn:Ep; cbn [mbind option_bind].
  2: { split; [by apply Forall_singleton|by apply NoDup_singleton]. }
  destruct (in_parents _ _ _ Hin i o p Ho Ep) as (Hpi & po & Hpo & Hlvl).
  destruct (value_lookup p po Hpo) as (pn & Hpn & _). rewrite Hpn.
  destruct (IH p Hpi po pn Hpo Hpn) as [Hf Hnd]. split.
  - constructor; [done|]. eapply Forall_impl; [exact Hf|].
    intros x (j & oj & H1 & H2 & H3). exists j, oj. split_and!; [done|done|lia].
  - cbn. constructor; [|done]. intros (x & Hx & Hxin)%list_elem_of_fmap.
    destruct (proj1 (Forall_forall _ _) Hf x Hxin) as (_ & _ & _ & _ & Hle). lia.
Qed.

End Values.

(** ** Jobs *)

(** What a job needs of a level. *)
Definition needs_at (t : ResourceTables) (j : Job) (l : nat) : list Z :=
  map (fun rid => default 0 (resources_ j !! rid)) (default [] (levelIDToResourceID t !! l)).
Definition needs_of (t : ResourceTables) (j : Job) (ngroups : nat) : gmap nat (list Z) :=
  foldl (fun m l => <[l := needs_at t j l]> m) ∅ (seq 0 ngroups).

Lemma needs_of_lookup t j n l :
  needs_of t j n !! l = if decide (l < n)%nat then Some (needs_at t j l) else None.
Proof.
  unfold needs_of. induction n as [|n IH].
  { cbn [seq foldl]. rewrite lookup_empty. by rewrite decide_False by lia. }
  rewrite seq_S, foldl_snoc, lookup_insert. cbn. rewrite IH.
  repeat case_decide; subst; (done || lia).
Qed.

Lemma job_needs_ok t j nl :
  tables_wf nl t -> length (resources_ j) = length (objects_ (resourceNames t)) ->
  job_needs t j nl = Ret (needs_of t j nl).
Proof.
  intros Ht Hr. unfold job_needs, needs_of.
  assert (Hl : Forall (fun l => (l < nl)%nat) (seq 0 nl)).
  { apply Forall_forall. intros l Hl%elem_of_seq. lia. }
  generalize (∅ : gmap nat (list Z)) as m. induction Hl as [|l ls Hl _ IH]; intros m; [done|].
  cbn [foldM foldl]. destruct (lookup_lt_is_Some_2 (levelIDToResourceID t) l) as [rids Hrids].
  { by rewrite (rids_levels _ _ Ht). }
  rewrite Hrids.
  assert (G : forall rs acc, Forall (fun rid => (rid < length (resources_ j))%nat) rs ->
    foldM (fun l rid => match resources_ j !! rid with
                        | None => Undef "resources()[rid]"
                        | Some n => Ret (l ++ [n]) end) acc rs
    = Ret (acc ++ map (fun rid => default 0 (resources_ j !! rid)) rs)).
  { intros rs acc Hrs. revert acc. induction Hrs as [|rid rs Hrid _ IHr]; intros acc; cbn [foldM map].
    - by rewrite app_nil_r.
    - destruct (lookup_lt_is_Some_2 _ _ Hrid) as [n ->]. cbn [mbind outcome_bind].
      rewrite IHr, <- app_assoc. done. }
  rewrite G. 2: { apply Forall_forall. intros rid Hin. rewrite Hr. by eapply (rids_known _ _ Ht). }
  cbn [mbind outcome_bind app]. rewrite IH. unfold needs_at. by rewrite Hrids.
Qed.

Section Runnable.
Context (regex_search : string -> string -> bool) (hasher : string -> string -> Z).
Context (cur_time : Z) (snap : TaskStatusSnapshot).

(** The status of a task, if any. *)
Definition status_of (j n : nat) : option TaskStatus :=
  match rows_ snap !! j with Some row => row_getPtr row n | None => None end.

(** A job whose statuses have been loaded, or that has none yet. *)
Definition loaded (j : nat) : Prop :=
  match rows_ snap !! j with Some row => isLoaded_ row = true | None => True end.

(** Nothing in its status keeps a task from running now. *)
Definition free_to_run (s : option TaskStatus) : bool :=
  match s with
  | None => true
  | Some s => negb (isRunning s) && negb (isDone s) && negb (isFailed s) && negb (isInBackoff s cur_time)
  end.

(** The job may use the node: it is enabled and passes the filters of its
    level. *)
Definition usable (j : Job) (n : Node) : bool :=
  node_enabled n && match filters_ j !! node_level n with
                    | Some f => bool_decide (doesPass regex_search hasher f (job_name j) n = Ret true)
                    | None => false
                    end.

(** A task may run: its status permits it, all nodes of its path are usable,
    and its dependencies are done. *)
Definition task_runnable (j : Job) (n : Node) : Prop :=
  free_to_run (status_of (job_id j) (node_id n)) = true /\
  Forall (fun x => usable j x = true) (traverseUp n) /\
  Forall (fun d => match status_of d (node_id n) with
                   | Some st => isDone st | None => false end = true) (dependsOn_ j).
#[global] Instance task_runnable_dec j n : Decision (task_runnable j n).
Proof. unfold task_runnable. apply _. Defined.

(** The fraction of a filter has a defined cutoff. *)
Definition filter_defined (f : JobFilters) : Prop :=
  isEmpty_ f = true \/
  exists q, fractionOfNodes_ f = Some q /\ (Qeq_bool q 1 = true \/ is_Some (fractionCutoff_ f)).

Record job_wf (t : ResourceTables) (nl : nat) (j : Job) : Prop := {
  jw_resources : length (resources_ j) = length (objects_ (resourceNames t));
  jw_nonneg : Forall (Z.le 0) (resources_ j);
  jw_filters : length (filters_ j) = nl;
  jw_defined : Forall filter_defined (filters_ j);
  jw_loaded : loaded (job_id j);
  jw_dependencies : Forall loaded (dependsOn_ j)
}.

Lemma doesPass_defined f salt n :
  filter_defined f -> exists b, doesPass regex_search hasher f salt n = Ret b.
Proof.
  intros Hf. unfold doesPass.
  enough (H : exists b, doesPass_name regex_search hasher f salt (node_name n) = Ret b)
    by (destruct H as [b ->]; eexists; reflexivity).
  unfold doesPass_name. destruct Hf as [->|(q & -> & Hq)]; [eauto|].
  destruct (isEmpty_ f); [eauto|]. case_match; [|eauto].
  destruct Hq as [->|[c ->]]; [eauto|]. destruct (Qeq_bool q 1); eauto.
Qed.

Lemma shouldRun_ok t nl j path :
  job_wf t nl j -> Forall (fun n => (node_level n < nl)%nat) path ->
  exists r, shouldRun_path regex_search hasher j path = Ret r /\
    (r = Yes <-> Forall (fun x => usable j x = true) path).
Proof.
  intros Hj. induction 1 as [|n path Hn _ IH]; cbn [shouldRun_path]; [by exists Yes|].
  setoid_rewrite Forall_cons. unfold usable at 1.
  destruct (node_enabled n); cbn [negb andb]; [|exists NoDisabled; split; [done|split; [done|by intros [? _]]]].
  destruct (lookup_lt_is_Some_2 (filters_ j) (node_level n)) as [f Hf]; [by rewrite (jw_filters _ _ _ Hj)|].
  rewrite Hf. destruct (doesPass_defined f (job_name j) n) as [b ->].
  { by apply (Forall_lookup_1 _ _ _ _ (jw_defined _ _ _ Hj) Hf). }
  cbn [mbind outcome_bind]. destruct b.
  - destruct IH as (r & -> & Hr). exists r. split; [done|]. rewrite Hr, bool_decide_true by done. tauto.
  - exists NoAvoided. split; [done|]. rewrite bool_decide_false by done. split; [done|by intros [? _]].
Qed.

Lemma must_wait_free s : must_wait cur_time s = negb (free_to_run s).
Proof. destruct s as [s|]; [|done]. cbn. by rewrite !negb_andb, !negb_involutive. Qed.

Lemma getPtr_loaded j n : loaded j -> getPtr snap j n = Ret (status_of j n).
Proof. unfold loaded, getPtr, status_of. destruct (rows_ snap !! j); [|done]. by intros ->. Qed.

Lemma getRow_loaded j n : loaded j ->
  exists row, getRow snap j = Ret row /\ TaskStatusRow_getPtr row n = status_of j n.
Proof.
  unfold loaded, getRow, status_of. destruct (rows_ snap !! j); [intros ->|]; eexists; by split.
Qed.

Lemma dependencies_done_ok n deps :
  Forall loaded deps ->
  dependencies_done snap n deps = Ret (bool_decide (Forall (fun d => match status_of d n with
                   | Some st => isDone st | None => false end = true) deps)).
Proof.
  induction 1 as [|d deps Hd _ IH]; cbn; [done|]. rewrite getPtr_loaded by done. cbn.
  destruct (status_of d n) as [st|] eqn:Es; [destruct (isDone st) eqn:Ed|].
  - rewrite IH. f_equal. apply bool_decide_ext. rewrite Forall_cons, Es, Ed. tauto.
  - f_equal. symmetry. apply bool_decide_false. rewrite Forall_cons, Es, Ed. by intros [? _].
  - f_equal. symmetry. apply bool_decide_false. rewrite Forall_cons, Es. by intros [? _].
Qed.

Lemma may_run_ok t nl j n row :
  job_wf t nl j -> Forall (fun x => (node_level x < nl)%nat) (traverseUp n) ->
  TaskStatusRow_getPtr row (node_id n) = status_of (job_id j) (node_id n) ->
  may_run regex_search hasher cur_time snap row j n = Ret (bool_decide (task_runnable j n)).
Proof.
  intros Hj Hn Hrow. unfold may_run. rewrite Hrow, must_wait_free.
  destruct (free_to_run (status_of (job_id j) (node_id n))) eqn:Em; cbn [negb].
  2: { f_equal. symmetry. apply bool_decide_false. intros [H _]. congruence. }
  destruct (shouldRun_ok t nl j (traverseUp n) Hj Hn) as (r & Hr & HYes).
  assert (Hs : shouldRunOn regex_search hasher j n = Ret r) by exact Hr.
  rewrite Hs. cbn [mbind outcome_bind]. case_bool_decide as HY.
  - rewrite dependencies_done_ok by apply Hj. f_equal. apply bool_decide_ext.
    unfold task_runnable. rewrite Em, <- HYes. tauto.
  - f_equal. symmetry. apply bool_decide_false. intros (_ & H & _). by apply HY, HYes.
Qed.

End Runnable.

(** ** The cross product *)

Lemma omap_filter_seq {A} (f : A -> bool) (l : list A) k :
  omap (fun i => l !! (i - k)%nat)
    (List.filter (fun i => match l !! (i - k)%nat with Some x => f x | None => false end) (seq k (length l)))
  = List.filter f l.
Proof.
  revert k; induction l as [|x l IH]; intros k; [done|]. cbn [length seq List.filter].
  rewrite Nat.sub_diag. cbn [lookup list_lookup].
  assert (Hext : omap (fun i => (x :: l) !! (i - k)%nat)
      (List.filter (fun i => match (x :: l) !! (i - k)%nat with Some y => f y | None => false end)
         (seq (S k) (length l))) = List.filter f l).
  { rewrite <- (IH (S k)).
    assert (Hi : forall i, In i (seq (S k) (length l)) -> (x :: l) !! (i - k)%nat = l !! (i - S k)%nat).
    { intros i [Hi _]%in_seq. by replace (i - k)%nat with (S (i - S k)) by lia. }
    induction (seq (S k) (length l)) as [|i ks IHi]; [done|]. cbn [List.filter].
    pose proof (IHi (fun j Hj => Hi j (or_intror Hj))) as IHi'. clear IHi.
    pose proof (Hi i (or_introl eq_refl)) as Hii. rewrite Hii.
    destruct (l !! (i - S k)%nat) as [y|] eqn:Ey; [|exact IHi'].
    destruct (f y); [|exact IHi']. cbn [omap list_omap]. rewrite Hii, Ey. f_equal. exact IHi'. }
  destruct (f x) eqn:Ef; [|done]. cbn [omap list_omap]. rewrite Nat.sub_diag. cbn [lookup list_lookup].
  by rewrite Hext.
Qed.

(** The value nodes of a level, from the indices of the objects. *)
Lemma level_values nodes values l :
  length values = length nodes ->
  (forall i o n, nodes !! i = Some o -> values !! i = Some n -> node_level n = obj_level o) ->
  omap (fun i => values !! i) (level_indices nodes l) =
    List.filter (fun n => Nat.eqb (node_level n) l) values.
Proof.
  intros Hlen Hv. rewrite <- (omap_filter_seq _ values 0). unfold level_indices. rewrite <- Hlen.
  assert (Hs : forall i, (i - 0)%nat = i) by lia.
  rewrite (List.filter_ext _ (fun i => match values !! (i - 0)%nat with
      | Some x => Nat.eqb (node_level x) l | None => false end)).
  - apply list_omap_ext. apply Forall2_same_length_lookup. split; [done|].
    intros k x y Hx Hy. rewrite Hx in Hy. injection Hy as <-. by rewrite Hs.
  - intros i. rewrite Hs. destruct (nodes !! i) as [o|] eqn:Ho.
    + destruct (lookup_lt_is_Some_2 values i) as [n Hn]; [rewrite Hlen; by eapply lookup_lt_Some|].
      rewrite Hn. by rewrite (Hv i o n Ho Hn).
    + apply lookup_ge_None in Ho. by rewrite lookup_ge_None_2 by lia.
Qed.

Lemma lfilter_perm {A} (f : A -> bool) l l' : l ≡ₚ l' -> List.filter f l ≡ₚ List.filter f l'.
Proof.
  induction 1 as [|x l l' _ IH|x y l|l l' l'' _ IH1 _ IH2]; cbn; [done| | |by etrans].
  - destruct (f x); [by constructor|done].
  - destruct (f x), (f y); try done. constructor.
Qed.

Lemma lfilter_none {A} (f : A -> bool) l : (forall x, In x l -> f x = false) -> List.filter f l = [].
Proof.
  induction l as [|x l IH]; intros H; [done|]. cbn. rewrite H by (by left). apply IH.
  intros y Hy. apply H. by right.
Qed.

Section CrossProduct.
Context (regex_search : string -> string -> bool) (hasher : string -> string -> Z).
Context (cur_time : Z) (snap : TaskStatusSnapshot).
Context (t : ResourceTables) (nl : nat) (values : list Node) (groups : list (list nat)).
Context (Ht : tables_wf nl t).
Context (Hvalues : Forall (fun n => Forall (fun x => (node_level x < nl)%nat) (traverseUp n)) values).
Context (Hgroups : length groups = nl).
Context (Hgroup : forall l g, groups !! l = Some g ->
  Forall (fun i => is_Some (values !! i)) g /\
  omap (fun i => values !! i) g ≡ₚ List.filter (fun n => Nat.eqb (node_level n) l) values).

Abbreviation runnable j := (fun n => bool_decide (task_runnable regex_search hasher cur_time snap j n)).

(** The tasks of a job that may run. *)
Definition job_tasks (j : Job) : list (@task Job) :=
  if canRun j
  then map (fun n => (j, needs_of t j nl, n))
         (List.filter (runnable j) (List.filter (fun n => Nat.eqb (node_level n) (levelForTasks_ j)) values))
  else [].

Lemma job_nodes_ok j row g acc :
  job_wf snap t nl j -> Forall (fun i => is_Some (values !! i)) g ->
  (forall n, TaskStatusRow_getPtr row n = status_of snap (job_id j) n) ->
  foldM (fun l i => match values !! i with
           | None => Undef "nodes_"
           | Some n => let* b := may_run regex_search hasher cur_time snap row j n in
                       Ret (if (b : bool) then n :: l else l) end) acc g
  = Ret (rev (List.filter (runnable j) (omap (fun i => values !! i) g)) ++ acc).
Proof using Hvalues.
  intros Hj Hg Hrow. revert acc; induction Hg as [|i g [n Hn] _ IH]; intros acc; [done|].
  cbn [foldM omap list_omap]. rewrite Hn. rewrite (may_run_ok _ _ _ _ t nl); [|done| |done].
  2: { by apply (Forall_lookup_1 _ _ _ _ Hvalues Hn). }
  cbn [mbind outcome_bind]. rewrite IH. cbn [List.filter]. case_bool_decide; [|done].
  cbn [rev]. by rewrite <- app_assoc.
Qed.

Lemma add_job_ok acc j :
  job_wf snap t nl j ->
  exists new, add_job regex_search hasher cur_time snap t groups values acc j = Ret (acc ++ new) /\
    pending new ≡ₚ job_tasks j /\ Forall (fun w => jwn_job w = j) new.
Proof using Ht Hvalues Hgroups Hgroup.
  intros Hj. unfold add_job, job_tasks. destruct (canRun j); cbn [negb].
  2: { exists []. by rewrite app_nil_r. }
  rewrite Hgroups, job_needs_ok by (done || apply Hj). cbn [mbind outcome_bind].
  assert (Hrow : exists row, getRow snap (job_id j) = Ret row /\
    forall n, TaskStatusRow_getPtr row n = status_of snap (job_id j) n).
  { pose proof (jw_loaded _ _ _ _ Hj) as Hl. unfold loaded, getRow, status_of in *.
    destruct (rows_ snap !! job_id j); [rewrite Hl|]; eexists; by split. }
  destruct Hrow as (row & -> & Hrow). cbn [mbind outcome_bind].
  destruct (groups !! levelForTasks_ j) as [g|] eqn:Eg.
  - destruct (Hgroup _ _ Eg) as [Hg Hperm]. unfold job_nodes.
    rewrite job_nodes_ok by done. cbn [mbind outcome_bind]. rewrite app_nil_r.
    eexists. split; [reflexivity|]. split; [|by repeat constructor].
    unfold pending, tasks_of. cbn. rewrite app_nil_r. apply Permutation_map.
    rewrite <- Permutation_rev. by apply lfilter_perm.
  - eexists. split; [reflexivity|]. split; [|by repeat constructor]. cbn.
    rewrite (lfilter_none (fun n => Nat.eqb (node_level n) (levelForTasks_ j))); [done|]. intros n Hn. apply Nat.eqb_neq. intros Heq.
    apply list_elem_of_In, (proj1 (Forall_forall _ _) Hvalues) in Hn. rewrite traverseUp_eq in Hn.
    apply Forall_cons in Hn as [Hn _]. apply lookup_ge_None in Eg. lia.
Qed.

Lemma add_jobs_ok jobs : forall acc,
  Forall (job_wf snap t nl) jobs ->
  exists new, foldM (add_job regex_search hasher cur_time snap t groups values) acc jobs = Ret (acc ++ new) /\
    pending new ≡ₚ concat (map job_tasks jobs) /\ Forall (fun w => jwn_job w ∈ jobs) new.
Proof using Ht Hvalues Hgroups Hgroup.
  induction jobs as [|j jobs IH]; intros acc Hj.
  { exists []. by rewrite app_nil_r. }
  apply Forall_cons in Hj as [Hj Hjs]. cbn [foldM map concat].
  destruct (add_job_ok acc j Hj) as (new1 & -> & Hp1 & Hf1). cbn [mbind outcome_bind].
  destruct (IH (acc ++ new1) Hjs) as (new2 & -> & Hp2 & Hf2).
  exists (new1 ++ new2). split_and!.
  - by rewrite app_assoc.
  - unfold pending in *. rewrite map_app, concat_app, Hp1, Hp2. done.
  - apply Forall_app. split.
    + eapply Forall_impl; [exact Hf1|]. intros w ->. by left.
    + eapply Forall_impl; [exact Hf2|]. intros w Hw. by right.
Qed.

End CrossProduct.

(** ** The cells of a task exist *)

Lemma cells_at_nonneg lvl idx needs : Forall (Z.le 0) needs -> nonneg (cells_at lvl idx needs).
Proof.
  intros H. revert idx; induction H as [|x l Hx _ IH]; intros idx; constructor; [done|apply IH].
Qed.

Lemma needs_nonneg t nl j n :
  Forall (Z.le 0) (resources_ j) -> nonneg (task_demands (j, needs_of t j nl, n)).
Proof.
  intros Hj. unfold task_demands, demands, nonneg. cbn [task_needs task_node fst snd].
  apply Forall_concat, Forall_map, Forall_true. intros x. apply cells_at_nonneg.
  rewrite needs_of_lookup. case_decide; [|constructor]. apply Forall_map, Forall_true. intros rid.
  destruct (resources_ j !! rid) as [a|] eqn:E; [|done]. by apply (Forall_lookup_1 _ _ _ _ Hj E).
Qed.

Lemma packed_task_wf cfg nodes nl offsets packed packed' groups i o n j :
  input_wf cfg nodes nl -> packing cfg nodes nl offsets packed groups -> keeps packed packed' ->
  Forall (Z.le 0) (resources_ j) ->
  nodes !! i = Some o -> node_values nodes offsets !! i = Some n ->
  task_wf packed' (j, needs_of (cfg_tables cfg) j nl, n).
Proof.
  intros Hin Hpk [Hsh Hints] Hneg Ho Hn.
  destruct (value_path cfg nodes nl Hin offsets (pk_offsets _ _ _ _ _ _ Hpk) i o n Ho Hn) as [Hf Hnd].
  split_and!; [|done|by apply needs_nonneg|by eapply Hints, packing_ints].
  unfold path_wf. cbn [task_needs task_node fst snd]. eapply Forall_impl; [exact Hf|].
  intros x (k & ok & Hok & (off & Hoff & ->) & _). cbn [node_level node_offset].
  assert (Hl : (obj_level ok < nl)%nat) by (by apply (Forall_lookup_1 _ _ _ _ (in_levels _ _ _ Hin) Hok)).
  destruct (level_packed_cell _ _ _ _ _ k ok (pk_levels _ _ _ _ _ _ Hpk _ Hl) Hok eq_refl)
    as (rids & limits & v & off' & Hr & _ & Hv & Hoff' & Hb & _).
  rewrite Hoff in Hoff'. injection Hoff' as <-.
  specialize (Hsh (obj_level ok)). rewrite Hv in Hsh.
  destruct (packed' !! obj_level ok) as [v'|] eqn:Hv'; [|done]. injection Hsh as Hlen.
  exists (needs_at (cfg_tables cfg) j (obj_level ok)), v'.
  rewrite needs_of_lookup, decide_True by done. split_and!; [done|done|].
  unfold needs_at. rewrite length_map, Hr. cbn. lia.
Qed.

(** The groups in terms of values. *)
Lemma packed_groups cfg nodes nl offsets packed groups :
  input_wf cfg nodes nl -> packing cfg nodes nl offsets packed groups ->
  forall l g, groups !! l = Some g ->
  Forall (fun i => is_Some (node_values nodes offsets !! i)) g /\
  omap (fun i => node_values nodes offsets !! i) g
    ≡ₚ List.filter (fun n => Nat.eqb (node_level n) l) (node_values nodes offsets).
Proof.
  intros Hin Hpk l g Hg. pose proof (pk_offsets _ _ _ _ _ _ Hpk) as Hlen.
  pose proof (pk_group _ _ _ _ _ _ Hpk l g Hg) as Hperm. split.
  - apply Forall_forall. intros i Hi. rewrite Hperm in Hi.
    apply elem_of_level_indices in Hi as (o & Ho & _).
    destruct (value_lookup cfg nodes nl Hin offsets Hlen i o Ho) as (n & -> & _). done.
  - rewrite <- (level_values nodes); [by rewrite Hperm|by apply length_node_values|].
    intros i o n Ho Hn. destruct (value_lookup cfg nodes nl Hin offsets Hlen i o Ho) as (n' & Hn' & off & _ & ->).
    rewrite Hn in Hn'. by injection Hn' as ->.
Qed.

Lemma values_levels cfg nodes nl offsets :
  input_wf cfg nodes nl -> length offsets = length nodes ->
  Forall (fun n => Forall (fun x => (node_level x < nl)%nat) (traverseUp n)) (node_values nodes offsets).
Proof.
  intros Hin Hlen. apply Forall_lookup_2. intros i n Hn.
  destruct (lookup_lt_is_Some_2 nodes i) as [o Ho].
  { rewrite <- (length_node_values nodes offsets) by done. by eapply lookup_lt_Some. }
  destruct (value_path cfg nodes nl Hin offsets Hlen i o n Ho Hn) as [Hf _].
  eapply Forall_impl; [exact Hf|]. intros x (k & ok & Hok & (off & _ & ->) & _). cbn.
  by apply (Forall_lookup_1 _ _ _ _ (in_levels _ _ _ Hin) Hok).
Qed.

Section Round.
Context (regex_search : string -> string -> bool) (hasher : string -> string -> Z).
Context {E : Type} (cb : E -> Job -> Node -> outcome (E * TaskRunnerResponse)).
Context (sort_jobs : (@JobWithNodes Job -> @JobWithNodes Job -> bool) ->
                     list (@JobWithNodes Job) -> list (@JobWithNodes Job)).
Context (pick : nat -> list Q -> nat).
Context (sort_nodes : (nat -> nat -> bool) -> list nat -> list nat).
Context (shuffle_nodes : list nat -> list nat).
Context (shuffle_jobs : list Job -> list Job).
Context (group_order : list nat).

(** The runner returns; sorting and shuffling permute; a draw among positive
    weights is the index of one of them; the hash map has each group once. *)
Record environment_ok (nl : nat) : Prop := {
  env_cb : forall e j n, exists e' r, cb e j n = Ret (e', r);
  env_sort_jobs : forall r l, sort_jobs r l ≡ₚ l;
  env_pick : forall k ps, ps <> [] -> Forall (Qlt 0) ps -> (pick k ps < length ps)%nat;
  env_sort_nodes : forall r l, sort_nodes r l ≡ₚ l;
  env_shuffle_nodes : forall l, shuffle_nodes l ≡ₚ l;
  env_shuffle_jobs : forall l, shuffle_jobs l ≡ₚ l;
  env_order : group_order ≡ₚ seq 0 nl
}.

Lemma policy_accounted name st jobs nl :
  environment_ok nl ->
  name ∈ ["roundrobin"; "ranked_priority"; "randomized_priority"; "long_tail"] ->
  (name = "randomized_priority" -> positive job_priority jobs) ->
  (forall t, t ∈ pending jobs -> task_wf (packed st) t) ->
  exists policy, getSchedulerPolicy cb sort_jobs pick name = Ret policy /\ accounted policy st jobs.
Proof.
  intros Henv Hname Hpos Hwf. unfold getSchedulerPolicy.
  rewrite !elem_of_cons, elem_of_nil in Hname.
  destruct Hname as [->|[->|[->|[->|[]]]]]; cbn; eexists; (split; [reflexivity|]);
    apply (accounted_runs cb (env_cb _ Henv)); try done.
  - destruct (round_robin_runs cb (env_cb _ Henv) (work jobs) st jobs)
      as (st' & jobs' & stop & E1 & Hr & Hs); auto.
    exists st', jobs', stop. split_and!; [done|done|]. intros H. by rewrite (Hs H).
  - by apply (sorted_pass cb sort_jobs (env_cb _ Henv) (env_sort_jobs _ Henv)).
  - destruct (randomized_runs job_priority cb (env_cb _ Henv) pick (env_pick _ Henv) (work jobs) 0 st jobs)
      as (st' & jobs' & stop & E1 & Hr & Hs); auto.
    exists st', jobs', stop. split_and!; [done|done|]. intros H. by rewrite (Hs H).
  - by apply (sorted_pass cb sort_jobs (env_cb _ Henv) (env_sort_jobs _ Henv)).
Qed.

Context (cur_time : Z) (cfg : Config) (nodes : list NodeObj) (nl : nat).
Context (snap : TaskStatusSnapshot).
Context (Henv : environment_ok nl).
Context (Hin : input_wf cfg nodes nl) (Hnames : names_level nodes).

(** What the running tasks leave of the configured limits. *)
Definition limits_left (offsets : list nat) (packed : Packed) (running : list RunningTask) : Prop :=
  forall i o rids limits m rid s, nodes !! i = Some o ->
    levelIDToResourceID (cfg_tables cfg) !! obj_level o = Some rids ->
    resourcesByLevel (cfg_tables cfg) !! obj_level o = Some limits ->
    rids !! m = Some rid -> objects_ (resourceNames (cfg_tables cfg)) !! rid = Some s ->
    exists off, offsets !! i = Some off /\
      amount packed (obj_level o, (off + m)%nat) =
        Some (default 0 (limits !! rid) - running_uses running (obj_name o) s).

(** The uses the running tasks report are not negative, and subtracting them
    from the limits does not overflow. *)
Definition running_ok (running : list RunningTask) : Prop :=
  no_negative_use running /\ uses_fit cfg nodes (running_uses running).

Lemma running_left old_offsets running :
  length old_offsets = length nodes -> running_ok running ->
  exists offsets packed groups packed' orphans,
    pack_nodes sort_nodes shuffle_nodes group_order cfg nodes old_offsets
      = Ret (offsets, packed, groups) /\ packing cfg nodes nl offsets packed groups /\
    processRunningTasks cfg nodes offsets groups group_order running packed = Ret (packed', orphans) /\
    keeps packed packed' /\ limits_left offsets packed' running /\
    (forall rt, rt ∈ orphans <-> rt ∈ running /\
       ~ (job_can_run (cfg_jobs cfg) rt = true /\
          exists i o, nodes !! i = Some o /\ obj_enabled o = true /\ obj_name o = rt_node rt)).
Proof using Henv Hin Hnames.
  intros Hlen [Hneg Hfit].
  destruct (pack_nodes_packs sort_nodes shuffle_nodes group_order (env_sort_nodes _ Henv)
    (env_shuffle_nodes _ Henv) cfg nodes nl Hin (env_order _ Henv) old_offsets Hlen)
    as (offsets & packed & groups & E1 & Hpk).
  destruct (processRunningTasks_ok cfg nodes nl offsets packed groups group_order running)
    as (packed' & orphans & E2 & Hsh & Hc & Horph); [done|done|done|by apply Henv|done|done|].
  exists offsets, packed, groups, packed', orphans. split_and!; try done.
  intros i o rids limits m rid s Ho Hr Hm Hrid Hs.
  assert (Hl : (obj_level o < nl)%nat) by (by apply (Forall_lookup_1 _ _ _ _ (in_levels _ _ _ Hin) Ho)).
  destruct (level_packed_cell _ _ _ _ _ i o (pk_levels _ _ _ _ _ _ Hpk _ Hl) Ho eq_refl)
    as (rids' & limits' & v & off & Hr' & Hm' & Hv & Hoff & _ & Hcell & _).
  rewrite Hr in Hr'. injection Hr' as <-. rewrite Hm in Hm'. injection Hm' as <-.
  exists off. split; [done|]. rewrite (Hc i o off rids m rid s Ho Hoff Hr Hrid Hs).
  unfold amount. cbn. by rewrite Hv, (Hcell m rid Hrid).
Qed.

(** Packing and taking out the running tasks leaves in the cell of
    every node and resource exactly the configured limit minus what the
    running tasks say they use there, also for tasks of deleted jobs and for
    replicas, which share the cell.  The orphans are exactly the running
    tasks whose job is gone or cannot run, or none of whose nodes is
    enabled.  The tasks' reports must not be negative, nor so large that a
    difference leaves the range of [int]. *)
Theorem running_tasks_accounted old_offsets running :
  length old_offsets = length nodes -> running_ok running ->
  exists offsets packed groups packed' orphans,
    pack_nodes sort_nodes shuffle_nodes group_order cfg nodes old_offsets
      = Ret (offsets, packed, groups) /\
    processRunningTasks cfg nodes offsets groups group_order running packed = Ret (packed', orphans) /\
    limits_left offsets packed' running /\
    (forall rt, rt ∈ orphans <-> rt ∈ running /\
       ~ exists j i o, cfg_jobs cfg !! rt_job rt = Some j /\ enabled_ j = true /\ job_valid j = true /\
           nodes !! i = Some o /\ obj_enabled o = true /\ obj_name o = rt_node rt).
Proof using Henv Hin Hnames.
  intros Hlen Hrun. destruct (running_left old_offsets running Hlen Hrun)
    as (offsets & packed & groups & packed' & orphans & E1 & _ & E2 & _ & Hl & Ho).
  exists offsets, packed, groups, packed', orphans. split_and!; [done|done|done|].
  intros rt. rewrite Ho. apply and_iff_compat_l, not_iff_compat. unfold job_can_run, canRun. split.
  - intros (Hj & i & o & H). destruct (cfg_jobs cfg !! rt_job rt) as [j|] eqn:Ej; [|done].
    apply andb_true_iff in Hj as [H1 H2]. exists j, i, o. split_and!; try done; apply H.
  - intros (j & i & o & -> & -> & -> & H). eauto.
Qed.

(** The tasks of all jobs that may run. *)
Definition schedulable (values : list Node) : list (@task Job) :=
  concat (map (job_tasks regex_search hasher cur_time snap (cfg_tables cfg) nl values)
    (map snd (map_to_list (cfg_jobs cfg)))).

(** The jobs are well-formed, the policy is registered and, if it draws jobs
    at random, their priorities are positive. *)
Record jobs_ok : Prop := {
  jobs_wf : map_Forall (fun _ j => job_wf snap (cfg_tables cfg) nl j) (cfg_jobs cfg);
  jobs_policy : schedulerPolicyName cfg ∈
    ["roundrobin"; "ranked_priority"; "randomized_priority"; "long_tail"];
  jobs_positive : schedulerPolicyName cfg = "randomized_priority" ->
    map_Forall (fun _ j => (0 < job_priority j)%Q) (cfg_jobs cfg)
}.
Context (Hjobs : jobs_ok).

Lemma jobs_forall (P : Job -> Prop) :
  map_Forall (fun _ j => P j) (cfg_jobs cfg) ->
  Forall P (shuffle_jobs (map snd (map_to_list (cfg_jobs cfg)))).
Proof using Henv.
  intros H. apply Forall_forall. intros j Hj. rewrite (env_shuffle_jobs _ Henv) in Hj.
  apply list_elem_of_fmap in Hj as ([s j'] & -> & Hj). apply elem_of_map_to_list in Hj. by apply (H s).
Qed.

(** A round returns; see [schedule_correct]. *)
Lemma schedule_returns old_offsets e :
  length old_offsets = length nodes ->
  running_ok (map snd (map_to_list (runningTasks_ snap))) ->
  exists offsets packed result st jobs stopped,
    schedule regex_search hasher cb sort_jobs pick sort_nodes shuffle_nodes shuffle_jobs group_order
      cur_time cfg nodes old_offsets snap e = Ret (result, st, jobs, stopped) /\
    limits_left offsets packed (map snd (map_to_list (runningTasks_ snap))) /\
    accounts (mkSchedState packed e 0 []) (schedulable (node_values nodes offsets))
      st (pending jobs) stopped /\
    (stopped = false -> pending jobs = []) /\
    (areTasksRunning_ result = true <-> runningTasks_ snap <> ∅ \/ ran (tried st) <> []).
Proof using Henv Hin Hnames Hjobs.
  intros Hlen Hrun. unfold schedule. set (running := map snd (map_to_list (runningTasks_ snap))).
  destruct (running_left old_offsets running Hlen Hrun)
    as (offsets & packed & groups & packed' & orphans & -> & Hpk & E2 & Hsh & Hleft & _).
  cbn [mbind outcome_bind]. rewrite E2. cbn [mbind outcome_bind].
  pose proof (pk_offsets _ _ _ _ _ _ Hpk) as Hoff.
  destruct (add_jobs_ok regex_search hasher cur_time snap (cfg_tables cfg) nl (node_values nodes offsets)
    groups (in_tables _ _ _ Hin) (values_levels _ _ _ _ Hin Hoff) (pk_groups _ _ _ _ _ _ Hpk)
    (packed_groups _ _ _ _ _ _ Hin Hpk) (shuffle_jobs (map snd (map_to_list (cfg_jobs cfg)))) [])
    as (jwns & -> & Hpend & Hfrom); [by apply jobs_forall, Hjobs|].
  cbn [mbind outcome_bind app].
  assert (Hperm : pending jwns ≡ₚ schedulable (node_values nodes offsets)).
  { rewrite Hpend. unfold schedulable. by rewrite (env_shuffle_jobs _ Henv). }
  destruct (policy_accounted (schedulerPolicyName cfg) (mkSchedState packed' e 0 []) jwns nl)
    as (policy & -> & st & jobs & stop & Ep & Hacc & Hstop); [done|apply Hjobs| | |].
  - intros Hn. unfold positive. eapply Forall_impl; [exact Hfrom|]. intros w Hw. cbn.
    by apply (proj1 (Forall_forall _ _) (jobs_forall _ (jobs_positive Hjobs Hn))).
  - intros t Ht. cbn [Scheduling.packed]. rewrite Hperm in Ht. unfold schedulable in Ht.
    apply list_elem_of_In, in_concat in Ht as (ts & (j & <- & Hj)%in_map_iff & Ht).
    unfold job_tasks in Ht. destruct (canRun j); [|done].
    apply in_map_iff in Ht as (n & <- & [[Hn _]%filter_In _]%filter_In).
    apply list_elem_of_In, list_elem_of_lookup in Hn as [i Hi].
    destruct (lookup_lt_is_Some_2 nodes i) as [o Ho].
    { rewrite <- (length_node_values nodes offsets) by done. by eapply lookup_lt_Some. }
    eapply packed_task_wf; try done. apply in_map_iff in Hj as ([s j'] & <- & Hj).
    apply list_elem_of_In, elem_of_map_to_list in Hj. by apply (jw_nonneg _ _ _ _ (jobs_wf Hjobs s j' Hj)).
  - cbn [mbind outcome_bind]. rewrite Ep. cbn [mbind outcome_bind].
    eexists offsets, packed', _, st, jobs, stop. split; [reflexivity|]. split_and!; [done| |done|].
    + destruct Hacc as (new & H1 & H2 & H3). exists new. rewrite <- Hperm. done.
    + destruct Hacc as (new & H1 & _ & H3 & _). cbn in H1, H3. subst new. cbn.
      rewrite orb_true_iff, negb_true_iff, bool_decide_eq_false, Z.ltb_lt, H3.
      destruct (ran (tried st)); cbn; (split; [intros [?|?]; [by left|right]|intros [?|?]; [by left|right]]); (done || lia).
Qed.

(** C7: A round of scheduling on a well-formed configuration whose limits are
    below 2147483647, with running tasks whose uses are not negative and do not
    take a limit below the least [int], trips no check, overflows no [int] and
    returns, whatever the order of nodes, jobs and groups.  (A limit of
    2147483647 marks a resource the level lacks: [unlimited_resource_aborts].)  The
    tasks it hands to the runner are among exactly those that may run -- of
    enabled, valid jobs, on nodes of their level whose path is enabled and
    passes the filters, with no status that makes them wait and with done
    dependencies --, each at most once.  It starts from the limits minus the
    running tasks' resources, takes the resources of the tasks that ran with
    no cell overdrawn, and leaves a task untried only if the runner asked to
    stop.  It reports that tasks are running exactly if some were or one
    ran. *)
Theorem schedule_correct old_offsets e :
  length old_offsets = length nodes ->
  running_ok (map snd (map_to_list (runningTasks_ snap))) ->
  exists offsets packed result st jobs stopped,
    schedule regex_search hasher cb sort_jobs pick sort_nodes shuffle_nodes shuffle_jobs group_order
      cur_time cfg nodes old_offsets snap e = Ret (result, st, jobs, stopped) /\
    limits_left offsets packed (map snd (map_to_list (runningTasks_ snap))) /\
    accounts (mkSchedState packed e 0 []) (schedulable (node_values nodes offsets))
      st (pending jobs) stopped /\
    (stopped = false -> pending jobs = []) /\
    (areTasksRunning_ result = true <-> runningTasks_ snap <> ∅ \/ ran (tried st) <> []).
Proof using Henv Hin Hnames Hjobs. apply schedule_returns. Qed.

End Round.

(** ** A sample round: an instance, a host and two databases *)

Definition sample_resources : list (string * list (string * ResourceSpec)) :=
  [("host", [("slots", plain_spec 1 3)]); ("db", [("conns", plain_spec 1 1)])].
Definition sample_tables : ResourceTables :=
  match parse_resources sample_levels sample_resources with
  | Ret t => t | _ => newTables sample_levels end.
Definition round_nodes : list NodeObj :=
  [mkNodeObj 0 "scheduler" 0 true None []; mkNodeObj 1 "host1" 1 true (Some 0%nat) [];
   mkNodeObj 2 "db1" 2 true (Some 1%nat) []; mkNodeObj 3 "db2" 2 true (Some 1%nat) []].
Definition round_job (id : nat) (name : string) (deps : list nat) : Job :=
  mkJob id name true true 2 1%Q [1; 1] [noFilters; noFilters; noFilters; noFilters] None "" deps.
Definition round_config : Config :=
  mkConfig sample_levels sample_tables
    {["a" := round_job 0 "a" []; "b" := round_job 1 "b" [0%nat]]} Lexicographic "roundrobin".
(** Task (a, db1) is running on a slot of the host, (a, db2) is done. *)
Definition round_task : RunningTask :=
  mkRunningTask "a" "db1" [mkNodeResources "host1" [mkResource "slots" 1];
                           mkNodeResources "db1" [mkResource "conns" 1]]
    "shard" (mkInstanceID 1 1) (mkBackoffDuration false 0) 0.
Definition round_snapshot : TaskStatusSnapshot :=
  mkSnapshot [mkRow true [emptyStatus 0; emptyStatus 0; running 0; done_at 0]; mkRow true []]
    {[(0%nat, 2%nat) := round_task]}.
Definition run_each (e : nat) (j : Job) (n : Node) : outcome (nat * TaskRunnerResponse) :=
  Ret (S e, RanTask).

Lemma sample_tables_ok :
  parse_resources sample_levels sample_resources = Ret sample_tables.
Proof. vm_compute. reflexivity. Qed.

Lemma round_input : input_wf round_config round_nodes 4.
Proof.
  split.
  - pose proof (parse_resources_tables sample_levels sample_resources (parse_levels_wf _)) as H.
    rewrite sample_tables_ok in H. apply H. apply (bool_decide_unpack _). vm_compute. exact I.
  - intros l rids limits rid a Hr Hm Hin Ha.
    do 4 (destruct l as [|l]; [vm_compute in Hr, Hm; simplify_eq; set_unfold in Hin;
      repeat (destruct Hin as [->|Hin] || destruct Hin || subst); vm_compute in Ha; by simplify_eq|]).
    vm_compute in Hr. done.
  - apply Forall_forall. intros v Hv. apply Forall_forall. intros x Hx. vm_compute in Hv.
    set_unfold in Hv. destruct_or? Hv; subst; set_unfold in Hx; by destruct_or? Hx; subst.
  - exists 3%nat. split; [vm_compute; reflexivity|lia].
  - repeat constructor.
  - intros i o p Ho Hp.
    do 4 (destruct i as [|i]; [cbn in Ho; simplify_eq; cbn in Hp; simplify_eq;
      (split; [lia|eexists; split; [reflexivity|cbn; lia]])|]). done.
Qed.

Lemma round_names : names_level round_nodes.
Proof.
  intros i j o o' Ho Ho' Hn.
  do 4 (destruct i as [|i]; [cbn in Ho; injection Ho as <-;
    do 4 (destruct j as [|j]; [cbn in Ho'; injection Ho' as <-; (discriminate Hn || reflexivity)|]);
    discriminate Ho'|]). discriminate Ho.
Qed.

Definition round_order : list nat := [2; 0; 3; 1]%nat.

Lemma round_environment :
  environment_ok run_each (fun r => insertion_sort r) (fun k ps => (k mod length ps)%nat)
    (fun r => insertion_sort r) (fun l => l) (fun l => l) round_order 4.
Proof.
  split.
  - intros e j n. eexists _, _. reflexivity.
  - intros r l. apply insertion_sort_perm.
  - intros k ps Hps _. apply Nat.mod_upper_bound. by destruct ps.
  - intros r l. apply insertion_sort_perm.
  - done.
  - done.
  - apply (bool_decide_unpack _). vm_compute. exact I.
Qed.

Lemma round_jobs : jobs_ok round_config 4 round_snapshot.
Proof.
  split; [|cbn; set_solver|done].
  intros s j Hj. cbn in Hj. apply lookup_insert_Some in Hj as [[_ <-]|[_ Hj]].
  2: apply lookup_singleton_Some in Hj as [_ <-].
  all: split; [reflexivity|by repeat constructor|reflexivity|repeat constructor|reflexivity|repeat constructor].
Qed.

Lemma round_running : running_ok round_config round_nodes [round_task].
Proof.
  split; [repeat constructor; done|]. intros i o rids limits rid s Ho Hr Hm Hrid Hs.
  assert (Hl : 0 <= default 0 (limits !! rid)).
  { do 4 (destruct i as [|i]; [cbn in Ho; injection Ho as <-; vm_compute in Hm; injection Hm as <-;
      do 2 (destruct rid as [|rid]; [by vm_compute|]); done|]). done. }
  assert (Hu : running_uses [round_task] (obj_name o) s <= 2).
  { cbn. repeat case_decide; lia. }
  lia.
Qed.

Lemma nodes_get_cells_witness :
  exists offsets packed groups,
    pack_nodes (fun r => insertion_sort r) (fun l => l) round_order round_config round_nodes
      [0; 0; 0; 0]%nat = Ret (offsets, packed, groups) /\
    exists off, offsets !! 3%nat = Some off /\ amount packed (2%nat, off) = Some 1.
Proof.
  destruct (nodes_get_cells (fun r => insertion_sort r) (fun l => l) round_order
    (fun r l => insertion_sort_perm r l) (fun l => Permutation_refl l) round_config round_nodes 4
    round_input (env_order _ _ _ _ _ _ _ _ round_environment) [0; 0; 0; 0]%nat eq_refl)
    as (offsets & packed & groups & E1 & H).
  exists offsets, packed, groups. split; [exact E1|].
  destruct (H 3%nat _ eq_refl) as (rids & limits & off & Hr & Hm & Hoff & Hc & _).
  exists off. split; [exact Hoff|]. vm_compute in Hr. injection Hr as <-.
  specialize (Hc 0%nat 1%nat eq_refl). rewrite Nat.add_0_r in Hc. etransitivity; [exact Hc|].
  vm_compute in Hm. injection Hm as <-. reflexivity.
Defined.

Lemma running_tasks_accounted_witness :
  exists offsets packed groups packed' orphans,
    pack_nodes (fun r => insertion_sort r) (fun l => l) round_order round_config round_nodes
      [0; 0; 0; 0]%nat = Ret (offsets, packed, groups) /\
    processRunningTasks round_config round_nodes offsets groups round_order [round_task] packed
      = Ret (packed', orphans) /\
    limits_left round_config round_nodes offsets packed' [round_task].
Proof.
  destruct (running_tasks_accounted _ _ _ _ _ _ _ round_config round_nodes 4 round_environment
    round_input round_names [0; 0; 0; 0]%nat [round_task] eq_refl round_running)
    as (offsets & packed & groups & packed' & orphans & E1 & E2 & Hl & _).
  exists offsets, packed, groups, packed', orphans. split; [exact E1|]. split; [exact E2|exact Hl].
Defined.

Lemma schedule_correct_witness :
  exists offsets packed result st jobs stopped,
    schedule (fun _ _ => false) (fun _ _ => 0) run_each (fun r => insertion_sort r)
      (fun k ps => (k mod length ps)%nat) (fun r => insertion_sort r) (fun l => l) (fun l => l)
      round_order 100 round_config round_nodes [0; 0; 0; 0]%nat round_snapshot 0%nat
      = Ret (result, st, jobs, stopped) /\
    accounts (mkSchedState packed 0%nat 0 [])
      (schedulable (fun _ _ => false) (fun _ _ => 0) 100 round_config 4 round_snapshot
         (node_values round_nodes offsets)) st (pending jobs) stopped /\
    map (fun p => (job_name (task_job p.1), node_name (task_node p.1), p.2)) (tried st)
      = [("b", "db2", RanTask)].
Proof.
  destruct (schedule_correct (fun _ _ => false) (fun _ _ => 0) _ _ _ _ _ _ _ 100 round_config
    round_nodes 4 round_snapshot round_environment round_input round_names round_jobs
    [0; 0; 0; 0]%nat 0%nat eq_refl round_running)
    as (offsets & packed & result & st & jobs & stopped & E1 & _ & Ha & _).
  exists offsets, packed, result, st, jobs, stopped. split; [exact E1|]. split; [exact Ha|].
  vm_compute in E1. injection E1 as _ <- _ _. vm_compute. reflexivity.
Defined.

(** A limit of 2147483647, which the configuration accepts, is stored
    as the value that marks a resource a level lacks: with such a limit the
    scheduler aborts while packing, before it looks at any task. *)
Theorem unlimited_resource_aborts :
  exists t msg,
    parse_resources sample_levels [("host", [("slots", plain_spec 1 2147483647)])] = Ret t /\
    pack_nodes (fun r => insertion_sort r) (fun l => l) round_order
      (mkConfig sample_levels t ∅ Original "roundrobin") round_nodes [0; 0; 0; 0]%nat = Crash msg.
Proof. eexists _, _. split; [vm_compute; reflexivity|vm_compute; reflexivity]. Qed.
