(* ===== verification/Subprocess.v ===== *)
(** [processes/TaskSubprocessQueue.{h,cpp}]: the queue that runs the tasks of
    a worker as subprocesses.  The processes, their pipes and the EventBase
    threads are the environment; the model has the map of tasks, the per-task
    state with its kill requests, the callback that runs at every poll of a
    subprocess, and the status that a finished task is given.  The name of a
    task's cgroup and the log of events are left out. *)

From stdpp Require Import base gmap strings list.
From Stdlib Require Import ZArith Lia Ascii.
From S2P Require Import Prelude Thrift Dynamic Backoff TaskStatus.

(** ** Data *)

(** [cpp2::KillMethod]; a number that is no method is [BadMethod]. *)
Inductive KillMethod := TERM_WAIT_KILL | KILL | TERM | BadMethod (n : Z).

Record KillRequest := mkKillRequest { kr_method : KillMethod; killWaitMs : Z }.

Record CGroupOptions := mkCGroupOptions {
  cg_root : string;
  cg_slice : string;
  subsystems : list string;
  unitTestCreateFiles : bool;
  cg_cpuShares : Z;
  cg_memoryLimitInBytes : Z;
  killWithoutFreezer : bool
}.
#[global] Instance CGroupOptions_eq_dec : EqDecision CGroupOptions.
Proof. solve_decision. Defined.

Record TaskSubprocessOptions := mkSubprocessOptions {
  opt_pollMs : Z;
  maxLogLinesPerPollInterval : Z;
  parentDeathSignal : Z;
  processGroupLeader : bool;
  useCanaryPipe : bool;
  refreshResourcesSec : Z;
  cgroupOptions : CGroupOptions
}.

(** The defaults of the struct. *)
Definition noCGroups : CGroupOptions := mkCGroupOptions "" "" [] false 0 0 false.
Definition defaultSubprocessOptions : TaskSubprocessOptions :=
  mkSubprocessOptions 10 50 9 false true 2 noCGroups.

Definition SIGKILL : Z := 9.
Definition SIGTERM : Z := 15.

(** [pollMs]. *)
Definition pollMs (opts : TaskSubprocessOptions) : Z := Z.max 1 (opt_pollMs opts).

(** [getNumPolls].  The quotient of the two [double]s is below [2^42] and, if
    it is not an integer, at least [2^-31] away from one, so its rounding does
    not cross an integer and [std::ceil] gives the integer ceiling. *)
Definition getNumPolls (opts : TaskSubprocessOptions) : Z :=
  let poll := Z.max 1 (opt_pollMs opts) in
  (Z.max 1 (refreshResourcesSec opts) * 1000 + poll - 1) / poll.

(** [detail::TaskSubprocessState]. *)
Record TaskSubprocessState := mkTaskState {
  opts_ : TaskSubprocessOptions;
  queue_ : list KillRequest;
  killAfterTicks_ : Z;
  wasKilled_ : bool;
  numPolls_ : Z;
  rawStatus_ : string
}.
Definition newTaskState (opts : TaskSubprocessOptions) : TaskSubprocessState :=
  mkTaskState opts [] 0 false 0 "".

(** The capacity of [queue_]. *)
Definition kSignalQueueSize : nat := 10.

(** ** [TaskSubprocessState] *)

(** One turn of the loop over the kill requests: the signal to send and
    [killAfterTicks_]. *)
Definition handle_kill (opts : TaskSubprocessOptions) (s : Z * Z) (req : KillRequest)
    : outcome (Z * Z) :=
  let '(signal, after) := s in
  match kr_method req with
  | KILL => Ret (SIGKILL, 0)
  | TERM_WAIT_KILL =>
      let signal := if signal =? 0 then SIGTERM else signal in
      let ticks := Z.max (killWaitMs req) 0 / pollMs opts in
      Ret (signal, if after =? 0 then ticks else Z.min ticks after)
  | TERM => Ret (if signal =? 0 then SIGTERM else signal, after)
  | BadMethod _ => Crash "Unknown kill method"
  end.

(** [asyncSubprocessCallback] on a process with the given PID: the signal
    that it sends and to whom, if any, and whether it runs the callback that
    reports the resources of the task. *)
Definition asyncSubprocessCallback (st : TaskSubprocessState) (pid : Z)
    : outcome (TaskSubprocessState * option (Z * Z) * bool) :=
  let '(signal, after) :=
    if 0 <? killAfterTicks_ st
    then (if killAfterTicks_ st - 1 =? 0 then SIGKILL else 0, killAfterTicks_ st - 1)
    else (0, killAfterTicks_ st) in
  let* (signal, after) := foldM (handle_kill (opts_ st)) (signal, after) (queue_ st) in
  if negb (signal =? 0) then
    CHECK (1 <? pid) "pid > 1" ;;;
    Ret (mkTaskState (opts_ st) [] after true (numPolls_ st) (rawStatus_ st),
         Some (if processGroupLeader (opts_ st) then - pid else pid, signal), false)
  else if numPolls_ st - 1 <=? 0 then
    Ret (mkTaskState (opts_ st) [] after (wasKilled_ st) (getNumPolls (opts_ st)) (rawStatus_ st),
         None, true)
  else
    Ret (mkTaskState (opts_ st) [] after (wasKilled_ st) (numPolls_ st - 1) (rawStatus_ st),
         None, false).

(** [TaskSubprocessState::kill]. *)
Definition state_kill (st : TaskSubprocessState) (req : KillRequest)
    : outcome TaskSubprocessState :=
  match kr_method req with
  | BadMethod _ => Throw "Unknown kill method"
  | _ =>
      if bool_decide (length (queue_ st) < kSignalQueueSize)%nat
      then Ret (mkTaskState (opts_ st) (queue_ st ++ [req]) (killAfterTicks_ st) (wasKilled_ st)
                  (numPolls_ st) (rawStatus_ st))
      else Throw "Failed to signal task, its queue is full."
  end.

(** [s.removeSuffix("\n")]. *)
Fixpoint remove_newline (s : string) : string :=
  match s with
  | EmptyString => EmptyString
  | String c EmptyString => if bool_decide (c = "010"%char) then EmptyString else s
  | String c s' => String c (remove_newline s')
  end.

(** A line that the task writes to its status pipe. *)
Definition status_line (st : TaskSubprocessState) (s : string) : TaskSubprocessState :=
  if bool_decide (s = "") then st
  else mkTaskState (opts_ st) (queue_ st) (killAfterTicks_ st) (wasKilled_ st) (numPolls_ st)
         (remove_newline s).

(** ** [TaskSubprocessQueue] *)

(** [InvocationID]: start time, random number, job and node. *)
Definition makeInvocationID (rt : RunningTask) : Z * Z * string * string :=
  (startTime (rt_invocationID rt), rand (rt_invocationID rt), rt_job rt, rt_node rt).

(** [tasks_]. *)
Abbreviation TaskQueue := (gmap (Z * Z * string * string) TaskSubprocessState).

(** [runTask], up to handing the task to the thread pool. *)
Definition tq_runTask (tasks_ : TaskQueue) (rt : RunningTask) (opts : TaskSubprocessOptions)
    : outcome TaskQueue :=
  match tasks_ !! makeInvocationID rt with
  | Some _ => Throw "Task already running"
  | None => Ret (<[makeInvocationID rt := newTaskState opts]> tasks_)
  end.

(** [tasks_.erase], by the handler of a task that could not be started and by
    the one of a task whose process exited and whose pipes are closed. *)
Definition tq_erase (tasks_ : TaskQueue) (rt : RunningTask) : outcome TaskQueue :=
  match tasks_ !! makeInvocationID rt with
  | None => Crash "Missing task"
  | Some _ => Ret (delete (makeInvocationID rt) tasks_)
  end.

(** The status of a task that could not be started. *)
Definition failed_to_start (now : Z) (msg : string) : TaskStatus := errorBackoff_msg now msg.

(** [isRunning]. *)
Definition tq_isRunning (tasks_ : TaskQueue) (rt : RunningTask) : bool :=
  bool_decide (is_Some (tasks_ !! makeInvocationID rt)).

(** [kill]. *)
Definition tq_kill (tasks_ : TaskQueue) (rt : RunningTask) (req : KillRequest)
    : outcome TaskQueue :=
  match tasks_ !! makeInvocationID rt with
  | None => Throw "no such task is running"
  | Some st => let* st := state_kill st req in Ret (<[makeInvocationID rt := st]> tasks_)
  end.

Section Status.
Context (parseJson : string -> outcome dynamic).
Context (asInt : dynamic -> outcome Z).
Context (asString : dynamic -> outcome string).

(** [parseStatus]. *)
Definition parseStatus (now : Z) (st : TaskSubprocessState) : outcome TaskStatus :=
  if bool_decide (rawStatus_ st = "") then
    if wasKilled_ st
    then Ret (incompleteBackoff now
                (Some (DObject [(kException, DString "Task killed, no status returned")])))
    else Ret (errorBackoff_msg now "Failed to read a status")
  else fromString parseJson asInt asString now (rawStatus_ st).
End Status.

(** ** What the callback sends *)

Definition is_kill (r : KillRequest) : bool :=
  match kr_method r with KILL => true | _ => false end.
(** The requests that [TaskSubprocessState::kill] lets through. *)
Definition known (r : KillRequest) : Prop :=
  match kr_method r with BadMethod _ => False | _ => True end.
(** A soft kill that waits for at least one poll of the process. *)
Definition patient (opts : TaskSubprocessOptions) (r : KillRequest) : Prop :=
  kr_method r = TERM_WAIT_KILL -> pollMs opts <= killWaitMs r.

(** The reference: a kill request wins over all others, any other request
    terminates. *)
Definition expected_signal (due : bool) (reqs : list KillRequest) : Z :=
  if due || existsb is_kill reqs then SIGKILL
  else if bool_decide (reqs = []) then 0 else SIGTERM.

(** The reference for the scheduled kill: none, or in how many polls. *)
Definition deadline (st : TaskSubprocessState) : option Z :=
  if 0 <? killAfterTicks_ st then Some (killAfterTicks_ st) else None.
Definition wait_ticks (opts : TaskSubprocessOptions) (r : KillRequest) : Z :=
  killWaitMs r / pollMs opts.
Definition deadline_step (opts : TaskSubprocessOptions) (d : option Z) (r : KillRequest)
    : option Z :=
  match kr_method r with
  | KILL => None
  | TERM_WAIT_KILL => Some (match d with Some n => Z.min (wait_ticks opts r) n
                            | None => wait_ticks opts r end)
  | _ => d
  end.
Definition encode (d : option Z) : Z := default 0 d.
Definition positive (d : option Z) : Prop := match d with Some n => 0 < n | None => True end.

Lemma pollMs_pos opts : 0 < pollMs opts.
Proof. unfold pollMs. lia. Qed.

Lemma wait_ticks_pos opts r :
  patient opts r -> kr_method r = TERM_WAIT_KILL ->
  0 < wait_ticks opts r /\ Z.max (killWaitMs r) 0 / pollMs opts = wait_ticks opts r.
Proof.
  intros Hp Hm. specialize (Hp Hm). pose proof (pollMs_pos opts). unfold wait_ticks.
  rewrite Z.max_l by lia. split; [|done]. apply Z.div_str_pos. lia.
Qed.

(** One request, against both references. *)
Lemma handle_kill_ref opts sig d r :
  known r -> patient opts r -> positive d ->
  exists sig', handle_kill opts (sig, encode d) r = Ret (sig', encode (deadline_step opts d r)) /\
    positive (deadline_step opts d r) /\
    sig' = (if is_kill r then SIGKILL else if sig =? 0 then SIGTERM else sig).
Proof.
  intros Hk Hp Hd. unfold known, handle_kill, deadline_step, is_kill in *.
  pose proof (wait_ticks_pos opts r Hp) as Hw.
  destruct (kr_method r); [|by eexists|by eexists|done].
  destruct (Hw eq_refl) as [Hpos ->]. eexists. split; [|split; [|done]].
  - destruct d as [n|]; cbn in *; [|done].
    by rewrite (proj2 (Z.eqb_neq n 0)) by lia.
  - destruct d as [n|]; cbn in *; lia.
Qed.

Lemma drain_ref opts reqs sig d :
  Forall known reqs -> Forall (patient opts) reqs -> positive d ->
  foldM (handle_kill opts) (sig, encode d) reqs
    = Ret (if existsb is_kill reqs then SIGKILL
           else if bool_decide (reqs = []) then sig else if sig =? 0 then SIGTERM else sig,
           encode (foldl (deadline_step opts) d reqs)) /\
  positive (foldl (deadline_step opts) d reqs).
Proof.
  intros Hk Hp. revert sig d.
  induction reqs as [|r reqs IH]; intros sig d Hd; [done|].
  apply Forall_cons in Hk as [Hk Hks]. apply Forall_cons in Hp as [Hp Hps].
  destruct (handle_kill_ref opts sig d r Hk Hp Hd) as (sig' & E & Hd' & ->).
  cbn [foldM foldl existsb]. rewrite E. cbn [mbind outcome_bind].
  destruct (IH Hks Hps (if is_kill r then SIGKILL else if sig =? 0 then SIGTERM else sig) _ Hd')
    as [-> Hpos].
  split; [|exact Hpos]. f_equal. f_equal. rewrite (bool_decide_eq_false_2 (r :: reqs = [])) by done.
  destruct (is_kill r), (existsb is_kill reqs), (bool_decide (reqs = [])); try done;
    cbn; destruct (sig =? 0) eqn:Es; cbn; rewrite ?Es; done.
Qed.

Definition signal_of (sent : option (Z * Z)) : Z := default 0 (snd <$> sent).

(** The scheduled kill before the requests are read. *)
Definition tick (d : option Z) : bool * option Z :=
  match d with
  | Some n => if n =? 1 then (true, None) else (false, Some (n - 1))
  | None => (false, None)
  end.

Lemma tick_encode st : 0 <= killAfterTicks_ st ->
  (if 0 <? killAfterTicks_ st
   then (if killAfterTicks_ st - 1 =? 0 then SIGKILL else 0, killAfterTicks_ st - 1)
   else (0, killAfterTicks_ st))
  = (if (tick (deadline st)).1 then SIGKILL else 0, encode (tick (deadline st)).2) /\
  positive (tick (deadline st)).2.
Proof.
  intros Hn. unfold deadline, tick. destruct (Z.ltb_spec 0 (killAfterTicks_ st)) as [H|H].
  - destruct (Z.eqb_spec (killAfterTicks_ st - 1) 0) as [E|E].
    + rewrite (proj2 (Z.eqb_eq _ _)) by lia. cbn. by rewrite E.
    + rewrite (proj2 (Z.eqb_neq _ _)) by lia. cbn. split; [done|lia].
  - cbn. split; [|done]. f_equal. lia.
Qed.

(** A task state whose queue holds only patient known requests. *)
Record kill_ok (st : TaskSubprocessState) : Prop := {
  ok_ticks : 0 <= killAfterTicks_ st;
  ok_known : Forall known (queue_ st);
  ok_patient : Forall (patient (opts_ st)) (queue_ st)
}.

(** The callback against the references. *)
Lemma callback_ref st pid :
  kill_ok st -> 1 < pid ->
  let '(due, d) := tick (deadline st) in
  let d' := foldl (deadline_step (opts_ st)) d (queue_ st) in
  exists st' sent res, asyncSubprocessCallback st pid = Ret (st', sent, res) /\
    signal_of sent = expected_signal due (queue_ st) /\
    (forall t, fst <$> sent = Some t -> t = if processGroupLeader (opts_ st) then - pid else pid) /\
    deadline st' = d' /\ killAfterTicks_ st' = encode d' /\ positive d' /\
    queue_ st' = [] /\ opts_ st' = opts_ st /\ rawStatus_ st' = rawStatus_ st /\
    wasKilled_ st' = wasKilled_ st || negb (signal_of sent =? 0) /\
    (res = true -> sent = None).
Proof.
  intros [Hn Hk Hp] Hpid. destruct (tick_encode st Hn) as [E Hpos].
  destruct (tick (deadline st)) as [due d]. cbn [fst snd] in E, Hpos. intros d'.
  unfold asyncSubprocessCallback. rewrite E.
  destruct (drain_ref (opts_ st) (queue_ st) (if due then SIGKILL else 0) d Hk Hp Hpos)
    as [-> Hd']. fold d' in Hd' |- *. cbn [mbind outcome_bind].
  assert (Es : (if existsb is_kill (queue_ st) then SIGKILL
                else if bool_decide (queue_ st = []) then if due then SIGKILL else 0
                else if (if due then SIGKILL else 0) =? 0 then SIGTERM
                     else if due then SIGKILL else 0)
               = expected_signal due (queue_ st))
    by (unfold expected_signal; destruct due, (existsb is_kill (queue_ st)),
          (bool_decide (queue_ st = [])); done).
  rewrite Es. clear Es E.
  assert (Hdl : forall w n, deadline (mkTaskState (opts_ st) [] (encode d') w n (rawStatus_ st)) = d').
  { intros w n. unfold deadline. cbn. destruct d' as [m|]; cbn in *; [|done].
    by rewrite (proj2 (Z.ltb_lt _ _)) by lia. }
  rewrite (CHECK_true (1 <? pid)) by (by apply Z.ltb_lt). cbn [mbind outcome_bind].
  destruct (expected_signal due (queue_ st) =? 0) eqn:E0; cbn [negb].
  - apply Z.eqb_eq in E0. rewrite E0.
    destruct (numPolls_ st - 1 <=? 0); do 3 eexists; (split; [reflexivity|]);
      cbn; rewrite orb_false_r; repeat (split; [done|]); done.
  - do 3 eexists. split; [reflexivity|]. unfold signal_of; cbn. rewrite E0, orb_true_r.
    split; [done|]. split; [by intros t [= <-]|]. repeat (split; [done|]). done.
Qed.

(** ** Polls in sequence *)

(** Requests arrive between two polls; those that do not fit are refused. *)
Definition receive (st : TaskSubprocessState) (reqs : list KillRequest) : TaskSubprocessState :=
  foldl (fun st req => match state_kill st req with Ret st' => st' | _ => st end) st reqs.

(** The signals of successive polls, each after a batch of requests. *)
Fixpoint polls (st : TaskSubprocessState) (pid : Z) (batches : list (list KillRequest))
    : outcome (TaskSubprocessState * list Z) :=
  match batches with
  | [] => Ret (st, [])
  | reqs :: batches =>
      let* (st, sent, _) := asyncSubprocessCallback (receive st reqs) pid in
      let* (st, signals) := polls st pid batches in
      Ret (st, signal_of sent :: signals)
  end.

Lemma receive_ok st reqs :
  kill_ok st -> Forall (patient (opts_ st)) reqs ->
  kill_ok (receive st reqs) /\ killAfterTicks_ (receive st reqs) = killAfterTicks_ st /\
  opts_ (receive st reqs) = opts_ st.
Proof.
  revert st. induction reqs as [|r reqs IH]; intros st Hok Hp; [done|].
  apply Forall_cons in Hp as [Hr Hp]. cbn [receive foldl]. unfold receive in IH.
  assert (H : let st' := match state_kill st r with Ret st' => st' | _ => st end in
              kill_ok st' /\ killAfterTicks_ st' = killAfterTicks_ st /\ opts_ st' = opts_ st).
  { unfold state_kill. destruct (kr_method r) eqn:Em; try done; case_bool_decide; try done;
      (split; [|done]); destruct Hok as [? Hk Hq]; split; cbn; [done| | |done| | |done| |];
      apply Forall_app; (split; [done|]); apply Forall_singleton; unfold known; by rewrite ?Em. }
  cbn in H. destruct H as (Hok' & Ht & Ho).
  destruct (IH _ Hok') as (? & -> & ->); [by rewrite Ho|done].
Qed.

Lemma callback_kill_ok st pid st' sent res :
  kill_ok st -> 1 < pid -> asyncSubprocessCallback st pid = Ret (st', sent, res) ->
  kill_ok st' /\ opts_ st' = opts_ st.
Proof.
  intros Hok Hpid E. pose proof (callback_ref st pid Hok Hpid) as H.
  destruct (tick (deadline st)) as [due d].
  destruct H as (? & ? & ? & E' & _ & _ & _ & Hk & Hpos & Hq & Ho & _). rewrite E in E'.
  injection E' as <- <- <-. split; [|done]. split; rewrite ?Hk, ?Hq; [|done|done].
  destruct (foldl _ _ _); cbn in *; lia.
Qed.

(** Without a kill request the scheduled kill only moves closer. *)
Lemma deadline_closer opts reqs n :
  existsb is_kill reqs = false ->
  exists m, foldl (deadline_step opts) (Some n) reqs = Some m /\ m <= n.
Proof.
  revert n. induction reqs as [|r reqs IH]; intros n Hk; cbn [foldl]; [by exists n|].
  cbn in Hk. apply orb_false_iff in Hk as [Hr Hk].
  unfold deadline_step at 2. unfold is_kill in Hr.
  destruct (kr_method r); [|done|by apply IH|by apply IH].
  destruct (IH (Z.min (wait_ticks opts r) n) Hk) as (m & -> & Hm). exists m. split; [done|lia].
Qed.

Lemma deadline_ticks st n : deadline st = Some n -> killAfterTicks_ st = n /\ 0 < n.
Proof. unfold deadline. destruct (Z.ltb_spec 0 (killAfterTicks_ st)); [|done]. by intros [= <-]. Qed.

Lemma deadline_same st st' :
  killAfterTicks_ st' = killAfterTicks_ st -> deadline st' = deadline st.
Proof. intros E. unfold deadline. by rewrite E. Qed.

Lemma polls_total st pid batches :
  kill_ok st -> 1 < pid -> Forall (Forall (patient (opts_ st))) batches ->
  exists st' signals, polls st pid batches = Ret (st', signals) /\ length signals = length batches.
Proof.
  revert st. induction batches as [|b bs IH]; intros st Hok Hpid Hb; [by do 2 eexists|].
  apply Forall_cons in Hb as [Hb Hbs]. cbn [polls].
  destruct (receive_ok st b Hok Hb) as (Hok' & _ & Ho).
  pose proof (callback_ref _ pid Hok' Hpid) as H. destruct (tick _) as [due d].
  destruct H as (st1 & sent & res & E & _). rewrite E. cbn [mbind outcome_bind].
  destruct (callback_kill_ok _ _ _ _ _ Hok' Hpid E) as [Hok1 Ho1].
  destruct (IH st1 Hok1 Hpid) as (st' & sigs & -> & Hl); [by rewrite Ho1, Ho|].
  do 2 eexists. split; [done|]. cbn. by rewrite Hl.
Qed.

(** C25: A scheduled kill fires in time: once a [SIGKILL] is scheduled in [n]
    polls of the process, it is sent in one of the next [n] polls, whatever
    other requests arrive, as long as every soft kill among them waits for at
    least one poll ("with multiple requests, the earlier KILL wins"). *)
Theorem kill_deadline_met st pid batches n :
  kill_ok st -> 1 < pid -> Forall (Forall (patient (opts_ st))) batches ->
  deadline st = Some n -> n <= Z.of_nat (length batches) ->
  exists st' signals, polls st pid batches = Ret (st', signals) /\
    SIGKILL ∈ take (Z.to_nat n) signals.
Proof.
  revert st n. induction batches as [|b bs IH]; intros st n Hok Hpid Hb Hd Hn;
    destruct (deadline_ticks _ _ Hd) as [_ Hpos]; [cbn in Hn; lia|].
  apply Forall_cons in Hb as [Hb Hbs]. cbn [polls].
  destruct (receive_ok st b Hok Hb) as (Hok' & Ht & Ho).
  pose proof (callback_ref _ pid Hok' Hpid) as H.
  rewrite (deadline_same st), Hd in H by done. cbn [tick] in H.
  replace (Z.to_nat n) with (S (Z.to_nat (n - 1))) by lia.
  destruct (decide (n = 1 \/ existsb is_kill (queue_ (receive st b)) = true)) as [Hnow|Hlater].
  - assert (Hsig : exists st1 sent res, asyncSubprocessCallback (receive st b) pid = Ret (st1, sent, res)
                   /\ signal_of sent = SIGKILL).
    { destruct (n =? 1) eqn:E1; destruct H as (st1 & sent & res & E & Hs & _); do 3 eexists;
        (split; [exact E|]); rewrite Hs; unfold expected_signal; cbn; [done|].
      apply Z.eqb_neq in E1. destruct Hnow as [? | Hx]; [lia|by rewrite Hx]. }
    destruct Hsig as (st1 & sent & res & E & Hs). rewrite E. cbn [mbind outcome_bind].
    destruct (callback_kill_ok _ _ _ _ _ Hok' Hpid E) as [Hok1 Ho1].
    destruct (polls_total st1 pid bs Hok1 Hpid) as (st' & sigs & -> & _); [by rewrite Ho1, Ho|].
    do 2 eexists. split; [done|]. rewrite Hs. by left.
  - apply Decidable.not_or in Hlater as [Hne Hnk]. apply not_true_is_false in Hnk.
    rewrite (proj2 (Z.eqb_neq n 1) Hne) in H. destruct H as (st1 & sent & res & E & _ & _ & Hd1 & _).
    rewrite E. cbn [mbind outcome_bind].
    destruct (callback_kill_ok _ _ _ _ _ Hok' Hpid E) as [Hok1 Ho1].
    destruct (deadline_closer (opts_ (receive st b)) _ (n - 1) Hnk) as (m & Em & Hm).
    rewrite Em in Hd1. destruct (deadline_ticks _ _ Hd1) as [_ Hm0].
    destruct (IH st1 m Hok1 Hpid) as (st' & sigs & -> & Hin);
      [by rewrite Ho1, Ho|done|cbn in Hn; lia|].
    do 2 eexists. split; [done|]. cbn [take]. right.
    apply list_elem_of_lookup in Hin as [i Hi]. apply lookup_take_Some in Hi as [Hi Hlt].
    apply list_elem_of_lookup. exists i. apply lookup_take_Some. split; [done|lia].
Qed.

Lemma kill_deadline_met_witness :
  exists st' signals,
    polls (mkTaskState defaultSubprocessOptions [] 3 true 5 "") 77
      [[mkKillRequest TERM 0]; [mkKillRequest TERM_WAIT_KILL 50]; []] = Ret (st', signals) /\
    SIGKILL ∈ take 3 signals.
Proof.
  apply (kill_deadline_met (mkTaskState defaultSubprocessOptions [] 3 true 5 "") 77 _ 3).
  - split; cbn; [lia|constructor|constructor].
  - lia.
  - repeat constructor; unfold patient; cbn; (done || lia).
  - reflexivity.
  - cbn; lia.
Defined.

Lemma polls_cons st pid reqs batches :
  polls st pid (reqs :: batches)
  = let* (st, sent, _) := asyncSubprocessCallback (receive st reqs) pid in
    let* (st, signals) := polls st pid batches in Ret (st, signal_of sent :: signals).
Proof. done. Qed.

(** A scheduled kill counts down in silence if no request arrives. *)
Lemma quiet_countdown m st pid :
  kill_ok st -> 1 < pid -> queue_ st = [] -> deadline st = Some (Z.of_nat (S m)) ->
  exists st', polls st pid (replicate (S m) []) = Ret (st', replicate m 0 ++ [SIGKILL]) /\
    deadline st' = None /\ wasKilled_ st' = true.
Proof.
  revert st. induction m as [|m IH]; intros st Hok Hpid Hq Hd;
    rewrite replicate_S, polls_cons; change (receive st []) with st;
    pose proof (callback_ref st pid Hok Hpid) as H; rewrite Hd, Hq in H; cbn [tick] in H.
  - rewrite (proj2 (Z.eqb_eq _ _)) in H by lia.
    destruct H as (st' & sent & res & -> & Hs & _ & Hd' & _ & _ & _ & _ & _ & Hw & _).
    cbn. rewrite Hs. eexists. split; [done|]. rewrite Hs in Hw. split; [done|].
    rewrite Hw. apply orb_true_r.
  - rewrite (proj2 (Z.eqb_neq _ _)) in H by lia.
    destruct H as (st1 & sent & res & E & Hs & _ & Hd' & _ & _ & Hq' & _).
    destruct (callback_kill_ok _ _ _ _ _ Hok Hpid E) as [Hok1 _].
    destruct (IH st1 Hok1 Hpid Hq') as (st' & Ep & Hst'); [rewrite Hd'; cbn; f_equal; lia|].
    rewrite E. cbn [mbind outcome_bind]. rewrite Ep. cbn. rewrite Hs.
    eexists. split; [done|exact Hst'].
Qed.

(** A soft kill of a task that got no other request sends [SIGTERM] at
    the next poll and [SIGKILL] exactly [killWaitMs / pollMs] polls later,
    with no signal in between, and leaves the task marked as killed with no
    kill scheduled -- if the wait is at least the interval of the polls. *)
Theorem soft_kill_schedule st pid wait :
  killAfterTicks_ st = 0 -> queue_ st = [] -> pollMs (opts_ st) <= wait -> 1 < pid ->
  let ticks := Z.to_nat (wait / pollMs (opts_ st)) in
  (0 < ticks)%nat /\
  exists st',
    polls st pid ([mkKillRequest TERM_WAIT_KILL wait] :: replicate ticks [])
      = Ret (st', SIGTERM :: replicate (ticks - 1) 0 ++ [SIGKILL]) /\
    deadline st' = None /\ wasKilled_ st' = true.
Proof.
  intros Ht Hq Hw Hpid ticks. pose proof (pollMs_pos (opts_ st)) as Hp.
  assert (Hpos : 0 < wait / pollMs (opts_ st)) by (apply Z.div_str_pos; lia).
  split; [lia|].
  assert (Hok : kill_ok st) by (split; rewrite ?Ht, ?Hq; (done || lia || constructor)).
  set (req := mkKillRequest TERM_WAIT_KILL wait).
  assert (Hpat : Forall (patient (opts_ st)) [req]) by (apply Forall_singleton; intros _; exact Hw).
  destruct (receive_ok st [req] Hok Hpat) as (Hok' & Ht' & Ho').
  assert (Hq' : queue_ (receive st [req]) = [req])
    by (cbn; unfold state_kill; cbn; rewrite Hq; done).
  cbn [polls]. pose proof (callback_ref _ pid Hok' Hpid) as H.
  assert (Hd : deadline (receive st [req]) = None)
    by (unfold deadline; by rewrite Ht', Ht).
  rewrite Hd, Hq', Ho' in H. cbn [tick] in H.
  destruct H as (st1 & sent & res & E & Hs & _ & Hd1 & _ & _ & Hq1 & _).
  destruct (callback_kill_ok _ _ _ _ _ Hok' Hpid E) as [Hok1 _].
  rewrite E. cbn [mbind outcome_bind].
  destruct (quiet_countdown (ticks - 1) st1 pid Hok1 Hpid Hq1) as (st' & Ep & Hst').
  { rewrite Hd1. cbn. unfold wait_ticks. cbn. f_equal. lia. }
  replace (S (ticks - 1)) with ticks in Ep by lia. rewrite Ep. cbn [mbind outcome_bind].
  rewrite Hs. by exists st'.
Qed.

Lemma soft_kill_schedule_witness :
  exists st', polls (newTaskState defaultSubprocessOptions) 77
      ([mkKillRequest TERM_WAIT_KILL 35] :: replicate 3 [])
    = Ret (st', [SIGTERM; 0; 0; SIGKILL]) /\ deadline st' = None /\ wasKilled_ st' = true.
Proof.
  apply (soft_kill_schedule (newTaskState defaultSubprocessOptions) 77 35);
    [done|done|by vm_compute|lia].
Defined.

Lemma quiet_polls k st pid :
  kill_ok st -> 1 < pid -> queue_ st = [] -> deadline st = None ->
  exists st', polls st pid (replicate k []) = Ret (st', replicate k 0).
Proof.
  revert st. induction k as [|k IH]; intros st Hok Hpid Hq Hd; cbn; [by eexists|].
  pose proof (callback_ref st pid Hok Hpid) as H. rewrite Hd, Hq in H. cbn [tick] in H.
  destruct H as (st1 & sent & res & E & Hs & _ & Hd1 & _ & _ & Hq1 & _).
  destruct (callback_kill_ok _ _ _ _ _ Hok Hpid E) as [Hok1 _].
  rewrite E. cbn. destruct (IH st1 Hok1 Hpid Hq1 Hd1) as (st' & ->). cbn. rewrite Hs. by eexists.
Qed.

(** A soft kill whose wait is shorter than the interval of the polls --
    zero or negative, for instance, which the interface documents as "send
    SIGKILL immediately" -- is only a [SIGTERM]: no [SIGKILL] ever follows, and
    one that was already scheduled is cancelled. *)
Theorem short_wait_never_kills st pid wait k :
  0 <= killAfterTicks_ st -> killAfterTicks_ st <> 1 -> queue_ st = [] ->
  wait < pollMs (opts_ st) -> 1 < pid ->
  exists st', polls st pid ([mkKillRequest TERM_WAIT_KILL wait] :: replicate k [])
    = Ret (st', SIGTERM :: replicate k 0).
Proof.
  intros Ht H1 Hq Hw Hpid. pose proof (pollMs_pos (opts_ st)) as Hp.
  set (req := mkKillRequest TERM_WAIT_KILL wait).
  assert (Er : receive st [req] = mkTaskState (opts_ st) [req] (killAfterTicks_ st) (wasKilled_ st)
                 (numPolls_ st) (rawStatus_ st)).
  { cbn. unfold state_kill. cbn. by rewrite Hq. }
  assert (Hz : Z.max wait 0 / pollMs (opts_ st) = 0) by (apply Z.div_small; lia).
  cbn [polls]. rewrite Er.
  assert (E : asyncSubprocessCallback (mkTaskState (opts_ st) [req] (killAfterTicks_ st)
      (wasKilled_ st) (numPolls_ st) (rawStatus_ st)) pid
    = Ret (mkTaskState (opts_ st) [] 0 true (numPolls_ st) (rawStatus_ st),
           Some (if processGroupLeader (opts_ st) then - pid else pid, SIGTERM), false)).
  { unfold asyncSubprocessCallback. cbn [killAfterTicks_ queue_ opts_ numPolls_ rawStatus_ wasKilled_].
    destruct (Z.ltb_spec 0 (killAfterTicks_ st)) as [Hpos|Hz0].
    - rewrite (proj2 (Z.eqb_neq (killAfterTicks_ st - 1) 0)) by lia.
      cbn [foldM handle_kill req kr_method killWaitMs]. rewrite Hz.
      rewrite (proj2 (Z.eqb_neq (killAfterTicks_ st - 1) 0)) by lia. rewrite Z.min_l by lia.
      cbn. by rewrite (CHECK_true (1 <? pid)) by (by apply Z.ltb_lt).
    - cbn [foldM handle_kill req kr_method killWaitMs]. rewrite Hz.
      replace (killAfterTicks_ st) with 0 by lia.
      cbn. by rewrite (CHECK_true (1 <? pid)) by (by apply Z.ltb_lt). }
  rewrite E. cbn [mbind outcome_bind].
  destruct (quiet_polls k (mkTaskState (opts_ st) [] 0 true (numPolls_ st) (rawStatus_ st)) pid)
    as (st' & ->); [split; cbn; (done || lia || constructor)|done|done|done|].
  by exists st'.
Qed.

Lemma short_wait_never_kills_witness :
  exists st', polls (mkTaskState defaultSubprocessOptions [] 2 true 5 "") 77
      ([mkKillRequest TERM_WAIT_KILL 0] :: replicate 100 [])
    = Ret (st', SIGTERM :: replicate 100 0).
Proof.
  apply (short_wait_never_kills (mkTaskState defaultSubprocessOptions [] 2 true 5 "") 77 0 100);
    by vm_compute.
Defined.
