(* ===== verification/Worker.v ===== *)
(** [worker/BistroWorkerHandler.{h,cpp}]: a worker, which runs the tasks of one
    scheduler.  The members under their locks are one record; every piece of
    code that holds a lock is a definition, and a call that releases a lock
    between two pieces is two definitions, so that other calls can run in
    between (see [WorkerTasks] and [WorkerProtocol]).

    The Thrift server and clients, the background threads and the log of state
    transitions are left out: a call to the scheduler is a value, and its reply
    or error is the argument of the code that handles it.  The monitor of the
    physical resources is represented by the cgroup options it was given.
    The exceptions are [BistroWorkerException]s unless said otherwise. *)

From stdpp Require Import base gmap strings list.
From Stdlib Require Import ZArith Lia.
From S2P Require Import Prelude Thrift WorkerSet Dynamic Backoff TaskStatus.
From S2P Require Import WorkerState RemoteWorker Subprocess Runner.

(** ** State *)

(** [cpp2::SchedulerHeartbeatResponse] with the ID of the scheduler. *)
Record SchedulerState := mkSchedulerState {
  ss_id : BistroInstanceID;
  ss_response : SchedulerHeartbeatResponse
}.

(** A default-constructed [WorkerSetID]. *)
Definition noWorkerSet : WorkerSetID := mkWorkerSetID (mkInstanceID 0 0) 0 emptyWorkerSetHash.
Definition ss_workerSetID (s : SchedulerState) : WorkerSetID :=
  default noWorkerSet (hr_workerSetID (ss_response s)).

(** [NotifyData]. *)
Record NotifyData := mkNotifyData { nd_taskID : string * string; nd_status : TaskStatus }.

Record BistroWorkerHandler := mkHandler {
  wh_worker : BistroWorker;
  wh_state : RemoteWorkerState;
  schedulerState_ : SchedulerState;
  wh_runningTasks : gmap (string * string) RunningTask;
  taskQueue_ : TaskQueue;
  notifyFinishedQueue_ : list NotifyData;
  notifyNotRunningQueue_ : list RunningTask;
  committingSuicide_ : bool;
  gotNewSchedulerInstance_ : bool;
  wh_cgroupOpts : option CGroupOptions  (* None: no monitor yet *)
}.

(** Assignments to the members. *)
Definition set_wh_state (h : BistroWorkerHandler) (st : RemoteWorkerState) : BistroWorkerHandler :=
  mkHandler (wh_worker h) st (schedulerState_ h) (wh_runningTasks h) (taskQueue_ h)
    (notifyFinishedQueue_ h) (notifyNotRunningQueue_ h) (committingSuicide_ h)
    (gotNewSchedulerInstance_ h) (wh_cgroupOpts h).
Definition set_wh_running (h : BistroWorkerHandler) (m : gmap (string * string) RunningTask)
    : BistroWorkerHandler :=
  mkHandler (wh_worker h) (wh_state h) (schedulerState_ h) m (taskQueue_ h)
    (notifyFinishedQueue_ h) (notifyNotRunningQueue_ h) (committingSuicide_ h)
    (gotNewSchedulerInstance_ h) (wh_cgroupOpts h).
Definition set_wh_tasks (h : BistroWorkerHandler) (q : TaskQueue) : BistroWorkerHandler :=
  mkHandler (wh_worker h) (wh_state h) (schedulerState_ h) (wh_runningTasks h) q
    (notifyFinishedQueue_ h) (notifyNotRunningQueue_ h) (committingSuicide_ h)
    (gotNewSchedulerInstance_ h) (wh_cgroupOpts h).
Definition set_wh_queues (h : BistroWorkerHandler) (fin : list NotifyData) (nr : list RunningTask)
    : BistroWorkerHandler :=
  mkHandler (wh_worker h) (wh_state h) (schedulerState_ h) (wh_runningTasks h) (taskQueue_ h)
    fin nr (committingSuicide_ h) (gotNewSchedulerInstance_ h) (wh_cgroupOpts h).
Definition set_suicide (h : BistroWorkerHandler) : BistroWorkerHandler :=
  mkHandler (wh_worker h) (wh_state h) (schedulerState_ h) (wh_runningTasks h) (taskQueue_ h)
    (notifyFinishedQueue_ h) (notifyNotRunningQueue_ h) true
    (gotNewSchedulerInstance_ h) (wh_cgroupOpts h).
Definition set_cgroups (h : BistroWorkerHandler) (o : CGroupOptions) : BistroWorkerHandler :=
  mkHandler (wh_worker h) (wh_state h) (schedulerState_ h) (wh_runningTasks h) (taskQueue_ h)
    (notifyFinishedQueue_ h) (notifyNotRunningQueue_ h) (committingSuicide_ h)
    (gotNewSchedulerInstance_ h) (Some o).

(** The worker that [makeWorker] describes: it starts at time [now] with the
    random number [rnd]. *)
Definition wh_makeWorker (FLAGS_shard_id host : string) (addr : ServiceAddress)
    (locked_port heartbeat_period_sec now rnd : Z) : BistroWorker :=
  mkBistroWorker (if bool_decide (FLAGS_shard_id = "") then host else FLAGS_shard_id)
    (mkMachinePortLock host locked_port) addr (mkInstanceID now rnd) heartbeat_period_sec
    kProtocolVersion noUsableResources.

(** [BistroWorkerHandler::BistroWorkerHandler]. *)
Definition newHandler (worker : BistroWorker) : BistroWorkerHandler :=
  mkHandler worker (newWorkerState (startTime (bw_id worker)))
    (mkSchedulerState (mkInstanceID 0 0)
       (mkHeartbeatResponse 0 0 INT32_MAX 0 (State_to_int NEW) 0 None))
    ∅ ∅ [] [] false true None.

(** ** Calls from the scheduler *)

Definition throwIfSuicidal (h : BistroWorkerHandler) : outcome unit :=
  require (negb (committingSuicide_ h)) "Worker is committing suicide".

Definition throwOnInstanceIDMismatch (h : BistroWorkerHandler)
    (scheduler worker : BistroInstanceID) : outcome unit :=
  require (bool_decide (scheduler = ss_id (schedulerState_ h))
           && bool_decide (worker = bw_id (wh_worker h)))
    "Worker with associated scheduler ignored a call".

Definition isHealthcheck (rt : RunningTask) : bool :=
  bool_decide (rt_job rt = kHealthcheckTaskJob).

(** [getRunningTasks]. *)
Definition getRunningTasks (h : BistroWorkerHandler) (worker : BistroInstanceID)
    : outcome (list RunningTask) :=
  throwIfSuicidal h ;;;
  require (bool_decide (worker = bw_id (wh_worker h))) "Worker ignored getRunningTasks" ;;;
  Ret (List.filter (fun rt => negb (isHealthcheck rt)) (map snd (map_to_list (wh_runningTasks h)))).

(** [runTask], what it checks before it takes a lock. *)
Definition runTask_checks (h : BistroWorkerHandler) (rt : RunningTask)
    (scheduler worker : BistroInstanceID) : outcome unit :=
  throwIfSuicidal h ;;;
  require (bool_decide (state_ (wh_state h) = HEALTHY) || isHealthcheck rt)
    "Unhealthy, not running task" ;;;
  if isHealthcheck rt && bool_decide (worker = bw_id (wh_worker h))
     && bool_decide (rt_node rt = kHealthcheckTaskNewWorkerNode)
     && negb (bool_decide (scheduler = ss_id (schedulerState_ h)))
  then Ret tt
  else throwOnInstanceIDMismatch h scheduler worker.

(** [runTask], the options of a healthcheck. *)
Definition runTask_cgroups (h : BistroWorkerHandler) (rt : RunningTask)
    (opts : TaskSubprocessOptions) : BistroWorkerHandler :=
  if isHealthcheck rt then
    match wh_cgroupOpts h with
    | None => set_cgroups h (cgroupOptions opts)
    | Some o => if bool_decide (cgroupOptions opts = o) then h
                else set_cgroups h (cgroupOptions opts)
    end
  else h.

(** [runTask], under the locks of [state_] and [runningTasks_]. *)
Definition runTask_mark (h : BistroWorkerHandler) (rt : RunningTask)
    (notify_if_tasks_not_running_sequence_num : Z) : outcome BistroWorkerHandler :=
  if negb (isHealthcheck rt)
     && (notify_if_tasks_not_running_sequence_num
         <? notifyIfTasksNotRunningSequenceNum_ (wh_state h))
  then Throw "Not running task since its sequence number is old"
  else
    match wh_runningTasks h !! task_id_of rt with
    | None => Ret (set_wh_running h (<[task_id_of rt := rt]> (wh_runningTasks h)))
    | Some old =>
        if isHealthcheck rt then Throw "Another healtcheck is already running."
        else
          CHECK (negb (bool_decide (rt_invocationID old = rt_invocationID rt)))
            "RunningTask was runTask'd more than once" ;;;
          Throw "Tried to runTask when another invocation of this task is running"
    end.

(** [runTask], the call of [taskQueue_.runTask], which throws a
    [BistroException].  The CHECKs of [makeCGroupName] in there, which need a
    start time whose year is no [int], are left out: the start time is the
    scheduler's clock. *)
Definition runTask_start (h : BistroWorkerHandler) (rt : RunningTask)
    (opts : TaskSubprocessOptions) : outcome BistroWorkerHandler :=
  let* q := tq_runTask (taskQueue_ h) rt opts in Ret (set_wh_tasks h q).

(** [runTask] without interruption.  What was done before an exception stays
    done: a task that is marked as running remains so if the queue throws. *)
Definition and_then {A} (h : BistroWorkerHandler) (m : outcome A)
    (k : A -> BistroWorkerHandler * outcome unit) : BistroWorkerHandler * outcome unit :=
  match m with
  | Ret a => k a
  | Throw e => (h, Throw e)
  | Crash e => (h, Crash e)
  | Undef e => (h, Undef e)
  end.
Definition wh_runTask (h : BistroWorkerHandler) (rt : RunningTask)
    (scheduler worker : BistroInstanceID) (sequence_num : Z) (opts : TaskSubprocessOptions)
    : BistroWorkerHandler * outcome unit :=
  and_then h (runTask_checks h rt scheduler worker) (fun _ =>
  let h := runTask_cgroups h rt opts in
  and_then h (runTask_mark h rt sequence_num) (fun h =>
  and_then h (runTask_start h rt opts) (fun h => (h, Ret tt)))).

(** The two callbacks of [runTask]: the task is done with some status; its
    physical resources were measured. *)
Definition status_cob (h : BistroWorkerHandler) (rt : RunningTask) (status : TaskStatus)
    : BistroWorkerHandler :=
  set_wh_queues h (notifyFinishedQueue_ h ++ [mkNotifyData (task_id_of rt) status])
    (notifyNotRunningQueue_ h).
Definition resource_cob (h : BistroWorkerHandler) (rt : RunningTask) : outcome unit :=
  CHECK (bool_decide (is_Some (wh_runningTasks h !! task_id_of rt))) "Bad task".

(** [state_.notifyIfTasksNotRunningSequenceNum_ = n]. *)
Definition set_sequence_num (st : RemoteWorkerState) (n : Z) : RemoteWorkerState :=
  mkWorkerState (state_ st) (timeBecameUnhealthy_ st) (timeLastGoodHealthcheckSent_ st)
    (timeLastHeartbeatReceived_ st) (hasBeenHealthy_ st) n.

(** [notifyIfTasksNotRunning], under the locks: the tasks that are not
    running. *)
Definition notify_locked (h : BistroWorkerHandler) (rts : list RunningTask) (sequence_num : Z)
    : outcome (BistroWorkerHandler * list RunningTask) :=
  if sequence_num <=? notifyIfTasksNotRunningSequenceNum_ (wh_state h)
  then Throw "Got out-of-order notifyIfTasksNotRunning"
  else
    let h := set_wh_state h (set_sequence_num (wh_state h) sequence_num) in
    Ret (h, List.filter (fun rt => bool_decide (wh_runningTasks h !! task_id_of rt = None)) rts).

(** [notifyIfTasksNotRunning]. *)
Definition notifyIfTasksNotRunning (h : BistroWorkerHandler) (rts : list RunningTask)
    (scheduler worker : BistroInstanceID) (sequence_num : Z) : outcome BistroWorkerHandler :=
  throwOnInstanceIDMismatch h scheduler worker ;;;
  let* (h, not_running_tasks) := notify_locked h rts sequence_num in
  Ret (set_wh_queues h (notifyFinishedQueue_ h) (notifyNotRunningQueue_ h ++ not_running_tasks)).

(** [requestSuicide]; [killTasksAndStop] is handed to the event base. *)
Definition wh_requestSuicide (h : BistroWorkerHandler) (scheduler worker : BistroInstanceID)
    : outcome BistroWorkerHandler :=
  throwIfSuicidal h ;;;
  throwOnInstanceIDMismatch h scheduler worker ;;;
  Ret (set_suicide h).

(** [killTask]; [taskQueue_.kill] throws other exceptions. *)
Definition wh_killTask (h : BistroWorkerHandler) (rt : RunningTask)
    (scheduler worker : BistroInstanceID) (req : KillRequest) : outcome BistroWorkerHandler :=
  throwIfSuicidal h ;;;
  throwOnInstanceIDMismatch h scheduler worker ;;;
  let* q := tq_kill (taskQueue_ h) rt req in Ret (set_wh_tasks h q).

(** [killTasksAndStop], one turn of its loop: the number of running tasks. *)
Definition kill_one (s : TaskQueue * nat) (rt : RunningTask) : TaskQueue * nat :=
  let '(q, num_running_tasks) := s in
  let req := mkKillRequest TERM_WAIT_KILL (rt_workerSuicideTaskKillWaitMs rt) in
  (match tq_kill q rt req with Ret q' => q' | _ => q end,
   if tq_isRunning q rt then S num_running_tasks else num_running_tasks).
Definition kill_round (h : BistroWorkerHandler) : BistroWorkerHandler * nat :=
  let '(q, n) := foldl kill_one (taskQueue_ h, 0%nat) (map snd (map_to_list (wh_runningTasks h))) in
  (set_wh_tasks h q, n).

(** ** Background threads *)

(** A call of [updateStatus] on the scheduler; the status is sent as the
    JSON of [toDynamicNoTime]. *)
Record StatusUpdate := mkStatusUpdate {
  su_task : RunningTask;
  su_status : TaskStatus;
  su_scheduler : BistroInstanceID;
  su_worker : BistroInstanceID
}.

(** [notifyFinished]: the next status to send, [None] if the queue is
    empty. *)
Definition notifyFinished_read (h : BistroWorkerHandler)
    : outcome (option (BistroWorkerHandler * NotifyData * StatusUpdate)) :=
  match notifyFinishedQueue_ h with
  | [] => Ret None
  | nd :: queue =>
      match wh_runningTasks h !! nd_taskID nd with
      | None => Crash "Lost track of a task"
      | Some rt =>
          Ret (Some (set_wh_queues h queue (notifyNotRunningQueue_ h), nd,
                     mkStatusUpdate rt (nd_status nd) (ss_id (schedulerState_ h))
                       (bw_id (wh_worker h))))
      end
  end.

(** [state_->timeLastGoodHealthcheckSent_ = t]. *)
Definition set_good_time (st : RemoteWorkerState) (t : Z) : RemoteWorkerState :=
  mkWorkerState (state_ st) (timeBecameUnhealthy_ st) t (timeLastHeartbeatReceived_ st)
    (hasBeenHealthy_ st) (notifyIfTasksNotRunningSequenceNum_ st).

(** The scheduler acknowledged the status; it did not. *)
Definition notifyFinished_ok (h : BistroWorkerHandler) (nd : NotifyData) (rt : RunningTask)
    : outcome BistroWorkerHandler :=
  CHECK (bool_decide (is_Some (wh_runningTasks h !! nd_taskID nd))) "Already removed" ;;;
  let h := set_wh_running h (delete (nd_taskID nd) (wh_runningTasks h)) in
  Ret (if isHealthcheck rt && isDone (nd_status nd)
       then set_wh_state h (set_good_time (wh_state h) (startTime (rt_invocationID rt)))
       else h).
Definition notifyFinished_error (h : BistroWorkerHandler) (nd : NotifyData) : BistroWorkerHandler :=
  set_wh_queues h (notifyFinishedQueue_ h ++ [nd]) (notifyNotRunningQueue_ h).

(** [notifyNotRunning]: the next task to report; the report failed. *)
Definition notifyNotRunning_read (h : BistroWorkerHandler) (now : Z)
    : option (BistroWorkerHandler * StatusUpdate) :=
  match notifyNotRunningQueue_ h with
  | [] => None
  | rt :: queue =>
      Some (set_wh_queues h (notifyFinishedQueue_ h) queue,
            mkStatusUpdate rt (wasNotRunning now) (ss_id (schedulerState_ h)) (bw_id (wh_worker h)))
  end.
Definition notifyNotRunning_error (h : BistroWorkerHandler) (rt : RunningTask)
    : BistroWorkerHandler :=
  set_wh_queues h (notifyFinishedQueue_ h) (notifyNotRunningQueue_ h ++ [rt]).

(** [setState]. *)
Definition wh_setState (st : RemoteWorkerState) (new_state : State) (cur_time : Z)
    : RemoteWorkerState :=
  mkWorkerState new_state
    (if negb (bool_decide (new_state = HEALTHY)) && bool_decide (state_ st = HEALTHY)
     then cur_time else timeBecameUnhealthy_ st)
    (timeLastGoodHealthcheckSent_ st) (timeLastHeartbeatReceived_ st)
    (hasBeenHealthy_ st || bool_decide (new_state = HEALTHY))
    (notifyIfTasksNotRunningSequenceNum_ st).

(** [heartbeat], what it sends; the monitor's data replace the resources. *)
Definition heartbeat_request (h : BistroWorkerHandler) (usable : option UsablePhysicalResources)
    : option (BistroWorker * WorkerSetID) :=
  if committingSuicide_ h then None
  else
    let w := wh_worker h in
    let resources :=
      match wh_cgroupOpts h, usable with
      | Some _, Some u => u
      | _, _ => bw_usableResources w
      end in
    Some (mkBistroWorker (bw_shard w) (bw_machineLock w) (bw_addr w) (bw_id w)
            (bw_heartbeatPeriodSec w) (bw_protocolVersion w) resources,
          ss_workerSetID (schedulerState_ h)).

(** The conversion of [res.workerState()] to a [RemoteWorkerState::State]; the
    scheduler sends nothing but the four states. *)
Definition State_of_int (z : Z) : outcome State :=
  if z =? 0 then Ret NEW else if z =? 1 then Ret HEALTHY
  else if z =? 2 then Ret UNHEALTHY else if z =? 3 then Ret MUST_DIE
  else Undef "not a State".

(** [state_.timeLastHeartbeatReceived_ = t]. *)
Definition set_beat_time (st : RemoteWorkerState) (t : Z) : RemoteWorkerState :=
  mkWorkerState (state_ st) (timeBecameUnhealthy_ st) (timeLastGoodHealthcheckSent_ st) t
    (hasBeenHealthy_ st) (notifyIfTasksNotRunningSequenceNum_ st).

(** [res.workerSetID() = set]. *)
Definition with_set (res : SchedulerState) (set : WorkerSetID) : SchedulerState :=
  let r := ss_response res in
  mkSchedulerState (ss_id res)
    (mkHeartbeatResponse (hr_maxHealthcheckGap r) (hr_heartbeatGracePeriod r)
       (hr_loseUnhealthyWorkerAfter r) (hr_workerCheckInterval r) (hr_workerState r)
       (hr_protocolVersion r) (Some set)).

(** [heartbeat], what it does with the response [res], given the copy of
    [schedulerState_] that it made before it sent the request.  An exception is
    logged and changes nothing. *)
Definition heartbeat_response (h : BistroWorkerHandler) (scheduler_state res : SchedulerState)
    (cur_time : Z) : outcome BistroWorkerHandler :=
  enforceWorkerSchedulerProtocolVersion (bw_protocolVersion (wh_worker h))
    (hr_protocolVersion (ss_response res)) ;;;
  CHECK (bool_decide (ws_schedulerID (ss_workerSetID res) = ss_id res))
    "workerSetID()->schedulerID() == id()" ;;;
  let got_new := negb (bool_decide (ss_id scheduler_state = ss_id res)) in
  let st := if got_new then newWorkerState cur_time else wh_state h in
  let st := set_beat_time st cur_time in
  let* new_state := State_of_int (hr_workerState (ss_response res)) in
  let st := wh_setState st new_state cur_time in
  let* older :=
    if got_new then Ret false
    else WorkerSetIDEarlierThan (ws_version (ss_workerSetID res))
           (ws_version (ss_workerSetID scheduler_state)) in
  let* res :=
    if (older : bool) then
      CHECK (bool_decide (ws_schedulerID (ss_workerSetID scheduler_state) = ss_id res))
        "workerSetID()->schedulerID() == id()" ;;;
      Ret (with_set res (ss_workerSetID scheduler_state))
    else Ret res in
  Ret (mkHandler (wh_worker h) st res (wh_runningTasks h) (taskQueue_ h)
         (notifyFinishedQueue_ h) (notifyNotRunningQueue_ h) (committingSuicide_ h) got_new
         (wh_cgroupOpts h)).

(** [healthcheck]; a worker that must die starts [killTasksAndStop]. *)
Definition healthcheck (h : BistroWorkerHandler) (cur_time : Z) : BistroWorkerHandler :=
  if committingSuicide_ h then h
  else
    let new_state := (workerSelfState (ss_response (schedulerState_ h))
      (bw_heartbeatPeriodSec (wh_worker h)) (wh_state h) cur_time).1 in
    let h := set_wh_state h (wh_setState (wh_state h) new_state cur_time) in
    if bool_decide (state_ (wh_state h) = MUST_DIE) then set_suicide h else h.

(** ** The scheduler that a worker belongs to *)

(** What the worker knows of its scheduler is consistent. *)
Definition associated (h : BistroWorkerHandler) : Prop :=
  ws_schedulerID (ss_workerSetID (schedulerState_ h)) = ss_id (schedulerState_ h) /\
  small_version (ss_workerSetID (schedulerState_ h)).

(** A response that a scheduler sends: it belongs to its worker sets, and the
    versions are close enough for their order to be the order of integers. *)
Definition response_ok (res : SchedulerState) : Prop :=
  ws_schedulerID (ss_workerSetID res) = ss_id res /\ small_version (ss_workerSetID res) /\
  exists s, hr_workerState (ss_response res) = State_to_int s.

Definition same_tasks (h h' : BistroWorkerHandler) : Prop :=
  wh_worker h' = wh_worker h /\ wh_runningTasks h' = wh_runningTasks h /\
  taskQueue_ h' = taskQueue_ h /\ notifyFinishedQueue_ h' = notifyFinishedQueue_ h /\
  notifyNotRunningQueue_ h' = notifyNotRunningQueue_ h /\
  committingSuicide_ h' = committingSuicide_ h.

Lemma State_of_to_int s : State_of_int (State_to_int s) = Ret s.
Proof. by destruct s. Qed.

Lemma associated_new worker : associated (newHandler worker).
Proof. split; [done|]. unfold small_version; cbn. lia. Qed.

(** What a response of the right protocol version does. *)
Definition answered (h : BistroWorkerHandler) (res : SchedulerState) (t : Z)
    (h' : BistroWorkerHandler) : Prop :=
  associated h' /\ same_tasks h h' /\ ss_id (schedulerState_ h') = ss_id res /\
  State_to_int (state_ (wh_state h')) = hr_workerState (ss_response res) /\
  timeLastHeartbeatReceived_ (wh_state h') = t /\
  if decide (ss_id (schedulerState_ h) = ss_id res)
  then ws_version (ss_workerSetID (schedulerState_ h'))
         = Z.max (ws_version (ss_workerSetID (schedulerState_ h))) (ws_version (ss_workerSetID res))
       /\ notifyIfTasksNotRunningSequenceNum_ (wh_state h')
          = notifyIfTasksNotRunningSequenceNum_ (wh_state h)
       /\ timeLastGoodHealthcheckSent_ (wh_state h') = timeLastGoodHealthcheckSent_ (wh_state h)
  else ss_workerSetID (schedulerState_ h') = ss_workerSetID res
       /\ notifyIfTasksNotRunningSequenceNum_ (wh_state h') = 0
       /\ timeLastGoodHealthcheckSent_ (wh_state h') = INT64_MIN.

Lemma heartbeat_answered h res t :
  associated h -> response_ok res ->
  bw_protocolVersion (wh_worker h) = hr_protocolVersion (ss_response res) ->
  exists h', heartbeat_response h (schedulerState_ h) res t = Ret h' /\ answered h res t h'.
Proof.
  intros [Hid Hv] (Hrid & Hrv & s & Hs). unfold heartbeat_response.
  unfold enforceWorkerSchedulerProtocolVersion, checkWorkerSchedulerProtocolVersion.
  intros ->. rewrite Z.eqb_refl. cbn [require mbind outcome_bind].
  rewrite (CHECK_true (bool_decide (ws_schedulerID (ss_workerSetID res) = ss_id res)))
    by (by apply bool_decide_eq_true_2). cbn [mbind outcome_bind].
  rewrite Hs, State_of_to_int. cbn [mbind outcome_bind].
  unfold answered. destruct (decide (ss_id (schedulerState_ h) = ss_id res)) as [E|E].
  - rewrite (bool_decide_eq_true_2 _ E). cbn [negb mbind outcome_bind].
    rewrite (small_version_order _ _ Hrv Hv). cbn [mbind outcome_bind].
    destruct (Z.ltb_spec (ws_version (ss_workerSetID res))
                (ws_version (ss_workerSetID (schedulerState_ h)))) as [Hlt|Hge].
    + rewrite CHECK_true by (apply bool_decide_eq_true_2; congruence). cbn [mbind outcome_bind].
      eexists. split; [reflexivity|]. unfold associated, same_tasks; cbn.
      split; [split; [congruence|exact Hv]|]. repeat (split; [done|]). split; [lia|done].
    + eexists. split; [reflexivity|]. unfold associated, same_tasks; cbn.
      split; [done|]. repeat (split; [done|]). split; [lia|done].
  - rewrite (bool_decide_eq_false_2 _ E). cbn [negb mbind outcome_bind].
    eexists. split; [reflexivity|]. unfold associated, same_tasks; cbn.
    split; [done|]. repeat (split; [done|]). done.
Qed.

Lemma heartbeat_refused h s res t :
  bw_protocolVersion (wh_worker h) <> hr_protocolVersion (ss_response res) ->
  exists msg, heartbeat_response h s res t = Throw msg.
Proof.
  intros Hne. unfold heartbeat_response, enforceWorkerSchedulerProtocolVersion,
    checkWorkerSchedulerProtocolVersion. rewrite (proj2 (Z.eqb_neq _ _) Hne). by eexists.
Qed.

(** A heartbeat response in every case: one of another protocol version is
    refused; otherwise no check fails, the worker belongs to the scheduler that
    answered, takes over the state it was told, and keeps its tasks.  From the
    same scheduler instance it keeps its sequence number and never goes back to
    an older worker set; for a new instance it starts over, with a fresh health
    state and sequence number zero. *)
Theorem heartbeat_association h res t :
  associated h -> response_ok res ->
  (bw_protocolVersion (wh_worker h) <> hr_protocolVersion (ss_response res) ->
   exists msg, heartbeat_response h (schedulerState_ h) res t = Throw msg) /\
  (bw_protocolVersion (wh_worker h) = hr_protocolVersion (ss_response res) ->
   exists h', heartbeat_response h (schedulerState_ h) res t = Ret h' /\ answered h res t h').
Proof.
  intros Ha Hr. split; intros Hp; [by apply heartbeat_refused|by apply heartbeat_answered].
Qed.

Definition sample_response (scheduler version : Z) (s : State) : SchedulerState :=
  mkSchedulerState (mkInstanceID scheduler 7)
    (mkHeartbeatResponse 60 60 500 5 (State_to_int s) kProtocolVersion
       (Some (mkWorkerSetID (mkInstanceID scheduler 7) version emptyWorkerSetHash))).

Lemma sample_response_ok scheduler version s :
  0 <= version < 2 ^ 62 -> response_ok (sample_response scheduler version s).
Proof. intros Hv. split; [done|]. split; [exact Hv|]. by exists s. Qed.

Definition sample_handler : BistroWorkerHandler :=
  newHandler (wh_makeWorker "" "host" (mkServiceAddress "10.0.0.1" 31415) 31416 15 1000 42).

Lemma heartbeat_association_witness :
  exists h', heartbeat_response sample_handler (schedulerState_ sample_handler)
               (sample_response 5 3 HEALTHY) 1010 = Ret h' /\
    answered sample_handler (sample_response 5 3 HEALTHY) 1010 h'.
Proof.
  apply (heartbeat_association sample_handler (sample_response 5 3 HEALTHY) 1010);
    [apply associated_new|apply sample_response_ok; lia|done].
Defined.

(** ** Which tasks a worker takes *)

(** The call comes from the worker's scheduler, or is a healthcheck of a
    scheduler that has just met the worker. *)
Definition addressed (h : BistroWorkerHandler) (rt : RunningTask)
    (scheduler worker : BistroInstanceID) : Prop :=
  worker = bw_id (wh_worker h) /\
  (scheduler = ss_id (schedulerState_ h) \/
   isHealthcheck rt = true /\ rt_node rt = kHealthcheckTaskNewWorkerNode).

(** Everything that [runTask] requires of the worker. *)
Definition takes (h : BistroWorkerHandler) (rt : RunningTask)
    (scheduler worker : BistroInstanceID) (n : Z) : Prop :=
  committingSuicide_ h = false /\ addressed h rt scheduler worker /\
  (isHealthcheck rt = true \/
   state_ (wh_state h) = HEALTHY /\ notifyIfTasksNotRunningSequenceNum_ (wh_state h) <= n) /\
  wh_runningTasks h !! task_id_of rt = None.

Lemma runTask_checks_spec h rt scheduler worker :
  (exists u, runTask_checks h rt scheduler worker = Ret u) /\
    committingSuicide_ h = false /\ addressed h rt scheduler worker /\
    (isHealthcheck rt = true \/ state_ (wh_state h) = HEALTHY) \/
  (exists msg, runTask_checks h rt scheduler worker = Throw msg) /\
    ~ (committingSuicide_ h = false /\ addressed h rt scheduler worker /\
       (isHealthcheck rt = true \/ state_ (wh_state h) = HEALTHY)).
Proof.
  unfold runTask_checks, throwIfSuicidal, throwOnInstanceIDMismatch, addressed.
  destruct (committingSuicide_ h); cbn; [right; split; [by eexists|naive_solver]|].
  destruct (decide (state_ (wh_state h) = HEALTHY)) as [E1|E1];
    destruct (isHealthcheck rt);
    destruct (decide (worker = bw_id (wh_worker h))) as [E2|E2];
    destruct (decide (rt_node rt = kHealthcheckTaskNewWorkerNode)) as [E3|E3];
    destruct (decide (scheduler = ss_id (schedulerState_ h))) as [E4|E4];
    repeat first [rewrite (bool_decide_eq_true_2 _ E1) | rewrite (bool_decide_eq_false_2 _ E1)];
    repeat first [rewrite (bool_decide_eq_true_2 _ E2) | rewrite (bool_decide_eq_false_2 _ E2)];
    repeat first [rewrite (bool_decide_eq_true_2 _ E3) | rewrite (bool_decide_eq_false_2 _ E3)];
    repeat first [rewrite (bool_decide_eq_true_2 _ E4) | rewrite (bool_decide_eq_false_2 _ E4)];
    cbn; (left; split; [by eexists|naive_solver]) || (right; split; [by eexists|naive_solver]).
Qed.

Lemma cgroups_same h rt opts :
  same_tasks h (runTask_cgroups h rt opts) /\ wh_state (runTask_cgroups h rt opts) = wh_state h /\
  schedulerState_ (runTask_cgroups h rt opts) = schedulerState_ h.
Proof.
  unfold runTask_cgroups, same_tasks. destruct (isHealthcheck rt); [|done].
  destruct (wh_cgroupOpts h); [case_bool_decide|]; done.
Qed.

Lemma mark_spec h rt n :
  match runTask_mark h rt n with
  | Ret h' => h' = set_wh_running h (<[task_id_of rt := rt]> (wh_runningTasks h)) /\
      wh_runningTasks h !! task_id_of rt = None /\
      (isHealthcheck rt = true \/ notifyIfTasksNotRunningSequenceNum_ (wh_state h) <= n)
  | Throw _ => is_Some (wh_runningTasks h !! task_id_of rt) \/
      isHealthcheck rt = false /\ n < notifyIfTasksNotRunningSequenceNum_ (wh_state h)
  | Crash _ => isHealthcheck rt = false /\
      exists old, wh_runningTasks h !! task_id_of rt = Some old /\
        rt_invocationID old = rt_invocationID rt
  | Undef _ => False
  end.
Proof.
  unfold runTask_mark.
  destruct (Z.ltb_spec n (notifyIfTasksNotRunningSequenceNum_ (wh_state h))) as [Hn|Hn];
    destruct (isHealthcheck rt); cbn; try (by right);
    destruct (wh_runningTasks h !! task_id_of rt) as [old|]; cbn;
    try (case_bool_decide; cbn); eauto 7.
Qed.

(** C19: The contract of [runTask]: it returns exactly if the worker takes the
    task -- it is not shutting down, the call is meant for it, the task is a
    healthcheck or the worker is healthy and the call is not older than the
    last [notifyIfTasksNotRunning], and no invocation of the task is still
    tracked -- and the invocation is not in the queue of subprocesses already.
    Then the task is marked as running and handed to that queue, and nothing
    else about tasks changes.  If the worker does not take the task, nothing
    about tasks changes; if the invocation is in the queue already, the task
    stays marked as running.  The process ends only if the same invocation of
    the task was sent before. *)
Theorem runTask_contract h rt scheduler worker n opts :
  let (h', result) := wh_runTask h rt scheduler worker n opts in
  match result with
  | Ret _ => takes h rt scheduler worker n /\ tq_isRunning (taskQueue_ h) rt = false /\
      wh_runningTasks h' = <[task_id_of rt := rt]> (wh_runningTasks h) /\
      taskQueue_ h' = <[makeInvocationID rt := newTaskState opts]> (taskQueue_ h)
  | Throw _ => taskQueue_ h' = taskQueue_ h /\
      (~ takes h rt scheduler worker n /\ wh_runningTasks h' = wh_runningTasks h \/
       takes h rt scheduler worker n /\ tq_isRunning (taskQueue_ h) rt = true /\
       wh_runningTasks h' = <[task_id_of rt := rt]> (wh_runningTasks h))
  | Crash _ => isHealthcheck rt = false /\
      exists old, wh_runningTasks h !! task_id_of rt = Some old /\
        rt_invocationID old = rt_invocationID rt
  | Undef _ => False
  end /\
  notifyFinishedQueue_ h' = notifyFinishedQueue_ h /\ notifyNotRunningQueue_ h' = notifyNotRunningQueue_ h /\
  wh_state h' = wh_state h /\ schedulerState_ h' = schedulerState_ h.
Proof.
  unfold wh_runTask, takes.
  destruct (runTask_checks_spec h rt scheduler worker) as [[[u ->] Hc]|[[msg ->] Hc]];
    cbn [and_then]; [|split; [split; [done|left; naive_solver]|done]].
  destruct (cgroups_same h rt opts) as [(_ & E2 & E3 & E4 & E5 & _) [E6 E7]].
  pose proof (mark_spec (runTask_cgroups h rt opts) rt n) as Hm. rewrite E2, E6 in Hm.
  destruct (runTask_mark (runTask_cgroups h rt opts) rt n) as [h1|msg|msg|msg]; cbn [and_then]; [| | |done].
  - destruct Hm as (-> & Hnone & Hseq). unfold runTask_start, tq_runTask, tq_isRunning. cbn.
    rewrite E3. destruct (taskQueue_ h !! makeInvocationID rt) as [st|] eqn:Eq; cbn;
      rewrite ?E2, ?E3, ?E4, ?E5, ?E6, ?E7; (split; [|done]); [|naive_solver].
    split; [done|]. right. naive_solver.
  - rewrite E2, E3, E4, E5, E6, E7. split; [|done]. split; [done|]. left. split; [|done].
    intros (_ & _ & Hh & Hk). rewrite Hk in Hm.
    destruct Hm as [[? [=]]|[E Hlt]]; destruct Hh as [Hh|[_ Hh]]; [congruence|lia].
  - rewrite E4, E5, E6, E7. split; [naive_solver|done].
Qed.
