(* ===== verification/WorkerTasks.v ===== *)
(** The worker's calls, callbacks and threads in any interleaving: a task that
    the worker accepted is at exactly one place until the scheduler has
    acknowledged its status, and none of the handler's checks fails.

    The state is the handler with what its threads hold on their stacks
    between two critical sections; an event is one critical section. *)

From stdpp Require Import base gmap strings list.
From Stdlib Require Import ZArith Lia.
From S2P Require Import Prelude Thrift WorkerSet Dynamic Backoff TaskStatus.
From S2P Require Import WorkerState RemoteWorker Subprocess Runner Worker.

(** ** The handler and its threads *)

(** A [runTask] call: the task, its sequence number and its options. *)
Record Call := mkCall { c_rt : RunningTask; c_seq : Z; c_opts : TaskSubprocessOptions }.

Record World := mkWorld {
  wd_handler : BistroWorkerHandler;
  wd_calls : list Call;              (* runTask, past its first checks *)
  wd_marked : list Call;             (* runTask, before taskQueue_.runTask *)
  wd_threads : list RunningTask;     (* handed to the thread pool *)
  wd_ending : list RunningTask;      (* exited and reported, not yet erased *)
  wd_failing : list RunningTask;     (* not started and erased, not yet reported *)
  wd_sending : option (NotifyData * RunningTask);  (* notifyFinished *)
  wd_sendingNR : option RunningTask;               (* notifyNotRunning *)
  wd_started : list (Z * Z * string * string);     (* history: marked as running *)
  wd_acked : list (Z * Z * string * string)        (* history: acknowledged *)
}.

Definition newWorld (worker : BistroWorker) : World :=
  mkWorld (newHandler worker) [] [] [] [] [] None None [] [].

Definition set_handler (w : World) (h : BistroWorkerHandler) : World :=
  mkWorld h (wd_calls w) (wd_marked w) (wd_threads w) (wd_ending w) (wd_failing w)
    (wd_sending w) (wd_sendingNR w) (wd_started w) (wd_acked w).

Inductive Event :=
| EvRunTask (c : Call) (scheduler worker : BistroInstanceID)
| EvMark (i : nat)                         (* the locks of runTask *)
| EvStart (i : nat)                        (* taskQueue_.runTask *)
| EvPoll (i : nat) (pid : Z)               (* asyncSubprocessCallback *)
| EvExit (i : nat) (status : TaskStatus)   (* the status of a task that exited *)
| EvErase (i : nat)
| EvFailed (i : nat)                       (* the task could not be started *)
| EvFailedStatus (i : nat) (status : TaskStatus)
| EvSend | EvAck | EvNack                  (* notifyFinished and its reply *)
| EvNotify (rts : list RunningTask) (scheduler worker : BistroInstanceID) (n : Z)
| EvSendNotRunning (now : Z) | EvNotRunningAck | EvNotRunningNack
| EvHeartbeat (res : SchedulerState) (now : Z)
| EvHealthcheck (now : Z)
| EvSuicide (scheduler worker : BistroInstanceID)
| EvKill (rt : RunningTask) (scheduler worker : BistroInstanceID) (req : KillRequest)
| EvKillRound.

(** A call that throws is answered with the exception and changes nothing. *)
Definition attempt {A} (w : World) (m : outcome A) (f : A -> World) : outcome World :=
  match m with
  | Ret a => Ret (f a)
  | Throw _ => Ret w
  | Crash e => Crash e
  | Undef e => Undef e
  end.

(** An event; one that is not possible in the state changes nothing. *)
Definition exec (w : World) (e : Event) : outcome World :=
  let h := wd_handler w in
  match e with
  | EvRunTask c scheduler worker =>
      attempt w (runTask_checks h (c_rt c) scheduler worker) (fun _ =>
        mkWorld (runTask_cgroups h (c_rt c) (c_opts c)) (wd_calls w ++ [c]) (wd_marked w)
          (wd_threads w) (wd_ending w) (wd_failing w) (wd_sending w) (wd_sendingNR w)
          (wd_started w) (wd_acked w))
  | EvMark i =>
      match wd_calls w !! i with
      | None => Ret w
      | Some c =>
          let w := mkWorld h (delete i (wd_calls w)) (wd_marked w) (wd_threads w) (wd_ending w)
            (wd_failing w) (wd_sending w) (wd_sendingNR w) (wd_started w) (wd_acked w) in
          attempt w (runTask_mark h (c_rt c) (c_seq c)) (fun h =>
            mkWorld h (wd_calls w) (wd_marked w ++ [c]) (wd_threads w) (wd_ending w)
              (wd_failing w) (wd_sending w) (wd_sendingNR w)
              (makeInvocationID (c_rt c) :: wd_started w) (wd_acked w))
      end
  | EvStart i =>
      match wd_marked w !! i with
      | None => Ret w
      | Some c =>
          let w := mkWorld h (wd_calls w) (delete i (wd_marked w)) (wd_threads w) (wd_ending w)
            (wd_failing w) (wd_sending w) (wd_sendingNR w) (wd_started w) (wd_acked w) in
          attempt w (runTask_start h (c_rt c) (c_opts c)) (fun h =>
            mkWorld h (wd_calls w) (wd_marked w) (wd_threads w ++ [c_rt c]) (wd_ending w)
              (wd_failing w) (wd_sending w) (wd_sendingNR w) (wd_started w) (wd_acked w))
      end
  | EvPoll i pid =>
      match wd_threads w !! i with
      | None => Ret w
      | Some rt =>
          match taskQueue_ h !! makeInvocationID rt with
          | None => Ret w
          | Some st =>
              let* (st, _, resources) := asyncSubprocessCallback st pid in
              (if (resources : bool) then resource_cob h rt else Ret tt) ;;;
              Ret (set_handler w (set_wh_tasks h (<[makeInvocationID rt := st]> (taskQueue_ h))))
          end
      end
  | EvExit i status =>
      match wd_threads w !! i with
      | None => Ret w
      | Some rt =>
          Ret (mkWorld (status_cob h rt status) (wd_calls w) (wd_marked w)
                 (delete i (wd_threads w)) (wd_ending w ++ [rt]) (wd_failing w) (wd_sending w)
                 (wd_sendingNR w) (wd_started w) (wd_acked w))
      end
  | EvErase i =>
      match wd_ending w !! i with
      | None => Ret w
      | Some rt =>
          let* q := tq_erase (taskQueue_ h) rt in
          Ret (mkWorld (set_wh_tasks h q) (wd_calls w) (wd_marked w) (wd_threads w)
                 (delete i (wd_ending w)) (wd_failing w) (wd_sending w) (wd_sendingNR w)
                 (wd_started w) (wd_acked w))
      end
  | EvFailed i =>
      match wd_threads w !! i with
      | None => Ret w
      | Some rt =>
          let* q := tq_erase (taskQueue_ h) rt in
          Ret (mkWorld (set_wh_tasks h q) (wd_calls w) (wd_marked w) (delete i (wd_threads w))
                 (wd_ending w) (wd_failing w ++ [rt]) (wd_sending w) (wd_sendingNR w)
                 (wd_started w) (wd_acked w))
      end
  | EvFailedStatus i status =>
      match wd_failing w !! i with
      | None => Ret w
      | Some rt =>
          Ret (mkWorld (status_cob h rt status) (wd_calls w) (wd_marked w) (wd_threads w)
                 (wd_ending w) (delete i (wd_failing w)) (wd_sending w) (wd_sendingNR w)
                 (wd_started w) (wd_acked w))
      end
  | EvSend =>
      match wd_sending w with
      | Some _ => Ret w
      | None =>
          let* next := notifyFinished_read h in
          match next with
          | None => Ret w
          | Some (h, nd, update) =>
              Ret (mkWorld h (wd_calls w) (wd_marked w) (wd_threads w) (wd_ending w)
                     (wd_failing w) (Some (nd, su_task update)) (wd_sendingNR w)
                     (wd_started w) (wd_acked w))
          end
      end
  | EvAck =>
      match wd_sending w with
      | None => Ret w
      | Some (nd, rt) =>
          let* h := notifyFinished_ok h nd rt in
          Ret (mkWorld h (wd_calls w) (wd_marked w) (wd_threads w) (wd_ending w)
                 (wd_failing w) None (wd_sendingNR w) (wd_started w)
                 (makeInvocationID rt :: wd_acked w))
      end
  | EvNack =>
      match wd_sending w with
      | None => Ret w
      | Some (nd, _) =>
          Ret (mkWorld (notifyFinished_error h nd) (wd_calls w) (wd_marked w) (wd_threads w)
                 (wd_ending w) (wd_failing w) None (wd_sendingNR w) (wd_started w) (wd_acked w))
      end
  | EvNotify rts scheduler worker n =>
      attempt w (notifyIfTasksNotRunning h rts scheduler worker n) (set_handler w)
  | EvSendNotRunning now =>
      match wd_sendingNR w, notifyNotRunning_read h now with
      | None, Some (h, update) =>
          Ret (mkWorld h (wd_calls w) (wd_marked w) (wd_threads w) (wd_ending w) (wd_failing w)
                 (wd_sending w) (Some (su_task update)) (wd_started w) (wd_acked w))
      | _, _ => Ret w
      end
  | EvNotRunningAck =>
      Ret (mkWorld h (wd_calls w) (wd_marked w) (wd_threads w) (wd_ending w) (wd_failing w)
             (wd_sending w) None (wd_started w) (wd_acked w))
  | EvNotRunningNack =>
      match wd_sendingNR w with
      | None => Ret w
      | Some rt =>
          Ret (mkWorld (notifyNotRunning_error h rt) (wd_calls w) (wd_marked w) (wd_threads w)
                 (wd_ending w) (wd_failing w) (wd_sending w) None (wd_started w) (wd_acked w))
      end
  | EvHeartbeat res now =>
      if committingSuicide_ h then Ret w
      else attempt w (heartbeat_response h (schedulerState_ h) res now) (set_handler w)
  | EvHealthcheck now => Ret (set_handler w (healthcheck h now))
  | EvSuicide scheduler worker =>
      attempt w (wh_requestSuicide h scheduler worker) (set_handler w)
  | EvKill rt scheduler worker req =>
      attempt w (wh_killTask h rt scheduler worker req) (set_handler w)
  | EvKillRound => Ret (set_handler w (kill_round (set_suicide h)).1)
  end.

Definition run (w : World) (trace : list Event) : outcome World := foldM exec w trace.

(** ** The invariant *)

Abbreviation inv := makeInvocationID.

(** The tasks that a thread of the worker is still going to report. *)
Definition active (w : World) : list RunningTask :=
  map c_rt (wd_marked w) ++ wd_threads w ++ wd_failing w.
Definition sending_ids (w : World) : list (string * string) :=
  match wd_sending w with Some (nd, _) => [nd_taskID nd] | None => [] end.
(** Every place that is responsible for a task. *)
Definition holders (w : World) : list (string * string) :=
  map task_id_of (active w) ++ map nd_taskID (notifyFinishedQueue_ (wd_handler w))
  ++ sending_ids w.

(** The handler and its threads agree on the tasks. *)
Record tracked (w : World) : Prop := {
  tr_held : (map_to_list (wh_runningTasks (wd_handler w))).*1 ≡ₚ holders w;
  tr_active : forall rt, rt ∈ active w -> wh_runningTasks (wd_handler w) !! task_id_of rt = Some rt;
  tr_sending : forall nd rt, wd_sending w = Some (nd, rt) ->
    wh_runningTasks (wd_handler w) !! nd_taskID nd = Some rt;
  tr_history : wd_started w
    ≡ₚ map (fun p => inv p.2) (map_to_list (wh_runningTasks (wd_handler w))) ++ wd_acked w;
  tr_tasks : (map_to_list (taskQueue_ (wd_handler w))).*1
    ≡ₚ map inv (wd_threads w ++ wd_ending w);
  tr_invs : NoDup (map inv (map c_rt (wd_marked w) ++ wd_threads w ++ wd_ending w));
  tr_past : forall rt, rt ∈ map c_rt (wd_marked w) ++ wd_threads w ++ wd_ending w ->
    inv rt ∈ wd_started w;
  tr_known : map_Forall (fun _ st => Forall known (queue_ st)) (taskQueue_ (wd_handler w));
  tr_keys : map_Forall (fun k rt => k = task_id_of rt) (wh_runningTasks (wd_handler w))
}.

(** The invocations of the calls that are still to take effect are new. *)
Definition fresh_calls (w : World) (future : list (Z * Z * string * string)) : Prop :=
  NoDup (future ++ map (fun c => inv (c_rt c)) (wd_calls w) ++ wd_started w).

Lemma keys_insert_fresh {K V} `{Countable K} (m : gmap K V) k v :
  m !! k = None -> (map_to_list (<[k := v]> m)).*1 ≡ₚ k :: (map_to_list m).*1.
Proof. intros Hk. by rewrite map_to_list_insert. Qed.

Lemma keys_delete {K V} `{Countable K} (m : gmap K V) k v :
  m !! k = Some v -> (map_to_list m).*1 ≡ₚ k :: (map_to_list (delete k m)).*1.
Proof. intros Hk. by rewrite <- (map_to_list_delete m k v Hk). Qed.

Lemma keys_update {K V} `{Countable K} (m : gmap K V) k v v' :
  m !! k = Some v -> (map_to_list (<[k := v']> m)).*1 ≡ₚ (map_to_list m).*1.
Proof.
  intros Hk. rewrite (keys_delete m k v Hk), <- insert_delete_eq.
  apply keys_insert_fresh. apply lookup_delete_eq.
Qed.

Lemma elem_keys {K V} `{Countable K} (m : gmap K V) k :
  k ∈ (map_to_list m).*1 <-> is_Some (m !! k).
Proof.
  rewrite list_elem_of_fmap. split.
  - intros ([k' v] & -> & Hin). apply elem_of_map_to_list in Hin. by eexists.
  - intros [v Hv]. exists (k, v). split; [done|]. by apply elem_of_map_to_list.
Qed.

Lemma held_nodup w : tracked w -> NoDup (holders w).
Proof. intros Hw. rewrite <- (tr_held w Hw). apply NoDup_fst_map_to_list. Qed.

Lemma inv_id a b : inv a = inv b -> task_id_of a = task_id_of b.
Proof. unfold makeInvocationID, task_id_of. by intros [= _ _ -> ->]. Qed.

Lemma inv_invocation a b :
  task_id_of a = task_id_of b -> rt_invocationID a = rt_invocationID b -> inv a = inv b.
Proof. unfold makeInvocationID, task_id_of. intros [= -> ->] E. by rewrite E. Qed.

Lemma running_started w k rt : tracked w ->
  wh_runningTasks (wd_handler w) !! k = Some rt -> inv rt ∈ wd_started w.
Proof.
  intros Hw Hk. rewrite (tr_history w Hw). apply elem_of_app. left.
  apply list_elem_of_fmap. exists (k, rt). split; [done|]. by apply elem_of_map_to_list.
Qed.

Lemma tracked_new worker : tracked (newWorld worker).
Proof.
  split; cbn; unfold active; cbn; rewrite ?map_to_list_empty; try done; try by constructor.
  all: by intros ? ?%not_elem_of_nil.
Qed.

(** Nothing that the invariant speaks of changed. *)
Lemma tracked_same w w' :
  tracked w ->
  wh_runningTasks (wd_handler w') = wh_runningTasks (wd_handler w) ->
  taskQueue_ (wd_handler w') = taskQueue_ (wd_handler w) ->
  notifyFinishedQueue_ (wd_handler w') = notifyFinishedQueue_ (wd_handler w) ->
  wd_marked w' = wd_marked w -> wd_threads w' = wd_threads w -> wd_ending w' = wd_ending w ->
  wd_failing w' = wd_failing w -> wd_sending w' = wd_sending w ->
  wd_started w' = wd_started w -> wd_acked w' = wd_acked w -> tracked w'.
Proof.
  intros [] E1 E2 E3 E4 E5 E6 E7 E8 E9 E10.
  split; unfold holders, active, sending_ids in *; rewrite ?E1, ?E2, ?E3, ?E4, ?E5, ?E6, ?E7, ?E8,
    ?E9, ?E10; done.
Qed.
Ltac same_tracked := eapply tracked_same; [eassumption|reflexivity..].

(** ** The events preserve it *)

Lemma delete_split {A} (l : list A) i x : l !! i = Some x -> l ≡ₚ x :: delete i l.
Proof. apply delete_Permutation. Qed.

(** Reorder, with a list split as [Hp] says. *)
Ltac perm_with Hp :=
  revert Hp;
  match goal with
  | |- (_ ≡ₚ _ :: ?r) -> _ => generalize r; intros ? Hp; rewrite Hp; solve_Permutation
  end.

Lemma map_perm {A B} (f : A -> B) l l' : l ≡ₚ l' -> map f l ≡ₚ map f l'.
Proof. apply Permutation_map. Qed.

Lemma tracked_mark w c h' :
  tracked w -> inv (c_rt c) ∉ wd_started w ->
  runTask_mark (wd_handler w) (c_rt c) (c_seq c) = Ret h' ->
  tracked (mkWorld h' (wd_calls w) (wd_marked w ++ [c]) (wd_threads w) (wd_ending w)
    (wd_failing w) (wd_sending w) (wd_sendingNR w) (inv (c_rt c) :: wd_started w) (wd_acked w)).
Proof.
  intros Hw Hfresh E. unfold runTask_mark in E.
  destruct (_ && _); [done|].
  destruct (wh_runningTasks (wd_handler w) !! task_id_of (c_rt c)) eqn:Ek.
  { destruct (isHealthcheck _); [done|]. by inv_ret. }
  injection E as <-. destruct Hw as [Hheld Hact Hsend Hhist Htasks Hinvs Hpast Hknown Hkeys].
  assert (Hne : forall k rt, wh_runningTasks (wd_handler w) !! k = Some rt -> k <> task_id_of (c_rt c))
    by (intros k rt Hk ->; congruence).
  split; cbn [wd_handler wd_marked wd_threads wd_ending wd_failing wd_sending wd_started wd_acked
              wh_runningTasks taskQueue_ notifyFinishedQueue_ set_wh_running].
  - rewrite keys_insert_fresh, Hheld by done. unfold holders, active, sending_ids. cbn.
    rewrite !map_app. cbn. solve_Permutation.
  - intros rt Hin. unfold active in Hin. cbn in Hin. rewrite map_app in Hin. cbn in Hin.
    destruct (decide (rt = c_rt c)) as [->|Hrt]; [apply lookup_insert_eq|].
    assert (Hin' : rt ∈ active w) by (unfold active; set_solver).
    rewrite lookup_insert_ne; [by apply Hact|]. intros Heq. by apply (Hne _ _ (Hact _ Hin')).
  - intros nd rt Hs. rewrite lookup_insert_ne; [by apply Hsend|].
    intros Heq. by apply (Hne _ _ (Hsend _ _ Hs)).
  - rewrite map_to_list_insert by done. cbn. by rewrite Hhist.
  - done.
  - assert (Hp : map c_rt (wd_marked w ++ [c]) ++ wd_threads w ++ wd_ending w
                 ≡ₚ c_rt c :: map c_rt (wd_marked w) ++ wd_threads w ++ wd_ending w)
      by (rewrite map_app; cbn; solve_Permutation).
    rewrite (map_perm inv _ _ Hp). cbn. constructor; [|done].
    intros Hin. apply Hfresh. apply list_elem_of_fmap in Hin as (rt & -> & Hin). by apply Hpast.
  - intros rt Hin. rewrite map_app in Hin. cbn in Hin.
    destruct (decide (rt = c_rt c)) as [->|Hrt]; [by left|]. right. apply Hpast. set_solver.
  - done.
  - by apply map_Forall_insert_2.
Qed.

Lemma tracked_start w i c h' :
  tracked w -> wd_marked w !! i = Some c ->
  runTask_start (wd_handler w) (c_rt c) (c_opts c) = Ret h' ->
  tracked (mkWorld h' (wd_calls w) (delete i (wd_marked w)) (wd_threads w ++ [c_rt c]) (wd_ending w)
    (wd_failing w) (wd_sending w) (wd_sendingNR w) (wd_started w) (wd_acked w)).
Proof.
  intros Hw Hi E. unfold runTask_start, tq_runTask in E. inv_ret.
  destruct (taskQueue_ (wd_handler w) !! inv (c_rt c)) eqn:Eq; [done|]. injection E0 as <-.
  destruct Hw as [Hheld Hact Hsend Hhist Htasks Hinvs Hpast Hknown Hkeys].
  pose proof (map_perm c_rt _ _ (delete_split _ _ _ Hi)) as Hp. cbn in Hp.
  assert (Hact' : active w ≡ₚ map c_rt (delete i (wd_marked w)) ++ (wd_threads w ++ [c_rt c]) ++ wd_failing w)
    by (unfold active; perm_with Hp).
  assert (Hall : map c_rt (wd_marked w) ++ wd_threads w ++ wd_ending w ≡ₚ
                 map c_rt (delete i (wd_marked w)) ++ (wd_threads w ++ [c_rt c]) ++ wd_ending w)
    by (perm_with Hp).
  split; cbn [wd_handler wd_marked wd_threads wd_ending wd_failing wd_sending wd_started wd_acked
              wh_runningTasks taskQueue_ notifyFinishedQueue_ set_wh_tasks]; try done.
  - rewrite Hheld. unfold holders, active, sending_ids. cbn.
    by rewrite (map_perm _ _ _ Hact').
  - intros rt Hin. apply Hact. by rewrite Hact'.
  - rewrite keys_insert_fresh, Htasks by done. rewrite !map_app. cbn. solve_Permutation.
  - by rewrite <- (map_perm inv _ _ Hall).
  - intros rt Hin. apply Hpast. by rewrite Hall.
  - apply map_Forall_insert_2; [by constructor|done].
Qed.

(** A thread's task is in the queue of tasks. *)
Lemma thread_task w rt : tracked w -> rt ∈ wd_threads w ++ wd_ending w ->
  is_Some (taskQueue_ (wd_handler w) !! inv rt).
Proof.
  intros Hw Hin. apply elem_keys. rewrite (tr_tasks w Hw).
  apply list_elem_of_fmap. by exists rt.
Qed.

(** The state of a task in the queue changes. *)
Lemma tracked_task_update w q :
  tracked w -> (map_to_list q).*1 ≡ₚ (map_to_list (taskQueue_ (wd_handler w))).*1 ->
  map_Forall (fun _ st => Forall known (queue_ st)) q ->
  tracked (set_handler w (set_wh_tasks (wd_handler w) q)).
Proof.
  intros [Hheld Hact Hsend Hhist Htasks Hinvs Hpast Hknown Hkeys] Hq Hk.
  split; cbn [wd_handler wd_marked wd_threads wd_ending wd_failing wd_sending wd_started wd_acked
              wh_runningTasks taskQueue_ notifyFinishedQueue_ set_wh_tasks set_handler]; try done.
  by rewrite Hq.
Qed.

(** The status of a task that one of the threads held is queued. *)
Lemma tracked_exit w i rt status :
  tracked w -> wd_threads w !! i = Some rt ->
  tracked (mkWorld (status_cob (wd_handler w) rt status) (wd_calls w) (wd_marked w)
    (delete i (wd_threads w)) (wd_ending w ++ [rt]) (wd_failing w) (wd_sending w)
    (wd_sendingNR w) (wd_started w) (wd_acked w)).
Proof.
  intros [Hheld Hact Hsend Hhist Htasks Hinvs Hpast Hknown Hkeys] Hi.
  pose proof (delete_split _ _ _ Hi) as Hp.
  assert (Ha : active w ≡ₚ rt :: map c_rt (wd_marked w) ++ delete i (wd_threads w) ++ wd_failing w)
    by (unfold active; perm_with Hp).
  assert (Ht : wd_threads w ++ wd_ending w ≡ₚ delete i (wd_threads w) ++ wd_ending w ++ [rt])
    by (perm_with Hp).
  split; cbn [wd_handler wd_marked wd_threads wd_ending wd_failing wd_sending wd_started wd_acked
              wh_runningTasks taskQueue_ notifyFinishedQueue_ set_wh_queues status_cob]; try done.
  - rewrite Hheld. unfold holders. rewrite (map_perm _ _ _ Ha).
    unfold active, sending_ids. cbn [wd_handler wd_marked wd_threads wd_failing wd_sending
      notifyFinishedQueue_ set_wh_queues status_cob]. cbn. rewrite !map_app. cbn. solve_Permutation.
  - intros r Hin. apply Hact. rewrite Ha. by right.
  - by rewrite Htasks, (map_perm inv _ _ Ht).
  - by rewrite <- Ht.
  - intros r Hin. apply Hpast. by rewrite Ht.
Qed.

Lemma tracked_failed_status w i rt status :
  tracked w -> wd_failing w !! i = Some rt ->
  tracked (mkWorld (status_cob (wd_handler w) rt status) (wd_calls w) (wd_marked w)
    (wd_threads w) (wd_ending w) (delete i (wd_failing w)) (wd_sending w)
    (wd_sendingNR w) (wd_started w) (wd_acked w)).
Proof.
  intros [Hheld Hact Hsend Hhist Htasks Hinvs Hpast Hknown Hkeys] Hi.
  pose proof (delete_split _ _ _ Hi) as Hp.
  assert (Ha : active w ≡ₚ rt :: map c_rt (wd_marked w) ++ wd_threads w ++ delete i (wd_failing w))
    by (unfold active; perm_with Hp).
  split; cbn [wd_handler wd_marked wd_threads wd_ending wd_failing wd_sending wd_started wd_acked
              wh_runningTasks taskQueue_ notifyFinishedQueue_ set_wh_queues status_cob]; try done.
  - rewrite Hheld. unfold holders. rewrite (map_perm _ _ _ Ha).
    unfold active, sending_ids. cbn [wd_handler wd_marked wd_threads wd_failing wd_sending
      notifyFinishedQueue_ set_wh_queues status_cob]. cbn. rewrite !map_app. cbn. solve_Permutation.
  - intros r Hin. apply Hact. rewrite Ha. by right.
Qed.

(** A task leaves the queue of tasks. *)
Lemma erase_ret q rt : is_Some (q !! inv rt) -> tq_erase q rt = Ret (delete (inv rt) q).
Proof. intros [st E]. unfold tq_erase. by rewrite E. Qed.

Lemma keys_erase q rt l : is_Some (q !! inv rt) -> (map_to_list q).*1 ≡ₚ inv rt :: l ->
  (map_to_list (delete (inv rt) q : TaskQueue)).*1 ≡ₚ l.
Proof.
  intros [st E] Hq. rewrite (keys_delete q _ st E) in Hq. by apply Permutation_cons_inv in Hq.
Qed.

Lemma tracked_erase w i rt :
  tracked w -> wd_ending w !! i = Some rt ->
  tracked (mkWorld (set_wh_tasks (wd_handler w) (delete (inv rt) (taskQueue_ (wd_handler w))))
    (wd_calls w) (wd_marked w) (wd_threads w) (delete i (wd_ending w)) (wd_failing w) (wd_sending w)
    (wd_sendingNR w) (wd_started w) (wd_acked w)).
Proof.
  intros Hw Hi. pose proof (delete_split _ _ _ Hi) as Hp.
  assert (Hs : is_Some (taskQueue_ (wd_handler w) !! inv rt)).
  { apply (thread_task w); [done|]. rewrite Hp. set_solver. }
  destruct Hw as [Hheld Hact Hsend Hhist Htasks Hinvs Hpast Hknown Hkeys].
  assert (Ht : map c_rt (wd_marked w) ++ wd_threads w ++ wd_ending w
               ≡ₚ rt :: map c_rt (wd_marked w) ++ wd_threads w ++ delete i (wd_ending w))
    by (perm_with Hp).
  split; cbn [wd_handler wd_marked wd_threads wd_ending wd_failing wd_sending wd_started wd_acked
              wh_runningTasks taskQueue_ notifyFinishedQueue_ set_wh_tasks]; try done.
  - apply keys_erase; [done|]. rewrite Htasks.
    assert (Hx : wd_threads w ++ wd_ending w ≡ₚ rt :: wd_threads w ++ delete i (wd_ending w))
      by (perm_with Hp).
    apply (map_perm inv _ _ Hx).
  - rewrite Ht in Hinvs. cbn in Hinvs. by apply NoDup_cons in Hinvs as [_ ?].
  - intros r Hin. apply Hpast. rewrite Ht. by right.
  - by apply map_Forall_delete.
Qed.

Lemma tracked_failed w i rt :
  tracked w -> wd_threads w !! i = Some rt ->
  tracked (mkWorld (set_wh_tasks (wd_handler w) (delete (inv rt) (taskQueue_ (wd_handler w))))
    (wd_calls w) (wd_marked w) (delete i (wd_threads w)) (wd_ending w) (wd_failing w ++ [rt])
    (wd_sending w) (wd_sendingNR w) (wd_started w) (wd_acked w)).
Proof.
  intros Hw Hi. pose proof (delete_split _ _ _ Hi) as Hp.
  assert (Hs : is_Some (taskQueue_ (wd_handler w) !! inv rt)).
  { apply (thread_task w); [done|]. rewrite Hp. set_solver. }
  destruct Hw as [Hheld Hact Hsend Hhist Htasks Hinvs Hpast Hknown Hkeys].
  assert (Ht : map c_rt (wd_marked w) ++ wd_threads w ++ wd_ending w
               ≡ₚ rt :: map c_rt (wd_marked w) ++ delete i (wd_threads w) ++ wd_ending w)
    by (perm_with Hp).
  assert (Ha : active w ≡ₚ map c_rt (wd_marked w) ++ delete i (wd_threads w) ++ wd_failing w ++ [rt])
    by (unfold active; perm_with Hp).
  split; cbn [wd_handler wd_marked wd_threads wd_ending wd_failing wd_sending wd_started wd_acked
              wh_runningTasks taskQueue_ notifyFinishedQueue_ set_wh_tasks]; try done.
  - rewrite Hheld. unfold holders. by rewrite (map_perm _ _ _ Ha).
  - intros r Hin. apply Hact. by rewrite Ha.
  - apply keys_erase; [done|]. rewrite Htasks.
    assert (Hx : wd_threads w ++ wd_ending w ≡ₚ rt :: delete i (wd_threads w) ++ wd_ending w)
      by (perm_with Hp).
    apply (map_perm inv _ _ Hx).
  - rewrite Ht in Hinvs. cbn in Hinvs. by apply NoDup_cons in Hinvs as [_ ?].
  - intros r Hin. apply Hpast. rewrite Ht. by right.
  - by apply map_Forall_delete.
Qed.

Lemma holder_running w k : tracked w -> k ∈ holders w ->
  is_Some (wh_runningTasks (wd_handler w) !! k).
Proof. intros Hw Hk. apply elem_keys. by rewrite (tr_held w Hw). Qed.

(** A queued status belongs to a task that is marked as running, and sending it
    off keeps track of the task. *)
Lemma tracked_send w :
  tracked w -> wd_sending w = None ->
  (notifyFinishedQueue_ (wd_handler w) = [] /\ notifyFinished_read (wd_handler w) = Ret None) \/
  exists h' nd update, notifyFinished_read (wd_handler w) = Ret (Some (h', nd, update)) /\
    schedulerState_ h' = schedulerState_ (wd_handler w) /\
    tracked (mkWorld h' (wd_calls w) (wd_marked w) (wd_threads w) (wd_ending w)
      (wd_failing w) (Some (nd, su_task update)) (wd_sendingNR w) (wd_started w) (wd_acked w)).
Proof.
  intros Hw Hn. unfold notifyFinished_read.
  destruct (notifyFinishedQueue_ (wd_handler w)) as [|nd queue] eqn:Eq; [by left|]. right.
  destruct (holder_running w (nd_taskID nd) Hw) as [rt Hrt].
  { unfold holders. rewrite Eq. cbn. set_solver. }
  rewrite Hrt. do 3 eexists. split; [done|]. split; [done|].
  destruct Hw as [Hheld Hact Hsend Hhist Htasks Hinvs Hpast Hknown Hkeys].
  split; cbn [wd_handler wd_marked wd_threads wd_ending wd_failing wd_sending wd_started wd_acked
              wh_runningTasks taskQueue_ notifyFinishedQueue_ set_wh_queues su_task]; try done.
  - rewrite Hheld. unfold holders, sending_ids. rewrite Hn, Eq. cbn. solve_Permutation.
  - by intros ? ? [= <- <-].
Qed.

Lemma tracked_nack w nd rt :
  tracked w -> wd_sending w = Some (nd, rt) ->
  tracked (mkWorld (notifyFinished_error (wd_handler w) nd) (wd_calls w) (wd_marked w)
    (wd_threads w) (wd_ending w) (wd_failing w) None (wd_sendingNR w) (wd_started w) (wd_acked w)).
Proof.
  intros [Hheld Hact Hsend Hhist Htasks Hinvs Hpast Hknown Hkeys] Hn.
  split; cbn [wd_handler wd_marked wd_threads wd_ending wd_failing wd_sending wd_started wd_acked
              wh_runningTasks taskQueue_ notifyFinishedQueue_ set_wh_queues notifyFinished_error];
    try done.
  rewrite Hheld. unfold holders, active, sending_ids. rewrite Hn. cbn. rewrite !map_app. cbn.
  solve_Permutation.
Qed.

Lemma tracked_ack w nd rt :
  tracked w -> wd_sending w = Some (nd, rt) ->
  exists h', notifyFinished_ok (wd_handler w) nd rt = Ret h' /\
    schedulerState_ h' = schedulerState_ (wd_handler w) /\
    tracked (mkWorld h' (wd_calls w) (wd_marked w) (wd_threads w) (wd_ending w)
      (wd_failing w) None (wd_sendingNR w) (wd_started w) (inv rt :: wd_acked w)).
Proof.
  intros Hw Hn. pose proof (tr_sending w Hw _ _ Hn) as Hrt. unfold notifyFinished_ok.
  rewrite Hrt, CHECK_true by (by apply bool_decide_eq_true_2). cbn [mbind outcome_bind].
  eexists. split; [reflexivity|]. split; [by destruct (_ && _)|].
  pose proof (held_nodup w Hw) as Hnd.
  destruct Hw as [Hheld Hact Hsend Hhist Htasks Hinvs Hpast Hknown Hkeys].
  set (m := wh_runningTasks (wd_handler w)) in *.
  assert (Hh : forall h', wh_runningTasks h' = delete (nd_taskID nd) m ->
    taskQueue_ h' = taskQueue_ (wd_handler w) ->
    notifyFinishedQueue_ h' = notifyFinishedQueue_ (wd_handler w) ->
    tracked (mkWorld h' (wd_calls w) (wd_marked w) (wd_threads w) (wd_ending w)
      (wd_failing w) None (wd_sendingNR w) (wd_started w) (inv rt :: wd_acked w))).
  { intros h' E1 E2 E3.
    assert (Hx : holders w ≡ₚ nd_taskID nd :: holders (mkWorld h' (wd_calls w) (wd_marked w)
      (wd_threads w) (wd_ending w) (wd_failing w) None (wd_sendingNR w) (wd_started w)
      (inv rt :: wd_acked w))).
    { unfold holders, sending_ids, active. cbn. rewrite Hn, E3. cbn. solve_Permutation. }
    rewrite Hx in Hnd, Hheld. apply NoDup_cons in Hnd as [Hout _].
    rewrite (keys_delete m _ rt Hrt) in Hheld. apply Permutation_cons_inv in Hheld.
    split; cbn [wd_handler wd_marked wd_threads wd_ending wd_failing wd_sending wd_started wd_acked];
      rewrite ?E1, ?E2, ?E3; try done.
    - intros r Hin. rewrite lookup_delete_ne; [by apply Hact|]. intros Heq. apply Hout.
      unfold holders. apply elem_of_app. left. apply list_elem_of_fmap. by exists r.
    - rewrite Hhist. rewrite <- (map_to_list_delete m _ rt Hrt). cbn. solve_Permutation.
    - by apply map_Forall_delete. }
  destruct (_ && _); apply Hh; done.
Qed.

(** Polling and killing keep the queue of tasks. *)
Lemma drain_total opts reqs s : Forall known reqs ->
  exists s', foldM (handle_kill opts) s reqs = Ret s'.
Proof.
  intros Hk. destruct (foldM_total (fun _ => True) (handle_kill opts) reqs s) as (s' & E & _);
    [|done|by exists s'].
  intros r [signal after] Hin _. rewrite Forall_forall in Hk. specialize (Hk r Hin).
  unfold known, handle_kill in *. destruct (kr_method r); by eauto.
Qed.

Lemma callback_total st pid : Forall known (queue_ st) -> 1 < pid ->
  exists st' sent res, asyncSubprocessCallback st pid = Ret (st', sent, res) /\ queue_ st' = [].
Proof.
  intros Hk Hpid. unfold asyncSubprocessCallback.
  destruct (if 0 <? killAfterTicks_ st then _ else _) as [signal after].
  destruct (drain_total (opts_ st) (queue_ st) (signal, after) Hk) as ([s a] & ->).
  cbn [mbind outcome_bind].
  rewrite (CHECK_true (1 <? pid)) by (by apply Z.ltb_lt). cbn [mbind outcome_bind].
  destruct (negb (s =? 0)); [by eauto|]. destruct (numPolls_ st - 1 <=? 0); by eauto.
Qed.

Lemma state_kill_known st req st' :
  state_kill st req = Ret st' -> Forall known (queue_ st) -> Forall known (queue_ st').
Proof.
  unfold state_kill. intros E Hk.
  destruct (kr_method req) eqn:Em; try done; case_bool_decide; try done; injection E as <-;
    apply Forall_app; (split; [done|]); apply Forall_singleton; unfold known; by rewrite Em.
Qed.

(** A queue of tasks that differs in the kill requests at most. *)
Definition same_queue (q q' : TaskQueue) : Prop :=
  (map_to_list q').*1 ≡ₚ (map_to_list q).*1 /\
  (map_Forall (fun _ st => Forall known (queue_ st)) q ->
   map_Forall (fun _ st => Forall known (queue_ st)) q').

Lemma tq_kill_same q rt req q' : tq_kill q rt req = Ret q' -> same_queue q q'.
Proof.
  unfold tq_kill. destruct (q !! inv rt) as [st|] eqn:Eq; [|done]. intros E. inv_ret.
  split; [by eapply keys_update|]. intros Hk. apply map_Forall_insert_2; [|done].
  eapply state_kill_known; [done|]. by apply (Hk (inv rt)).
Qed.

Lemma kill_round_same h : exists q, (kill_round h).1 = set_wh_tasks h q /\ same_queue (taskQueue_ h) q.
Proof.
  unfold kill_round. generalize (map snd (map_to_list (wh_runningTasks h))) as l. intros l.
  assert (H : forall s, same_queue s.1 (foldl kill_one s l).1).
  { induction l as [|rt l IH]; intros [q n]; cbn; [done|].
    destruct (IH (kill_one (q, n) rt)) as [H1 H2]. cbn in H1, H2.
    destruct (tq_kill q rt _) as [q'| | |] eqn:E; cbn in *; [|by split..].
    destruct (tq_kill_same _ _ _ _ E) as [H3 H4].
    split; [by rewrite H1|]. intros Hk. by apply H2, H4. }
  specialize (H (taskQueue_ h, 0%nat)). destruct (foldl _ _ _) as [q n]. by exists q.
Qed.

(** ** All interleavings *)

Definition event_call (e : Event) : list (Z * Z * string * string) :=
  match e with EvRunTask c _ _ => [inv (c_rt c)] | _ => [] end.

(** What the environment promises: a scheduler's responses belong to it, and a
    process has a PID. *)
Definition event_ok (e : Event) : Prop :=
  match e with
  | EvHeartbeat res _ => response_ok res
  | EvPoll _ pid => 1 < pid
  | _ => True
  end.

(** The invariant of all interleavings, with the invocations that are still to
    come. *)
Definition world_ok (future : list (Z * Z * string * string)) (w : World) : Prop :=
  tracked w /\ fresh_calls w future /\ associated (wd_handler w).

Lemma fresh_weaken w e l : fresh_calls w (event_call e ++ l) -> fresh_calls w l.
Proof. unfold fresh_calls. rewrite <- app_assoc. intros H. by apply NoDup_app in H as (_ & _ & ?). Qed.

Ltac keep_ok Ht Hf Ha := split; [same_tracked|split; [exact Hf|exact Ha]].

(** The calls of the scheduler. *)
Lemma exec_call w c scheduler worker l :
  world_ok (inv (c_rt c) :: l) w ->
  exists w', exec w (EvRunTask c scheduler worker) = Ret w' /\ world_ok l w'.
Proof.
  intros (Ht & Hf & Ha). cbn [exec].
  destruct (runTask_checks_spec (wd_handler w) (c_rt c) scheduler worker)
    as [[[u ->] _]|[[msg ->] _]]; cbn [attempt]; eexists; (split; [reflexivity|]).
  - destruct (cgroups_same (wd_handler w) (c_rt c) (c_opts c)) as [(_ & E2 & E3 & E4 & _) [_ E7]].
    split; [|split].
    + eapply tracked_same; [exact Ht|..]; cbn; done.
    + unfold fresh_calls in *. cbn. rewrite map_app. cbn.
      eapply NoDup_Permutation_proper; [|exact Hf]. solve_Permutation.
    + unfold associated. cbn. by rewrite E7.
  - split; [done|]. split; [|done]. by apply NoDup_cons in Hf as [_ ?].
Qed.

Lemma exec_mark w i l :
  world_ok l w -> exists w', exec w (EvMark i) = Ret w' /\ world_ok l w'.
Proof.
  intros (Ht & Hf & Ha). cbn [exec].
  destruct (wd_calls w !! i) as [c|] eqn:Ei; [|by exists w].
  set (w1 := mkWorld _ _ _ _ _ _ _ _ _ _).
  assert (Hf1 : NoDup (inv (c_rt c) :: l ++ map (fun c => inv (c_rt c)) (delete i (wd_calls w))
                       ++ wd_started w)).
  { eapply NoDup_Permutation_proper; [|exact Hf]. symmetry.
    pose proof (map_perm (fun c => inv (c_rt c)) _ _ (delete_split _ _ _ Ei)) as Hp. cbn in Hp.
    rewrite Hp. solve_Permutation. }
  pose proof (mark_spec (wd_handler w) (c_rt c) (c_seq c)) as Hm.
  assert (Ht1 : tracked w1) by (subst w1; same_tracked).
  apply NoDup_cons in Hf1 as [Hnew Hf1].
  assert (Hfresh : inv (c_rt c) ∉ wd_started w1) by (subst w1; cbn; set_solver).
  destruct (runTask_mark (wd_handler w) (c_rt c) (c_seq c)) as [h'|msg|msg|msg] eqn:Em;
    cbn [attempt].
  - eexists. split; [reflexivity|]. split; [by apply (tracked_mark w1 c h')|]. split.
    + unfold fresh_calls; cbn. eapply NoDup_Permutation_proper;
        [|apply NoDup_cons; split; [exact Hnew|exact Hf1]]. solve_Permutation.
    + destruct Hm as (-> & _). exact Ha.
  - exists w1. split; [done|]. split; [done|]. split; [|exact Ha].
    unfold fresh_calls; cbn. exact Hf1.
  - destruct Hm as (_ & old & Hold & Hinv). exfalso. apply Hfresh.
    assert (E : inv old = inv (c_rt c)).
    { apply inv_invocation; [|done]. symmetry. by apply (tr_keys w Ht). }
    rewrite <- E. by eapply (running_started w1).
  - done.
Qed.

(** The task that [runTask] marked is not in the queue of tasks yet. *)
Lemma marked_not_queued w i c :
  tracked w -> wd_marked w !! i = Some c -> taskQueue_ (wd_handler w) !! inv (c_rt c) = None.
Proof.
  intros Ht Hi. apply eq_None_not_Some. intros Hs. apply elem_keys in Hs.
  rewrite (tr_tasks w Ht) in Hs. pose proof (tr_invs w Ht) as Hn.
  rewrite map_app in Hn. apply NoDup_app in Hn as (_ & Hdis & _).
  apply (Hdis (inv (c_rt c))); [|done].
  apply list_elem_of_fmap. exists (c_rt c). split; [done|].
  apply list_elem_of_fmap. exists c. split; [done|]. by eapply list_elem_of_lookup_2.
Qed.

Lemma exec_start w i l :
  world_ok l w -> exists w', exec w (EvStart i) = Ret w' /\ world_ok l w'.
Proof.
  intros (Ht & Hf & Ha). cbn [exec]. destruct (wd_marked w !! i) as [c|] eqn:Ei; [|by exists w].
  pose proof (marked_not_queued w i c Ht Ei) as Hq.
  assert (E : runTask_start (wd_handler w) (c_rt c) (c_opts c)
              = Ret (set_wh_tasks (wd_handler w)
                       (<[inv (c_rt c) := newTaskState (c_opts c)]> (taskQueue_ (wd_handler w)))))
    by (unfold runTask_start, tq_runTask; by rewrite Hq).
  rewrite E. cbn [attempt]. eexists. split; [reflexivity|].
  split; [exact (tracked_start w i c _ Ht Ei E)|]. by split.
Qed.

Lemma exec_poll w i pid l :
  world_ok l w -> 1 < pid -> exists w', exec w (EvPoll i pid) = Ret w' /\ world_ok l w'.
Proof.
  intros (Ht & Hf & Ha) Hpid. cbn [exec].
  destruct (wd_threads w !! i) as [rt|] eqn:Ei; [|by exists w].
  destruct (taskQueue_ (wd_handler w) !! inv rt) as [st|] eqn:Eq; [|by exists w].
  destruct (callback_total st pid) as (st' & sent & res & -> & Hq);
    [by apply (tr_known w Ht (inv rt))|done|]. cbn [mbind outcome_bind].
  assert (E : (if res then resource_cob (wd_handler w) rt else Ret tt) = Ret tt).
  { destruct res; [|done]. apply CHECK_true, bool_decide_eq_true_2. eexists. apply (tr_active w Ht).
    unfold active. apply list_elem_of_lookup_2 in Ei. set_solver. }
  rewrite E. cbn [mbind outcome_bind]. eexists. split; [reflexivity|].
  split; [|by split]. apply tracked_task_update; [done|by eapply keys_update|].
  apply map_Forall_insert_2; [by rewrite Hq|]. apply (tr_known w Ht).
Qed.

(** The events of the threads that supervise the tasks. *)
Lemma exec_thread w e l :
  world_ok l w ->
  (exists i status, e = EvExit i status) \/ (exists i, e = EvErase i) \/ (exists i, e = EvFailed i)
  \/ (exists i status, e = EvFailedStatus i status) ->
  exists w', exec w e = Ret w' /\ world_ok l w'.
Proof.
  intros (Ht & Hf & Ha) [(i & status & ->)|[[i ->]|[[i ->]|(i & status & ->)]]]; cbn [exec].
  - destruct (wd_threads w !! i) as [rt|] eqn:Ei; [|by exists w].
    eexists. split; [reflexivity|]. split; [by apply tracked_exit|by split].
  - destruct (wd_ending w !! i) as [rt|] eqn:Ei; [|by exists w].
    rewrite erase_ret; [|apply (thread_task w); [done|]; apply list_elem_of_lookup_2 in Ei; set_solver].
    eexists. split; [reflexivity|]. split; [by apply tracked_erase|by split].
  - destruct (wd_threads w !! i) as [rt|] eqn:Ei; [|by exists w].
    rewrite erase_ret; [|apply (thread_task w); [done|]; apply list_elem_of_lookup_2 in Ei; set_solver].
    eexists. split; [reflexivity|]. split; [by apply tracked_failed|by split].
  - destruct (wd_failing w !! i) as [rt|] eqn:Ei; [|by exists w].
    eexists. split; [reflexivity|]. split; [by apply tracked_failed_status|by split].
Qed.

(** The events of [notifyFinished]. *)
Lemma exec_notify w e l :
  world_ok l w -> e = EvSend \/ e = EvAck \/ e = EvNack ->
  exists w', exec w e = Ret w' /\ world_ok l w'.
Proof.
  intros (Ht & Hf & Ha) [->|[->| ->]]; cbn [exec];
    destruct (wd_sending w) as [[nd rt]|] eqn:Es; try (by exists w).
  - destruct (tracked_send w Ht Es) as [[_ ->]|(h' & nd & update & -> & Eh & Ht')];
      cbn [mbind outcome_bind]; [by exists w|]. eexists. split; [reflexivity|].
    split; [done|]. split; [done|]. unfold associated; cbn. by rewrite Eh.
  - destruct (tracked_ack w nd rt Ht Es) as (h' & -> & Eh & Ht'). cbn [mbind outcome_bind].
    eexists. split; [reflexivity|]. split; [done|]. split; [done|].
    unfold associated; cbn. by rewrite Eh.
  - eexists. split; [reflexivity|]. split; [by eapply tracked_nack|by split].
Qed.

(** The handler changes but not its tasks. *)
Lemma ok_handler w h l :
  world_ok l w -> wh_runningTasks h = wh_runningTasks (wd_handler w) ->
  taskQueue_ h = taskQueue_ (wd_handler w) ->
  notifyFinishedQueue_ h = notifyFinishedQueue_ (wd_handler w) ->
  associated h -> world_ok l (set_handler w h).
Proof.
  intros (Ht & Hf & Ha) E1 E2 E3 Hh. split; [|by split].
  eapply tracked_same; [exact Ht|..]; cbn; done.
Qed.

Lemma exec_heartbeat w res now l :
  world_ok l w -> response_ok res ->
  exists w', exec w (EvHeartbeat res now) = Ret w' /\ world_ok l w'.
Proof.
  intros Hw Hr. pose proof Hw as (Ht & Hf & Ha). cbn [exec].
  destruct (committingSuicide_ (wd_handler w)); [by exists w|].
  destruct (decide (bw_protocolVersion (wh_worker (wd_handler w))
                    = hr_protocolVersion (ss_response res))) as [E|E].
  - destruct (heartbeat_answered _ res now Ha Hr E) as (h' & -> & Ha' & (_ & E1 & E2 & E3 & _) & _).
    cbn [attempt]. eexists. split; [reflexivity|]. by apply ok_handler.
  - destruct (heartbeat_refused (wd_handler w) (schedulerState_ (wd_handler w)) res now E)
      as [msg ->]. by exists w.
Qed.

Lemma healthcheck_same h now :
  wh_runningTasks (healthcheck h now) = wh_runningTasks h /\
  taskQueue_ (healthcheck h now) = taskQueue_ h /\
  notifyFinishedQueue_ (healthcheck h now) = notifyFinishedQueue_ h /\
  schedulerState_ (healthcheck h now) = schedulerState_ h.
Proof. unfold healthcheck. destruct (committingSuicide_ h); [done|]. by case_bool_decide. Qed.

Lemma ok_queue w q l :
  world_ok l w -> same_queue (taskQueue_ (wd_handler w)) q ->
  world_ok l (set_handler w (set_wh_tasks (wd_handler w) q)).
Proof.
  intros (Ht & Hf & Ha) [Hq Hk]. split; [|by split].
  apply tracked_task_update; [done|done|]. apply Hk, (tr_known w Ht).
Qed.

(** The other calls of the scheduler, and [killTasksAndStop]. *)
Lemma exec_other w e l :
  world_ok l w ->
  (exists rts s k n, e = EvNotify rts s k n) \/ (exists s k, e = EvSuicide s k) \/
  (exists rt s k req, e = EvKill rt s k req) \/ e = EvKillRound ->
  exists w', exec w e = Ret w' /\ world_ok l w'.
Proof.
  intros Hw [(rts & s & k & n & ->)|[(s & k & ->)|[(rt & s & k & req & ->)| ->]]]; cbn [exec].
  - destruct (notifyIfTasksNotRunning _ _ _ _ _) as [h'|msg|msg|msg] eqn:E; cbn [attempt];
      [|by exists w|exfalso|exfalso];
      unfold notifyIfTasksNotRunning, throwOnInstanceIDMismatch, require, notify_locked in E;
      destruct (_ && _); try done; cbn in E; destruct (n <=? _); try done; cbn in E.
    injection E as <-. eexists. split; [reflexivity|]. apply ok_handler; [done..|]. apply Hw.
  - unfold wh_requestSuicide, throwIfSuicidal, throwOnInstanceIDMismatch, require.
    destruct (negb _); cbn; [|by exists w]. destruct (_ && _); cbn; [|by exists w].
    eexists. split; [reflexivity|]. apply ok_handler; [done..|]. apply Hw.
  - unfold wh_killTask, throwIfSuicidal, throwOnInstanceIDMismatch, require.
    destruct (negb _); cbn; [|by exists w]. destruct (_ && _); cbn; [|by exists w].
    destruct (tq_kill (taskQueue_ (wd_handler w)) rt req) as [q|msg|msg|msg] eqn:E; cbn.
    + eexists. split; [reflexivity|]. by eapply ok_queue, tq_kill_same.
    + by exists w.
    + exfalso. unfold tq_kill, state_kill in E. destruct (_ !! _); [|done].
      destruct (kr_method req); try done; case_bool_decide; done.
    + exfalso. unfold tq_kill, state_kill in E. destruct (_ !! _); [|done].
      destruct (kr_method req); try done; case_bool_decide; done.
  - destruct (kill_round_same (set_suicide (wd_handler w))) as (q & -> & Hq).
    eexists. split; [reflexivity|].
    apply (ok_queue (set_handler w (set_suicide (wd_handler w)))); [|done].
    apply ok_handler; [done..|]. apply Hw.
Qed.

Lemma exec_ok w e l :
  world_ok (event_call e ++ l) w -> event_ok e ->
  exists w', exec w e = Ret w' /\ world_ok l w'.
Proof.
  intros Hw He.
  assert (Hw' : world_ok l w) by (destruct Hw as (? & Hf & ?); split; [done|];
    split; [by eapply fresh_weaken|done]).
  destruct e; try (by apply exec_thread; eauto 10); try (by apply exec_notify; auto);
    try (by apply exec_other; eauto 10).
  - by apply exec_call.
  - by apply exec_mark.
  - by apply exec_start.
  - by apply exec_poll.
  - cbn [exec]. destruct (wd_sendingNR w); [by exists w|]. unfold notifyNotRunning_read.
    destruct (notifyNotRunningQueue_ (wd_handler w)); [by exists w|].
    eexists. split; [reflexivity|]. destruct Hw' as (Ht & Hf & Ha).
    split; [same_tracked|by split].
  - eexists. split; [reflexivity|]. destruct Hw' as (Ht & Hf & Ha).
    split; [same_tracked|by split].
  - cbn [exec]. destruct (wd_sendingNR w); [|by exists w].
    eexists. split; [reflexivity|]. destruct Hw' as (Ht & Hf & Ha).
    split; [same_tracked|by split].
  - by apply exec_heartbeat.
  - cbn [exec]. eexists. split; [reflexivity|].
    destruct (healthcheck_same (wd_handler w) now) as (E1 & E2 & E3 & E4).
    apply ok_handler; [done..|]. unfold associated. rewrite E4. apply Hw'.
Qed.

Lemma run_ok trace w l :
  world_ok (flat_map event_call trace ++ l) w -> Forall event_ok trace ->
  exists w', run w trace = Ret w' /\ world_ok l w'.
Proof.
  revert w. induction trace as [|e trace IH]; intros w Hw He; [by exists w|].
  apply Forall_cons in He as [He Hes]. cbn in Hw. rewrite <- app_assoc in Hw.
  destruct (exec_ok w e _ Hw He) as (w1 & E & Hw1). unfold run in *. cbn [foldM]. rewrite E.
  cbn [mbind outcome_bind]. by apply IH.
Qed.

(** C4: Whatever the calls of the scheduler, the replies, the healthchecks and
    the threads that supervise the tasks do, and in whatever order: if no
    invocation of a task is sent twice, no check of the worker fails.  Each task
    that is marked as running is at exactly one place -- about to be started,
    supervised by a thread, failing, queued for its report, or being reported --
    and each task the worker ever took is either still marked as running or its
    status was acknowledged by the scheduler, and not both.  No task is in the
    queue of subprocesses without the thread that will remove it. *)
Theorem worker_tracks_tasks worker trace :
  NoDup (flat_map event_call trace) -> Forall event_ok trace ->
  exists w, run (newWorld worker) trace = Ret w /\
    (map_to_list (wh_runningTasks (wd_handler w))).*1 ≡ₚ holders w /\ NoDup (holders w) /\
    wd_started w
      ≡ₚ map (fun p => inv p.2) (map_to_list (wh_runningTasks (wd_handler w))) ++ wd_acked w /\
    NoDup (wd_started w) /\
    (map_to_list (taskQueue_ (wd_handler w))).*1 ≡ₚ map inv (wd_threads w ++ wd_ending w).
Proof.
  intros Hn He. destruct (run_ok trace (newWorld worker) []) as (w & E & Ht & Hf & _); [|done|].
  { split; [apply tracked_new|]. split; [|apply associated_new].
    unfold fresh_calls; cbn. by rewrite !app_nil_r. }
  exists w. split; [done|]. split; [apply (tr_held w Ht)|]. split; [by apply held_nodup|].
  split; [apply (tr_history w Ht)|]. split; [|apply (tr_tasks w Ht)].
  unfold fresh_calls in Hf. cbn in Hf. by apply NoDup_app in Hf as (_ & _ & ?).
Qed.

Definition sample_worker_rt (invocation : Z) : RunningTask :=
  mkRunningTask "job" "node" [] "host" (mkInstanceID invocation 9) (mkBackoffDuration false 60) 5000.
Definition sample_call (invocation : Z) : Call :=
  mkCall (sample_worker_rt invocation) 0 defaultSubprocessOptions.

(** A task is accepted twice, started once, exits and is reported. *)
Definition sample_trace : list Event :=
  let s := mkInstanceID 5 7 in
  let k := mkInstanceID 1000 42 in
  [EvHeartbeat (sample_response 5 3 HEALTHY) 1010; EvRunTask (sample_call 1) s k;
   EvRunTask (sample_call 2) s k; EvMark 0; EvMark 0; EvStart 0; EvPoll 0 77;
   EvExit 0 (done_at 1020); EvSend; EvNack; EvErase 0; EvSend; EvAck].

Lemma worker_tracks_tasks_witness :
  exists w, run (newWorld (wh_worker sample_handler)) sample_trace = Ret w /\
    NoDup (holders w) /\ wd_acked w = [(1, 9, "job", "node")].
Proof.
  destruct (worker_tracks_tasks (wh_worker sample_handler) sample_trace) as (w & E & _ & Hn & _).
  - by apply (bool_decide_unpack _); vm_compute.
  - unfold sample_trace. rewrite !Forall_cons, Forall_nil. cbn.
    split; [apply sample_response_ok; lia|]. repeat (split; [done || lia|]). done.
  - exists w. split; [exact E|]. split; [exact Hn|].
    vm_compute in E. injection E as <-. reflexivity.
Defined.
