(* ===== verification/WorkerProtocol.v ===== *)
(** The scheduler's [RemoteWorker] and the worker's handler, connected by a
    network that delays, reorders and loses requests: how a task whose
    [runTask] failed for the scheduler is found to be not running.

    The scheduler numbers its [notifyIfTasksNotRunning] calls and sends the
    current number along with every [runTask]; the worker refuses a [runTask]
    whose number is older than the last check it answered. *)

From stdpp Require Import base gmap strings list relations.
From Stdlib Require Import ZArith Lia.
From S2P Require Import Prelude Thrift WorkerSet Dynamic Backoff TaskStatus.
From S2P Require Import WorkerState RemoteWorker Subprocess Runner Worker WorkerTasks.

(** ** Both ends and what is in between *)

Record Net := mkNet {
  n_sched : RemoteWorker;                   (* the scheduler's view of the worker *)
  n_world : World;                          (* the worker *)
  n_runs : list Call;                       (* runTask calls in flight *)
  n_checks : list (list RunningTask * Z);   (* notifyIfTasksNotRunning in flight *)
  n_sent : list (Z * Z * string * string);  (* history: all tasks sent *)
  n_reported : list (RunningTask * Z)       (* history: reported as not running *)
}.

Definition sched_seq (rw : RemoteWorker) : Z :=
  notifyIfTasksNotRunningSequenceNum_ (rw_state rw).
Definition worker_seq (w : World) : Z :=
  notifyIfTasksNotRunningSequenceNum_ (wh_state (wd_handler w)).

(** The worker has just met a scheduler instance. *)
Definition newNet (rw : RemoteWorker) (w : World) : Net := mkNet rw w [] [] [] [].

(** The events that concern the worker alone, or a heartbeat response of the
    same scheduler instance. *)
Definition local_event (w : World) (e : Event) : Prop :=
  match e with
  | EvRunTask _ _ _ | EvNotify _ _ _ _ => False
  | EvHeartbeat res _ => ss_id res = ss_id (schedulerState_ (wd_handler w)) /\ response_ok res
  | _ => True
  end.

Inductive nstep : Net -> Net -> Prop :=
(** the scheduler sends a task, with its current number *)
| ns_run rw w runs checks sent rep rt opts :
    makeInvocationID rt ∉ sent ->
    nstep (mkNet rw w runs checks sent rep)
          (mkNet rw w (runs ++ [mkCall rt (sched_seq rw) opts]) checks
             (makeInvocationID rt :: sent) rep)
(** the scheduler asks about tasks that it has sent *)
| ns_check rw w runs checks sent rep rts rw' n :
    (forall rt, rt ∈ rts -> makeInvocationID rt ∈ sent /\ isHealthcheck rt = false) ->
    calledNotifyIfTasksNotRunning rw = (rw', n) ->
    nstep (mkNet rw w runs checks sent rep) (mkNet rw' w runs (checks ++ [(rts, n)]) sent rep)
(** the worker receives a task *)
| ns_deliver_run rw w runs checks sent rep i c scheduler worker w' :
    runs !! i = Some c -> exec w (EvRunTask c scheduler worker) = Ret w' ->
    nstep (mkNet rw w runs checks sent rep) (mkNet rw w' (delete i runs) checks sent rep)
(** the worker receives a question and queues its answers *)
| ns_deliver_check rw w runs checks sent rep i rts n scheduler worker h' :
    checks !! i = Some (rts, n) ->
    notifyIfTasksNotRunning (wd_handler w) rts scheduler worker n = Ret h' ->
    nstep (mkNet rw w runs checks sent rep)
          (mkNet rw (set_handler w h') runs (delete i checks) sent
             (rep ++ map (fun rt => (rt, n))
                (drop (length (notifyNotRunningQueue_ (wd_handler w))) (notifyNotRunningQueue_ h'))))
(** a request gets lost, or the worker refuses it *)
| ns_lose_run rw w runs checks sent rep i :
    nstep (mkNet rw w runs checks sent rep) (mkNet rw w (delete i runs) checks sent rep)
| ns_lose_check rw w runs checks sent rep i :
    nstep (mkNet rw w runs checks sent rep) (mkNet rw w runs (delete i checks) sent rep)
| ns_worker rw w runs checks sent rep e w' :
    local_event w e -> exec w e = Ret w' ->
    nstep (mkNet rw w runs checks sent rep) (mkNet rw w' runs checks sent rep).

(** ** The invariant *)

(** The calls that could still start a task. *)
Definition pending (x : Net) : list Call := n_runs x ++ wd_calls (n_world x).

(** The task was sent, and every call for it is older than number [n]. *)
Definition superseded (x : Net) (rt : RunningTask) (n : Z) : Prop :=
  makeInvocationID rt ∈ n_sent x /\ isHealthcheck rt = false /\
  forall c, c ∈ pending x -> makeInvocationID (c_rt c) = makeInvocationID rt -> c_seq c < n.

Record net_ok (x : Net) : Prop := {
  nk_checks : forall rts n, (rts, n) ∈ n_checks x ->
    forall rt, rt ∈ rts -> superseded x rt n;
  nk_reported : forall rt n, (rt, n) ∈ n_reported x ->
    superseded x rt n /\ n <= worker_seq (n_world x);
  nk_pending : forall c, c ∈ pending x ->
    makeInvocationID (c_rt c) ∈ n_sent x /\ c_seq c <= sched_seq (n_sched x);
  nk_assoc : associated (wd_handler (n_world x))
}.

Lemma newNet_ok rw w : associated (wd_handler w) -> wd_calls w = [] -> net_ok (newNet rw w).
Proof.
  intros Ha Hc. split; cbn; try (by intros ? ? ?%not_elem_of_nil); [|exact Ha].
  intros c Hin. unfold pending in Hin. cbn in Hin. rewrite Hc in Hin. by apply not_elem_of_nil in Hin.
Qed.

(** Fewer calls and more sent tasks keep the invariant. *)
Lemma superseded_mono x y rt n :
  superseded x rt n -> (forall i, i ∈ n_sent x -> i ∈ n_sent y) ->
  (forall c, c ∈ pending y -> c ∈ pending x) -> superseded y rt n.
Proof. intros (H1 & H2 & H3) Hs Hp. split; [by apply Hs|]. split; [done|]. eauto. Qed.

Lemma elem_delete {A} (l : list A) i (x : A) : x ∈ delete i l -> x ∈ l.
Proof.
  revert i. induction l as [|y l IH]; intros [|i]; cbn; intros H; [done|done|by right|].
  apply elem_of_cons in H as [->|H]; [by left|]. right. by eapply IH.
Qed.

(** What an event of the worker alone does not do: it keeps the number, makes
    no calls, and starts a task only through a call that is not older than the
    number. *)
Definition quiet (w w' : World) : Prop :=
  associated (wd_handler w') /\ worker_seq w' = worker_seq w /\
  (forall c, c ∈ wd_calls w' -> c ∈ wd_calls w) /\
  (forall i, i ∈ wd_started w' -> i ∈ wd_started w \/
     exists c, c ∈ wd_calls w /\ makeInvocationID (c_rt c) = i /\
       (isHealthcheck (c_rt c) = true \/ worker_seq w <= c_seq c)).

Lemma quiet_same w w' :
  associated (wd_handler w) ->
  schedulerState_ (wd_handler w') = schedulerState_ (wd_handler w) ->
  notifyIfTasksNotRunningSequenceNum_ (wh_state (wd_handler w'))
    = notifyIfTasksNotRunningSequenceNum_ (wh_state (wd_handler w)) ->
  wd_calls w' = wd_calls w -> wd_started w' = wd_started w -> quiet w w'.
Proof.
  intros Ha E1 E2 E3 E4. split; [unfold associated; by rewrite E1|].
  split; [exact E2|]. rewrite E3, E4. split; [done|]. by left.
Qed.

Lemma quiet_mark w i w' :
  associated (wd_handler w) -> exec w (EvMark i) = Ret w' -> quiet w w'.
Proof.
  intros Ha E. cbn [exec] in E. destruct (wd_calls w !! i) as [c|] eqn:Ei;
    [|injection E as <-; by apply quiet_same].
  pose proof (mark_spec (wd_handler w) (c_rt c) (c_seq c)) as Hm.
  destruct (runTask_mark _ _ _) as [h'|msg|msg|msg]; cbn [attempt] in E; try done;
    injection E as <-.
  - destruct Hm as (-> & _ & Hseq). split; [exact Ha|]. split; [done|]. cbn.
    split; [by intros c' ?%elem_delete|].
    intros j [->|Hj]%elem_of_cons; [right|by left].
    exists c. split; [by eapply list_elem_of_lookup_2|]. by split.
  - split; [exact Ha|]. split; [done|]. cbn. split; [by intros c' ?%elem_delete|]. by left.
Qed.

Lemma quiet_heartbeat w res now w' :
  associated (wd_handler w) -> ss_id res = ss_id (schedulerState_ (wd_handler w)) ->
  response_ok res -> exec w (EvHeartbeat res now) = Ret w' -> quiet w w'.
Proof.
  intros Ha Hid Hr E. cbn [exec] in E.
  destruct (committingSuicide_ _); [injection E as <-; by apply quiet_same|].
  destruct (decide (bw_protocolVersion (wh_worker (wd_handler w))
                    = hr_protocolVersion (ss_response res))) as [Ep|Ep].
  - destruct (heartbeat_answered _ res now Ha Hr Ep) as (h' & Eh & Ha' & _ & _ & _ & _ & H).
    rewrite Eh in E. cbn in E. injection E as <-. rewrite decide_True in H by done.
    destruct H as (_ & Hseq & _). split; [exact Ha'|]. split; [exact Hseq|]. split; [done|]. by left.
  - destruct (heartbeat_refused (wd_handler w) (schedulerState_ (wd_handler w)) res now Ep)
      as [msg Eh]. rewrite Eh in E. injection E as <-. by apply quiet_same.
Qed.

(** [h'] has the scheduler and the number of [h]. *)
Definition same_seq (h h' : BistroWorkerHandler) : Prop :=
  schedulerState_ h' = schedulerState_ h /\
  notifyIfTasksNotRunningSequenceNum_ (wh_state h')
    = notifyIfTasksNotRunningSequenceNum_ (wh_state h).

Lemma attempt_Ret {A} w (m : outcome A) f w' :
  attempt w m f = Ret w' -> w' = w \/ exists a, m = Ret a /\ w' = f a.
Proof. destruct m; cbn; intros [= <-]; [right; by eexists|by left]. Qed.

Lemma start_seq h rt opts h' : runTask_start h rt opts = Ret h' -> same_seq h h'.
Proof. unfold runTask_start. intros E. by inv_ret. Qed.
Lemma suicide_seq h s k h' : wh_requestSuicide h s k = Ret h' -> same_seq h h'.
Proof. unfold wh_requestSuicide. intros E. by inv_ret. Qed.
Lemma kill_seq h rt s k req h' : wh_killTask h rt s k req = Ret h' -> same_seq h h'.
Proof. unfold wh_killTask. intros E. by inv_ret. Qed.
Lemma kill_round_seq h : same_seq h (kill_round h).1.
Proof. unfold kill_round. by destruct (foldl _ _ _). Qed.
Lemma healthcheck_seq h now : same_seq h (healthcheck h now).
Proof. unfold healthcheck. destruct (committingSuicide_ h); [done|]. by case_bool_decide. Qed.
Lemma read_seq h h' nd su : notifyFinished_read h = Ret (Some (h', nd, su)) -> same_seq h h'.
Proof. unfold notifyFinished_read. intros E. repeat (case_match; try done). by simplify_eq/=. Qed.
Lemma ok_seq h nd rt h' : notifyFinished_ok h nd rt = Ret h' -> same_seq h h'.
Proof. unfold notifyFinished_ok. intros E. inv_ret. by destruct (_ && _). Qed.

Lemma local_event_quiet w e w' :
  associated (wd_handler w) -> local_event w e -> exec w e = Ret w' -> quiet w w'.
Proof.
  intros Ha Hl E.
  destruct e; try done; try (by eapply quiet_mark); try (destruct Hl; by eapply quiet_heartbeat);
    cbn [exec] in E.
  - destruct (wd_marked w !! i); [|injection E as <-; by apply quiet_same].
    apply attempt_Ret in E as [->|(h' & [E1 E2]%start_seq & ->)]; by apply quiet_same.
  - destruct (wd_threads w !! i); [|injection E as <-; by apply quiet_same].
    destruct (_ !! _); [|injection E as <-; by apply quiet_same].
    apply bind_Ret_iff in E as ([[st sent] res] & _ & E).
    apply bind_Ret_iff in E as (u & _ & E). injection E as <-. by apply quiet_same.
  - case_match; simplify_eq; by apply quiet_same.
  - case_match; inv_ret; by apply quiet_same.
  - case_match; inv_ret; by apply quiet_same.
  - case_match; simplify_eq; by apply quiet_same.
  - destruct (wd_sending w); [injection E as <-; by apply quiet_same|]. inv_ret.
    destruct r as [[[h' nd] su]|]; injection E as <-; [|by apply quiet_same].
    apply read_seq in E0 as [E1 E2]. by apply quiet_same.
  - destruct (wd_sending w) as [[nd rt]|]; [|injection E as <-; by apply quiet_same]. inv_ret.
    apply ok_seq in E0 as [E1 E2]. by apply quiet_same.
  - repeat case_match; simplify_eq; by apply quiet_same.
  - unfold notifyNotRunning_read in E. repeat case_match; simplify_eq; by apply quiet_same.
  - injection E as <-. by apply quiet_same.
  - repeat case_match; simplify_eq; by apply quiet_same.
  - injection E as <-. destruct (healthcheck_seq (wd_handler w) now) as [E1 E2].
    by apply quiet_same.
  - apply attempt_Ret in E as [->|(h' & [E1 E2]%suicide_seq & ->)]; by apply quiet_same.
  - apply attempt_Ret in E as [->|(h' & [E1 E2]%kill_seq & ->)]; by apply quiet_same.
  - injection E as <-. destruct (kill_round_seq (set_suicide (wd_handler w))) as [E1 E2].
    by apply quiet_same.
Qed.

(** ** Every step keeps it *)

(** The steps after which fewer calls are pending and the worker's number is
    not smaller. *)
Lemma net_ok_shrink x y :
  net_ok x -> (forall i, i ∈ n_sent x -> i ∈ n_sent y) ->
  (forall c, c ∈ pending y -> c ∈ pending x) ->
  (forall p, p ∈ n_checks y -> p ∈ n_checks x) -> n_reported y = n_reported x ->
  worker_seq (n_world x) <= worker_seq (n_world y) -> n_sched y = n_sched x ->
  associated (wd_handler (n_world y)) -> net_ok y.
Proof.
  intros [Hc Hr Hp Ha] Hs Hpend Hch Hrep Hseq Hsc Has. split; [..|exact Has].
  - intros rts n Hin rt Hrt. eapply superseded_mono; [|done..]. by eapply Hc; [apply Hch|].
  - intros rt n Hin. rewrite Hrep in Hin. destruct (Hr rt n Hin) as [Hsup Hn].
    split; [|lia]. by eapply superseded_mono.
  - intros c Hin. rewrite Hsc. destruct (Hp c (Hpend c Hin)) as [H1 H2]. split; [by apply Hs|done].
Qed.

Lemma deliver_run_spec w c s k w' :
  exec w (EvRunTask c s k) = Ret w' ->
  worker_seq w' = worker_seq w /\ wd_started w' = wd_started w /\
  schedulerState_ (wd_handler w') = schedulerState_ (wd_handler w) /\
  (forall c', c' ∈ wd_calls w' -> c' = c \/ c' ∈ wd_calls w).
Proof.
  cbn [exec]. intros E. apply attempt_Ret in E as [->|(u & _ & ->)]; [naive_solver|].
  destruct (cgroups_same (wd_handler w) (c_rt c) (c_opts c)) as [_ [E6 E7]].
  unfold worker_seq; cbn. rewrite E6, E7. repeat (split; [done|]).
  intros c'. rewrite elem_of_app, list_elem_of_singleton. naive_solver.
Qed.

Lemma deliver_check_spec h rts s k n h' :
  notifyIfTasksNotRunning h rts s k n = Ret h' ->
  notifyIfTasksNotRunningSequenceNum_ (wh_state h) < n /\
  notifyIfTasksNotRunningSequenceNum_ (wh_state h') = n /\
  schedulerState_ h' = schedulerState_ h /\
  drop (length (notifyNotRunningQueue_ h)) (notifyNotRunningQueue_ h')
    = List.filter (fun rt => bool_decide (wh_runningTasks h !! task_id_of rt = None)) rts.
Proof.
  unfold notifyIfTasksNotRunning, notify_locked. intros E. inv_ret.
  destruct (Z.leb_spec n (notifyIfTasksNotRunningSequenceNum_ (wh_state h))) as [|Hn]; [done|].
  cbn in E. inv_ret. cbn. repeat (split; [done|]). by rewrite drop_app_length.
Qed.

Lemma run_step_ok rw w runs checks sent rep rt opts :
  net_ok (mkNet rw w runs checks sent rep) -> makeInvocationID rt ∉ sent ->
  net_ok (mkNet rw w (runs ++ [mkCall rt (sched_seq rw) opts]) checks (makeInvocationID rt :: sent) rep).
Proof.
  intros [Hc Hr Hp Ha] Hnew.
  assert (Hpend : forall c, c ∈ pending (mkNet rw w (runs ++ [mkCall rt (sched_seq rw) opts]) checks
      (makeInvocationID rt :: sent) rep) ->
    c = mkCall rt (sched_seq rw) opts \/ c ∈ pending (mkNet rw w runs checks sent rep))
    by (unfold pending; cbn; set_solver).
  assert (Hsup : forall r n, superseded (mkNet rw w runs checks sent rep) r n ->
    superseded (mkNet rw w (runs ++ [mkCall rt (sched_seq rw) opts]) checks
      (makeInvocationID rt :: sent) rep) r n).
  { intros r n (H1 & H2 & H3). split; [by right|]. split; [done|].
    intros c Hin Ei. apply Hpend in Hin as [->|Hin]; [|by apply H3].
    exfalso. apply Hnew. cbn in Ei. by rewrite Ei. }
  split; [..|exact Ha].
  - intros rts n Hin r Hrt. by eapply Hsup, Hc.
  - intros r n Hin. destruct (Hr r n Hin) as [H1 H2]. split; [by apply Hsup|done].
  - intros c Hin. apply Hpend in Hin as [->|Hin]; cbn; [split; [by left|lia]|].
    destruct (Hp c Hin) as [H1 H2]. split; [by right|done].
Qed.

Lemma check_step_ok rw w runs checks sent rep rts :
  net_ok (mkNet rw w runs checks sent rep) ->
  (forall rt, rt ∈ rts -> makeInvocationID rt ∈ sent /\ isHealthcheck rt = false) ->
  net_ok (mkNet (calledNotifyIfTasksNotRunning rw).1 w runs
            (checks ++ [(rts, (calledNotifyIfTasksNotRunning rw).2)]) sent rep).
Proof.
  intros [Hc Hr Hp Ha] Hrts. split; [..|exact Ha].
  - intros rts' n Hin rt Hrt. cbn in Hin.
    apply elem_of_app in Hin as [Hin|Hin%list_elem_of_singleton]; [by eapply Hc|].
    injection Hin as -> ->. destruct (Hrts rt Hrt) as [H1 H2]. split; [done|]. split; [done|].
    intros c Hin _. destruct (Hp c Hin) as [_ Hle]. cbn in *. unfold sched_seq in Hle. lia.
  - exact Hr.
  - intros c Hin. destruct (Hp c Hin) as [H1 H2]. split; [done|]. cbn in *.
    unfold sched_seq in *. cbn. lia.
Qed.

Lemma answer_step_ok rw w runs checks sent rep i rts n s k h' :
  net_ok (mkNet rw w runs checks sent rep) -> checks !! i = Some (rts, n) ->
  notifyIfTasksNotRunning (wd_handler w) rts s k n = Ret h' ->
  net_ok (mkNet rw (set_handler w h') runs (delete i checks) sent
    (rep ++ map (fun rt => (rt, n))
       (drop (length (notifyNotRunningQueue_ (wd_handler w))) (notifyNotRunningQueue_ h')))).
Proof.
  intros [Hc Hr Hp Ha] Hi E. apply deliver_check_spec in E as (Hlt & Hn & Hs & ->).
  split.
  - intros rts' n' Hin rt Hrt. cbn in Hin. apply elem_delete in Hin. by apply (Hc rts' n').
  - intros rt n' Hin. cbn [n_reported] in Hin. unfold worker_seq; cbn [n_world set_handler wd_handler].
    rewrite Hn. apply elem_of_app in Hin as [Hin|Hin].
    + destruct (Hr rt n' Hin) as [H1 H2]. split; [exact H1|]. unfold worker_seq in H2; cbn in H2. lia.
    + apply list_elem_of_fmap in Hin as (rt' & [= -> ->] & Hin). split; [|lia].
      apply (Hc rts n); [by eapply list_elem_of_lookup_2|].
      apply list_elem_of_In in Hin. apply filter_In in Hin as [Hin _]. by apply list_elem_of_In.
  - exact Hp.
  - cbn in Ha |- *. unfold associated in *. by rewrite Hs.
Qed.

(** A reported task stays reported and is not started any more. *)
Definition settled (x y : Net) : Prop :=
  forall rt n, (rt, n) ∈ n_reported x -> (rt, n) ∈ n_reported y /\
    (makeInvocationID rt ∈ wd_started (n_world y) -> makeInvocationID rt ∈ wd_started (n_world x)).

Lemma worker_step_settled rw w runs checks sent rep w' :
  net_ok (mkNet rw w runs checks sent rep) -> quiet w w' ->
  settled (mkNet rw w runs checks sent rep) (mkNet rw w' runs checks sent rep).
Proof.
  intros Hok (_ & _ & _ & Hst) rt n Hin. split; [done|]. cbn. intros Hs.
  destruct (Hst _ Hs) as [?|(c & Hc & Ei & Hseq)]; [done|]. exfalso.
  destruct (nk_reported _ Hok rt n Hin) as [(_ & Hh & Hsup) Hn]. cbn in Hn.
  assert (Hlt : c_seq c < n) by (apply Hsup; [unfold pending; cbn; set_solver|done]).
  destruct Hseq as [Hhc|Hseq]; [|lia].
  apply inv_id in Ei. assert (Ej : rt_job (c_rt c) = rt_job rt) by (unfold task_id_of in Ei; congruence).
  unfold isHealthcheck in *. by rewrite Ej, Hh in Hhc.
Qed.

Lemma nstep_ok x y : net_ok x -> nstep x y -> net_ok y /\ settled x y.
Proof.
  intros Hok Hstep. destruct Hstep as
    [rw w runs checks sent rep rt opts Hnew|rw w runs checks sent rep rts rw' n Hrts E
    |rw w runs checks sent rep i c s k w' Hi E|rw w runs checks sent rep i rts n s k h' Hi E
    |rw w runs checks sent rep i|rw w runs checks sent rep i|rw w runs checks sent rep e w' Hl E].
  - split; [by apply run_step_ok|done].
  - injection E as <- <-. split; [by apply (check_step_ok rw)|done].
  - apply deliver_run_spec in E as (E1 & E2 & E3 & Hcalls). split; [|intros ? ? ?; cbn; by rewrite E2].
    pose proof (nk_assoc _ Hok) as Ha. cbn in Ha.
    eapply net_ok_shrink; [exact Hok|done| |done|done|cbn; lia|done|unfold associated; cbn; by rewrite E3].
    intros c' Hin. unfold pending in *; cbn in *.
    apply elem_of_app in Hin as [Hin%elem_delete|[->|Hin]%Hcalls]; [set_solver| |set_solver].
    apply elem_of_app. left. by eapply list_elem_of_lookup_2.
  - split; [by eapply answer_step_ok|]. intros rt m Hin. cbn. split; [set_solver|done].
  - split; [|done]. pose proof (nk_assoc _ Hok).
    eapply net_ok_shrink; [exact Hok|done| |done|done|done|done|done].
    intros c Hin. unfold pending in *; cbn in *.
    apply elem_of_app in Hin as [?%elem_delete|?]; set_solver.
  - split; [|done]. pose proof (nk_assoc _ Hok).
    eapply net_ok_shrink; [exact Hok|done|done| |done|done|done|done].
    by intros p ?%elem_delete.
  - pose proof (nk_assoc _ Hok) as Ha. cbn in Ha.
    pose proof (local_event_quiet w e w' Ha Hl E) as Hq. split; [|by apply worker_step_settled].
    destruct Hq as (Ha' & Hseq & Hcalls & _).
    eapply net_ok_shrink; [exact Hok|done| |done|done|cbn; lia|done|done].
    intros c Hin. unfold pending in *; cbn in *. apply elem_of_app in Hin as [?|?%Hcalls]; set_solver.
Qed.

Lemma nsteps_ok x y : net_ok x -> rtc nstep x y -> net_ok y /\ settled x y.
Proof.
  intros Hok Hxy. induction Hxy as [x|x y z Hs _ IH]; [done|].
  destruct (nstep_ok x y Hok Hs) as [Hy Hxy]. destruct (IH Hy) as [Hz Hyz]. split; [done|].
  intros rt n Hin. destruct (Hxy rt n Hin) as [H1 H2]. destruct (Hyz rt n H1) as [H3 H4]. auto.
Qed.

(** C5: A task that the worker reports as not running never starts afterwards.
    From the moment a worker without outstanding [runTask] calls belongs to a
    scheduler instance, in all interleavings of delayed, reordered and lost
    requests with everything else the worker does: once the worker has put a
    task into its "was not running" reports, that invocation is not started
    unless it had been before -- until the worker or the scheduler restarts. *)
Theorem not_running_never_starts rw w x y rt n :
  associated (wd_handler w) -> wd_calls w = [] ->
  rtc nstep (newNet rw w) x -> (rt, n) ∈ n_reported x -> rtc nstep x y ->
  makeInvocationID rt ∈ wd_started (n_world y) -> makeInvocationID rt ∈ wd_started (n_world x).
Proof.
  intros Ha Hc Hx Hin Hy. destruct (nsteps_ok _ _ (newNet_ok rw w Ha Hc) Hx) as [Hok _].
  destruct (nsteps_ok x y Hok Hy) as [_ Hset]. by apply (Hset rt n Hin).
Qed.

(** A worker that belongs to scheduler 5 and is healthy. *)
Definition sample_world : World :=
  match run (newWorld (wh_worker sample_handler))
          [EvHeartbeat (sample_response 5 3 HEALTHY) 1010] with
  | Ret w => w
  | _ => newWorld (wh_worker sample_handler)
  end.
Definition sample_rw : RemoteWorker :=
  freshWorker 1000 (wh_worker sample_handler) noWorkerSet (mkInstanceID 5 7).

(** The scheduler's [runTask] is delayed, its question overtakes it, and the
    worker refuses the task when it arrives. *)
Lemma not_running_never_starts_witness :
  exists x y, rtc nstep (newNet sample_rw sample_world) x /\ rtc nstep x y /\
    n_reported x = [(sample_worker_rt 1, 1)] /\ length (n_runs x) = 1%nat /\ n_runs y = [] /\
    makeInvocationID (sample_worker_rt 1) ∉ wd_started (n_world y).
Proof.
  pose (s := mkInstanceID 5 7). pose (k := mkInstanceID 1000 42).
  assert (Hx : exists x, rtc nstep (newNet sample_rw sample_world) x /\
    n_reported x = [(sample_worker_rt 1, 1)] /\ length (n_runs x) = 1%nat /\
    wd_started (n_world x) = [] /\ exists y, rtc nstep x y /\ n_runs y = []).
  { eexists. split.
    { eapply rtc_l; [eapply (ns_run _ _ _ _ _ _ (sample_worker_rt 1) defaultSubprocessOptions);
                     apply not_elem_of_nil|].
      eapply rtc_l; [eapply (ns_check _ _ _ _ _ _ [sample_worker_rt 1]); [|reflexivity];
                     intros rt ->%list_elem_of_singleton; split; [by left|reflexivity]|].
      eapply rtc_l; [eapply (ns_deliver_check _ _ _ _ _ _ 0 _ _ s k);
                     [reflexivity|vm_compute; reflexivity]|].
      apply rtc_refl. }
    split; [reflexivity|]. split; [reflexivity|]. split; [reflexivity|].
    eexists. split.
    { eapply rtc_l; [eapply (ns_deliver_run _ _ _ _ _ _ 0 _ s k);
                   [reflexivity|vm_compute; reflexivity]|].
    eapply rtc_l; [eapply (ns_worker _ _ _ _ _ _ (EvMark 0)); [done|vm_compute; reflexivity]|].
      apply rtc_refl. }
    reflexivity. }
  destruct Hx as (x & Hx & Hrep & Hruns & Hst & y & Hy & Hyr). exists x, y.
  repeat (split; [done|]). intros Hin.
  apply (not_running_never_starts sample_rw sample_world x y (sample_worker_rt 1) 1) in Hin;
    [by rewrite Hst in Hin; apply not_elem_of_nil in Hin| |reflexivity|done| |done].
  - split; [reflexivity|]. vm_compute. by split.
  - rewrite Hrep. by left.
Defined.

(** The first checks of [runTask] are made before it takes its locks, and a
    new scheduler instance resets the sequence number: a call of the old
    scheduler that has passed the checks starts its task after the worker has
    told the new scheduler, for which it is not even healthy, that it runs
    nothing. *)
Theorem stale_call_starts :
  exists w w' : World,
    run (newWorld (wh_worker sample_handler))
      [EvHeartbeat (sample_response 5 3 HEALTHY) 1010;
       EvRunTask (sample_call 1) (mkInstanceID 5 7) (mkInstanceID 1000 42);
       EvHeartbeat (sample_response 6 1 NEW) 1020] = Ret w /\
    ss_id (schedulerState_ (wd_handler w)) = mkInstanceID 6 7 /\
    state_ (wh_state (wd_handler w)) = NEW /\
    getRunningTasks (wd_handler w) (mkInstanceID 1000 42) = Ret [] /\
    run w [EvMark 0; EvStart 0] = Ret w' /\
    getRunningTasks (wd_handler w') (mkInstanceID 1000 42) = Ret [sample_worker_rt 1] /\
    wd_threads w' = [sample_worker_rt 1].
Proof.
  do 2 eexists. split; [vm_compute; reflexivity|].
  do 3 (split; [reflexivity|]). split; [vm_compute; reflexivity|]. split; reflexivity.
Qed.
