(* ===== verification/Pipes.v ===== *)
(** [processes/AsyncReadPipe.h] and [processes/AsyncReadPipeRateLimiter.{h,cpp}]:
    the life of a pipe that is read through an EventBase, and the quota of log
    lines that pauses and resumes the pipes of a task.

    The file descriptor and the registration with the EventBase are booleans;
    the read callback is any sequence of calls to the pipe that ends by
    returning or by throwing.  A promise that is fulfilled twice throws in a
    destructor, which ends the process. *)

From stdpp Require Import base gmap strings list.
From Stdlib Require Import ZArith Lia.
From S2P Require Import Prelude.

(** ** [AsyncReadPipe] *)

Record AsyncReadPipe := mkPipe {
  pipe_ : bool;                  (* the file is open *)
  isPaused_ : bool;
  registered : bool;             (* with the EventBase *)
  self_ : bool;                  (* the object owns itself *)
  guardNestingDepth_ : nat;
  closedPromise_ : option (option string)  (* the error it was fulfilled with, if any *)
}.

(** [pause]. *)
Definition pause (p : AsyncReadPipe) : AsyncReadPipe :=
  if isPaused_ p then p
  else mkPipe (pipe_ p) true false (self_ p) (guardNestingDepth_ p) (closedPromise_ p).

(** [resume]. *)
Definition resume (p : AsyncReadPipe) : AsyncReadPipe :=
  if isPaused_ p
  then mkPipe (pipe_ p) false (if pipe_ p then true else registered p) (self_ p)
         (guardNestingDepth_ p) (closedPromise_ p)
  else p.

(** [asyncReadPipe]: constructed paused, then [initialize]. *)
Definition asyncReadPipe : AsyncReadPipe := resume (mkPipe true true false true 0 None).

(** The constructor of [SelfGuard]. *)
Definition SelfGuard (p : AsyncReadPipe) : outcome AsyncReadPipe :=
  CHECK (self_ p) "self_" ;;;
  Ret (mkPipe (pipe_ p) (isPaused_ p) (registered p) (self_ p) (S (guardNestingDepth_ p))
         (closedPromise_ p)).

(** Its destructor; [None] is a guard whose [dieSoon] was not called. *)
Definition end_guard (p : AsyncReadPipe) (death : option (option string)) : outcome AsyncReadPipe :=
  CHECK (bool_decide (0 < guardNestingDepth_ p)%nat) "guardNestingDepth_ > 0" ;;;
  let depth := Nat.pred (guardNestingDepth_ p) in
  match death with
  | Some e =>
      let p := mkPipe (pipe_ p) (isPaused_ p) false false depth (closedPromise_ p) in
      match depth with
      | O =>
          CHECK (bool_decide (closedPromise_ p = None)) "PromiseAlreadySatisfied" ;;;
          Ret (mkPipe (pipe_ p) (isPaused_ p) false false depth (Some e))
      | S _ =>
          CHECK (bool_decide (e = None)) "Only handlerReady reports exceptions" ;;; Ret p
      end
  | None =>
      CHECK (self_ p) "dieSoon never triggers ONLY in a nested call" ;;;
      Ret (mkPipe (pipe_ p) (isPaused_ p) (registered p) (self_ p) depth (closedPromise_ p))
  end.

(** [pipe_.close()]: the file is closed even if that throws. *)
Definition close_file (p : AsyncReadPipe) : AsyncReadPipe :=
  mkPipe false (isPaused_ p) (registered p) (self_ p) (guardNestingDepth_ p) (closedPromise_ p).

(** [closeImpl]; an exception of [pipe_.close()] passes on to the caller after
    the guard has ended. *)
Definition closeImpl (p : AsyncReadPipe) : outcome AsyncReadPipe :=
  if self_ p then
    let* p := SelfGuard p in
    end_guard (close_file p) (Some None)
  else Ret p.

(** What a read callback does with its pipe. *)
Inductive PipeAction := APause | AResume | AClose.
Definition do_action (p : AsyncReadPipe) (a : PipeAction) : outcome AsyncReadPipe :=
  match a with
  | APause => Ret (pause p)
  | AResume => Ret (resume p)
  | AClose => closeImpl p
  end.

(** [handlerReady], with what the callback does and the exception it throws. *)
Definition handlerReady (p : AsyncReadPipe) (callback : list PipeAction) (thrown : option string)
    : outcome AsyncReadPipe :=
  let* p := SelfGuard p in
  let* p := foldM do_action p callback in
  match thrown with
  | None => end_guard p (if pipe_ p then None else Some None)
  | Some ex => end_guard (close_file p) (Some (Some ex))
  end.

(** What happens to a pipe: another callback of its EventBase uses it, or it
    is ready. *)
Inductive PipeEvent :=
| PeAction (a : PipeAction)
| PeReady (callback : list PipeAction) (thrown : option string).

(** The EventBase calls a handler only while it is registered. *)
Definition pipe_event (p : AsyncReadPipe) (e : PipeEvent) : outcome AsyncReadPipe :=
  match e with
  | PeAction a => do_action p a
  | PeReady callback thrown => if registered p then handlerReady p callback thrown else Ret p
  end.

(** ** [AsyncReadPipeRateLimiter] *)

Record RateLimiter := mkLimiter {
  quotaPerPollInterval_ : Z;
  quota_ : Z;
  pipes_ : list AsyncReadPipe
}.
Definition newRateLimiter (quota_per_poll_interval : Z) (pipes : list AsyncReadPipe) : RateLimiter :=
  mkLimiter quota_per_poll_interval quota_per_poll_interval pipes.

(** Arithmetic on [Quota], an [int64_t]. *)
Definition quota64 (z : Z) : outcome Z :=
  if (INT64_MIN <=? z) && (z <=? INT64_MAX) then Ret z else Undef "signed overflow".

(** [reduceQuotaBy]. *)
Definition reduceQuotaBy (l : RateLimiter) (how_much : Z) : outcome RateLimiter :=
  let* next := quota64 (quota_ l - how_much) in
  Ret (mkLimiter (quotaPerPollInterval_ l)
         (if next <? quota_ l then next else quota_ l)
         (if (next <=? 0) && (0 <? quota_ l) then map pause (pipes_ l) else pipes_ l)).

(** [timeoutExpired]. *)
Definition timeoutExpired (l : RateLimiter) : outcome RateLimiter :=
  let* next := quota64 (quota_ l + quotaPerPollInterval_ l) in
  Ret (mkLimiter (quotaPerPollInterval_ l)
         (if quota_ l <? next then next else INT64_MAX)
         (if (quota_ l <=? 0) && (0 <? next) then map resume (pipes_ l) else pipes_ l)).

(** ** A pipe is closed once *)

(** Between events: the object owns itself as long as the file is open, it is
    registered exactly while it is open and not paused, and its promise is
    fulfilled exactly if it is closed. *)
Record pipe_ok (depth : nat) (p : AsyncReadPipe) : Prop := {
  po_self : self_ p = pipe_ p;
  po_registered : registered p = pipe_ p && negb (isPaused_ p);
  po_depth : guardNestingDepth_ p = depth;
  po_promise : if depth is O then pipe_ p = false <-> is_Some (closedPromise_ p)
               else closedPromise_ p = None
}.

Lemma action_ok depth p a :
  pipe_ok depth p -> (depth = O \/ closedPromise_ p = None) ->
  exists p', do_action p a = Ret p' /\ pipe_ok depth p' /\
    (forall e, closedPromise_ p = Some e -> closedPromise_ p' = Some e) /\
    (pipe_ p = false -> pipe_ p' = false) /\ (depth <> O -> closedPromise_ p' = None).
Proof.
  intros [Hs Hr Hd Hp] Hpr. destruct p as [open paused reg self d prom]. cbn in *. subst.
  destruct a; cbn.
  - destruct paused; eexists; (split; [reflexivity|]); (split; [split; cbn; (done || by rewrite andb_false_r)|]);
      cbn; naive_solver.
  - destruct paused, open; eexists; (split; [reflexivity|]); (split; [by split|]); cbn; naive_solver.
  - destruct open; cbn; [|eexists; split; [reflexivity|]; split; [by split|]; cbn; naive_solver].
    unfold closeImpl, SelfGuard, end_guard. cbn.
    destruct depth; cbn in *.
    + destruct prom as [e|]; cbn; [exfalso; destruct Hp as [_ Hp]; by discriminate Hp|].
      eexists. split; [reflexivity|]. split; [split; cbn; try done; naive_solver|]. cbn. naive_solver.
    + eexists. split; [reflexivity|]. split; [by split|]. cbn. naive_solver.
Qed.

Lemma actions_ok depth p actions :
  pipe_ok (S depth) p -> exists p', foldM do_action p actions = Ret p' /\ pipe_ok (S depth) p'.
Proof.
  revert p. induction actions as [|a actions IH]; intros p Hp; [by exists p|].
  destruct (action_ok (S depth) p a Hp) as (p1 & E & Hp1 & _); [right; apply (po_promise _ p Hp)|].
  cbn. rewrite E. cbn. by apply IH.
Qed.

(** One event of a pipe. *)
Lemma pipe_event_ok p e :
  pipe_ok 0 p -> exists p', pipe_event p e = Ret p' /\ pipe_ok 0 p' /\
    (pipe_ p = false -> pipe_ p' = false /\ closedPromise_ p' = closedPromise_ p).
Proof.
  intros Hp. destruct e as [a|callback thrown]; cbn [pipe_event].
  { destruct (action_ok 0 p a Hp) as (p' & E & Hp' & Hk & Hc & _); [by left|].
    exists p'. split; [done|]. split; [done|]. intros Hclosed. split; [by apply Hc|].
    apply (po_promise 0 p Hp) in Hclosed as [x Hx]. rewrite Hx. by apply Hk. }
  destruct (registered p) eqn:Er; [|by exists p].
  destruct Hp as [Hs Hr Hd Hpr]. rewrite Er in Hr. symmetry in Hr. apply andb_true_iff in Hr as [Ho Hnp].
  assert (Hn : closedPromise_ p = None).
  { apply eq_None_not_Some. intros Hx. apply Hpr in Hx. congruence. }
  unfold handlerReady, SelfGuard. rewrite Hs, Ho. cbn [CHECK mbind outcome_bind].
  destruct (actions_ok 0 (mkPipe true (isPaused_ p) (registered p) true
              (S (guardNestingDepth_ p)) (closedPromise_ p)) callback) as (p1 & -> & Hp1).
  { split; cbn; [done|by rewrite Er, Hnp|by rewrite Hd|done]. }
  cbn [mbind outcome_bind]. destruct Hp1 as [Hs1 Hr1 Hd1 Hpr1]. unfold end_guard.
  destruct thrown as [ex|].
  - cbn. rewrite Hd1, Hpr1. cbn. eexists. split; [reflexivity|]. split; [|congruence].
    split; cbn; try done; by split.
  - rewrite Hd1, Hpr1. cbn. destruct (pipe_ p1) eqn:Eo; cbn.
    + rewrite Hs1. cbn. eexists. split; [reflexivity|]. split; [|congruence].
      split; cbn; [congruence|by rewrite Hr1|done|]. split; [done|]. by intros [? ?].
    + eexists. split; [reflexivity|]. split; [|congruence].
      split; cbn; try done; by split.
Qed.

Lemma pipe_events_ok p events :
  pipe_ok 0 p -> exists p', foldM pipe_event p events = Ret p' /\ pipe_ok 0 p' /\
    (pipe_ p = false -> pipe_ p' = false /\ closedPromise_ p' = closedPromise_ p).
Proof.
  revert p. induction events as [|e events IH]; intros p Hp; [by exists p|].
  destruct (pipe_event_ok p e Hp) as (p1 & E & Hp1 & Hc1). cbn. rewrite E. cbn.
  destruct (IH p1 Hp1) as (p' & -> & Hp' & Hc'). exists p'. split; [done|]. split; [done|].
  intros Hc. destruct (Hc1 Hc) as [H1 H2]. destruct (Hc' H1) as [H3 H4]. split; [done|congruence].
Qed.

(** C26: A pipe is closed once, whatever its callbacks do -- pausing, resuming
    and closing it from inside or outside its read callback, in any order, and
    throwing: none of the checks fails and its promise is fulfilled at most
    once; it is fulfilled exactly if the pipe was closed, after which it keeps
    its value and no callback runs any more; and while it is open the pipe is
    read exactly if it is not paused. *)
Theorem pipe_closes_once events later :
  exists p p', foldM pipe_event asyncReadPipe events = Ret p /\
    foldM pipe_event p later = Ret p' /\
    (pipe_ p = false <-> is_Some (closedPromise_ p)) /\
    (pipe_ p = true -> registered p = negb (isPaused_ p)) /\
    (pipe_ p = false -> pipe_ p' = false /\ registered p' = false /\
       closedPromise_ p' = closedPromise_ p).
Proof.
  destruct (pipe_events_ok asyncReadPipe events) as (p & E & Hp & _).
  { split; cbn; try done; by split; [|intros [? ?]]. }
  destruct (pipe_events_ok p later Hp) as (p' & E' & Hp' & Hc). exists p, p'.
  split; [done|]. split; [done|]. split; [apply (po_promise _ _ Hp)|].
  split; [intros Ho; by rewrite (po_registered _ _ Hp), Ho|].
  intros Ho. destruct (Hc Ho) as [H1 H2]. split; [done|]. split; [|done].
  by rewrite (po_registered _ _ Hp'), H1.
Qed.

(** ** The quota *)

Inductive QuotaEvent := QLines (k : Z) | QTick.
Definition quota_event (l : RateLimiter) (e : QuotaEvent) : outcome RateLimiter :=
  match e with QLines k => reduceQuotaBy l k | QTick => timeoutExpired l end.

Definition lines_of (e : QuotaEvent) : Z := match e with QLines k => k | QTick => 0 end.
Definition ticks_of (e : QuotaEvent) : Z := match e with QLines _ => 0 | QTick => 1 end.
Definition total (f : QuotaEvent -> Z) (events : list QuotaEvent) : Z :=
  foldr (fun e n => f e + n) 0 events.

Lemma total_cons f e events : total f (e :: events) = f e + total f events.
Proof. done. Qed.
Lemma total_nonneg f events : Forall (fun e => 0 <= f e) events -> 0 <= total f events.
Proof. induction 1; [done|]. rewrite total_cons. lia. Qed.
Lemma ticks_nonneg events : 0 <= total ticks_of events.
Proof. apply total_nonneg, Forall_true. intros [|]; cbn; lia. Qed.

Lemma quota64_ok z : INT64_MIN <= z <= INT64_MAX -> quota64 z = Ret z.
Proof.
  intros [H1 H2]. unfold quota64.
  by rewrite (proj2 (Z.leb_le _ _) H1), (proj2 (Z.leb_le _ _) H2).
Qed.

Lemma paused_pause ps : Forall (fun p => isPaused_ p = true) (map pause ps).
Proof. apply Forall_fmap, Forall_true. intros p. unfold pause; cbn. by destruct (isPaused_ p) eqn:E. Qed.
Lemma paused_resume ps : Forall (fun p => isPaused_ p = false) (map resume ps).
Proof. apply Forall_fmap, Forall_true. intros p. unfold resume; cbn. by destruct (isPaused_ p) eqn:E. Qed.

Definition paused_iff (b : bool) (ps : list AsyncReadPipe) : Prop :=
  Forall (fun p => isPaused_ p = b) ps.

(** One event of a positive quota. *)
Lemma quota_step l e :
  0 < quotaPerPollInterval_ l -> paused_iff (quota_ l <=? 0) (pipes_ l) -> 0 <= lines_of e ->
  INT64_MIN <= quota_ l - lines_of e ->
  quota_ l + quotaPerPollInterval_ l * ticks_of e <= INT64_MAX ->
  exists l', quota_event l e = Ret l' /\ quotaPerPollInterval_ l' = quotaPerPollInterval_ l /\
    quota_ l' = quota_ l + quotaPerPollInterval_ l * ticks_of e - lines_of e /\
    paused_iff (quota_ l' <=? 0) (pipes_ l').
Proof.
  intros Hi Hp He Hmin Hmax. assert (Hb : INT64_MIN <= 0 <= INT64_MAX) by (by vm_compute).
  assert (Hsame : forall q, (q <=? 0) = (quota_ l <=? 0) -> paused_iff (q <=? 0) (pipes_ l))
    by (by intros q ->).
  destruct e as [k|]; cbn [quota_event lines_of ticks_of] in *.
  - unfold reduceQuotaBy. rewrite quota64_ok by lia. cbn [mbind outcome_bind].
    eexists. split; [reflexivity|]. split; [done|]. cbn [quota_ pipes_].
    assert (Eq : (if quota_ l - k <? quota_ l then quota_ l - k else quota_ l) = quota_ l - k)
      by (destruct (Z.ltb_spec (quota_ l - k) (quota_ l)); lia).
    rewrite Eq. split; [lia|].
    destruct ((quota_ l - k <=? 0) && (0 <? quota_ l)) eqn:E.
    + bprop. rewrite (proj2 (Z.leb_le _ _)) by lia. apply paused_pause.
    + apply Hsame. apply andb_false_iff in E as [E|E]; bprop;
        [rewrite !(proj2 (Z.leb_gt _ _)) by lia|rewrite !(proj2 (Z.leb_le _ _)) by lia]; done.
  - unfold timeoutExpired. rewrite quota64_ok by lia. cbn [mbind outcome_bind].
    eexists. split; [reflexivity|]. split; [done|]. cbn [quota_ pipes_].
    rewrite (proj2 (Z.ltb_lt (quota_ l) _)) by lia. split; [lia|].
    destruct ((quota_ l <=? 0) && (0 <? quota_ l + quotaPerPollInterval_ l)) eqn:E.
    + bprop. rewrite (proj2 (Z.leb_gt _ _)) by lia. apply paused_resume.
    + apply Hsame. apply andb_false_iff in E as [E|E]; bprop;
        [rewrite !(proj2 (Z.leb_gt _ _)) by lia|rewrite !(proj2 (Z.leb_le _ _)) by lia]; done.
Qed.

Lemma quota_positive events l :
  0 < quotaPerPollInterval_ l -> paused_iff (quota_ l <=? 0) (pipes_ l) ->
  Forall (fun e => 0 <= lines_of e) events ->
  INT64_MIN <= quota_ l - total lines_of events ->
  quota_ l + quotaPerPollInterval_ l * total ticks_of events <= INT64_MAX ->
  exists l', foldM quota_event l events = Ret l' /\
    quota_ l' = quota_ l + quotaPerPollInterval_ l * total ticks_of events - total lines_of events /\
    paused_iff (quota_ l' <=? 0) (pipes_ l').
Proof.
  revert l. induction events as [|e events IH]; intros l Hi Hp Hl Hmin Hmax;
    [exists l; split; [done|]; split; [cbn; lia|done]|].
  apply Forall_cons in Hl as [He Hl]. rewrite !total_cons in *.
  pose proof (total_nonneg _ _ Hl). pose proof (ticks_nonneg events).
  assert (0 <= ticks_of e) by (destruct e; cbn; lia).
  destruct (quota_step l e) as (l1 & E & Ei & Eq & Hp1); [done|done|done|lia|nia|].
  cbn [foldM]. rewrite E. cbn [mbind outcome_bind].
  destruct (IH l1) as (l' & E' & Hq & Hp'); [lia|done|done|nia|rewrite Ei, Eq; nia|].
  exists l'. split; [exact E'|]. split; [|done]. rewrite Hq, Ei, Eq. nia.
Qed.

(** Without a positive quota. *)
Lemma quota_disabled events l :
  - 2 ^ 31 <= quotaPerPollInterval_ l <= 0 -> paused_iff false (pipes_ l) ->
  Forall (fun e => 0 <= lines_of e) events ->
  quota_ l <= 0 /\ - 2 ^ 62 - 2 ^ 31 <= quota_ l - total lines_of events \/
  total lines_of events < quota_ l <= INT64_MAX ->
  total lines_of events < 2 ^ 62 ->
  exists l', foldM quota_event l events = Ret l' /\ pipes_ l' = pipes_ l.
Proof.
  revert l. induction events as [|e events IH]; intros l Hi Hp Hl Hq Htot; [by exists l|].
  apply Forall_cons in Hl as [He Hl]. rewrite total_cons in *. pose proof (total_nonneg _ _ Hl).
  assert (Hb : INT64_MIN = - 2 ^ 63 /\ INT64_MAX = 2 ^ 63 - 1) by done.
  destruct e as [k|]; cbn [foldM quota_event lines_of] in *.
  - unfold reduceQuotaBy. rewrite quota64_ok by lia. cbn [mbind outcome_bind].
    assert (Eb : (quota_ l - k <=? 0) && (0 <? quota_ l) = false)
      by (apply andb_false_iff; rewrite Z.leb_gt, Z.ltb_ge; lia).
    assert (Eq : (if quota_ l - k <? quota_ l then quota_ l - k else quota_ l) = quota_ l - k)
      by (destruct (Z.ltb_spec (quota_ l - k) (quota_ l)); lia).
    rewrite Eb, Eq. apply (IH (mkLimiter _ (quota_ l - k) (pipes_ l)));
      cbn [quotaPerPollInterval_ quota_ pipes_]; try done; lia.
  - unfold timeoutExpired. rewrite quota64_ok by lia. cbn [mbind outcome_bind].
    assert (Eb : (quota_ l <=? 0) && (0 <? quota_ l + quotaPerPollInterval_ l) = false)
      by (apply andb_false_iff; rewrite Z.leb_gt, Z.ltb_ge; lia).
    rewrite Eb, (proj2 (Z.ltb_ge _ _)) by lia.
    apply (IH (mkLimiter _ INT64_MAX (pipes_ l))); cbn [quotaPerPollInterval_ quota_ pipes_];
      try done; lia.
Qed.

(** The quota of log lines.  With a positive number of lines per poll, after
    any sequence of reads and polls the pipes of the task are paused exactly if
    it has written at least as many lines as were granted so far, the first
    grant included, and no arithmetic overflows while the totals fit 64 bits.
    With a number that is not positive, the pipes are never paused. *)
Theorem quota_accounts interval pipes events :
  is_s32 interval -> paused_iff false pipes -> Forall (fun e => 0 <= lines_of e) events ->
  total lines_of events < 2 ^ 62 -> interval * (1 + total ticks_of events) <= INT64_MAX ->
  exists l, foldM quota_event (newRateLimiter interval pipes) events = Ret l /\
    if 0 <? interval
    then paused_iff (interval * (1 + total ticks_of events) <=? total lines_of events) (pipes_ l)
    else pipes_ l = pipes.
Proof.
  intros Hi Hp Hl Htot Hmax. pose proof (total_nonneg _ _ Hl).
  assert (Hb : INT64_MIN = - 2 ^ 63 /\ INT64_MAX = 2 ^ 63 - 1) by done.
  unfold is_s32 in Hi. destruct (Z.ltb_spec 0 interval) as [Hpos|Hneg].
  - destruct (quota_positive events (newRateLimiter interval pipes)) as (l & E & Hq & Hpl);
      cbn [newRateLimiter quotaPerPollInterval_ quota_ pipes_] in *; [done| |done|lia|lia|].
    { by rewrite (proj2 (Z.leb_gt _ _)) by lia. }
    exists l. split; [done|]. rewrite Hq in Hpl.
    eapply Forall_impl; [exact Hpl|]. intros p ->. apply eq_iff_eq_true. rewrite !Z.leb_le. lia.
  - destruct (quota_disabled events (newRateLimiter interval pipes)) as (l & E & El);
      cbn [newRateLimiter quotaPerPollInterval_ quota_ pipes_] in *; [lia|done|done|left; lia|done|].
    by exists l.
Qed.

Lemma quota_accounts_witness :
  exists l, foldM quota_event (newRateLimiter 50 [asyncReadPipe; asyncReadPipe])
              [QLines 60; QTick; QLines 50] = Ret l /\ paused_iff true (pipes_ l).
Proof.
  apply (quota_accounts 50 [asyncReadPipe; asyncReadPipe] [QLines 60; QTick; QLines 50]);
    [by vm_compute|by repeat constructor|repeat constructor; cbn; lia|by vm_compute|by vm_compute].
Defined.
