(* ===== verification/NodeFetchers.v ===== *)
(** [nodes/]: the nodes of the system and the fetchers that make them
    ([Nodes.{h,cpp}], [NodesLoader.cpp], [NodeFetcher.cpp], [ManualFetcher.cpp],
    [RangeLabelFetcher.cpp], [ScriptFetcher.cpp], [AddTimeFetcher.h],
    [EmptyFetcher.h] and [utils.cpp]), with [utils/SettingsMap.h].

    folly's conversions of JSON values, fmt's formatting and the output of a
    script are parameters.  The order in which an [unordered_map] is visited is
    that of the list that stands for it.  The name table, a global of [Node], is
    part of the state.  Cron items are used through the class [CronItems], which
    [EpochItems] implements with the items of [Cron]. *)

From stdpp Require Import base gmap strings list pretty.
From Stdlib Require Import ZArith Lia.
From S2P Require Import Prelude Dynamic SymbolTable Scheduling Config Cron CronItem CronZone.

(** ** [Nodes] *)

Record Nodes := mkNodes { nodes_ : list Node; NodeNameTable : StringTable }.

(** [Nodes::add] with the constructor of [Node]. *)
Definition nodes_add (ns : Nodes) (name : string) (level : nat) (enabled : bool)
    (parent : option Node) (tags : list string) : Nodes * Node :=
  let '(table, id) := insert_obj (NodeNameTable ns) name in
  let n := mkNode id name level enabled parent tags 0 in
  (mkNodes (nodes_ ns ++ [n]) table, n).

(** [Nodes::Nodes]. *)
Definition newNodes (table : StringTable) (instance_node_name : string) : Nodes :=
  (nodes_add (mkNodes [] table) instance_node_name 0 true None []).1.

(** [getInstance]. *)
Definition getInstance (ns : Nodes) : outcome Node :=
  match nodes_ ns with
  | n :: _ => Ret n
  | [] => Undef "front of an empty vector"
  end.

(** [iterateOverLevel]. *)
Definition iterateOverLevel (ns : Nodes) (level : nat) : list Node :=
  List.filter (fun n => Nat.eqb (node_level n) level) (nodes_ ns).

(** ** Settings *)

Abbreviation SettingsMap := (list (string * dynamic)).

(** [get]. *)
Definition settings_get (prefs : SettingsMap) (key : string) (def : dynamic) : dynamic :=
  default def (assoc key prefs).
(** [require]. *)
Definition require_setting (prefs : SettingsMap) (key : string) : outcome dynamic :=
  match assoc key prefs with Some d => Ret d | None => Throw (key +:+ " not found") end.

(** [requireConvert] and [convert]. *)
Definition requireConvert {T} (convertTo : dynamic -> outcome T) (prefs : SettingsMap)
    (key : string) : outcome T :=
  let* d := require_setting prefs key in convertTo d.
Definition convert {T} (convertTo : dynamic -> outcome T) (prefs : SettingsMap) (key : string)
    (def : T) : outcome T :=
  match assoc key prefs with Some d => convertTo d | None => Ret def end.

Record NodeConfig := mkNodeConfig { nc_source : string; nc_prefs : SettingsMap }.

(** [Config::getNumConfiguredLevels]. *)
Definition getNumConfiguredLevels (levels : StringTable) : outcome nat :=
  CHECK (bool_decide (2 <= length (objects_ levels))%nat) "levels.size() >= 2" ;;;
  Ret (length (objects_ levels) - 2)%nat.

(** ** Cron items, as the fetcher uses them *)

Class CronItems (C : Type) := {
  cron_fromDynamic : dynamic -> outcome C;
  cron_findFirstMatch : C -> Z -> outcome (option Z)
}.

Abbreviation TimeToTagsAndEnabled := (gmap Z (gset string * bool)).

Section Fetchers.
Context {C : Type} `{CronItems C}.
Context (toString : dynamic -> outcome string) (toInt : dynamic -> outcome Z)
  (toBool : dynamic -> outcome bool).
Context (asString : dynamic -> outcome string) (asInt : dynamic -> outcome Z).
Context (format : string -> list (string * string) -> outcome string).
Context (run_script : string -> string -> outcome (list string)).
Context (levels : StringTable).

(** [getMyLevelAndParents]. *)
Definition getMyLevelAndParents (prefs : SettingsMap) (ns : Nodes) : outcome (nat * list Node) :=
  let* name := requireConvert toString prefs "parent_level" in
  match lookup_obj levels name with
  | None => Throw "-1 is not a known level"
  | Some parent_level =>
      let my_level := S parent_level in
      let* n := getNumConfiguredLevels levels in
      if (n <? my_level)%nat then Throw "You must define more levels"
      else Ret (my_level, iterateOverLevel ns parent_level)
  end.

(** A loop that adds one node per name below a parent. *)
Definition add_children (level : nat) (enabled : bool) (parent : Node) (ns : Nodes)
    (names : list string) : Nodes :=
  foldl (fun ns name => (nodes_add ns name level enabled (Some parent) []).1) ns names.

(** *** [ManualFetcher] *)

(** A range-for over a [dynamic]. *)
Definition elements_of (d : dynamic) : outcome (list dynamic) :=
  match d with DArray l => Ret l | _ => Throw "TypeError" end.
Definition strings_of (l : list dynamic) : outcome (list string) :=
  foldM (fun acc d => let* s := asString d in Ret (acc ++ [s])) [] l.

(** The children that a preference gives its node, and whether it disables
    it. *)
Definition manual_pref (d : dynamic) : outcome (list string * bool) :=
  match d with
  | DString _ => let* s := asString d in Ret ([s], false)
  | DObject kvs =>
      let* children :=
        match assoc "children" kvs with
        | Some c => let* l := elements_of c in strings_of l
        | None => Ret []
        end in
      Ret (children, bool_decide (is_Some (assoc "disabled" kvs)))
  | _ => let* l := elements_of d in let* children := strings_of l in Ret (children, false)
  end.

(** [ManualNodeState] after the first loop. *)
Record ManualNodeState := mkManual {
  parentToChildren_ : list (string * list string);
  isDisabled_ : list string
}.
Definition read_prefs (prefs : SettingsMap) : outcome ManualNodeState :=
  foldM (fun st p =>
    let* (children, disabled) := manual_pref p.2 in
    Ret (mkManual (parentToChildren_ st ++ [(p.1, children)])
           (if (disabled : bool) then p.1 :: isDisabled_ st else isDisabled_ st)))
    (mkManual [] []) prefs.

Definition children_of (st : ManualNodeState) (name : string) : list string :=
  match List.find (fun p => String.eqb p.1 name) (parentToChildren_ st) with
  | Some p => p.2
  | None => []
  end.
Definition has_parent (st : ManualNodeState) (name : string) : bool :=
  existsb (fun p => existsb (String.eqb name) p.2) (parentToChildren_ st).

(** [recursiveAdd]; the first argument is [maxLevel_ + 1 - level]. *)
Fixpoint recursiveAdd (room : nat) (st : ManualNodeState) (ns : Nodes) (name : string)
    (parent : Node) (level : nat) : outcome Nodes :=
  match room with
  | O => Throw "Node would be below the maximum level"
  | S room =>
      let '(ns, node) := nodes_add ns name level (negb (bool_decide (name ∈ isDisabled_ st)))
                           (Some parent) [] in
      foldM (fun ns child => recursiveAdd room st ns child node (S level)) ns (children_of st name)
  end.

(** [ManualFetcher::fetch]. *)
Definition manual_fetch (prefs : SettingsMap) (ns : Nodes) : outcome Nodes :=
  let* maxLevel := getNumConfiguredLevels levels in
  let* st := read_prefs prefs in
  let* instance := getInstance ns in
  let roots := List.filter (fun name => negb (has_parent st name)) (map fst prefs) in
  let* ns := foldM (fun ns name => recursiveAdd maxLevel st ns name instance 1) ns roots in
  match roots with
  | [] => Throw "No top level nodes are defined"
  | _ => Ret ns
  end.

(** *** [RangeLabelFetcher] *)

(** [for (int i = start; i <= end; ++i)]. *)
Definition int_range (start end_ : Z) : outcome (list Z) :=
  if end_ <? start then Ret []
  else if end_ =? INT32_MAX then Undef "signed overflow"
  else Ret (seqZ start (end_ - start + 1)).

Definition range_names (format_str : string) (start end_ : Z) (idx : list Z) (parent : Node)
    : outcome (list string) :=
  foldM (fun acc i =>
    let* s := format format_str [("start", pretty start); ("end", pretty end_);
                                 ("parent", node_name parent); ("i", pretty i)] in
    Ret (acc ++ [s])) [] idx.

Definition range_label_fetch (prefs : SettingsMap) (ns : Nodes) : outcome Nodes :=
  let* format_str := convert toString prefs "format" "{parent}__{i}" in
  let* start := requireConvert toInt prefs "start" in
  let* end_ := requireConvert toInt prefs "end" in
  let* enabled := convert toBool prefs "enabled" true in
  let* (my_level, parents) := getMyLevelAndParents prefs ns in
  foldM (fun ns parent =>
    let* idx := int_range start end_ in
    let* names := range_names format_str start end_ idx parent in
    Ret (add_children my_level enabled parent ns names)) ns parents.

(** *** [ScriptFetcher] *)

Definition script_fetch (prefs : SettingsMap) (ns : Nodes) : outcome Nodes :=
  let* (my_level, parents) := getMyLevelAndParents prefs ns in
  foldM (fun ns parent =>
    let* script := requireConvert toString prefs "script" in
    let* lines := run_script script (node_name parent) in
    Ret (add_children my_level true parent ns lines)) ns parents.

(** *** [AddTimeFetcher] *)

Record ScheduleItem := mkScheduleItem {
  lifetime_ : Z;
  enabled_lifetime_ : Z;
  si_tags : list string;
  cron_ : option C              (* None: a null pointer *)
}.

(** [ScheduleItem::ScheduleItem], one key. *)
Definition schedule_key (item : ScheduleItem) (p : string * dynamic) : outcome ScheduleItem :=
  let '(key, d) := p in
  if bool_decide (key = "lifetime") then
    let* n := asInt d in Ret (mkScheduleItem n (enabled_lifetime_ item) (si_tags item) (cron_ item))
  else if bool_decide (key = "enabled_lifetime") then
    let* n := asInt d in Ret (mkScheduleItem (lifetime_ item) n (si_tags item) (cron_ item))
  else if bool_decide (key = "tags") then
    match d with
    | DArray l =>
        let* tags := strings_of l in
        Ret (mkScheduleItem (lifetime_ item) (enabled_lifetime_ item) (si_tags item ++ tags)
               (cron_ item))
    | _ => Throw "tags must be an array"
    end
  else if bool_decide (key = "cron") then
    let* c := cron_fromDynamic d in
    Ret (mkScheduleItem (lifetime_ item) (enabled_lifetime_ item) (si_tags item) (Some c))
  else Ret item.
Definition ScheduleItem_of (item_cfg : dynamic) : outcome ScheduleItem :=
  match item_cfg with
  | DObject kvs =>
      let* item := foldM schedule_key (mkScheduleItem 0 (-1) [] None) kvs in
      if lifetime_ item =? 0 then Throw "add_time: each item needs a lifetime"
      else Ret (if enabled_lifetime_ item =? -1
                then mkScheduleItem (lifetime_ item) (lifetime_ item) (si_tags item) (cron_ item)
                else item)
  | _ => Throw "schedule items must be objects"
  end.

(** [addTimeTagsAndEnabled]. *)
Definition addTimeTagsAndEnabled (tte : TimeToTagsAndEnabled) (item : ScheduleItem)
    (cur_time event_time : Z) : TimeToTagsAndEnabled :=
  let enabled := cur_time - event_time <? enabled_lifetime_ item in
  match tte !! event_time with
  | Some (tags, e) => <[event_time := (tags ∪ list_to_set (si_tags item), e && enabled)]> tte
  | None => <[event_time := (list_to_set (si_tags item), enabled)]> tte
  end.

(** The [while (true)] loop of an item; see [schedule_loop_total] for the
    fuel. *)
Fixpoint schedule_loop (fuel : nat) (tte : TimeToTagsAndEnabled) (item : ScheduleItem)
    (cron : C) (cur_time event_time : Z) : outcome TimeToTagsAndEnabled :=
  match fuel with
  | O => Undef "the loop does not end"
  | S fuel =>
      let* maybe_time := cron_findFirstMatch cron event_time in
      match maybe_time with
      | None => Ret tte
      | Some t =>
          if cur_time <? t then Ret tte
          else schedule_loop fuel (addTimeTagsAndEnabled tte item cur_time t) item cron cur_time
                 (t + 1)
      end
  end.

(** One item: the iterations are at most its lifetime. *)
Definition schedule_item (cur_time : Z) (tte : TimeToTagsAndEnabled) (item : ScheduleItem)
    : outcome TimeToTagsAndEnabled :=
  match cron_ item with
  | None => Undef "null pointer"
  | Some cron =>
      schedule_loop (S (Z.to_nat (lifetime_ item))) tte item cron cur_time
        (cur_time - lifetime_ item + 1)
  end.

(** [makeTimestampsToTagsAndEnabled]. *)
Definition makeTimestampsToTagsAndEnabled (cur_time : Z) (items : dynamic)
    : outcome TimeToTagsAndEnabled :=
  match items with
  | DArray l =>
      foldM (fun tte item_cfg =>
        let* item := ScheduleItem_of item_cfg in schedule_item cur_time tte item) ∅ l
  | _ => Throw "schedule must be an array"
  end.

Definition time_name (format_str : string) (parent : Node) (t : Z) : outcome string :=
  format format_str [("parent", node_name parent); ("time", pretty t)].

(** [AddTimeFetcher::fetch]. *)
Definition add_time_fetch (cur_time : Z) (prefs : SettingsMap) (ns : Nodes) : outcome Nodes :=
  let* format_str := convert toString prefs "format" "{parent}:{time}" in
  let* tte := makeTimestampsToTagsAndEnabled cur_time (settings_get prefs "schedule" (DArray [])) in
  let* (my_level, parents) := getMyLevelAndParents prefs ns in
  foldM (fun ns parent =>
    foldM (fun ns p =>
      let* name := time_name format_str parent p.1 in
      Ret (nodes_add ns name my_level p.2.2 (Some parent) (elements p.2.1)).1)
      ns (map_to_list tte)) ns parents.

(** *** All fetchers *)

(** [NodeFetcher::create], followed by [fetch]. *)
Definition create_and_fetch (cur_time : Z) (ns : Nodes) (c : NodeConfig) : outcome Nodes :=
  let prefs := nc_prefs c in
  if bool_decide (nc_source c = "add_time") then add_time_fetch cur_time prefs ns
  else if bool_decide (nc_source c = "empty") then Ret ns
  else if bool_decide (nc_source c = "manual") then manual_fetch prefs ns
  else if bool_decide (nc_source c = "range_label") then range_label_fetch prefs ns
  else if bool_decide (nc_source c = "script") then script_fetch prefs ns
  else Throw "Invalid node source".

(** [NodesLoader::_fetchNodesImpl]. *)
Definition fetchNodesImpl (cur_time : Z) (configs : list NodeConfig) (ns : Nodes) : outcome Nodes :=
  foldM (create_and_fetch cur_time) ns configs.
End Fetchers.

(** ** The nodes form a tree of the configured levels *)

Record nodes_wf (max : nat) (ns : Nodes) : Prop := {
  nw_table : table_wf (NodeNameTable ns);
  nw_ids : forall n, n ∈ nodes_ ns -> lookup_obj (NodeNameTable ns) (node_name n) = Some (node_id n);
  nw_tree : exists i rest, nodes_ ns = i :: rest /\ node_level i = O /\ node_parent i = None /\
    forall n, n ∈ rest -> exists p, p ∈ nodes_ ns /\ node_parent n = Some p /\
      node_level n = S (node_level p) /\ (node_level n <= max)%nat
}.

(** The nodes of [ns] with others after them. *)
Definition extends (max : nat) (ns ns' : Nodes) : Prop :=
  nodes_wf max ns' /\ exists l, nodes_ ns' = nodes_ ns ++ l.

Lemma extends_refl max ns : nodes_wf max ns -> extends max ns ns.
Proof. intros Hw. split; [done|]. exists []. by rewrite app_nil_r. Qed.
Lemma extends_trans max a b c : extends max a b -> extends max b c -> extends max a c.
Proof.
  intros [_ [l1 E1]] [Hc [l2 E2]]. split; [done|]. exists (l1 ++ l2). by rewrite E2, E1, app_assoc.
Qed.
Lemma extends_elem max ns ns' n : extends max ns ns' -> n ∈ nodes_ ns -> n ∈ nodes_ ns'.
Proof. intros [_ [l ->]] Hn. set_solver. Qed.

Lemma newNodes_wf max table name : table_wf table -> nodes_wf max (newNodes table name).
Proof.
  intros Ht. unfold newNodes, nodes_add. pose proof (insert_obj_wf table name Ht) as Hw.
  pose proof (insert_obj_lookup table name) as Hl. cbn.
  destruct (insert_obj table name) as [t id]. cbn in *. split; cbn.
  - done.
  - by intros n ->%list_elem_of_singleton.
  - eexists _, []. split; [done|]. split; [done|]. split; [done|]. by intros n ?%not_elem_of_nil.
Qed.

Lemma add_extends max ns name enabled p tags :
  nodes_wf max ns -> p ∈ nodes_ ns -> (S (node_level p) <= max)%nat ->
  let '(ns', n) := nodes_add ns name (S (node_level p)) enabled (Some p) tags in
  extends max ns ns' /\ n ∈ nodes_ ns' /\ node_level n = S (node_level p).
Proof.
  intros [Ht Hids (i & rest & Ei & Hi & Hpi & Htree)] Hp Hmax. unfold nodes_add.
  pose proof (insert_obj_wf (NodeNameTable ns) name Ht) as Hw.
  pose proof (insert_obj_lookup (NodeNameTable ns) name) as Hl.
  pose proof (insert_obj_stable (NodeNameTable ns) name) as Hst.
  destruct (insert_obj (NodeNameTable ns) name) as [t id]. cbn in *.
  split; [|split; [set_solver|done]]. split; [|by eexists]. split; cbn.
  - done.
  - intros n [Hn| ->%list_elem_of_singleton]%elem_of_app; [|done]. by apply Hst; [..|apply Hids].
  - eexists i, _. rewrite Ei. split; [reflexivity|]. split; [done|]. split; [done|].
    intros n [Hn| ->%list_elem_of_singleton]%elem_of_app.
    + destruct (Htree n Hn) as (q & Hq & ?). exists q. rewrite Ei in Hq. split; [set_solver|done].
    + exists p. rewrite Ei in Hp. cbn. split; [set_solver|done].
Qed.

(** A loop whose body extends the nodes. *)
Lemma foldM_extends {A} max (f : Nodes -> A -> outcome Nodes) l ns ns' :
  nodes_wf max ns ->
  (forall x a b, x ∈ l -> extends max ns a -> f a x = Ret b -> extends max a b) ->
  foldM f ns l = Ret ns' -> extends max ns ns'.
Proof.
  intros Hw Hf E.
  assert (H : forall l' a, (forall x, x ∈ l' -> x ∈ l) -> extends max ns a ->
    foldM f a l' = Ret ns' -> extends max ns ns').
  { induction l' as [|x l' IH]; intros a Hl' Ha Ea; cbn in Ea; [by injection Ea as <-|].
    apply bind_Ret_iff in Ea as (b & Eb & Ea).
    apply (IH b); [set_solver| |done]. eapply extends_trans; [done|]. eapply Hf; [|done|done]. set_solver. }
  by apply (H l ns); [done|apply extends_refl|].
Qed.

Lemma add_children_extends max level enabled p ns names :
  nodes_wf max ns -> p ∈ nodes_ ns -> level = S (node_level p) -> (level <= max)%nat ->
  extends max ns (add_children level enabled p ns names).
Proof.
  intros Hw Hp -> Hmax. unfold add_children. revert ns Hw Hp.
  induction names as [|name names IH]; intros ns Hw Hp; [by apply extends_refl|]. cbn.
  pose proof (add_extends max ns name enabled p [] Hw Hp Hmax) as Ha.
  destruct (nodes_add ns name _ enabled (Some p) []) as [ns1 n]. destruct Ha as (Ha & _).
  eapply extends_trans; [exact Ha|]. apply IH; [apply Ha|by eapply extends_elem].
Qed.

Section Trees.
Context {C : Type} `{CronItems C}.
Context (toString : dynamic -> outcome string) (toInt : dynamic -> outcome Z)
  (toBool : dynamic -> outcome bool).
Context (asString : dynamic -> outcome string) (asInt : dynamic -> outcome Z).
Context (format : string -> list (string * string) -> outcome string).
Context (run_script : string -> string -> outcome (list string)).
Context (levels : StringTable) (max : nat) (Hmax : getNumConfiguredLevels levels = Ret max).

(** The parents are nodes of the level above. *)
Lemma my_level_and_parents prefs ns level parents :
  getMyLevelAndParents toString levels prefs ns = Ret (level, parents) ->
  (level <= max)%nat /\ forall p, p ∈ parents -> p ∈ nodes_ ns /\ level = S (node_level p).
Proof using Hmax.
  unfold getMyLevelAndParents. intros E. apply bind_Ret_iff in E as (name & _ & E).
  destruct (lookup_obj levels name) as [l|]; [|done]. rewrite Hmax in E. cbn [mbind outcome_bind] in E.
  destruct (Nat.ltb_spec max (S l)); [done|]. injection E as <- <-. split; [lia|].
  intros p Hp. apply list_elem_of_In in Hp. unfold iterateOverLevel in Hp.
  apply filter_In in Hp as [Hp Hl]. apply Nat.eqb_eq in Hl. split; [by apply list_elem_of_In|lia].
Qed.

Lemma recursiveAdd_extends room st ns name p level ns' :
  nodes_wf max ns -> p ∈ nodes_ ns -> level = S (node_level p) -> (level + room = S max)%nat ->
  recursiveAdd room st ns name p level = Ret ns' -> extends max ns ns'.
Proof using.
  revert ns name p level ns'. induction room as [|room IH]; intros ns name p level ns' Hw Hp -> Hr E;
    [done|]. cbn [recursiveAdd] in E.
  pose proof (add_extends max ns name (negb (bool_decide (name ∈ isDisabled_ st))) p [] Hw Hp
                ltac:(lia)) as Ha.
  destruct (nodes_add ns name _ _ (Some p) []) as [ns1 n]. destruct Ha as (Ha & Hn & Hl).
  eapply extends_trans; [exact Ha|]. eapply foldM_extends; [apply Ha| |exact E].
  intros child a b _ Ha1 Eb.
  apply (IH a child n (S (S (node_level p))) b);
    [apply Ha1|by eapply extends_elem|by rewrite Hl|lia|exact Eb].
Qed.

Lemma manual_extends prefs ns ns' :
  nodes_wf max ns -> manual_fetch asString levels prefs ns = Ret ns' -> extends max ns ns'.
Proof using Hmax.
  intros Hw E. unfold manual_fetch in E. rewrite Hmax in E. cbn [mbind outcome_bind] in E.
  apply bind_Ret_iff in E as (st & _ & E). apply bind_Ret_iff in E as (i & Ei & E).
  apply bind_Ret_iff in E as (ns1 & E1 & E).
  assert (Hi : i ∈ nodes_ ns /\ node_level i = O).
  { unfold getInstance in Ei. destruct Hw as [_ _ (j & rest & Ej & Hj & _)]. rewrite Ej in *.
    injection Ei as <-. split; [by left|done]. }
  destruct Hi as [Hi Hl]. assert (ns' = ns1) as -> by (by destruct (List.filter _ _); simplify_eq).
  eapply foldM_extends; [exact Hw| |exact E1]. intros name a b _ Ha Eb.
  apply (recursiveAdd_extends max st a name i 1 b);
    [apply Ha|by eapply extends_elem|by rewrite Hl|lia|exact Eb].
Qed.

(** The fetchers that make nodes below a level. *)
Lemma parents_extends (f : Nodes -> Node -> outcome Nodes) prefs ns level parents ns' :
  nodes_wf max ns -> getMyLevelAndParents toString levels prefs ns = Ret (level, parents) ->
  (forall p a b, extends max ns a -> p ∈ nodes_ a -> level = S (node_level p) -> f a p = Ret b ->
     extends max a b) ->
  foldM f ns parents = Ret ns' -> extends max ns ns'.
Proof using Hmax.
  intros Hw Hp Hf E. destruct (my_level_and_parents _ _ _ _ Hp) as [_ Hps].
  eapply foldM_extends; [exact Hw| |exact E]. intros p a b Hin Ha Eb.
  destruct (Hps p Hin) as [H1 H2]. eapply Hf; [done|by eapply extends_elem|done|exact Eb].
Qed.

Lemma fetch_extends cur_time ns c ns' :
  nodes_wf max ns ->
  create_and_fetch toString toInt toBool asString asInt format run_script levels cur_time ns c = Ret ns' ->
  extends max ns ns'.
Proof using Hmax.
  intros Hw E. unfold create_and_fetch in E. repeat case_bool_decide; [| | | | |done].
  - unfold add_time_fetch in E. apply bind_Ret_iff in E as (fs & _ & E).
    apply bind_Ret_iff in E as (tte & _ & E). apply bind_Ret_iff in E as ([level parents] & Hp & E).
    eapply parents_extends; [exact Hw|exact Hp| |exact E]. intros p a b Ha Hpa Hl Eb.
    destruct (my_level_and_parents _ _ _ _ Hp) as [Hle _].
    eapply foldM_extends; [apply Ha| |exact Eb]. intros x a1 b1 _ Ha1 Eb1.
    apply bind_Ret_iff in Eb1 as (name & _ & Eb1). injection Eb1 as <-. rewrite Hl in Hle |- *.
    pose proof (add_extends max a1 name x.2.2 p (elements x.2.1) ltac:(apply Ha1)
                  ltac:(by eapply extends_elem) Hle) as Hadd.
    destruct (nodes_add _ _ _ _ _ _). apply Hadd.
  - injection E as <-. by apply extends_refl.
  - by eapply manual_extends.
  - unfold range_label_fetch in E. do 4 (apply bind_Ret_iff in E as (? & _ & E)).
    apply bind_Ret_iff in E as ([level parents] & Hp & E).
    destruct (my_level_and_parents _ _ _ _ Hp) as [Hle _].
    eapply parents_extends; [exact Hw|exact Hp| |exact E]. intros p a b Ha Hpa Hl Eb.
    do 2 (apply bind_Ret_iff in Eb as (? & _ & Eb)). injection Eb as <-.
    apply add_children_extends; [apply Ha|done|done|done].
  - unfold script_fetch in E. apply bind_Ret_iff in E as ([level parents] & Hp & E).
    destruct (my_level_and_parents _ _ _ _ Hp) as [Hle _].
    eapply parents_extends; [exact Hw|exact Hp| |exact E]. intros p a b Ha Hpa Hl Eb.
    do 2 (apply bind_Ret_iff in Eb as (? & _ & Eb)). injection Eb as <-.
    apply add_children_extends; [apply Ha|done|done|done].
Qed.

(** The path of a node leads down from the instance, one level at a time. *)
Lemma wf_path ns n : nodes_wf max ns -> n ∈ nodes_ ns ->
  map node_level (traverseUp n) = rev (seq 0 (S (node_level n))) /\
  head (getPathToNode n) = node_name <$> head (nodes_ ns) /\
  forall m, m ∈ traverseUp n -> m ∈ nodes_ ns.
Proof using.
  intros Hw. destruct Hw as [_ _ (i & rest & Ei & Hi & Hpi & Htree)].
  remember (node_level n) as l eqn:El. revert n El.
  induction l as [|l IH]; intros n El Hn; pose proof Hn as Hin; rewrite Ei in Hn;
    apply elem_of_cons in Hn as [->|Hn].
  - rewrite Ei. destruct i; cbn in *; subst. cbn. split; [done|]. split; [done|].
    intros m ->%list_elem_of_singleton. by left.
  - destruct (Htree n Hn) as (p & _ & _ & Hl & _). lia.
  - lia.
  - destruct (Htree n Hn) as (p & Hp & Hpar & Hl & _).
    destruct (IH p) as (Hlev & Hhd & Hup); [lia|done|].
    destruct n as [id name lev en par tags off]. cbn in Hpar, Hl, El. subst par lev.
    change (traverseUp (mkNode id name (S l) en (Some p) tags off)) with
      (mkNode id name (S l) en (Some p) tags off :: traverseUp p).
    rewrite seq_S, rev_app_distr. cbn [map node_level]. rewrite Hlev. split; [done|]. split.
    + cbn. rewrite <- Hhd. by destruct (getPathToNode p) eqn:E; [destruct p as [? ? ? ? [] ? ?]|];
        cbn in E; try (by destruct (getPathToNode n)).
    + intros m [->|Hm]%elem_of_cons; [done|]. by apply Hup.
Qed.
End Trees.

(** C23: Whatever fetchers are configured, whatever their preferences and the
    scripts' output: when fetching succeeds, the nodes form a tree.  The
    instance is first, on level 0; every other node has a parent among the
    nodes, exactly one level up, and no node is below the configured levels.
    The path up from a node visits each level once, down to level 0, and stays
    among the nodes.  A node's id is that of its name in the name table. *)
Theorem fetched_nodes_tree {C} `{CronItems C} toString toInt toBool asString asInt format run_script
    levels table name cur_time configs ns max :
  getNumConfiguredLevels levels = Ret max -> table_wf table ->
  fetchNodesImpl toString toInt toBool asString asInt format run_script levels cur_time configs
    (newNodes table name) = Ret ns ->
  (exists i, head (nodes_ ns) = Some i /\ node_name i = name /\ node_parent i = None /\
     forall n, n ∈ tail (nodes_ ns) -> exists p, p ∈ nodes_ ns /\ node_parent n = Some p /\
       node_level n = S (node_level p)) /\
  forall n, n ∈ nodes_ ns ->
    (node_level n <= max)%nat /\
    map node_level (traverseUp n) = rev (seq 0 (S (node_level n))) /\
    head (getPathToNode n) = Some name /\
    (forall m, m ∈ traverseUp n -> m ∈ nodes_ ns) /\
    lookup_obj (NodeNameTable ns) (node_name n) = Some (node_id n).
Proof.
  intros Hmax Ht E.
  assert (He : extends max (newNodes table name) ns).
  { unfold fetchNodesImpl in E. eapply foldM_extends; [by apply newNodes_wf| |exact E].
    intros c a b _ Ha Eb. eapply fetch_extends; [done|apply Ha|exact Eb]. }
  destruct He as [Hw [l El]]. unfold newNodes, nodes_add in El. cbn in El.
  destruct (insert_obj table name) as [t id]. cbn in El.
  pose proof (fun n => wf_path max ns n Hw) as Hpath.
  destruct Hw as [_ Hids (i & rest & Ei & Hi & Hpi & Htree)].
  rewrite Ei in El. injection El as -> ->. cbn in *. split.
  - eexists. rewrite Ei. split; [done|]. split; [done|]. split; [done|].
    intros n Hn. destruct (Htree n Hn) as (p & Hp & ? & ? & _). rewrite Ei in Hp. eauto.
  - intros n Hn. destruct (Hpath n Hn) as (H1 & H2 & H3). split; [|split; [done|]].
    + rewrite Ei in Hn. apply elem_of_cons in Hn as [->|Hn]; [cbn; lia|].
      by destruct (Htree n Hn) as (p & _ & _ & _ & ?).
    + split; [by rewrite H2, Ei|]. split; [done|by apply Hids].
Qed.

(** ** Which timestamps the schedule gives *)

(** What the fetcher relies on: the first match is the first. *)
Class CronLaws (C : Type) {CI : CronItems C} := {
  cron_matches : C -> Z -> Prop;
  cron_in_range : C -> Z -> Prop;
  cron_first : forall c t, cron_in_range c t ->
    exists r, cron_findFirstMatch c t = Ret r /\
      match r with
      | Some v => t <= v /\ cron_matches c v /\ forall u, cron_matches c u -> t <= u -> v <= u
      | None => forall u, cron_matches c u -> u < t
      end
}.

Section Schedule.
Context {C : Type} {CI : CronItems C} {CL : CronLaws C}.
Context (asString : dynamic -> outcome string) (asInt : dynamic -> outcome Z).
Context (cur_time : Z).

(** The map that the pairs of an item and a timestamp in [P] give: the union
    of the tags, enabled unless an item disables it. *)
Definition accounts (P : @ScheduleItem C -> Z -> Prop) (tte : TimeToTagsAndEnabled) : Prop :=
  forall t,
    (is_Some (tte !! t) <-> exists i, P i t) /\
    forall tags e, tte !! t = Some (tags, e) ->
      (forall tag, tag ∈ tags <-> exists i, P i t /\ tag ∈ si_tags i) /\
      (e = true <-> forall i, P i t -> cur_time - t < enabled_lifetime_ i).

#[export] Instance accounts_proper :
  Proper (pointwise_relation _ (pointwise_relation _ iff) ==> (=) ==> iff) accounts.
Proof using.
  assert (H : forall P Q, pointwise_relation _ (pointwise_relation _ iff) P Q ->
    forall tte, accounts P tte -> accounts Q tte).
  { intros P Q HPQ tte Ha t. destruct (Ha t) as [H1 H2].
    assert (Hi : forall i, P i t <-> Q i t) by (intros i; apply HPQ).
    setoid_rewrite Hi in H1. setoid_rewrite Hi in H2. done. }
  intros P Q HPQ tte ? <-. split; apply H; intros i t; [|symmetry]; apply HPQ.
Qed.

Lemma addTime_accounts P tte item t :
  accounts P tte ->
  accounts (fun i u => P i u \/ i = item /\ u = t) (addTimeTagsAndEnabled tte item cur_time t).
Proof using.
  intros Ha u. destruct (Ha u) as [H1 H2]. unfold addTimeTagsAndEnabled.
  destruct (decide (u = t)) as [->|Hu].
  - split.
    { split; [intros _; exists item; by right|]. intros _. destruct (tte !! t) as [[? ?]|];
        rewrite lookup_insert_eq; by eexists. }
    intros tags e E. destruct (tte !! t) as [[tags0 e0]|] eqn:Et; rewrite lookup_insert_eq in E;
      injection E as <- <-.
    + destruct (H2 _ _ eq_refl) as [H3 H4]. split.
      * intros tag. rewrite elem_of_union, H3, elem_of_list_to_set. split.
        -- intros [(i & ? & ?)|?]; [exists i|exists item]; split; auto.
        -- intros (i & [?|[-> _]] & ?); [left; eauto|by right].
      * rewrite andb_true_iff, H4, Z.ltb_lt. split.
        -- intros [Hall Hi] i [?|[-> _]]; auto.
        -- intros Hall. split; [intros i Hi|]; apply Hall; auto.
    + assert (Hno : forall i, ~ P i t) by (intros i Hi; destruct H1 as [_ H1]; by destruct H1; [exists i|]).
      split.
      * intros tag. rewrite elem_of_list_to_set. split; [exists item; auto|].
        intros (i & [?|[-> _]] & ?); [by edestruct Hno|done].
      * rewrite Z.ltb_lt. split; [|intros Hall; apply Hall; auto].
        intros Hi i [?|[-> _]]; [by edestruct Hno|done].
  - assert (E : forall x, <[t:=x]> tte !! u = tte !! u) by (intros x; by rewrite lookup_insert_ne).
    assert (Hq : forall i, P i u \/ i = item /\ u = t <-> P i u) by (intros i; naive_solver).
    setoid_rewrite Hq. destruct (tte !! t) as [[? ?]|]; rewrite E; done.
Qed.

(** An item with a cron, the searches of which are in range. *)
Definition searchable (item : @ScheduleItem C) : Prop :=
  exists c, cron_ item = Some c /\
    forall t, cur_time - lifetime_ item < t <= Z.max cur_time (cur_time - lifetime_ item) + 1 ->
      cron_in_range c t.
(** The item gives a node for [t]. *)
Definition live (item : @ScheduleItem C) (t : Z) : Prop :=
  exists c, cron_ item = Some c /\ cron_matches c t /\ cur_time - lifetime_ item < t <= cur_time.

(** The loop ends within the time that is left, having added each match. *)
Lemma schedule_loop_total fuel P tte item c lo limit ev :
  (forall t, lo < t <= limit -> cron_in_range c t) -> cur_time < limit -> lo < ev <= limit ->
  (Z.to_nat (cur_time + 1 - ev) < fuel)%nat -> accounts P tte ->
  exists tte', schedule_loop fuel tte item c cur_time ev = Ret tte' /\
    accounts (fun i t => P i t \/ i = item /\ cron_matches c t /\ ev <= t <= cur_time) tte'.
Proof using.
  intros Hr Hlim. revert P tte ev. induction fuel as [|fuel IH]; intros P tte ev Hev Hfuel Ha; [lia|].
  cbn [schedule_loop]. destruct (cron_first c ev (Hr ev Hev)) as ([v|] & -> & Hv); cbn.
  - destruct Hv as (Hle & Hm & Hmin). destruct (Z.ltb_spec cur_time v).
    + exists tte. split; [done|]. eapply accounts_proper; [|done|exact Ha]. intros i t. split; [|auto].
      intros [?|(-> & Ht & ? & ?)]; [done|]. specialize (Hmin t Ht). lia.
    + destruct (IH _ _ (v + 1) ltac:(lia) ltac:(lia) (addTime_accounts P tte item v Ha))
        as (tte' & E & Ha'). exists tte'. split; [done|].
      eapply accounts_proper; [|done|exact Ha']. intros i t. split.
      * intros [?|(-> & Ht & ? & ?)]; [auto|]. specialize (Hmin t Ht).
        destruct (decide (t = v)) as [->|]; [auto|]. right. split; [done|]. split; [done|lia].
      * intros [[?|[-> ->]]|(-> & ? & ?)]; [by left|right..]; (split; [done|]; split; [done|lia]).
  - exists tte. split; [done|]. eapply accounts_proper; [|done|exact Ha]. intros i t. split; [|auto].
    intros [?|(-> & Ht & ? & ?)]; [done|]. specialize (Hv t Ht). lia.
Qed.

Lemma schedule_item_accounts P tte item :
  searchable item -> accounts P tte ->
  exists tte', schedule_item cur_time tte item = Ret tte' /\
    accounts (fun i t => P i t \/ i = item /\ live item t) tte'.
Proof using.
  intros (c & Hc & Hr) Ha. unfold schedule_item. rewrite Hc.
  destruct (schedule_loop_total (S (Z.to_nat (lifetime_ item))) P tte item c
    (cur_time - lifetime_ item) (Z.max cur_time (cur_time - lifetime_ item) + 1)
    (cur_time - lifetime_ item + 1)) as (tte' & E & Ha'); [done|lia|lia|lia|done|].
  exists tte'. split; [done|]. eapply accounts_proper; [|done|exact Ha']. intros i t.
  unfold live. rewrite Hc. split; (intros [?|(-> & Hm)]; [by left|right; split; [done|]]).
  - destruct Hm as (c' & [= <-] & ? & ?). split; [done|lia].
  - exists c. split; [done|]. split; [apply Hm|lia].
Qed.

(** All items. *)
Lemma schedule_accounts P tte cfgs items :
  Forall2 (fun d item => ScheduleItem_of asString asInt d = Ret item) cfgs items ->
  Forall searchable items -> accounts P tte ->
  exists tte', foldM (fun tte d =>
      let* item := ScheduleItem_of asString asInt d in schedule_item cur_time tte item) tte cfgs = Ret tte' /\
    accounts (fun i t => P i t \/ i ∈ items /\ live i t) tte'.
Proof using.
  intros Hp. revert P tte. induction Hp as [|d item cfgs items E _ IH]; intros P tte Hs Ha; cbn.
  - exists tte. split; [done|]. eapply accounts_proper; [|done|exact Ha]. intros i t.
    split; [|auto]. intros [?|[?%not_elem_of_nil _]]; done.
  - apply Forall_cons in Hs as [Hi Hs]. rewrite E. cbn.
    destruct (schedule_item_accounts P tte item Hi Ha) as (tte1 & -> & Ha1). cbn.
    destruct (IH _ tte1 Hs Ha1) as (tte' & -> & Ha'). exists tte'. split; [done|].
    eapply accounts_proper; [|done|exact Ha']. intros i t. rewrite elem_of_cons. naive_solver.
Qed.
End Schedule.

(** ** The nodes that [add_time] makes *)

Section AddTime.
Context {C : Type} {CI : CronItems C} {CL : CronLaws C}.
Context (toString : dynamic -> outcome string).
Context (asString : dynamic -> outcome string) (asInt : dynamic -> outcome Z).
Context (format : string -> list (string * string) -> outcome string).
Context (levels : StringTable).

(** The node that the items give the parent and time. *)
Definition node_for (items : list (@ScheduleItem C)) (cur_time : Z) (level : nat)
    (name : Node -> Z -> string) (pt : Node * Z) (n : Node) : Prop :=
  node_parent n = Some pt.1 /\ node_name n = name pt.1 pt.2 /\ node_level n = level /\
  (forall tag, tag ∈ node_tags n <->
     exists i, i ∈ items /\ live cur_time i pt.2 /\ tag ∈ si_tags i) /\
  (node_enabled n = true <->
     forall i, i ∈ items -> live cur_time i pt.2 -> cur_time - pt.2 < enabled_lifetime_ i).

Lemma nodes_add_nodes ns name level enabled parent tags :
  exists n, nodes_ (nodes_add ns name level enabled parent tags).1 = nodes_ ns ++ [n] /\
    node_parent n = parent /\ node_name n = name /\ node_level n = level /\ node_tags n = tags /\
    node_enabled n = enabled.
Proof using.
  unfold nodes_add. destruct (insert_obj (NodeNameTable ns) name) as [t id]. cbn. by eexists.
Qed.

(** A loop that adds, for each element, the nodes of [R]. *)
Lemma foldM_adds {A B} (R : B -> Node -> Prop) (g : A -> list B) (f : Nodes -> A -> outcome Nodes) l :
  (forall x ns, x ∈ l -> exists ns' added, f ns x = Ret ns' /\ nodes_ ns' = nodes_ ns ++ added /\
     Forall2 R (g x) added) ->
  forall ns, exists ns' added, foldM f ns l = Ret ns' /\ nodes_ ns' = nodes_ ns ++ added /\
    Forall2 R (flat_map g l) added.
Proof using.
  intros Hf. induction l as [|x l IH]; intros ns; cbn.
  - exists ns, []. by rewrite app_nil_r.
  - destruct (Hf x ns) as (ns1 & a1 & -> & E1 & H1); [by left|]. cbn.
    destruct (IH (fun y ns Hy => Hf y ns (list_elem_of_further _ _ _ Hy)) ns1) as (ns2 & a2 & -> & E2 & H2).
    exists ns2, (a1 ++ a2). rewrite E2, E1, app_assoc. split; [done|]. split; [done|by apply Forall2_app].
Qed.

(** The inner loop: one parent. *)
Lemma time_nodes (items : list (@ScheduleItem C)) cur_time level name format_str p tte ns :
  accounts cur_time (fun i t => i ∈ items /\ live cur_time i t) tte ->
  (forall i t, i ∈ items -> live cur_time i t -> time_name format format_str p t = Ret (name p t)) ->
  exists ns' added,
    foldM (fun ns x => let* nm := time_name format format_str p x.1 in
      Ret (nodes_add ns nm level x.2.2 (Some p) (elements x.2.1)).1) ns (map_to_list tte) = Ret ns' /\
    nodes_ ns' = nodes_ ns ++ added /\
    Forall2 (node_for items cur_time level name) (map (fun t => (p, t)) (map_to_list tte).*1) added.
Proof using.
  intros Ha Hname.
  replace (map (fun t => (p, t)) (map_to_list tte).*1)
    with (flat_map (fun x : Z * (gset string * bool) => [(p, x.1)]) (map_to_list tte)).
  2: { clear. induction (map_to_list tte) as [|x l IH]; [done|]. cbn. by rewrite IH. }
  apply foldM_adds. intros [t [tags e]] a1 Hx. cbn [fst snd]. apply elem_of_map_to_list in Hx.
  destruct (Ha t) as [Hlive Hat]. destruct (proj1 Hlive) as (i & Hi & Hl); [by eexists|].
  rewrite (Hname i t Hi Hl). cbn [mbind outcome_bind].
  destruct (nodes_add_nodes a1 (name p t) level e (Some p) (elements tags))
    as (n & En & H1 & H2 & H3 & H4 & H5).
  eexists _, [n]. split; [reflexivity|]. split; [exact En|]. apply Forall2_cons_2; [|done].
  destruct (Hat _ _ Hx) as [Ht He].
  split; [done|]. split; [done|]. split; [done|]. cbn [fst snd]. rewrite H4, H5, He. split.
  - intros tag. rewrite elem_of_elements, Ht. naive_solver.
  - naive_solver.
Qed.

(** The timestamps of the map. *)
Lemma accounts_times (items : list (@ScheduleItem C)) cur_time tte t :
  accounts cur_time (fun i t => i ∈ items /\ live cur_time i t) tte ->
  t ∈ (map_to_list tte).*1 <-> exists i, i ∈ items /\ live cur_time i t.
Proof using.
  intros Ha. destruct (Ha t) as [<- _]. rewrite list_elem_of_fmap. split.
  - intros ([t' x] & -> & Hx%elem_of_map_to_list). by exists x.
  - intros [x Hx]. exists (t, x). split; [done|]. by apply elem_of_map_to_list.
Qed.

(** C24: [add_time] gives every parent one node for each time at which some
    schedule item is live: matched by its cron, at most the current time and
    less than its lifetime ago.  The node has the tags of all such items, and
    is enabled if none of them is past its enabled lifetime.  There are no other
    nodes, the loops end, and nothing is thrown.

    This is for a schedule that can be read, the items of which all have a cron
    with searches in range ([searchable]: an item whose cron is missing is a
    null pointer that the code dereferences), a level and parents that are
    found, and a format that fmt accepts for the parents and the live times.
    That a cron finds its first match ([CronLaws]) is shown by [zoned_laws] for
    [epoch] items and, in a zone without daylight saving time, for the others,
    as long as ranges are not reversed and the search stays within its limit of
    iterations. *)
Theorem add_time_nodes prefs ns cur_time cfgs items level parents format_str name :
  assoc "schedule" prefs = Some (DArray cfgs) ->
  convert toString prefs "format" "{parent}:{time}" = Ret format_str ->
  (forall p i t, p ∈ parents -> i ∈ items -> live cur_time i t ->
     time_name format format_str p t = Ret (name p t)) ->
  getMyLevelAndParents toString levels prefs ns = Ret (level, parents) ->
  Forall2 (fun d item => ScheduleItem_of asString asInt d = Ret item) cfgs items ->
  Forall (searchable cur_time) items ->
  exists ns' added times,
    add_time_fetch toString asString asInt format levels cur_time prefs ns = Ret ns' /\
    nodes_ ns' = nodes_ ns ++ added /\
    NoDup times /\ (forall t, t ∈ times <-> exists i, i ∈ items /\ live cur_time i t) /\
    Forall2 (node_for items cur_time level name) (list_prod parents times) added.
Proof using.
  intros Hsch Hfs Hname Hpar Hitems Hs. unfold add_time_fetch, settings_get, makeTimestampsToTagsAndEnabled.
  rewrite Hsch, Hfs. cbn [mbind outcome_bind default].
  destruct (schedule_accounts asString asInt cur_time (fun _ _ => False) ∅ cfgs items Hitems Hs)
    as (tte & Ett & Ha).
  { intros t. rewrite lookup_empty. split; [split; [by intros [? ?]|by intros [? []]]|done]. }
  assert (Ha' : accounts cur_time (fun i t => i ∈ items /\ live cur_time i t) tte).
  { eapply accounts_proper; [|done|exact Ha]. intros i t. naive_solver. }
  change (fun x => id x) with (@id dynamic). unfold id. rewrite Ett, Hpar. cbn [mbind outcome_bind].
  set (f := fun ns parent => foldM _ ns (map_to_list tte)).
  destruct (foldM_adds (node_for items cur_time level name)
    (fun p => map (fun t => (p, t)) (map_to_list tte).*1) f parents) with (ns := ns)
    as (ns' & added & E & Eadd & HR).
  { intros p a Hp. apply time_nodes; [done|]. intros i t. by apply Hname. }
  exists ns', added, (map_to_list tte).*1. split; [exact E|]. split; [done|].
  split; [apply NoDup_fst_map_to_list|]. split; [intros t; by apply accounts_times|].
  replace (list_prod parents (map_to_list tte).*1)
    with (flat_map (fun p => map (fun t => (p, t)) (map_to_list tte).*1) parents); [done|].
  clear. induction parents as [|p l IH]; [done|]. cbn. by rewrite IH.
Qed.
End AddTime.

(** ** Cron items *)

(** The items of [Cron] and [CronItem], in a time zone. *)
#[export] Instance zoned_items `{PosixTime} (asInt : dynamic -> outcome Z) (tz : time_zone)
    (nested : nat) : CronItems CrontabItem := {
  cron_fromDynamic := fromDynamic asInt;
  cron_findFirstMatch c t :=
    match c with
    | EpochItem sel => epoch_findFirstMatch sel t
    | StandardItem item => item_findFirstMatch tz item nested t
    end
}.

Section Zoned.
Context {P : PosixTime} {PL : PosixTimeLaws P} (asInt : dynamic -> outcome Z).
Context (z : zone_rules) (tz : time_zone) (nested : nat).
Hypothesis Hzone : implements z tz.
Hypothesis Hfixed : forall u, dst_at z u = false.
Hypothesis Hminutes : (60 | off_std z).

Definition item_matches (c : CrontabItem) : Z -> Prop :=
  match c with EpochItem sel => selects sel | StandardItem item => matches_at z item end.
Definition item_in_range (c : CrontabItem) (t : Z) : Prop :=
  match c with
  | EpochItem sel => selector_wf sel /\ in_order sel /\ t + period_ sel <= INT64_MAX
  | StandardItem item =>
      item_wf item /\ 1969 <= tm_year (to_tm (round_up t + off_std z)) + 1900 <= 9999 /\
      is_ret (item_findFirstMatch tz item (S nested) t) = true
  end.

Lemma item_first c t : item_in_range c t ->
  exists r, @cron_findFirstMatch _ (zoned_items asInt tz (S nested)) c t = Ret r /\
    match r with
    | Some v => t <= v /\ item_matches c v /\ forall u, item_matches c u -> t <= u -> v <= u
    | None => forall u, item_matches c u -> u < t
    end.
Proof using PL Hzone Hfixed Hminutes.
  destruct c as [sel|item]; cbn [item_in_range item_matches cron_findFirstMatch zoned_items].
  - intros (Hwf & Ho & Ht). destruct (findFirstMatch_ok sel t Hwf Ho Ht) as (v & c & Hf & Hv & H1 & H2).
    unfold epoch_findFirstMatch. rewrite Hf. cbn. eexists. split; [done|]. destruct c; [|naive_solver].
    intros u Hu. by apply H2.
  - intros (Hwf & Hy & Hret).
    pose proof (fixed_zone_match z tz item Hzone Hwf Hfixed Hminutes nested t Hy) as Hm.
    destruct (item_findFirstMatch tz item (S nested) t) as [r| | |]; try done.
    exists r. split; [done|]. by destruct r.
Qed.

(** The laws hold of items with the [epoch] key, and of the others in a zone
    without daylight saving time, as long as the search does not hit its limit
    of iterations. *)
#[export] Instance zoned_laws : @CronLaws CrontabItem (zoned_items asInt tz (S nested)) := {|
  cron_matches := item_matches; cron_in_range := item_in_range; cron_first := item_first
|}.
End Zoned.

(** ** The example of [AddTimeFetcher.h] *)

Definition plain_string (d : dynamic) : outcome string :=
  match d with DString s => Ret s | _ => Throw "TypeError" end.
Definition plain_bool (d : dynamic) : outcome bool :=
  match d with DBool b => Ret b | _ => Throw "TypeError" end.
(** A formatter for the two default formats. *)
Definition plain_format (format_str : string) (args : list (string * string)) : outcome string :=
  let arg k := snd <$> List.find (fun p => String.eqb p.1 k) args in
  match arg "parent", arg "time", arg "i" with
  | Some p, Some t, _ => Ret (p +:+ ":" +:+ t)
  | Some p, _, Some i => Ret (p +:+ "__" +:+ i)
  | _, _, _ => Throw "argument not found"
  end.
Definition no_script (script name : string) : outcome (list string) := Throw "no such file".
Definition utc : zone_rules := mkRules 0 0 (fun _ => false).
#[local] Instance sample_items : CronItems CrontabItem := zoned_items plain_asInt (boost_of utc) 1.
#[local] Instance sample_laws : CronLaws CrontabItem :=
  zoned_laws plain_asInt utc (boost_of utc) 0 (boost_of_implements utc) (fun _ => eq_refl)
    (Z.divide_0_r 60).

Definition sample_levels : StringTable := parse_levels ["something"; "something_with_time"].
Definition sample_schedule : list dynamic :=
  [DObject [("cron", DObject [("epoch", DObject [("period", DInt 900)])]);
            ("lifetime", DInt 7200); ("tags", DArray [DString "15m"])];
   DObject [("cron", DObject [("epoch", DObject [("period", DInt 3600)])]);
            ("lifetime", DInt 7200); ("enabled_lifetime", DInt 3600); ("tags", DArray [DString "60m"])]].
Definition sample_sources : list NodeConfig :=
  [mkNodeConfig "range_label"
     [("parent_level", DString "instance"); ("start", DInt 1); ("end", DInt 3)];
   mkNodeConfig "add_time"
     [("parent_level", DString "something"); ("schedule", DArray sample_schedule)]].
Definition sample_fetch (configs : list NodeConfig) : outcome Nodes :=
  fetchNodesImpl plain_string plain_asInt plain_bool plain_string plain_asInt plain_format no_script
    sample_levels 1400000000 configs (newNodes emptyTable "scheduler").

(** Three nodes, with eight times each: all tagged 15m, two also 60m, of which
    the older is disabled. *)
Lemma fetched_nodes_tree_witness :
  exists ns, sample_fetch sample_sources = Ret ns /\ length (nodes_ ns) = 28%nat /\
    length (List.filter (fun n => bool_decide ("60m" ∈ node_tags n)) (nodes_ ns)) = 6%nat /\
    length (List.filter (fun n => negb (node_enabled n)) (nodes_ ns)) = 3%nat /\
    forall n, n ∈ nodes_ ns -> (node_level n <= 2)%nat.
Proof.
  assert (exists ns, sample_fetch sample_sources = Ret ns) as [ns E]
    by (eexists; vm_compute; reflexivity).
  exists ns. split; [exact E|].
  pose proof (fetched_nodes_tree plain_string plain_asInt plain_bool plain_string plain_asInt plain_format
    no_script sample_levels emptyTable "scheduler" 1400000000 sample_sources ns 2 eq_refl) as H.
  specialize (H emptyTable_wf E). vm_compute in E. injection E as <-.
  split; [reflexivity|]. split; [vm_compute; reflexivity|]. split; [vm_compute; reflexivity|].
  intros n Hn. by apply H.
Defined.

Definition sample_item_of (period enabled : Z) (tag : string) : ScheduleItem :=
  mkScheduleItem 7200 enabled [tag]
    (Some (EpochItem (mkSelector [] 0 TIME_MAX period 0 TIME_MAX))).
Lemma sample_searchable period enabled tag :
  1 <= period <= 10000 -> searchable 1400000000 (sample_item_of period enabled tag).
Proof.
  intros Hp. eexists. split; [reflexivity|]. intros t Ht. cbn in Ht |- *.
  assert (Hmax : INT64_MAX = 9223372036854775807) by reflexivity. unfold TIME_MAX. split; [|split].
  - split; cbn; rewrite ?Hmax; try lia; [constructor|by intros v ?%not_elem_of_nil].
  - intros _. cbn. rewrite Hmax. lia.
  - rewrite Hmax. lia.
Qed.

Lemma add_time_nodes_witness :
  exists ns ns' added times, sample_fetch (take 1 sample_sources) = Ret ns /\
    add_time_fetch plain_string plain_string plain_asInt plain_format sample_levels 1400000000
      [("parent_level", DString "something"); ("schedule", DArray sample_schedule)] ns = Ret ns' /\
    nodes_ ns' = nodes_ ns ++ added /\ 1399996800 ∈ times /\ (1400000400 ∉ times) /\
    Forall2 (node_for [sample_item_of 900 7200 "15m"; sample_item_of 3600 3600 "60m"] 1400000000 2
      (fun p t => (node_name p +:+ ":" +:+ pretty t)%string)) (list_prod (iterateOverLevel ns 1) times) added.
Proof.
  assert (exists ns, sample_fetch (take 1 sample_sources) = Ret ns) as [ns E]
    by (eexists; vm_compute; reflexivity).
  destruct (add_time_nodes plain_string plain_string plain_asInt plain_format sample_levels
    [("parent_level", DString "something"); ("schedule", DArray sample_schedule)] ns 1400000000
    sample_schedule [sample_item_of 900 7200 "15m"; sample_item_of 3600 3600 "60m"] 2
    (iterateOverLevel ns 1) "{parent}:{time}" (fun p t => (node_name p +:+ ":" +:+ pretty t)%string))
    as (ns' & added & times & E' & Hadd & _ & Ht & HF).
  - reflexivity.
  - reflexivity.
  - intros p i t _ _ _. reflexivity.
  - reflexivity.
  - repeat (apply Forall2_cons_2; [reflexivity|]). apply Forall2_nil_2.
  - repeat (apply Forall_cons_2; [apply sample_searchable; lia|]). apply Forall_nil_2.
  - exists ns, ns', added, times. split; [exact E|]. split; [exact E'|]. split; [exact Hadd|].
    split; [|split; [|exact HF]].
    + apply Ht. exists (sample_item_of 900 7200 "15m"). split; [by left|]. eexists. split; [reflexivity|].
      cbn. split; [|lia]. split; [split; [lia|vm_compute; discriminate]|]. by exists 1555552.
    + intros (i & Hi & (c & _ & _ & ?))%Ht. lia.
Defined.

(** ** The nodes that [manual] makes *)

(** A path down from [name]. *)
Inductive chain (st : ManualNodeState) : string -> list string -> Prop :=
| chain_end name : chain st name [name]
| chain_child name child q :
    child ∈ children_of st name -> chain st child q -> chain st name (name :: q).

(** The nodes that are added below the path [pre]: one for each path from one
    of the names, unless one of them is too long. *)
Definition adds_paths (st : ManualNodeState) (pre : list string) (room : nat) (names : list string)
    (ns : Nodes) (r : outcome Nodes) : Prop :=
  match r with
  | Ret ns' => exists added, nodes_ ns' = nodes_ ns ++ added /\
      (forall name q, name ∈ names -> chain st name q -> (length q <= room)%nat /\
         exists n, n ∈ added /\ getPathToNode n = pre ++ q) /\
      (forall n, n ∈ added ->
         node_enabled n = negb (bool_decide (node_name n ∈ isDisabled_ st)) /\
         exists name q, name ∈ names /\ chain st name q /\ getPathToNode n = pre ++ q)
  | Throw _ => exists name q, name ∈ names /\ chain st name q /\ (room < length q)%nat
  | _ => False
  end.

Lemma foldM_adds_paths st pre room (f : Nodes -> string -> outcome Nodes) names :
  (forall name ns, name ∈ names -> adds_paths st pre room [name] ns (f ns name)) ->
  forall ns, adds_paths st pre room names ns (foldM f ns names).
Proof.
  intros Hf. induction names as [|name names IH]; intros ns; cbn.
  - exists []. rewrite app_nil_r. split; [done|]. split; [by intros ? ? ?%not_elem_of_nil|].
    by intros ? ?%not_elem_of_nil.
  - pose proof (Hf name ns (list_elem_of_here _ _)) as H1. destruct (f ns name) as [ns1|m|m|m]; cbn in *; try done.
    + specialize (IH (fun x ns Hx => Hf x ns (list_elem_of_further _ _ _ Hx)) ns1).
      destruct H1 as (a1 & E1 & Hin1 & Hout1). destruct (foldM f ns1 names) as [ns2|m|m|m]; cbn in *; try done.
      * destruct IH as (a2 & E2 & Hin2 & Hout2). exists (a1 ++ a2). rewrite E2, E1, app_assoc.
        split; [done|]. split.
        -- intros x q [->|Hx]%elem_of_cons Hq.
           ++ destruct (Hin1 name q (list_elem_of_here _ _) Hq) as (? & n & ? & ?). split; [done|].
              exists n. set_solver.
           ++ destruct (Hin2 x q Hx Hq) as (? & n & ? & ?). split; [done|]. exists n. set_solver.
        -- intros n [Hn|Hn]%elem_of_app.
           ++ destruct (Hout1 n Hn) as (? & x & q & ->%list_elem_of_singleton & ? & ?). split; [done|].
              exists name, q. set_solver.
           ++ destruct (Hout2 n Hn) as (? & x & q & ? & ? & ?). split; [done|]. exists x, q. set_solver.
      * destruct IH as (x & q & ? & ?). exists x, q. set_solver.
    + destruct H1 as (x & q & ->%list_elem_of_singleton & ?). exists name, q. set_solver.
Qed.

Lemma recursiveAdd_paths st room ns name p level :
  adds_paths st (getPathToNode p) room [name] ns (recursiveAdd room st ns name p level).
Proof.
  revert ns name p level. induction room as [|room IH]; intros ns name p level.
  { exists name, [name]. split; [by left|]. split; [constructor|]. cbn. lia. }
  cbn [recursiveAdd].
  unfold nodes_add. destruct (insert_obj (NodeNameTable ns) name) as [t id].
  set (n0 := mkNode _ _ _ _ _ _ _). set (ns1 := mkNodes _ t).
  assert (Hpath : getPathToNode n0 = getPathToNode p ++ [name]) by done.
  pose proof (foldM_adds_paths st (getPathToNode n0) room
    (fun ns child => recursiveAdd room st ns child n0 (S level)) (children_of st name)
    (fun child ns _ => IH ns child n0 (S level)) ns1) as Hk.
  rewrite Hpath in Hk. destruct (foldM _ ns1 _) as [ns2|m|m|m]; cbn in Hk |- *; try done.
  - destruct Hk as (a & Ea & Hin & Hout). exists (n0 :: a). rewrite Ea. cbn. rewrite <- app_assoc.
    split; [done|]. split.
    + intros x q ->%list_elem_of_singleton Hq. inversion Hq as [|? child q' Hc Hq']; subst.
      * cbn. split; [lia|]. exists n0. split; [by left|done].
      * destruct (Hin child q' Hc Hq') as (? & n & ? & Hn). cbn. split; [lia|]. exists n.
        split; [by right|]. by rewrite Hn, <- app_assoc.
    + intros n [->|Hn]%elem_of_cons.
      * split; [done|]. exists name, [name]. split; [by left|]. split; [constructor|done].
      * destruct (Hout n Hn) as (? & child & q & Hc & Hq & Hp). split; [done|].
        exists name, (name :: q). split; [by left|]. split; [by econstructor|]. by rewrite Hp, <- app_assoc.
  - destruct Hk as (child & q & Hc & Hq & ?). exists name, (name :: q). split; [by left|].
    split; [by econstructor|]. cbn. lia.
Qed.

(** The keys of the preferences that no preference has as a child. *)
Definition manual_root (prefs : SettingsMap) (st : ManualNodeState) (name : string) : Prop :=
  name ∈ map fst prefs /\ ~ exists p, p ∈ parentToChildren_ st /\ name ∈ p.2.

Lemma has_parent_spec st name :
  has_parent st name = true <-> exists p, p ∈ parentToChildren_ st /\ name ∈ p.2.
Proof.
  unfold has_parent. rewrite existsb_exists. setoid_rewrite existsb_exists.
  setoid_rewrite <- list_elem_of_In. setoid_rewrite String.eqb_eq. naive_solver.
Qed.

Lemma manual_roots prefs st name :
  name ∈ List.filter (fun name => negb (has_parent st name)) (map fst prefs) <-> manual_root prefs st name.
Proof.
  rewrite list_elem_of_In, filter_In, <- list_elem_of_In. unfold manual_root.
  rewrite <- has_parent_spec. destruct (has_parent st name); naive_solver.
Qed.

(** [manual] adds a node for each path down from a name without a parent,
    and no other; a node is enabled unless its preference disables it.  It fails
    exactly if there is no such name, or a path is longer than the configured
    levels. *)
Theorem manual_paths asString levels prefs st ns max i rest :
  getNumConfiguredLevels levels = Ret max -> read_prefs asString prefs = Ret st ->
  nodes_ ns = i :: rest -> node_parent i = None ->
  let path q := exists root, manual_root prefs st root /\ chain st root q in
  match manual_fetch asString levels prefs ns with
  | Ret ns' => exists added, nodes_ ns' = nodes_ ns ++ added /\
      (forall q, path q <-> exists n, n ∈ added /\ getPathToNode n = node_name i :: q) /\
      (forall n, n ∈ added ->
         (node_enabled n = true <-> node_name n ∉ isDisabled_ st) /\
         exists q, path q /\ getPathToNode n = node_name i :: q /\ (length q <= max)%nat)
  | Throw _ => (forall root, ~ manual_root prefs st root) \/ exists q, path q /\ (max < length q)%nat
  | _ => False
  end.
Proof.
  intros Hmax Hst Hns Hi path. unfold manual_fetch. rewrite Hmax, Hst. cbn [mbind outcome_bind].
  unfold getInstance. rewrite Hns. cbn [mbind outcome_bind].
  pose proof (manual_roots prefs st) as Hroots. set (roots := List.filter _ _) in *.
  pose proof (foldM_adds_paths st (getPathToNode i) max
    (fun ns name => recursiveAdd max st ns name i 1) roots
    (fun name ns _ => recursiveAdd_paths st max ns name i 1) ns) as H.
  assert (Epath : getPathToNode i = [node_name i]) by (destruct i; cbn in *; by subst).
  rewrite Epath in H. destruct (foldM _ ns roots) as [ns1|m|m|m]; cbn in H |- *; try done.
  - assert (Hno : roots = [] -> forall root, ~ manual_root prefs st root).
    { intros Hr root Hroot%Hroots. rewrite Hr in Hroot. by apply not_elem_of_nil in Hroot. }
    destruct H as (added & E & Hin & Hout).
    destruct roots as [|r roots'] eqn:Er; [left; by apply Hno|]. rewrite <- Er in *. clear Hno.
    exists added. split; [by rewrite E, Hns|]. split.
    + intros q. split.
      * intros (root & Hr & Hq). by apply (Hin root q); [apply Hroots|].
      * intros (n & Hn & Hp). destruct (Hout n Hn) as (_ & root & q' & Hr & Hq & Hp').
        rewrite Hp in Hp'. injection Hp' as ->. exists root. split; [by apply Hroots|done].
    + intros n Hn. destruct (Hout n Hn) as (He & root & q & Hr & Hq & Hp). rewrite He. split.
      * rewrite negb_true_iff, bool_decide_eq_false. done.
      * exists q. split; [exists root; split; [by apply Hroots|done]|]. split; [done|].
        by apply (Hin root q Hr Hq).
  - right. destruct H as (root & q & Hr & Hq & Hlen). exists q. split; [|done].
    exists root. split; [by apply Hroots|done].
Qed.

(** A tree of two levels; b is shared by two parents, and gives two nodes. *)
Definition sample_manual : SettingsMap :=
  [("a", DArray [DString "b"; DString "c"]); ("d", DString "b");
   ("c", DObject [("disabled", DBool true)])].
Definition sample_manual_state : ManualNodeState :=
  mkManual [("a", ["b"; "c"]); ("d", ["b"]); ("c", [])] ["c"].

Lemma manual_paths_witness :
  exists ns', manual_fetch plain_string sample_levels sample_manual (newNodes emptyTable "scheduler") = Ret ns' /\
    map node_name (nodes_ ns') = ["scheduler"; "a"; "b"; "c"; "d"; "b"] /\
    map node_enabled (nodes_ ns') = [true; true; true; false; true; true] /\
    exists n, n ∈ nodes_ ns' /\ getPathToNode n = ["scheduler"; "a"; "c"].
Proof.
  pose proof (manual_paths plain_string sample_levels sample_manual sample_manual_state
    (newNodes emptyTable "scheduler") 2 (mkNode 0 "scheduler" 0 true None [] 0) []
    eq_refl eq_refl eq_refl eq_refl) as H. cbv zeta in H.
  destruct (manual_fetch _ _ _ _) as [ns'|m|m|m] eqn:E; [|vm_compute in E; discriminate..].
  exists ns'. split; [reflexivity|]. destruct H as (added & Ha & Hp & _).
  destruct (proj1 (Hp ["a"; "c"])) as (n & Hn & Hpath).
  - exists "a". split.
    + apply manual_roots. vm_compute. by left.
    + apply (chain_child _ "a" "c" ["c"]); [vm_compute; right; by left|constructor].
  - assert (Hin : n ∈ nodes_ ns') by (rewrite Ha; apply elem_of_app; by right).
    clear Ha Hp Hn. vm_compute in E. injection E as <-. split; [reflexivity|]. split; [reflexivity|].
    exists n. split; [exact Hin|exact Hpath].
Defined.

(** ** At the edges *)

(** A key [disabled] disables a node, whatever its value; nodes that are only
    in a cycle are dropped without an error; an item without [cron]
    dereferences a null pointer; a range that ends at the largest integer
    overflows. *)
Theorem fetcher_edges :
  manual_pref plain_string (DObject [("disabled", DBool false)]) = Ret ([], true) /\
  map node_name <$> (nodes_ <$> match manual_fetch plain_string sample_levels
      [("a", DArray []); ("b", DString "c"); ("c", DString "b")] (newNodes emptyTable "scheduler") with
    | Ret ns => Some ns | _ => None end) = Some ["scheduler"; "a"] /\
  makeTimestampsToTagsAndEnabled plain_string plain_asInt 0
    (DArray [DObject [("lifetime", DInt 60)]]) = Undef "null pointer" /\
  int_range 0 INT32_MAX = Undef "signed overflow".
Proof. repeat split. Qed.
