(* ===== verification/Bistro.v ===== *)
(** [Bistro.cpp]: the scheduler's main loop, which composes the loaders of the
    configuration and the nodes, [TaskStatuses], [Scheduler] and a task runner,
    and kills orphaned tasks.

    The runner is used through the class [TaskRunner], the interface of
    [runners/TaskRunner.h]; [remote_runner] implements it with [Runner] and
    [no_op_runner] with [runners/NoOpRunner.cpp].  What the loaders return is an
    argument of a round, the members of a job that [Jobs.Job] leaves out are a
    function of it.  Logging and the monitor's error reports are dropped. *)

From stdpp Require Import base gmap strings list sorting.
From Stdlib Require Import ZArith QArith Lia.
From S2P Require Import Prelude Thrift Dynamic Backoff TaskStatus SymbolTable Snapshot WorkerState.
From S2P Require Import RemoteWorker RemoteWorkers Scheduling Config Jobs Selectors Resources Runner.
From S2P Require Import Scheduler Subprocess.

#[local] Open Scope Z_scope.

(** ** Data *)

(** The members of [Job] that only the runner and the main loop read. *)
Record JobExtras := mkExtras {
  je_config : dynamic;
  je_backoffSettings : JobBackoffSettings;
  je_killOrphanTasksAfter : option Z;
  je_killRequest : KillRequest
}.

(** [Config]: what the scheduler and the runner read, and the rest. *)
Record BistroConfig := mkBistroConfig {
  bc_sched : Scheduler.Config;
  bc_runner : RunnerConfig;
  bc_enabled : bool;
  idleWait : Z;
  workingWait : Z;
  killOrphanTasksAfter : option Z;
  killRequest : KillRequest;
  bc_extras : Job -> JobExtras
}.

(** [TaskRunner], with the statuses that it shares with the main loop. *)
Class TaskRunner (R : Type) := {
  tr_statuses : R -> TaskStatuses;
  tr_set_statuses : R -> TaskStatuses -> R;
  tr_updateConfig : R -> BistroConfig -> outcome R;
  tr_runTask : R -> BistroConfig -> Job -> Node -> option TaskStatus ->
    outcome (R * TaskRunnerResponse);
  canKill : R -> bool;
  tr_killTask : R -> RunningTask -> KillRequest -> outcome R
}.

Definition TaskID : Type := string * string.

(** [Bistro]: the runner, and [orphanTaskIDToKillTime_]. *)
Record Bistro (R : Type) := mkBistro {
  taskRunner_ : R;
  orphanTaskIDToKillTime_ : gmap TaskID Z
}.
Arguments mkBistro {R} _ _.
Arguments taskRunner_ {R} _.
Arguments orphanTaskIDToKillTime_ {R} _.

Definition kSleepOnError : Z := 5000.

Definition task_id (rt : RunningTask) : TaskID := (rt_job rt, rt_node rt).

Section Loop.
Context {R : Type} `{TaskRunner R}.

(** ** Orphans *)

(** The policy for an orphan: when and how to kill it. *)
Definition orphan_policy (config : BistroConfig) (rt : RunningTask) : option (Z * KillRequest) :=
  match cfg_jobs (bc_sched config) !! rt_job rt with
  | None =>
      match killOrphanTasksAfter config with
      | None => None
      | Some kill_after => Some (kill_after, killRequest config)
      end
  | Some job =>
      match je_killOrphanTasksAfter (bc_extras config job) with
      | None => None
      | Some kill_after => Some (kill_after, je_killRequest (bc_extras config job))
      end
  end.

(** [taskRunner_->killTask] in its [try] block. *)
Definition try_kill (r : R) (rt : RunningTask) (req : KillRequest) : outcome R :=
  match tr_killTask r rt req with Throw _ => Ret r | o => o end.

Abbreviation Orphans := (gmap TaskID Z * R * list (RunningTask * KillRequest))%type.

(** One orphan.  The requests that were made are kept, in order. *)
Definition orphan_step (config : BistroConfig) (time_since_epoch : Z) (old : gmap TaskID Z)
    (acc : Orphans) (rt : RunningTask) : outcome Orphans :=
  let '(new_id_to_kill_time, r, killed) := acc in
  match orphan_policy config rt with
  | None => Ret acc
  | Some (kill_after, req) =>
      let kill_time := match old !! task_id rt with
                       | None => time_since_epoch + kill_after
                       | Some t => t
                       end in
      if time_since_epoch <? kill_time
      then Ret (<[task_id rt := kill_time]> new_id_to_kill_time, r, killed)
      else let* r := try_kill r rt req in Ret (new_id_to_kill_time, r, killed ++ [(rt, req)])
  end.

Definition process_orphans (config : BistroConfig) (time_since_epoch : Z) (b : Bistro R)
    (orphans : list RunningTask) : outcome (Bistro R * list (RunningTask * KillRequest)) :=
  let* (ids, r, killed) :=
    if canKill (taskRunner_ b)
    then foldM (orphan_step config time_since_epoch (orphanTaskIDToKillTime_ b))
           (∅, taskRunner_ b, []) orphans
    else Ret (∅, taskRunner_ b, []) in
  Ret (mkBistro r ids, killed).

(** ** A round *)

Context (regex_search : string -> string -> bool) (hasher : string -> string -> Z).
Context (now : Z) (fetch : list string -> list StoreRow).
Context (sort_jobs : (@JobWithNodes Job -> @JobWithNodes Job -> bool) ->
                     list (@JobWithNodes Job) -> list (@JobWithNodes Job)).
Context (pick : nat -> list Q -> nat).
Context (sort_nodes : (nat -> nat -> bool) -> list nat -> list nat).
Context (shuffle_nodes : list nat -> list nat).
Context (shuffle_jobs : list Job -> list Job).
Context (group_order : list nat).

(** The callback that the scheduler is given. *)
Definition run_task_cb (config : BistroConfig) (snap : TaskStatusSnapshot) (r : R) (job : Job)
    (node : Node) : outcome (R * TaskRunnerResponse) :=
  noexcept (let* prev_status := getPtr snap (job_id job) (node_id node) in
            tr_runTask r config job node prev_status).

(** The part of a round that needs a configuration and nodes. *)
Definition schedule_round (b : Bistro R) (time_since_epoch : Z) (config : BistroConfig)
    (nodes : list NodeObj) (offsets : list nat)
    : outcome (Bistro R * list (RunningTask * KillRequest) * Z) :=
  let cur_time := Z.quot time_since_epoch 1000 in
  let r := taskRunner_ b in
  let* ts := ts_updateForConfig now fetch (tr_statuses r)
               (map (fun p => job_id p.2) (map_to_list (cfg_jobs (bc_sched config)))) in
  let* r := tr_updateConfig (tr_set_statuses r ts) config in
  let status_snapshot := snapshot_ (tr_statuses r) in
  let* (sched_result, st, _, _) :=
    schedule regex_search hasher (run_task_cb config status_snapshot) sort_jobs pick sort_nodes
      shuffle_nodes shuffle_jobs group_order cur_time (bc_sched config) nodes offsets status_snapshot r in
  let* (b, killed) :=
    process_orphans config time_since_epoch (mkBistro (env st) (orphanTaskIDToKillTime_ b))
      (orphanTasks_ sched_result) in
  Ret (b, killed, if areTasksRunning_ sched_result then workingWait config else idleWait config).

(** [Bistro::scheduleOnce]; it returns how long to wait. *)
Definition scheduleOnce (b : Bistro R) (time_since_epoch : Z) (config : outcome BistroConfig)
    (nodes : outcome (list NodeObj)) (offsets : list nat)
    : outcome (Bistro R * list (RunningTask * KillRequest) * Z) :=
  match config with
  | Ret config =>
      if negb (bc_enabled config) then Ret (b, [], idleWait config)
      else
        match nodes with
        | Ret [] => Ret (b, [], idleWait config)
        | Ret nodes => noexcept (schedule_round b time_since_epoch config nodes offsets)
        | Throw _ => Ret (b, [], kSleepOnError)
        | Crash m => Crash m
        | Undef m => Undef m
        end
  | Throw _ => Ret (b, [], kSleepOnError)
  | Crash m => Crash m
  | Undef m => Undef m
  end.
End Loop.

(** ** Killing orphans *)

(** A round, as far as orphans are concerned. *)
Record Round := mkRound {
  round_time : Z;
  round_cfg : BistroConfig;
  round_orphans : list RunningTask;
  round_killed : list (RunningTask * KillRequest)
}.

(** In this round the task was an orphan that may be killed, after so long. *)
Definition orphaned (id : TaskID) (k : Z) (r : Round) : Prop :=
  exists rt req, rt ∈ round_orphans r /\ task_id rt = id /\
    orphan_policy (round_cfg r) rt = Some (k, req).
Definition killed_in (id : TaskID) (r : Round) : Prop :=
  exists rt req, (rt, req) ∈ round_killed r /\ task_id rt = id.
#[export] Instance killed_in_dec id r : Decision (killed_in id r).
Proof.
  refine (cast_if (decide (id ∈ map (fun p => task_id p.1) (round_killed r)))); unfold killed_in;
    rewrite list_elem_of_fmap in *.
  - abstract (destruct e as ([rt req] & -> & Hin); by exists rt, req).
  - abstract (intros (rt & req & Hin & Hid); destruct n; exists (rt, req); by split).
Defined.

Section Orphaned.
Context {R : Type} `{TaskRunner R}.
Hypothesis kill_returns : forall r rt req, exists r', try_kill r rt req = Ret r'.

(** When an orphan is to be killed. *)
Definition kill_time_of (old : gmap TaskID Z) (now k : Z) (id : TaskID) : Z :=
  match old !! id with None => now + k | Some t => t end.

Lemma orphan_policy_id config rt rt' :
  task_id rt = task_id rt' -> orphan_policy config rt = orphan_policy config rt'.
Proof. unfold task_id, orphan_policy. by intros [= -> _]. Qed.

(** What the loop has done after some of the orphans. *)
Record orphans_done (config : BistroConfig) (now : Z) (old : gmap TaskID Z) (seen : list RunningTask)
    (ids : gmap TaskID Z) (killed : list (RunningTask * KillRequest)) : Prop := {
  od_later id t : ids !! id = Some t <->
    now < t /\ exists rt k req, rt ∈ seen /\ task_id rt = id /\
      orphan_policy config rt = Some (k, req) /\ t = kill_time_of old now k id;
  od_killed rt req : (rt, req) ∈ killed <->
    rt ∈ seen /\ exists k, orphan_policy config rt = Some (k, req) /\
      kill_time_of old now k (task_id rt) <= now
}.

Lemma orphan_step_done config now old seen ids r killed rt :
  orphans_done config now old seen ids killed ->
  exists ids' r' killed', orphan_step config now old (ids, r, killed) rt = Ret (ids', r', killed') /\
    orphans_done config now old (seen ++ [rt]) ids' killed'.
Proof using kill_returns.
  intros Hd. unfold orphan_step. destruct (orphan_policy config rt) as [[k req]|] eqn:Ep.
  - fold (kill_time_of old now k (task_id rt)). set (t0 := kill_time_of old now k (task_id rt)).
    destruct (Z.ltb_spec now t0).
    + eexists _, _, _. split; [reflexivity|]. split.
      * intros id t. rewrite lookup_insert_Some, (od_later _ _ _ _ _ _ Hd). split.
        -- intros [[<- <-]|(Hne & Ht & rt' & k' & req' & Hin & H1)].
           ++ split; [done|]. exists rt, k, req. set_solver.
           ++ split; [done|]. exists rt', k', req'. set_solver.
        -- intros (Ht & rt' & k' & req' & Hin & <- & Hp & ->).
           destruct (decide (task_id rt = task_id rt')) as [E|Hne].
           ++ left. split; [done|]. rewrite <- (orphan_policy_id _ _ _ E), Ep in Hp. injection Hp as <- <-.
              unfold t0. by rewrite E.
           ++ right. split; [done|]. split; [done|]. exists rt', k', req'. split; [|done].
              apply elem_of_app in Hin as [?| ->%list_elem_of_singleton]; done.
      * intros rt' req'. rewrite (od_killed _ _ _ _ _ _ Hd), elem_of_app, list_elem_of_singleton.
        split; [naive_solver|]. intros [[?| ->] (k' & Hp & Hle)]; [eauto|].
        rewrite Ep in Hp. injection Hp as <- <-. fold t0 in Hle. lia.
    + destruct (kill_returns r rt req) as [r' ->]. cbn. eexists _, _, _. split; [reflexivity|]. split.
      * intros id t. rewrite (od_later _ _ _ _ _ _ Hd). split.
        -- intros (Ht & rt' & k' & req' & Hin & H1). split; [done|]. exists rt', k', req'. set_solver.
        -- intros (Ht & rt' & k' & req' & Hin & <- & Hp & ->). split; [done|]. exists rt', k', req'.
           split; [|done]. apply elem_of_app in Hin as [?| ->%list_elem_of_singleton]; [done|].
           rewrite Ep in Hp. injection Hp as <- <-. fold t0 in Ht. lia.
      * intros rt' req'. rewrite !elem_of_app, !list_elem_of_singleton, (od_killed _ _ _ _ _ _ Hd).
        split.
        -- intros [[? ?]|[= -> ->]]; [by split; [left|]|]. split; [by right|]. exists k. split; [done|lia].
        -- intros [[?| ->] (k' & Hp & Hle)]; [eauto|]. rewrite Ep in Hp. injection Hp as <- <-. by right.
  - eexists _, _, _. split; [reflexivity|]. split.
    + intros id t. rewrite (od_later _ _ _ _ _ _ Hd). split; intros (Ht & rt' & k' & req' & Hin & Hid & Hp);
        (split; [done|]; exists rt', k', req'; split; [|done]); [set_solver|].
      apply elem_of_app in Hin as [?| ->%list_elem_of_singleton]; [done|]. by rewrite Ep in Hp; destruct Hp.
    + intros rt' req'. rewrite (od_killed _ _ _ _ _ _ Hd), elem_of_app, list_elem_of_singleton.
      split; [intros [? ?]; split; [by left|done]|]. intros [[?| ->] (k' & Hp & ?)]; [eauto|]. by rewrite Ep in Hp.
Qed.

Lemma process_orphans_done config now b orphans :
  canKill (taskRunner_ b) = true ->
  exists b' killed, process_orphans config now b orphans = Ret (b', killed) /\
    orphans_done config now (orphanTaskIDToKillTime_ b) orphans (orphanTaskIDToKillTime_ b') killed.
Proof using kill_returns.
  intros Hc. unfold process_orphans. rewrite Hc. set (old := orphanTaskIDToKillTime_ b).
  enough (Hf : forall todo seen ids r killed, orphans_done config now old seen ids killed ->
    exists ids' r' killed', foldM (orphan_step config now old) (ids, r, killed) todo = Ret (ids', r', killed') /\
      orphans_done config now old (seen ++ todo) ids' killed').
  { destruct (Hf orphans [] ∅ (taskRunner_ b) []) as (ids & r & killed & -> & Hd).
    - split; [intros id t; rewrite lookup_empty|intros rt req]; set_solver.
    - eexists (mkBistro r ids), killed. by split. }
  induction todo as [|rt todo IH]; intros seen ids r killed Hd.
  - exists ids, r, killed. by rewrite app_nil_r.
  - destruct (orphan_step_done config now old seen ids r killed rt Hd) as (ids1 & r1 & k1 & E & Hd1).
    cbn [foldM]. rewrite E. cbn [mbind outcome_bind].
    destruct (IH (seen ++ [rt]) ids1 r1 k1 Hd1) as (ids2 & r2 & k2 & E2 & Hd2).
    exists ids2, r2, k2. rewrite <- app_assoc in Hd2. done.
Qed.

(** The rounds of a run, with the kill times they leave.  Between rounds the
    runner may do anything; it can always kill. *)
Inductive rounds : list Round -> gmap TaskID Z -> Prop :=
| rounds_start : rounds [] ∅
| rounds_next h b now config orphans b' killed :
    rounds h (orphanTaskIDToKillTime_ b) -> canKill (taskRunner_ b) = true ->
    process_orphans config now b orphans = Ret (b', killed) ->
    rounds (h ++ [mkRound now config orphans killed]) (orphanTaskIDToKillTime_ b').

(** In all these rounds the task was an orphan, and was not killed. *)
Definition waiting (id : TaskID) (l : list Round) : Prop :=
  Forall (fun r => (exists k, orphaned id k r) /\ ~ killed_in id r) l.

Lemma round_cases config now old orphans ids killed id k :
  orphans_done config now old orphans ids killed ->
  orphaned id k (mkRound now config orphans killed) ->
  (killed_in id (mkRound now config orphans killed) <-> kill_time_of old now k id <= now) /\
  (ids !! id = if decide (kill_time_of old now k id <= now) then None else Some (kill_time_of old now k id)).
Proof using.
  intros Hd (rt & req & Hin & Hid & Hp). cbn in Hin, Hp.
  assert (Huniq : forall rt' k' req', task_id rt' = id -> orphan_policy config rt' = Some (k', req') ->
    k' = k /\ req' = req).
  { intros rt' k' req' Hid' Hp'. rewrite (orphan_policy_id _ rt' rt), Hp in Hp' by congruence.
    by injection Hp' as <- <-. }
  split.
  - unfold killed_in. cbn. setoid_rewrite (od_killed _ _ _ _ _ _ Hd). split.
    + intros (rt' & req' & (Hin' & k' & Hp' & Hle) & Hid'). destruct (Huniq _ _ _ Hid' Hp') as [-> _].
      by rewrite Hid' in Hle.
    + intros Hle. exists rt, req. split; [|done]. split; [done|]. exists k. by rewrite Hid.
  - destruct (decide (kill_time_of old now k id <= now)) as [Hle|Hgt].
    + destruct (ids !! id) as [t|] eqn:E; [|done]. apply (od_later _ _ _ _ _ _ Hd) in E.
      destruct E as (Hlt & rt' & k' & req' & _ & Hid' & Hp' & ->).
      destruct (Huniq _ _ _ Hid' Hp') as [-> _]. lia.
    + apply (od_later _ _ _ _ _ _ Hd). split; [lia|]. exists rt, k, req. done.
Qed.

Lemma not_orphaned_forgotten config now old orphans ids killed id t :
  orphans_done config now old orphans ids killed -> ids !! id = Some t ->
  exists k, orphaned id k (mkRound now config orphans killed) /\ t = kill_time_of old now k id /\
    ~ killed_in id (mkRound now config orphans killed).
Proof using.
  intros Hd E. pose proof (proj1 (od_later _ _ _ _ _ _ Hd id t) E) as (Hlt & rt & k & req & Hin & Hid & Hp & Ht).
  assert (Ho : orphaned id k (mkRound now config orphans killed)) by (by exists rt, req).
  exists k. split; [done|]. split; [done|]. rewrite (proj1 (round_cases _ _ _ _ _ _ _ _ Hd Ho)). lia.
Qed.

(** The kill times: of the tasks that wait since a round [f]. *)
Lemma rounds_waiting h ids id t :
  rounds h ids -> ids !! id = Some t ->
  exists h0 f h2 k, h = h0 ++ f :: h2 /\ orphaned id k f /\ t = round_time f + k /\
    waiting id (f :: h2).
Proof using kill_returns.
  intros Hr. revert t. induction Hr as [|h b now config orphans b' killed Hr IH Hc E]; intros t Ht; [done|].
  destruct (process_orphans_done config now b orphans Hc) as (b2 & killed2 & E2 & Hd).
  rewrite E in E2. injection E2 as <- <-.
  destruct (not_orphaned_forgotten _ _ _ _ _ _ _ _ Hd Ht) as (k & Ho & -> & Hk).
  set (r := mkRound now config orphans killed) in *. unfold kill_time_of in *.
  destruct (orphanTaskIDToKillTime_ b !! id) as [t0|] eqn:E0.
  - destruct (IH t0 eq_refl) as (h0 & f & h2 & k0 & -> & Hf & -> & Hw).
    exists h0, f, (h2 ++ [r]), k0. rewrite <- app_assoc. split; [done|]. split; [done|]. split; [done|].
    apply (Forall_app_2 _ (f :: h2) [r]); [done|]. apply Forall_singleton. eauto.
  - exists h, r, [], k. split; [done|]. split; [done|]. split; [done|]. apply Forall_singleton. eauto.
Qed.

Lemma rounds_inv h r ids :
  rounds (h ++ [r]) ids ->
  exists old, rounds h old /\
    orphans_done (round_cfg r) (round_time r) old (round_orphans r) ids (round_killed r).
Proof using kill_returns.
  intros Hr. inversion Hr as [E|h' b now config orphans b' killed Hh Hc E Eh]; [by destruct h|].
  apply app_inj_2 in Eh as [-> [= <-]]; [|done].
  destruct (process_orphans_done config now b orphans Hc) as (b2 & killed2 & E2 & Hd).
  rewrite E in E2. injection E2 as <- <-. exists (orphanTaskIDToKillTime_ b). done.
Qed.

(** If the policy for the task does not change, it is killed at the latest at
    [k] after the first of the rounds since which it is an orphan. *)
Lemma kill_time_bound h ids id k t :
  rounds h ids -> (forall r k', r ∈ h -> orphaned id k' r -> k' = k) ->
  StronglySorted (fun a b => round_time a <= round_time b) h ->
  ids !! id = Some t -> forall r, last h = Some r -> t <= round_time r + k.
Proof using kill_returns.
  intros Hr Hk Hs Ht r Hlast.
  destruct (rounds_waiting h ids id t Hr Ht) as (h0 & f & h2 & k0 & -> & Hf & -> & _).
  rewrite (Hk f k0) by (done || set_solver). apply Z.add_le_mono_r.
  apply StronglySorted_app_1_r in Hs. apply StronglySorted_inv in Hs as [_ Hall].
  rewrite last_app_cons in Hlast. destruct h2 as [|g h2]; [by injection Hlast as ->|].
  rewrite Forall_forall in Hall. apply Hall, last_Some_elem_of. by rewrite <- Hlast.
Qed.

Lemma late_orphan h0 f h2 ids id k :
  rounds (h0 ++ f :: h2) ids -> (forall r k', r ∈ h0 ++ f :: h2 -> orphaned id k' r -> k' = k) ->
  StronglySorted (fun a b => round_time a <= round_time b) (h0 ++ f :: h2) ->
  Forall (orphaned id k) (f :: h2) -> Forall (fun r => ~ killed_in id r) (f :: h2) ->
  exists t, ids !! id = Some t /\ t <= round_time f + k /\
    forall r, r ∈ f :: h2 -> round_time r < t.
Proof using kill_returns.
  revert ids. induction h2 as [|r h2 IH] using rev_ind; intros ids Hr Hk Hs Ho Hn.
  - destruct (rounds_inv h0 f ids Hr) as (old & Hold & Hd). rewrite Forall_singleton in Ho, Hn.
    destruct f as [now config orphans killed]. cbn in Hd.
    destruct (round_cases _ _ _ _ _ _ _ _ Hd Ho) as [Hkill Hids]. rewrite Hkill in Hn.
    rewrite decide_False in Hids by done. eexists. split; [exact Hids|]. split.
    + unfold kill_time_of. destruct (old !! id) as [t0|] eqn:E0; cbn; [|lia].
      destruct (last h0) as [g|] eqn:El.
      * assert (Hg : t0 <= round_time g + k).
        { eapply kill_time_bound; [exact Hold| |by apply StronglySorted_app_1_l in Hs|exact E0|done].
          intros r k' Hin. apply Hk. set_solver. }
        apply StronglySorted_app_1_elem_of with (x1 := g) (x2 := mkRound now config orphans killed) in Hs;
          [cbn in Hs; lia|by apply last_Some_elem_of|by left].
      * apply last_None in El as ->.
        destruct (rounds_waiting [] old id t0 Hold E0) as (h1 & ? & ? & ? & Eh & _). by destruct h1.
    + intros r ->%list_elem_of_singleton. cbn. lia.
  - rewrite app_comm_cons, app_assoc in Hr. destruct (rounds_inv _ r ids Hr) as (old & Hold & Hd).
    rewrite app_comm_cons in Ho, Hn. apply Forall_app in Ho as [Ho Hor], Hn as [Hn Hnr].
    rewrite Forall_singleton in Hor, Hnr.
    destruct (IH old Hold) as (t & Et & Hle & Hlt); [|by rewrite app_comm_cons, app_assoc in Hs;
      apply StronglySorted_app_1_l in Hs|done|done|].
    { intros r' k' Hin. apply Hk. set_solver. }
    destruct r as [now config orphans killed]. cbn in Hd.
    destruct (round_cases _ _ _ _ _ _ _ _ Hd Hor) as [Hkill Hids]. rewrite Hkill in Hnr.
    rewrite decide_False in Hids by done. unfold kill_time_of in *. rewrite Et in *.
    exists t. split; [done|]. split; [done|]. intros r'. rewrite app_comm_cons.
    intros [?| ->%list_elem_of_singleton]%elem_of_app; [by apply Hlt|]. cbn. lia.
Qed.

(** C9: In any run, a task is killed only if it was an orphan, with a policy to
    kill it, in every round since one that is at least the configured time ago,
    and was not killed in those rounds.  Conversely, if times do not go back and
    the policy does not change, a task that is an orphan in all rounds over such
    a time is killed in one of them. *)
Theorem orphans_killed_in_time h ids id :
  rounds h ids ->
  (forall h1 r, h = h1 ++ [r] -> killed_in id r ->
     exists h0 l f k, h = h0 ++ l ++ [r] /\ waiting id l /\ (exists k', orphaned id k' r) /\
       head (l ++ [r]) = Some f /\ orphaned id k f /\ round_time f + k <= round_time r) /\
  (forall h0 f h2 k, h = h0 ++ f :: h2 ->
     (forall r k', r ∈ h -> orphaned id k' r -> k' = k) ->
     StronglySorted (fun a b => round_time a <= round_time b) h ->
     Forall (orphaned id k) (f :: h2) ->
     (exists r, r ∈ f :: h2 /\ round_time f + k <= round_time r) ->
     exists r, r ∈ f :: h2 /\ killed_in id r).
Proof using kill_returns.
  intros Hr. split.
  - intros h1 r -> (rt & req & Hin & Hid). destruct (rounds_inv h1 r ids Hr) as (old & Hold & Hd).
    apply (od_killed _ _ _ _ _ _ Hd) in Hin as (Hin & k & Hp & Hle). rewrite Hid in Hle.
    assert (Hor : orphaned id k r) by (by exists rt, req).
    unfold kill_time_of in Hle. destruct (old !! id) as [t|] eqn:E.
    + destruct (rounds_waiting h1 old id t Hold E) as (h0 & f & h2 & k0 & -> & Hf & -> & Hw).
      exists h0, (f :: h2), f, k0. rewrite <- app_assoc. split_and!; eauto.
    + exists h1, [], r, k. split_and!; eauto. constructor.
  - intros h0 f h2 k -> Hk Hs Ho (r & Hin & Hle).
    destruct (decide (Exists (killed_in id) (f :: h2))) as [[x ?]%Exists_exists|Hno]; [eauto|].
    apply not_Exists_Forall in Hno; [|apply _].
    destruct (late_orphan h0 f h2 ids id k Hr Hk Hs Ho Hno) as (t & _ & Hle' & Hlt).
    specialize (Hlt r Hin). lia.
Qed.
End Orphaned.

(** ** The runner with remote workers *)

(** The runner and the requests that it handed to the event base. *)
Record RemoteWorld := mkWorld {
  world_runner : Runner;
  world_requests : list Request
}.

(** [TaskRunner::runTask] and the methods of [RemoteWorkerRunner]; [rnd] gives
    the random part of the n-th invocation ID. *)
#[export] Instance remote_runner (flags : Flags) (regex_search : string -> string -> bool)
    (hasher : string -> string -> Z) (store : option (string -> string -> TaskResult -> outcome unit))
    (observers : list (RunningTask -> TaskStatus -> outcome unit)) (now : Z) (rnd : nat -> Z)
    (sync_killTask : BistroWorker -> RunningTask -> KillRequest -> outcome unit) : TaskRunner RemoteWorld := {
  tr_statuses w := taskStatuses_ (world_runner w);
  tr_set_statuses w ts := mkWorld (set_statuses (world_runner w) ts) (world_requests w);
  tr_updateConfig w config :=
    let* r := updateConfig (world_runner w) (bc_runner config) in Ret (mkWorld r (world_requests w));
  tr_runTask w config job node prev_status :=
    let* (r, reqs, response) :=
      runTask flags regex_search hasher store observers (world_runner w) now
        (rnd (length (world_requests w))) (cfg_tables (bc_sched config)) job
        (je_config (bc_extras config job)) (je_backoffSettings (bc_extras config job)) node prev_status in
    Ret (mkWorld r (world_requests w ++ reqs), response);
  canKill _ := true;
  tr_killTask w rt req :=
    let* worker := killTask (world_runner w) rt in
    let* _ := sync_killTask worker rt req in Ret w
}.

Lemma remote_kill_returns flags regex_search hasher store observers now rnd sync_killTask r rt req :
  (forall w rt req, match sync_killTask w rt req with Ret _ | Throw _ => True | _ => False end) ->
  exists r', @try_kill _ (remote_runner flags regex_search hasher store observers now rnd sync_killTask)
    r rt req = Ret r'.
Proof.
  intros Hs. unfold try_kill. cbn. unfold killTask.
  destruct (workerPool_ _ !! _) as [w|]; [|by eexists]. cbn. specialize (Hs (worker_ w) rt req).
  destruct (sync_killTask _ _ _); try done; by eexists.
Qed.

(** ** A round of the main loop *)

Section RoundOfLoop.
Context {R : Type} `{TaskRunner R}.
Hypothesis kill_returns : forall r rt req, exists r', try_kill r rt req = Ret r'.
Context (regex_search : string -> string -> bool) (hasher : string -> string -> Z).
Context (now : Z) (fetch : list string -> list StoreRow).
Context (sort_jobs : (@JobWithNodes Job -> @JobWithNodes Job -> bool) ->
                     list (@JobWithNodes Job) -> list (@JobWithNodes Job)).
Context (pick : nat -> list Q -> nat).
Context (sort_nodes : (nat -> nat -> bool) -> list nat -> list nat).
Context (shuffle_nodes : list nat -> list nat).
Context (shuffle_jobs : list Job -> list Job).
Context (group_order : list nat).
Context (b : Bistro R) (time_since_epoch : Z).

Abbreviation once := (scheduleOnce regex_search hasher now fetch sort_jobs pick sort_nodes shuffle_nodes
                        shuffle_jobs group_order b time_since_epoch).

(** A task that the configuration and the nodes have no use for. *)
Definition unwanted (cfg : Scheduler.Config) (nodes : list NodeObj) (rt : RunningTask) : Prop :=
  ~ (job_can_run (cfg_jobs cfg) rt = true /\
     exists i o, nodes !! i = Some o /\ obj_enabled o = true /\ obj_name o = rt_node rt).

(** The configuration, nodes and statuses of a round are well-formed, and
    the runner returns. *)
Record round_ready (config : BistroConfig) (nodes : list NodeObj) (nl : nat) (ts : TaskStatuses) (r : R)
    : Prop := {
  rr_statuses : ts_updateForConfig now fetch (tr_statuses (taskRunner_ b))
    (map (fun p => job_id p.2) (map_to_list (cfg_jobs (bc_sched config)))) = Ret ts;
  rr_update : tr_updateConfig (tr_set_statuses (taskRunner_ b) ts) config = Ret r;
  rr_env : environment_ok (run_task_cb config (snapshot_ (tr_statuses r))) sort_jobs pick sort_nodes
    shuffle_nodes shuffle_jobs group_order nl;
  rr_input : input_wf (bc_sched config) nodes nl;
  rr_names : names_level nodes;
  rr_jobs : jobs_ok (bc_sched config) nl (snapshot_ (tr_statuses r));
  rr_running : running_ok (bc_sched config) nodes
    (map snd (map_to_list (runningTasks_ (snapshot_ (tr_statuses r)))))
}.

Lemma scheduled_orphans {E} cb nl cur_time cfg nodes offsets snap (e : E) result st jobs stopped :
  environment_ok cb sort_jobs pick sort_nodes shuffle_nodes shuffle_jobs group_order nl ->
  input_wf cfg nodes nl -> names_level nodes -> length offsets = length nodes ->
  running_ok cfg nodes (map snd (map_to_list (runningTasks_ snap))) ->
  schedule regex_search hasher cb sort_jobs pick sort_nodes shuffle_nodes shuffle_jobs group_order
    cur_time cfg nodes offsets snap e = Ret (result, st, jobs, stopped) ->
  forall rt, rt ∈ orphanTasks_ result <->
    rt ∈ map snd (map_to_list (runningTasks_ snap)) /\ unwanted cfg nodes rt.
Proof using.
  intros Henv Hin Hnames Hlen Hrun Es rt. unfold schedule in Es.
  destruct (running_left cb sort_jobs pick sort_nodes shuffle_nodes shuffle_jobs group_order cfg nodes nl
    Henv Hin Hnames offsets _ Hlen Hrun) as (offs & packed & groups & packed' & orphans & E1 & _ & E2 & _ & _ & Ho).
  rewrite E1 in Es. cbn [mbind outcome_bind] in Es. rewrite E2 in Es. cbn [mbind outcome_bind] in Es.
  apply bind_Ret_iff in Es as (js & _ & Es). apply bind_Ret_iff in Es as (policy & _ & Es).
  apply bind_Ret_iff in Es as ([[st' jobs'] stopped'] & _ & Es). injection Es as <- _ _ _. apply Ho.
Qed.

(** What a round that has a configuration and nodes does. *)
Definition round_done (c : BistroConfig) (ns : list NodeObj) (nl : nat) (r : R)
    (res : outcome (Bistro R * list (RunningTask * KillRequest) * Z)) : Prop :=
  let snap := snapshot_ (tr_statuses r) in
  exists b' killed orphans offs packed st jobs stopped,
    res = Ret (b', killed,
      if bool_decide (runningTasks_ snap <> ∅ \/ ran (tried st) <> []) then workingWait c else idleWait c) /\
    accounts (mkSchedState packed r 0 [])
      (schedulable regex_search hasher (Z.quot time_since_epoch 1000) (bc_sched c) nl snap (node_values ns offs))
      st (pending jobs) stopped /\
    (forall rt, rt ∈ orphans <->
       rt ∈ map snd (map_to_list (runningTasks_ snap)) /\ unwanted (bc_sched c) ns rt) /\
    if canKill (env st)
    then orphans_done c time_since_epoch (orphanTaskIDToKillTime_ b) orphans
           (orphanTaskIDToKillTime_ b') killed
    else killed = [] /\ b' = mkBistro (env st) ∅.

Lemma schedule_round_done c ns nl ts r offsets :
  round_ready c ns nl ts r -> length offsets = length ns ->
  round_done c ns nl r
    (schedule_round regex_search hasher now fetch sort_jobs pick sort_nodes shuffle_nodes shuffle_jobs
       group_order b time_since_epoch c ns offsets).
Proof using kill_returns.
  intros [Hts Hup Henv Hin Hnames Hjobs Hrun] Hlen. unfold schedule_round.
  rewrite Hts. cbn [mbind outcome_bind]. rewrite Hup. cbn [mbind outcome_bind].
  set (snap := snapshot_ (tr_statuses r)) in *.
  destruct (schedule_returns regex_search hasher (run_task_cb c snap) sort_jobs pick sort_nodes shuffle_nodes
    shuffle_jobs group_order (Z.quot time_since_epoch 1000) (bc_sched c) ns nl snap Henv Hin Hnames Hjobs
    offsets r Hlen Hrun) as (offs & packed & result & st & jobs & stopped & Es & _ & Hacc & _ & Hare).
  pose proof (scheduled_orphans _ _ _ _ _ _ _ _ _ _ _ _ Henv Hin Hnames Hlen Hrun Es) as Horph.
  rewrite Es. cbn [mbind outcome_bind].
  set (b1 := mkBistro (env st) (orphanTaskIDToKillTime_ b)).
  assert (Ho : exists b' killed, process_orphans c time_since_epoch b1 (orphanTasks_ result) = Ret (b', killed) /\
    if canKill (env st)
    then orphans_done c time_since_epoch (orphanTaskIDToKillTime_ b) (orphanTasks_ result)
           (orphanTaskIDToKillTime_ b') killed
    else killed = [] /\ b' = mkBistro (env st) ∅).
  { destruct (canKill (env st)) eqn:Ek.
    - by destruct (process_orphans_done kill_returns c time_since_epoch b1 (orphanTasks_ result) Ek)
        as (b' & killed & E & Hd); eauto.
    - unfold process_orphans, b1. cbn [taskRunner_]. rewrite Ek. cbn. eauto. }
  destruct Ho as (b' & killed & -> & Hd). cbn [mbind outcome_bind].
  exists b', killed, (orphanTasks_ result), offs, packed, st, jobs, stopped.
  split; [|done]. do 2 f_equal. destruct (areTasksRunning_ result) eqn:Erun.
  - by rewrite bool_decide_eq_true_2 by (by apply Hare).
  - rewrite bool_decide_eq_false_2; [done|]. intros Hx. by apply Hare in Hx.
Qed.

(** C8: [scheduleOnce] on every branch.  Without a configuration or with
    nodes that could not be fetched it waits and changes nothing, as it does if
    the deployment is disabled or there are no nodes.  Otherwise, for a
    configuration, nodes and statuses that a round can handle ([round_ready]:
    limits below 2^31 - 1, uses of running tasks that do not overflow, a runner
    that returns), the round returns: it tries tasks that may run, and waits
    according to whether tasks were running or started.  A runner that can kill
    is asked to kill exactly the running tasks that no runnable job and enabled
    node want and whose kill time has come, and the kill times of those that
    are to be killed later are kept; with a runner that cannot, nothing is
    killed and no kill time is kept. *)
Theorem scheduleOnce_contract config nodes offsets :
  match config, nodes with
  | Throw _, _ => once config nodes offsets = Ret (b, [], kSleepOnError)
  | Ret c, Throw _ =>
      once config nodes offsets = Ret (b, [], if bc_enabled c then kSleepOnError else idleWait c)
  | Ret c, Ret [] => once config nodes offsets = Ret (b, [], idleWait c)
  | Ret c, Ret ns =>
      if bc_enabled c then
        forall nl ts r, round_ready c ns nl ts r -> length offsets = length ns ->
          round_done c ns nl r (once config nodes offsets)
      else once config nodes offsets = Ret (b, [], idleWait c)
  | _, _ => True
  end.
Proof using kill_returns.
  destruct config as [c|m|m|m], nodes as [[|n ns]|m'|m'|m']; try done; unfold scheduleOnce;
    destruct (bc_enabled c); try done; cbn [negb].
  intros nl ts r Hready Hlen. pose proof (schedule_round_done c _ nl ts r offsets Hready Hlen) as Hd.
  destruct Hd as (b' & killed & orphans & offs & packed & st & jobs & stopped & E & Hd).
  exists b', killed, orphans, offs, packed, st, jobs, stopped. split; [by rewrite E|exact Hd].
Qed.
End RoundOfLoop.

(** ** A sample loop *)

(** A runner that runs nothing and records what it is asked to kill. *)
Record SampleRunner := mkSample { sample_statuses : TaskStatuses; sample_killed : list RunningTask }.
#[local] Instance sample_runner : TaskRunner SampleRunner := {
  tr_statuses := sample_statuses;
  tr_set_statuses r ts := mkSample ts (sample_killed r);
  tr_updateConfig r _ := Ret r;
  tr_runTask r _ _ _ _ := Ret (r, DidNotRunTask);
  canKill _ := true;
  tr_killTask r rt _ := Ret (mkSample (sample_statuses r) (sample_killed r ++ [rt]))
}.
Lemma sample_kill_returns (r : SampleRunner) rt req : exists r', try_kill r rt req = Ret r'.
Proof. by eexists. Qed.

(** Job a is gone, its task (a, db1) is still running. *)
Definition loop_config : BistroConfig :=
  mkBistroConfig
    (mkConfig sample_levels sample_tables {["b" := round_job 1 "b" []]} Lexicographic "roundrobin")
    sample_config true 5000 500 (Some 1000) (mkKillRequest KILL 0)
    (fun _ => mkExtras DNull (mkBackoff [] true) None (mkKillRequest TERM 0)).
Definition loop_names : NameTables :=
  mkNames (tableOf ["a"; "b"]) (tableOf ["scheduler"; "host1"; "db1"; "db2"]).
Definition loop_state : Bistro SampleRunner :=
  mkBistro (mkSample (mkTaskStatuses round_snapshot loop_names []) []) {[("a", "db1") := 1400000000000]}.

Definition loop_statuses : TaskStatuses :=
  mkTaskStatuses
    (mkSnapshot [mkRow true [emptyStatus 0; emptyStatus 0; running 1400000000; done_at 0]; mkRow true []]
       {[(0%nat, 2%nat) := round_task]}) loop_names [].
Definition loop_runner : SampleRunner := mkSample loop_statuses [].

Lemma loop_ready :
  round_ready 1400000000 (fun _ => []) (fun r => insertion_sort r) (fun k ps => (k mod length ps)%nat)
    (fun r => insertion_sort r) (fun l => l) (fun l => l) round_order loop_state loop_config round_nodes 4
    loop_statuses loop_runner.
Proof.
  split.
  - vm_compute. reflexivity.
  - reflexivity.
  - split; try apply round_environment. intros e j n. unfold run_task_cb, getPtr.
    destruct (job_id j) as [|[|id]]; cbn; by eexists _, _.
  - split; apply round_input.
  - apply round_names.
  - split; [|cbn; set_solver|done]. intros s j Hj. cbn in Hj. apply lookup_singleton_Some in Hj as [_ <-].
    split; [reflexivity|by repeat constructor|reflexivity|repeat constructor|reflexivity|repeat constructor].
  - apply round_running.
Qed.

(** The task's kill time has come. *)
Lemma scheduleOnce_contract_witness :
  exists b killed, scheduleOnce (fun _ _ => false) (fun _ _ => 0) 1400000000 (fun _ => [])
      (fun r => insertion_sort r) (fun k ps => (k mod length ps)%nat) (fun r => insertion_sort r)
      (fun l => l) (fun l => l) round_order loop_state 1400000000500 (Ret loop_config) (Ret round_nodes)
      [0; 0; 0; 0]%nat = Ret (b, killed, 500) /\
    orphanTaskIDToKillTime_ b !! ("a", "db1") = None /\ (round_task, mkKillRequest KILL 0) ∈ killed.
Proof.
  destruct (scheduleOnce_contract sample_kill_returns (fun _ _ => false) (fun _ _ => 0) 1400000000
    (fun _ => []) (fun r => insertion_sort r) (fun k ps => (k mod length ps)%nat)
    (fun r => insertion_sort r) (fun l => l) (fun l => l) round_order loop_state 1400000000500
    (Ret loop_config) (Ret round_nodes) [0; 0; 0; 0]%nat 4%nat loop_statuses loop_runner
    loop_ready eq_refl) as (b & killed & orphans & offs & packed & st & jobs & stopped & E & _ & Ho & Hd).
  exists b, killed. split.
  - etransitivity; [exact E|]. by rewrite bool_decide_eq_true_2 by (left; vm_compute; discriminate).
  - assert (Hin : round_task ∈ orphans).
    { apply Ho. split; [vm_compute; by left|]. intros [Hj _]. vm_compute in Hj. discriminate. }
    split.
    + destruct (orphanTaskIDToKillTime_ b !! ("a", "db1")) as [t|] eqn:Et; [|done].
      apply (od_later _ _ _ _ _ _ Hd) in Et as (Hlt & rt & k & req & _ & _ & _ & ->).
      vm_compute in Hlt. discriminate.
    + apply (od_killed _ _ _ _ _ _ Hd). split; [exact Hin|]. exists 1000. split; [vm_compute; reflexivity|].
      vm_compute. discriminate.
Defined.

(** A task that is an orphan at 0 and at 1500 milliseconds is killed. *)
Definition sample_round (t : Z) (killed : list (RunningTask * KillRequest)) : Round :=
  mkRound t loop_config [round_task] killed.
Lemma orphans_killed_in_time_witness :
  exists ids killed, rounds (R := SampleRunner) [sample_round 0 []; sample_round 1500 killed] ids /\
    exists r, r ∈ [sample_round 0 []; sample_round 1500 killed] /\ killed_in ("a", "db1") r.
Proof.
  assert (Hr : rounds (R := SampleRunner)
    [sample_round 0 []; sample_round 1500 [(round_task, mkKillRequest KILL 0)]] ∅).
  { apply (rounds_next [sample_round 0 []] (mkBistro loop_runner {[("a", "db1") := 1000]}) 1500 loop_config
      [round_task] (mkBistro (mkSample loop_statuses [round_task]) ∅)); [|reflexivity|vm_compute; reflexivity].
    apply (rounds_next [] (mkBistro loop_runner ∅) 0 loop_config [round_task]
      (mkBistro loop_runner {[("a", "db1") := 1000]})); [constructor|reflexivity|vm_compute; reflexivity]. }
  exists ∅, [(round_task, mkKillRequest KILL 0)]. split; [exact Hr|].
  destruct (orphans_killed_in_time sample_kill_returns _ _ ("a", "db1") Hr) as [_ H].
  apply (H [] _ _ 1000 eq_refl).
  - intros r k Hin (rt & req & Ho & Hid & Hp).
    assert (Hc : round_cfg r = loop_config).
    { apply elem_of_cons in Hin as [->|Hin]; [reflexivity|].
      apply list_elem_of_singleton in Hin as ->. reflexivity. }
    rewrite Hc in Hp. assert (Hp' : orphan_policy loop_config rt = orphan_policy loop_config round_task)
      by (by apply orphan_policy_id). rewrite Hp' in Hp. vm_compute in Hp. by injection Hp as <- _.
  - repeat constructor. cbn. lia.
  - repeat constructor; exists round_task, (mkKillRequest KILL 0); (split; [by left|split; reflexivity]).
  - exists (sample_round 1500 [(round_task, mkKillRequest KILL 0)]). split; [right; by left|]. cbn. lia.
Defined.
