(* ===== verification/Poller.v ===== *)
(** [utils/PeriodicPoller.h], which refreshes a piece of data in the
    background, and [config/FileConfigLoader.cpp], which polls a file with it.

    A refresh is a function of what it observes: the fetch callback is an
    argument.  The contents of a file are what [ifstream] gives, which is the
    empty string if the file cannot be opened. *)

From stdpp Require Import base gmap strings list.
From Stdlib Require Import ZArith Lia.
From S2P Require Import Prelude Dynamic.

#[local] Open Scope Z_scope.

(** ** The poller *)

Record PollResult (D : Type) := mkPollResult {
  data_ : option D;          (* None: a null pointer *)
  ex_ : option string
}.
Arguments mkPollResult {D} _ _.
Arguments data_ {D} _.
Arguments ex_ {D} _.

(** [Result::setData] and [Result::setException]. *)
Definition setData {D} (d : option D) : PollResult D := mkPollResult d None.
Definition setException {D} (what : string) : PollResult D := mkPollResult None (Some what).

Record PeriodicPoller (St D : Type) := mkPoller {
  loaderState_ : St;
  result_ : PollResult D
}.
Arguments mkPoller {St D} _ _.
Arguments loaderState_ {St D} _.
Arguments result_ {St D} _.

(** [getDataOrThrow]. *)
Definition getDataOrThrow {St D} (p : PeriodicPoller St D) : outcome (option D) :=
  match ex_ (result_ p) with
  | Some what => Throw what
  | None => Ret (data_ (result_ p))
  end.

Section Refresh.
Context {Raw St D : Type}.
(** The default-constructed [PollerState]. *)
Context (default_state : St).
Context (processRawData : option D -> Raw -> outcome (option D)).
Context (period_ retryPeriod_ : Z).

(** What [fetchRawData_] does: the new state, with the raw data if they have
    changed. *)
Abbreviation FetchRawDataFn := (St -> option D -> outcome (St * option Raw)).

(** [refresh]; it returns the time to wait. *)
Definition refresh (fetchRawData_ : FetchRawDataFn) (p : PeriodicPoller St D)
    : outcome (PeriodicPoller St D * Z) :=
  let previous := data_ (result_ p) in
  match fetchRawData_ (loaderState_ p) previous with
  | Ret (st, None) =>
      Ret (mkPoller st (result_ p), match ex_ (result_ p) with Some _ => retryPeriod_ | None => period_ end)
  | Ret (st, Some raw_data) =>
      match processRawData previous raw_data with
      | Ret new_data => Ret (mkPoller st (setData new_data), period_)
      | Throw e => Ret (mkPoller st (setException e), retryPeriod_)
      | Crash m => Crash m
      | Undef m => Undef m
      end
  | Throw e => Ret (mkPoller default_state (setException e), retryPeriod_)
  | Crash m => Crash m
  | Undef m => Undef m
  end.

(** The constructor, up to the thread that keeps refreshing. *)
Definition newPoller (fetchRawData_ : FetchRawDataFn) : outcome (PeriodicPoller St D * Z) :=
  refresh fetchRawData_ (mkPoller default_state (mkPollResult None None)).

(** The rounds of the thread. *)
Definition refreshes (fetches : list FetchRawDataFn) (p : PeriodicPoller St D)
    : outcome (PeriodicPoller St D) :=
  foldM (fun p f => let* (p, _) := refresh f p in Ret p) p fetches.
End Refresh.

(** ** The loader of a configuration file *)

(** What a poll sees of the file: its modification time or the error of
    [last_write_time], and what it reads. *)
Record FileView := mkFile {
  last_write_time : outcome Z;
  file_contents : string
}.

(** The fetch callback; the state is [modificationTime_], at first 0. *)
Definition file_fetch {D} (f : FileView) (modificationTime_ : Z) (_ : option D)
    : outcome (Z * option string) :=
  let* cur_time := last_write_time f in
  if cur_time <=? modificationTime_ then Ret (modificationTime_, None)
  else Ret (cur_time, Some (file_contents f)).

Definition kSettingsKey : string := "bistro_settings".
Definition kJobPrefix : string := "bistro_job->".

Section ConfigFile.
Context {Cfg J : Type}.
Context (parseJson : string -> outcome dynamic).
Context (makeConfig : dynamic -> outcome Cfg) (makeJob : Cfg -> string -> dynamic -> outcome J).
Context (addJob : Cfg -> J -> option Cfg -> outcome Cfg).

(** [parseConfigFile]. *)
Definition parse_item (prev_config : option Cfg) (config : Cfg) (p : string * dynamic) : outcome Cfg :=
  match p with
  | (key, DObject kvs) =>
      if String.prefix kJobPrefix key then
        let* job := makeJob config
          (String.substring (String.length kJobPrefix) (String.length key - String.length kJobPrefix) key)
          (DObject kvs) in
        addJob config job prev_config
      else Ret config
  | _ => Ret config
  end.
Definition parseConfigFile (prev_config : option Cfg) (contents : string) : outcome (option Cfg) :=
  let* d := parseJson contents in
  match d with
  | DObject items =>
      match assoc kSettingsKey items with
      | Some (DObject s) =>
          let* config := makeConfig (DObject s) in
          let* config := foldM (parse_item prev_config) config items in
          Ret (Some config)
      | _ => Throw "Missing bistro_settings property"
      end
  | _ => Throw "TypeError"
  end.
End ConfigFile.

(** ** The data are fresh *)

Section Fresh.
Context {D : Type} (processRawData : option D -> string -> outcome (option D)).
Context (period_ retryPeriod_ : Z).
Hypothesis process_returns : forall prev raw,
  match processRawData prev raw with Ret _ | Throw _ => True | _ => False end.

Abbreviation poll := (refreshes 0 processRawData period_ retryPeriod_).

(** What processing the contents gives, with some previous data. *)
Definition processed (contents : string) (r : PollResult D) : Prop :=
  exists prev, match processRawData prev contents with
               | Ret d => r = setData d
               | Throw e => r = setException e
               | _ => False
               end.

(** The poller after a poll that saw [v]. *)
Definition saw (v : FileView) (p : PeriodicPoller Z D) : Prop :=
  match last_write_time v with
  | Ret m => loaderState_ p = m /\ processed (file_contents v) (result_ p)
  | Throw e => loaderState_ p = 0 /\ result_ p = setException e
  | _ => False
  end.

(** Modification times: positive, and they tell the contents of the file from
    those of the poll before. *)
Definition stat_ok (v : FileView) : Prop :=
  match last_write_time v with Ret m => 0 < m | Throw _ => True | _ => False end.
Definition times_ok (v v' : FileView) : Prop :=
  forall m m', last_write_time v = Ret m -> last_write_time v' = Ret m' ->
    m <= m' /\ (m = m' -> file_contents v = file_contents v').

Lemma fetch_new p v :
  stat_ok v -> (forall m, last_write_time v = Ret m -> loaderState_ p < m) ->
  exists p' d, refresh 0 processRawData period_ retryPeriod_ (file_fetch v) p = Ret (p', d) /\ saw v p'.
Proof using process_returns.
  unfold stat_ok, saw, refresh, file_fetch. intros Hok Hnew.
  destruct (last_write_time v) as [m|e|e|e]; [|by eexists _, _..|done|done]. cbn.
  rewrite (proj2 (Z.leb_gt _ _)) by (by apply Hnew). cbn.
  pose proof (process_returns (data_ (result_ p)) (file_contents v)) as Hr.
  destruct (processRawData (data_ (result_ p)) (file_contents v)) as [d|e|e|e] eqn:E; try done;
    (eexists _, _; split; [reflexivity|]; cbn; split; [done|]; exists (data_ (result_ p)); by rewrite E).
Qed.

Lemma fetch_next p v v' :
  stat_ok v -> stat_ok v' -> times_ok v v' -> saw v p ->
  exists p' d, refresh 0 processRawData period_ retryPeriod_ (file_fetch v') p = Ret (p', d) /\ saw v' p'.
Proof using process_returns.
  intros Hok Hok' Ht Hs. destruct (last_write_time v') as [m'|e|e|e] eqn:E'.
  2-4: by apply fetch_new; [|rewrite E'].
  destruct (Z.lt_ge_cases (loaderState_ p) m') as [Hlt|Hge].
  { apply fetch_new; [done|]. rewrite E'. by intros ? [= <-]. }
  unfold stat_ok in Hok'. rewrite E' in Hok'. unfold saw in Hs.
  destruct (last_write_time v) as [m|e|e|e] eqn:E; [|destruct Hs; lia|done|done].
  destruct Hs as [Hm Hp], (Ht m m' E E') as [Hle Hsame]. assert (m = m') as -> by lia.
  unfold refresh, file_fetch. rewrite E'. cbn. rewrite (proj2 (Z.leb_le _ _)) by lia. cbn.
  eexists _, _. split; [reflexivity|]. unfold saw. rewrite E'. cbn. by rewrite <- (Hsame eq_refl).
Qed.

Inductive views_ok : list FileView -> Prop :=
| views_one v : stat_ok v -> views_ok [v]
| views_next v v' l : stat_ok v -> times_ok v v' -> views_ok (v' :: l) -> views_ok (v :: v' :: l).

Lemma views_ok_stat v l : views_ok (v :: l) -> stat_ok v.
Proof using. by inversion 1. Qed.

Lemma polls_after v l p :
  views_ok (v :: l) -> saw v p ->
  exists p' v', poll (map file_fetch l) p = Ret p' /\ last (v :: l) = Some v' /\ saw v' p'.
Proof using process_returns.
  revert v p. induction l as [|v' l IH]; intros v p Hv Hs; [by exists p, v|].
  inversion Hv as [|? ? ? Hok Ht Hv']; subst.
  destruct (fetch_next p v v' Hok (views_ok_stat _ _ Hv') Ht Hs) as (p1 & d & E & Hs1).
  unfold refreshes. cbn [map foldM]. rewrite E. cbn [mbind outcome_bind]. by apply IH.
Qed.

(** C10: After any number of polls, failed ones among them, a caller gets what the
    last poll saw: the error if the file could not be looked at, and otherwise
    the processed contents or the error of processing them.  The modification
    times must be positive, and tell when the file changed between two polls. *)
Theorem poller_is_fresh vs :
  views_ok vs ->
  exists p v, poll (map file_fetch vs) (mkPoller 0 (mkPollResult None None)) = Ret p /\
    last vs = Some v /\
    match last_write_time v with
    | Ret _ => exists prev, getDataOrThrow p = processRawData prev (file_contents v)
    | o => exists e, o = Throw e /\ getDataOrThrow p = Throw e
    end.
Proof using process_returns.
  intros Hv. destruct vs as [|v vs]; [inversion Hv|].
  destruct (fetch_new (mkPoller 0 (mkPollResult None None)) v) as (p1 & d & E & Hs).
  - by eapply views_ok_stat.
  - intros m Hm. apply views_ok_stat in Hv. unfold stat_ok in Hv. by rewrite Hm in Hv.
  - destruct (polls_after v vs p1 Hv Hs) as (p & v' & Ep & Hlast & Hs'). exists p, v'.
    split; [unfold refreshes; cbn [map foldM]; rewrite E; cbn [mbind outcome_bind]; exact Ep|].
    split; [done|]. unfold saw in Hs'. destruct (last_write_time v') as [m|e|e|e]; try done.
    + destruct Hs' as [_ [prev Hp]]. exists prev. unfold getDataOrThrow.
      destruct (processRawData prev (file_contents v')); try done; by rewrite Hp.
    + exists e. split; [done|]. unfold getDataOrThrow. by rewrite (proj2 Hs').
Qed.
End Fresh.

(** ** Sample polls *)

(** The processed data are the contents, unless they are empty. *)
Definition sample_process (prev : option string) (contents : string) : outcome (option string) :=
  if String.eqb contents "" then Throw "parse error" else Ret (Some contents).

(** The file is written, vanishes, and comes back unchanged. *)
Lemma poller_is_fresh_witness :
  exists p, refreshes 0 sample_process 60 5
      (map file_fetch [mkFile (Ret 10) "a"; mkFile (Throw "no such file") ""; mkFile (Ret 10) "a"])
      (mkPoller 0 (mkPollResult None None)) = Ret p /\ getDataOrThrow p = Ret (Some "a").
Proof.
  destruct (poller_is_fresh sample_process 60 5) with
    (vs := [mkFile (Ret 10) "a"; mkFile (Throw "no such file") ""; mkFile (Ret 10) "a"])
    as (p & v & E & Hlast & H).
  - intros prev raw. unfold sample_process. by destruct (String.eqb raw "").
  - repeat first [apply views_one | apply views_next]; unfold stat_ok, times_ok; cbn; (done || lia).
  - exists p. split; [exact E|]. injection Hlast as <-. destruct H as [prev ->]. reflexivity.
Defined.

(** A file that cannot be opened for a moment is read as empty, with its
    modification time: the error stays until the file is written again. *)
Theorem unreadable_file_stays_broken :
  exists p, refreshes 0 sample_process 60 5
      (map file_fetch [mkFile (Ret 10) ""; mkFile (Ret 10) "a"; mkFile (Ret 10) "a"])
      (mkPoller 0 (mkPollResult None None)) = Ret p /\ getDataOrThrow p = Throw "parse error".
Proof. by eexists. Qed.
