(* ===== verification/JobConfig.v ===== *)
(** How a job is read from JSON and written back: [config/Job.cpp] and
    [config/parsing_common.{h,cpp}].

    [folly::DynamicParser] in its [RECORD] mode is the class [DynamicParser]: a
    parse runs a callback on a part of the JSON and on the object being filled
    in, and collects errors instead of throwing.  What a theorem uses of it is
    the class [ParserLaws]; [record_parser] is an instance.  Each field is the
    state of its own callback.  A callback that takes a double gets it as the
    rational it is ([p_double], as in [Jobs]) or, where the code computes with
    it, as a floating-point number ([p_float]). *)

From stdpp Require Import base gmap strings list.
From Stdlib Require Import ZArith QArith Lia SpecFloat.
From S2P Require Import Prelude Dynamic Backoff SymbolTable Scheduling Config Jobs Resources Subprocess.

#[local] Open Scope Z_scope.

(** ** The parser *)

Record ParseError := mkParseError { pe_path : list string; pe_what : string }.

(** What a callback does to the object; an exception is caught and recorded. *)
Abbreviation parsed S := (outcome (S * list ParseError)).

Definition set_to {S} (s : S) : parsed S := Ret (s, []).
Definition thrown {S} (s : S) (what : string) : parsed S := Ret (s, [mkParseError [] what]).
(** A computation that may throw, before anything was changed. *)
Definition or_throw {A S} (m : outcome A) (s : S) (k : A -> parsed S) : parsed S :=
  match m with
  | Ret a => k a
  | Throw e => thrown s e
  | Crash e => Crash e
  | Undef e => Undef e
  end.

Class DynamicParser := {
  p_optional {S : Type} : dynamic -> string -> (dynamic -> S -> parsed S) -> S -> parsed S;
  p_required {S : Type} : dynamic -> string -> (dynamic -> S -> parsed S) -> S -> parsed S;
  p_objectItems {S : Type} : dynamic -> (string -> dynamic -> S -> parsed S) -> S -> parsed S;
  p_arrayItems {S : Type} : dynamic -> (dynamic -> S -> parsed S) -> S -> parsed S;
  p_bool {S : Type} : (bool -> S -> parsed S) -> dynamic -> S -> parsed S;
  p_int {S : Type} : (Z -> S -> parsed S) -> dynamic -> S -> parsed S;
  p_string {S : Type} : (string -> S -> parsed S) -> dynamic -> S -> parsed S;
  p_double {S : Type} : (Q -> S -> parsed S) -> dynamic -> S -> parsed S;
  p_float {S : Type} : (spec_float -> S -> parsed S) -> dynamic -> S -> parsed S;
  releaseErrors : list ParseError -> dynamic
}.

(** A loop that collects errors. *)
Definition collect {A S} (f : A -> S -> parsed S) (l : list A) (s : S) : parsed S :=
  foldM (fun acc a => let* (s, es) := f a acc.1 in Ret (s, acc.2 ++ es)) (s, []) l.

(** ** [parsing_common] *)

(** [checkedLookup]. *)
Definition checkedLookup (table : StringTable) (key : string) : outcome nat :=
  match lookup_obj table key with
  | Some id => Ret id
  | None => Throw "Unknown identifier"
  end.

Section Parsing.
Context `{DynamicParser}.
(** [dynamic::asDouble] as a double. *)
Context (asFloat : dynamic -> outcome spec_float).

(** [static_cast<int>]. *)
Definition static_cast_int (x : spec_float) : outcome Z :=
  match f_trunc x with
  | Some z => if (- 2 ^ 31 <=? z) && (z <? 2 ^ 31) then Ret z else Undef "conversion to int"
  | None => Undef "conversion to int"
  end.

(** [sec >= 0.0]. *)
Definition f_nonneg (x : spec_float) : bool :=
  match SFcompare x f_zero with Some Lt | None => false | _ => true end.

(** [parseKillOrphanTasksAfter]. *)
Definition parseKillOrphanTasksAfter (d : dynamic) (kill : option Z) : parsed (option Z) :=
  p_optional d "kill_orphan_tasks_after_sec" (fun val _ =>
    match val with
    | DBool b => set_to (if b then Some 0 else None)
    | DInt _ | DDouble _ _ =>
        or_throw (asFloat val) None (fun sec =>
          if f_nonneg sec
          then let* ms := static_cast_int (f_mul (f_of 1000) sec) in set_to (Some ms)
          else set_to None)
    | _ => thrown None "Must be a number or a boolean"
    end) kill.

(** [parseTaskSubprocessOptions]. *)
Definition parse_subsystems (v : dynamic) : parsed (list string) :=
  p_arrayItems v (p_string (fun s l => set_to (l ++ [s]))) [].
Definition parseCGroupOptions (v : dynamic) (o : CGroupOptions) : parsed CGroupOptions :=
  let* (root, e1) := p_optional v "root" (p_string (fun s _ => set_to s)) (cg_root o) in
  let* (slice, e2) := p_optional v "slice" (p_string (fun s _ => set_to s)) (cg_slice o) in
  let* (subs, e3) := p_optional v "subsystems" (fun v _ => parse_subsystems v) (subsystems o) in
  let* (kill, e4) := p_optional v "kill_without_freezer" (p_bool (fun b _ => set_to b))
                       (killWithoutFreezer o) in
  Ret (mkCGroupOptions root slice subs (unitTestCreateFiles o) (cg_cpuShares o) (cg_memoryLimitInBytes o) kill,
       e1 ++ e2 ++ e3 ++ e4).
Definition parseTaskSubprocessOptions (d : dynamic) (o : TaskSubprocessOptions)
    : parsed TaskSubprocessOptions :=
  p_optional d "task_subprocess" (fun v o =>
    let* (poll, e1) := p_optional v "poll_ms" (p_int (fun n _ => set_to (s32 n))) (opt_pollMs o) in
    let* (lines, e2) := p_optional v "max_log_lines_per_poll_interval"
                          (p_int (fun n _ => set_to (s32 n))) (maxLogLinesPerPollInterval o) in
    let* (sig, e3) := p_optional v "parent_death_signal" (p_int (fun n _ => set_to (s32 n)))
                        (parentDeathSignal o) in
    let* (lead, e4) := p_optional v "process_group_leader" (p_bool (fun b _ => set_to b))
                         (processGroupLeader o) in
    let* (canary, e5) := p_optional v "use_canary_pipe" (p_bool (fun b _ => set_to b))
                           (useCanaryPipe o) in
    let* (cg, e6) := p_optional v "cgroups" parseCGroupOptions (cgroupOptions o) in
    Ret (mkSubprocessOptions poll lines sig lead canary (refreshResourcesSec o) cg,
         e1 ++ e2 ++ e3 ++ e4 ++ e5 ++ e6)) o.

(** [parseKillRequest]. *)
Definition parse_method (s : string) (m : KillMethod) : parsed KillMethod :=
  if bool_decide (s = "term_wait_kill") then set_to TERM_WAIT_KILL
  else if bool_decide (s = "term") then set_to TERM
  else if bool_decide (s = "kill") then set_to KILL
  else thrown m "Unknown KillMethod".
Definition parseKillRequest (d : dynamic) (req : KillRequest) : parsed KillRequest :=
  p_optional d "kill_subprocess" (fun v req =>
    let* (meth, e1) := p_optional v "method" (p_string parse_method) (kr_method req) in
    let* (wait, e2) := p_optional v "kill_wait_ms" (p_int (fun n _ => set_to (s32 n)))
                         (killWaitMs req) in
    Ret (mkKillRequest meth wait, e1 ++ e2)) req.
End Parsing.

(** A double as a [dynamic]. *)
Definition ofFloat (x : spec_float) : dynamic :=
  match x with
  | S754_finite s m e => DDouble (if s then Zneg m else Zpos m) e
  | _ => DDouble 0 0
  end.
(** The literal 0.001. *)
Definition f_001 : spec_float := f_div (f_of 1) (f_of 1000).

(** [killOrphanTasksAfterToDynamic]. *)
Definition killOrphanTasksAfterToDynamic (v : option Z) : dynamic :=
  match v with
  | Some ms => ofFloat (f_mul f_001 (f_of ms))
  | None => DBool false
  end.

(** [cgroupOptionsToDynamic] and [taskSubprocessOptionsToDynamic]. *)
Definition cgroupOptionsToDynamic (o : CGroupOptions) : dynamic :=
  DObject [("root", DString (cg_root o)); ("slice", DString (cg_slice o));
           ("subsystems", DArray (map DString (subsystems o)));
           ("kill_without_freezer", DBool (killWithoutFreezer o))].
Definition taskSubprocessOptionsToDynamic (o : TaskSubprocessOptions) : dynamic :=
  DObject [("poll_ms", DInt (opt_pollMs o));
           ("max_log_lines_per_poll_interval", DInt (maxLogLinesPerPollInterval o));
           ("parent_death_signal", DInt (parentDeathSignal o));
           ("process_group_leader", DBool (processGroupLeader o));
           ("use_canary_pipe", DBool (useCanaryPipe o));
           ("cgroups", cgroupOptionsToDynamic (cgroupOptions o))].

(** [killRequestToDynamic]. *)
Definition killRequestToDynamic (req : KillRequest) : outcome dynamic :=
  let* meth := match kr_method req with
               | TERM_WAIT_KILL => Ret "term_wait_kill"
               | TERM => Ret "term"
               | KILL => Ret "kill"
               | BadMethod _ => Throw "Unknown KillMethod"
               end in
  Ret (DObject [("method", DString meth); ("kill_wait_ms", DInt (killWaitMs req))]).

(** ** [Job] *)

(** What a job takes from the configuration. *)
Record JobDefaults := mkDefaults {
  jd_levels : StringTable;
  jd_tables : ResourceTables;
  jd_levelForTasks : nat;
  jd_backoffSettings : JobBackoffSettings;
  jd_killOrphanTasksAfter : option Z;
  jd_taskSubprocessOptions : TaskSubprocessOptions;
  jd_killRequest : KillRequest
}.

(** All members of [Job]; [NotFound] is [None]. *)
Record JobSpec := mkJobSpec {
  js_id : nat;
  js_name : string;
  js_enabled : bool;
  js_owner : string;
  js_levelForTasks : nat;
  js_priority : Q;
  js_resources : list Z;
  js_config : dynamic;
  js_filters : list JobFilters;
  js_levelForHostPlacement : option nat;
  js_hostPlacement : string;
  js_backoffSettings : JobBackoffSettings;
  js_dependsOn : list nat;
  js_createTime : Z;
  js_modifyTime : Z;
  js_killOrphanTasksAfter : option Z;
  js_taskSubprocessOptions : TaskSubprocessOptions;
  js_killRequest : KillRequest;
  js_command : list string;
  js_versionID : Z;
  js_errors : dynamic
}.

(** The members that the scheduler reads. *)
Definition scheduler_job (j : JobSpec) : Job :=
  mkJob (js_id j) (js_name j) (js_enabled j) (dyn_empty (js_errors j)) (js_levelForTasks j)
    (js_priority j) (js_resources j) (js_filters j) (js_levelForHostPlacement j)
    (js_hostPlacement j) (js_dependsOn j).

Section Jobs.
Context `{DynamicParser}.
Context (asString : dynamic -> outcome string) (asDouble : dynamic -> outcome Q)
  (ofDouble : Q -> dynamic) (asFloat : dynamic -> outcome spec_float).
Context (regex_valid : string -> bool).

(** The callback of "resources". *)
Definition parse_job_resource (names : StringTable) (r_name : string)
    : dynamic -> list Z -> parsed (list Z) :=
  p_int (fun amount resources =>
    or_throw (checkedLookup names r_name) resources (fun rid =>
      if bool_decide (rid < length resources)%nat
      then set_to (<[rid := s32 amount]> resources)
      else Undef "resources_[id]")).

(** The callback of "filters". *)
Definition parse_job_filter (levels : StringTable) (cb : option (Node -> bool)) (level : string)
    (v : dynamic) (filters : list JobFilters) : parsed (list JobFilters) :=
  or_throw (checkedLookup levels level) filters (fun l =>
  or_throw (JobFilters_of asString asDouble ofDouble regex_valid v cb) filters (fun f =>
    if bool_decide (l < length filters)%nat then set_to (<[l := f]> filters)
    else Undef "filters_[level]")).

(** The callback of "depends_on", which also names jobs. *)
Definition parse_dependency (job_name : string) (s : StringTable * list nat)
    : parsed (StringTable * list nat) :=
  let '(table, id) := insert_obj s.1 job_name in set_to (table, s.2 ++ [id]).

(** [errors_] as [Job] keeps them: errors that were there before are not
    nested. *)
Definition job_errors (errors : dynamic) : outcome dynamic :=
  match errors with
  | DObject [("nested", DObject [("errors", inner)])] =>
      match inner with
      | DObject kvs => Ret (default (DObject []) (assoc "value" kvs))
      | _ => Throw "TypeError"
      end
  | _ => Ret errors
  end.

(** [Job::Job]; [JobNameTable] is a global. *)
Definition Job_of (c : JobDefaults) (JobNameTable : StringTable) (name : string) (d : dynamic)
    (filter_cb : option (Node -> bool)) : outcome (StringTable * JobSpec) :=
  let '(table, id) := insert_obj JobNameTable name in
  let levels := jd_levels c in
  let* (enabled, e1) := p_optional d "enabled" (p_bool (fun b _ => set_to b)) true in
  let* (owner, e2) := p_required d "owner" (p_string (fun s _ => set_to s)) "" in
  let* (level, e3) := p_optional d "level_for_tasks" (p_string (fun s l =>
    or_throw (checkedLookup levels s) l set_to)) (jd_levelForTasks c) in
  let* (priority, e4) := p_optional d "priority" (p_double (fun n _ => set_to n)) 1%Q in
  let* (resources, e5) := p_optional d "resources" (fun v =>
    p_objectItems v (parse_job_resource (resourceNames (jd_tables c)))) (defaultJobResources (jd_tables c)) in
  let* (config, e6) := p_optional d "config" (fun v old =>
    match v with DObject _ => set_to v | _ => thrown old "Must be an object" end) (DObject []) in
  let* (filters, e7) := p_optional d "filters" (fun v =>
    p_objectItems v (parse_job_filter levels filter_cb))
      (replicate (length (objects_ levels)) noFilters) in
  let* (host_level, e8) := p_optional d "level_for_host_placement" (p_string (fun s l =>
    or_throw (checkedLookup levels s) l (fun id => set_to (Some id)))) None in
  let* (host, e9) := p_optional d "host_placement" (p_string (fun s _ => set_to s)) "" in
  let* (backoff, e10) := p_optional d "backoff" (fun v old =>
    or_throw (JobBackoffSettings_of v) old set_to) (jd_backoffSettings c) in
  let* (tdeps, e11) := p_optional d "depends_on" (fun v =>
    p_arrayItems v (p_string parse_dependency)) (table, []) in
  let* (create, e12) := p_optional d "create_time" (p_int (fun n _ => set_to n)) 0 in
  let* (modify, e13) := p_optional d "modify_time" (p_int (fun n _ => set_to n)) 0 in
  let* (kill_after, e14) := parseKillOrphanTasksAfter asFloat d (jd_killOrphanTasksAfter c) in
  let* (options, e15) := parseTaskSubprocessOptions d (jd_taskSubprocessOptions c) in
  let* (kill_req, e16) := parseKillRequest d (jd_killRequest c) in
  let* (command, e17) := p_optional d "command" (fun v =>
    p_arrayItems v (p_string (fun s l => set_to (l ++ [s])))) [] in
  let* (version, e18) := p_optional d "version_id" (p_int (fun n _ => set_to n)) (-1) in
  let* (_, e19) := p_optional d "errors" (fun _ u => thrown u "Pre-existing errors") tt in
  let errors := releaseErrors (e1 ++ e2 ++ e3 ++ e4 ++ e5 ++ e6 ++ e7 ++ e8 ++ e9 ++ e10 ++ e11 ++ e12
    ++ e13 ++ e14 ++ e15 ++ e16 ++ e17 ++ e18 ++ e19) in
  let* errors := job_errors errors in
  Ret (tdeps.1,
       mkJobSpec id name enabled owner level priority resources config filters host_level host backoff
         tdeps.2 create modify kill_after options kill_req command version errors).

(** The resources that [toDynamic] writes. *)
Definition resources_toDynamic (t : ResourceTables) (resources : list Z)
    : outcome (list (string * dynamic)) :=
  foldM (fun obj rid =>
    let* name := lookup_id (resourceNames t) rid in
    match resources !! rid with
    | Some n => Ret (assoc_set name (DInt n) obj)
    | None => Undef "resources_[resource_id]"
    end) [] (concat (levelIDToResourceID t)).

(** The filters that it writes. *)
Definition filters_obj (levels : StringTable) (filters : list JobFilters)
    : outcome (list (string * dynamic)) :=
  foldM (fun obj i =>
    match filters !! i with
    | Some f =>
        if isEmpty_ f then Ret obj
        else let d := filters_toDynamic ofDouble f in
             if dyn_empty d then Ret obj
             else let* level := lookup_id levels i in Ret (assoc_set level d obj)
    | None => Ret obj
    end) [] (seq 0 (length filters)).

Definition set_unless (b : bool) (k : string) (d : dynamic) (obj : list (string * dynamic))
    : list (string * dynamic) := if b then obj else assoc_set k d obj.

(** [Job::toDynamic]. *)
Definition job_toDynamic (c : JobDefaults) (JobNameTable : StringTable) (j : JobSpec)
    : outcome dynamic :=
  let* level := lookup_id (jd_levels c) (js_levelForTasks j) in
  let* kill_req := killRequestToDynamic (js_killRequest j) in
  let obj := [("enabled", DBool (js_enabled j)); ("owner", DString (js_owner j));
    ("level_for_tasks", DString level); ("priority", ofDouble (js_priority j));
    ("config", js_config j); ("backoff", backoff_toDynamic (js_backoffSettings j));
    ("kill_orphan_tasks_after_sec", killOrphanTasksAfterToDynamic (js_killOrphanTasksAfter j));
    ("task_subprocess", taskSubprocessOptionsToDynamic (js_taskSubprocessOptions j));
    ("kill_subprocess", kill_req)] in
  let* resources := resources_toDynamic (jd_tables c) (js_resources j) in
  let obj := set_unless (bool_decide (resources = [])) "resources" (DObject resources) obj in
  let* filters := filters_obj (jd_levels c) (js_filters j) in
  let obj := set_unless (bool_decide (filters = [])) "filters" (DObject filters) obj in
  let* obj := match js_levelForHostPlacement j with
              | Some l => let* s := lookup_id (jd_levels c) l in
                          Ret (assoc_set "level_for_host_placement" (DString s) obj)
              | None => Ret obj
              end in
  let obj := set_unless (bool_decide (js_hostPlacement j = "")) "host_placement"
               (DString (js_hostPlacement j)) obj in
  let* deps := mapM (lookup_id JobNameTable) (js_dependsOn j) in
  let obj := set_unless (bool_decide (js_dependsOn j = [])) "depends_on" (DArray (map DString deps)) obj in
  let obj := set_unless (js_createTime j <=? 0) "create_time" (DInt (js_createTime j)) obj in
  let obj := set_unless (js_modifyTime j <=? 0) "modify_time" (DInt (js_modifyTime j)) obj in
  let obj := set_unless (bool_decide (js_command j = [])) "command"
               (DArray (map DString (js_command j))) obj in
  let obj := set_unless (js_versionID j <? 0) "version_id" (DInt (js_versionID j)) obj in
  let obj := set_unless (dyn_empty (js_errors j)) "errors" (js_errors j) obj in
  Ret (DObject obj).
End Jobs.

(** ** What is used of the parser *)

(** A part that is there is parsed by its callback, one that is missing is
    left alone, and the object is changed by callbacks only. *)
Class ParserLaws (P : DynamicParser) (ofDouble : Q -> dynamic) := {
  optional_missing {S} kvs k f (s : S) :
    assoc k kvs = None -> p_optional (DObject kvs) k f s = Ret (s, []);
  optional_found {S} kvs k d f (s s' : S) :
    assoc k kvs = Some d -> f d s = Ret (s', []) -> p_optional (DObject kvs) k f s = Ret (s', []);
  required_found {S} kvs k d f (s s' : S) :
    assoc k kvs = Some d -> f d s = Ret (s', []) -> p_required (DObject kvs) k f s = Ret (s', []);
  object_items {S} kvs f (s s' : S) :
    collect (fun p => f p.1 p.2) kvs s = Ret (s', []) -> p_objectItems (DObject kvs) f s = Ret (s', []);
  array_items {S} l f (s s' : S) :
    collect f l s = Ret (s', []) -> p_arrayItems (DArray l) f s = Ret (s', []);
  typed_bool {S} (f : bool -> S -> parsed S) b s : p_bool f (DBool b) s = f b s;
  typed_int {S} (f : Z -> S -> parsed S) n s : p_int f (DInt n) s = f n s;
  typed_string {S} (f : string -> S -> parsed S) x s : p_string f (DString x) s = f x s;
  typed_double {S} (f : Q -> S -> parsed S) q s : p_double f (ofDouble q) s = f q s;
  released_none : releaseErrors [] = DObject [];
  optional_changes {S} (I : S -> Prop) d k f (s s' : S) es : I s ->
    (forall d s s' es, I s -> f d s = Ret (s', es) -> I s') ->
    p_optional d k f s = Ret (s', es) -> I s';
  required_changes {S} (I : S -> Prop) d k f (s s' : S) es : I s ->
    (forall d s s' es, I s -> f d s = Ret (s', es) -> I s') ->
    p_required d k f s = Ret (s', es) -> I s';
  items_change {S} (I : S -> Prop) d f (s s' : S) es : I s ->
    (forall k d s s' es, I s -> f k d s = Ret (s', es) -> I s') ->
    p_objectItems d f s = Ret (s', es) -> I s';
  array_changes {S} (I : S -> Prop) d f (s s' : S) es : I s ->
    (forall d s s' es, I s -> f d s = Ret (s', es) -> I s') ->
    p_arrayItems d f s = Ret (s', es) -> I s';
  typed_changes_bool {S} (I : S -> Prop) f d (s s' : S) es : I s ->
    (forall b s s' es, I s -> f b s = Ret (s', es) -> I s') -> p_bool f d s = Ret (s', es) -> I s';
  typed_changes_int {S} (I : S -> Prop) f d (s s' : S) es : I s ->
    (forall n s s' es, I s -> f n s = Ret (s', es) -> I s') -> p_int f d s = Ret (s', es) -> I s';
  typed_changes_string {S} (I : S -> Prop) f d (s s' : S) es : I s ->
    (forall x s s' es, I s -> f x s = Ret (s', es) -> I s') -> p_string f d s = Ret (s', es) -> I s'
}.

(** A callback that keeps the object within [I]. *)
Ltac parse_step :=
  match goal with
  | |- forall _, _ => intros
  | H : set_to _ = Ret _ |- _ => injection H as <- <-
  | H : thrown _ _ = Ret _ |- _ => injection H as <- <-
  | H : p_optional _ _ _ _ = Ret _ |- _ => eapply optional_changes in H; [exact H|try done|clear H]
  | H : p_required _ _ _ _ = Ret _ |- _ => eapply required_changes in H; [exact H|try done|clear H]
  | H : p_objectItems _ _ _ = Ret _ |- _ => eapply items_change in H; [exact H|try done|clear H]
  | H : p_arrayItems _ _ _ = Ret _ |- _ => eapply array_changes in H; [exact H|try done|clear H]
  | H : p_bool _ _ _ = Ret _ |- _ => eapply typed_changes_bool in H; [exact H|try done|clear H]
  | H : p_int _ _ _ = Ret _ |- _ => eapply typed_changes_int in H; [exact H|try done|clear H]
  | H : p_string _ _ _ = Ret _ |- _ => eapply typed_changes_string in H; [exact H|try done|clear H]
  end.

(** The value of a key in an object that is being written. *)
Lemma assoc_set_unless b k k' d obj :
  assoc k (set_unless b k' d obj) = if bool_decide (k = k') && negb b then Some d else assoc k obj.
Proof.
  unfold set_unless. destruct b; [by rewrite andb_false_r|]. rewrite andb_true_r. cbn [negb].
  case_bool_decide; [subst; apply assoc_set_eq|by apply assoc_set_ne].
Qed.

(** *** Objects written by index *)

Lemma collect_cons {A S} (f : A -> S -> parsed S) a l s s1 :
  f a s = Ret (s1, []) -> collect f (a :: l) s = collect f l s1.
Proof. intros E. unfold collect. cbn. by rewrite E. Qed.

(** Writing the values of some indices under the names of a table. *)
Definition write_named (names : StringTable) (value : nat -> option dynamic)
    (obj : list (string * dynamic)) (i : nat) : outcome (list (string * dynamic)) :=
  match value i with
  | None => Ret obj
  | Some d => let* name := lookup_id names i in Ret (assoc_set name d obj)
  end.

Lemma assoc_set_keys k v kvs j : j ∈ (assoc_set k v kvs).*1 <-> j = k \/ j ∈ kvs.*1.
Proof.
  induction kvs as [|[k' v'] kvs IH]; cbn; [by rewrite elem_of_cons|].
  case_bool_decide; subst; cbn; rewrite !elem_of_cons, ?IH; tauto.
Qed.
Lemma assoc_set_values (Q : string -> dynamic -> Prop) k v kvs :
  (forall p, p ∈ kvs -> Q p.1 p.2) -> Q k v -> forall p, p ∈ assoc_set k v kvs -> Q p.1 p.2.
Proof.
  intros H Hk. induction kvs as [|[k' v'] kvs IH]; cbn.
  - by intros p ->%list_elem_of_singleton.
  - case_bool_decide; intros p [->|Hp]%elem_of_cons; try done.
    + apply H. by right.
    + apply (H (k', v')). by left.
    + apply IH; [|done]. intros p' Hp'. apply H. by right.
Qed.

(** What was written for the indices [L]. *)
Record written (names : StringTable) (value : nat -> option dynamic) (L : list nat)
    (obj : list (string * dynamic)) : Prop := {
  wr_values p : p ∈ obj -> exists i, objects_ names !! i = Some p.1 /\ value i = Some p.2;
  wr_keys i name : i ∈ L -> value i <> None -> objects_ names !! i = Some name -> name ∈ obj.*1
}.

Lemma write_all names value L seen obj :
  (forall i, i ∈ L -> value i <> None -> (i < length (objects_ names))%nat) ->
  written names value seen obj ->
  exists obj', foldM (write_named names value) obj L = Ret obj' /\ written names value (seen ++ L) obj'.
Proof.
  revert seen obj. induction L as [|i L IH]; intros seen obj HL Hw.
  { exists obj. by rewrite app_nil_r. }
  assert (Hstep : exists obj1, write_named names value obj i = Ret obj1 /\ written names value (seen ++ [i]) obj1).
  { unfold write_named. destruct (value i) as [d|] eqn:Ev.
    - destruct (lookup_lt_is_Some_2 (objects_ names) i) as [name En]; [apply HL; [by left|by rewrite Ev]|].
      unfold lookup_id. rewrite En. cbn. eexists. split; [reflexivity|]. split.
      + apply (assoc_set_values (fun k v => exists i, objects_ names !! i = Some k /\ value i = Some v));
          [apply Hw|eauto].
      + intros j nm Hj Hv Hn. apply assoc_set_keys.
        apply elem_of_app in Hj as [Hj|Hj%list_elem_of_singleton]; [right; by eapply Hw|left; congruence].
    - exists obj. split; [done|]. split; [apply Hw|]. intros j nm Hj Hv Hn.
      apply elem_of_app in Hj as [Hj|Hj%list_elem_of_singleton]; [by eapply Hw|congruence]. }
  destruct Hstep as (obj1 & E1 & Hw1). cbn [foldM]. rewrite E1. cbn [mbind outcome_bind].
  destruct (IH (seen ++ [i]) obj1) as (obj' & E & Hw'); [|done|].
  - intros j Hj. apply HL. by right.
  - exists obj'. rewrite <- app_assoc in Hw'. done.
Qed.

(** Reading it back, one element of a list per pair. *)
Lemma read_all {A} names value (f : string -> dynamic -> list A -> parsed (list A)) xs obj acc :
  table_wf names ->
  (forall i d name a, value i = Some d -> objects_ names !! i = Some name -> length a = length xs ->
     exists x, xs !! i = Some x /\ f name d a = Ret (<[i := x]> a, [])) ->
  (forall p, p ∈ obj -> exists i, objects_ names !! i = Some p.1 /\ value i = Some p.2) ->
  length acc = length xs ->
  exists acc', collect (fun p => f p.1 p.2) obj acc = Ret (acc', []) /\ length acc' = length xs /\
    forall i, acc' !! i = xs !! i \/ acc' !! i = acc !! i /\
      forall name, objects_ names !! i = Some name -> name ∉ obj.*1.
Proof.
  intros Hn Hf. revert acc. induction obj as [|[k d] obj IH]; intros acc Hobj Hlen.
  { exists acc. split; [done|]. split; [done|]. intros i. right. split; [done|]. set_solver. }
  destruct (Hobj (k, d)) as (i & Ei & Ev); [by left|]. cbn in Ei, Ev.
  destruct (Hf i d k acc Ev Ei Hlen) as (x & Ex & E).
  rewrite (collect_cons _ _ _ _ (<[i := x]> acc)) by done.
  destruct (IH (<[i := x]> acc)) as (acc' & Ec & Hl & Hacc).
  - intros p Hp. apply Hobj. by right.
  - by rewrite length_insert.
  - exists acc'. split; [done|]. split; [done|]. intros j. destruct (Hacc j) as [?|[Hj Hk]]; [by left|].
    destruct (decide (i = j)) as [<-|Hne].
    + left. rewrite Hj, Ex. apply list_lookup_insert_eq. rewrite Hlen. by eapply lookup_lt_Some.
    + right. rewrite Hj, list_lookup_insert_ne by done. split; [done|]. intros name En.
      cbn. apply not_elem_of_cons. split; [|by apply Hk]. intros ->.
      apply Hn in En, Ei. congruence.
Qed.

Lemma write_read {A} names value L (f : string -> dynamic -> list A -> parsed (list A)) xs acc :
  table_wf names ->
  (forall i, i ∈ L -> value i <> None -> (i < length (objects_ names))%nat) ->
  (forall i d name a, value i = Some d -> objects_ names !! i = Some name -> length a = length xs ->
     exists x, xs !! i = Some x /\ f name d a = Ret (<[i := x]> a, [])) ->
  (forall i, i ∈ L /\ value i <> None \/ acc !! i = xs !! i) -> length acc = length xs ->
  exists obj, foldM (write_named names value) [] L = Ret obj /\
    collect (fun p => f p.1 p.2) obj acc = Ret (xs, []).
Proof.
  intros Hn HL Hf Hacc Hlen. destruct (write_all names value L [] [] HL) as (obj & E & [Hv Hk]).
  { split; [by intros p ?%not_elem_of_nil|by intros i ? ?%not_elem_of_nil]. }
  destruct (read_all names value f xs obj acc Hn Hf Hv Hlen) as (acc' & E' & Hl & Hr).
  exists obj. split; [done|]. rewrite E'. do 2 f_equal. apply list_eq. intros i.
  destruct (Hr i) as [?|[Hi Hno]]; [done|]. destruct (Hacc i) as [[HiL Hiv]|?]; [|by rewrite Hi].
  destruct (lookup_lt_is_Some_2 (objects_ names) i) as [name En]; [by apply HL|].
  destruct (Hno name En). by apply (Hk i name).
Qed.

Section Facts.
Context {P : DynamicParser} {ofDouble : Q -> dynamic} {PL : ParserLaws P ofDouble}.
Context (asFloat : dynamic -> outcome spec_float).

(** ** Round trips of the options *)

(** The number of milliseconds survives the conversions to seconds and back. *)
Definition kill_survives (v : option Z) : Prop :=
  match v with
  | None => True
  | Some ms => exists sec, asFloat (ofFloat (f_mul f_001 (f_of ms))) = Ret sec /\ f_nonneg sec = true /\
      static_cast_int (f_mul (f_of 1000) sec) = Ret ms
  end.

Lemma kill_roundtrip kvs v w :
  kill_survives v -> assoc "kill_orphan_tasks_after_sec" kvs = Some (killOrphanTasksAfterToDynamic v) ->
  parseKillOrphanTasksAfter asFloat (DObject kvs) w = Ret (v, []).
Proof using PL.
  intros Hv E. unfold parseKillOrphanTasksAfter. eapply optional_found; [exact E|].
  destruct v as [ms|]; [|done]. destruct Hv as (sec & E1 & E2 & E3). cbn in *.
  assert (Hd : exists m e, ofFloat (f_mul f_001 (f_of ms)) = DDouble m e).
  { destruct (f_mul f_001 (f_of ms)); cbn; eauto. }
  destruct Hd as (m & e & Ed). rewrite Ed in *. rewrite E1. cbn. rewrite E2, E3. done.
Qed.

(** An object with literal keys. *)
Ltac lit_found := eapply optional_found; [reflexivity|rewrite ?typed_bool, ?typed_int, ?typed_string].

Lemma collect_strings l acc :
  collect (p_string (fun s (l : list string) => set_to (l ++ [s]))) (map DString l) acc = Ret (acc ++ l, []).
Proof using PL.
  unfold collect. assert (H : forall es, foldM (fun (a : list string * list ParseError) d =>
      let* (s, es) := p_string (fun s (l : list string) => set_to (l ++ [s])) d a.1 in
      Ret (s, a.2 ++ es)) (acc, es) (map DString l) = Ret (acc ++ l, es)).
  { revert acc. induction l as [|x l IH]; intros acc es; cbn; [by rewrite app_nil_r|].
    rewrite typed_string. cbn. rewrite app_nil_r, IH, <- app_assoc. done. }
  apply H.
Qed.

Lemma cgroup_roundtrip o o' :
  unitTestCreateFiles o = unitTestCreateFiles o' -> cg_cpuShares o = cg_cpuShares o' ->
  cg_memoryLimitInBytes o = cg_memoryLimitInBytes o' ->
  parseCGroupOptions (cgroupOptionsToDynamic o) o' = Ret (o, []).
Proof using PL.
  intros H0 H1 H2. unfold parseCGroupOptions, cgroupOptionsToDynamic.
  rewrite (optional_found _ "root" (DString (cg_root o)) _ _ (cg_root o)) by (by rewrite ?typed_string). cbn [mbind outcome_bind].
  rewrite (optional_found _ "slice" (DString (cg_slice o)) _ _ (cg_slice o)) by (by rewrite ?typed_string). cbn [mbind outcome_bind].
  rewrite (optional_found _ "subsystems" (DArray (map DString (subsystems o))) _ _ (subsystems o)); [|done|].
  2: { unfold parse_subsystems. apply array_items, collect_strings. }
  cbn [mbind outcome_bind].
  rewrite (optional_found _ "kill_without_freezer" (DBool (killWithoutFreezer o)) _ _ (killWithoutFreezer o)) by (by rewrite ?typed_bool).
  cbn. destruct o, o'; cbn in *. by subst.
Qed.

Definition int_options (o : TaskSubprocessOptions) : Prop :=
  is_s32 (opt_pollMs o) /\ is_s32 (maxLogLinesPerPollInterval o) /\ is_s32 (parentDeathSignal o).
(** The options that a job cannot set. *)
Definition same_fixed (o o' : TaskSubprocessOptions) : Prop :=
  refreshResourcesSec o = refreshResourcesSec o' /\
  unitTestCreateFiles (cgroupOptions o) = unitTestCreateFiles (cgroupOptions o') /\
  cg_cpuShares (cgroupOptions o) = cg_cpuShares (cgroupOptions o') /\
  cg_memoryLimitInBytes (cgroupOptions o) = cg_memoryLimitInBytes (cgroupOptions o').

Lemma options_roundtrip kvs o o' :
  int_options o -> same_fixed o o' ->
  assoc "task_subprocess" kvs = Some (taskSubprocessOptionsToDynamic o) ->
  parseTaskSubprocessOptions (DObject kvs) o' = Ret (o, []).
Proof using PL.
  intros (I1 & I2 & I3) (F1 & F0 & F2 & F3) E. unfold parseTaskSubprocessOptions.
  eapply optional_found; [exact E|]. unfold taskSubprocessOptionsToDynamic.
  rewrite (optional_found _ "poll_ms" (DInt (opt_pollMs o)) _ _ (opt_pollMs o))
    by (by rewrite ?typed_int, ?s32_id). cbn [mbind outcome_bind].
  rewrite (optional_found _ "max_log_lines_per_poll_interval" (DInt (maxLogLinesPerPollInterval o)) _ _ (maxLogLinesPerPollInterval o))
    by (by rewrite ?typed_int, ?s32_id). cbn [mbind outcome_bind].
  rewrite (optional_found _ "parent_death_signal" (DInt (parentDeathSignal o)) _ _ (parentDeathSignal o))
    by (by rewrite ?typed_int, ?s32_id). cbn [mbind outcome_bind].
  rewrite (optional_found _ "process_group_leader" (DBool (processGroupLeader o)) _ _ (processGroupLeader o))
    by (by rewrite ?typed_bool). cbn [mbind outcome_bind].
  rewrite (optional_found _ "use_canary_pipe" (DBool (useCanaryPipe o)) _ _ (useCanaryPipe o))
    by (by rewrite ?typed_bool). cbn [mbind outcome_bind].
  rewrite (optional_found _ "cgroups" (cgroupOptionsToDynamic (cgroupOptions o)) _ _ (cgroupOptions o));
    [|done|by apply cgroup_roundtrip].
  cbn. destruct o; cbn in *. by rewrite F1.
Qed.

Definition known_request (req : KillRequest) : Prop :=
  is_s32 (killWaitMs req) /\ match kr_method req with BadMethod _ => False | _ => True end.

Lemma kill_request_roundtrip kvs req req' :
  known_request req ->
  exists d, killRequestToDynamic req = Ret d /\
    (assoc "kill_subprocess" kvs = Some d -> parseKillRequest (DObject kvs) req' = Ret (req, [])).
Proof using PL.
  intros [Hw Hm]. unfold killRequestToDynamic.
  assert (Hx : exists name, (match kr_method req with
     | TERM_WAIT_KILL => Ret "term_wait_kill" | TERM => Ret "term" | KILL => Ret "kill"
     | BadMethod _ => Throw "Unknown KillMethod" end) = Ret name /\
     forall m, parse_method name m = set_to (kr_method req)).
  { destruct (kr_method req); [..|done]; eexists; (split; [reflexivity|done]). }
  destruct Hx as (name & -> & Hp). cbn. eexists. split; [reflexivity|]. intros E.
  unfold parseKillRequest. eapply optional_found; [exact E|].
  rewrite (optional_found _ "method" (DString name) _ _ (kr_method req)) by (rewrite ?typed_string, ?Hp; done).
  cbn [mbind outcome_bind].
  rewrite (optional_found _ "kill_wait_ms" (DInt (killWaitMs req)) _ _ (killWaitMs req)) by (by rewrite ?typed_int, ?s32_id).
  cbn. by destruct req.
Qed.

(** *** Resources, filters and dependencies *)

Lemma foldM_ext {A B} (f g : B -> A -> outcome B) l b :
  (forall a b, a ∈ l -> f b a = g b a) -> foldM f b l = foldM g b l.
Proof using.
  intros H. revert b. induction l as [|a l IH]; intros b; [done|]. cbn.
  rewrite H by (by left). destruct (g b a); [|done..]. cbn. apply IH. intros ? ? ?. apply H. by right.
Qed.

(** Every resource belongs to a level. *)
Definition all_levelled (t : ResourceTables) : Prop :=
  forall rid, (rid < length (objects_ (resourceNames t)))%nat -> rid ∈ concat (levelIDToResourceID t).

Lemma resources_roundtrip nl t rs :
  tables_wf nl t -> all_levelled t ->
  length rs = length (objects_ (resourceNames t)) -> Forall is_s32 rs ->
  exists obj, resources_toDynamic t rs = Ret obj /\
    collect (fun p => parse_job_resource (resourceNames t) p.1 p.2) obj (defaultJobResources t) = Ret (rs, []).
Proof using PL.
  intros Ht Hall Hlen Hints. pose proof (names_table _ _ Ht) as Hn.
  assert (Hknown : forall rid, rid ∈ concat (levelIDToResourceID t) ->
    (rid < length (objects_ (resourceNames t)))%nat).
  { intros rid (rids & Hr & Hrids)%list_elem_of_In%in_concat. apply list_elem_of_In in Hrids, Hr.
    apply list_elem_of_lookup in Hr as [l Hl]. by eapply rids_known. }
  destruct (write_read (resourceNames t) (fun rid => DInt <$> rs !! rid) (concat (levelIDToResourceID t))
    (parse_job_resource (resourceNames t)) rs (defaultJobResources t)) as (obj & E & Ec).
  - done.
  - intros rid Hr _. by apply Hknown.
  - intros rid d name a Hd En Ha. destruct (rs !! rid) as [n|] eqn:Er; [|done]. injection Hd as <-.
    exists n. split; [done|]. unfold parse_job_resource. rewrite typed_int. unfold checkedLookup, lookup_obj.
    apply Hn in En. rewrite En. cbn. rewrite bool_decide_eq_true_2 by (rewrite Ha; by eapply lookup_lt_Some).
    rewrite s32_id; [done|]. rewrite Forall_lookup in Hints. by eapply Hints.
  - intros rid. destruct (rs !! rid) as [n|] eqn:Er.
    + left. split; [|done]. apply Hall. rewrite <- Hlen. by eapply lookup_lt_Some.
    + right. apply lookup_ge_None. rewrite (defaults_all _ _ Ht), <- Hlen. by apply lookup_ge_None.
  - by rewrite (defaults_all _ _ Ht), Hlen.
  - exists obj. split; [|done]. rewrite <- E. unfold resources_toDynamic. apply foldM_ext.
    intros rid o Hr. unfold write_named. apply Hknown in Hr. rewrite <- Hlen in Hr.
    apply lookup_lt_is_Some_2 in Hr as [n ->]. cbn. by destruct (lookup_id _ _).
Qed.

Context (asString : dynamic -> outcome string) (asDouble : dynamic -> outcome Q).
Context (regex_valid : string -> bool).
Hypothesis HasString : forall s, asString (DString s) = Ret s.
Hypothesis HasDouble : forall q, asDouble (ofDouble q) = Ret q.

Abbreviation parse_filters := (JobFilters_of asString asDouble ofDouble regex_valid).

(** A filter of a job: the default, or read with a fraction of at most 1. *)
Definition filter_read (f : JobFilters) : Prop :=
  f = noFilters \/
  exists d q, parse_filters d None = Ret f /\ fractionOfNodes_ f = Some q /\ (q <= 1)%Q.

Lemma same_filters_trans f g h : same_filters f g -> same_filters g h -> same_filters f h.
Proof using. intros H1 H2 rs hs salt n. by rewrite H1, H2. Qed.

Lemma filter_cases f :
  filter_read f ->
  exists g, same_filters f g /\
    if isEmpty_ f || dyn_empty (filters_toDynamic ofDouble f) then g = noFilters
    else parse_filters (filters_toDynamic ofDouble f) None = Ret g.
Proof using HasString HasDouble.
  intros [->|(d & q & E & Hq & Hle)]; [by exists noFilters|].
  destruct (filters_roundtrip asString asDouble ofDouble regex_valid HasString HasDouble d f q E Hq Hle)
    as (g & Eg & Hs).
  assert (Hempty : isEmpty_ f = true -> filters_toDynamic ofDouble f = DObject []).
  { unfold filters_toDynamic. by intros ->. }
  destruct (isEmpty_ f || dyn_empty (filters_toDynamic ofDouble f)) eqn:Eb; [|by exists g].
  exists noFilters. split; [|done]. eapply same_filters_trans; [exact Hs|].
  assert (Ed : filters_toDynamic ofDouble f = DObject []).
  { apply orb_true_iff in Eb as [?|Eb]; [by apply Hempty|]. unfold filters_toDynamic in *. cbn in Eb.
    by destruct (if isEmpty_ f then _ else _). }
  rewrite Ed in Eg. cbn in Eg. rewrite HasDouble in Eg. cbn in Eg. injection Eg as <-.
  intros rs hs salt n. done.
Qed.

Lemma filters_roundtrip_all levels fs :
  table_wf levels -> length fs = length (objects_ levels) -> Forall filter_read fs ->
  exists obj gs, filters_obj ofDouble levels fs = Ret obj /\ Forall2 same_filters fs gs /\
    collect (fun p => parse_job_filter asString asDouble ofDouble regex_valid levels None p.1 p.2) obj
      (replicate (length (objects_ levels)) noFilters) = Ret (gs, []).
Proof using PL HasString HasDouble.
  intros Hn Hlen Hread.
  assert (Hgs : exists gs, Forall2 (fun f g => same_filters f g /\
    if isEmpty_ f || dyn_empty (filters_toDynamic ofDouble f) then g = noFilters
    else parse_filters (filters_toDynamic ofDouble f) None = Ret g) fs gs).
  { clear Hlen. induction Hread as [|f fs Hf _ [gs IH]]; [by exists []|].
    destruct (filter_cases f Hf) as [g Hg]. exists (g :: gs). by constructor. }
  destruct Hgs as [gs Hgs]. pose proof (Forall2_length _ _ _ Hgs) as Hl.
  set (value := fun i => match fs !! i with
    | Some f => if isEmpty_ f || dyn_empty (filters_toDynamic ofDouble f) then None
                else Some (filters_toDynamic ofDouble f)
    | None => None end).
  destruct (write_read levels value (seq 0 (length fs))
    (parse_job_filter asString asDouble ofDouble regex_valid levels None) gs
    (replicate (length (objects_ levels)) noFilters)) as (obj & E & Ec).
  - done.
  - intros i Hi _. apply elem_of_seq in Hi. lia.
  - intros i d name a Hd En Ha. unfold value in Hd. destruct (fs !! i) as [f|] eqn:Ef; [|done].
    destruct (Forall2_lookup_l _ _ _ _ _ Hgs Ef) as (g & Eg & _ & Hg).
    destruct (isEmpty_ f || _); [done|]. injection Hd as <-. exists g. split; [done|].
    unfold parse_job_filter, checkedLookup, lookup_obj. apply Hn in En. rewrite En. cbn [or_throw]. rewrite Hg. cbn [or_throw].
    rewrite bool_decide_eq_true_2; [done|]. rewrite Ha. by eapply lookup_lt_Some.
  - intros i. destruct (value i) eqn:Ev; [left|right].
    + split; [|done]. unfold value in Ev. destruct (fs !! i) eqn:Ef; [|done].
      apply elem_of_seq. apply lookup_lt_Some in Ef. lia.
    + unfold value in Ev. destruct (fs !! i) as [f|] eqn:Ef.
      * destruct (Forall2_lookup_l _ _ _ _ _ Hgs Ef) as (g & Eg & _ & Hg).
        destruct (isEmpty_ f || _); [|done]. subst g. rewrite Eg. apply lookup_replicate.
        split; [done|]. rewrite <- Hlen. by eapply lookup_lt_Some.
      * apply lookup_ge_None in Ef. rewrite (proj2 (lookup_ge_None gs i)) by lia.
        apply lookup_ge_None. rewrite length_replicate. lia.
  - rewrite length_replicate. congruence.
  - exists obj, gs. split; [|split; [|done]].
    + rewrite <- E. unfold filters_obj. apply foldM_ext. intros i o Hi. unfold write_named, value.
      destruct (fs !! i) as [f|]; [|done]. by destruct (isEmpty_ f), (dyn_empty _).
    + eapply Forall2_impl; [exact Hgs|]. by intros f g [? _].
Qed.

Lemma dependencies_roundtrip table deps :
  table_wf table -> Forall (fun id => (id < length (objects_ table))%nat) deps ->
  exists names, mapM (lookup_id table) deps = Ret names /\
    collect (p_string parse_dependency) (map DString names) (table, []) = Ret ((table, deps), []).
Proof using PL.
  intros Ht Hd.
  enough (H : forall acc, exists names, mapM (lookup_id table) deps = Ret names /\
    collect (p_string parse_dependency) (map DString names) (table, acc) = Ret ((table, acc ++ deps), []))
    by (apply (H [])).
  induction Hd as [|id deps Hid _ IH]; intros acc; [exists []; by rewrite app_nil_r|].
  destruct (lookup_lt_is_Some_2 _ _ Hid) as [name En]. destruct (IH (acc ++ [id])) as (names & Em & Ec).
  assert (E1 : lookup_id table id = Ret name) by (unfold lookup_id; by rewrite En).
  exists (name :: names). split; [cbn; rewrite E1; cbn; by rewrite Em|]. cbn [map].
  rewrite (collect_cons _ _ _ _ (table, acc ++ [id])); [by rewrite Ec, <- app_assoc|].
  rewrite typed_string. unfold parse_dependency, insert_obj. apply Ht in En. cbn. by rewrite En.
Qed.

(** *** Jobs *)

(** What a job that was read has. *)
Record spec_ok (c : JobDefaults) (table : StringTable) (j : JobSpec) : Prop := {
  so_table : table_wf table;
  so_id : lookup_obj table (js_name j) = Some (js_id j);
  so_level : (js_levelForTasks j < length (objects_ (jd_levels c)))%nat;
  so_resources : length (js_resources j) = length (objects_ (resourceNames (jd_tables c)));
  so_ints : Forall is_s32 (js_resources j);
  so_config : exists kvs, js_config j = DObject kvs;
  so_filters : length (js_filters j) = length (objects_ (jd_levels c));
  so_host : forall l, js_levelForHostPlacement j = Some l -> (l < length (objects_ (jd_levels c)))%nat;
  so_backoff : backoff_wf (js_backoffSettings j);
  so_depends : Forall (fun id => (id < length (objects_ table))%nat) (js_dependsOn j);
  so_options : int_options (js_taskSubprocessOptions j) /\
    same_fixed (js_taskSubprocessOptions j) (jd_taskSubprocessOptions c);
  so_request : known_request (js_killRequest j)
}.

(** The job after it was saved and loaded. *)
Definition reloaded (j : JobSpec) (filters : list JobFilters) : JobSpec :=
  mkJobSpec (js_id j) (js_name j) (js_enabled j) (js_owner j) (js_levelForTasks j) (js_priority j)
    (js_resources j) (js_config j) filters (js_levelForHostPlacement j) (js_hostPlacement j)
    (js_backoffSettings j) (js_dependsOn j) (Z.max 0 (js_createTime j)) (Z.max 0 (js_modifyTime j))
    (js_killOrphanTasksAfter j) (js_taskSubprocessOptions j) (js_killRequest j) (js_command j)
    (if js_versionID j <? 0 then -1 else js_versionID j) (DObject []).

Lemma optional_either {S} kvs k (b : bool) d f (s s' : S) :
  assoc k kvs = (if b then None else Some d) -> (b = true -> s' = s) ->
  (b = false -> f d s = Ret (s', [])) -> p_optional (DObject kvs) k f s = Ret (s', []).
Proof using PL.
  intros E Ht Hf. destruct b; [rewrite Ht by done; by apply optional_missing|].
  eapply optional_found; [exact E|by apply Hf].
Qed.

(** The object of a job, key by key. *)
Record prints (c : JobDefaults) (j : JobSpec) (level : string) (resources filters : list (string * dynamic))
    (host : option string) (deps : list string) (kill_req : dynamic) (kvs : list (string * dynamic))
    : Prop := {
  pr_enabled : assoc "enabled" kvs = Some (DBool (js_enabled j));
  pr_owner : assoc "owner" kvs = Some (DString (js_owner j));
  pr_level : assoc "level_for_tasks" kvs = Some (DString level);
  pr_priority : assoc "priority" kvs = Some (ofDouble (js_priority j));
  pr_resources : assoc "resources" kvs =
    if bool_decide (resources = []) then None else Some (DObject resources);
  pr_config : assoc "config" kvs = Some (js_config j);
  pr_filters : assoc "filters" kvs = if bool_decide (filters = []) then None else Some (DObject filters);
  pr_host_level : assoc "level_for_host_placement" kvs = DString <$> host;
  pr_host : assoc "host_placement" kvs =
    if bool_decide (js_hostPlacement j = "") then None else Some (DString (js_hostPlacement j));
  pr_backoff : assoc "backoff" kvs = Some (backoff_toDynamic (js_backoffSettings j));
  pr_depends : assoc "depends_on" kvs =
    if bool_decide (js_dependsOn j = []) then None else Some (DArray (map DString deps));
  pr_create : assoc "create_time" kvs =
    if js_createTime j <=? 0 then None else Some (DInt (js_createTime j));
  pr_modify : assoc "modify_time" kvs =
    if js_modifyTime j <=? 0 then None else Some (DInt (js_modifyTime j));
  pr_kill : assoc "kill_orphan_tasks_after_sec" kvs =
    Some (killOrphanTasksAfterToDynamic (js_killOrphanTasksAfter j));
  pr_options : assoc "task_subprocess" kvs = Some (taskSubprocessOptionsToDynamic (js_taskSubprocessOptions j));
  pr_request : assoc "kill_subprocess" kvs = Some kill_req;
  pr_command : assoc "command" kvs =
    if bool_decide (js_command j = []) then None else Some (DArray (map DString (js_command j)));
  pr_version : assoc "version_id" kvs =
    if js_versionID j <? 0 then None else Some (DInt (js_versionID j));
  pr_errors : assoc "errors" kvs = if dyn_empty (js_errors j) then None else Some (js_errors j)
}.

Lemma lookup_id_lt table i :
  (i < length (objects_ table))%nat ->
  exists s, lookup_id table i = Ret s /\ objects_ table !! i = Some s.
Proof using. intros [s E]%lookup_lt_is_Some_2. exists s. unfold lookup_id. by rewrite E. Qed.

Lemma job_prints c table j resources filters deps kill_req :
  spec_ok c table j ->
  resources_toDynamic (jd_tables c) (js_resources j) = Ret resources ->
  filters_obj ofDouble (jd_levels c) (js_filters j) = Ret filters ->
  mapM (lookup_id table) (js_dependsOn j) = Ret deps -> killRequestToDynamic (js_killRequest j) = Ret kill_req ->
  exists kvs level host, job_toDynamic ofDouble c table j = Ret (DObject kvs) /\
    objects_ (jd_levels c) !! js_levelForTasks j = Some level /\
    match js_levelForHostPlacement j, host with
    | Some l, Some s => objects_ (jd_levels c) !! l = Some s
    | None, None => True
    | _, _ => False
    end /\ prints c j level resources filters host deps kill_req kvs.
Proof using.
  intros Hok Er Ef Ed Ek. unfold job_toDynamic.
  destruct (lookup_id_lt _ _ (so_level _ _ _ Hok)) as (level & -> & El). cbn [mbind outcome_bind].
  rewrite Ek. cbn [mbind outcome_bind]. rewrite Er. cbn [mbind outcome_bind]. rewrite Ef. cbn [mbind outcome_bind].
  assert (Hh : exists host, match js_levelForHostPlacement j, host with
    | Some l, Some s => objects_ (jd_levels c) !! l = Some s /\ lookup_id (jd_levels c) l = Ret s
    | None, None => True
    | _, _ => False end).
  { destruct (js_levelForHostPlacement j) as [l|] eqn:E; [|by exists None].
    destruct (lookup_id_lt _ _ (so_host _ _ _ Hok l E)) as (s & E1 & E2). by exists (Some s). }
  destruct Hh as [host Hh].
  destruct (js_levelForHostPlacement j) as [l|], host as [s|]; try done; [destruct Hh as [Hh ->]|];
    cbn [mbind outcome_bind]; rewrite Ed; cbn [mbind outcome_bind].
  1: eexists _, level, (Some s). 2: eexists _, level, None.
  all: split; [reflexivity|]; split; [done|]; split; [done|].
  1: match goal with |- context [assoc_set "level_for_host_placement" ?d ?o] =>
       change (assoc_set "level_for_host_placement" d o) with (set_unless false "level_for_host_placement" d o)
     end.
  all: split; rewrite !assoc_set_unless;
    first [reflexivity | match goal with |- _ = (if ?b then _ else _) => destruct b; reflexivity end].
Qed.

(** A job is read from what it is written as. *)
Lemma parse_prints c nl table j :
  spec_ok c table j -> table_wf (jd_levels c) -> tables_wf nl (jd_tables c) -> all_levelled (jd_tables c) ->
  Forall filter_read (js_filters j) -> kill_survives (js_killOrphanTasksAfter j) ->
  js_errors j = DObject [] ->
  exists d gs, job_toDynamic ofDouble c table j = Ret d /\ Forall2 same_filters (js_filters j) gs /\
    Job_of asString asDouble ofDouble asFloat regex_valid c table (js_name j) d None =
      Ret (table, reloaded j gs).
Proof using PL HasString HasDouble.
  intros Hok Hlev Ht Hall Hfil Hkill Herr.
  destruct (resources_roundtrip nl _ _ Ht Hall (so_resources _ _ _ Hok) (so_ints _ _ _ Hok)) as (ro & Er & Hr).
  destruct (filters_roundtrip_all _ _ Hlev (so_filters _ _ _ Hok) Hfil) as (fo & gs & Ef & Hsame & Hf).
  destruct (dependencies_roundtrip _ _ (so_table _ _ _ Hok) (so_depends _ _ _ Hok)) as (deps & Ed & Hd).
  destruct (kill_request_roundtrip [] _ (jd_killRequest c) (so_request _ _ _ Hok)) as (kr & Ek & _).
  destruct (job_prints c table j ro fo deps kr Hok Er Ef Ed Ek) as (kvs & level & host & Ej & El & Hh & Hp).
  exists (DObject kvs), gs. split; [done|]. split; [done|]. unfold Job_of.
  unfold insert_obj. pose proof (so_id _ _ _ Hok) as Hid. unfold lookup_obj in Hid. rewrite Hid.
  destruct Hp as [P1 P2 P3 P4 P5 P6 P7 P8 P9 P10 P11 P12 P13 P14 P15 P16 P17 P18 P19].
  rewrite (optional_found kvs "enabled" _ _ _ (js_enabled j) P1) by (by rewrite typed_bool). cbn [mbind outcome_bind].
  rewrite (required_found kvs "owner" _ _ _ (js_owner j) P2) by (by rewrite typed_string). cbn [mbind outcome_bind].
  apply Hlev in El.
  rewrite (optional_found kvs "level_for_tasks" _ _ _ (js_levelForTasks j) P3) by (rewrite typed_string; unfold checkedLookup, lookup_obj; by rewrite El). cbn [mbind outcome_bind].
  rewrite (optional_found kvs "priority" _ _ _ (js_priority j) P4) by (by rewrite typed_double). cbn [mbind outcome_bind].
  rewrite (optional_either kvs "resources" _ _ _ _ (js_resources j) P5).
  2: { intros ->%bool_decide_eq_true. cbn in Hr. injection Hr as <-. done. }
  2: { intros _. by apply object_items. }
  cbn [mbind outcome_bind].
  destruct (so_config _ _ _ Hok) as [ckvs Ec].
  rewrite (optional_found kvs "config" _ _ _ (js_config j) P6) by (by rewrite Ec). cbn [mbind outcome_bind].
  rewrite (optional_either kvs "filters" _ _ _ _ gs P7).
  2: { intros ->%bool_decide_eq_true. cbn in Hf. injection Hf as <-. done. }
  2: { intros _. by apply object_items. }
  cbn [mbind outcome_bind].
  assert (Ehost : p_optional (DObject kvs) "level_for_host_placement" (p_string (fun s l =>
      or_throw (checkedLookup (jd_levels c) s) l (fun id => set_to (Some id)))) None =
      Ret (js_levelForHostPlacement j, [])).
  { destruct (js_levelForHostPlacement j) as [l|], host as [hs|]; try done.
    - eapply optional_found; [exact P8|]. rewrite typed_string. unfold checkedLookup, lookup_obj.
      apply Hlev in Hh. by rewrite Hh.
    - by apply optional_missing. }
  rewrite Ehost. cbn [mbind outcome_bind].
  rewrite (optional_either kvs "host_placement" _ _ _ _ (js_hostPlacement j) P9);
    [|by intros ?%bool_decide_eq_true|by intros _; rewrite typed_string].
  cbn [mbind outcome_bind].
  rewrite (optional_found kvs "backoff" _ _ _ (js_backoffSettings j) P10) by (by rewrite (backoff_roundtrip_wf _ (so_backoff _ _ _ Hok))). cbn [mbind outcome_bind].
  rewrite (optional_either kvs "depends_on" _ _ _ _ (table, js_dependsOn j) P11);
    [|by intros ->%bool_decide_eq_true|by intros _; apply array_items].
  cbn [mbind outcome_bind].
  rewrite (optional_either kvs "create_time" _ _ _ _ (Z.max 0 (js_createTime j)) P12);
    [|intros ?%Z.leb_le; lia|intros ?%Z.leb_gt; rewrite typed_int; unfold set_to; do 2 f_equal; lia].
  cbn [mbind outcome_bind].
  rewrite (optional_either kvs "modify_time" _ _ _ _ (Z.max 0 (js_modifyTime j)) P13);
    [|intros ?%Z.leb_le; lia|intros ?%Z.leb_gt; rewrite typed_int; unfold set_to; do 2 f_equal; lia].
  cbn [mbind outcome_bind].
  rewrite (kill_roundtrip kvs _ _ Hkill P14). cbn [mbind outcome_bind].
  destruct (so_options _ _ _ Hok) as [Hint Hfix]. rewrite (options_roundtrip kvs _ _ Hint Hfix P15). cbn [mbind outcome_bind].
  destruct (kill_request_roundtrip kvs _ (jd_killRequest c) (so_request _ _ _ Hok)) as (kr' & Ek' & Hk).
  rewrite Ek in Ek'. injection Ek' as <-. rewrite (Hk P16). cbn [mbind outcome_bind].
  rewrite (optional_either kvs "command" _ _ _ _ (js_command j) P17);
    [|by intros ?%bool_decide_eq_true|by intros _; apply array_items, collect_strings].
  cbn [mbind outcome_bind].
  rewrite (optional_either kvs "version_id" _ _ _ _ (if js_versionID j <? 0 then -1 else js_versionID j) P18);
    [|by intros ->|by intros ->; rewrite typed_int].
  cbn [mbind outcome_bind].
  rewrite Herr in P19. rewrite (optional_missing kvs "errors" _ _ P19). cbn [mbind outcome_bind].
  cbn [app fst snd]. rewrite released_none. reflexivity.
Qed.

(** *** Every job that is read is well-formed *)

(** A configuration that was read. *)
Record defaults_ok (nl : nat) (c : JobDefaults) : Prop := {
  df_levels : table_wf (jd_levels c);
  df_tables : tables_wf nl (jd_tables c);
  df_all : all_levelled (jd_tables c);
  df_ints : Forall is_s32 (defaultJobResources (jd_tables c));
  df_level : (jd_levelForTasks c < length (objects_ (jd_levels c)))%nat;
  df_backoff : backoff_wf (jd_backoffSettings c);
  df_options : int_options (jd_taskSubprocessOptions c);
  df_request : known_request (jd_killRequest c)
}.

Lemma checkedLookup_lt t k i : table_wf t -> checkedLookup t k = Ret i -> (i < length (objects_ t))%nat.
Proof using.
  unfold checkedLookup, lookup_obj. intros Ht. destruct (objToIndex_ t !! k) as [x|] eqn:E; [|done].
  intros [= <-]. apply Ht in E. by eapply lookup_lt_Some.
Qed.

Lemma or_throw_Ret {A S} (m : outcome A) (s : S) k s' es :
  or_throw m s k = Ret (s', es) -> s' = s \/ exists a, m = Ret a /\ k a = Ret (s', es).
Proof using. destruct m; cbn; try done; [eauto|intros [= <- _]; by left]. Qed.

(** A field that a string sets, if the string is good. *)
Lemma string_field {S} (I : S -> Prop) d k f (s s' : S) es :
  I s -> (forall x s s' es, I s -> f x s = Ret (s', es) -> I s') ->
  p_optional d k (p_string f) s = Ret (s', es) -> I s'.
Proof using PL.
  intros Hs Hf E. eapply optional_changes; [exact Hs| |exact E]. intros d0 s0 s1 es0 H0 E0.
  eapply typed_changes_string; [exact H0| |exact E0]. intros x s2 s3 es1 H2 E2. by eapply Hf.
Qed.
Lemma int_field d k n n' es :
  is_s32 n -> p_optional d k (p_int (fun n _ => set_to (s32 n))) n = Ret (n', es) -> is_s32 n'.
Proof using PL.
  intros Hn E. eapply optional_changes; [exact Hn| |exact E]. intros d0 s0 s1 es0 H0 E0.
  eapply typed_changes_int; [exact H0| |exact E0]. intros x s2 s3 es1 H2 [= <- _]. apply s32_range.
Qed.

Lemma level_read t d k s s' es :
  table_wf t -> (s < length (objects_ t))%nat ->
  p_optional d k (p_string (fun s l => or_throw (checkedLookup t s) l set_to)) s = Ret (s', es) ->
  (s' < length (objects_ t))%nat.
Proof using PL.
  intros Ht Hs E. eapply (string_field (fun n => (n < length (objects_ t))%nat)); [exact Hs| |exact E].
  intros x s1 s2 es1 H1 [->|(i & Ei & [= <- _])]%or_throw_Ret; [done|]. by eapply checkedLookup_lt.
Qed.
Lemma host_read t d k s' es :
  table_wf t ->
  p_optional d k (p_string (fun s l => or_throw (checkedLookup t s) l (fun id => set_to (Some id)))) None
    = Ret (s', es) -> forall l, s' = Some l -> (l < length (objects_ t))%nat.
Proof using PL.
  intros Ht E.
  refine (string_field (fun o => forall l, o = Some l -> (l < length (objects_ t))%nat) _ _ _ None _ _ _ _ E);
    [done|].
  intros x s1 s2 es1 H1 [->|(i & Ei & [= <- _])]%or_throw_Ret; [done|]. intros l [= <-].
  by eapply checkedLookup_lt.
Qed.

Lemma resources_read t d k rs rs' es :
  Forall is_s32 rs -> p_optional d k (fun v => p_objectItems v (parse_job_resource t)) rs = Ret (rs', es) ->
  length rs' = length rs /\ Forall is_s32 rs'.
Proof using PL.
  intros Hrs E. eapply (optional_changes (fun x => length x = length rs /\ Forall is_s32 x)); [done| |exact E].
  intros v s1 s2 es1 H1 E1. eapply (items_change (fun x => length x = length rs /\ Forall is_s32 x));
    [exact H1| |exact E1].
  intros name d2 s3 s4 es2 H3 E3. unfold parse_job_resource in E3.
  eapply (typed_changes_int (fun x => length x = length rs /\ Forall is_s32 x)); [exact H3| |exact E3].
  intros n s5 s6 es3 [Hl Hi] [->|(rid & _ & Er)]%or_throw_Ret; [done|].
  case_bool_decide; [|done]. injection Er as <- _. rewrite length_insert. split; [done|].
  apply Forall_insert; [done|apply s32_range].
Qed.

Lemma filters_read levels d k n fs' es :
  p_optional d k (fun v => p_objectItems v
    (parse_job_filter asString asDouble ofDouble regex_valid levels None)) (replicate n noFilters) = Ret (fs', es) ->
  length fs' = n /\ Forall (fun f => f = noFilters \/ exists d, parse_filters d None = Ret f) fs'.
Proof using PL.
  set (I := fun fs => length fs = n /\ Forall (fun f => f = noFilters \/ exists d, parse_filters d None = Ret f) fs).
  intros E. eapply (optional_changes I); [| |exact E].
  { split; [apply length_replicate|]. apply Forall_replicate. by left. }
  intros v s1 s2 es1 H1 E1. eapply (items_change I); [exact H1| |exact E1].
  intros name d2 s3 s4 es2 [Hl Hf] [->|(l & _ & [->|(f & Ef & Ei)]%or_throw_Ret)]%or_throw_Ret; [done..|].
  case_bool_decide; [|done]. injection Ei as <- _. split; [by rewrite length_insert|].
  apply Forall_insert; [done|eauto].
Qed.

Lemma backoff_read d k s s' es :
  backoff_wf s -> p_optional d k (fun v old => or_throw (JobBackoffSettings_of v) old set_to) s = Ret (s', es) ->
  backoff_wf s'.
Proof using PL.
  intros Hs E. eapply (optional_changes backoff_wf); [exact Hs| |exact E].
  intros v s1 s2 es1 H1 [->|(b & Eb & [= <- _])]%or_throw_Ret; [done|]. by eapply JobBackoffSettings_of_wf.
Qed.

Lemma config_object_read d k (s' : dynamic) es :
  p_optional d k (fun v old => match v with DObject _ => set_to v | _ => thrown old "Must be an object" end)
    (DObject []) = Ret (s', es) -> exists kvs, s' = DObject kvs.
Proof using PL.
  intros E. refine (optional_changes (fun v => exists kvs, v = DObject kvs) _ _ _ (DObject []) _ _ _ _ E); [eauto|].
  intros v s1 s2 es1 H1 E1. destruct v; injection E1 as <- _; eauto.
Qed.

Lemma depends_read d k table name id s' es :
  table_wf table -> lookup_obj table name = Some id ->
  p_optional d k (fun v => p_arrayItems v (p_string parse_dependency)) (table, []) = Ret (s', es) ->
  table_wf s'.1 /\ lookup_obj s'.1 name = Some id /\ Forall (fun i => (i < length (objects_ s'.1))%nat) s'.2.
Proof using PL.
  intros Ht Hl E.
  set (I := fun s : StringTable * list nat => table_wf s.1 /\ lookup_obj s.1 name = Some id /\
    Forall (fun i => (i < length (objects_ s.1))%nat) s.2).
  enough (Hi : I s') by exact Hi.
  refine (optional_changes I _ _ _ (table, []) _ _ _ _ E); [by split_and!|].
  intros v s1 s2 es1 H1 E1. eapply (array_changes I); [exact H1| |exact E1].
  intros d1 s3 s4 es2 H3 E3. eapply (typed_changes_string I); [exact H3| |exact E3].
  intros x s5 s6 es3 (W & L & F) E5. unfold parse_dependency in E5.
  pose proof (insert_obj_wf s5.1 x W) as W'. pose proof (insert_obj_lookup s5.1 x) as L'.
  pose proof (insert_obj_stable s5.1 x name id W L) as St.
  assert (Hlen : (length (objects_ s5.1) <= length (objects_ (insert_obj s5.1 x).1))%nat).
  { unfold insert_obj. destruct (objToIndex_ s5.1 !! x); cbn; [lia|]. rewrite length_app. cbn. lia. }
  destruct (insert_obj s5.1 x) as [t i]. injection E5 as <- _. cbn in *. split; [done|]. split; [done|].
  apply Forall_app. split.
  - eapply Forall_impl; [exact F|]. cbn. intros. lia.
  - apply Forall_singleton. apply W' in L'. by eapply lookup_lt_Some.
Qed.

Lemma cgroups_read v o o' es :
  parseCGroupOptions v o = Ret (o', es) ->
  unitTestCreateFiles o' = unitTestCreateFiles o /\ cg_cpuShares o' = cg_cpuShares o /\
  cg_memoryLimitInBytes o' = cg_memoryLimitInBytes o.
Proof using.
  unfold parseCGroupOptions. intros E. do 4 (apply bind_Ret_iff in E as ([? ?] & _ & E)).
  by injection E as <- _.
Qed.

Lemma options_read d o o' es :
  int_options o -> parseTaskSubprocessOptions d o = Ret (o', es) -> int_options o' /\ same_fixed o' o.
Proof using PL.
  intros Ho E. refine (optional_changes (fun x => int_options x /\ same_fixed x o) _ _ _ o _ _ _ _ E); [done|].
  intros v x x' es1 [(H1 & H2 & H3) (F1 & F0 & F2 & F3)] Ex.
  apply bind_Ret_iff in Ex as ([poll ?] & E1 & Ex). apply bind_Ret_iff in Ex as ([lines ?] & E2 & Ex).
  apply bind_Ret_iff in Ex as ([sig ?] & E3 & Ex). do 2 (apply bind_Ret_iff in Ex as ([? ?] & _ & Ex)).
  apply bind_Ret_iff in Ex as ([cg ?] & E6 & Ex). injection Ex as <- _.
  apply int_field in E1, E2, E3; [|done..]. split; [done|]. split; [done|]. cbn.
  refine (optional_changes (fun y => unitTestCreateFiles y = _ /\ cg_cpuShares y = _ /\ cg_memoryLimitInBytes y = _) _ _ _ _ _ _ _ _ E6);
    [done|]. intros d0 y y' es2 (Y0 & Y1 & Y2) (-> & -> & ->)%cgroups_read. done.
Qed.

Lemma request_read d r r' es :
  known_request r -> parseKillRequest d r = Ret (r', es) -> known_request r'.
Proof using PL.
  intros Hr E. refine (optional_changes known_request _ _ _ r _ _ _ _ E); [done|].
  intros v x x' es1 [Hw Hm] Ex. apply bind_Ret_iff in Ex as ([meth ?] & E1 & Ex).
  apply bind_Ret_iff in Ex as ([wait ?] & E2 & Ex). injection Ex as <- _. apply int_field in E2; [|done].
  split; [done|]. cbn. refine (string_field (fun m => match m with BadMethod _ => False | _ => True end)
    _ _ _ (kr_method x) _ _ _ _ E1); [done|].
  intros s m m' es2 Hm' Es. unfold parse_method in Es. repeat case_bool_decide; by injection Es as <- _.
Qed.

Abbreviation read_job := (Job_of asString asDouble ofDouble asFloat regex_valid).

(** Whatever the JSON is, a job that is read is well-formed. *)
Lemma job_read c nl table name d table' j :
  defaults_ok nl c -> table_wf table -> read_job c table name d None = Ret (table', j) ->
  spec_ok c table' j /\ js_name j = name /\
  Forall (fun f => f = noFilters \/ exists d, parse_filters d None = Ret f) (js_filters j).
Proof using PL.
  intros [D1 D2 D3 D4 D5 D6 D7 D8] Ht E. unfold Job_of in E.
  pose proof (insert_obj_wf table name Ht) as W. pose proof (insert_obj_lookup table name) as L.
  destruct (insert_obj table name) as [t id]. cbn in W, L.
  do 2 (apply bind_Ret_iff in E as ([? ?] & _ & E)).
  apply bind_Ret_iff in E as ([level ?] & E3 & E). apply bind_Ret_iff in E as ([? ?] & _ & E).
  apply bind_Ret_iff in E as ([rs ?] & E5 & E). apply bind_Ret_iff in E as ([cfg ?] & E6 & E).
  apply bind_Ret_iff in E as ([fs ?] & E7 & E). apply bind_Ret_iff in E as ([hl ?] & E8 & E).
  apply bind_Ret_iff in E as ([? ?] & _ & E). apply bind_Ret_iff in E as ([bo ?] & E10 & E).
  apply bind_Ret_iff in E as ([tdeps ?] & E11 & E). do 3 (apply bind_Ret_iff in E as ([? ?] & _ & E)).
  apply bind_Ret_iff in E as ([opts ?] & E15 & E). apply bind_Ret_iff in E as ([req ?] & E16 & E).
  do 3 (apply bind_Ret_iff in E as ([? ?] & _ & E)). apply bind_Ret_iff in E as (? & _ & E).
  injection E as <- <-. apply level_read in E3; [|done..]. apply resources_read in E5 as [R1 R2]; [|done].
  apply config_object_read in E6. apply filters_read in E7 as [F1 F2]. pose proof (host_read _ _ _ _ _ D1 E8) as Hh.
  apply backoff_read in E10; [|done]. apply (depends_read _ _ _ name id) in E11 as (T1 & T2 & T3); [|done..].
  apply options_read in E15; [|done]. apply request_read in E16; [|done].
  split; [|done]. split; cbn; try done. by rewrite R1, (defaults_all _ _ D2).
Qed.

(** C31: A job that was read without errors, with fractions of nodes that are
    at most 1 and a kill delay that survives its conversion to seconds
    ([kill_delay_shrinks] shows one that does not), under a well-formed
    configuration, can be written, and reading what was written gives back the
    same job ([reloaded]): every field is equal, except that negative times
    become 0 and a negative version becomes -1, and the filters pass the same
    nodes. *)
Theorem job_save_load c nl table name d table' j :
  defaults_ok nl c -> table_wf table -> read_job c table name d None = Ret (table', j) ->
  js_errors j = DObject [] -> kill_survives (js_killOrphanTasksAfter j) ->
  Forall (fun f => forall q, fractionOfNodes_ f = Some q -> (q <= 1)%Q) (js_filters j) ->
  exists d' filters, job_toDynamic ofDouble c table' j = Ret d' /\
    read_job c table' name d' None = Ret (table', reloaded j filters) /\
    Forall2 same_filters (js_filters j) filters.
Proof using PL HasString HasDouble.
  intros Hc Ht E Herr Hkill Hfrac. destruct (job_read c nl table name d table' j Hc Ht E) as (Hok & <- & Hf).
  destruct (parse_prints c nl table' j) as (d' & gs & E1 & Hs & E2); try done; try apply Hc.
  - apply Forall_forall. intros f Hin. rewrite Forall_forall in Hf, Hfrac.
    destruct (Hf f Hin) as [->|[fd Ef]]; [by left|right].
    destruct (fractionOfNodes_ f) as [q|] eqn:Eq.
    + exists fd, q. split; [done|]. split; [done|]. by apply (Hfrac f).
    + unfold JobFilters_of in Ef. destruct fd; try done.
      do 6 (apply bind_Ret_iff in Ef as (? & _ & Ef)). destruct (setFractionOfNodes _).
      injection Ef as <-. done.
  - by exists d', gs.
Qed.
End Facts.

(** ** A parser *)

Definition within {S} (k : string) (r : parsed S) (s : S) : parsed S :=
  match r with
  | Ret (s', es) => Ret (s', map (fun e => mkParseError (k :: pe_path e) (pe_what e)) es)
  | Throw what => thrown s what
  | o => o
  end.
Definition record_key {S} (missing : S -> parsed S) (d : dynamic) (k : string)
    (f : dynamic -> S -> parsed S) (s : S) : parsed S :=
  match d with
  | DObject kvs =>
      match assoc k kvs with
      | None => missing s
      | Some v => within k (f v s) s
      end
  | _ => thrown s "Expected an object"
  end.
Definition errors_toDynamic (es : list ParseError) : dynamic :=
  match es with
  | [] => DObject []
  | _ => DObject [("errors", DArray (map (fun e => DString (pe_what e)) es))]
  end.

(** Doubles are read as they are written. *)
Definition plain_float (d : dynamic) : outcome spec_float :=
  match d with
  | DInt n => Ret (f_of n)
  | DDouble 0 _ => Ret f_zero
  | DDouble (Zpos m) e => Ret (S754_finite false m e)
  | DDouble (Zneg m) e => Ret (S754_finite true m e)
  | _ => Throw "TypeError"
  end.

#[export] Instance record_parser : DynamicParser := {
  p_optional S := record_key (fun s => Ret (s, []));
  p_required S := record_key (fun s => thrown s "Couldn't find key");
  p_objectItems S d f s :=
    match d with
    | DObject kvs => collect (fun p s => within p.1 (f p.1 p.2 s) s) kvs s
    | _ => thrown s "Expected an object"
    end;
  p_arrayItems S d f s :=
    match d with
    | DArray l => collect (fun v s => within "" (f v s) s) l s
    | _ => thrown s "Expected an array"
    end;
  p_bool S f d s := match d with DBool b => f b s | _ => thrown s "TypeError" end;
  p_int S f d s := match d with DInt n => f n s | _ => thrown s "TypeError" end;
  p_string S f d s := match d with DString x => f x s | _ => thrown s "TypeError" end;
  p_double S f d s := match only_double d with Ret q => f q s | _ => thrown s "TypeError" end;
  p_float S f d s := match plain_float d with Ret x => f x s | _ => thrown s "TypeError" end;
  releaseErrors := errors_toDynamic
}.

Lemma within_changes {S} (I : S -> Prop) k (r : parsed S) s s' es :
  I s -> (forall s' es, r = Ret (s', es) -> I s') -> within k r s = Ret (s', es) -> I s'.
Proof.
  intros Hs Hr. destruct r as [[s1 es1]|e|e|e]; cbn; try done; intros [= <- _]; [by eapply Hr|done].
Qed.
Lemma within_clean {S} k (s s' : S) : within k (Ret (s', [])) s = Ret (s', []).
Proof. done. Qed.

Lemma collect_changes {A S} (I : S -> Prop) (f : A -> S -> parsed S) l s s' es :
  I s -> (forall a s s' es, I s -> f a s = Ret (s', es) -> I s') -> collect f l s = Ret (s', es) -> I s'.
Proof.
  intros Hs Hf E. unfold collect in E.
  apply (foldM_inv (fun p => I p.1)) in E; [done| |done].
  intros a [s1 es1] [s2 es2] _ H1 E1. apply bind_Ret_iff in E1 as ([s3 es3] & E3 & [= <- _]).
  by eapply Hf.
Qed.

(** A loop without errors has none in any step. *)
Lemma collect_clean_within {A S} (key : A -> string) (f : A -> S -> parsed S) l s s' :
  collect f l s = Ret (s', []) -> collect (fun a s => within (key a) (f a s) s) l s = Ret (s', []).
Proof.
  unfold collect. enough (H : forall l (acc : S * list ParseError) r,
    foldM (fun acc a => let* (s, es) := f a acc.1 in Ret (s, acc.2 ++ es)) acc l = Ret (r, []) ->
    acc.2 = [] /\ foldM (fun acc a => let* (s, es) := within (key a) (f a acc.1) acc.1 in
      Ret (s, acc.2 ++ es)) acc l = Ret (r, [])) by (intros E; apply H in E; apply E).
  clear. induction l as [|a l IH]; intros [s es] r E; cbn in *; [by injection E as <- ->|].
  destruct (f a s) as [[s1 es1]|e|e|e]; cbn in *; try done.
  apply IH in E as [E1 E2]. cbn in E1. apply app_eq_nil in E1 as [-> ->]. cbn in *. done.
Qed.

Lemma record_key_changes {S} (I : S -> Prop) missing d k f (s s' : S) es :
  I s -> (forall s' es, missing s = Ret (s', es) -> I s') ->
  (forall d s s' es, I s -> f d s = Ret (s', es) -> I s') ->
  record_key missing d k f s = Ret (s', es) -> I s'.
Proof.
  intros Hs Hm Hf E. unfold record_key in E. destruct d; try (by injection E as <- _).
  destruct (assoc k kvs) as [v|]; [|by eapply Hm].
  eapply within_changes; [exact Hs| |exact E]. intros. by eapply Hf.
Qed.

#[export] Instance record_parser_laws : ParserLaws record_parser as_double.
Proof.
  split; try intros S; cbn.
  - intros kvs k f s E. by rewrite E.
  - intros kvs k d f s s' E Ef. by rewrite E, Ef.
  - intros kvs k d f s s' E Ef. by rewrite E, Ef.
  - intros kvs f s s' E. by apply (collect_clean_within fst).
  - intros l f s s' E. by apply (collect_clean_within (fun _ => "")).
  - done.
  - done.
  - done.
  - intros f [m e] s. done.
  - done.
  - intros I d k f s s' es Hs Hf. apply record_key_changes; try done. by intros ? ? [= <- _].
  - intros I d k f s s' es Hs Hf. apply record_key_changes; try done. by intros ? ? [= <- _].
  - intros I d f s s' es Hs Hf E. destruct d; try (by injection E as <- _).
    eapply (collect_changes I); [exact Hs| |exact E]. intros p s1 s2 es1 H1 E1.
    eapply within_changes; [exact H1| |exact E1]. intros. by eapply Hf.
  - intros I d f s s' es Hs Hf E. destruct d; try (by injection E as <- _).
    eapply (collect_changes I); [exact Hs| |exact E]. intros p s1 s2 es1 H1 E1.
    eapply within_changes; [exact H1| |exact E1]. intros. by eapply Hf.
  - intros I f d s s' es Hs Hf E. destruct d; try (by injection E as <- _). by eapply Hf.
  - intros I f d s s' es Hs Hf E. destruct d; try (by injection E as <- _). by eapply Hf.
  - intros I f d s s' es Hs Hf E. destruct d; try (by injection E as <- _). by eapply Hf.
Qed.

(** ** A sample job *)

(** Whole seconds survive, here up to an hour; 4007 milliseconds do not. *)
Lemma seconds_survive s : 0 <= s <= 3600 -> kill_survives plain_float (Some (1000 * s)).
Proof.
  intros Hs.
  assert (H : forallb (fun s => match plain_float (ofFloat (f_mul f_001 (f_of (1000 * s)))) with
    | Ret sec => f_nonneg sec && match static_cast_int (f_mul (f_of 1000) sec) with
                                 | Ret ms => ms =? 1000 * s | _ => false end
    | _ => false end) (seqZ 0 3601) = true) by (vm_compute; reflexivity).
  rewrite forallb_forall in H. specialize (H s). rewrite <- list_elem_of_In, elem_of_seqZ in H.
  specialize (H ltac:(lia)). unfold kill_survives.
  destruct (plain_float _) as [sec| | |]; try done. exists sec. split; [done|].
  apply andb_true_iff in H as [H1 H2]. split; [done|].
  destruct (static_cast_int _) as [ms| | |]; try done. apply Z.eqb_eq in H2. by rewrite H2.
Qed.

(** A delay of 4.0075 seconds is read as 4007 milliseconds, and one of them is
    lost when the job is saved and loaded. *)
Theorem kill_delay_shrinks :
  parseKillOrphanTasksAfter plain_float
    (DObject [("kill_orphan_tasks_after_sec", DDouble 4512043876671816 (-50))]) None = Ret (Some 4007, []) /\
  parseKillOrphanTasksAfter plain_float
    (DObject [("kill_orphan_tasks_after_sec", killOrphanTasksAfterToDynamic (Some 4007))]) None
    = Ret (Some 4006, []).
Proof. split; vm_compute; reflexivity. Qed.

Definition sample_defaults : JobDefaults :=
  mkDefaults sample_levels
    (match parse_resources sample_levels [("host", [("slots", plain_spec 1 3)])] with
     | Ret t => t | _ => newTables sample_levels end)
    2 (mkBackoff [60; 120] true) None defaultSubprocessOptions (mkKillRequest TERM 0).

Lemma sample_defaults_ok : defaults_ok 4 sample_defaults.
Proof.
  assert (E : parse_resources sample_levels [("host", [("slots", plain_spec 1 3)])]
    = Ret (jd_tables sample_defaults)) by (vm_compute; reflexivity).
  split.
  - apply parse_levels_wf.
  - pose proof (parse_resources_tables sample_levels [("host", [("slots", plain_spec 1 3)])]
      (parse_levels_wf _)) as H. rewrite E in H. apply H. apply (bool_decide_unpack _). vm_compute. exact I.
  - intros rid Hr. vm_compute in Hr. destruct rid; [|lia]. apply (bool_decide_unpack _). vm_compute. exact I.
  - apply (bool_decide_unpack _). vm_compute. exact I.
  - vm_compute. lia.
  - split; [repeat constructor|]. split; [repeat constructor|done].
  - done.
  - done.
Qed.

Definition sample_json : dynamic :=
  DObject [("owner", DString "ops"); ("kill_orphan_tasks_after_sec", DInt 5);
           ("resources", DObject [("slots", DInt 2)]);
           ("filters", DObject [("db", DObject [("blacklist", DArray [DString "db7"])])]);
           ("backoff", DArray [DInt 30; DString "fail"]); ("depends_on", DArray [DString "load"]);
           ("level_for_host_placement", DString "host"); ("version_id", DInt 3);
           ("kill_subprocess", DObject [("method", DString "term_wait_kill"); ("kill_wait_ms", DInt 500)]);
           ("task_subprocess", DObject [("cgroups", DObject [("subsystems", DArray [DString "cpu"])])]);
           ("command", DArray [DString "/bin/true"])].

Abbreviation sample_read := (Job_of only_string only_double as_double plain_float (fun _ => true)).

Lemma job_save_load_witness :
  exists table j d' filters, sample_read sample_defaults emptyTable "dump" sample_json None = Ret (table, j) /\
    js_resources j = [2] /\ js_dependsOn j = [1%nat] /\ js_killOrphanTasksAfter j = Some 5000 /\
    job_toDynamic as_double sample_defaults table j = Ret d' /\
    sample_read sample_defaults table "dump" d' None = Ret (table, reloaded j filters) /\
    Forall2 same_filters (js_filters j) filters.
Proof.
  destruct (sample_read sample_defaults emptyTable "dump" sample_json None) as [[table j]|m|m|m] eqn:E;
    [|vm_compute in E; discriminate..].
  assert (Hj : js_errors j = DObject [] /\ js_resources j = [2] /\ js_dependsOn j = [1%nat] /\
    js_killOrphanTasksAfter j = Some 5000 /\
    Forall (fun f => match fractionOfNodes_ f with Some q => Qle_bool q 1 = true | None => True end) (js_filters j)).
  { vm_compute in E. injection E as <- <-. vm_compute. repeat split; repeat constructor. }
  destruct Hj as (H1 & H2 & H3 & H4 & H5).
  destruct (job_save_load (ofDouble := as_double) plain_float only_string only_double (fun _ => true) (fun s => eq_refl)
    (fun q => match q with m # e => eq_refl end) sample_defaults 4 emptyTable "dump" sample_json table j)
    as (d' & fs & E1 & E2 & E3).
  - exact sample_defaults_ok.
  - exact emptyTable_wf.
  - exact E.
  - exact H1.
  - rewrite H4. apply (seconds_survive 5). lia.
  - eapply Forall_impl; [exact H5|]. cbn. intros f Hf q Eq. rewrite Eq in Hf. by apply Qle_bool_iff.
  - exists table, j, d', fs. done.
Defined.
