(* ===== verification/ThriftJob.v ===== *)
(** [thrift/ThriftConversion.cpp]: jobs as the Thrift struct [BistroJobConfig];
    [Config::addJob] and [ConfigLoader::saveJob].

    The unordered maps and sets of the struct are finite maps and sets.  folly's
    conversion between JSON text and values is a parameter, the parser is that
    of [JobConfig]. *)

From stdpp Require Import base gmap strings list.
From Stdlib Require Import ZArith QArith Lia SpecFloat.
From S2P Require Import Prelude Dynamic Backoff SymbolTable Scheduling Config Jobs Resources Subprocess.
From S2P Require Import JobConfig.

#[local] Open Scope Z_scope.

(** ** Data *)

Record BistroJobConfigFilters := mkThriftFilters {
  tf_whitelist : gset string;
  tf_whitelistRegex : string;
  tf_blacklist : gset string;
  tf_blacklistRegex : string;
  tf_fractionOfNodes : Q;
  tf_tagWhitelist : gset string
}.

Record BistroJobConfig := mkThriftJob {
  tj_name : string;
  tj_enabled : bool;
  tj_owner : string;
  tj_resources : gmap string Z;
  tj_config : string;
  tj_priority : Q;
  tj_filters : gmap string BistroJobConfigFilters;
  tj_error : string;
  tj_backoffValues : list Z;
  tj_backoffRepeat : bool;
  tj_createTime : Z;
  tj_modifyTime : Z;
  tj_levelForTasks : string;
  tj_levelForHostPlacement : string;
  tj_dependsOn : list string;
  tj_hostPlacement : string;
  tj_killOrphanTasksAfterSec : option spec_float;
  tj_taskSubprocessOptions : TaskSubprocessOptions;
  tj_killRequest : KillRequest;
  tj_versionID : Z
}.

Section Conversion.
Context `{DynamicParser}.
Context (asString : dynamic -> outcome string) (asDouble : dynamic -> outcome Q)
  (ofDouble : Q -> dynamic) (asFloat : dynamic -> outcome spec_float).
Context (parseJson : string -> outcome dynamic) (toJson : dynamic -> outcome string).

(** ** Filters *)

(** A set as an array, under its key unless it is empty. *)
Definition set_key (k : string) (s : gset string) : list (string * dynamic) :=
  if bool_decide (s = ∅) then [] else [(k, DArray (map DString (elements s)))].
Definition string_key (k s : string) : list (string * dynamic) :=
  if bool_decide (s = "") then [] else [(k, DString s)].

(** [toDynamic(const cpp2::BistroJobConfigFilters&)]. *)
Definition thrift_filters_toDynamic (f : BistroJobConfigFilters) : dynamic :=
  DObject (set_key "whitelist" (tf_whitelist f) ++ string_key "whitelist_regex" (tf_whitelistRegex f) ++
    set_key "blacklist" (tf_blacklist f) ++ string_key "blacklist_regex" (tf_blacklistRegex f) ++
    (if Qeq_bool (tf_fractionOfNodes f) 1 then []
     else [("fraction_of_nodes", ofDouble (tf_fractionOfNodes f))]) ++
    set_key "tag_whitelist" (tf_tagWhitelist f)).

(** [asSet]. *)
Definition asSet (d : option dynamic) : outcome (gset string) :=
  let* l := parse_strings asString d in Ret (list_to_set l).

(** [toThrift(const dynamic&)]. *)
Definition filters_toThrift (d : dynamic) : outcome BistroJobConfigFilters :=
  match d with
  | DObject kvs =>
      let* white := asSet (assoc "whitelist" kvs) in
      let* white_re := asString (default (DString "") (assoc "whitelist_regex" kvs)) in
      let* black := asSet (assoc "blacklist" kvs) in
      let* black_re := asString (default (DString "") (assoc "blacklist_regex" kvs)) in
      let* fraction := asDouble (default (ofDouble 1) (assoc "fraction_of_nodes" kvs)) in
      let* tags := asSet (assoc "tag_whitelist" kvs) in
      Ret (mkThriftFilters white white_re black black_re fraction tags)
  | _ => Throw "TypeError"
  end.

(** ** Jobs *)

(** [toDynamic(const cpp2::BistroJobConfig&)]. *)
Definition thrift_toDynamic (c : BistroJobConfig) : outcome dynamic :=
  let filters_obj := map (fun p => (p.1, thrift_filters_toDynamic p.2)) (map_to_list (tj_filters c)) in
  let resources_obj := map (fun p => (p.1, DInt p.2)) (map_to_list (tj_resources c)) in
  let* config := parseJson (tj_config c) in
  let obj := [("name", DString (tj_name c)); ("enabled", DBool (tj_enabled c));
    ("owner", DString (tj_owner c)); ("config", config); ("priority", ofDouble (tj_priority c))] in
  let obj := set_unless (bool_decide (filters_obj = [])) "filters" (DObject filters_obj) obj in
  let obj := set_unless false "kill_orphan_tasks_after_sec"
    (match tj_killOrphanTasksAfterSec c with Some sec => ofFloat sec | None => DBool false end) obj in
  let obj := set_unless false "task_subprocess"
    (taskSubprocessOptionsToDynamic (tj_taskSubprocessOptions c)) obj in
  let* kill := killRequestToDynamic (tj_killRequest c) in
  let obj := set_unless false "kill_subprocess" kill obj in
  let obj := set_unless (tj_versionID c =? -1) "version_id" (DInt (tj_versionID c)) obj in
  let obj := set_unless (bool_decide (tj_levelForHostPlacement c = "")) "level_for_host_placement"
    (DString (tj_levelForHostPlacement c)) obj in
  let obj := set_unless (bool_decide (tj_hostPlacement c = "")) "host_placement"
    (DString (tj_hostPlacement c)) obj in
  let obj := set_unless (bool_decide (resources_obj = [])) "resources" (DObject resources_obj) obj in
  let* error := if bool_decide (tj_error c = "") then Ret DNull else parseJson (tj_error c) in
  let obj := set_unless (bool_decide (tj_error c = "")) "errors" error obj in
  let obj := set_unless (bool_decide (tj_backoffValues c = [])) "backoff"
    (DArray (map DInt (tj_backoffValues c) ++ (if tj_backoffRepeat c then [DString "repeat"] else []))) obj in
  let obj := set_unless (bool_decide (tj_dependsOn c = [])) "depends_on"
    (DArray (map DString (tj_dependsOn c))) obj in
  let obj := set_unless (bool_decide (tj_levelForTasks c = "")) "level_for_tasks"
    (DString (tj_levelForTasks c)) obj in
  Ret (DObject obj).

(** One element of "backoff". *)
Definition parse_thrift_backoff (v : dynamic) (s : list Z * bool) : parsed (list Z * bool) :=
  match v with
  | DInt n => set_to (s.1 ++ [s32 n], s.2)
  | DString x =>
      if bool_decide (x = "repeat") then set_to (s.1, true)
      else if bool_decide (x = "fail") then set_to s
      else thrown s "Unknown backoff value"
  | _ => thrown s "Unknown backoff value"
  end.

Definition parse_string_field (d : dynamic) (k : string) : parsed string :=
  p_optional d k (p_string (fun s _ => set_to s)) "".

(** [toThrift(const std::string&, const dynamic&)]. *)
Definition toThrift (name : string) (d : dynamic) : outcome BistroJobConfig :=
  let* (enabled, e1) := p_optional d "enabled" (p_bool (fun b _ => set_to b)) false in
  let* (owner, e2) := parse_string_field d "owner" in
  let* (priority, e3) := p_optional d "priority" (p_double (fun n _ => set_to n)) 1%Q in
  let* (config, e4) := p_optional d "config" (fun v s => or_throw (toJson v) s set_to) "{}" in
  let* (error, e5) := p_optional d "errors" (fun v s => or_throw (toJson v) s set_to) "" in
  let* (create, e6) := p_optional d "create_time" (p_int (fun n _ => set_to n)) 0 in
  let* (modify, e7) := p_optional d "modify_time" (p_int (fun n _ => set_to n)) 0 in
  let* (level, e8) := parse_string_field d "level_for_tasks" in
  let* (resources, e9) := p_optional d "resources" (fun v => p_objectItems v (fun r_name =>
    p_int (fun amount (m : gmap string Z) => set_to (<[r_name := s32 amount]> m)))) ∅ in
  let* (filters, e10) := p_optional d "filters" (fun v => p_objectItems v (fun level v m =>
    or_throw (filters_toThrift v) m (fun f => set_to (<[level := f]> m)))) ∅ in
  let* (kill_ms, e11) := parseKillOrphanTasksAfter asFloat d None in
  let kill := (fun ms => f_mul f_001 (f_of ms)) <$> kill_ms in
  let* (options, e12) := parseTaskSubprocessOptions d defaultSubprocessOptions in
  let* (request, e13) := parseKillRequest d (mkKillRequest TERM 0) in
  let* (version, e14) := p_optional d "version_id" (p_int (fun n _ => set_to n)) (-1) in
  let* (host_level, e15) := parse_string_field d "level_for_host_placement" in
  let* (host, e16) := parse_string_field d "host_placement" in
  let* (backoff, e17) := p_optional d "backoff" (fun v => p_arrayItems v parse_thrift_backoff) ([], false) in
  let* (deps, e18) := p_optional d "depends_on" (fun v =>
    p_arrayItems v (p_string (fun s l => set_to (l ++ [s])))) [] in
  if negb (dyn_empty (releaseErrors (e1 ++ e2 ++ e3 ++ e4 ++ e5 ++ e6 ++ e7 ++ e8 ++ e9 ++ e10 ++ e11 ++ e12
    ++ e13 ++ e14 ++ e15 ++ e16 ++ e17 ++ e18)))
  then Throw "Failed to produce BistroJobConfig"
  else Ret (mkThriftJob name enabled owner resources config priority filters error backoff.1 backoff.2
              create modify level host_level deps host kill options request version).
End Conversion.

(** ** [Config::addJob] and [ConfigLoader::saveJob] *)

Inductive JobStatus := NEW_CONFIG | ADDED | UPDATED | UNCHANGED.

(** A configuration with its jobs. *)
Record LoadedConfig := mkLoaded { lc_defaults : JobDefaults; lc_jobs : gmap string JobSpec }.

(** [addJob]; [dyn_eqb] is [operator==] of [dynamic]. *)
Definition addJob (ofDouble : Q -> dynamic) (dyn_eqb : dynamic -> dynamic -> bool)
    (JobNameTable : StringTable) (c : LoadedConfig) (job : JobSpec) (prev_config : option LoadedConfig)
    : outcome (LoadedConfig * JobStatus) :=
  if bool_decide (is_Some (lc_jobs c !! js_name job)) then Throw "Adding a job that already exists"
  else
    let c' := mkLoaded (lc_defaults c) (<[js_name job := job]> (lc_jobs c)) in
    match prev_config with
    | None => Ret (c', NEW_CONFIG)
    | Some prev =>
        let* new_d := job_toDynamic ofDouble (lc_defaults c) JobNameTable job in
        match lc_jobs prev !! js_name job with
        | Some old =>
            let* old_d := job_toDynamic ofDouble (lc_defaults prev) JobNameTable old in
            Ret (c', if dyn_eqb new_d old_d then UNCHANGED else UPDATED)
        | None => Ret (c', ADDED)
        end
    end.

(** [saveJob]: what is handed to [saveJobImpl], which returns the new state of
    the loader. *)
Definition saveJob {S} (ofDouble : Q -> dynamic) (JobNameTable : StringTable)
    (getDataOrThrow : outcome LoadedConfig) (saveJobImpl : string -> dynamic -> outcome S)
    (job_name : string) (job_dyn : dynamic) : outcome S :=
  match job_dyn with
  | DObject kvs =>
      let d := DObject (assoc_erase "modify_time" (assoc_erase "create_time" kvs)) in
      let* c := getDataOrThrow in
      let* _ := match lc_jobs c !! job_name with
                | Some old => job_toDynamic ofDouble (lc_defaults c) JobNameTable old
                | None => Ret DNull
                end in
      saveJobImpl job_name d
  | _ => Throw "TypeError"
  end.

(** [deleteJob]. *)
Definition deleteJob {S} (ofDouble : Q -> dynamic) (JobNameTable : StringTable)
    (getDataOrThrow : outcome LoadedConfig) (deleteJobImpl : string -> outcome S)
    (job_name : string) : outcome S :=
  let* c := getDataOrThrow in
  let* _ := match lc_jobs c !! job_name with
            | Some old => job_toDynamic ofDouble (lc_defaults c) JobNameTable old
            | None => Ret DNull
            end in
  deleteJobImpl job_name.

(** ** A job survives the conversion *)

Section Facts.
Context {P : DynamicParser} {ofDouble : Q -> dynamic} {PL : ParserLaws P ofDouble}.
Context (asString : dynamic -> outcome string) (asDouble : dynamic -> outcome Q).
Context (asFloat : dynamic -> outcome spec_float).
Context (parseJson : string -> outcome dynamic) (toJson : dynamic -> outcome string).
(** folly: a string or a double converts to itself. *)
Context (HasString : forall s, asString (DString s) = Ret s).
Context (HasDouble : forall q, asDouble (ofDouble q) = Ret q).

(** The text that [toJson] writes for what it means. *)
Definition canonical_json (s : string) : Prop := exists d, parseJson s = Ret d /\ toJson d = Ret s.

(** A double is a fraction in lowest terms. *)
Definition reduced (q : Q) : Prop := Qred q = q.

Lemma reduced_one q : reduced q -> Qeq_bool q 1 = true -> q = 1%Q.
Proof using. intros Hq H%Qeq_bool_iff. rewrite <- Hq. by apply (Qred_complete q 1). Qed.

Lemma asSet_found k (s : gset string) kvs :
  assoc k kvs = (if bool_decide (s = ∅) then None else Some (DArray (map DString (elements s)))) ->
  asSet asString (assoc k kvs) = Ret s.
Proof using HasString.
  intros ->. destruct (parse_list_print asString HasString s) as (l & E & <-).
  unfold asSet, strings_toDynamic in *. by rewrite E.
Qed.

Lemma string_found k s kvs :
  assoc k kvs = (if bool_decide (s = "") then None else Some (DString s)) ->
  asString (default (DString "") (assoc k kvs)) = Ret s.
Proof using HasString. intros ->. case_bool_decide; subst; cbn; apply HasString. Qed.

Lemma thrift_filters_roundtrip f :
  reduced (tf_fractionOfNodes f) ->
  filters_toThrift asString asDouble ofDouble (thrift_filters_toDynamic ofDouble f) = Ret f.
Proof using HasString HasDouble.
  intros Hq. unfold filters_toThrift, thrift_filters_toDynamic, set_key, string_key.
  match goal with |- context [asSet _ (assoc _ ?o)] => set (kvs := o) end.
  assert (H : assoc "whitelist" kvs = (if bool_decide (tf_whitelist f = ∅) then None
      else Some (DArray (map DString (elements (tf_whitelist f))))) /\
    assoc "whitelist_regex" kvs = (if bool_decide (tf_whitelistRegex f = "") then None
      else Some (DString (tf_whitelistRegex f))) /\
    assoc "blacklist" kvs = (if bool_decide (tf_blacklist f = ∅) then None
      else Some (DArray (map DString (elements (tf_blacklist f))))) /\
    assoc "blacklist_regex" kvs = (if bool_decide (tf_blacklistRegex f = "") then None
      else Some (DString (tf_blacklistRegex f))) /\
    assoc "fraction_of_nodes" kvs = (if Qeq_bool (tf_fractionOfNodes f) 1 then None
      else Some (ofDouble (tf_fractionOfNodes f))) /\
    assoc "tag_whitelist" kvs = (if bool_decide (tf_tagWhitelist f = ∅) then None
      else Some (DArray (map DString (elements (tf_tagWhitelist f)))))).
  { unfold kvs. destruct (bool_decide (tf_whitelist f = ∅)), (bool_decide (tf_whitelistRegex f = "")),
      (bool_decide (tf_blacklist f = ∅)), (bool_decide (tf_blacklistRegex f = "")),
      (Qeq_bool (tf_fractionOfNodes f) 1), (bool_decide (tf_tagWhitelist f = ∅)); by split_and!. }
  destruct H as (H1 & H2 & H3 & H4 & H5 & H6).
  rewrite (asSet_found _ _ _ H1), (string_found _ _ _ H2), (asSet_found _ _ _ H3),
    (string_found _ _ _ H4), (asSet_found _ _ _ H6), H5. cbn [mbind outcome_bind].
  assert (E : asDouble (default (ofDouble 1) (if Qeq_bool (tf_fractionOfNodes f) 1 then None
    else Some (ofDouble (tf_fractionOfNodes f)))) = Ret (tf_fractionOfNodes f)).
  { destruct (Qeq_bool _ 1) eqn:Eq; cbn; rewrite HasDouble; [|done].
    by rewrite (reduced_one _ Hq Eq). }
  rewrite E. by destruct f.
Qed.

(** A map read back from the pairs it was written as. *)
Lemma map_roundtrip {A} (print : A -> dynamic) (f : string -> dynamic -> gmap string A -> parsed (gmap string A))
    (m : gmap string A) :
  (forall k x acc, m !! k = Some x -> f k (print x) acc = Ret (<[k := x]> acc, [])) ->
  collect (fun p => f p.1 p.2) (map (fun p => (p.1, print p.2)) (map_to_list m)) ∅ = Ret (m, []).
Proof using.
  clear - A print f m. intros Hf. assert (H : forall l acc, (forall p, p ∈ l -> m !! p.1 = Some p.2) ->
    exists acc', collect (fun p => f p.1 p.2) (map (fun p => (p.1, print p.2)) l) acc = Ret (acc', []) /\
      forall k, acc' !! k = m !! k \/ (k ∉ l.*1) /\ acc' !! k = acc !! k).
  { induction l as [|[k x] l IH]; intros acc Hl; [exists acc; set_solver|]. cbn [map].
    rewrite (collect_cons _ _ _ _ (<[k := x]> acc)); [|apply Hf, (Hl (k, x)); by left].
    destruct (IH (<[k := x]> acc)) as (acc' & E & Hk); [intros p Hp; apply Hl; by right|].
    exists acc'. split; [done|]. intros j. destruct (Hk j) as [?|[Hj Ej]]; [by left|].
    destruct (decide (j = k)) as [->|Hne].
    - left. rewrite Ej, lookup_insert_eq. symmetry. apply (Hl (k, x)). by left.
    - right. rewrite Ej, lookup_insert_ne by done. split; [cbn; set_solver|done]. }
  destruct (H (map_to_list m) ∅) as (acc & -> & Hacc); [by intros [k x] ?%elem_of_map_to_list|].
  do 2 f_equal. apply map_eq. intros k. destruct (Hacc k) as [?|[Hk Ek]]; [done|].
  rewrite Ek, lookup_empty. symmetry. apply eq_None_not_Some. intros [x Ex]. apply Hk.
  apply (list_elem_of_fmap_2 fst _ (k, x)). by apply elem_of_map_to_list.
Qed.

Lemma map_print_empty {A} (print : A -> dynamic) (m : gmap string A) :
  map (fun p => (p.1, print p.2)) (map_to_list m) = [] -> m = ∅.
Proof using. intros E%fmap_nil_inv. by apply map_to_list_empty_iff. Qed.

Lemma backoff_values_roundtrip values (repeat : bool) acc :
  Forall is_s32 values ->
  collect parse_thrift_backoff (map DInt values ++ (if repeat then [DString "repeat"] else [])) (acc, false)
    = Ret ((acc ++ values, repeat), []).
Proof using.
  intros Hv. revert acc. induction Hv as [|n values Hn Hv IH]; intros acc.
  - rewrite app_nil_r. by destruct repeat.
  - cbn [map app]. rewrite (collect_cons _ _ _ _ (acc ++ [n], false)); [by rewrite IH, <- app_assoc|].
    cbn. by rewrite s32_id.
Qed.

(** What the conversion keeps. *)
Record thrift_ok (c : BistroJobConfig) : Prop := {
  to_resources : forall k n, tj_resources c !! k = Some n -> is_s32 n;
  to_config : canonical_json (tj_config c);
  to_fractions : forall k f, tj_filters c !! k = Some f -> reduced (tf_fractionOfNodes f);
  to_error : tj_error c = "" \/ canonical_json (tj_error c);
  to_values : Forall is_s32 (tj_backoffValues c);
  to_repeat : tj_backoffValues c = [] -> tj_backoffRepeat c = false;
  to_create : tj_createTime c = 0;
  to_modify : tj_modifyTime c = 0;
  to_kill : exists v, kill_survives asFloat v /\
    tj_killOrphanTasksAfterSec c = (fun ms => f_mul f_001 (f_of ms)) <$> v;
  to_options : int_options (tj_taskSubprocessOptions c);
  to_fixed : same_fixed (tj_taskSubprocessOptions c) defaultSubprocessOptions;
  to_request : known_request (tj_killRequest c)
}.

(** The object of a job, key by key. *)
Record thrift_prints (c : BistroJobConfig) (config error kill : dynamic) (kvs : list (string * dynamic))
    : Prop := {
  tp_enabled : assoc "enabled" kvs = Some (DBool (tj_enabled c));
  tp_owner : assoc "owner" kvs = Some (DString (tj_owner c));
  tp_priority : assoc "priority" kvs = Some (ofDouble (tj_priority c));
  tp_config : assoc "config" kvs = Some config;
  tp_error : assoc "errors" kvs = if bool_decide (tj_error c = "") then None else Some error;
  tp_create : assoc "create_time" kvs = None;
  tp_modify : assoc "modify_time" kvs = None;
  tp_level : assoc "level_for_tasks" kvs = if bool_decide (tj_levelForTasks c = "") then None
    else Some (DString (tj_levelForTasks c));
  tp_resources : let obj := map (fun p => (p.1, DInt p.2)) (map_to_list (tj_resources c)) in
    assoc "resources" kvs = if bool_decide (obj = []) then None else Some (DObject obj);
  tp_filters : let obj := map (fun p => (p.1, thrift_filters_toDynamic ofDouble p.2)) (map_to_list (tj_filters c)) in
    assoc "filters" kvs = if bool_decide (obj = []) then None else Some (DObject obj);
  tp_kill : assoc "kill_orphan_tasks_after_sec" kvs =
    Some (match tj_killOrphanTasksAfterSec c with Some sec => ofFloat sec | None => DBool false end);
  tp_options : assoc "task_subprocess" kvs = Some (taskSubprocessOptionsToDynamic (tj_taskSubprocessOptions c));
  tp_request : assoc "kill_subprocess" kvs = Some kill;
  tp_version : assoc "version_id" kvs = if tj_versionID c =? -1 then None else Some (DInt (tj_versionID c));
  tp_host_level : assoc "level_for_host_placement" kvs = if bool_decide (tj_levelForHostPlacement c = "")
    then None else Some (DString (tj_levelForHostPlacement c));
  tp_host : assoc "host_placement" kvs = if bool_decide (tj_hostPlacement c = "") then None
    else Some (DString (tj_hostPlacement c));
  tp_backoff : assoc "backoff" kvs = if bool_decide (tj_backoffValues c = []) then None
    else Some (DArray (map DInt (tj_backoffValues c) ++ (if tj_backoffRepeat c then [DString "repeat"] else [])));
  tp_depends : assoc "depends_on" kvs = if bool_decide (tj_dependsOn c = []) then None
    else Some (DArray (map DString (tj_dependsOn c)))
}.

Lemma thrift_job_prints c config error kill :
  parseJson (tj_config c) = Ret config -> killRequestToDynamic (tj_killRequest c) = Ret kill ->
  (if bool_decide (tj_error c = "") then Ret DNull else parseJson (tj_error c)) = Ret error ->
  exists kvs, thrift_toDynamic ofDouble parseJson c = Ret (DObject kvs) /\ thrift_prints c config error kill kvs.
Proof using.
  intros E1 E2 E3. unfold thrift_toDynamic. rewrite E1. cbn [mbind outcome_bind]. rewrite E2.
  cbn [mbind outcome_bind]. rewrite E3. cbn [mbind outcome_bind]. eexists. split; [reflexivity|].
  split; cbv zeta; rewrite !assoc_set_unless;
    first [reflexivity | match goal with |- _ = (if ?b then _ else _) => destruct b; reflexivity end].
Qed.

Lemma string_field_roundtrip kvs k s :
  assoc k kvs = (if bool_decide (s = "") then None else Some (DString s)) ->
  parse_string_field (DObject kvs) k = Ret (s, []).
Proof using PL.
  intros E. eapply optional_either; [exact E|by intros ?%bool_decide_eq_true|].
  intros _. by rewrite typed_string.
Qed.

Lemma owner_roundtrip kvs k s :
  assoc k kvs = Some (DString s) -> parse_string_field (DObject kvs) k = Ret (s, []).
Proof using PL. intros E. eapply optional_found; [exact E|]. by rewrite typed_string. Qed.

Lemma thrift_kill_roundtrip kvs c v :
  kill_survives asFloat v -> tj_killOrphanTasksAfterSec c = (fun ms => f_mul f_001 (f_of ms)) <$> v ->
  assoc "kill_orphan_tasks_after_sec" kvs =
    Some (match tj_killOrphanTasksAfterSec c with Some sec => ofFloat sec | None => DBool false end) ->
  parseKillOrphanTasksAfter asFloat (DObject kvs) None = Ret (v, []).
Proof using PL.
  intros Hv -> E. eapply kill_roundtrip; [done|]. rewrite E. by destruct v.
Qed.

Lemma thrift_resources_roundtrip kvs c :
  (forall k n, tj_resources c !! k = Some n -> is_s32 n) ->
  (let obj := map (fun p => (p.1, DInt p.2)) (map_to_list (tj_resources c)) in
   assoc "resources" kvs = if bool_decide (obj = []) then None else Some (DObject obj)) ->
  p_optional (DObject kvs) "resources" (fun v => p_objectItems v (fun r_name =>
    p_int (fun amount (m : gmap string Z) => set_to (<[r_name := s32 amount]> m)))) ∅ =
    Ret (tj_resources c, []).
Proof using PL.
  intros Hr E. eapply optional_either; [exact E|by intros ?%bool_decide_eq_true%map_print_empty|].
  intros _. apply object_items.
  apply (map_roundtrip DInt (fun k => p_int (fun n m => set_to (<[k := s32 n]> m)))).
  intros k n acc Hk. rewrite typed_int.
  by rewrite s32_id by (by eapply Hr).
Qed.

Lemma thrift_filters_all_roundtrip kvs c :
  (forall k f, tj_filters c !! k = Some f -> reduced (tf_fractionOfNodes f)) ->
  (let obj := map (fun p => (p.1, thrift_filters_toDynamic ofDouble p.2)) (map_to_list (tj_filters c)) in
   assoc "filters" kvs = if bool_decide (obj = []) then None else Some (DObject obj)) ->
  p_optional (DObject kvs) "filters" (fun v => p_objectItems v (fun level v m =>
    or_throw (filters_toThrift asString asDouble ofDouble v) m (fun f => set_to (<[level := f]> m)))) ∅ =
    Ret (tj_filters c, []).
Proof using PL HasString HasDouble.
  intros Hf E. eapply optional_either; [exact E|by intros ?%bool_decide_eq_true%map_print_empty|].
  intros _. apply object_items. apply (map_roundtrip (thrift_filters_toDynamic ofDouble) (fun level v m =>
    or_throw (filters_toThrift asString asDouble ofDouble v) m (fun f => set_to (<[level := f]> m)))).
  intros k f acc Hk.
  by rewrite thrift_filters_roundtrip by (by eapply Hf).
Qed.

(** C32: A job that came through Thrift is written as JSON, and reading it gives
    back the same struct: every field is equal.  This is for a struct that
    satisfies [thrift_ok]: its times are 0, as they are not written; the texts
    of "config" and "error" are as [toJson] writes them (or there is no error);
    the repeat flag is set only with back-off values; resources, back-off values
    and options fit an [int]; fractions are reduced; the kill delay survives its
    conversion; the fields of the options that are not written, such as the
    refresh interval and the limits of the cgroup, have their defaults; and the
    kill request is a known one. *)
Theorem thrift_roundtrip c :
  thrift_ok c ->
  exists d, thrift_toDynamic ofDouble parseJson c = Ret d /\
    toThrift asString asDouble ofDouble asFloat toJson (tj_name c) d = Ret c.
Proof using PL HasString HasDouble.
  intros [K1 [config [Ec Jc]] K3 K4 K5 K6 K7 K8 (v & Kv & Ev) K10 K11 K12].
  destruct (kill_request_roundtrip [] _ (mkKillRequest TERM 0) K12) as (kill & Ek & _).
  assert (Hw : exists error, (if bool_decide (tj_error c = "") then Ret DNull else parseJson (tj_error c))
    = Ret error /\ (tj_error c <> "" -> toJson error = Ret (tj_error c))).
  { case_bool_decide as H; [by exists DNull|]. destruct K4 as [|(e & E1 & E2)]; [done|]. by exists e. }
  destruct Hw as (error & Ee & Je).
  destruct (thrift_job_prints c config error kill Ec Ek Ee) as (kvs & Ed & T).
  exists (DObject kvs). split; [done|]. unfold toThrift.
  destruct T as [T1 T2 T3 T4 T5 T6 T7 T8 T9 T10 T11 T12 T13 T14 T15 T16 T17 T18].
  rewrite (optional_found kvs "enabled" _ _ _ (tj_enabled c) T1) by (by rewrite typed_bool). cbn [mbind outcome_bind].
  rewrite (owner_roundtrip _ _ _ T2). cbn [mbind outcome_bind].
  rewrite (optional_found kvs "priority" _ _ _ (tj_priority c) T3) by (by rewrite typed_double). cbn [mbind outcome_bind].
  rewrite (optional_found kvs "config" _ _ _ (tj_config c) T4) by (by rewrite Jc). cbn [mbind outcome_bind].
  rewrite (optional_either kvs "errors" _ _ _ _ (tj_error c) T5);
    [|by intros ?%bool_decide_eq_true|intros ?%bool_decide_eq_false; by rewrite Je].
  cbn [mbind outcome_bind].
  rewrite (optional_missing kvs "create_time" _ _ T6), (optional_missing kvs "modify_time" _ _ T7).
  cbn [mbind outcome_bind]. rewrite (string_field_roundtrip _ _ _ T8). cbn [mbind outcome_bind].
  rewrite (thrift_resources_roundtrip kvs c K1 T9). cbn [mbind outcome_bind].
  rewrite (thrift_filters_all_roundtrip kvs c K3 T10). cbn [mbind outcome_bind].
  rewrite (thrift_kill_roundtrip kvs c v Kv Ev T11). cbn [mbind outcome_bind].
  rewrite (options_roundtrip kvs _ _ K10 K11 T12). cbn [mbind outcome_bind].
  destruct (kill_request_roundtrip kvs _ (mkKillRequest TERM 0) K12) as (kill' & Ek' & Hk).
  rewrite Ek in Ek'. injection Ek' as <-. rewrite (Hk T13). cbn [mbind outcome_bind].
  rewrite (optional_either kvs "version_id" _ _ _ _ (tj_versionID c) T14);
    [|by intros ?%Z.eqb_eq|by intros _; rewrite typed_int].
  cbn [mbind outcome_bind]. rewrite (string_field_roundtrip _ _ _ T15). cbn [mbind outcome_bind].
  rewrite (string_field_roundtrip _ _ _ T16). cbn [mbind outcome_bind].
  rewrite (optional_either kvs "backoff" _ _ _ _ (tj_backoffValues c, tj_backoffRepeat c) T17);
    [|intros Hb%bool_decide_eq_true; by rewrite K6, Hb|
     intros _; apply array_items; by rewrite backoff_values_roundtrip].
  cbn [mbind outcome_bind].
  rewrite (optional_either kvs "depends_on" _ _ _ _ (tj_dependsOn c) T18);
    [|by intros ?%bool_decide_eq_true|by intros _; apply array_items, collect_strings].
  cbn [mbind outcome_bind app fst snd]. rewrite released_none. cbn. rewrite <- Ev.
  destruct c; cbn in *. by subst.
Qed.
End Facts.

(** ** Saving and adding jobs *)

(** A job is saved without its times; nothing else is changed, and it is saved
    only when the configuration can be read. *)
Theorem saveJob_contract {S} ofDouble table c (save : string -> dynamic -> outcome S) name kvs r :
  saveJob ofDouble table (Ret c) save name (DObject kvs) = Ret r ->
  exists kvs', save name (DObject kvs') = Ret r /\
    forall k, assoc k kvs' = if bool_decide (k = "create_time" \/ k = "modify_time") then None else assoc k kvs.
Proof.
  unfold saveJob. cbn. intros E. apply bind_Ret_iff in E as (? & _ & E). eexists. split; [exact E|].
  intros k. case_bool_decide as H.
  - destruct (decide (k = "modify_time")) as [->|Hm]; [apply assoc_erase_eq|].
    rewrite assoc_erase_ne by done. destruct H as [->|]; [apply assoc_erase_eq|done].
  - rewrite !assoc_erase_ne by tauto. done.
Qed.

(** A configuration that is loaded again is compared job by job: a job that is
    written the same way is unchanged. *)
Theorem addJob_contract ofDouble dyn_eqb table c job prev c' st :
  (forall d, dyn_eqb d d = true) -> addJob ofDouble dyn_eqb table c job prev = Ret (c', st) ->
  lc_jobs c !! js_name job = None /\ lc_defaults c' = lc_defaults c /\
  lc_jobs c' = <[js_name job := job]> (lc_jobs c) /\
  (st = NEW_CONFIG <-> prev = None) /\
  forall p, prev = Some p ->
    (st = ADDED <-> lc_jobs p !! js_name job = None) /\
    (lc_defaults p = lc_defaults c -> lc_jobs p !! js_name job = Some job -> st = UNCHANGED).
Proof.
  intros Hd. unfold addJob. case_bool_decide as H; [done|]. apply eq_None_not_Some in H.
  destruct prev as [p|]; [|by intros [= <- <-]].
  intros E. apply bind_Ret_iff in E as (new_d & En & E).
  destruct (lc_jobs p !! js_name job) as [old|] eqn:Eo.
  - apply bind_Ret_iff in E as (old_d & Ed & [= <- <-]).
    do 3 (split; [done|]). split; [by destruct (dyn_eqb _ _)|]. intros ? [= <-].
    split; [split; [by destruct (dyn_eqb _ _)|congruence]|].
    intros Ec Ej. rewrite Eo in Ej. injection Ej as ->. rewrite Ec, En in Ed. injection Ed as ->. by rewrite Hd.
  - injection E as <- <-. do 3 (split; [done|]). split; [done|]. intros ? [= <-]. rewrite Eo. done.
Qed.

(** ** A sample job, and what is lost *)

(** Texts of JSON that are enough for the samples. *)
Definition sample_parse (s : string) : outcome dynamic :=
  if bool_decide (s = "{}") then Ret (DObject [])
  else if bool_decide (s = "7") then Ret (DInt 7) else Throw "parse error".
Definition sample_print (d : dynamic) : outcome string :=
  match d with DObject [] => Ret "{}" | DInt 7 => Ret "7" | _ => Throw "not finite" end.

Definition sample_thrift : BistroJobConfig :=
  mkThriftJob "dump" true "ops" {["slots" := 2; "ram" := 512]} "{}" (5 # 2)
    {["db" := mkThriftFilters {["db1"; "db2"]} "" ∅ "^x" (1 # 2) ∅]} "7" [30; 60] true 0 0 "db" "host"
    ["load"; "check"] "" (Some (f_mul f_001 (f_of 5000))) defaultSubprocessOptions (mkKillRequest KILL 500) 4.

Abbreviation sample_toDynamic := (thrift_toDynamic as_double sample_parse).
Abbreviation sample_toThrift := (toThrift only_string only_double as_double plain_float sample_print).

Lemma thrift_roundtrip_witness :
  exists d, sample_toDynamic sample_thrift = Ret d /\ sample_toThrift "dump" d = Ret sample_thrift.
Proof.
  apply (thrift_roundtrip (ofDouble := as_double) only_string only_double plain_float sample_parse sample_print
    (fun s => eq_refl) (fun q => match q with m # e => eq_refl end) sample_thrift).
  split.
  - intros k n. change (tj_resources sample_thrift) with ({["slots" := 2; "ram" := 512]} : gmap string Z).
    rewrite lookup_insert_Some, lookup_singleton_Some. intros [[_ <-]|[_ [_ <-]]]; split; vm_compute; done.
  - exists (DObject []). done.
  - intros k f. change (tj_filters sample_thrift) with
      ({["db" := mkThriftFilters {["db1"; "db2"]} "" ∅ "^x" (1 # 2) ∅]} : gmap string BistroJobConfigFilters).
    rewrite lookup_singleton_Some. intros [_ <-]. done.
  - right. exists (DInt 7). done.
  - repeat apply List.Forall_cons; try apply List.Forall_nil; split; vm_compute; done.
  - done.
  - done.
  - done.
  - exists (Some 5000). split; [apply (seconds_survive 5); lia|done].
  - split_and!; split; vm_compute; done.
  - done.
  - split; [split; vm_compute; done|done].
Defined.

(** A job that must fail at once, "backoff" ["fail"], has the default back-off
    after it went through Thrift; its command is lost too. *)
Theorem thrift_drops_fail :
  exists table j d t d' table' j',
    sample_read sample_defaults emptyTable "dump" (DObject [("owner", DString "ops");
      ("backoff", DArray [DString "fail"]); ("command", DArray [DString "/bin/true"])]) None = Ret (table, j) /\
    js_errors j = DObject [] /\ js_backoffSettings j = mkBackoff [] false /\ js_command j = ["/bin/true"] /\
    job_toDynamic as_double sample_defaults table j = Ret d /\ sample_toThrift "dump" d = Ret t /\
    sample_toDynamic t = Ret d' /\
    sample_read sample_defaults table "dump" d' None = Ret (table', j') /\
    js_errors j' = DObject [] /\ js_backoffSettings j' = mkBackoff [60; 120] true /\ js_command j' = [].
Proof.
  do 7 eexists. split; [vm_compute; reflexivity|]. do 3 (split; [vm_compute; reflexivity|]).
  do 4 (split; [vm_compute; reflexivity|]). by vm_compute.
Qed.
