(* ===== verification/Settings.v ===== *)
(** The rest of the constructor of [Config] ([config/Config.cpp]): every
    setting, read with the parser of [JobConfig], and what a configuration that
    was read without errors is like.

    The constructor throws if any error was recorded, so that the half-filled
    entries that an error leaves behind are never seen. *)

From stdpp Require Import base gmap strings list.
From Stdlib Require Import ZArith QArith Lia SpecFloat.
From S2P Require Import Prelude Dynamic Backoff SymbolTable Scheduling Config Jobs Selectors Resources Scheduler Subprocess.
From S2P Require Import NodeFetchers JobConfig.

#[local] Open Scope Z_scope.

(** ** Data *)

Record ConfigSpec := mkConfigSpec {
  cs_enabled : bool;
  cs_idleWait : Z;
  cs_workingWait : Z;
  cs_killOrphanTasksAfter : option Z;
  cs_nodeConfigs : list NodeConfig;
  cs_levels : StringTable;
  cs_levelForTasks : nat;
  cs_schedulerPolicyName : string;
  cs_remoteWorkerSelectorType : RemoteWorkerSelectorType;
  cs_nodeOrderType : NodeOrderType;
  cs_tables : ResourceTables;
  cs_defaultBackoffSettings : JobBackoffSettings;
  cs_taskSubprocessOptions : TaskSubprocessOptions;
  cs_killRequest : KillRequest;
  cs_physicalResourceConfigs : list PhysicalResourceConfig;
  cs_logicalToPhysical : gmap string nat;
  cs_exitInitialWaitBeforeTimestamp : Z;
  cs_workerResourcesOverride : gmap string (list (nat * Z))
}.

(** What jobs and the runner read of it. *)
Definition job_defaults (c : ConfigSpec) : JobDefaults :=
  mkDefaults (cs_levels c) (cs_tables c) (cs_levelForTasks c) (cs_defaultBackoffSettings c)
    (cs_killOrphanTasksAfter c) (cs_taskSubprocessOptions c) (cs_killRequest c).
Definition runner_config (c : ConfigSpec) : RunnerConfig :=
  mkRunnerConfig (cs_levels c) (cs_tables c) (cs_physicalResourceConfigs c) (cs_logicalToPhysical c)
    (cs_workerResourcesOverride c) (cs_remoteWorkerSelectorType c) (cs_exitInitialWaitBeforeTimestamp c).

(** ** Names *)

Definition getRemoteWorkerSelectorType (s : string) : outcome RemoteWorkerSelectorType :=
  if bool_decide (s = "roundrobin") then Ret RoundRobin
  else if bool_decide (s = "busiest") then Ret Busiest
  else Throw "Unknown remote_worker_selector type".

Definition getNodeOrderType (s : string) : outcome NodeOrderType :=
  if bool_decide (s = "original") then Ret Original
  else if bool_decide (s = "lexicographic") then Ret Lexicographic
  else if bool_decide (s = "random") then Ret Random
  else Throw "Unknown node_order type".

(** The policies of [registerDefaultSchedulerPolicies]. *)
Definition policy_names : list string :=
  ["unittest"; "roundrobin"; "ranked_priority"; "randomized_priority"; "long_tail"].
Definition throwUnlessPolicyNameExists (s : string) : outcome unit :=
  require (bool_decide (s ∈ policy_names)) "scheduler policy is not registered".

Definition physicalResourceFromString (name : string) : outcome PhysicalResource :=
  if bool_decide (name = "ram_mb") then Ret RAM_MBYTES
  else if bool_decide (name = "cpu_core") then Ret CPU_CORES
  else if bool_decide (name = "gpu_card") then Ret GPU_CARDS
  else Throw "Unknown physical resource type".

Definition physicalResourceEnforcementFromString (name : string) : outcome PhysicalResourceEnforcement :=
  if bool_decide (name = "none") then Ret NONE
  else if bool_decide (name = "soft") then Ret SOFT
  else if bool_decide (name = "hard") then Ret HARD
  else Throw "Unknown resource enforcement type".

Definition kResourceToSupportedEnforcements (p : PhysicalResource) : list PhysicalResourceEnforcement :=
  match p with
  | CPU_CORES => [NONE; SOFT]
  | RAM_MBYTES => [NONE; HARD]
  | GPU_CARDS => [NONE]
  end.

(** ** Parts of the constructor *)

Section Constructor.
Context `{DynamicParser}.
Context (asFloat : dynamic -> outcome spec_float).

(** A number of seconds as milliseconds. *)
Definition parse_wait (d : dynamic) (k : string) (ms : Z) : parsed Z :=
  p_optional d k (p_float (fun n _ =>
    let* ms := static_cast_int (f_mul (f_of 1000) n) in set_to ms)) ms.

(** One of "node_sources". *)
Definition parse_node_source (v : dynamic) (nodeConfigs : list NodeConfig) : parsed (list NodeConfig) :=
  let* (d_prefs, e1) := p_optional v "prefs" (fun v _ => set_to v) (DObject []) in
  let* (ncs, e2) := p_required v "source" (p_string (fun s ncs =>
    match d_prefs with
    | DObject prefs => set_to (ncs ++ [mkNodeConfig s prefs])
    | _ => thrown ncs "Can only create settings map from an object"
    end)) nodeConfigs in
  Ret (ncs, e1 ++ e2).

(** "nodes". *)
Abbreviation NodeSettings := (NodeOrderType * StringTable * list NodeConfig)%type.
Definition parse_nodes (v : dynamic) (s : NodeSettings) : parsed NodeSettings :=
  let '(order, levels, ncs) := s in
  let* (order, e1) := p_optional v "node_order" (p_string (fun s o =>
    or_throw (getNodeOrderType s) o set_to)) order in
  let* (levels, e2) := p_required v "levels" (fun v =>
    p_arrayItems v (p_string (fun s t => set_to (insert_obj t s).1))) levels in
  let* (ncs, e3) := p_optional v "node_sources" (fun v => p_arrayItems v parse_node_source) ncs in
  Ret ((order, levels, ncs), e1 ++ e2 ++ e3).

(** One resource of a level: [parse_resource] with what the parser finds. *)
Definition field_of (n : option Z) : field := match n with Some n => Int64 n | None => Absent end.
Definition resource_item (level_id : nat) (name : string) (v : dynamic) (t : ResourceTables)
    : parsed ResourceTables :=
  let* (dflt, e1) := p_required v "default" (p_int (fun n _ => set_to (Some n))) None in
  let* (limit, e2) := p_required v "limit" (p_int (fun n _ => set_to (Some n))) None in
  let* (weight, e3) := p_optional v "weight" (p_int (fun n w =>
    if n <? 0 then thrown w "Must be >= 0" else set_to (Some n))) None in
  Ret (parse_resource level_id t (name, mkSpec (field_of dflt) (field_of limit) (field_of weight)),
       e1 ++ e2 ++ e3).
Definition level_item (levels : StringTable) (level : string) (v : dynamic) (t : ResourceTables)
    : parsed ResourceTables :=
  or_throw (checkedLookup levels level) t (fun level_id => p_objectItems v (resource_item level_id) t).

(** [workerLevelResourcesRef]. *)
Definition workerLevelResourcesRef (levels : StringTable) (t : ResourceTables) : outcome (list Z) :=
  let* worker_level_id := checkedLookup levels "worker" in
  CHECK (bool_decide (0 < worker_level_id)%nat) "CHECK(worker_level_id > 0)" ;;;
  match resourcesByLevel t !! worker_level_id with
  | Some rs => Ret rs
  | None => Crash "CHECK(worker_level_id < config.resourcesByLevel.size())"
  end.

(** "worker_resources_override". *)
Definition override_item (names : StringTable) (default_rsrcs : list Z) (resource_name : string)
    : dynamic -> list (nat * Z) -> parsed (list (nat * Z)) :=
  p_int (fun amount os =>
    or_throw (checkedLookup names resource_name) os (fun resource_id =>
      match default_rsrcs !! resource_id with
      | None => thrown os "Overriding unknown resource"
      | Some n => if n =? INT32_MAX then thrown os "Overriding resource for wrong level"
                  else set_to (os ++ [(resource_id, s32 amount)])
      end)).
Definition worker_item (names : StringTable) (default_rsrcs : list Z) (worker : string) (v : dynamic)
    (m : gmap string (list (nat * Z))) : parsed (gmap string (list (nat * Z))) :=
  let* (os, es) := p_objectItems v (override_item names default_rsrcs) (default [] (m !! worker)) in
  Ret (<[worker := os]> m, es).

(** One of "physical_resources". *)
Abbreviation Physicals := (list PhysicalResourceConfig * gmap string nat)%type.
Definition parse_logical (names : StringTable) (num_worker_resources idx_of_rcfg : nat) (logical : string)
    (s : string * Z * gmap string nat) : parsed (string * Z * gmap string nat) :=
  let m := s.2 in
  match lookup_obj names logical with
  | None => thrown (logical, -1, m) "Physical resource maps to unknown resource"
  | Some rid =>
      if bool_decide (num_worker_resources <= rid)%nat
      then thrown (logical, Z.of_nat rid, m) "Physical resource maps to unknown resource"
      else match m !! logical with
           | Some _ => thrown (logical, Z.of_nat rid, m)
                         "Logical resource used in multiple physical_resources entries"
           | None => set_to (logical, Z.of_nat rid, <[logical := idx_of_rcfg]> m)
           end
  end.
(** [std::abs(mul) < 1e-12]. *)
Definition too_small (mul : spec_float) : bool := SFltb (SFabs mul) (f_div (f_of 1) (f_of (10 ^ 12))).
Definition physical_item (names : StringTable) (num_worker_resources : nat) (name : string) (v : dynamic)
    (s : Physicals) : parsed Physicals :=
  let '(rcfgs, m) := s in
  or_throw (physicalResourceFromString name) s (fun physical =>
  let* (lm, e1) := p_required v "logical_resource"
    (p_string (parse_logical names num_worker_resources (length rcfgs))) ("", 0, m) in
  let* (mul, e2) := p_optional v "multiply_logical_by" (p_float (fun mul old =>
    if too_small mul then thrown old "Too close to 0 machine precision" else set_to mul)) (f_of 1) in
  let* (enf, e3) := p_optional v "enforcement" (p_string (fun e old =>
    or_throw (physicalResourceEnforcementFromString e) old (fun enf =>
      if bool_decide (enf ∈ kResourceToSupportedEnforcements physical) then set_to enf
      else thrown enf "does not support enforcement type"))) NONE in
  let* (reserve, e4) := p_optional v "physical_reserve_amount" (p_float (fun x _ => set_to x)) f_zero in
  Ret ((rcfgs ++ [mkPhysical physical lm.1.1 lm.1.2 mul enf reserve], lm.2), e1 ++ e2 ++ e3 ++ e4)).
Definition parsePhysicalResourceConfigs (d : dynamic) (levels : StringTable) (t : ResourceTables)
    (s : Physicals) : parsed Physicals :=
  let* worker := workerLevelResourcesRef levels t in
  p_optional d "physical_resources" (fun v =>
    p_objectItems v (physical_item (resourceNames t) (length worker))) s.

(** [Config::Config]. *)
Definition Config_of (FLAGS_kill_job_if_disabled : bool) (d : dynamic) : outcome ConfigSpec :=
  let* (enabled, e1) := p_optional d "enabled" (p_bool (fun b _ => set_to b)) false in
  let* (working, e2) := parse_wait d "working_wait" 500 in
  let* (idle, e3) := parse_wait d "idle_wait" 5000 in
  let* (policy, e4) := p_optional d "scheduler" (p_string (fun s _ =>
    or_throw (throwUnlessPolicyNameExists s) s (fun _ => set_to s))) "roundrobin" in
  let* (selector, e5) := p_optional d "remote_worker_selector" (p_string (fun s old =>
    or_throw (getRemoteWorkerSelectorType s) old set_to)) RoundRobin in
  let* backoff := JobBackoffSettings_of default_backoff in
  let* (backoff, e6) := p_optional d "backoff" (fun v old =>
    or_throw (JobBackoffSettings_of v) old set_to) backoff in
  let* (nodes, e7) := p_required d "nodes" parse_nodes (Random, tableOf ["instance"], []) in
  let '(order, levels, ncs) := nodes in
  let levels := (insert_obj levels "worker").1 in
  let kill := if FLAGS_kill_job_if_disabled then Some 0 else None in
  let* (kill, e8) := parseKillOrphanTasksAfter asFloat d kill in
  let* (options, e9) := parseTaskSubprocessOptions d defaultSubprocessOptions in
  let* (request, e10) := parseKillRequest d (mkKillRequest TERM 0) in
  let* (exit, e11) := p_optional d "CAUTION_exit_initial_wait_before_timestamp"
    (p_int (fun n _ => set_to n)) 0 in
  let* level := getNumConfiguredLevels levels in
  let* (level, e12) := p_optional d "level_for_tasks" (p_string (fun s l =>
    or_throw (checkedLookup levels s) l set_to)) level in
  let* (tables, e13) := p_required d "resources" (fun v => p_objectItems v (level_item levels))
    (newTables levels) in
  let* (overrides, e14) := p_optional d "worker_resources_override" (fun v m =>
    or_throw (workerLevelResourcesRef levels tables) m (fun default_rsrcs =>
      p_objectItems v (worker_item (resourceNames tables) default_rsrcs) m)) ∅ in
  let* (physical, e15) := parsePhysicalResourceConfigs d levels tables ([], ∅) in
  if dyn_empty (releaseErrors (e1 ++ e2 ++ e3 ++ e4 ++ e5 ++ e6 ++ e7 ++ e8 ++ e9 ++ e10 ++ e11 ++ e12
    ++ e13 ++ e14 ++ e15))
  then Ret (mkConfigSpec enabled idle working kill ncs levels level policy selector order tables backoff
              options request physical.1 physical.2 exit overrides)
  else Throw "Invalid config".
End Constructor.

(** ** What is used of the parser *)

(** A parse without errors: every callback that ran had none, and everything
    required was there. *)
Class CleanLaws (P : DynamicParser) := {
  optional_clean {S} d k f (s s' : S) :
    p_optional d k f s = Ret (s', []) -> s' = s \/ exists v, f v s = Ret (s', []);
  required_clean {S} d k f (s s' : S) :
    p_required d k f s = Ret (s', []) -> exists v, f v s = Ret (s', []);
  items_clean {S} d f (s s' : S) :
    p_objectItems d f s = Ret (s', []) -> exists kvs, collect (fun p => f p.1 p.2) kvs s = Ret (s', []);
  array_clean {S} d f (s s' : S) :
    p_arrayItems d f s = Ret (s', []) -> exists l, collect f l s = Ret (s', []);
  int_clean {S} (f : Z -> S -> parsed S) d s s' :
    p_int f d s = Ret (s', []) -> exists n, f n s = Ret (s', []);
  string_clean {S} (f : string -> S -> parsed S) d s s' :
    p_string f d s = Ret (s', []) -> exists x, f x s = Ret (s', []);
  float_clean {S} (f : spec_float -> S -> parsed S) d s s' :
    p_float f d s = Ret (s', []) -> exists x, f x s = Ret (s', []);
  released_clean es : dyn_empty (releaseErrors es) = true -> es = []
}.

(** The steps of a loop without errors have none. *)
Lemma collect_clean {A S} (I : S -> Prop) (f : A -> S -> parsed S) l s s' :
  I s -> (forall a s s', I s -> f a s = Ret (s', []) -> I s') -> collect f l s = Ret (s', []) -> I s'.
Proof.
  intros Hs Hf. unfold collect. enough (H : forall (acc : S * list ParseError),
    (acc.2 = [] -> I acc.1) ->
    foldM (fun acc a => let* (s, es) := f a acc.1 in Ret (s, acc.2 ++ es)) acc l = Ret (s', []) -> I s')
    by (intros E; by eapply (H (s, [])) in E).
  clear s Hs. induction l as [|a l IH]; intros [s es] Hs E; cbn in *; [injection E as <- ->; auto|].
  destruct (f a s) as [[s1 es1]|e|e|e] eqn:Ef; cbn in *; try done.
  apply IH in E; [done|]. cbn. intros [-> ->]%app_eq_nil. eauto.
Qed.

(** ** Resource tables *)

(** The tables after one more resource. *)
Lemma parse_resource_parts level t name spec :
  let rid := (insert_obj (resourceNames t) name).2 in
  let t' := parse_resource level t (name, spec) in
  levelIDToResourceID t' = alter (fun rids => rids ++ [rid]) level (levelIDToResourceID t) /\
  resourceNames t' = (insert_obj (resourceNames t) name).1 /\
  defaultJobResources t' =
    store_int (resize (S rid) 0 (defaultJobResources t)) rid (required (spec_default spec)).1 /\
  resourcesByLevel t' =
    alter (fun v => store_int (<[rid := 0]> (resize (S rid) INT32_MAX v)) rid
                      (required (spec_limit spec)).1) level (resourcesByLevel t).
Proof.
  unfold parse_resource. cbn [fst snd]. destruct (insert_obj (resourceNames t) name) as [names rid].
  destruct (required (spec_default spec)), (required (spec_limit spec)), (optional_weight (spec_weight spec)).
  done.
Qed.

Lemma store_int_s32 v i n : Forall is_s32 v -> Forall is_s32 (store_int v i n).
Proof. intros Hv. destruct n; [|done]. apply Forall_insert; [done|apply s32_range]. Qed.

Lemma resize_s32 n x v : is_s32 x -> Forall is_s32 v -> Forall is_s32 (resize n x v).
Proof. intros Hx Hv. rewrite resize_spec. apply Forall_app. split; [by apply Forall_take|by apply Forall_replicate]. Qed.

Lemma concat_alter_snoc {A} (x : A) L i :
  (i < length L)%nat -> concat (alter (fun l => l ++ [x]) i L) ≡ₚ x :: concat L.
Proof.
  revert i. induction L as [|l L IH]; intros i Hi; cbn in *; [lia|]. destruct i as [|i]; cbn.
  - rewrite <- app_assoc. cbn. symmetry. apply Permutation_middle.
  - rewrite (IH i) by lia. symmetry. apply Permutation_middle.
Qed.

(** No resource is listed twice, in one level or in two. *)
Definition resources_unique (t : ResourceTables) : Prop := NoDup (concat (levelIDToResourceID t)).

Record tables_ok (nl : nat) (t : ResourceTables) : Prop := {
  tk_limits : length (resourcesByLevel t) = nl;
  tk_rids : length (levelIDToResourceID t) = nl;
  tk_defaults : Forall is_s32 (defaultJobResources t);
  tk_ints : Forall (Forall is_s32) (resourcesByLevel t);
  tk_wf : resources_unique t -> tables_wf nl t /\ all_levelled t
}.

Lemma newTables_ok levels : tables_ok (length (objects_ levels)) (newTables levels).
Proof.
  split; cbn; rewrite ?length_replicate; try done; [by apply Forall_replicate|].
  intros _. split; [apply newTables_wf|]. intros rid Hr. cbn in Hr. lia.
Qed.

Lemma parse_resource_ok nl level t name dflt limit weight :
  (level < nl)%nat -> tables_ok nl t -> (forall n, weight = Some n -> 0 <= n) ->
  tables_ok nl (parse_resource level t (name, mkSpec (Int64 dflt) (Int64 limit) (field_of weight))).
Proof.
  intros Hl [T1 T2 T3 T4 T5] Hw.
  set (spec := mkSpec (Int64 dflt) (Int64 limit) (field_of weight)).
  assert (Hb : spec_bad spec = false).
  { unfold spec_bad. cbn. destruct weight as [n|]; cbn; [|done]. specialize (Hw n eq_refl).
    by destruct (Z.ltb_spec n 0); [lia|]. }
  pose proof (parse_resource_parts level t name spec) as (P1 & P2 & P3 & P4).
  pose proof (insert_obj_lookup (resourceNames t) name) as Ln.
  split.
  - by rewrite P4, length_alter.
  - by rewrite P1, length_alter.
  - rewrite P3. apply store_int_s32, resize_s32; [done|done].
  - rewrite P4. apply Forall_alter; [done|]. intros v Hv Hx.
    apply store_int_s32. apply Forall_insert; [|done]. apply resize_s32; [done|].
    apply (proj1 (Forall_lookup _ _) T4 _ _ Hv).
  - unfold resources_unique. rewrite P1, concat_alter_snoc by lia. intros [Hnin Hnd]%NoDup_cons.
    destruct (T5 Hnd) as [Hwf Hall].
    destruct (lookup_obj (resourceNames t) name) as [rid|] eqn:E.
    { destruct Hnin. unfold insert_obj. unfold lookup_obj in E. rewrite E. cbn. apply Hall.
      apply (names_table _ _ Hwf) in E. by eapply lookup_lt_Some. }
    split; [by apply parse_resource_wf|]. intros rid. rewrite P2, P1. intros Hrid.
    rewrite concat_alter_snoc by lia. rewrite insert_obj_fresh in * by done. cbn in *.
    rewrite length_app in Hrid. cbn in Hrid.
    destruct (decide (rid = length (objects_ (resourceNames t)))) as [->|]; [by left|].
    right. apply Hall. lia.
Qed.

(** ** Every configuration that is read *)

(** The resources of the worker level. *)
Definition worker_limits (c : ConfigSpec) : outcome (list Z) :=
  workerLevelResourcesRef (cs_levels c) (cs_tables c).

Definition override_ok (limits : list Z) (o : nat * Z) : Prop :=
  exists n, limits !! o.1 = Some n /\ n <> INT32_MAX /\ is_s32 o.2.

Definition physical_ok (names : StringTable) (limits : list Z) (p : PhysicalResourceConfig) : Prop :=
  (exists rid, lookup_obj names (prc_logical p) = Some rid /\ prc_logicalResourceID p = Z.of_nat rid /\
     (rid < length limits)%nat) /\
  too_small (multiplyLogicalBy p) = false /\
  prc_enforcement p ∈ kResourceToSupportedEnforcements (prc_physical p).

(** The index of the physical resources is the inverse of the list. *)
Definition indexed (ps : list PhysicalResourceConfig) (m : gmap string nat) : Prop :=
  forall s i, m !! s = Some i <-> exists p, ps !! i = Some p /\ prc_logical p = s.

Record config_ok (c : ConfigSpec) (limits : list Z) : Prop := {
  co_levels : table_wf (cs_levels c);
  co_instance : lookup_obj (cs_levels c) "instance" = Some 0%nat;
  co_limits : worker_limits c = Ret limits;
  co_level : (cs_levelForTasks c < length (objects_ (cs_levels c)))%nat;
  co_waits : is_s32 (cs_idleWait c) /\ is_s32 (cs_workingWait c);
  co_policy : cs_schedulerPolicyName c ∈ policy_names;
  co_tables : tables_ok (length (objects_ (cs_levels c))) (cs_tables c);
  co_backoff : backoff_wf (cs_defaultBackoffSettings c);
  co_options : int_options (cs_taskSubprocessOptions c);
  co_request : known_request (cs_killRequest c);
  co_override : map_Forall (fun _ os => Forall (override_ok limits) os) (cs_workerResourcesOverride c);
  co_physical : Forall (physical_ok (resourceNames (cs_tables c)) limits) (cs_physicalResourceConfigs c);
  co_index : indexed (cs_physicalResourceConfigs c) (cs_logicalToPhysical c)
}.

Section Read.
Context {P : DynamicParser} {PC : CleanLaws P} {ofDouble : Q -> dynamic} {PL : ParserLaws P ofDouble}.
Context (asFloat : dynamic -> outcome spec_float).

Lemma or_throw_clean {A S} (m : outcome A) (s s' : S) k :
  or_throw m s k = Ret (s', []) -> exists a, m = Ret a /\ k a = Ret (s', []).
Proof using. destruct m; cbn; try done. eauto. Qed.

Lemma no_errors {A S} (m : parsed S) (k : S -> list ParseError -> outcome A) a :
  (let* (s, es) := m in k s es) = Ret a -> exists s es, m = Ret (s, es) /\ k s es = Ret a.
Proof using. intros E. apply bind_Ret_iff in E as ([s es] & E1 & E2). eauto. Qed.

Lemma resource_item_ok nl level name v t t' :
  (level < nl)%nat -> tables_ok nl t -> resource_item level name v t = Ret (t', []) -> tables_ok nl t'.
Proof using PC.
  intros Hl Ht E. unfold resource_item in E.
  apply no_errors in E as (dflt & e1 & E1 & E). apply no_errors in E as (limit & e2 & E2 & E).
  apply no_errors in E as (weight & e3 & E3 & E). injection E as <- Ee.
  apply app_eq_nil in Ee as [-> Ee]. apply app_eq_nil in Ee as [-> ->].
  apply required_clean in E1 as (? & (d & [= <-])%int_clean).
  apply required_clean in E2 as (? & (l & [= <-])%int_clean).
  apply parse_resource_ok; [done..|]. intros n ->.
  apply optional_clean in E3 as [|(? & (w & Ew)%int_clean)]; [done|].
  destruct (Z.ltb_spec w 0); [done|]. injection Ew as ->. done.
Qed.

Lemma level_item_ok levels level v t t' :
  table_wf levels -> tables_ok (length (objects_ levels)) t -> level_item levels level v t = Ret (t', []) ->
  tables_ok (length (objects_ levels)) t'.
Proof using PC.
  intros Hw Ht E. apply or_throw_clean in E as (l & El & (kvs & E)%items_clean).
  eapply (collect_clean (tables_ok _)); [exact Ht| |exact E]. intros p s s' Hs.
  apply resource_item_ok; [|done]. by eapply checkedLookup_lt.
Qed.

Lemma override_item_ok names limits r v os os' :
  Forall (override_ok limits) os -> override_item names limits r v os = Ret (os', []) ->
  Forall (override_ok limits) os'.
Proof using PC.
  intros Ho (n & (rid & Er & E)%or_throw_clean)%int_clean.
  destruct (limits !! rid) as [x|] eqn:Ex; [|done]. destruct (Z.eqb_spec x INT32_MAX); [done|].
  injection E as <-. apply Forall_app. split; [done|]. apply Forall_singleton. exists x.
  split_and!; [done|done|apply s32_range].
Qed.

Lemma worker_item_ok names limits w v m m' :
  map_Forall (fun _ os => Forall (override_ok limits) os) m -> worker_item names limits w v m = Ret (m', []) ->
  map_Forall (fun _ os => Forall (override_ok limits) os) m'.
Proof using PC.
  intros Hm E. unfold worker_item in E. apply no_errors in E as (os & es & E1 & [= <- ->]).
  apply items_clean in E1 as (kvs & E1). apply map_Forall_insert_2; [|done].
  eapply (collect_clean (Forall (override_ok limits))); [| |exact E1].
  - destruct (m !! w) as [o|] eqn:Eo; [by apply (Hm w o)|by constructor].
  - intros p s s' Hs. by apply override_item_ok.
Qed.

Lemma indexed_snoc ps m p :
  indexed ps m -> m !! prc_logical p = None -> indexed (ps ++ [p]) (<[prc_logical p := length ps]> m).
Proof using.
  intros Hi Hn s i. rewrite lookup_insert_Some, (Hi s i). split.
  - intros [[<- <-]|[Hne (q & Eq & <-)]].
    + exists p. split; [|done]. by rewrite lookup_app_r, Nat.sub_diag by lia.
    + exists q. split; [|done]. by apply lookup_app_l_Some.
  - intros (q & Eq & <-). apply lookup_app_Some in Eq as [Eq|[Hlt Eq]].
    + right. split; [|by exists q]. intros Heq.
      assert (m !! prc_logical q = Some i) by (apply Hi; by exists q). congruence.
    + apply list_lookup_singleton_Some in Eq as [E1 <-]. left. split; [done|]. lia.
Qed.

Lemma physical_item_ok names limits name v ps ps' :
  Forall (physical_ok names limits) ps.1 /\ indexed ps.1 ps.2 ->
  physical_item names (length limits) name v ps = Ret (ps', []) ->
  Forall (physical_ok names limits) ps'.1 /\ indexed ps'.1 ps'.2.
Proof using PC.
  destruct ps as [rcfgs m]. cbn [fst snd]. intros [Hf Hi] (ph & _ & E)%or_throw_clean.
  apply no_errors in E as (lm & e1 & E1 & E). apply no_errors in E as (mul & e2 & E2 & E).
  apply no_errors in E as (enf & e3 & E3 & E). apply no_errors in E as (res & e4 & _ & E).
  injection E as <- Ee. apply app_eq_nil in Ee as [-> Ee]. apply app_eq_nil in Ee as [-> Ee].
  apply app_eq_nil in Ee as [-> ->].
  apply required_clean in E1 as (lv & (logical & E1)%string_clean). unfold parse_logical in E1. cbn [snd] in E1.
  destruct (lookup_obj names logical) as [rid|] eqn:En; [|done]. case_bool_decide as Hr; [done|].
  destruct (m !! logical) eqn:Em; [done|]. injection E1 as <-. cbn [fst snd].
  split; [|by apply (indexed_snoc rcfgs m (mkPhysical ph logical _ mul enf res))].
  apply Forall_app. split; [done|]. apply Forall_singleton. split_and!; cbn.
  - exists rid. split_and!; [done|done|lia].
  - apply optional_clean in E2 as [->|(d & (x & Ex)%float_clean)]; [by vm_compute|].
    destruct (too_small x) eqn:Es; [done|]. by injection Ex as <-.
  - apply optional_clean in E3 as [->|(d & (x & (y & _ & Ey)%or_throw_clean)%string_clean)].
    + destruct ph; by left.
    + case_bool_decide; [|done]. by injection Ey as <-.
Qed.

Lemma parse_nodes_ok v s s' :
  table_wf s.1.2 -> lookup_obj s.1.2 "instance" = Some 0%nat -> parse_nodes v s = Ret (s', []) ->
  table_wf s'.1.2 /\ lookup_obj s'.1.2 "instance" = Some 0%nat.
Proof using PC.
  destruct s as [[order levels] ncs]. cbn. intros Hw Hi E.
  apply no_errors in E as (o & e1 & _ & E). apply no_errors in E as (ls & e2 & E2 & E).
  apply no_errors in E as (nc & e3 & _ & E). injection E as <- Ee.
  apply app_eq_nil in Ee as [-> Ee]. apply app_eq_nil in Ee as [-> ->]. cbn.
  apply required_clean in E2 as (lv & (l & E2)%array_clean).
  eapply (collect_clean (fun t => table_wf t /\ lookup_obj t "instance" = Some 0%nat)); [done| |exact E2].
  intros a t t' [Ht Hl] (x & [= <-])%string_clean.
  split; [by apply insert_obj_wf|by apply insert_obj_stable].
Qed.

Lemma wait_ok d k ms ms' : is_s32 ms -> parse_wait d k ms = Ret (ms', []) -> is_s32 ms'.
Proof using PC.
  intros Hms [->|(v & (x & E)%float_clean)]%optional_clean; [done|].
  apply bind_Ret_iff in E as (y & Ey & [= <-]). unfold static_cast_int in Ey.
  destruct (f_trunc _) as [z|]; [|done]. destruct ((- 2 ^ 31 <=? z) && (z <? 2 ^ 31)) eqn:Ez; [|done].
  injection Ey as <-. unfold is_s32. lia.
Qed.

Lemma worker_level levels t :
  table_wf levels -> lookup_obj levels "instance" = Some 0%nat ->
  let levels := (insert_obj levels "worker").1 in
  length (resourcesByLevel t) = length (objects_ levels) ->
  exists limits, workerLevelResourcesRef levels t = Ret limits.
Proof using.
  intros Hw Hi ls Hl. unfold workerLevelResourcesRef, checkedLookup.
  unfold ls in *. pose proof (insert_obj_lookup levels "worker") as Lw.
  pose proof (insert_obj_wf levels "worker" Hw) as Hw'. pose proof (insert_obj_stable levels "worker" _ _ Hw Hi) as Li.
  rewrite Lw. cbn. assert (Hx : objects_ (insert_obj levels "worker").1 !! (insert_obj levels "worker").2
    = Some "worker") by (by apply Hw'). apply Hw' in Li. rewrite bool_decide_eq_true_2.
  2: { destruct (insert_obj levels "worker").2; [congruence|lia]. }
  cbn. apply lookup_lt_Some in Hx. rewrite <- Hl in Hx. apply lookup_lt_is_Some_2 in Hx as [r ->]. eauto.
Qed.

Lemma level_default levels n :
  table_wf levels -> getNumConfiguredLevels levels = Ret n -> (n < length (objects_ levels))%nat.
Proof using.
  intros _ E. unfold getNumConfiguredLevels in E. apply bind_Ret_iff in E as (? & Hc & [= <-]).
  apply CHECK_Ret, bool_decide_eq_true in Hc. lia.
Qed.

Lemma string_setting {S} (I : S -> Prop) d k f (s s' : S) :
  I s -> (forall x s s', I s -> f x s = Ret (s', []) -> I s') ->
  p_optional d k (p_string f) s = Ret (s', []) -> I s'.
Proof using PC. intros Hs Hf [->|(v & (x & E)%string_clean)]%optional_clean; [done|by eapply Hf]. Qed.

Lemma override_read d levels t limits m :
  workerLevelResourcesRef levels t = Ret limits ->
  p_optional d "worker_resources_override" (fun v m =>
    or_throw (workerLevelResourcesRef levels t) m (fun default_rsrcs =>
      p_objectItems v (worker_item (resourceNames t) default_rsrcs) m)) ∅ = Ret (m, []) ->
  map_Forall (fun _ os => Forall (override_ok limits) os) m.
Proof using PC.
  intros El [->|(v & (lim & El' & (kvs & E)%items_clean)%or_throw_clean)]%optional_clean; [apply map_Forall_empty|].
  rewrite El in El'. injection El' as <-.
  eapply (collect_clean (map_Forall (fun _ os => Forall (override_ok limits) os)));
    [apply map_Forall_empty| |exact E]. intros p s s' Hs. by apply worker_item_ok.
Qed.

Lemma physical_read d levels t limits ps :
  workerLevelResourcesRef levels t = Ret limits ->
  parsePhysicalResourceConfigs d levels t ([], ∅) = Ret (ps, []) ->
  Forall (physical_ok (resourceNames t) limits) ps.1 /\ indexed ps.1 ps.2.
Proof using PC.
  intros El E. unfold parsePhysicalResourceConfigs in E. rewrite El in E. cbn in E.
  assert (H0 : Forall (physical_ok (resourceNames t) limits) [] /\ indexed [] ∅).
  { split; [by constructor|]. intros s i. rewrite lookup_empty. split; [done|]. by intros (p & ? & _). }
  apply optional_clean in E as [->|(v & (kvs & E)%items_clean)]; [done|].
  apply (collect_clean (fun ps => Forall (physical_ok (resourceNames t) limits) ps.1 /\ indexed ps.1 ps.2)) in E;
    [done|done|]. intros p s s' Hs. by apply physical_item_ok.
Qed.

(** C33: Whatever the JSON is, a configuration that is read without errors is
    well-formed: [instance] is the first level and there is a level [worker],
    the level for tasks exists, the waits and amounts are ints, the policy is
    registered, an override names a resource of the workers, a physical resource
    is indexed by the one logical resource it stands for and has a supported
    enforcement.  If no resource is in two levels, the resource tables are
    consistent, so that jobs can be read, saved and loaded. *)
Theorem config_read flag d c :
  Config_of asFloat flag d = Ret c ->
  exists limits, config_ok c limits /\
    (resources_unique (cs_tables c) -> defaults_ok (length (objects_ (cs_levels c))) (job_defaults c)).
Proof using PC PL.
  intros E. unfold Config_of in E.
  apply no_errors in E as (enabled & e1 & _ & E). apply no_errors in E as (working & e2 & E2 & E).
  apply no_errors in E as (idle & e3 & E3 & E). apply no_errors in E as (policy & e4 & E4 & E).
  apply no_errors in E as (sel & e5 & _ & E). apply bind_Ret_iff in E as (bo & Eb & E).
  apply no_errors in E as (backoff & e6 & E6 & E). apply no_errors in E as ([[order levels] ncs] & e7 & E7 & E).
  apply no_errors in E as (kill & e8 & _ & E). apply no_errors in E as (opts & e9 & E9 & E).
  apply no_errors in E as (req & e10 & E10 & E). apply no_errors in E as (exit & e11 & _ & E).
  apply bind_Ret_iff in E as (l0 & El & E). apply no_errors in E as (level & e12 & E12 & E).
  apply no_errors in E as (t & e13 & E13 & E). apply no_errors in E as (ovr & e14 & E14 & E).
  apply no_errors in E as (phys & e15 & E15 & E).
  destruct (dyn_empty _) eqn:Ee; [|done]. injection E as <-. apply released_clean in Ee.
  repeat (apply app_eq_nil in Ee as [-> Ee]). subst e15.
  apply required_clean in E7 as (nv & E7). apply parse_nodes_ok in E7 as [Hlev Hinst];
    [|apply (insert_obj_wf emptyTable "instance"), emptyTable_wf|done].
  cbn [fst snd] in *. pose proof (insert_obj_wf levels "worker" Hlev) as Hwf.
  apply required_clean in E13 as (rv & (rs & E13)%items_clean).
  assert (Ht : tables_ok (length (objects_ (insert_obj levels "worker").1)) t).
  { eapply (collect_clean (tables_ok _)); [apply newTables_ok| |exact E13]. intros p s s' Hs. by apply level_item_ok. }
  destruct (worker_level levels t Hlev Hinst (tk_limits _ _ Ht)) as (limits & Elim).
  assert (Hlevel : (level < length (objects_ (insert_obj levels "worker").1))%nat).
  { refine (string_setting (fun l => (l < _)%nat) _ _ _ l0 level _ _ E12); [by eapply level_default|].
    intros x s s' _ (l & Hx & [= <-])%or_throw_clean. by eapply checkedLookup_lt. }
  assert (Hbo : backoff_wf backoff).
  { apply JobBackoffSettings_of_wf in Eb.
    apply optional_clean in E6 as [->|(v & (b & Hb & [= <-])%or_throw_clean)]; [done|].
    by eapply JobBackoffSettings_of_wf. }
  assert (Hopts : int_options opts /\ same_fixed opts defaultSubprocessOptions).
  { eapply options_read; [|exact E9]. split_and!; done. }
  assert (Hreq : known_request req) by (eapply request_read; [|exact E10]; done).
  exists limits. split.
  - split; cbn; try done.
    + by apply insert_obj_stable.
    + by split; [eapply wait_ok; [|exact E3]|eapply wait_ok; [|exact E2]].
    + refine (string_setting (fun s => s ∈ policy_names) _ _ _ "roundrobin" policy _ _ E4); [by right; left|].
      intros x s s' _ (u & Hu & [= <-])%or_throw_clean. apply require_Ret in Hu. by apply bool_decide_eq_true in Hu.
    + apply Hopts.
    + by eapply override_read.
    + by eapply physical_read.
    + by eapply physical_read.
  - intros Hu. destruct (tk_wf _ _ Ht Hu) as [H1 H2]. split; cbn; try done; [apply Ht|apply Hopts].
Qed.
End Read.

(** ** Samples *)

Lemma within_clean_inv {S} k (r : parsed S) (s s' : S) : within k r s = Ret (s', []) -> r = Ret (s', []).
Proof. destruct r as [[x [|e es]]|?|?|?]; cbn; intros [= E]; congruence. Qed.

Lemma collect_within_inv {A S} (key : A -> string) (f : A -> S -> parsed S) l s s' :
  collect (fun a s => within (key a) (f a s) s) l s = Ret (s', []) -> collect f l s = Ret (s', []).
Proof.
  unfold collect. enough (H : forall l (acc : S * list ParseError) r,
    foldM (fun acc a => let* (s, es) := within (key a) (f a acc.1) acc.1 in Ret (s, acc.2 ++ es)) acc l
      = Ret (r, []) ->
    acc.2 = [] /\ foldM (fun acc a => let* (s, es) := f a acc.1 in Ret (s, acc.2 ++ es)) acc l = Ret (r, []))
    by (intros E; apply H in E; apply E).
  clear. induction l as [|a l IH]; intros [s es] r E; cbn in *; [by injection E as <- ->|].
  destruct (within (key a) (f a s) s) as [[s1 es1]|e|e|e] eqn:Ew; cbn in *; try done.
  apply IH in E as [E1 E2]. cbn in E1. apply app_eq_nil in E1 as [-> ->].
  apply within_clean_inv in Ew. by rewrite Ew.
Qed.

#[export] Instance record_parser_clean : CleanLaws record_parser.
Proof.
  split; try intros S; cbn.
  - intros d k f s s' E. unfold record_key in E. destruct d; try done. destruct (assoc k kvs) as [v|].
    + right. exists v. by eapply within_clean_inv.
    + left. by injection E.
  - intros d k f s s' E. unfold record_key in E. destruct d; try done. destruct (assoc k kvs) as [v|]; [|done].
    exists v. by eapply within_clean_inv.
  - intros d f s s' E. destruct d; try done. exists kvs. by apply (collect_within_inv fst) in E.
  - intros d f s s' E. destruct d as [| | | | |l|]; try done. exists l. by apply (collect_within_inv (fun _ => "")) in E.
  - intros f d s s' E. destruct d; try done. eauto.
  - intros f d s s' E. destruct d; try done. eauto.
  - intros f d s s' E. destruct (plain_float d); try done. eauto.
  - intros E. by destruct S.
Qed.

Definition sample_settings (levels : list string) (more : list (string * dynamic)) : dynamic :=
  DObject ([("nodes", DObject [("levels", DArray (map DString levels));
    ("node_sources", DArray [DObject [("source", DString "manual"); ("prefs", DObject [])]])]);
   ("resources", DObject [
     ("host", DObject [("slots", DObject [("default", DInt 1); ("limit", DInt 4)])]);
     ("worker", DObject [("ram", DObject [("default", DInt 2); ("limit", DInt 64); ("weight", DInt 5)])])])] ++ more).

Lemma config_read_witness :
  exists c limits, Config_of plain_float false (sample_settings ["host"; "db"]
      [("worker_resources_override", DObject [("w1", DObject [("ram", DInt 128)])]);
       ("physical_resources", DObject [("ram_mb", DObject [("logical_resource", DString "ram");
          ("enforcement", DString "hard"); ("multiply_logical_by", DInt 1024)])])]) = Ret c /\
    config_ok c limits /\ limits = [INT32_MAX; 64] /\ defaults_ok 4 (job_defaults c).
Proof.
  destruct (Config_of plain_float false (sample_settings ["host"; "db"]
    [("worker_resources_override", DObject [("w1", DObject [("ram", DInt 128)])]);
     ("physical_resources", DObject [("ram_mb", DObject [("logical_resource", DString "ram");
        ("enforcement", DString "hard"); ("multiply_logical_by", DInt 1024)])])])) as [c|m|m|m] eqn:E;
    [|vm_compute in E; discriminate..].
  destruct (config_read (ofDouble := as_double) plain_float _ _ c E) as (limits & H1 & H2).
  assert (Hc : worker_limits c = Ret [INT32_MAX; 64] /\ levelIDToResourceID (cs_tables c) = [[]; [0]; []; [1]]%nat /\
    length (objects_ (cs_levels c)) = 4%nat).
  { vm_compute in E. injection E as <-. by vm_compute. }
  destruct Hc as (C1 & C2 & C3). exists c, limits. split; [done|]. split; [done|].
  pose proof (co_limits _ _ H1) as El. rewrite C1 in El. injection El as <-. split; [done|]. rewrite C3 in H2.
  apply H2. unfold resources_unique. rewrite C2. apply (bool_decide_unpack _). by vm_compute.
Defined.

(** A configured level [worker] is not the bottom level, and jobs run on it by
    default; a weight above the largest int becomes negative; a physical
    resource may stand for a resource that the workers lack. *)
Theorem settings_edges :
  (exists c, Config_of plain_float false (sample_settings ["worker"; "host"] []) = Ret c /\
     lookup_obj (cs_levels c) "worker" = Some 1%nat /\ length (objects_ (cs_levels c)) = 3%nat /\
     cs_levelForTasks c = 1%nat) /\
  (exists c, Config_of plain_float false (DObject [("nodes", DObject [("levels", DArray [])]);
      ("resources", DObject [("worker", DObject [("ram", DObject [("default", DInt 1); ("limit", DInt 1);
         ("weight", DInt 4294967295)])])])]) = Ret c /\ resourceIDToWeight (cs_tables c) = [-1]) /\
  (exists c p, Config_of plain_float false (sample_settings ["host"]
      [("physical_resources", DObject [("cpu_core", DObject [("logical_resource", DString "slots")])])]) = Ret c /\
     cs_physicalResourceConfigs c = [p] /\ prc_logicalResourceID p = 0 /\
     worker_limits c = Ret [INT32_MAX; 64]).
Proof.
  split_and!.
  - eexists. split; [vm_compute; reflexivity|]. by vm_compute.
  - eexists. split; [vm_compute; reflexivity|]. by vm_compute.
  - do 2 eexists. split; [vm_compute; reflexivity|]. by vm_compute.
Qed.
