(* ===== verification/Cgroups.v ===== *)
(** The cgroups of a task: [processes/AsyncCGroupReaper.cpp], which waits for
    the processes that a task leaves behind and kills them, and
    [processes/CGroupSetup.cpp], which makes the directories.

    The kernel's side of a cgroup is the record [World]: the directories with
    the processes in them, the state of the freezer and the signals it got.
    What goes wrong while a method runs (files that cannot be read or written,
    processes that end between two system calls) is its argument of type [Env].
    Between calls the kernel acts by the rules of [kernel_step]. *)

From stdpp Require Import base gmap strings list.
From Stdlib Require Import ZArith Lia.
From S2P Require Import Prelude Subprocess.

#[local] Open Scope Z_scope.

(** ** The reaper *)

Inductive FreezerState := THAWED | FREEZING | FROZEN.
#[global] Instance FreezerState_eq_dec : EqDecision FreezerState.
Proof. solve_decision. Defined.

(** The cgroup directories of a task by subsystem, with their "cgroup.procs". *)
Record World := mkWorld {
  w_procs : gmap string (list Z);
  w_freezer : FreezerState;
  w_signals : list Z
}.

(** What happens to the system calls of one call of a method. *)
Record Env := mkEnv {
  procs_fail : gset string;       (* looking into "cgroup.procs" fails *)
  kill_read_fails : bool;         (* reading "cgroup.procs" to kill fails *)
  remove_fail : gset string;      (* removing a directory fails *)
  state_fails : bool;             (* reading "freezer.state" fails *)
  write_fails : bool;             (* writing "freezer.state" fails *)
  frozen_at_once : bool;          (* a write of "FROZEN" is done at once *)
  vanish : gset Z                 (* processes that end before they are killed *)
}.

Record AsyncCGroupReaper := mkReaper {
  cgroupOpts_ : CGroupOptions;
  minWaitMs_ : Z;
  maxWaitMs_ : Z;
  curWaitMs_ : Z;
  totalWaitMs_ : Z;
  freezeWaitedMs_ : Z;
  fulfilled : bool                (* emptyCGroups_; the object is then gone *)
}.

Definition set_waits (r : AsyncCGroupReaper) (cur total frozen : Z) : AsyncCGroupReaper :=
  mkReaper (cgroupOpts_ r) (minWaitMs_ r) (maxWaitMs_ r) cur total frozen (fulfilled r).
Definition set_fulfilled (r : AsyncCGroupReaper) : AsyncCGroupReaper :=
  mkReaper (cgroupOpts_ r) (minWaitMs_ r) (maxWaitMs_ r) (curWaitMs_ r) (totalWaitMs_ r)
    (freezeWaitedMs_ r) true.

(** The constructor. *)
Definition newReaper (cgopts : CGroupOptions) (min_wait_ms max_wait_ms : Z) : AsyncCGroupReaper :=
  mkReaper cgopts min_wait_ms max_wait_ms min_wait_ms 0 0 false.

(** [myScheduleTimeout]: the timer is set to the new [curWaitMs_]. *)
Definition myScheduleTimeout (r : AsyncCGroupReaper) (ms : Z) : AsyncCGroupReaper :=
  set_waits r (Z.min ms (u32 (Z.shiftl (curWaitMs_ r) 2))) (totalWaitMs_ r) (freezeWaitedMs_ r).

Section Methods.
Context (FLAGS_cgroup_freeze_timeout_ms : Z).
Context (env : Env).

(** [findNonEmptySubsystem], which removes empty directories on its way. *)
Fixpoint findNonEmptySubsystem (subs : list string) (w : World) : option string * World :=
  match subs with
  | [] => (None, w)
  | subsystem :: subs =>
      match w_procs w !! subsystem with
      | None => findNonEmptySubsystem subs w
      | Some pids =>
          if bool_decide (subsystem ∈ procs_fail env) then findNonEmptySubsystem subs w
          else match pids with
               | _ :: _ => (Some subsystem, w)
               | [] => findNonEmptySubsystem subs
                         (if bool_decide (subsystem ∈ remove_fail env) then w
                          else mkWorld (delete subsystem (w_procs w)) (w_freezer w) (w_signals w))
               end
      end
  end.

(** [freezerWrite], of "FROZEN" or "THAWED". *)
Definition freezerWrite (w : World) (value : FreezerState) : World :=
  if write_fails env then w
  else let st := match value with
                 | FROZEN => if frozen_at_once env then FROZEN else FREEZING
                 | st => st
                 end in
       mkWorld (w_procs w) st (w_signals w).

(** [killCGroupTasks]. *)
Definition kill_pid (w : World) (pid : Z) : outcome World :=
  if bool_decide (pid ∈ vanish env) then Crash "Failed to kill"
  else Ret (mkWorld (w_procs w) (w_freezer w) (w_signals w ++ [pid])).
Definition killCGroupTasks (w : World) (subsystem : string) : outcome World :=
  let pids := if kill_read_fails env then [] else default [] (w_procs w !! subsystem) in
  foldM kill_pid w (remove_dups pids).

(** [workOnKillingCGroupTasks]. *)
Definition workOnKillingCGroupTasks (w : World) (r : AsyncCGroupReaper) (nonempty_subsys : string)
    : outcome (World * AsyncCGroupReaper) :=
  if negb (bool_decide ("freezer" ∈ subsystems (cgroupOpts_ r))) then
    if killWithoutFreezer (cgroupOpts_ r)
    then let* w := killCGroupTasks w nonempty_subsys in Ret (w, r)
    else Ret (w, r)
  else match w_procs w !! "freezer" with
       | None => Ret (w, r)
       | Some _ =>
           if state_fails env then Ret (w, r)
           else match w_freezer w with
                | THAWED =>
                    Ret (freezerWrite w FROZEN, set_waits r (curWaitMs_ r) (totalWaitMs_ r) 0)
                | FREEZING =>
                    let waited := u64 (freezeWaitedMs_ r + curWaitMs_ r) in
                    let r := set_waits r (curWaitMs_ r) (totalWaitMs_ r) waited in
                    if Z.max 1 FLAGS_cgroup_freeze_timeout_ms <? waited
                    then Ret (freezerWrite w THAWED, r) else Ret (w, r)
                | FROZEN =>
                    let* w := killCGroupTasks w "freezer" in Ret (freezerWrite w THAWED, r)
                end
       end.

(** [initialize] and [timeoutExpired]. *)
Definition initialize (w : World) (r : AsyncCGroupReaper) : outcome (World * AsyncCGroupReaper) :=
  match findNonEmptySubsystem (subsystems (cgroupOpts_ r)) w with
  | (Some nonempty_subsystem, w) =>
      let* (w, r) := workOnKillingCGroupTasks w r nonempty_subsystem in
      Ret (w, myScheduleTimeout r (minWaitMs_ r))
  | (None, w) => Ret (w, set_fulfilled r)
  end.
Definition timeoutExpired (w : World) (r : AsyncCGroupReaper) : outcome (World * AsyncCGroupReaper) :=
  let r := set_waits r (curWaitMs_ r) (u64 (totalWaitMs_ r + curWaitMs_ r)) (freezeWaitedMs_ r) in
  match findNonEmptySubsystem (subsystems (cgroupOpts_ r)) w with
  | (Some nonempty_subsystem, w) =>
      let* (w, r) := workOnKillingCGroupTasks w r nonempty_subsystem in
      Ret (w, myScheduleTimeout r (maxWaitMs_ r))
  | (None, w) => Ret (w, set_fulfilled r)
  end.
End Methods.

(** [asyncCGroupReaper]. *)
Definition asyncCGroupReaper (flag : Z) (env : Env) (w : World) (cgopts : CGroupOptions)
    (min_wait_ms max_wait_ms : Z) : outcome (World * AsyncCGroupReaper) :=
  initialize flag env w (newReaper cgopts min_wait_ms max_wait_ms).

(** ** The kernel *)

(** The processes that cannot run. *)
Definition frozen (w : World) (pid : Z) : Prop :=
  w_freezer w = FROZEN /\ exists pids, w_procs w !! "freezer" = Some pids /\ pid ∈ pids.

(** Processes that are not frozen end, or start others in their cgroups; a
    freeze is done; the release agent removes an empty cgroup. *)
Inductive kernel_step : World -> World -> Prop :=
| kernel_exit w pid : ~ frozen w pid ->
    kernel_step w (mkWorld (filter (fun p => p <> pid) <$> w_procs w) (w_freezer w) (w_signals w))
| kernel_fork w pid child : ~ frozen w pid ->
    kernel_step w (mkWorld ((fun pids => if bool_decide (pid ∈ pids) then child :: pids else pids) <$> w_procs w)
      (w_freezer w) (w_signals w))
| kernel_frozen w : w_freezer w = FREEZING ->
    kernel_step w (mkWorld (w_procs w) FROZEN (w_signals w))
| kernel_release w subsystem : w_procs w !! subsystem = Some [] ->
    kernel_step w (mkWorld (delete subsystem (w_procs w)) (w_freezer w) (w_signals w)).

(** What goes wrong: a frozen process does not end. *)
Definition env_ok (w : World) (env : Env) : Prop := forall pid, frozen w pid -> pid ∉ vanish env.

(** The runs of the reaper, with the number of timeouts. *)
Inductive reaches (flag : Z) (w0 : World) (opts : CGroupOptions) (min max : Z)
    : nat -> World -> AsyncCGroupReaper -> Prop :=
| reaches_init env w r : env_ok w0 env -> asyncCGroupReaper flag env w0 opts min max = Ret (w, r) ->
    reaches flag w0 opts min max 0 w r
| reaches_kernel n w w' r : reaches flag w0 opts min max n w r -> kernel_step w w' ->
    reaches flag w0 opts min max n w' r
| reaches_timeout n w r env w' r' : reaches flag w0 opts min max n w r -> fulfilled r = false ->
    env_ok w env -> timeoutExpired flag env w r = Ret (w', r') ->
    reaches flag w0 opts min max (S n) w' r'.

(** ** One call *)

Definition nonempty (w : World) (subsystem : string) : Prop :=
  exists pid pids, w_procs w !! subsystem = Some (pid :: pids).

(** Only empty directories of a world are gone in another. *)
Record cleaned (w w' : World) : Prop := {
  cl_freezer : w_freezer w' = w_freezer w;
  cl_signals : w_signals w' = w_signals w;
  cl_keeps : forall s pids, w_procs w' !! s = Some pids -> w_procs w !! s = Some pids;
  cl_removes : forall s, w_procs w' !! s = None -> w_procs w !! s = None \/ w_procs w !! s = Some []
}.

#[global] Instance cleaned_preorder : PreOrder cleaned.
Proof.
  split.
  - intros w. split; auto.
  - intros w1 w2 w3 [A1 A2 A3 A4] [B1 B2 B3 B4]. split; [congruence|congruence|auto|].
    intros s Hs. destruct (B4 s Hs) as [H|H]; [auto|]. right. auto.
Qed.

Lemma cleaned_nonempty w w' s : cleaned w w' -> (nonempty w' s <-> nonempty w s).
Proof.
  intros [_ _ H1 H2]. split; intros (p & ps & E); exists p, ps; [auto|].
  destruct (w_procs w' !! s) as [x|] eqn:Ex; [by rewrite <- E; symmetry; apply H1|].
  destruct (H2 s Ex); congruence.
Qed.

Lemma cleaned_frozen w w' pid : cleaned w w' -> frozen w' pid -> frozen w pid.
Proof. intros [E _ H _] [Hf (pids & Ep & Hin)]. split; [congruence|]. eauto. Qed.

Lemma find_spec env subs w o w' :
  findNonEmptySubsystem env subs w = (o, w') -> cleaned w w' /\
  match o with
  | Some s => (s ∈ subs) /\ (s ∉ procs_fail env) /\ nonempty w s
  | None => forall s, s ∈ subs -> (s ∈ procs_fail env) \/ ~ nonempty w s
  end.
Proof.
  revert w o w'. induction subs as [|s subs IH]; intros w o w' E; cbn in E.
  { injection E as <- <-. split; [done|]. by intros s ?%not_elem_of_nil. }
  assert (Hskip : forall w1, cleaned w w1 -> (s ∈ procs_fail env \/ ~ nonempty w s) ->
    findNonEmptySubsystem env subs w1 = (o, w') -> cleaned w w' /\
    match o with
    | Some s' => (s' ∈ s :: subs) /\ (s' ∉ procs_fail env) /\ nonempty w s'
    | None => forall s', s' ∈ s :: subs -> (s' ∈ procs_fail env) \/ ~ nonempty w s'
    end).
  { intros w1 Hc Hs [H1 H2]%IH. split; [by etrans|]. destruct o as [s'|].
    - destruct H2 as (? & ? & ?). split_and!; [by right|done|by apply (cleaned_nonempty w w1)].
    - intros s' [->|Hin]%elem_of_cons; [done|]. rewrite <- (cleaned_nonempty w w1) by done. auto. }
  destruct (w_procs w !! s) as [pids|] eqn:Es.
  2: { apply (Hskip w); [done| |done]. right. intros (p & ps & ?). congruence. }
  case_bool_decide as Hf; [apply (Hskip w); auto; done|].
  destruct pids as [|p ps].
  2: { injection E as <- <-. split; [done|]. split_and!; [by left|done|by exists p, ps]. }
  apply (Hskip _) in E; [done| |right; intros (p & ps & ?); congruence].
  case_bool_decide; [done|]. split; cbn; try done.
  - intros s' pids [_ ?]%lookup_delete_Some. done.
  - intros s' [->|?]%lookup_delete_None; auto.
Qed.

(** Everybody in the list gets a signal, unless one is gone. *)
Lemma kill_all env w pids :
  (forall pid, pid ∈ pids -> pid ∉ vanish env) ->
  foldM (kill_pid env) w pids = Ret (mkWorld (w_procs w) (w_freezer w) (w_signals w ++ pids)).
Proof.
  revert w. induction pids as [|p pids IH]; intros w H; cbn; [destruct w; cbn; by rewrite app_nil_r|].
  unfold kill_pid. rewrite bool_decide_eq_false_2 by (apply H; by left). cbn.
  rewrite IH by (intros; apply H; by right). cbn. by rewrite <- app_assoc.
Qed.

(** What working on a cgroup with a freezer does. *)
Inductive worked (flag : Z) (env : Env) (w : World) (r : AsyncCGroupReaper)
    : World -> AsyncCGroupReaper -> Prop :=
| worked_nothing : state_fails env = true \/ w_procs w !! "freezer" = None -> worked flag env w r w r
| worked_freeze : w_freezer w = THAWED ->
    worked flag env w r (freezerWrite env w FROZEN) (set_waits r (curWaitMs_ r) (totalWaitMs_ r) 0)
| worked_wait waited : w_freezer w = FREEZING -> waited = u64 (freezeWaitedMs_ r + curWaitMs_ r) ->
    waited <= Z.max 1 flag ->
    worked flag env w r w (set_waits r (curWaitMs_ r) (totalWaitMs_ r) waited)
| worked_retry waited : w_freezer w = FREEZING -> waited = u64 (freezeWaitedMs_ r + curWaitMs_ r) ->
    Z.max 1 flag < waited ->
    worked flag env w r (freezerWrite env w THAWED) (set_waits r (curWaitMs_ r) (totalWaitMs_ r) waited)
| worked_kill pids : w_freezer w = FROZEN -> (forall pid, pid ∈ pids -> frozen w pid) ->
    (forall pid, frozen w pid -> kill_read_fails env = false -> pid ∈ pids) ->
    worked flag env w r
      (freezerWrite env (mkWorld (w_procs w) (w_freezer w) (w_signals w ++ pids)) THAWED) r.

Lemma work_spec flag env w r s :
  "freezer" ∈ subsystems (cgroupOpts_ r) -> env_ok w env ->
  exists w' r', workOnKillingCGroupTasks flag env w r s = Ret (w', r') /\ worked flag env w r w' r'.
Proof.
  intros Hin Henv. unfold workOnKillingCGroupTasks. rewrite bool_decide_eq_true_2 by done. cbn [negb].
  destruct (w_procs w !! "freezer") as [pids|] eqn:Ep.
  2: { eexists _, _. split; [done|]. constructor. by right. }
  destruct (state_fails env) eqn:Es; [eexists _, _; split; [done|]; constructor; by left|].
  destruct (w_freezer w) eqn:Ef.
  - eexists _, _. split; [done|]. by apply worked_freeze.
  - case_match eqn:El; eexists _, _; (split; [done|]).
    + apply Z.ltb_lt in El. by eapply worked_retry.
    + apply Z.ltb_ge in El. by eapply worked_wait.
  - unfold killCGroupTasks. rewrite Ep. cbn [default].
    set (ps := if kill_read_fails env then [] else pids).
    assert (Hfr : forall pid, pid ∈ remove_dups ps -> frozen w pid).
    { intros pid. rewrite elem_of_remove_dups. unfold ps. destruct (kill_read_fails env); [by intros ?%not_elem_of_nil|].
      intros Hp. split; [done|]. eauto. }
    rewrite kill_all by (intros pid Hp; by apply Henv, Hfr). cbn [mbind outcome_bind].
    eexists _, _. split; [done|]. apply worked_kill; [done|done|].
    intros pid [_ (qs & E & Hp)] Hn. unfold ps. rewrite elem_of_remove_dups, Hn. assert (qs = pids) as -> by congruence. done.
Qed.

(** The same for the worlds: which processes are signalled, and when the
    cgroup is thawed without that. *)
Record work_done (flag : Z) (env : Env) (w : World) (r : AsyncCGroupReaper) (w' : World) : Prop := {
  wd_procs : w_procs w' = w_procs w;
  wd_signals : exists pids, w_signals w' = w_signals w ++ pids /\ (forall pid, pid ∈ pids -> frozen w pid) /\
    (pids <> [] -> write_fails env = false -> w_freezer w' = THAWED);
  wd_retry : w_freezer w = FREEZING -> w_freezer w' = THAWED ->
    Z.max 1 flag < u64 (freezeWaitedMs_ r + curWaitMs_ r)
}.

Lemma worked_done flag env w r w' r' :
  worked flag env w r w' r' -> work_done flag env w r w' /\
  cgroupOpts_ r' = cgroupOpts_ r /\ minWaitMs_ r' = minWaitMs_ r /\ maxWaitMs_ r' = maxWaitMs_ r /\
  curWaitMs_ r' = curWaitMs_ r /\ totalWaitMs_ r' = totalWaitMs_ r /\ fulfilled r' = fulfilled r.
Proof.
  assert (Hnil : forall w', w_signals w' = w_signals w -> exists pids, w_signals w' = w_signals w ++ pids /\
    (forall pid, pid ∈ pids -> frozen w pid) /\ (pids <> [] -> write_fails env = false -> w_freezer w' = THAWED)).
  { intros w1 ->. exists []. rewrite app_nil_r. split_and!; [done|by intros pid ?%not_elem_of_nil|done]. }
  assert (Hwrite : forall w v, w_procs (freezerWrite env w v) = w_procs w /\
    w_signals (freezerWrite env w v) = w_signals w).
  { intros w1 v. unfold freezerWrite. by destruct (write_fails env). }
  intros H. destruct H as [|Hf|waited Hf Hw Hl|waited Hf Hw Hl|pids Hf Hp Ha]; (split; [|done]).
  - split; [done|by apply Hnil|congruence].
  - split; [apply Hwrite|apply Hnil, Hwrite|congruence].
  - split; [done|by apply Hnil|congruence].
  - split; [apply Hwrite|apply Hnil, Hwrite|]. intros _ _. by rewrite <- Hw.
  - split; [by rewrite (proj1 (Hwrite _ _))| |congruence]. exists pids. rewrite (proj2 (Hwrite _ _)).
    split_and!; [done|done|]. intros _ Hn. unfold freezerWrite. by rewrite Hn.
Qed.

(** One call of a reaper of a task with a freezer, of [initialize] or of
    [timeoutExpired]; the next wait is at most [limit]. *)
Record call_ok (flag : Z) (env : Env) (limit : Z) (w : World) (r : AsyncCGroupReaper) (w' : World)
    (r' : AsyncCGroupReaper) : Prop := {
  co_signals : exists pids, w_signals w' = w_signals w ++ pids /\ (forall pid, pid ∈ pids -> frozen w pid) /\
    (pids <> [] -> write_fails env = false -> w_freezer w' = THAWED);
  co_procs : forall s, nonempty w' s <-> nonempty w s;
  co_retry : w_freezer w = FREEZING -> w_freezer w' = THAWED ->
    Z.max 1 flag < u64 (freezeWaitedMs_ r + curWaitMs_ r);
  co_done : fulfilled r' = true <->
    forall s, s ∈ subsystems (cgroupOpts_ r) -> (s ∈ procs_fail env) \/ ~ nonempty w s;
  co_wait : fulfilled r' = false -> curWaitMs_ r' = Z.min limit (u32 (Z.shiftl (curWaitMs_ r) 2));
  co_total : totalWaitMs_ r' = totalWaitMs_ r;
  co_fixed : cgroupOpts_ r' = cgroupOpts_ r /\ minWaitMs_ r' = minWaitMs_ r /\ maxWaitMs_ r' = maxWaitMs_ r
}.

(** What the two methods share; [limit] is [minWaitMs_] or [maxWaitMs_]. *)
Lemma call_spec flag env (limit : AsyncCGroupReaper -> Z) w r :
  limit = minWaitMs_ \/ limit = maxWaitMs_ ->
  "freezer" ∈ subsystems (cgroupOpts_ r) -> env_ok w env -> fulfilled r = false ->
  exists w' r', match findNonEmptySubsystem env (subsystems (cgroupOpts_ r)) w with
    | (Some nonempty_subsystem, w) =>
        let* (w, r) := workOnKillingCGroupTasks flag env w r nonempty_subsystem in
        Ret (w, myScheduleTimeout r (limit r))
    | (None, w) => Ret (w, set_fulfilled r)
    end = Ret (w', r') /\ call_ok flag env (limit r) w r w' r'.
Proof.
  intros Hl Hin Henv Hr.
  destruct (findNonEmptySubsystem env (subsystems (cgroupOpts_ r)) w) as [[s|] w1] eqn:Ef;
    apply find_spec in Ef as [Hc Hs].
  - destruct (work_spec flag env w1 r s Hin) as (w2 & r2 & -> & Hw).
    { intros pid Hp. by apply Henv, (cleaned_frozen w w1). }
    apply worked_done in Hw as ([D1 (pids & D2 & D3 & D4) D5] & R1 & R2 & R3 & R4 & R5 & R6). cbn in *.
    eexists _, _. split; [done|]. destruct Hs as (Hs1 & Hs2 & Hs3). split; cbn.
    + exists pids. rewrite D2, (cl_signals _ _ Hc). split_and!; [done|intros; by apply (cleaned_frozen w w1); auto|done].
    + intros x. rewrite <- (cleaned_nonempty w w1) by done. unfold nonempty. by rewrite D1.
    + rewrite <- (cl_freezer _ _ Hc). done.
    + rewrite R6, Hr. split; [done|]. intros H. destruct (H s Hs1); done.
    + intros _. rewrite R4. destruct Hl as [-> | ->]; by rewrite ?R2, ?R3.
    + done.
    + done.
  - eexists _, _. split; [done|]. split; cbn; try done.
    + exists []. rewrite app_nil_r. split_and!; [apply Hc|by intros pid ?%not_elem_of_nil|done].
    + intros x. by apply cleaned_nonempty.
    + rewrite (cl_freezer _ _ Hc). congruence.
Qed.

(** A timeout adds the wait to the total first. *)
Definition waited (r : AsyncCGroupReaper) : AsyncCGroupReaper :=
  set_waits r (curWaitMs_ r) (u64 (totalWaitMs_ r + curWaitMs_ r)) (freezeWaitedMs_ r).

Lemma timeout_spec flag env w r :
  "freezer" ∈ subsystems (cgroupOpts_ r) -> env_ok w env -> fulfilled r = false ->
  exists w' r', timeoutExpired flag env w r = Ret (w', r') /\
    call_ok flag env (maxWaitMs_ r) w (waited r) w' r'.
Proof. intros Hin Henv Hr. apply (call_spec flag env maxWaitMs_ w (waited r)); auto. Qed.

(** ** Every run is safe *)

Section Runs.
Context (flag : Z) (w0 : World) (opts : CGroupOptions) (min max : Z).
Context (Hfreezer : "freezer" ∈ subsystems opts).
Context (Hmin : 0 < min < 2 ^ 30) (Hmax : 0 < max < 2 ^ 30).

Record waits_ok (n : nat) (r : AsyncCGroupReaper) : Prop := {
  wo_opts : cgroupOpts_ r = opts;
  wo_max : maxWaitMs_ r = max;
  wo_cur : Z.min min max <= curWaitMs_ r <= Z.max min max;
  wo_total : Z.of_nat n * Z.max min max < 2 ^ 64 ->
    Z.of_nat n * Z.min min max <= totalWaitMs_ r <= Z.of_nat n * Z.max min max
}.

Lemma shift_exact cur : 0 <= cur <= Z.max min max -> u32 (Z.shiftl cur 2) = 4 * cur.
Proof using Hmin Hmax.
  intros H. rewrite Z.shiftl_mul_pow2 by lia. unfold u32. change (2 ^ 2) with 4.
  rewrite Z.mod_small; lia.
Qed.

Lemma start_spec env :
  env_ok w0 env ->
  exists w r, asyncCGroupReaper flag env w0 opts min max = Ret (w, r) /\
    call_ok flag env min w0 (newReaper opts min max) w r /\ (fulfilled r = false -> waits_ok 0 r).
Proof using Hfreezer Hmin Hmax.
  intros Henv. destruct (call_spec flag env minWaitMs_ w0 (newReaper opts min max)) as (w & r & E & Hc); [auto..|].
  exists w, r. split; [done|]. split; [done|]. intros Hf. pose proof (co_wait _ _ _ _ _ _ _ Hc Hf) as Ec.
  destruct (co_fixed _ _ _ _ _ _ _ Hc) as (O1 & O2 & O3). pose proof (co_total _ _ _ _ _ _ _ Hc) as Et. cbn in *.
  rewrite shift_exact in Ec by lia. split; [done..|lia|lia].
Qed.

Lemma timeout_waits env n w r :
  env_ok w env -> fulfilled r = false -> waits_ok n r ->
  exists w' r', timeoutExpired flag env w r = Ret (w', r') /\ call_ok flag env max w (waited r) w' r' /\
    (fulfilled r' = false -> waits_ok (S n) r').
Proof using Hfreezer Hmin Hmax.
  intros Henv Hr [W1 W3 W4 W5].
  destruct (timeout_spec flag env w r) as (w' & r' & E & Ht); [by rewrite W1|done|done|]. rewrite W3 in Ht.
  exists w', r'. split; [done|]. split; [done|]. intros Hf'. pose proof (co_wait _ _ _ _ _ _ _ Ht Hf') as Ec.
  destruct (co_fixed _ _ _ _ _ _ _ Ht) as (O1 & O2 & O3). pose proof (co_total _ _ _ _ _ _ _ Ht) as Et. cbn in *.
  rewrite shift_exact in Ec by lia. split; try congruence; [lia|].
  intros Hn. rewrite Et, u64_id; [lia|]. unfold is_u64. lia.
Qed.

Lemma reaches_waits n w r :
  reaches flag w0 opts min max n w r -> fulfilled r = false -> waits_ok n r.
Proof using Hfreezer Hmin Hmax.
  induction 1 as [env w r He E|n w w' r _ IH Hk|n w r env w' r' _ IH Hr He E]; intros Hf.
  - destruct (start_spec env He) as (w1 & r1 & E1 & _ & Hw). rewrite E in E1. injection E1 as -> ->. auto.
  - auto.
  - destruct (timeout_waits env n w r He Hr (IH Hr)) as (w1 & r1 & E1 & _ & Hw).
    rewrite E in E1. injection E1 as -> ->. auto.
Qed.

(** What one call may do to the cgroups of the task and to the future. *)
Record safe_call (env : Env) (waited limit cur : Z) (w w' : World) (r' : AsyncCGroupReaper) : Prop := {
  sc_signals : exists pids, w_signals w' = w_signals w ++ pids /\ (forall pid, pid ∈ pids -> frozen w pid) /\
    (pids <> [] -> write_fails env = false -> w_freezer w' = THAWED);
  sc_retry : w_freezer w = FREEZING -> w_freezer w' = THAWED -> Z.max 1 flag < u64 (waited + cur);
  sc_done : fulfilled r' = true <->
    forall s, s ∈ subsystems opts -> (s ∈ procs_fail env) \/ ~ nonempty w s;
  sc_wait : fulfilled r' = false -> curWaitMs_ r' = Z.min limit (4 * cur)
}.

Lemma call_safe env limit w r w' r' :
  cgroupOpts_ r = opts -> 0 <= curWaitMs_ r <= Z.max min max -> call_ok flag env limit w r w' r' ->
  safe_call env (freezeWaitedMs_ r) limit (curWaitMs_ r) w w' r'.
Proof using Hmin Hmax.
  intros Ho Hc [T1 _ T3 T4 T5 _ _]. rewrite Ho in T4. rewrite shift_exact in T5 by done. done.
Qed.

End Runs.

(** ** A responsive kernel *)

(** Every process of the task is in the freezer's cgroup. *)
Definition covered (w : World) : Prop :=
  forall s pids pid, w_procs w !! s = Some pids -> pid ∈ pids ->
    exists fp, w_procs w !! "freezer" = Some fp /\ pid ∈ fp.

(** Between two timeouts a freeze is done, the processes of a thawed cgroup
    that were killed are gone, and no process is started. *)
Definition responsive (w w' : World) : Prop :=
  rtc kernel_step w w' /\ w_freezer w' <> FREEZING /\
  (w_freezer w = THAWED -> forall s pids pid, w_procs w' !! s = Some pids -> pid ∈ pids -> pid ∉ w_signals w) /\
  (forall s pids pid, w_procs w' !! s = Some pids -> pid ∈ pids ->
     exists old, w_procs w !! s = Some old /\ pid ∈ old).

(** The system calls of the reaper work. *)
Definition works (env : Env) : Prop :=
  procs_fail env = ∅ /\ kill_read_fails env = false /\ state_fails env = false /\ write_fails env = false.

Inductive rounds (flag : Z) : nat -> World -> AsyncCGroupReaper -> World -> AsyncCGroupReaper -> Prop :=
| rounds_none w r : rounds flag 0 w r w r
| rounds_more n w r w1 env w2 r2 w' r' : fulfilled r = false -> responsive w w1 -> works env -> env_ok w1 env ->
    timeoutExpired flag env w1 r = Ret (w2, r2) -> rounds flag n w2 r2 w' r' -> rounds flag (S n) w r w' r'.

Lemma kernel_covered w w' : kernel_step w w' -> covered w -> covered w'.
Proof.
  intros Hk Hc. destruct Hk as [w pid Hp|w pid child Hp|w Hf|w s Hs]; intros s' pids q; cbn.
  - rewrite lookup_fmap_Some. intros (old & <- & Eo) [Hq Hin]%list_elem_of_filter.
    destruct (Hc s' old q Eo Hin) as (fp & Ef & Hfp). exists (filter (fun p => p <> pid) fp).
    rewrite lookup_fmap, Ef. split; [done|]. by apply list_elem_of_filter.
  - rewrite lookup_fmap_Some. intros (old & <- & Eo) Hin.
    assert (Hcase : q ∈ old \/ q = child /\ pid ∈ old).
    { case_bool_decide; [|auto]. apply elem_of_cons in Hin as [->|]; auto. }
    clear Hin. destruct Hcase as [Hq|[-> Hq]]; destruct (Hc s' old _ Eo Hq) as (fp & Ef & Hfp);
      rewrite lookup_fmap, Ef; eexists; (split; [done|]); case_bool_decide;
      first [done|by left|by right].
  - apply Hc.
  - intros [Hne E]%lookup_delete_Some Hin. destruct (Hc s' pids q E Hin) as (fp & Ef & Hfp). exists fp.
    split; [|done]. rewrite lookup_delete_ne; [done|]. intros ->. rewrite Hs in Ef. injection Ef as <-.
    by apply not_elem_of_nil in Hfp.
Qed.

Lemma kernel_rest w w' : kernel_step w w' ->
  w_signals w' = w_signals w /\ (w_freezer w' = w_freezer w \/ w_freezer w = FREEZING /\ w_freezer w' = FROZEN).
Proof. intros Hk. destruct Hk; cbn; auto. Qed.

Lemma kernel_run w w' : rtc kernel_step w w' ->
  (covered w -> covered w') /\ w_signals w' = w_signals w /\
  (w_freezer w' = w_freezer w \/ w_freezer w = FREEZING /\ w_freezer w' = FROZEN).
Proof.
  induction 1 as [w|w w1 w' Hk _ (IH1 & IH2 & IH3)]; [auto|].
  pose proof (kernel_covered _ _ Hk). apply kernel_rest in Hk as [E1 E2]. split_and!; [auto|congruence|].
  destruct IH3 as [->|[E3 ->]]; [done|]. destruct E2 as [<-|[_ ?]]; [auto|congruence].
Qed.

Lemma cleaned_covered w w' : cleaned w w' -> covered w -> covered w'.
Proof.
  intros [_ _ H1 H2] Hc s pids pid E Hin. destruct (Hc s pids pid (H1 _ _ E) Hin) as (fp & Ef & Hfp).
  exists fp. split; [|done]. destruct (w_procs w' !! "freezer") as [fp'|] eqn:E'.
  - apply H1 in E'. congruence.
  - destruct (H2 _ E') as [|E2]; [congruence|]. rewrite Ef in E2. injection E2 as ->. by apply not_elem_of_nil in Hfp.
Qed.

(** All processes that are left were killed and can run. *)
Definition doomed (w : World) : Prop :=
  w_freezer w = THAWED /\ forall s pids pid, w_procs w !! s = Some pids -> pid ∈ pids -> pid ∈ w_signals w.

Lemma work_progress flag env w r w' r' :
  works env -> covered w -> nonempty w "freezer" -> w_freezer w <> FREEZING -> worked flag env w r w' r' ->
  covered w' /\ (w_freezer w = THAWED -> w_freezer w' <> THAWED) /\ (w_freezer w = FROZEN -> doomed w').
Proof.
  intros (_ & E1 & E2 & E3) Hc (p & ps & Ep) Hnf Hw.
  destruct Hw as [Hb|Hf|waited Hf _ _|waited Hf _ _|pids Hf _ Ha]; try done.
  - destruct Hb; congruence.
  - unfold freezerWrite. rewrite E3. cbn. split; [done|]. split; [|congruence].
    intros _. by destruct (frozen_at_once env).
  - unfold freezerWrite. rewrite E3. cbn. split; [done|]. split; [congruence|]. intros _. split; [done|]. cbn.
    intros s qs q Eq Hq. apply elem_of_app. right. destruct (Hc s qs q Eq Hq) as (fp & Ef & Hfp). apply Ha.
    + split; [done|]. eauto.
    + done.
Qed.

(** One timeout that does not end it. *)
Lemma round_progress flag env w w1 r w2 r2 :
  "freezer" ∈ subsystems (cgroupOpts_ r) -> fulfilled r = false -> covered w -> responsive w w1 -> works env ->
  env_ok w1 env -> timeoutExpired flag env w1 r = Ret (w2, r2) -> fulfilled r2 = false ->
  covered w2 /\ ~ doomed w /\ (w_freezer w = THAWED -> w_freezer w2 <> THAWED) /\
  (w_freezer w <> THAWED -> doomed w2) /\ cgroupOpts_ r2 = cgroupOpts_ r.
Proof.
  intros Hin Hr Hc (Hk & Hnf & Hdead & Hold) Hworks Henv E Hr2.
  apply kernel_run in Hk as (Hc1 & Es & Ef). specialize (Hc1 Hc).
  unfold timeoutExpired in E. cbn [cgroupOpts_ set_waits] in E.
  destruct (findNonEmptySubsystem env (subsystems (cgroupOpts_ r)) w1) as [[s|] wf] eqn:Efind;
    [|by injection E as _ <-].
  apply find_spec in Efind as [Hcl (_ & _ & Hs)].
  destruct (work_spec flag env wf (set_waits r (curWaitMs_ r) (u64 (totalWaitMs_ r + curWaitMs_ r))
    (freezeWaitedMs_ r)) s Hin) as (w3 & r3 & E3 & Hw).
  { intros pid Hp. by apply Henv, (cleaned_frozen w1 wf). }
  rewrite E3 in E. injection E as <- <-.
  assert (Hfz : nonempty wf "freezer").
  { apply (cleaned_nonempty w1 wf) in Hs as (p & ps & Ep); [|done].
    destruct (cleaned_covered _ _ Hcl Hc1 s (p :: ps) p Ep) as (fp & Efp & Hfp); [by left|].
    destruct fp as [|q qs]; [by apply not_elem_of_nil in Hfp|]. by exists q, qs. }
  destruct (worked_done _ _ _ _ _ _ Hw) as (_ & Ho & _).
  rewrite <- (cl_freezer _ _ Hcl) in Hnf.
  destruct (work_progress _ _ _ _ _ _ Hworks (cleaned_covered _ _ Hcl Hc1) Hfz Hnf Hw) as (H1 & H2 & H3).
  rewrite (cl_freezer _ _ Hcl) in H2, H3, Hnf.
  split; [done|]. split; [|split; [|split; [|done]]].
  - intros [Hth Hd]. destruct Hs as (p & ps & Ep). destruct (Hold s (p :: ps) p Ep) as (old & Eo & Ho'); [by left|].
    apply (Hdead Hth s (p :: ps) p Ep); [by left|]. by eapply Hd.
  - intros Hth. apply H2. destruct Ef as [->|[? _]]; congruence.
  - intros Hth. apply H3. destruct Ef as [Ef|[_ ->]]; [|done]. rewrite Ef in *. by destruct (w_freezer w).
Qed.

(** The timeouts that may pass before the one that ends it. *)
Definition budget (k : nat) (w : World) : Prop :=
  match k with
  | O => doomed w
  | 1%nat => w_freezer w <> THAWED \/ doomed w
  | _ => True
  end.

Lemma rounds_budget flag n k w r w' r' :
  rounds flag n w r w' r' -> "freezer" ∈ subsystems (cgroupOpts_ r) -> covered w -> (k <= 2)%nat ->
  budget k w -> fulfilled r' = false ->
  (n <= k)%nat /\ budget (k - n) w' /\ covered w' /\ "freezer" ∈ subsystems (cgroupOpts_ r').
Proof.
  intros Hr. revert k. induction Hr as [w r|n w r w1 env w2 r2 w' r' Hf Hresp Hw He E Hr IH];
    intros k Hin Hc Hk Hb Hf'.
  { rewrite Nat.sub_0_r. split_and!; [lia|done..]. }
  assert (Hf2 : fulfilled r2 = false) by (by inversion Hr; subst).
  destruct (round_progress flag env w w1 r w2 r2 Hin Hf Hc Hresp Hw He E Hf2) as (C2 & Hnd & P1 & P2 & Ho).
  rewrite <- Ho in Hin. destruct k as [|[|[|k]]]; [done| | |lia].
  - destruct Hb as [Hb|]; [|done]. destruct (IH 0%nat Hin C2) as (? & ? & ?); [lia|by apply P2|done|].
    split; [lia|]. assert (n = 0%nat) as -> by lia. done.
  - destruct (IH 1%nat Hin C2) as (? & ? & ?); [lia| |done|].
    { destruct (decide (w_freezer w = THAWED)); cbn; auto. }
    split; [lia|done].
Qed.

(** C35: If every process of the task is in the freezer's cgroup, the system calls
    work and the kernel freezes and kills between two timeouts, the reaper
    needs at most three timeouts: one to freeze, one to kill and thaw, one to
    see that all cgroups are empty. *)
Theorem reaper_finishes flag n w r w' r' w1 env :
  "freezer" ∈ subsystems (cgroupOpts_ r) -> covered w -> rounds flag n w r w' r' ->
  fulfilled r' = false -> responsive w' w1 -> works env -> env_ok w1 env ->
  (n <= 2)%nat /\ exists w2 r2, timeoutExpired flag env w1 r' = Ret (w2, r2) /\
    (n = 2%nat -> fulfilled r2 = true).
Proof.
  intros Hin Hc Hrounds Hf Hresp Hw He.
  destruct (rounds_budget flag n 2 w r w' r' Hrounds Hin Hc) as (Hn & Hb & Hc' & Hin'); [lia|done|done|].
  split; [done|]. destruct (timeout_spec flag env w1 r' Hin' He Hf) as (w2 & r2 & E & _).
  exists w2, r2. split; [done|]. intros ->. destruct (fulfilled r2) eqn:Ef2; [done|].
  by destruct (round_progress flag env w' w1 r' w2 r2) as (_ & [] & _).
Qed.

(** ** Making the cgroups *)

(** The files of a cgroup hierarchy.  [create_directories] returns whether
    something was made and whether something went wrong, [remove_file] whether
    something went wrong; [dir] tells which directories there are.  Files are
    made when they are opened only with [O_CREAT], the argument of type
    [bool]. *)
Class CGroupFiles (F : Type) := {
  path_join : string -> string -> string;
  dir : F -> string -> Prop;
  is_directory : F -> string -> bool;
  create_directories : F -> string -> F * (bool * bool);
  open_for_write : bool -> F -> string -> F * bool;
  write_file : bool -> F -> string -> Z -> F * bool;
  read_file : F -> string -> option string;
  remove_file : F -> string -> F * bool
}.

Section Setup.
Context {F : Type} `{CGroupFiles F}.
Context (to_int64 : string -> option Z).

(** [cgFileFlags]: whether they have [O_CREAT]. *)
Definition cgFileFlags (opts : CGroupOptions) : bool := unitTestCreateFiles opts.

(** [writeToCGroupFile].  The messages are without the values and without the
    description of [errno]. *)
Definition writeToCGroupFile (cgfile_flags : bool) (check_read_back_fn : Z -> Z -> bool) (f : F) (errors : list string)
    (d basename : string) (value : Z) : F * list string * bool :=
  let filename := path_join d basename in
  let '(f, written) := write_file cgfile_flags f filename value in
  if negb written then (f, errors ++ ["Writing to" +:+ filename], false)
  else match read_file f filename with
       | None => (f, errors ++ ["Could not read back from " +:+ filename], false)
       | Some read_back_str =>
           match to_int64 read_back_str with
           | None => (f, errors ++ ["Read back non-int from " +:+ filename], false)
           | Some read_back =>
               if negb (check_read_back_fn value read_back)
               then (f, errors ++ ["Wrote to " +:+ filename +:+ ", but read back"], false)
               else (f, errors, true)
           end
       end.
Definition assertReadBackSameValue (written read_back : Z) : bool := written =? read_back.
(** The check of the memory limit; the difference is an [int64_t]. *)
Definition memory_read_back (written read_back : Z) : bool :=
  (written <=? read_back) && (s64 (written - read_back) <=? Z.shiftl 1 20).

(** The state of the loop: [dirs], [procs_paths] and [errors]. *)
Record SetupState := mkSetup { su_files : F; su_dirs : list string; su_procs : list string; su_errors : list string }.

(** A limit that is set in one subsystem; whether to go on. *)
Definition write_limit (check : Z -> Z -> bool) (subsystem wanted : string) (value : Z) (basename : string)
    (cgfile_flags : bool) (d : string) (s : F * list string * bool) : F * list string * bool :=
  let '(f, errors, go_on) := s in
  if go_on && bool_decide (subsystem = wanted) && negb (value =? 0)
  then writeToCGroupFile cgfile_flags check f errors d basename value else s.

Definition setup_subsystem (cgname : string) (cg : CGroupOptions) (s : SetupState) (subsystem : string)
    : SetupState :=
  let '(mkSetup f dirs procs errors) := s in
  let slice_dir := path_join (path_join (cg_root cg) subsystem) (cg_slice cg) in
  if negb (is_directory f slice_dir)
  then mkSetup f dirs procs (errors ++ ["CGroup root/subsystem/slice must be a directory: " +:+ slice_dir])
  else
    let d := path_join slice_dir cgname in
    let '(f, (made, ec)) := create_directories f d in
    if negb made
    then mkSetup f dirs procs (errors ++ [if ec then "Creating " +:+ d else "CGroup " +:+ d +:+ " already exists"])
    else
      let path := path_join d "cgroup.procs" in
      let dirs := dirs ++ [d] in
      let procs := procs ++ [path] in
      let '(f, opened) := open_for_write (cgFileFlags cg) f path in
      if negb opened then mkSetup f dirs procs (errors ++ ["Cannot write " +:+ path])
      else
        let s := writeToCGroupFile (cgFileFlags cg) assertReadBackSameValue f errors d "notify_on_release" 1 in
        let s := write_limit assertReadBackSameValue subsystem "cpu" (cg_cpuShares cg) "cpu.shares" (cgFileFlags cg) d s in
        let '(f, errors, _) :=
          write_limit memory_read_back subsystem "memory" (cg_memoryLimitInBytes cg) "memory.limit_in_bytes"
            (cgFileFlags cg) d s in
        mkSetup f dirs procs errors.

(** Removing what was made; what cannot be removed is reported. *)
Fixpoint remove_dirs (f : F) (errors : list string) (dirs : list string) : F * list string :=
  match dirs with
  | [] => (f, errors)
  | path :: dirs =>
      let '(f, ec) := remove_file f path in
      remove_dirs f (if ec then errors ++ ["Removing " +:+ path] else errors) dirs
  end.

(** [cgroupSetup]. *)
Definition cgroupSetup (cgname : string) (cg : CGroupOptions) (f : F) : F * outcome (list string) :=
  let s := foldl (setup_subsystem cgname cg) (mkSetup f [] [] []) (subsystems cg) in
  match su_errors s with
  | [] => (su_files s, Ret (su_procs s))
  | _ :: _ =>
      let '(f, errors) := remove_dirs (su_files s) (su_errors s) (su_dirs s) in
      (f, Throw ("Failed to make cgroup directories: " +:+ String.concat "; " errors))
  end.
End Setup.

(** [AddChildToCGroups], for the [errno] of each system call, 0 if it works. *)
Record AddResult := mkAdd { open_errno : Z; write_errno : Z; close_errno : Z }.
Definition add_errno (a : AddResult) : Z :=
  if negb (open_errno a =? 0) then open_errno a
  else if negb (write_errno a =? 0) then write_errno a
  else close_errno a.
Definition AddChildToCGroups (attempt : string -> AddResult) (cgroupProcsPaths_ : list string) : Z :=
  foldl (fun last_errno cgpath =>
    let e := add_errno (attempt cgpath) in if e =? 0 then last_errno else e) 0 cgroupProcsPaths_.

(** Making a directory in an existing one makes that one only, writing files
    leaves directories alone, and removing a directory that is there removes
    it and no other, or fails and leaves it.  The name of a cgroup has no
    slash, and nobody else changes the directories meanwhile. *)
Class CGroupFilesLaws (F : Type) `{CGroupFiles F} := {
  create_made (f f' : F) d name ec q : is_directory f d = true ->
    create_directories f (path_join d name) = (f', (true, ec)) ->
    ~ dir f (path_join d name) /\ (dir f' q <-> dir f q \/ q = path_join d name);
  create_not (f f' : F) d ec q : create_directories f d = (f', (false, ec)) -> (dir f' q <-> dir f q);
  open_dirs create (f : F) p q : dir (open_for_write create f p).1 q <-> dir f q;
  write_dirs create (f : F) p v q : dir (write_file create f p v).1 q <-> dir f q;
  remove_dir (f f' : F) p ec q : dir f p -> remove_file f p = (f', ec) ->
    (dir f' q <-> dir f q /\ (ec = true \/ q <> p))
}.

Section SetupFacts.
Context {F : Type} `{FL : CGroupFilesLaws F}.
Context (to_int64 : string -> option Z).
Context (cgname : string) (cg : CGroupOptions).

(** The directory of a subsystem. *)
Definition task_dir (subsystem : string) : string :=
  path_join (path_join (path_join (cg_root cg) subsystem) (cg_slice cg)) cgname.

(** What a step does to the files: only the directory that it lists is new. *)
Record setup_ok (f0 : F) (done : list string) (s : @SetupState F) : Prop := {
  sk_dirs : forall q, dir (su_files s) q <-> dir f0 q \/ q ∈ su_dirs s;
  sk_new : forall d, d ∈ su_dirs s -> ~ dir f0 d;
  sk_nodup : NoDup (su_dirs s);
  sk_tasks : forall d, d ∈ su_dirs s -> d ∈ map task_dir done;
  sk_paths : su_errors s = [] -> su_dirs s = map task_dir done /\
    su_procs s = map (fun x => path_join (task_dir x) "cgroup.procs") done
}.

Lemma write_dirs_same flags check f errors d b v q :
  dir (writeToCGroupFile to_int64 flags check f errors d b v).1.1 q <-> dir f q.
Proof using FL.
  unfold writeToCGroupFile. pose proof (write_dirs flags f (path_join d b) v q) as Hd.
  destruct (write_file flags f (path_join d b) v) as [f1 [|]]; cbn in *; [|done].
  destruct (read_file f1 _) as [x|]; [|done]. destruct (to_int64 x) as [z|]; [|done]. by destruct (check v z).
Qed.

Lemma write_errors flags check f errors d b v :
  exists more, (writeToCGroupFile to_int64 flags check f errors d b v).1.2 = errors ++ more.
Proof using.
  unfold writeToCGroupFile. destruct (write_file flags f (path_join d b) v) as [f1 [|]]; cbn; [|eauto].
  destruct (read_file f1 _) as [x|]; cbn; [|eauto]. destruct (to_int64 x) as [z|]; cbn; [|eauto].
  destruct (check v z); cbn; [|eauto]. exists []. by rewrite app_nil_r.
Qed.

Lemma limit_dirs flags check sub wanted v b d s q :
  dir (write_limit to_int64 check sub wanted v b flags d s).1.1 q <-> dir s.1.1 q.
Proof using FL.
  destruct s as [[f errors] go]. cbn. destruct (go && _ && _); [apply write_dirs_same|done].
Qed.

Lemma limit_errors flags check sub wanted v b d s :
  exists more, (write_limit to_int64 check sub wanted v b flags d s).1.2 = s.1.2 ++ more.
Proof using.
  destruct s as [[f errors] go]. cbn. destruct (go && _ && _); [apply write_errors|].
  exists []. by rewrite app_nil_r.
Qed.

(** A directory that was made is on the lists. *)
Lemma setup_adds f0 done f f' dirs procs errors errors' sub :
  setup_ok f0 done (mkSetup f dirs procs errors) -> ~ dir f (task_dir sub) ->
  (forall q, dir f' q <-> dir f q \/ q = task_dir sub) -> (errors' = [] -> errors = []) ->
  setup_ok f0 (done ++ [sub]) (mkSetup f' (dirs ++ [task_dir sub])
    (procs ++ [path_join (task_dir sub) "cgroup.procs"]) errors').
Proof using.
  clear to_int64. intros [S1 S2 S3 St S4] Hnew Hd He. cbn in *. rewrite S1 in Hnew. split; cbn.
  - intros q. rewrite Hd, S1, elem_of_app, list_elem_of_singleton. tauto.
  - intros q [Hq| ->%list_elem_of_singleton]%elem_of_app; [auto|]. intros Hq. by apply Hnew; left.
  - apply NoDup_app. split_and!; [done| |apply NoDup_singleton].
    intros x Hx ->%list_elem_of_singleton. by apply Hnew; right.
  - intros q [Hq| ->%list_elem_of_singleton]%elem_of_app; rewrite map_app, elem_of_app; [auto|]. right. by left.
  - intros E. destruct (S4 (He E)) as [-> ->]. by rewrite !map_app.
Qed.

Lemma setup_step f0 done s sub :
  setup_ok f0 done s -> setup_ok f0 (done ++ [sub]) (setup_subsystem to_int64 cgname cg s sub).
Proof using FL.
  destruct s as [f dirs procs errors]. intros Hok. pose proof Hok as [S1 S2 S3 St S4]. cbn in *.
  assert (Hsnoc : forall (l : list string) x, l ++ [x] <> []) by (by intros [|]).
  destruct (is_directory f _) eqn:Ed; cbn.
  2: { split; cbn; try done; [|by intros ?%Hsnoc]. intros q Hq. rewrite map_app. apply elem_of_app. auto. }
  destruct (create_directories f _) as [f1 [[|] ec]] eqn:Ec; cbn.
  2: { pose proof (fun q => create_not _ _ _ _ q Ec) as Hd.
       split; cbn; try done; [intros q; by rewrite Hd| |by intros ?%Hsnoc].
       intros q Hq. rewrite map_app. apply elem_of_app. auto. }
  fold (task_dir sub) in *.
  assert (Hnew : ~ dir f (task_dir sub)) by (by eapply (create_made f f1 _ _ ec (task_dir sub))).
  assert (Hd : forall q, dir f1 q <-> dir f q \/ q = task_dir sub).
  { intros q. by eapply (create_made f f1 _ _ ec q). }
  assert (Hbase : forall f2 errors', (forall q, dir f2 q <-> dir f1 q) -> (errors' = [] -> errors = []) ->
    setup_ok f0 (done ++ [sub]) (mkSetup f2 (dirs ++ [task_dir sub])
      (procs ++ [path_join (task_dir sub) "cgroup.procs"]) errors')).
  { intros f2 errors' H2 He. apply (setup_adds f0 done f f2 dirs procs errors); try done.
    intros q. by rewrite H2, Hd. }
  pose proof (open_dirs (cgFileFlags cg) f1 (path_join (task_dir sub) "cgroup.procs")) as Ho.
  destruct (open_for_write _ f1 _) as [f2 [|]]; cbn in *; [|apply Hbase; [done|by intros ?%Hsnoc]].
  set (s1 := writeToCGroupFile to_int64 (cgFileFlags cg) assertReadBackSameValue f2 errors (task_dir sub) "notify_on_release" 1).
  set (s2 := write_limit to_int64 assertReadBackSameValue sub "cpu" _ _ _ _ s1).
  set (s3 := write_limit to_int64 memory_read_back sub "memory" _ _ _ _ s2).
  assert (H3 : forall q, dir s3.1.1 q <-> dir f1 q).
  { intros q. unfold s3, s2, s1. rewrite !limit_dirs, write_dirs_same. apply Ho. }
  assert (He : exists more, s3.1.2 = errors ++ more).
  { destruct (limit_errors (cgFileFlags cg) memory_read_back sub "memory" (cg_memoryLimitInBytes cg) "memory.limit_in_bytes"
      (task_dir sub) s2) as [m3 E3]. destruct (limit_errors (cgFileFlags cg) assertReadBackSameValue sub "cpu" (cg_cpuShares cg)
      "cpu.shares" (task_dir sub) s1) as [m2 E2].
    destruct (write_errors (cgFileFlags cg) assertReadBackSameValue f2 errors (task_dir sub) "notify_on_release" 1) as [m1 E1].
    fold s1 in E1. fold s2 in E2. fold s3 in E3. rewrite E3, E2, E1, <- !app_assoc. eauto. }
  destruct s3 as [[f3 errors3] go3]. cbn in *. apply Hbase; [done|]. destruct He as [more ->].
  by intros [-> _]%app_eq_nil.
Qed.

(** What is made is removed, except for what is reported. *)
Lemma remove_made (P : string -> Prop) (f : F) errors dirs :
  (forall q, dir f q <-> P q \/ q ∈ dirs) -> (forall d, d ∈ dirs -> ~ P d) -> NoDup dirs ->
  exists f' kept, remove_dirs f errors dirs = (f', errors ++ map (String.append "Removing ") kept) /\
    (forall d, d ∈ kept -> d ∈ dirs) /\ NoDup kept /\ forall q, dir f' q <-> P q \/ q ∈ kept.
Proof using FL.
  clear to_int64 cgname cg. revert P f errors. induction dirs as [|d dirs IH]; intros P f errors Hf Hn Hnd; cbn.
  { exists f, []. rewrite app_nil_r. split_and!; done. }
  apply NoDup_cons in Hnd as [Hd Hnd]. destruct (remove_file f d) as [f1 ec] eqn:Er.
  pose proof (fun q => remove_dir f f1 d ec q ltac:(apply Hf; right; by left) Er) as Hr.
  assert (Hf1 : forall q, dir f1 q <-> (P q \/ ec = true /\ q = d) \/ q ∈ dirs).
  { intros q. rewrite Hr, Hf, elem_of_cons. assert (P q -> q <> d) by (intros ? ->; apply (Hn d); [by left|done]).
    assert (q ∈ dirs -> q <> d) by congruence. destruct (decide (q = d)); tauto. }
  destruct (IH (fun q => P q \/ ec = true /\ q = d) f1 (if ec then errors ++ ["Removing " +:+ d] else errors))
    as (f' & kept & E & K1 & K2 & K3); [done| |done|].
  { intros q Hq [Hp|[_ ->]]; [|done]. apply (Hn q); [by right|done]. }
  rewrite E. destruct ec.
  - exists f', (d :: kept). rewrite <- app_assoc. split; [done|]. split_and!.
    + intros q [->|Hq]%elem_of_cons; [by left|right; auto].
    + constructor; [auto|done].
    + intros q. rewrite K3, elem_of_cons. tauto.
  - exists f', kept. split; [done|]. split_and!; [intros; right; auto|done|]. intros q. rewrite K3. naive_solver.
Qed.

Lemma setup_all f : setup_ok f (subsystems cg)
  (foldl (setup_subsystem to_int64 cgname cg) (mkSetup f [] [] []) (subsystems cg)).
Proof using FL.
  assert (Hgen : forall todo done s, setup_ok f done s ->
    setup_ok f (done ++ todo) (foldl (setup_subsystem to_int64 cgname cg) s todo)).
  { induction todo as [|x todo IH]; intros done s H0; cbn; [by rewrite app_nil_r|].
    rewrite cons_middle, app_assoc. by apply IH, setup_step. }
  apply (Hgen (subsystems cg) []). split; cbn; try done; [|by intros d ?%not_elem_of_nil|constructor].
  intros q. split; [auto|by intros [?|?%not_elem_of_nil]].
Qed.

(** C36: [cgroupSetup] makes all cgroups, or none but those that cannot be
    removed again: when it returns, there is one new directory for each
    subsystem, and the paths are those of their "cgroup.procs"; when it throws,
    the directories are those from before and the directories of the task
    whose removal failed, and its message lists what went wrong first and then
    exactly these directories. *)
Theorem cgroupSetup_all_or_nothing f :
  match cgroupSetup to_int64 cgname cg f with
  | (f', Ret paths) => paths = map (fun x => path_join (task_dir x) "cgroup.procs") (subsystems cg) /\
      NoDup (map task_dir (subsystems cg)) /\
      forall q, dir f' q <-> dir f q \/ q ∈ map task_dir (subsystems cg)
  | (f', Throw message) => exists errors kept, errors <> [] /\
      message = "Failed to make cgroup directories: " +:+
        String.concat "; " (errors ++ map (String.append "Removing ") kept) /\
      (forall d, d ∈ kept -> d ∈ map task_dir (subsystems cg) /\ ~ dir f d) /\ NoDup kept /\
      forall q, dir f' q <-> dir f q \/ q ∈ kept
  | _ => False
  end.
Proof using FL.
  unfold cgroupSetup. pose proof (setup_all f) as Hs.
  destruct (foldl _ _ _) as [f' dirs procs errors]. destruct Hs as [S1 S2 S3 St S4]. cbn in *.
  destruct errors as [|e errors]; [destruct S4 as [-> ->]; done|].
  destruct (remove_made (dir f) f' (e :: errors) dirs S1 S2 S3) as (f1 & kept & -> & K1 & K2 & K3).
  exists (e :: errors), kept. split_and!; [done|done|auto|done|done].
Qed.
End SetupFacts.

(** The child is started exactly if it was added to all cgroups. *)
Theorem AddChild_all attempt paths :
  AddChildToCGroups attempt paths = 0 <-> forall p, p ∈ paths -> add_errno (attempt p) = 0.
Proof.
  unfold AddChildToCGroups. rewrite <- (rev_involutive paths). induction (rev paths) as [|p l IH].
  { split; [by intros _ p ?%not_elem_of_nil|done]. }
  cbn [rev]. rewrite foldl_app. cbn. split.
  - destruct (Z.eqb_spec (add_errno (attempt p)) 0) as [E|E]; [|done].
    intros H0 q [Hq|Hq%list_elem_of_singleton]%elem_of_app; [by apply IH|by subst].
  - intros Hall. rewrite (Hall p) by (apply elem_of_app; right; by left). cbn. apply IH.
    intros q Hq. apply Hall, elem_of_app. by left.
Qed.

(** ** Samples *)

Definition no_failures : Env := mkEnv ∅ false ∅ false false false ∅.
Definition with_freezer : CGroupOptions := mkCGroupOptions "/cg" "bistro" ["freezer"] false 0 0 false.
Definition one_process (st : FreezerState) (signals : list Z) : World :=
  mkWorld {["freezer" := [7]]} st signals.
Definition sample_reaper (cur total : Z) : AsyncCGroupReaper := mkReaper with_freezer 10 10000 cur total 0 false.

Lemma no_failures_ok w : env_ok w no_failures.
Proof. intros pid _. apply not_elem_of_empty. Qed.


(** A kernel that does what is asked between timeouts. *)
Lemma sample_responsive w w' :
  rtc kernel_step w w' -> w_freezer w' <> FREEZING -> w_signals w = [] ->
  w_procs w' = w_procs w -> responsive w w'.
Proof.
  intros H1 H2 H3 H4. split_and!; [done|done| |].
  - intros _ s pids pid _ _. rewrite H3. apply not_elem_of_nil.
  - intros s pids pid E Hp. rewrite H4 in E. eauto.
Qed.

Lemma reaper_finishes_witness :
  exists w1 w2 r2, rounds 10000 2 (one_process THAWED []) (sample_reaper 10 0)
      (one_process THAWED [7]) (sample_reaper 160 50) /\
    responsive (one_process THAWED [7]) w1 /\
    timeoutExpired 10000 no_failures w1 (sample_reaper 160 50) = Ret (w2, r2) /\ fulfilled r2 = true.
Proof.
  assert (Hc : covered (one_process THAWED [])).
  { intros s pids pid E Hp. cbn in E. apply lookup_singleton_Some in E as [<- <-]. by exists [7]. }
  assert (Hw : works no_failures) by done.
  assert (Hr : rounds 10000 2 (one_process THAWED []) (sample_reaper 10 0)
      (one_process THAWED [7]) (sample_reaper 160 50)).
  { eapply rounds_more; [done|by apply (sample_responsive _ (one_process THAWED []))|exact Hw|apply no_failures_ok
      |vm_compute; reflexivity|].
    eapply rounds_more; [done|apply (sample_responsive _ (one_process FROZEN [])); try done|exact Hw|apply no_failures_ok
      |vm_compute; reflexivity|apply rounds_none].
    apply rtc_once. by apply (kernel_frozen (one_process FREEZING [])). }
  assert (Hresp : responsive (one_process THAWED [7]) (mkWorld {["freezer" := []]} THAWED [7])).
  { split_and!; [|done| |].
    - apply rtc_once. apply (kernel_exit (one_process THAWED [7]) 7). by intros [? _].
    - intros _ s pids pid E Hp. cbn in E. apply lookup_singleton_Some in E as [<- <-]. by apply not_elem_of_nil in Hp.
    - intros s pids pid E Hp. cbn in E. apply lookup_singleton_Some in E as [<- <-]. by apply not_elem_of_nil in Hp. }
  destruct (reaper_finishes 10000 2 _ (sample_reaper 10 0) _ _ _ no_failures ltac:(by left) Hc Hr eq_refl Hresp Hw (no_failures_ok _))
    as (_ & w2 & r2 & E & Hf).
  exists (mkWorld {["freezer" := []]} THAWED [7]), w2, r2. split_and!; [exact Hr|exact Hresp|exact E|by apply Hf].
Defined.

(** Without a freezer, a process that ends before it is killed ends the worker
    too. *)
Theorem unfrozen_kill_aborts :
  timeoutExpired 10000 (mkEnv ∅ false ∅ false false false {[7]}) (mkWorld {["cpu" := [7]]} THAWED [])
    (mkReaper (mkCGroupOptions "/cg" "bistro" ["cpu"] false 0 0 true) 10 10000 10 0 0 false)
  = Crash "Failed to kill".
Proof. vm_compute. reflexivity. Qed.

(** The check of the memory limit has no upper bound. *)
Theorem memory_check_unbounded written read_back :
  0 <= written -> written <= read_back < 2 ^ 63 -> memory_read_back written read_back = true.
Proof.
  intros H1 H2. unfold memory_read_back. rewrite s64_id by (unfold is_s64; lia).
  change (Z.shiftl 1 20) with 1048576. lia.
Qed.

(** Directories and files in memory, as those of the unit test: a directory
    with files in it cannot be removed; a memory limit is rounded up. *)
#[export] Instance memory_files : CGroupFiles (gset string * gmap string string) := {
  path_join a b := (a +:+ "/" +:+ b)%string;
  dir f q := q ∈ f.1;
  is_directory f d := bool_decide (d ∈ f.1);
  create_directories f p := if bool_decide (p ∈ f.1) then (f, (false, false)) else (({[p]} ∪ f.1, f.2), (true, false));
  open_for_write create f p :=
    if bool_decide (is_Some (f.2 !! p)) then (f, true)
    else if create then ((f.1, <[p := ""]> f.2), true) else (f, false);
  write_file create f p v :=
    if create || bool_decide (is_Some (f.2 !! p))
    then ((f.1, <[p := if v =? 1 then "1" else "2048"]> f.2), true) else (f, false);
  read_file f p := f.2 !! p;
  remove_file f p :=
    if existsb (fun kv => String.prefix (p +:+ "/") kv.1) (map_to_list f.2) then (f, true)
    else ((f.1 ∖ {[p]}, f.2), false)
}.

#[export] Instance memory_files_laws : CGroupFilesLaws (gset string * gmap string string).
Proof.
  split; cbn.
  - intros f f' d name ec q _. case_bool_decide as Hd; [done|]. intros [= <- _]. split; [done|]. cbn.
    rewrite elem_of_union, elem_of_singleton. tauto.
  - intros f f' d ec q. case_bool_decide; [|done]. by intros [= <- _].
  - intros create f p q. case_bool_decide; [done|]. by destruct create.
  - intros create f p v q. by destruct (create || _).
  - intros f f' p ec q _. case_match; intros [= <- <-]; [naive_solver|].
    cbn. rewrite elem_of_difference, elem_of_singleton. naive_solver.
Qed.

Definition sample_int64 (s : string) : option Z :=
  if bool_decide (s = "1") then Some 1 else if bool_decide (s = "2048") then Some 2048 else None.

Definition sample_cgroups : CGroupOptions :=
  mkCGroupOptions "/cg" "bistro" ["cpu"; "memory"] true 0 1024 false.
Definition sample_slices : gset string * gmap string string := ({["/cg/cpu/bistro"; "/cg/memory/bistro"]}, ∅).

Lemma cgroupSetup_all_or_nothing_witness :
  exists f, cgroupSetup sample_int64 "task" sample_cgroups sample_slices
    = (f, Ret ["/cg/cpu/bistro/task/cgroup.procs"; "/cg/memory/bistro/task/cgroup.procs"]) /\
    forall q, dir f q <-> dir sample_slices q \/ q ∈ ["/cg/cpu/bistro/task"; "/cg/memory/bistro/task"].
Proof.
  pose proof (cgroupSetup_all_or_nothing sample_int64 "task" sample_cgroups sample_slices) as H.
  assert (E : (cgroupSetup sample_int64 "task" sample_cgroups sample_slices).2
    = Ret ["/cg/cpu/bistro/task/cgroup.procs"; "/cg/memory/bistro/task/cgroup.procs"]) by (vm_compute; reflexivity).
  destruct (cgroupSetup _ _ _ _) as [f r]. cbn in E. subst r. destruct H as (_ & _ & Hd). exists f. split; [done|exact Hd].
Defined.

(** The case of the unit test: the first slice is missing, the cgroup of the
    last one exists, and the directory that was made is not empty, so it
    stays and is reported. *)
Example setup_keeps_directory :
  let f : gset string * gmap string string :=
    ({["root/sys1/slice"; "root/sys3/slice"; "root/sys3/slice/name"]}, ∅) in
  let (f', r) := cgroupSetup sample_int64 "name"
    (mkCGroupOptions "root" "slice" ["sys2"; "sys1"; "sys3"] true 0 0 false) f in
  dir f' "root/sys1/slice/name" /\
  r = Throw ("Failed to make cgroup directories: " +:+
    "CGroup root/subsystem/slice must be a directory: root/sys2/slice; " +:+
    "CGroup root/sys3/slice/name already exists; " +:+ "Removing root/sys1/slice/name").
Proof.
  cbv zeta. destruct (cgroupSetup _ _ _ _) as [f' r] eqn:E. vm_compute in E. injection E as <- <-.
  split; [by vm_compute|vm_compute; reflexivity].
Qed.
