(* ===== verification/Logs.v ===== *)
(** Task logs: [utils/LogLines.h], the store of a worker ([utils/LogWriter.cpp]
    with [BistroWorkerHandler::getJobLogsByID]), and how the scheduler merges
    what the workers return into pages ([RemoteWorkerRunner::getJobLogs]).

    SQLite is the class [LogDatabase]: a table has rows by [time_and_count], and
    a query returns the first of the matching rows in order.  Regular
    expressions and [std::sort] are parameters, a worker's answer is its logs or
    an error. *)

From stdpp Require Import base gmap strings list sorting.
From Stdlib Require Import ZArith Lia.
From S2P Require Import Prelude.
From S2P Require Import Thrift WorkerState RemoteWorker RemoteWorkers.

#[local] Open Scope Z_scope.

(** ** Lines and their IDs *)

Definition kNotALineID : Z := -1.

Record LogLine := mkLogLine {
  ll_jobID : string;
  ll_nodeID : string;
  ll_time : Z;
  ll_line : string;
  ll_lineID : Z
}.
Record LogLines := mkLogLines { lines : list LogLine; nextLineID : Z }.

Definition makeLineID (time count : Z) : Z := Z.lor (Z.shiftl time 32) count.
Definition lineIDFromTime (time : Z) (is_ascending : bool) : Z :=
  makeLineID time (if is_ascending then 0 else 2 ^ 32 - 1).
Definition timeFromLineID (line_id : Z) : Z := s32 (Z.shiftr line_id 32).

(** ** The store of a worker *)

(** A row without its key. *)
Record Row := mkRow { row_job : string; row_node : string; row_line : string }.

(** A [SELECT] of [getJobLogs]. *)
Record Query := mkQuery {
  q_jobs : list string;             (* "job_id IN (...)" unless empty *)
  q_nodes : list string;            (* "node_id IN (...)" unless empty *)
  q_line_id : option Z;             (* "time_and_count >= ?", or <= *)
  q_ascending : bool;
  q_limit : Z
}.

Class LogDatabase (T : Type) := {
  db_rows : T -> gmap Z Row;
  db_insert : T -> Z -> Row -> outcome T;
  db_delete_before : T -> Z -> T;
  db_select : T -> Query -> list (Z * Row)
}.

Inductive LogTable := STDERR | STDOUT | EVENTS.
#[global] Instance LogTable_eq_dec : EqDecision LogTable.
Proof. solve_decision. Defined.

Record LogWriter (T : Type) := mkLogWriter {
  lw_stderr : T;
  lw_stdout : T;
  lw_events : T;
  counter_ : Z
}.
Arguments mkLogWriter {T}. Arguments lw_stderr {T}. Arguments lw_stdout {T}.
Arguments lw_events {T}. Arguments counter_ {T}.

Section Writer.
Context {T : Type} `{LogDatabase T}.
Context (regex_search : string -> string -> bool).

Definition lw_table (w : LogWriter T) (t : LogTable) : T :=
  match t with STDERR => lw_stderr w | STDOUT => lw_stdout w | EVENTS => lw_events w end.
Definition set_table (w : LogWriter T) (t : LogTable) (x : T) : LogWriter T :=
  match t with
  | STDERR => mkLogWriter x (lw_stdout w) (lw_events w) (counter_ w)
  | STDOUT => mkLogWriter (lw_stderr w) x (lw_events w) (counter_ w)
  | EVENTS => mkLogWriter (lw_stderr w) (lw_stdout w) x (counter_ w)
  end.

(** [write]: the counter is advanced even if the row cannot be inserted. *)
Definition write (w : LogWriter T) (now : Z) (t : LogTable) (job node line : string)
    : LogWriter T * outcome unit :=
  let id := makeLineID (s32 now) (counter_ w) in
  let w := mkLogWriter (lw_stderr w) (lw_stdout w) (lw_events w) (u32 (counter_ w + 1)) in
  match db_insert (lw_table w t) id (mkRow job node line) with
  | Ret x => (set_table w t x, Ret tt)
  | Throw e => (w, Throw e)
  | Crash e => (w, Crash e)
  | Undef e => (w, Undef e)
  end.

(** [prune]. *)
Definition prune (FLAGS_log_retention : Z) (w : LogWriter T) (now : Z) : LogWriter T :=
  let cutoff := makeLineID (s32 (now - FLAGS_log_retention)) INT32_MAX in
  mkLogWriter (db_delete_before (lw_stderr w) cutoff) (db_delete_before (lw_stdout w) cutoff)
    (db_delete_before (lw_events w) cutoff) (counter_ w).

Definition logtype_table (logtype : string) : outcome LogTable :=
  if bool_decide (logtype = "stderr") then Ret STDERR
  else if bool_decide (logtype = "stdout") then Ret STDOUT
  else if bool_decide (logtype = "statuses") then Ret EVENTS
  else Throw "Unknown table for logs".

(** [getJobLogs]; [res.lines.size() <= limit] compares unsigned numbers. *)
Definition query_line (re : string) (r : Z * Row) : option LogLine :=
  if regex_search re (row_line r.2)
  then Some (mkLogLine (row_job r.2) (row_node r.2) (timeFromLineID r.1) (row_line r.2) r.1)
  else None.
Definition writer_getJobLogs (w : LogWriter T) (logtype : string) (jobs nodes : list string) (line_id : Z)
    (is_ascending : bool) (limit : Z) (regex_filter : string) : outcome LogLines :=
  let* t := logtype_table logtype in
  if limit =? INT32_MAX then Undef "limit + 1"
  else
    let q := mkQuery jobs nodes (if line_id =? kNotALineID then None else Some line_id) is_ascending (limit + 1) in
    let res := omap (query_line regex_filter) (db_select (lw_table w t) q) in
    if (limit <? 0) || (Z.of_nat (length res) <=? limit) then Ret (mkLogLines res kNotALineID)
    else match last res with
         | Some l => Ret (mkLogLines (removelast res) (ll_lineID l))
         | None => Undef "res.lines.back()"
         end.

(** [BistroWorkerHandler::getJobLogsByID], which copies the lines one by one. *)
Definition getJobLogsByID (w : LogWriter T) (logtype : string) (jobs nodes : list string) (line_id : Z)
    (is_ascending : bool) (limit : Z) (regex_filter : string) : outcome LogLines :=
  let* log := writer_getJobLogs w logtype jobs nodes line_id is_ascending limit regex_filter in
  Ret (mkLogLines (map (fun l => mkLogLine (ll_jobID l) (ll_nodeID l) (ll_time l) (ll_line l) (ll_lineID l))
         (lines log)) (nextLineID log)).
End Writer.

(** ** Merging the answers of the workers *)

Section Merge.
Context (sort_lines : bool -> list LogLine -> list LogLine).
Context (is_ascending : bool).

(** The most restrictive [nextLineID]. *)
Definition next_step (next : Z) (log : LogLines) : Z :=
  if negb (nextLineID log =? kNotALineID) &&
     ((next =? kNotALineID) || Bool.eqb (nextLineID log <? next) is_ascending)
  then nextLineID log else next.
Definition merge_next (results : list LogLines) : Z := foldl next_step kNotALineID results.

(** The lines that are not beyond it. *)
Definition keep_line (next : Z) (l : LogLine) : bool :=
  (next =? kNotALineID) || Bool.eqb (ll_lineID l <? next) is_ascending.
Definition merge_lines (next : Z) (results : list LogLines) : list LogLine :=
  concat (map (fun log => List.filter (keep_line next) (lines log)) results).

(** A line that stands for an error. *)
Definition error_line (cur_time : Z) (err : string) : LogLine :=
  mkLogLine "" "" (s32 cur_time) err kNotALineID.

(** The limit of each worker; there is at least one. *)
Definition worker_limit (num_services : nat) : Z := Z.max (5000 / Z.of_nat num_services) 100.

(** [getJobLogsThreadAndEventBaseSafe], with the answers of the workers. *)
Definition getJobLogsThreadAndEventBaseSafe (cur_time : Z) (unqueried_workers : string)
    (answers : list (outcome LogLines)) : LogLines :=
  let warning := if bool_decide (unqueried_workers = "") then [] else
    [error_line cur_time ("Warning: some workers are unhealthy -- " +:+ unqueried_workers)] in
  let errors := omap (fun a => match a with
    | Ret _ => None
    | _ => Some (error_line cur_time "Failed to fetch logs from worker")
    end) answers in
  let results := omap (fun a => match a with Ret log => Some log | _ => None end) answers in
  let next := merge_next results in
  mkLogLines (sort_lines is_ascending (warning ++ errors ++ merge_lines next results)) next.
End Merge.

(** [RemoteWorkerRunner::getJobLogs]: the workers that are asked, and the
    names of the others. *)
Definition log_services (pool : list (string * RemoteWorker)) : list (string * RemoteWorker) :=
  List.filter (fun p => match getState p.2 with UNHEALTHY | MUST_DIE => false | _ => true end) pool.
Definition shards_in (st : State) (pool : list (string * RemoteWorker)) : list string :=
  map (fun p => bw_shard (worker_ p.2)) (List.filter (fun p => bool_decide (getState p.2 = st)) pool).
Definition unqueried (pool : list (string * RemoteWorker)) : string :=
  let unhealthy := shards_in UNHEALTHY pool in
  let lost := shards_in MUST_DIE pool in
  ((if bool_decide (unhealthy = []) then "" else "unhealthy: " +:+ String.concat ", " unhealthy) +:+
   (if bool_decide (lost = []) then "" else
     (if bool_decide (unhealthy = []) then "" else "; ") +:+ "lost: " +:+ String.concat ", " lost))%string.

(** [ask] is the call to a worker, with the limit. *)
Definition getJobLogs (sort_lines : bool -> list LogLine -> list LogLine) (cur_time : Z)
    (pool : list (string * RemoteWorker)) (ask : string -> Z -> outcome LogLines) (is_ascending : bool)
    : outcome LogLines :=
  let services := log_services pool in
  if bool_decide (services = []) then
    Throw (if bool_decide (unqueried pool = "") then "No workers connected; cannot query logs."
           else "All workers are unhealthy; cannot query logs.")
  else Ret (getJobLogsThreadAndEventBaseSafe sort_lines is_ascending cur_time (unqueried pool)
              (map (fun p => ask p.1 (worker_limit (length services))) services)).

(** ** Line IDs *)

Lemma makeLineID_eq t c : 0 <= c < 2 ^ 32 -> makeLineID t c = t * 2 ^ 32 + c.
Proof.
  intros Hc. unfold makeLineID. rewrite <- Z.shiftl_mul_pow2 by lia.
  assert (Hl : Z.land (Z.shiftl t 32) c = 0).
  { apply Z.bits_inj'. intros n Hn. rewrite Z.land_spec, Z.bits_0, Z.shiftl_spec by lia.
    destruct (Z.ltb_spec n 32).
    - by rewrite Z.testbit_neg_r by lia.
    - rewrite <- (Z.mod_small c (2 ^ 32)) by lia. rewrite Z.mod_pow2_bits_high by lia. apply andb_false_r. }
  rewrite <- Z.lxor_lor by done. symmetry. by apply Z.add_nocarry_lxor.
Qed.

(** The ID of a line tells its time; IDs are ordered by the time and then by
    the count, so that a query from a time on, in either direction, starts at
    the first or last line of that second. *)
Theorem line_ids t c t' c' :
  is_s32 t -> 0 <= c < 2 ^ 32 -> is_s32 t' -> 0 <= c' < 2 ^ 32 ->
  timeFromLineID (makeLineID t c) = t /\
  (makeLineID t c < makeLineID t' c' <-> t < t' \/ t = t' /\ c < c') /\
  (t < t' <-> makeLineID t c < lineIDFromTime t' true) /\
  (t <= t' <-> makeLineID t c <= lineIDFromTime t' false).
Proof.
  intros Ht Hc Ht' Hc'. unfold lineIDFromTime, timeFromLineID. rewrite !makeLineID_eq by lia. split.
  - rewrite Z.shiftr_div_pow2, Z.div_add_l by lia. rewrite Z.div_small by lia. rewrite Z.add_0_r. by apply s32_id.
  - unfold is_s32 in *. lia.
Qed.

(** ** Pages *)

(** In the order of a query. *)
Definition beforeb (asc : bool) (a b : Z) : bool := if asc then a <? b else b <? a.
Definition fromb (asc : bool) (s id : Z) : bool := (s =? kNotALineID) || negb (beforeb asc id s).
Definition keptb (asc : bool) (next : Z) (l : LogLine) : bool :=
  (next =? kNotALineID) || beforeb asc (ll_lineID l) next.

Lemma filter_perm {A} (f : A -> bool) l l' : l ≡ₚ l' -> List.filter f l ≡ₚ List.filter f l'.
Proof.
  induction 1 as [|x l l' _ IH|x y l|l1 l2 l3 _ IH1 _ IH2]; cbn; [done| | |by etrans].
  - destruct (f x); [by constructor|done].
  - destruct (f x), (f y); try done. constructor.
Qed.

Lemma filter_split {A} (f : A -> bool) l : l ≡ₚ List.filter f l ++ List.filter (fun x => negb (f x)) l.
Proof.
  induction l as [|x l IH]; cbn; [done|]. destruct (f x); cbn; [by constructor|].
  rewrite IH at 1. apply Permutation_middle.
Qed.

Lemma filter_filter {A} (f g : A -> bool) l : List.filter f (List.filter g l) = List.filter (fun x => g x && f x) l.
Proof. induction l as [|x l IH]; cbn; [done|]. destruct (g x); cbn; [|done]. destruct (f x); by rewrite IH. Qed.

Lemma concat_perm {A} (L L' : list (list A)) : Forall2 Permutation L L' -> concat L ≡ₚ concat L'.
Proof. induction 1; cbn; [done|]. by f_equiv. Qed.

Lemma map_pointwise_perm {A B} (f g : A -> list B) l :
  (forall x, x ∈ l -> f x ≡ₚ g x) -> Forall2 Permutation (map f l) (map g l).
Proof.
  induction l as [|x l IH]; intros H; constructor; [apply H; by left|]. apply IH. intros. apply H. by right.
Qed.

Lemma filter_concat_nil {A B} (f g : A -> bool) (h : B -> list A) l p :
  p ∈ l -> List.filter f (List.filter g (concat (map h l))) = [] -> List.filter f (List.filter g (h p)) = [].
Proof.
  induction l as [|x l IH]; [by intros ?%not_elem_of_nil|]. cbn. rewrite !List.filter_app.
  intros [->|Hp]%elem_of_cons [E1 E2]%app_eq_nil; auto.
Qed.

(** Strictly in order. *)
Abbreviation in_order asc := (StronglySorted (fun a b => beforeb asc (ll_lineID a) (ll_lineID b) = true)).

Lemma beforeb_trans asc a b c : beforeb asc a b = true -> beforeb asc b c = true -> beforeb asc a c = true.
Proof. destruct asc; cbn; rewrite !Z.ltb_lt; lia. Qed.
Lemma beforeb_irrefl asc a : beforeb asc a a = false.
Proof. destruct asc; cbn; apply Z.ltb_irrefl. Qed.
Lemma beforeb_asym asc a b : beforeb asc a b = true -> beforeb asc b a = false.
Proof. destruct asc; cbn; rewrite Z.ltb_lt, Z.ltb_ge; lia. Qed.

(** The lines before the one at an index are those that precede it. *)
Lemma take_before asc L n x :
  in_order asc L -> L !! n = Some x -> ll_lineID x <> kNotALineID ->
  List.filter (keptb asc (ll_lineID x)) L = take n L.
Proof.
  intros Hs. revert n. induction Hs as [|y L Hs IH Hy]; intros n Hn Hid; [done|].
  assert (Hk : forall z, keptb asc (ll_lineID x) z = beforeb asc (ll_lineID z) (ll_lineID x)).
  { intros z. unfold keptb. by destruct (Z.eqb_spec (ll_lineID x) kNotALineID). }
  destruct n as [|n]; cbn in *.
  - injection Hn as ->. rewrite Hk, beforeb_irrefl. rewrite Forall_forall in Hy.
    clear IH Hs. induction L as [|z L IH]; cbn; [done|]. rewrite Hk, beforeb_asym by (apply Hy; by left).
    apply IH. intros w Hw. apply Hy. by right.
  - rewrite Hk, (proj1 (Forall_forall _ _) Hy x) by (apply list_elem_of_lookup; eauto). by rewrite (IH n).
Qed.

(** ** The answer of a worker *)

Definition sql_limit {A} (n : Z) (l : list A) : list A := if n <? 0 then l else take (Z.to_nat n) l.

(** The rows a query asks for. *)
Definition matches (q : Query) (p : Z * Row) : bool :=
  (bool_decide (q_jobs q = []) || bool_decide (row_job p.2 ∈ q_jobs q)) &&
  (bool_decide (q_nodes q = []) || bool_decide (row_node p.2 ∈ q_nodes q)) &&
  match q_line_id q with None => true | Some s => negb (beforeb (q_ascending q) p.1 s) end.

(** What is used of SQLite: keys are unique, and a query returns the first of
    the rows that match, in order. *)
Class LogDatabaseLaws (T : Type) `{LogDatabase T} := {
  insert_new (t : T) id r : db_rows t !! id = None ->
    exists t', db_insert t id r = Ret t' /\ db_rows t' = <[id := r]> (db_rows t);
  insert_old (t : T) id r : db_rows t !! id <> None -> exists e, db_insert t id r = Throw e;
  delete_before (t : T) cutoff id : db_rows (db_delete_before t cutoff) !! id =
    if id <? cutoff then None else db_rows t !! id;
  select_first (t : T) q : exists l, l ≡ₚ List.filter (matches q) (map_to_list (db_rows t)) /\
    StronglySorted (fun a b => beforeb (q_ascending q) a.1 b.1 = true) l /\
    db_select t q = sql_limit (q_limit q) l
}.

Definition row_line_of (p : Z * Row) : LogLine :=
  mkLogLine (row_job p.2) (row_node p.2) (timeFromLineID p.1) (row_line p.2) p.1.

Section Worker.
Context {T : Type} `{DL : LogDatabaseLaws T}.
Context (regex_search : string -> string -> bool) (re : string).
Context (Hre : forall s, regex_search re s = true).
Context (jobs nodes : list string) (asc : bool).

(** All lines of a table for some jobs and nodes. *)
Definition stored_lines (t : T) : list LogLine :=
  map row_line_of (List.filter (matches (mkQuery jobs nodes None asc 0)) (map_to_list (db_rows t))).

Definition ids_ok (t : T) : Prop := forall id r, db_rows t !! id = Some r -> id <> kNotALineID.

Lemma stored_ids t l : ids_ok t -> l ∈ stored_lines t -> ll_lineID l <> kNotALineID.
Proof using.
  intros Hi Hl. unfold stored_lines in Hl. apply list_elem_of_fmap in Hl as ([id r] & -> & Hin).
  apply list_elem_of_In, filter_In in Hin as [Hin _]. apply list_elem_of_In, elem_of_map_to_list in Hin. by eapply Hi.
Qed.

(** The lines of a query before the limit. *)
Lemma query_lines t s limit :
  exists L, L ≡ₚ List.filter (fun l => fromb asc s (ll_lineID l)) (stored_lines t) /\ in_order asc L /\
    omap (query_line regex_search re) (db_select t (mkQuery jobs nodes
      (if s =? kNotALineID then None else Some s) asc limit)) = sql_limit limit L.
Proof using DL Hre.
  set (q := mkQuery jobs nodes _ asc limit).
  destruct (select_first t q) as (l & Hp & Hs & E). exists (map row_line_of l). split_and!.
  - rewrite Hp. clear Hp Hs E. unfold stored_lines. induction (map_to_list (db_rows t)) as [|p ps IH]; [done|]. cbn [List.filter].
    assert (Hm : matches q p = matches (mkQuery jobs nodes None asc 0) p && fromb asc s p.1).
    { unfold matches, q, fromb. cbn. destruct (s =? kNotALineID); cbn; by rewrite ?andb_true_r. }
    rewrite Hm. clear Hm. destruct (matches (mkQuery jobs nodes None asc 0) p); cbn [andb map List.filter]; [|exact IH].
    change (ll_lineID (row_line_of p)) with p.1.
    destruct (fromb asc s p.1); cbn [map]; [by apply perm_skip|exact IH].
  - clear -Hs. induction Hs as [|p l _ IH Hp]; cbn; constructor; [done|]. by apply Forall_map.
  - rewrite E. change (q_limit q) with limit. clear -Hre. unfold sql_limit.
    assert (Ho : forall l, omap (query_line regex_search re) l = map row_line_of l).
    { intros l0. induction l0 as [|p l0 IH]; [done|]. cbn. unfold query_line at 1. rewrite Hre.
      by rewrite <- IH. }
    rewrite Ho. destruct (limit <? 0); [done|]. apply fmap_take.
Qed.

(** What a worker returns, from a line on. *)
Record answer_ok (t : T) (s : Z) (log : LogLines) : Prop := {
  an_lines : lines log ≡ₚ List.filter (keptb asc (nextLineID log))
    (List.filter (fun l => fromb asc s (ll_lineID l)) (stored_lines t));
  an_next : nextLineID log <> kNotALineID -> lines log <> [] /\
    exists x, x ∈ stored_lines t /\ ll_lineID x = nextLineID log /\ fromb asc s (ll_lineID x) = true
}.

Lemma writer_answers w logtype table s limit :
  logtype_table logtype = Ret table -> ids_ok (lw_table w table) -> 1 <= limit < INT32_MAX ->
  exists log, writer_getJobLogs regex_search w logtype jobs nodes s asc limit re = Ret log /\
    answer_ok (lw_table w table) s log.
Proof using DL Hre.
  intros Et Hids Hlim. unfold writer_getJobLogs. rewrite Et. cbn [mbind outcome_bind].
  destruct (Z.eqb_spec limit INT32_MAX); [lia|].
  destruct (query_lines (lw_table w table) s (limit + 1)) as (L & Hp & Hs & ->).
  unfold sql_limit. destruct (Z.ltb_spec (limit + 1) 0); [lia|]. destruct (Z.ltb_spec limit 0); [lia|]. cbn [orb].
  destruct (Z.leb_spec (Z.of_nat (length (take (Z.to_nat (limit + 1)) L))) limit) as [Hle|Hgt].
  - rewrite length_take in Hle. rewrite take_ge in * by lia. eexists. split; [done|]. split; cbn; [|done].
    rewrite Hp, filter_filter. erewrite (List.filter_ext (fun x => fromb asc s (ll_lineID x) && _)); [done|].
    intros l. by rewrite andb_true_r.
  - rewrite length_take in Hgt. replace (Z.to_nat (limit + 1)) with (S (Z.to_nat limit)) by lia.
    destruct (lookup_lt_is_Some_2 L (Z.to_nat limit)) as [x Hx]; [lia|].
    rewrite (take_S_r _ _ _ Hx), last_snoc, removelast_last. eexists. split; [done|].
    assert (Hxs : x ∈ List.filter (fun l => fromb asc s (ll_lineID l)) (stored_lines (lw_table w table))).
    { rewrite <- Hp. by eapply list_elem_of_lookup_2. }
    apply list_elem_of_In, filter_In in Hxs as [Hin Hf]. apply list_elem_of_In in Hin.
    pose proof (stored_ids _ _ Hids Hin) as Hid. split; cbn.
    + rewrite <- (take_before asc L _ x) by done. by apply filter_perm.
    + intros _. split; [|by exists x]. intros E%(f_equal length). rewrite length_take in E. cbn in E. lia.
Qed.
End Worker.

(** ** All pages *)

(** [next] is the first of the next lines. *)
Lemma next_spec asc logs next0 :
  let next := foldl (next_step asc) next0 logs in
  (next = next0 \/ exists log, log ∈ logs /\ nextLineID log = next) /\
  (next = kNotALineID -> next0 = kNotALineID /\ forall log, log ∈ logs -> nextLineID log = kNotALineID) /\
  (next <> kNotALineID -> (next0 <> kNotALineID -> beforeb asc next0 next = false) /\
     forall log, log ∈ logs -> nextLineID log <> kNotALineID -> beforeb asc (nextLineID log) next = false).
Proof.
  revert next0. induction logs as [|log logs IH]; intros next0 next; cbn in next.
  { split_and!; [by left|intros E; split; [exact E|by intros ? ?%not_elem_of_nil]|].
    intros _. split; [intros _; apply beforeb_irrefl|by intros ? ?%not_elem_of_nil]. }
  destruct (IH (next_step asc next0 log)) as (H1 & H2 & H3). fold next in H1, H2, H3.
  assert (Hstep : (next_step asc next0 log = next0 \/ next_step asc next0 log = nextLineID log) /\
    (next_step asc next0 log = kNotALineID -> next0 = kNotALineID /\ nextLineID log = kNotALineID) /\
    (next0 <> kNotALineID -> beforeb asc next0 (next_step asc next0 log) = false) /\
    (nextLineID log <> kNotALineID -> beforeb asc (nextLineID log) (next_step asc next0 log) = false)).
  { unfold next_step, beforeb. destruct (Z.eqb_spec (nextLineID log) kNotALineID), (Z.eqb_spec next0 kNotALineID);
      cbn; try (split_and!; auto; try congruence; intros; destruct asc; apply Z.ltb_irrefl).
    destruct asc; cbn; destruct (Z.ltb_spec (nextLineID log) next0); cbn;
      split_and!; auto; try congruence; intros; apply Z.ltb_ge; lia. }
  destruct Hstep as (S1 & S2 & S3 & S4).
  assert (Hle : forall a b c, beforeb asc a b = false -> beforeb asc b c = false -> beforeb asc a c = false).
  { intros a b c. unfold beforeb. destruct asc; rewrite !Z.ltb_ge; lia. }
  split_and!.
  - destruct H1 as [->|(l & Hl & E)]; [|right; exists l; split; [by right|done]].
    destruct S1 as [->| ->]; [by left|right; exists log; split; [by left|done]].
  - intros E. destruct (H2 E) as [E1 E2]. destruct (S2 E1) as [E3 E4]. split; [done|].
    by intros l [->|?]%elem_of_cons; auto.
  - intros E. destruct (H3 E) as [E1 E2].
    assert (Hn : next0 <> kNotALineID \/ nextLineID log <> kNotALineID ->
      next_step asc next0 log <> kNotALineID) by (intros Hor Es; destruct (S2 Es); tauto).
    split; [intros Hn0; eapply Hle; eauto|]. intros l [->|?]%elem_of_cons Hl; [eapply Hle; eauto|auto].
Qed.

Lemma keep_line_kept asc next l :
  asc = true \/ ll_lineID l <> next -> keep_line asc next l = keptb asc next l.
Proof.
  intros H. unfold keep_line, keptb, beforeb. f_equal. destruct asc; [by destruct (_ <? _)|].
  destruct H as [|H]; [done|]. destruct (Z.ltb_spec (ll_lineID l) next), (Z.ltb_spec next (ll_lineID l)); cbn; lia.
Qed.

(** A client that asks for page after page. *)
Fixpoint fetch_pages (fuel : nat) (page : Z -> outcome LogLines) (line_id : Z) : outcome (list LogLine) :=
  match fuel with
  | O => Undef "out of fuel"
  | S fuel =>
      let* log := page line_id in
      if nextLineID log =? kNotALineID then Ret (lines log)
      else let* rest := fetch_pages fuel page (nextLineID log) in Ret (lines log ++ rest)
  end.

Section Pages.
Context {T : Type} `{DL : LogDatabaseLaws T}.
Context (regex_search : string -> string -> bool) (re : string).
Context (Hre : forall s, regex_search re s = true).
Context (sort_lines : bool -> list LogLine -> list LogLine).
(** [std::sort]. *)
Context (sort_perm : forall asc l, sort_lines asc l ≡ₚ l).
Context (sort_sorted : forall asc l,
  StronglySorted (fun a b => beforeb asc (ll_lineID b) (ll_lineID a) = false) (sort_lines asc l)).
Context (store : string -> LogWriter T) (logtype : string) (table : LogTable).
Context (Htable : logtype_table logtype = Ret table).
Context (jobs nodes : list string) (asc : bool) (cur_time : Z) (pool : list (string * RemoteWorker)).

(** The lines of a worker. *)
Definition lines_of (p : string * RemoteWorker) : list LogLine :=
  stored_lines jobs nodes asc (lw_table (store p.1) table).
Definition all_lines : list LogLine := concat (map lines_of pool).

(** Some workers, all of them healthy or new; in descending order, no ID is
    used by two of them. *)
Record pool_ok : Prop := {
  pk_some : pool <> [];
  pk_healthy : forall p, p ∈ pool -> getState p.2 = NEW \/ getState p.2 = HEALTHY;
  pk_ids : forall p, p ∈ pool -> ids_ok (lw_table (store p.1) table);
  pk_distinct : asc = false -> forall p q x y, p ∈ pool -> q ∈ pool -> x ∈ lines_of p -> y ∈ lines_of q ->
    ll_lineID x = ll_lineID y -> p = q
}.
Context (Hpool : pool_ok).

Definition ask (s : Z) (shard : string) (limit : Z) : outcome LogLines :=
  getJobLogsByID regex_search (store shard) logtype jobs nodes s asc limit re.
Definition page (s : Z) : outcome LogLines := getJobLogs sort_lines cur_time pool (ask s) asc.

(** The answer of each worker. *)
Definition answer (s : Z) (p : string * RemoteWorker) : LogLines :=
  match ask s p.1 (worker_limit (length pool)) with Ret log => log | _ => mkLogLines [] kNotALineID end.

Lemma all_asked : log_services pool = pool /\ unqueried pool = "".
Proof using Hpool.
  assert (Hh : forall l, (forall p, p ∈ l -> getState p.2 = NEW \/ getState p.2 = HEALTHY) ->
    log_services l = l /\ shards_in UNHEALTHY l = [] /\ shards_in MUST_DIE l = []).
  { induction l as [|p l IH]; intros H1; [done|]. destruct IH as (E1 & E2 & E3); [intros q Hq; apply H1; by right|].
    unfold log_services, shards_in in *. cbn. destruct (H1 p) as [E|E]; [by left| |]; rewrite E; cbn; by rewrite E1. }
  destruct (Hh pool (pk_healthy Hpool)) as (E1 & E2 & E3). split; [done|]. unfold unqueried. by rewrite E2, E3.
Qed.

Lemma answers_ok s p :
  p ∈ pool -> ask s p.1 (worker_limit (length pool)) = Ret (answer s p) /\
    answer_ok jobs nodes asc (lw_table (store p.1) table) s (answer s p).
Proof using DL Hre Htable Hpool.
  intros Hp. assert (Hlim : 1 <= worker_limit (length pool) < INT32_MAX).
  { unfold worker_limit. assert (0 < Z.of_nat (length pool)) by (pose proof (pk_some Hpool); destruct pool; [done|cbn; lia]).
    pose proof (Z.div_le_upper_bound 5000 (Z.of_nat (length pool)) 5000). unfold INT32_MAX. lia. }
  destruct (writer_answers regex_search re Hre jobs nodes asc (store p.1) logtype table s
    (worker_limit (length pool)) Htable (pk_ids Hpool p Hp) Hlim) as (log & E & Hok).
  assert (Ea : ask s p.1 (worker_limit (length pool)) = Ret log).
  { unfold ask, getJobLogsByID. rewrite E. cbn. destruct log as [ls next]. do 2 f_equal. clear.
    induction ls as [|[] ls IH]; [done|]. cbn in *. by rewrite IH. }
  unfold answer. rewrite Ea. done.
Qed.

(** What a page takes of a worker's answer. *)
Lemma kept_of_worker s p :
  let next := merge_next asc (map (answer s) pool) in
  p ∈ pool -> List.filter (keep_line asc next) (lines (answer s p)) ≡ₚ
    List.filter (keptb asc next) (List.filter (fun l => fromb asc s (ll_lineID l)) (lines_of p)).
Proof using DL Hre Htable Hpool.
  intros next Hp. destruct (answers_ok s p Hp) as [_ [Hl _]]. rewrite (filter_perm _ _ _ Hl), filter_filter.
  erewrite List.filter_ext_in; [done|]. intros x Hx. cbn beta.
  apply filter_In in Hx as [Hx%list_elem_of_In _].
  pose proof (next_spec asc (map (answer s) pool) kNotALineID) as (N1 & N2 & N3). fold (merge_next asc (map (answer s) pool)) in *.
  fold next in N1, N2, N3. assert (Ha : answer s p ∈ map (answer s) pool) by (by apply list_elem_of_fmap_2).
  destruct (decide (next = kNotALineID)) as [En|En].
  { destruct (N2 En) as [_ N4]. rewrite (N4 _ Ha), En. unfold keptb, keep_line. by rewrite Z.eqb_refl. }
  destruct (N3 En) as [_ N4]. specialize (N4 _ Ha).
  assert (Hkn : keptb asc next x = beforeb asc (ll_lineID x) next) by (unfold keptb; by destruct (Z.eqb_spec next kNotALineID)).
  rewrite Hkn. destruct (beforeb asc (ll_lineID x) next) eqn:Eb.
  - rewrite keep_line_kept, Hkn, andb_true_r.
    + unfold keptb. destruct (Z.eqb_spec (nextLineID (answer s p)) kNotALineID) as [|Hn]; [done|]. specialize (N4 Hn).
      cbn. unfold beforeb in *. destruct asc; rewrite ?Z.ltb_lt, ?Z.ltb_ge in *; lia.
    + destruct asc; [by left|right]. intros E. by rewrite E, beforeb_irrefl in Eb.
  - destruct (decide (asc = true \/ ll_lineID x <> next)) as [Hor|Hno].
    { rewrite (keep_line_kept asc next x Hor), Hkn. apply andb_false_r. }
    assert (Hasc : asc = false) by (destruct asc; tauto). assert (Hid : ll_lineID x = next) by (destruct (decide (ll_lineID x = next)); tauto).
    destruct N1 as [|(log & Hlog & Elog)]; [done|]. apply list_elem_of_fmap in Hlog as (q & -> & Hq).
    destruct (answers_ok s q Hq) as [_ [_ Hnx]]. destruct Hnx as (_ & y & Hy & Ey & _); [congruence|].
    assert (p = q) as -> by (apply (pk_distinct Hpool Hasc p q x y); try done; congruence).
    rewrite Elog, Hkn. done.
Qed.

Lemma page_spec s :
  exists log, page s = Ret log /\
    lines log ≡ₚ List.filter (keptb asc (nextLineID log)) (List.filter (fun l => fromb asc s (ll_lineID l)) all_lines) /\
    StronglySorted (fun a b => beforeb asc (ll_lineID b) (ll_lineID a) = false) (lines log) /\
    (nextLineID log <> kNotALineID -> fromb asc s (nextLineID log) = true /\ lines log <> []).
Proof using DL Hre sort_perm sort_sorted Htable Hpool.
  destruct all_asked as [Es Eu]. unfold page, getJobLogs. rewrite Es, Eu.
  rewrite bool_decide_eq_false_2 by apply (pk_some Hpool). eexists. split; [done|].
  unfold getJobLogsThreadAndEventBaseSafe. rewrite bool_decide_eq_true_2 by done. cbn [lines nextLineID app].
  assert (Hres : forall l, (forall p, p ∈ l -> p ∈ pool) ->
    let answers := map (fun p => ask s p.1 (worker_limit (length pool))) l in
    omap (fun a => match a with
      | Ret _ => None
      | _ => Some (error_line cur_time "Failed to fetch logs from worker") end) answers = [] /\
    omap (fun a => match a with Ret log => Some log | _ => None end) answers = map (answer s) l).
  { induction l as [|p l IH]; intros Hl; [done|]. cbn. destruct IH as [E1 E2]; [intros q Hq; apply Hl; by right|].
    destruct (answers_ok s p) as [-> _]; [apply Hl; by left|]. cbn. rewrite E1, <- E2. done. }
  destruct (Hres pool) as [-> ->]; [done|]. cbn [app]. set (next := merge_next asc (map (answer s) pool)).
  assert (Hlines : merge_lines asc next (map (answer s) pool) ≡ₚ
    List.filter (keptb asc next) (List.filter (fun l => fromb asc s (ll_lineID l)) all_lines)).
  { unfold merge_lines, all_lines. rewrite <- !concat_filter_map. apply concat_perm.
    rewrite !map_map. apply map_pointwise_perm. exact (kept_of_worker s). }
  split_and!; [by rewrite sort_perm|apply sort_sorted|].
  intros Hn. destruct (next_spec asc (map (answer s) pool) kNotALineID) as ([|(log & Hlog & Elog)] & _); [done|].
  apply list_elem_of_fmap in Hlog as (p & -> & Hp). fold (merge_next asc (map (answer s) pool)) in Elog. fold next in Elog.
  destruct (answers_ok s p Hp) as [_ [Hl Hnx]]. destruct Hnx as (Hne & y & Hy & Ey & Hf); [congruence|].
  split; [congruence|]. rewrite Elog in Hl. intros E. apply Hne.
  assert (E0 : List.filter (keptb asc next) (List.filter (fun l => fromb asc s (ll_lineID l)) all_lines) = []).
  { apply Permutation_nil. rewrite <- Hlines, <- (sort_perm asc (merge_lines asc next (map (answer s) pool))), E. done. }
  apply (filter_concat_nil _ _ lines_of pool p Hp) in E0. apply Permutation_nil. rewrite Hl. by rewrite <- E0 at 1.
Qed.

(** Lines after a page. *)
Lemma after_page s next :
  next <> kNotALineID -> fromb asc s next = true ->
  List.filter (fun l => fromb asc s (ll_lineID l)) all_lines ≡ₚ
    List.filter (keptb asc next) (List.filter (fun l => fromb asc s (ll_lineID l)) all_lines) ++
    List.filter (fun l => fromb asc next (ll_lineID l)) all_lines.
Proof using.
  intros Hn Hf. rewrite (filter_split (keptb asc next)) at 1. f_equiv. rewrite filter_filter.
  erewrite List.filter_ext; [done|]. intros l. cbn. unfold fromb, keptb in *.
  destruct (Z.eqb_spec next kNotALineID); [done|]. destruct (Z.eqb_spec s kNotALineID); cbn in *; [done|].
  unfold beforeb in *. destruct asc; destruct (Z.ltb_spec (ll_lineID l) s), (Z.ltb_spec s (ll_lineID l)),
    (Z.ltb_spec (ll_lineID l) next), (Z.ltb_spec next (ll_lineID l)), (Z.ltb_spec next s), (Z.ltb_spec s next);
    cbn in *; try done; lia.
Qed.

(** C37: Asking for page after page gives every line of every worker exactly once
    and in order, and a client is done after at most as many pages as there are
    lines.  This holds when the regular expression matches every line
    ([filter_after_limit] shows why), there are workers and all of them are
    healthy or new and answer, no worker stores two lines under one ID, and, in
    descending order, no two workers do ([descending_repeats]). *)
Theorem log_pages fuel s :
  (length all_lines < fuel)%nat ->
  exists ls, fetch_pages fuel page s = Ret ls /\
    ls ≡ₚ List.filter (fun l => fromb asc s (ll_lineID l)) all_lines /\
    StronglySorted (fun a b => beforeb asc (ll_lineID b) (ll_lineID a) = false) ls.
Proof using DL Hre sort_perm sort_sorted Htable Hpool.
  intros Hfuel. assert (Hlen : (length (List.filter (fun l => fromb asc s (ll_lineID l)) all_lines) < fuel)%nat).
  { pose proof (List.filter_length_le (fun l => fromb asc s (ll_lineID l)) all_lines). lia. }
  clear Hfuel. revert s Hlen. induction fuel as [|fuel IH]; intros s Hlen; [lia|]. cbn [fetch_pages].
  destruct (page_spec s) as (log & -> & Hp & Hs & Hn). cbn [mbind outcome_bind].
  destruct (Z.eqb_spec (nextLineID log) kNotALineID) as [En|En].
  { exists (lines log). split; [done|]. split; [|done]. rewrite Hp, En, filter_filter.
    erewrite List.filter_ext; [done|]. intros l. cbn. apply andb_true_r. }
  destruct (Hn En) as [Hf Hne]. pose proof (after_page s _ En Hf) as Ha. rewrite <- Hp in Ha.
  destruct (IH (nextLineID log)) as (rest & -> & Hr & Hrs).
  { apply Permutation_length in Ha. rewrite length_app in Ha. destruct (lines log); [done|]. cbn in Ha. lia. }
  eexists. split; [done|]. split; [by rewrite Ha, Hr|].
  apply StronglySorted_app_2; [|done|done]. intros x y Hx Hy. rewrite Hp in Hx. rewrite Hr in Hy.
  apply list_elem_of_In, filter_In in Hx as [_ Hx]. apply list_elem_of_In, filter_In in Hy as [_ Hy].
  unfold keptb, fromb in *. destruct (Z.eqb_spec (nextLineID log) kNotALineID); [done|]. cbn in *.
  unfold beforeb in *. destruct asc; apply negb_true_iff in Hy; apply Z.ltb_lt in Hx; apply Z.ltb_ge in Hy; apply Z.ltb_ge; lia.
Qed.
End Pages.

(** ** Writing and pruning *)

Section Store.
Context {T : Type} `{DL : LogDatabaseLaws T}.

(** A line gets the ID of its time and count; if that ID is used (a worker
    that was restarted within a second counts from 0 again), nothing is
    stored and the caller gets an exception. *)
Theorem write_contract w now t job node line :
  let id := makeLineID (s32 now) (counter_ w) in
  let '(w', result) := write w now t job node line in
  counter_ w' = u32 (counter_ w + 1) /\
  (forall t', t' <> t -> lw_table w' t' = lw_table w t') /\
  match db_rows (lw_table w t) !! id with
  | None => result = Ret tt /\
      db_rows (lw_table w' t) = <[id := mkRow job node line]> (db_rows (lw_table w t))
  | Some _ => (exists e, result = Throw e) /\ lw_table w' t = lw_table w t
  end.
Proof using DL.
  cbv zeta. unfold write. set (id := makeLineID _ _). set (w1 := mkLogWriter _ _ _ _).
  assert (E1 : forall t, lw_table w1 t = lw_table w t) by (by intros []). rewrite E1.
  destruct (db_rows (lw_table w t) !! id) as [r|] eqn:Er.
  - destruct (insert_old (lw_table w t) id (mkRow job node line)) as [e ->]; [congruence|].
    split_and!; [done|intros; by rewrite E1|by exists e|by rewrite E1].
  - destruct (insert_new (lw_table w t) id (mkRow job node line) Er) as (x & -> & Ex).
    split_and!; [by destruct t|intros t' Ht; by destruct t, t'|done|]. rewrite <- Ex. by destruct t.
Qed.

(** Pruning keeps every line that is newer than the retention time and
    removes every older one. *)
Theorem prune_contract retention w now t id r :
  let cutoff := s32 (now - retention) in
  0 <= cutoff -> 0 <= id < 2 ^ 63 -> db_rows (lw_table w t) !! id = Some r ->
  (cutoff < timeFromLineID id -> db_rows (lw_table (prune retention w now) t) !! id = Some r) /\
  (timeFromLineID id < cutoff -> db_rows (lw_table (prune retention w now) t) !! id = None).
Proof using DL.
  intros cutoff Hc Hid Er. assert (Ht : timeFromLineID id = id / 2 ^ 32).
  { unfold timeFromLineID. rewrite Z.shiftr_div_pow2 by lia. apply s32_id. unfold is_s32.
    pose proof (Z.div_pos id (2 ^ 32)). pose proof (Z.div_lt_upper_bound id (2 ^ 32) (2 ^ 31)). lia. }
  rewrite Ht. pose proof (Z.div_mod id (2 ^ 32) ltac:(lia)) as Hd.
  pose proof (Z.mod_pos_bound id (2 ^ 32) ltac:(lia)) as Hm.
  assert (E : db_rows (lw_table (prune retention w now) t) !! id =
    if id <? makeLineID cutoff INT32_MAX then None else db_rows (lw_table w t) !! id).
  { unfold prune. fold cutoff. destruct t; apply delete_before. }
  rewrite E, makeLineID_eq by (unfold INT32_MAX; lia). unfold INT32_MAX. clear E.
  split; intros Hlt; case_match eqn:Eb; rewrite ?Z.ltb_lt, ?Z.ltb_ge in Eb; try done; lia.
Qed.
End Store.

(** ** Samples *)

(** A database in memory. *)
Definition not_after (asc : bool) (a b : Z * Row) : Prop := beforeb asc b.1 a.1 = false.
#[local] Instance not_after_dec asc : RelDecision (not_after asc).
Proof. intros a b. apply bool_eq_dec. Defined.
#[export] Instance memory_db : LogDatabase (gmap Z Row) := {
  db_rows t := t;
  db_insert t id r := if bool_decide (is_Some (t !! id)) then Throw "UNIQUE constraint failed" else Ret (<[id := r]> t);
  db_delete_before t cutoff := filter (fun p => cutoff <= p.1) t;
  db_select t q := sql_limit (q_limit q)
    (merge_sort (not_after (q_ascending q)) (List.filter (matches q) (map_to_list t)))
}.

#[local] Instance not_after_total asc : Total (not_after asc).
Proof. intros a b. unfold not_after, beforeb. destruct asc; rewrite !Z.ltb_ge; lia. Qed.
#[local] Instance not_after_trans asc : Transitive (not_after asc).
Proof. intros a b c. unfold not_after, beforeb. destruct asc; rewrite !Z.ltb_ge; lia. Qed.

(** Sorted without ties. *)
Lemma strict_order asc (l : list (Z * Row)) :
  NoDup (l.*1) -> StronglySorted (not_after asc) l ->
  StronglySorted (fun a b => beforeb asc a.1 b.1 = true) l.
Proof.
  intros Hnd Hs. induction Hs as [|p l Hs IH Hp]; [constructor|]. cbn in Hnd. apply NoDup_cons in Hnd as [Hnin Hnd].
  constructor; [auto|]. rewrite Forall_forall in *. intros q Hq. specialize (Hp q Hq).
  assert (p.1 <> q.1) by (intros E; apply Hnin; rewrite E; by apply list_elem_of_fmap_2).
  unfold not_after, beforeb in *. destruct asc; rewrite Z.ltb_ge in Hp; apply Z.ltb_lt; lia.
Qed.

#[export] Instance memory_db_laws : LogDatabaseLaws (gmap Z Row).
Proof.
  split; cbn.
  - intros t id r E. rewrite bool_decide_eq_false_2 by (by rewrite E; intros []). eauto.
  - intros t id r E. rewrite bool_decide_eq_true_2; [eauto|]. by destruct (t !! id); [eexists|].
  - intros t cutoff id. destruct (Z.ltb_spec id cutoff).
    + apply map_lookup_filter_None. right. cbn. lia.
    + destruct (t !! id) as [r|] eqn:E.
      * apply map_lookup_filter_Some. split; [done|cbn; lia].
      * apply map_lookup_filter_None. by left.
  - intros t q. eexists. split_and!; [| |done].
    + apply merge_sort_Permutation.
    + apply strict_order; [|apply StronglySorted_merge_sort; apply _].
      rewrite merge_sort_Permutation. pose proof (NoDup_fst_map_to_list t) as Hnd. revert Hnd.
      generalize (map_to_list t). clear. induction l as [|p l IH]; cbn; [done|].
      intros [Hnin Hnd]%NoDup_cons. destruct (matches q p); cbn; [|auto]. constructor; [|auto].
      intros (x & E & Hx)%list_elem_of_fmap. apply Hnin. rewrite E. apply list_elem_of_fmap_2.
      apply list_elem_of_In, filter_In in Hx as [Hx _]. by apply list_elem_of_In.
Qed.

Definition sample_sort (asc : bool) (l : list LogLine) : list LogLine :=
  merge_sort (fun a b : LogLine => Is_true (negb (beforeb asc (ll_lineID b) (ll_lineID a)))) l.

Lemma sample_sort_ok asc l :
  sample_sort asc l ≡ₚ l /\
  StronglySorted (fun a b => beforeb asc (ll_lineID b) (ll_lineID a) = false) (sample_sort asc l).
Proof.
  split; [apply merge_sort_Permutation|].
  assert (Hs : StronglySorted (fun a b : LogLine => Is_true (negb (beforeb asc (ll_lineID b) (ll_lineID a))))
    (sample_sort asc l)).
  { apply StronglySorted_merge_sort.
    - intros a b c. unfold beforeb. destruct asc; rewrite !Is_true_true, !negb_true_iff, !Z.ltb_ge; lia.
    - intros a b. unfold beforeb. destruct asc; rewrite !Is_true_true, !negb_true_iff, !Z.ltb_ge; lia. }
  clear -Hs. induction Hs as [|x xs _ IH Hx]; constructor; [done|]. eapply Forall_impl; [exact Hx|].
  intros y. cbn. by rewrite Is_true_true, negb_true_iff.
Qed.

Definition sample_store (shard : string) : LogWriter (gmap Z Row) :=
  let row := mkRow "job" "node" in
  mkLogWriter (if bool_decide (shard = "w1") then {[1 := row "a"; 3 := row "c"]} else {[2 := row "b"]}) ∅ ∅ 4.
Definition sample_workers : list (string * RemoteWorker) := [("w1", sample_worker); ("w2", sample_worker)].

Lemma log_pages_witness :
  exists ls, fetch_pages 4 (page (fun _ _ => true) "" sample_sort sample_store "stderr" ["job"] [] true 0 sample_workers) kNotALineID
      = Ret ls /\
    ls ≡ₚ all_lines sample_store STDERR ["job"] [] true sample_workers /\ map ll_line ls = ["a"; "b"; "c"].
Proof.
  assert (Hpool : pool_ok sample_store STDERR ["job"] [] true sample_workers).
  { split; [done| | |done].
    - intros p [->|[->|?%not_elem_of_nil]%elem_of_cons]%elem_of_cons; [by left..|done].
    - intros p [->|[->|?%not_elem_of_nil]%elem_of_cons]%elem_of_cons id r E; [| |done]; cbn in E;
        intros ->; vm_compute in E; discriminate. }
  destruct (log_pages (fun _ _ => true) "" (fun _ => eq_refl) sample_sort (fun asc l => proj1 (sample_sort_ok asc l))
    (fun asc l => proj2 (sample_sort_ok asc l)) sample_store "stderr" STDERR eq_refl ["job"] [] true 0 sample_workers
    Hpool 4 kNotALineID) as (ls & E & Hp & _); [vm_compute; lia|].
  exists ls. split; [exact E|]. split.
  - rewrite Hp. clear. induction (all_lines _ _ _ _ _ _) as [|x l IH]; [done|]. cbn. by rewrite IH.
  - assert (E' : fetch_pages 4 (page (fun _ _ => true) "" sample_sort sample_store "stderr" ["job"] [] true 0
      sample_workers) kNotALineID = Ret (map (fun p => row_line_of (p.1, mkRow "job" "node" p.2))
        [(1, "a"); (2, "b"); (3, "c")])) by (vm_compute; reflexivity).
    rewrite E in E'. injection E' as ->. done.
Defined.

Lemma line_ids_witness :
  timeFromLineID (makeLineID 7 5) = 7 /\
  (makeLineID 7 5 < makeLineID 8 0 <-> 7 < 8 \/ 7 = 8 /\ 5 < 0) /\
  (7 < 8 <-> makeLineID 7 5 < lineIDFromTime 8 true) /\
  (7 <= 8 <-> makeLineID 7 5 <= lineIDFromTime 8 false).
Proof. apply (line_ids 7 5 8 0); unfold is_s32; lia. Defined.

(** A worker applies the regular expression after the limit: the only line
    that matches is not found, and there seem to be no more lines. *)
Theorem filter_after_limit :
  writer_getJobLogs (fun re line => bool_decide (re = line))
    (mkLogWriter ({[1 := mkRow "" "" "a"; 2 := mkRow "" "" "b"; 3 := mkRow "" "" "c"]} : gmap Z Row) ∅ ∅ 4)
    "stderr" [] [] kNotALineID true 1 "c" = Ret (mkLogLines [] kNotALineID).
Proof. vm_compute. reflexivity. Qed.

(** In descending order, a line of one worker whose ID is the next of another
    is on this page and on the next one. *)
Theorem descending_repeats :
  let line id := mkLogLine "" "" 0 "" id in
  let page1 := getJobLogsThreadAndEventBaseSafe sample_sort false 0 ""
    [Ret (mkLogLines [line 5; line 4] 3); Ret (mkLogLines [line 3] kNotALineID)] in
  let page2 := getJobLogsThreadAndEventBaseSafe sample_sort false 0 ""
    [Ret (mkLogLines [line 3] kNotALineID); Ret (mkLogLines [line 3] kNotALineID)] in
  map ll_lineID (lines page1) = [5; 4; 3] /\ nextLineID page1 = 3 /\ map ll_lineID (lines page2) = [3; 3].
Proof. by vm_compute. Qed.
