(* ===== verification/Monitor.v ===== *)
(** [monitor/Monitor.{h,cpp}]: the histograms of the status bits of the tasks
    of each job, per level of the nodes, and the errors that are shown to users.

    The two loaders and the clock are arguments of [monitor_update]; the orders in which
    hash maps are visited are functions that permute the entries.  [__FILE__]
    and [__LINE__] are the argument [location].  [lastUpdateTime_] has no
    initialiser and is [None] before it is first stored. *)

From stdpp Require Import base gmap strings list.
From Stdlib Require Import ZArith QArith Lia Ascii.
From S2P Require Import Prelude Thrift Dynamic TaskStatus SymbolTable Snapshot Scheduling Config Jobs Scheduler.

#[local] Open Scope Z_scope.

(** ** Data *)

(** [CountWithSamples], [HistogramRow], [LevelHistograms], [JobHistograms]. *)
Abbreviation CountWithSamples := (Z * list string)%type.
Abbreviation HistogramRow := (gmap Z CountWithSamples).
Abbreviation LevelHistograms := (gmap string HistogramRow).
Abbreviation JobHistograms := (gmap nat LevelHistograms).

Record Monitor := mkMonitor {
  mon_errors : gmap string string;
  histograms_ : JobHistograms;
  lastUpdateTime_ : option Z
}.

(** [getHistograms]. *)
Definition getHistograms (m : Monitor) (jobs : list Job) : JobHistograms :=
  foldl (fun ret job =>
           match histograms_ m !! job_id job with
           | Some h => <[job_id job := h]> ret
           | None => ret
           end) ∅ jobs.

(** ** Errors *)

(** The separator of [setErrors], a period and a line feed. *)
Definition kJoin : string := String "."%char (String "010"%char EmptyString).

(** [setErrors]. *)
Definition setErrors (m : Monitor) (key : string) (messages : list string) : Monitor :=
  let errors := match messages with
                | [] => delete key (mon_errors m)
                | _ => <[key := String.concat kJoin messages]> (mon_errors m)
                end in
  mkMonitor errors (histograms_ m) (lastUpdateTime_ m).

(** [MonitorError::report], which also returns the message to log it. *)
Definition monitor_report (key : string) (messages : list string) (message : string) : list string :=
  messages ++ [(key +:+ ": " +:+ message)%string].

(** [DEFINE_MONITOR_ERROR]. *)
Definition monitor_key (key location : string) : string := (key +:+ " (" +:+ location +:+ ")")%string.

(** ** [update] *)

Section Update.
Context (regex_search : string -> string -> bool) (hasher : string -> string -> Z).
(** [FLAGS_monitor_samples] and [FLAGS_monitor_update_ms]. *)
Context (monitor_samples monitor_update_ms : Z).
Context (visit_jobs : gmap string Job -> list (string * Job)).
Context (visit : gmap nat (Z * Node) -> list (nat * (Z * Node))).

(** The bits [b] and [b2] of a task. *)
Definition task_bits (now : Z) (row : option StatusRow) (job : Job) (node : Node) : outcome (Z * Z) :=
  let* r := shouldRunOn regex_search hasher job node in
  let '(b, b2) := match r with
                  | Yes => (Bits.Empty, Bits.Unstarted)
                  | NoAvoided => (Bits.Avoided, Bits.Empty)
                  | NoDisabled => (Bits.Disabled, Bits.Empty)
                  end in
  Ret (b, match TaskStatusRow_getPtr row (node_id node) with
          | None => b2
          | Some status =>
              let b2 := bits_ status in
              if negb (isInBackoff status now)
              then Z.land b2 (u16 (Z.lnot Bits.UsesBackoff))
              else b2
          end).

(** One node of the path up from a task's node. *)
Definition add_bits (b b2 : Z) (node_bits : gmap nat (Z * Node)) (n : Node) : gmap nat (Z * Node) :=
  let first := match node_bits !! node_id n with Some p => p.1 | None => Bits.Empty end in
  <[node_id n := (Z.lor (Z.lor first b) b2, n)]> node_bits.

(** The first loop of a job, which fills [node_bits]. *)
Definition collect_bits (now : Z) (row : option StatusRow) (job : Job) (nodes : list Node)
    : outcome (gmap nat (Z * Node)) :=
  foldM (fun node_bits node =>
           if negb (Nat.eqb (node_level node) (levelForTasks_ job)) then Ret node_bits
           else
             let* (b, b2) := task_bits now row job node in
             Ret (foldl (add_bits b b2) node_bits (traverseUp node))) ∅ nodes.

(** One iteration of the second loop. *)
Definition count_node (levels : StringTable) (hist_level : LevelHistograms)
    (pair : nat * (Z * Node)) : outcome LevelHistograms :=
  let '(bits, node) := pair.2 in
  let* level := lookup_id levels (node_level node) in
  let h := default ∅ (hist_level !! level) in
  let '(count, samples) := default (0, []) (h !! bits) in
  let samples := if Z.of_nat (length samples) <? u64 monitor_samples
                 then samples ++ [node_name node] else samples in
  Ret (<[level := <[bits := (count + 1, samples)]> h]> hist_level).

(** One job; the messages are those of the [MonitorError]. *)
Definition update_job (now : Z) (key : string) (config : Config) (snap : TaskStatusSnapshot)
    (nodes : list Node) (acc : JobHistograms * list string) (job : Job)
    : outcome (JobHistograms * list string) :=
  let '(hists, messages) := acc in
  if negb (job_valid job) then Ret acc
  else if negb (isJobLoaded snap (job_id job))
  then Ret (hists, monitor_report key messages
              ("Monitor transiently not making a histogram for " +:+ job_name job +:+
               " since it is not loaded")%string)
  else
    let* row := getRow snap (job_id job) in
    let* node_bits := collect_bits now row job nodes in
    let* hist_level := foldM (count_node (cfg_levels config))
                         (default ∅ (hists !! job_id job)) (visit node_bits) in
    Ret (<[job_id job := hist_level]> hists, messages).

(** The [try] block; what it has reported when it throws is kept. *)
Fixpoint update_jobs (now : Z) (key : string) (config : Config) (snap : TaskStatusSnapshot)
    (nodes : list Node) (acc : JobHistograms * list string) (jobs : list (string * Job))
    : outcome (JobHistograms * list string + string * list string) :=
  match jobs with
  | [] => Ret (inl acc)
  | p :: jobs' =>
      match update_job now key config snap nodes acc p.2 with
      | Ret acc' => update_jobs now key config snap nodes acc' jobs'
      | Throw what => Ret (inr (what, acc.2))
      | Crash e => Crash e
      | Undef e => Undef e
      end
  end.

(** [Monitor::update] returns the time to wait.  [end_time] is the time at
    its end. *)
Definition monitor_update (m : Monitor) (now end_time : Z) (location : string) (config : outcome Config)
    (snap : TaskStatusSnapshot) (nodes : outcome (list Node)) : outcome (Monitor * Z) :=
  let key := monitor_key "Updating monitor histogram" location in
  let* result :=
    match config with
    | Throw what => Ret (inr (what, []))
    | Crash e => Crash e
    | Undef e => Undef e
    | Ret config =>
        match nodes with
        | Throw what => Ret (inr (what, []))
        | Crash e => Crash e
        | Undef e => Undef e
        | Ret nodes => update_jobs now key config snap nodes (∅, []) (visit_jobs (cfg_jobs config))
        end
    end in
  match result with
  | inl (hists, messages) =>
      Ret (setErrors (mkMonitor (mon_errors m) hists (Some end_time)) key messages, monitor_update_ms)
  | inr (what, messages) =>
      Ret (setErrors (mkMonitor (mon_errors m) ∅ (lastUpdateTime_ m)) key (monitor_report key messages what),
           monitor_update_ms)
  end.
End Update.

(** ** What the loops compute *)

Section Loops.
Context (regex_search : string -> string -> bool) (hasher : string -> string -> Z).
Context (monitor_samples : Z).

(** Some node of the path up from [t] has the id. *)
Definition passes (i : nat) (t : Node) : bool := existsb (fun n => Nat.eqb (node_id n) i) (traverseUp t).

(** The two parts of a task's bits together. *)
Definition bits_of (now : Z) (row : option StatusRow) (job : Job) (t : Node) : Z :=
  match task_bits regex_search hasher now row job t with Ret (b, b2) => Z.lor b b2 | _ => 0 end.

(** The bits of all tasks whose path passes the id. *)
Definition union_bits (f : Node -> Z) (tasks : list Node) (i : nat) : Z :=
  foldl (fun acc t => Z.lor acc (f t)) 0 (List.filter (passes i) tasks).

(** Along a path, every id gets the bits once, and the entry a node of the path. *)
Lemma path_bits b b2 path m i :
  let m' := foldl (add_bits b b2) m path in
  if existsb (fun n => Nat.eqb (node_id n) i) path
  then exists n, n ∈ path /\ node_id n = i /\
         m' !! i = Some (Z.lor (match m !! i with Some p => p.1 | None => 0 end) (Z.lor b b2), n)
  else m' !! i = m !! i.
Proof.
  revert m. induction path as [|n path IH]; intros m; [done|]. cbn [foldl existsb].
  specialize (IH (add_bits b b2 m n)). cbn zeta in IH |- *.
  destruct (existsb (fun n => Nat.eqb (node_id n) i) path).
  - rewrite orb_true_r. destruct IH as (n' & Hn' & Hi & ->). exists n'.
    split; [by right|]. split; [done|]. f_equal. f_equal. unfold add_bits. rewrite lookup_insert.
    case_decide as Hd; [|done]. subst i. rewrite Hd. cbn [fst].
    apply Z.bits_inj'. intros k _. rewrite !Z.lor_spec.
    by destruct (Z.testbit _ k), (Z.testbit b k), (Z.testbit b2 k).
  - rewrite orb_false_r, IH. unfold add_bits. destruct (Nat.eqb_spec (node_id n) i) as [<-|Hne].
    + exists n. split; [by left|]. split; [done|]. rewrite lookup_insert_eq, <- Z.lor_assoc. done.
    + by rewrite lookup_insert_ne.
Qed.

(** The first loop of a job. *)
Lemma collect_spec now row job nodes :
  (forall t, t ∈ nodes -> node_level t = levelForTasks_ job ->
     exists b, task_bits regex_search hasher now row job t = Ret b) ->
  exists m, collect_bits regex_search hasher now row job nodes = Ret m /\
    forall i, let tasks := List.filter (fun t => Nat.eqb (node_level t) (levelForTasks_ job)) nodes in
      if existsb (passes i) tasks
      then exists n t, t ∈ tasks /\ n ∈ traverseUp t /\ node_id n = i /\
             m !! i = Some (union_bits (bits_of now row job) tasks i, n)
      else m !! i = None.
Proof.
  induction nodes as [|t nodes IH] using rev_ind; intros Hb; [by exists ∅|].
  destruct IH as (m & Hm & IH); [intros; apply Hb; set_solver|].
  unfold collect_bits in *. rewrite foldM_app, Hm. cbn [mbind outcome_bind foldM].
  rewrite List.filter_app. cbn [List.filter].
  destruct (Nat.eqb_spec (node_level t) (levelForTasks_ job)) as [Hl|Hl]; cbn [negb].
  2: { exists m. split; [done|]. by rewrite app_nil_r. }
  destruct (Hb t) as [[b b2] Eb]; [set_solver|done|]. rewrite Eb. cbn [mbind outcome_bind].
  eexists. split; [done|]. intros i. specialize (IH i). cbn zeta in IH |- *.
  rewrite existsb_app. cbn [existsb].
  pose proof (path_bits b b2 (traverseUp t) m i) as Hp. cbn zeta in Hp.
  unfold union_bits. rewrite List.filter_app. cbn [List.filter]. change (existsb _ (traverseUp t)) with (passes i t) in Hp.
  destruct (passes i t) eqn:Ep; rewrite ?orb_true_r, ?orb_false_r, ?Hp.
  - destruct Hp as (n & Hn & Hi & ->). exists n, t. split; [set_solver|]. split; [done|].
    split; [done|]. f_equal. f_equal. rewrite foldl_app. cbn [foldl].
    replace (bits_of now row job t) with (Z.lor b b2) by (unfold bits_of; by rewrite Eb).
    f_equal. destruct (existsb (passes i) _) eqn:Ex.
    + by destruct IH as (? & ? & _ & _ & _ & ->).
    + rewrite IH. destruct (List.filter (passes i) _) as [|x l] eqn:Ef; [done|]. exfalso.
      assert (Hx : In x (x :: l)) by by left. rewrite <- Ef in Hx.
      apply List.filter_In in Hx as [Hx1 Hx2].
      rewrite (proj2 (existsb_exists _ _)) in Ex; [done|]. eauto.
  - rewrite app_nil_r. destruct (existsb (passes i) _); [|done]. destruct IH as (n & t' & H1 & H2).
    exists n, t'. split; [set_solver|done].
Qed.

(** A cell of the histograms of a job. *)
Definition cell (h : LevelHistograms) (level : string) (bits : Z) : option CountWithSamples :=
  h !! level ≫= fun row => row !! bits.

(** The cell of some nodes: their number and the first of their names. *)
Definition cell_of (l : list Node) : option CountWithSamples :=
  match l with
  | [] => None
  | _ => Some (Z.of_nat (length l), take (Z.to_nat (u64 monitor_samples)) (map node_name l))
  end.

(** The nodes that are counted in a cell. *)
Definition in_cell (levels : StringTable) (level : string) (bits : Z) (p : nat * (Z * Node)) : bool :=
  bool_decide (objects_ levels !! node_level p.2.2 = Some level) && (p.2.1 =? bits).

Lemma cell_of_snoc l n :
  cell_of (l ++ [n]) =
  let '(count, samples) := default (0, []) (cell_of l) in
  Some (count + 1, if Z.of_nat (length samples) <? u64 monitor_samples
                   then samples ++ [node_name n] else samples).
Proof.
  unfold cell_of. assert (Hu : 0 <= u64 monitor_samples) by (unfold u64; apply Z.mod_pos_bound; lia).
  set (k := u64 monitor_samples) in *.
  assert (E : forall c : list Node, match c ++ [n] with
    | [] => None | _ => Some (Z.of_nat (length (c ++ [n])), take (Z.to_nat k) (map node_name (c ++ [n])))
    end = Some (Z.of_nat (length (c ++ [n])), take (Z.to_nat k) (map node_name (c ++ [n]))))
    by by intros [|].
  rewrite E, length_app, map_app. clear E. cbn [length map].
  destruct l as [|x l].
  - cbn. change (Z.of_nat 0) with 0. destruct (Z.ltb_spec 0 k); [|by replace k with 0 by lia].
    destruct (Z.to_nat k) eqn:Ek; [lia|]. cbn. by rewrite take_nil.
  - cbn [default from_option]. f_equal. f_equal; [lia|].
    rewrite length_take. destruct (Z.ltb_spec (Z.of_nat (Z.to_nat k `min` length (map node_name (x :: l)))) k).
    + rewrite !take_ge; [done|lia|rewrite length_app; cbn [length]; lia].
    + rewrite take_app_le; [done|lia].
Qed.

(** The second loop of a job. *)
Lemma count_spec levels entries :
  Forall (fun p : nat * (Z * Node) => (node_level p.2.2 < length (objects_ levels))%nat) entries ->
  exists h, foldM (count_node monitor_samples levels) ∅ entries = Ret h /\
    forall level bits, cell h level bits =
      cell_of (map (fun p => p.2.2) (List.filter (in_cell levels level bits) entries)).
Proof.
  induction entries as [|p entries IH] using rev_ind; intros Hl.
  { exists ∅. split; [done|]. by intros level bits. }
  apply Forall_app in Hl as [Hl Hp]. apply Forall_cons in Hp as [Hp _].
  destruct (IH Hl) as (h & Hh & Hc).
  rewrite foldM_app, Hh. cbn [mbind outcome_bind foldM]. destruct p as [i [bits node]]. cbn in Hp.
  unfold count_node. cbn [snd]. unfold lookup_id.
  destruct (lookup_lt_is_Some_2 _ _ Hp) as [level Elev]. rewrite Elev. cbn [mbind outcome_bind].
  destruct (default (0, []) (default ∅ (h !! level) !! bits)) as [count samples] eqn:Ed.
  eexists. split; [done|]. intros level' bits'. rewrite List.filter_app, map_app.
  cbn [List.filter]. unfold in_cell at 2. cbn [snd fst]. unfold cell. rewrite lookup_insert.
  case_decide as Hlev; [subst level'|].
  - rewrite bool_decide_true by done. cbn [andb mbind option_bind]. rewrite lookup_insert.
    case_decide as Hb; [subst bits'|].
    + rewrite Z.eqb_refl. cbn [map]. rewrite cell_of_snoc, <- Hc. unfold cell.
      replace (default (0, []) (h !! level ≫= fun row => row !! bits)) with (count, samples); [done|].
      rewrite <- Ed. by destruct (h !! level).
    + rewrite (proj2 (Z.eqb_neq _ _)) by done. rewrite app_nil_r, <- Hc. unfold cell.
      by destruct (h !! level).
  - rewrite bool_decide_false by congruence. cbn [andb map]. by rewrite app_nil_r, <- Hc.
Qed.

(** ** The histograms of a job *)

(** In a list without repeated keys, a key determines the element. *)
Lemma keys_unique {A} (key : A -> nat) (l : list A) x y :
  NoDup (map key l) -> x ∈ l -> y ∈ l -> key x = key y -> x = y.
Proof.
  intros Hl [k1 E1]%list_elem_of_lookup_1 [k2 E2]%list_elem_of_lookup_1 Hk.
  assert (k1 = k2) as <-; [|congruence].
  eapply NoDup_lookup; [exact Hl|by rewrite list_lookup_fmap, E1|].
  by rewrite list_lookup_fmap, E2; cbn; rewrite Hk.
Qed.

(** What the fetchers guarantee of nodes whose names differ. *)
Record nodes_ok (nodes : list Node) : Prop := {
  no_unique : NoDup (map node_id nodes);
  no_closed t n : t ∈ nodes -> n ∈ traverseUp t -> n ∈ nodes;
  no_levels t n : t ∈ nodes -> n ∈ traverseUp t -> (node_level n <= node_level t)%nat
}.

(** What a job of a configuration with [nl] levels guarantees. *)
Record job_ok (nl : nat) (j : Job) : Prop := {
  jo_level : (levelForTasks_ j < nl)%nat;
  jo_filters : length (filters_ j) = nl;
  jo_defined : Forall filter_defined (filters_ j)
}.

(** The nodes on which the job has its tasks. *)
Definition task_nodes (job : Job) (nodes : list Node) : list Node :=
  List.filter (fun t => Nat.eqb (node_level t) (levelForTasks_ job)) nodes.

(** The nodes of a level that have tasks of the job below them, or are one of
    them, and whose tasks have exactly these bits between them. *)
Definition members (f : Node -> Z) (job : Job) (nodes : list Node) (level : nat) (bits : Z) : list Node :=
  List.filter (fun n => Nat.eqb (node_level n) level &&
                        existsb (passes (node_id n)) (task_nodes job nodes) &&
                        (union_bits f (task_nodes job nodes) (node_id n) =? bits)) nodes.

Lemma shouldRunOn_defined nl j t :
  job_ok nl j -> Forall (fun n => (node_level n < nl)%nat) (traverseUp t) ->
  exists r, shouldRunOn regex_search hasher j t = Ret r.
Proof.
  intros Hj. unfold shouldRunOn. generalize (traverseUp t). intros path.
  induction 1 as [|n path Hn _ IH]; cbn [shouldRun_path]; [eauto|].
  destruct (node_enabled n); cbn [negb]; [|eauto].
  destruct (lookup_lt_is_Some_2 (filters_ j) (node_level n)) as [f Hf]; [by rewrite (jo_filters _ _ Hj)|].
  rewrite Hf. destruct (doesPass_defined regex_search hasher f (job_name j) n) as [b ->].
  { by apply (Forall_lookup_1 _ _ _ _ (jo_defined _ _ Hj) Hf). }
  cbn [mbind outcome_bind]. destruct b; eauto.
Qed.

Lemma task_bits_defined nl now row j nodes t :
  nodes_ok nodes -> job_ok nl j -> t ∈ nodes -> node_level t = levelForTasks_ j ->
  exists b, task_bits regex_search hasher now row j t = Ret b.
Proof.
  intros Hn Hj Ht Hl. unfold task_bits.
  destruct (shouldRunOn_defined nl j t Hj) as [r ->].
  { apply Forall_forall. intros n Hin. pose proof (no_levels _ Hn t n Ht Hin).
    pose proof (jo_level _ _ Hj). lia. }
  cbn [mbind outcome_bind]. destruct r; eauto.
Qed.

Context (visit : gmap nat (Z * Node) -> list (nat * (Z * Node))).
Context (visit_all : forall m, visit m ≡ₚ map_to_list m).
Context (levels : StringTable) (levels_wf : table_wf levels).

(** The entries that the first loop makes: those of the nodes above tasks. *)
Lemma collected now row job nodes :
  nodes_ok nodes -> job_ok (length (objects_ levels)) job ->
  exists m, collect_bits regex_search hasher now row job nodes = Ret m /\
    forall i b n, m !! i = Some (b, n) <->
      n ∈ nodes /\ node_id n = i /\ existsb (passes i) (task_nodes job nodes) = true /\
      b = union_bits (bits_of now row job) (task_nodes job nodes) i.
Proof using.
  intros Hn Hj. destruct (collect_spec now row job nodes) as (m & Em & Hm).
  { intros. by eapply task_bits_defined. }
  fold (task_nodes job nodes) in Hm. cbn zeta in Hm. exists m. split; [done|].
  assert (Hup : forall n t, t ∈ task_nodes job nodes -> n ∈ traverseUp t -> n ∈ nodes).
  { intros n t Ht Hin. apply list_elem_of_In, List.filter_In in Ht as [Ht _].
    apply list_elem_of_In in Ht. by eapply no_closed. }
  intros i b n. specialize (Hm i). destruct (existsb (passes i) _).
  2: { rewrite Hm. split; [done|]. by intros (_ & _ & ? & _). }
  destruct Hm as (n' & t & Ht & Hin & Hi & ->). apply Hup in Hin; [|done]. split.
  - intros [= <- <-]. by split_and!.
  - intros (Hnn & Hid & _ & ->). f_equal. f_equal. rewrite <- Hid in Hi.
    by eapply (keys_unique node_id nodes); [apply Hn|..].
Qed.

(** A node above a task is no deeper than the task. *)
Lemma above_level job nodes n :
  nodes_ok nodes -> n ∈ nodes -> existsb (passes (node_id n)) (task_nodes job nodes) = true ->
  (node_level n <= levelForTasks_ job)%nat.
Proof using.
  intros Hn Hin [t [Ht Hp]]%existsb_exists. apply List.filter_In in Ht as [Ht Hl].
  apply existsb_exists in Hp as (n' & Hn' & Hid). apply Nat.eqb_eq in Hid, Hl.
  apply list_elem_of_In in Ht, Hn'.
  assert (n' = n) as ->; [|rewrite <- Hl; by eapply no_levels].
  eapply (keys_unique node_id nodes); [apply Hn|by eapply no_closed|done|done].
Qed.

(** Both loops together. *)
Lemma job_histograms now row job nodes :
  nodes_ok nodes -> job_ok (length (objects_ levels)) job ->
  exists m h, collect_bits regex_search hasher now row job nodes = Ret m /\
    foldM (count_node monitor_samples levels) ∅ (visit m) = Ret h /\
    forall l level bits, objects_ levels !! l = Some level ->
      exists ns, ns ≡ₚ members (bits_of now row job) job nodes l bits /\ cell h level bits = cell_of ns.
Proof using visit_all levels_wf.
  intros Hn Hj. destruct (collected now row job nodes Hn Hj) as (m & Em & Hm).
  assert (Hv : forall i b n, (i, (b, n)) ∈ visit m <-> m !! i = Some (b, n)).
  { intros i b n. rewrite visit_all. apply elem_of_map_to_list. }
  destruct (count_spec levels (visit m)) as (h & Eh & Hh).
  { apply Forall_forall. intros [i [b n]] (? & <- & Hp & _)%Hv%Hm.
    apply above_level in Hp; [|done|done]. pose proof (jo_level _ _ Hj). cbn. lia. }
  exists m, h. split; [done|]. split; [done|]. intros l level bits El.
  eexists. split; [|by rewrite Hh].
  assert (Hf : forall x, x ∈ List.filter (in_cell levels level bits) (visit m) <->
    m !! x.1 = Some x.2 /\ node_level x.2.2 = l /\ x.2.1 = bits).
  { intros [i [b n]]. rewrite list_elem_of_In, List.filter_In, <- list_elem_of_In, Hv. unfold in_cell.
    cbn. rewrite andb_true_iff, bool_decide_eq_true, Z.eqb_eq, <- (levels_wf level (node_level n)).
    rewrite <- (levels_wf level l) in El. rewrite El. split; intros (? & H & ?); split_and!; congruence. }
  apply NoDup_Permutation.
  - apply NoDup_fmap_2_strong.
    + intros [i [b n]] [i' [b' n']] (H1 & _)%Hf (H2 & _)%Hf E. cbn in *. subst n'.
      apply Hm in H1 as (_ & <- & _ & ->), H2 as (_ & <- & _ & ->). done.
    + apply NoDup_ListNoDup, List.NoDup_filter, NoDup_ListNoDup. rewrite visit_all.
      apply NoDup_map_to_list.
  - apply NoDup_ListNoDup, List.NoDup_filter, NoDup_ListNoDup. by eapply NoDup_fmap_1, no_unique.
  - intros n. unfold members. rewrite (list_elem_of_In _ n), in_map_iff.
    rewrite (list_elem_of_In _ n), List.filter_In, !andb_true_iff, Nat.eqb_eq, Z.eqb_eq, <- list_elem_of_In.
    split.
    + intros ([i [b n']] & En & Hx). apply list_elem_of_In, Hf in Hx. cbn in *. subst n'.
      destruct Hx as ((? & <- & ? & ?)%Hm & ? & ?). split_and!; congruence.
    + intros (Hnn & [Hl He] & Hb). exists (node_id n, (bits, n)). split; [done|].
      apply list_elem_of_In, Hf. cbn. split; [|done]. apply Hm. by split_and!.
Qed.
End Loops.

(** ** The whole update *)

Lemma getHistograms_lookup m jobs i :
  getHistograms m jobs !! i = if existsb (fun j => Nat.eqb (job_id j) i) jobs then histograms_ m !! i else None.
Proof.
  unfold getHistograms. induction jobs as [|j jobs IH] using rev_ind; [done|].
  rewrite foldl_app, existsb_app. cbn [foldl existsb]. rewrite orb_false_r.
  destruct (Nat.eqb_spec (job_id j) i) as [<-|Hne].
  - rewrite orb_true_r. destruct (histograms_ m !! job_id j) eqn:E; [by rewrite lookup_insert_eq|].
    rewrite IH. by destruct (existsb _ jobs).
  - rewrite orb_false_r, <- IH. destruct (histograms_ m !! job_id j); [|done]. by rewrite lookup_insert_ne.
Qed.

Section Histograms.
Context (regex_search : string -> string -> bool) (hasher : string -> string -> Z).
Context (monitor_samples monitor_update_ms : Z).
Context (visit_jobs : gmap string Job -> list (string * Job)).
Context (visit_jobs_all : forall m, visit_jobs m ≡ₚ map_to_list m).
Context (visit : gmap nat (Z * Node) -> list (nat * (Z * Node))).
Context (visit_all : forall m, visit m ≡ₚ map_to_list m).
Context (now : Z) (key : string) (config : Config) (snap : TaskStatusSnapshot) (nodes : list Node).
Context (levels_wf : table_wf (cfg_levels config)) (nodes_are_ok : nodes_ok nodes).

(** The jobs that get histograms. *)
Definition shown (job : Job) : bool := job_valid job && isJobLoaded snap (job_id job).

(** The histograms of a job count, in each level and for each combination of
    bits, the nodes that have it, with names of some of them. *)
Definition counts_members (job : Job) (h : LevelHistograms) : Prop :=
  forall l level bits, objects_ (cfg_levels config) !! l = Some level ->
    exists ns, ns ≡ₚ members (bits_of regex_search hasher now (rows_ snap !! job_id job) job) job nodes l bits /\
      cell h level bits = cell_of monitor_samples ns.

Lemma update_job_spec hists messages job :
  job_ok (length (objects_ (cfg_levels config))) job -> hists !! job_id job = None ->
  exists hists' messages',
    update_job regex_search hasher monitor_samples visit now key config snap nodes (hists, messages) job
      = Ret (hists', messages') /\
    (forall i, i <> job_id job -> hists' !! i = hists !! i) /\
    (if shown job then exists h, hists' !! job_id job = Some h /\ counts_members job h
     else hists' !! job_id job = None) /\
    (messages' = [] <-> messages = [] /\ (job_valid job = true -> isJobLoaded snap (job_id job) = true)).
Proof using visit_all levels_wf nodes_are_ok.
  intros Hj Hnone. unfold update_job, shown. destruct (job_valid job) eqn:Ev; cbn [negb andb].
  2: { exists hists, messages. split_and!; try done. by split; [intros ->|intros [-> _]]. }
  destruct (isJobLoaded snap (job_id job)) eqn:El; cbn [negb].
  2: { eexists _, _. split_and!; [done..|]. split; [by intros []%app_nil|].
       intros [_ H]. by specialize (H eq_refl). }
  unfold isJobLoaded in El. unfold getRow.
  destruct (rows_ snap !! job_id job) as [row|] eqn:Er; [|done]. rewrite El. cbn [CHECK mbind outcome_bind].
  destruct (job_histograms regex_search hasher monitor_samples visit visit_all (cfg_levels config) levels_wf
              now (Some row) job nodes nodes_are_ok Hj) as (m & h & -> & Hh & Hc).
  cbn [mbind outcome_bind]. rewrite Hnone. cbn [default from_option]. rewrite Hh. cbn [mbind outcome_bind].
  eexists _, _. split; [done|]. split; [intros; by apply lookup_insert_ne|]. split.
  - exists h. split; [apply lookup_insert_eq|]. intros l level bits Hl. rewrite Er. by apply Hc.
  - tauto.
Qed.

Lemma update_jobs_spec jobs hists messages :
  Forall (fun p => job_ok (length (objects_ (cfg_levels config))) p.2) jobs ->
  NoDup (map (fun p => job_id p.2) jobs) ->
  (forall p, p ∈ jobs -> hists !! job_id p.2 = None) ->
  exists hists' messages',
    update_jobs regex_search hasher monitor_samples visit now key config snap nodes (hists, messages) jobs
      = Ret (inl (hists', messages')) /\
    (forall i, (forall p, p ∈ jobs -> job_id p.2 <> i) -> hists' !! i = hists !! i) /\
    (forall p, p ∈ jobs -> if shown p.2 then exists h, hists' !! job_id p.2 = Some h /\ counts_members p.2 h
                           else hists' !! job_id p.2 = None) /\
    (messages' = [] <-> messages = [] /\ forall p, p ∈ jobs -> job_valid p.2 = true ->
       isJobLoaded snap (job_id p.2) = true).
Proof using visit_all levels_wf nodes_are_ok.
  revert hists messages. induction jobs as [|p jobs IH]; intros hists messages Hok Hnd Hnone.
  { exists hists, messages. split_and!; try done; [by intros ? ?%elem_of_nil|].
    split; [|by intros [-> _]]. intros ->. split; [done|]. by intros ? ?%elem_of_nil. }
  apply Forall_cons in Hok as [Hp Hok]. apply NoDup_cons in Hnd as [Hfresh Hnd]. cbn [update_jobs].
  assert (Hne : forall q, q ∈ jobs -> job_id q.2 <> job_id p.2).
  { intros q Hq E. apply Hfresh. rewrite <- E. by apply (list_elem_of_fmap_2 (fun p => job_id p.2)). }
  destruct (update_job_spec hists messages p.2 Hp) as (h1 & m1 & -> & Hother & Hthis & Hmsg);
    [apply Hnone; by left|].
  destruct (IH h1 m1 Hok Hnd) as (h2 & m2 & -> & Hother2 & Hthis2 & Hmsg2).
  { intros q Hq. rewrite Hother by by apply Hne. apply Hnone. by right. }
  assert (Ep : h2 !! job_id p.2 = h1 !! job_id p.2) by by apply Hother2.
  exists h2, m2. split; [done|]. split; [|split].
  - intros i Hi. rewrite Hother2 by (intros q Hq; apply Hi; by right).
    apply Hother. intros ->. by eapply Hi; [left|].
  - intros q [->|Hq]%elem_of_cons; [by rewrite Ep|by apply Hthis2].
  - rewrite Hmsg2, Hmsg. setoid_rewrite elem_of_cons. split.
    + intros [[-> H1] H2]. split; [done|]. intros q [->|Hq]; [done|by apply H2].
    + intros [-> H]. split; [split; [done|]; apply H; by left|]. intros q Hq. apply H. by right.
Qed.
End Histograms.

(** The jobs of a configuration have the levels of its nodes, and ids of their own. *)
Record config_ok (config : Config) : Prop := {
  co_levels : table_wf (cfg_levels config);
  co_jobs name job : cfg_jobs config !! name = Some job -> job_ok (length (objects_ (cfg_levels config))) job;
  co_ids n1 j1 n2 j2 : cfg_jobs config !! n1 = Some j1 -> cfg_jobs config !! n2 = Some j2 ->
    job_id j1 = job_id j2 -> n1 = n2
}.

(** C38: For nodes that all have names of their own and are a tree of the
    levels ([nodes_ok]), and jobs with ids of their own ([config_ok]), whatever
    the orders of the hash maps and the statuses are, the update of the monitor
    ends without undefined behaviour and shows histograms of
    exactly the jobs that are valid and loaded.  For each level and each
    combination of bits they count exactly the nodes of the level that lie above
    tasks of the job (or are one) and whose tasks have these bits between them,
    with the names of as many of these nodes as the flag allows.  The update
    keeps the other errors, and its own error is gone exactly if every valid
    job is loaded.  Nodes are told apart by their names: of two nodes with the
    same name only one is counted ([histogram_edges]). *)
Theorem histograms_exact regex_search hasher monitor_samples monitor_update_ms visit_jobs visit
    m now end_time location config snap nodes :
  (forall jobs : gmap string Job, visit_jobs jobs ≡ₚ map_to_list jobs) ->
  (forall bits : gmap nat (Z * Node), visit bits ≡ₚ map_to_list bits) ->
  config_ok config -> nodes_ok nodes ->
  let key := monitor_key "Updating monitor histogram" location in
  exists m', monitor_update regex_search hasher monitor_samples monitor_update_ms visit_jobs visit
               m now end_time location (Ret config) snap (Ret nodes) = Ret (m', monitor_update_ms) /\
    lastUpdateTime_ m' = Some end_time /\
    (forall name job jobs, cfg_jobs config !! name = Some job -> job ∈ jobs ->
       if shown snap job
       then exists h, getHistograms m' jobs !! job_id job = Some h /\
              counts_members regex_search hasher monitor_samples now config snap nodes job h
       else getHistograms m' jobs !! job_id job = None) /\
    (forall k, k <> key -> mon_errors m' !! k = mon_errors m !! k) /\
    (mon_errors m' !! key = None <-> forall name job, cfg_jobs config !! name = Some job ->
       job_valid job = true -> isJobLoaded snap (job_id job) = true).
Proof.
  intros Hvj Hv Hc Hn key.
  assert (Hjobs : forall p, p ∈ visit_jobs (cfg_jobs config) <-> cfg_jobs config !! p.1 = Some p.2).
  { intros [name job]. rewrite Hvj. apply elem_of_map_to_list. }
  destruct (update_jobs_spec regex_search hasher monitor_samples visit Hv now key config snap nodes
              (co_levels _ Hc) Hn (visit_jobs (cfg_jobs config)) ∅ []) as (hists & messages & E & _ & Hh & Hm).
  - apply Forall_forall. intros p Hp%Hjobs. by eapply co_jobs.
  - apply NoDup_fmap_2_strong; [|rewrite Hvj; apply NoDup_map_to_list].
    intros [n1 j1] [n2 j2] H1%Hjobs H2%Hjobs E. cbn in *.
    pose proof (co_ids _ Hc _ _ _ _ H1 H2 E) as <-. by simplify_eq.
  - done.
  - unfold monitor_update. fold key. rewrite E. cbn [mbind outcome_bind]. eexists. split; [done|].
    split; [by destruct messages|]. split; [|split].
    + intros name job jobs Hjob Hin. rewrite getHistograms_lookup.
      rewrite (proj2 (existsb_exists _ jobs)) by (exists job; by rewrite Nat.eqb_refl, <- list_elem_of_In).
      specialize (Hh (name, job) (proj2 (Hjobs (name, job)) Hjob)). by destruct messages.
    + intros k Hk. destruct messages; [by apply lookup_delete_ne|by apply lookup_insert_ne].
    + transitivity (messages = []).
      { destruct messages; cbn; [by rewrite lookup_delete_eq|by rewrite lookup_insert_eq]. }
      rewrite Hm. split.
      * intros [_ H] name job Hjob. by apply (H (name, job)), Hjobs.
      * intros H. split; [done|]. intros p Hp%Hjobs. by eapply H.
Qed.

(** When the configuration or the nodes cannot be loaded, no histograms are
    shown, the error is, and the time of the last update stays. *)
Theorem update_fails regex_search hasher monitor_samples monitor_update_ms visit_jobs visit
    m now end_time location config snap nodes what :
  let key := monitor_key "Updating monitor histogram" location in
  config = Throw what \/ (exists c, config = Ret c) /\ nodes = Throw what ->
  exists m', monitor_update regex_search hasher monitor_samples monitor_update_ms visit_jobs visit
               m now end_time location config snap nodes = Ret (m', monitor_update_ms) /\
    (forall jobs, getHistograms m' jobs = ∅) /\ lastUpdateTime_ m' = lastUpdateTime_ m /\
    mon_errors m' = <[key := (key +:+ ": " +:+ what)%string]> (mon_errors m).
Proof.
  intros key Hfail.
  exists (mkMonitor (<[key := (key +:+ ": " +:+ what)%string]> (mon_errors m)) ∅ (lastUpdateTime_ m)).
  split; [by destruct Hfail as [->|[[c ->] ->]]|]. split; [|done].
  intros jobs. apply map_eq. intros i. rewrite getHistograms_lookup. cbn [histograms_].
  by destruct (existsb _ jobs); rewrite lookup_empty.
Qed.

(** ** Samples *)

Definition sample_root : Node := mkNode 0 "instance" 0 true None [] 0.
Definition sample_leaf (id : nat) (name : string) (on : bool) : Node :=
  mkNode id name 1 on (Some sample_root) [] 0.
Definition sample_nodes : list Node :=
  [sample_root; sample_leaf 1 "a" true; sample_leaf 2 "b" true; sample_leaf 3 "c" false].
Definition empty_filters : JobFilters := mkFilters ∅ None ∅ None [] None None true None.
Definition sample_job : Job :=
  mkJob 0 "job" true true 1 1%Q [] [empty_filters; empty_filters] None "" [].
Definition two_levels : StringTable := (insert_obj (insert_obj emptyTable "instance").1 "leaf").1.
Definition sample_config : Config :=
  mkConfig two_levels (newTables two_levels)
    {["job" := sample_job]} Original "roundrobin".
(** The task on [a] runs, the others have no status. *)
Definition sample_snapshot : TaskStatusSnapshot :=
  mkSnapshot [mkRow true [emptyStatus 0; running 0]] ∅.
Definition empty_monitor : Monitor := mkMonitor ∅ ∅ None.

Lemma sample_config_ok : config_ok sample_config.
Proof.
  split; cbn [cfg_jobs cfg_levels sample_config].
  - apply insert_obj_wf, insert_obj_wf, emptyTable_wf.
  - intros name job [_ <-]%lookup_singleton_Some. split; [apply Nat.ltb_lt|..]; try done.
    repeat constructor; by left.
  - by intros n1 j1 n2 j2 [<- _]%lookup_singleton_Some [<- _]%lookup_singleton_Some.
Qed.

Lemma sample_nodes_ok : nodes_ok sample_nodes.
Proof.
  split.
  - by apply (bool_decide_unpack _).
  - intros t n Ht Hn. unfold sample_nodes in *. repeat (apply elem_of_cons in Ht as [->|Ht]); try by inversion Ht.
    all: cbn in Hn; repeat (apply elem_of_cons in Hn as [->|Hn]); try (by inversion Hn); set_solver.
  - intros t n Ht Hn. unfold sample_nodes in *. repeat (apply elem_of_cons in Ht as [->|Ht]); try by inversion Ht.
    all: cbn in Hn; repeat (apply elem_of_cons in Hn as [->|Hn]); try (by inversion Hn); cbn; lia.
Qed.

Lemma histograms_exact_witness :
  exists m' h, monitor_update (fun _ _ => false) (fun _ _ => 0) 10 5000 map_to_list map_to_list empty_monitor
      100 101 "f:1" (Ret sample_config) sample_snapshot (Ret sample_nodes) = Ret (m', 5000) /\
    getHistograms m' [sample_job] !! 0%nat = Some h /\
    exists ns, ns ≡ₚ [sample_leaf 1 "a" true] /\ cell h "leaf" Bits.Running = cell_of 10 ns.
Proof.
  destruct (histograms_exact (fun _ _ => false) (fun _ _ => 0) 10 5000 map_to_list map_to_list empty_monitor
    100 101 "f:1" sample_config sample_snapshot sample_nodes (fun _ => Permutation_refl _)
    (fun _ => Permutation_refl _) sample_config_ok sample_nodes_ok) as (m' & E & _ & H & _).
  specialize (H "job" sample_job [sample_job] eq_refl ltac:(by left)).
  replace (shown sample_snapshot sample_job) with true in H by (vm_compute; reflexivity).
  destruct H as (h & Hh & Hc). exists m', h. split; [exact E|]. split; [exact Hh|].
  exact (Hc 1%nat "leaf" Bits.Running eq_refl).
Defined.

(** The cells that an update shows of the sample job. *)
Definition shown_cells (monitor_samples : Z) (nodes : list Node) (snap : TaskStatusSnapshot)
    : outcome (list (string * list (Z * CountWithSamples))) :=
  let* r := monitor_update (fun _ _ => false) (fun _ _ => 0) monitor_samples 5000 map_to_list map_to_list
              empty_monitor 100 101 "f:1" (Ret sample_config) snap (Ret nodes) in
  Ret (map (fun p => (p.1, map_to_list p.2))
         (map_to_list (default ∅ (getHistograms r.1 [sample_job] !! 0%nat)))).

(** A node whose name another node above it has is not counted: the two have
    the same id, and the node above overwrites its entry.  A negative number of
    samples becomes unsigned and stands for no limit. *)
Theorem histogram_edges :
  shown_cells 10 [sample_root; sample_leaf 0 "instance" true] (mkSnapshot [mkRow true []] ∅)
    = Ret [("instance", [(Bits.Unstarted, (1, ["instance"]))])] /\
  shown_cells (-1) sample_nodes (mkSnapshot [mkRow true []] ∅)
    = Ret [("instance", [(Z.lor Bits.Unstarted Bits.Disabled, (1, ["instance"]))]);
           ("leaf", [(Bits.Disabled, (1, ["c"])); (Bits.Unstarted, (2, ["b"; "a"]))])].
Proof. split; vm_compute; reflexivity. Qed.
