(* ===== verification/Http.v ===== *)
(** [server/HTTPMonitor.cpp]: the JSON interface of the scheduler, which reads
    and changes the state of the other components.

    The loader of the configuration is the class [JobBackend], the task runner
    the class [TaskRunner] with its logs as a parameter.  A handler may throw
    after it has changed something, so it returns the new state and an
    [outcome].  folly's conversions, its JSON reader and writer and
    [boost::iequals] are parameters.  Logging and timing are dropped. *)

From stdpp Require Import base gmap strings list.
From Stdlib Require Import ZArith QArith Lia Ascii.
From S2P Require Import Prelude Thrift Dynamic Backoff TaskStatus SymbolTable Snapshot Scheduling Config Jobs.
From S2P Require Import Subprocess Scheduler Bistro JobConfig ThriftJob Logs Monitor.

#[local] Open Scope Z_scope.

(** ** Data *)

(** [ConfigLoader], with the methods that its subclasses implement. *)
Class JobBackend (L : Type) := {
  jb_data : L -> outcome LoadedConfig;
  jb_saveJobImpl : L -> string -> dynamic -> outcome L;
  jb_deleteJobImpl : L -> string -> outcome L
}.

(** The members of [HTTPMonitor] that requests change. *)
Record HTTPMonitor (L R : Type) := mkHttp { configLoader_ : L; hm_runner : R }.
Arguments mkHttp {L R}. Arguments configLoader_ {L R}. Arguments hm_runner {L R}.

(** ** [dynamic] *)

(** [d[k]] and [d.get_ptr(k)] of a const object. *)
Definition at_key (k : string) (kvs : list (string * dynamic)) : outcome dynamic :=
  match assoc k kvs with Some v => Ret v | None => Throw "couldn't find key in dynamic object" end.

(** [d.empty()]. *)
Definition checked_empty (d : dynamic) : outcome bool :=
  match d with
  | DBool _ | DInt _ | DDouble _ _ => Throw "TypeError"
  | _ => Ret (dyn_empty d)
  end.

(** [for (const auto& x : d)]. *)
Definition elements_of (d : dynamic) : outcome (list dynamic) :=
  match d with DArray l => Ret l | _ => Throw "TypeError" end.

(** [obj.setDefault(k)[k2] = v]. *)
Definition set_inner (k k2 : string) (v : dynamic) (obj : list (string * dynamic))
    : outcome (list (string * dynamic)) :=
  match assoc k obj with
  | None => Ret (assoc_set k (DObject [(k2, v)]) obj)
  | Some (DObject inner) => Ret (assoc_set k (DObject (assoc_set k2 v inner)) obj)
  | Some _ => Throw "TypeError"
  end.

(** [obj.setDefault(k, dynamic::array()).push_back(v)]. *)
Definition push_inner (k : string) (v : dynamic) (obj : list (string * dynamic))
    : outcome (list (string * dynamic)) :=
  match assoc k obj with
  | None => Ret (assoc_set k (DArray [v]) obj)
  | Some (DArray l) => Ret (assoc_set k (DArray (l ++ [v])) obj)
  | Some _ => Throw "TypeError"
  end.

(** ** The bits of a histogram *)

Definition encoding : string := "ABCDEFGHIJKLMNOPQRSTUVWXYZabcdefghijklmnopqrstuvwxyz0123456789-_".

(** [encoding[i]]: the terminator can be read, nothing beyond it. *)
Definition encoding_at (i : Z) : outcome ascii :=
  match String.get (Z.to_nat i) encoding with
  | Some a => Ret a
  | None => if i =? 64 then Ret zero else Undef "encoding[i]"
  end.
Definition encode_bits (bits : Z) : outcome string :=
  let* low := encoding_at (Z.land bits 63) in
  if Z.shiftr bits 6 =? 0 then Ret (String low EmptyString)
  else let* high := encoding_at (Z.shiftr bits 6) in Ret (String low (String high EmptyString)).

Section Handlers.
Context {L R : Type} `{JobBackend L} `{TaskRunner R}.
Context (ofDouble : Q -> dynamic).
Context (asString : dynamic -> outcome string) (asInt : dynamic -> outcome Z).
Context (convertToStrings : dynamic -> outcome (list string)).
Context (toInt64 : string -> outcome Z) (printInt : Z -> string) (iequals : string -> string -> bool).
(** [TaskRunner::getJobLogs]. *)
Context (getJobLogs : R -> string -> list string -> list string -> Z -> bool -> string -> outcome LogLines).
(** What the other components hold: the nodes, the monitor, the clock. *)
Context (nodes : outcome (list Node)) (monitor : Monitor) (now : Z).

(** ** Reading *)

(** [getRequestedJobs]. *)
Definition getRequestedJobs (c : LoadedConfig) (kvs : list (string * dynamic)) : outcome (list JobSpec) :=
  let all := map snd (map_to_list (lc_jobs c)) in
  match assoc "jobs" kvs with
  | None => Ret all
  | Some p =>
      let* e := checked_empty p in
      if (e : bool) then Ret all
      else
        let* l := elements_of p in
        foldM (fun jobs j =>
                 let* name := asString j in
                 Ret (match lc_jobs c !! name with Some job => jobs ++ [job] | None => jobs end)) [] l
  end.

(** [handleJobs]. *)
Definition handleJobs (table : StringTable) (c : LoadedConfig) (jobs : list JobSpec) : outcome dynamic :=
  let* ret := foldM (fun ret job =>
                       let* d := job_toDynamic ofDouble (lc_defaults c) table job in
                       Ret (assoc_set (js_name job) d ret)) [] jobs in
  Ret (DObject ret).

(** [handleSortedNodeNames]. *)
Definition handleSortedNodeNames (c : LoadedConfig) : outcome dynamic :=
  let* ns := nodes in
  let* ret := foldM (fun ret n =>
                       let* level := lookup_id (jd_levels (lc_defaults c)) (node_level n) in
                       push_inner level (DString (node_name n)) ret) [] ns in
  Ret (DObject ret).

(** The resources of a level in [handleNodes]. *)
Definition node_resources (t : ResourceTables) (level : nat) : outcome (list (string * dynamic)) :=
  match levelIDToResourceID t !! level with
  | None => Undef "levelIDToResourceID[level]"
  | Some rids =>
      foldM (fun resources r_id =>
               let* r_name := lookup_id (resourceNames t) r_id in
               match defaultJobResources t !! r_id, resourcesByLevel t !! level ≫= (fun l => l !! r_id),
                     resourceIDToWeight t !! r_id with
               | Some def, Some limit, Some weight =>
                   Ret (assoc_set r_name (DObject ([("default", DInt def); ("limit", DInt limit)] ++
                          (if 0 <? weight then [("weight", DInt weight)] else []))) resources)
               | _, _, _ => Undef "resource tables"
               end) [] rids
  end.

(** The fields that [handleNodes] is asked for: [field_disabled] and
    [field_resources]. *)
Definition requested_fields (kvs : list (string * dynamic)) : outcome (bool * bool) :=
  let* e := checked_empty (default (DArray []) (assoc "fields" kvs)) in
  if (e : bool) then Ret (true, true)
  else
    let* d := at_key "fields" kvs in
    let* l := elements_of d in
    foldM (fun fields field =>
             let* fieldName := asString field in
             if bool_decide (fieldName = "resources") then Ret (fields.1, true)
             else if bool_decide (fieldName = "disabled") then Ret (true, fields.2)
             else Throw ("Unknown field name: " +:+ fieldName)) (false, false) l.

(** The nodes that [handleNodes] is asked for, [None] for all. *)
Definition requested_nodes (kvs : list (string * dynamic)) : outcome (option (list string)) :=
  let* e := checked_empty (default (DArray []) (assoc "nodes" kvs)) in
  if (e : bool) then Ret None
  else
    let* d := at_key "nodes" kvs in
    let* l := elements_of d in
    let* names := mapM asString l in
    Ret (Some names).

(** [handleNodes]. *)
Definition handleNodes (c : LoadedConfig) (kvs : list (string * dynamic)) : outcome dynamic :=
  let* do_this_node := requested_nodes kvs in
  let* (field_disabled, field_resources) := requested_fields kvs in
  let* ns := nodes in
  let* results :=
    foldM (fun results n =>
             if match do_this_node with None => true | Some names => bool_decide (node_name n ∈ names) end
             then
               let* levelString := lookup_id (jd_levels (lc_defaults c)) (node_level n) in
               let* res := if (field_resources : bool)
                           then let* resources := node_resources (jd_tables (lc_defaults c)) (node_level n) in
                                Ret [("resources", DObject resources)]
                           else Ret [] in
               let res := res ++ if field_disabled && negb (node_enabled n)
                                 then [("disabled", DBool true)] else [] in
               set_inner levelString (node_name n) (DObject res) results
             else Ret results) [] ns in
  Ret (DObject [("results", DObject results)]).

(** [getJobNameSet]. *)
Definition getJobNameSet (kvs : list (string * dynamic)) : outcome (gset string) :=
  match assoc "jobs" kvs with
  | None => Ret ∅
  | Some p => let* l := elements_of p in let* names := mapM asString l in Ret (list_to_set names)
  end.

(** The loop of [handleTaskRuntime] and [handleRunningTasks]. *)
Definition running_by_job (ts : TaskStatuses) (show : RunningTask -> dynamic)
    (kvs : list (string * dynamic)) : outcome dynamic :=
  let* job_names := getJobNameSet kvs in
  let* ret := foldM (fun ret p =>
                       let rt : RunningTask := p.2 in
                       if bool_decide (job_names = ∅) || bool_decide (rt_job rt ∈ job_names)
                       then set_inner (rt_job rt) (rt_node rt) (show rt) ret
                       else Ret ret) [] (map_to_list (runningTasks_ (snapshot_ ts))) in
  Ret (DObject ret).
Definition handleTaskRuntime (ts : TaskStatuses) : list (string * dynamic) -> outcome dynamic :=
  running_by_job ts (fun rt => DInt (now - startTime (rt_invocationID rt))).
Definition handleRunningTasks (ts : TaskStatuses) : list (string * dynamic) -> outcome dynamic :=
  running_by_job ts (fun rt => DObject [("start_time", DInt (startTime (rt_invocationID rt)));
                                        ("worker_shard", DString (rt_workerShard rt))]).

(** *** Histograms *)

(** [all_samples.size() <= num_samples ? ... : ...], compared as unsigned. *)
Definition some_samples (num_samples : Z) (all_samples : list string) : dynamic :=
  DArray (map DString
    (if Z.of_nat (length all_samples) <=? u64 num_samples then all_samples
     else take (Z.to_nat num_samples) all_samples)).

(** One row: [by_level] and [samples_by_level]. *)
Definition row_objects (num_samples : Z) (row : HistogramRow)
    : outcome (list (string * dynamic) * list (string * dynamic)) :=
  foldM (fun acc values =>
           let '(by_level, samples_by_level) := acc in
           let '(bits, (count, all_samples)) := values in
           let* encoded := encode_bits bits in
           Ret (assoc_set encoded (DInt count) by_level,
                if num_samples =? 0 then samples_by_level
                else assoc_set encoded (some_samples num_samples all_samples) samples_by_level))
    ([], []) (map_to_list row).

(** One job: its levels. *)
Definition job_objects (num_samples : Z) (h : LevelHistograms)
    : outcome (list (string * dynamic) * list (string * dynamic)) :=
  foldM (fun acc (p : string * HistogramRow) =>
           let* (by_level, samples_by_level) := row_objects num_samples p.2 in
           Ret (assoc_set p.1 (DObject by_level) acc.1,
                assoc_set p.1 (DObject samples_by_level) acc.2))
    ([], []) (map_to_list h).

(** [handleHistograms]. *)
Definition handleHistograms (jobs : list JobSpec) (num_samples : Z) : outcome dynamic :=
  let hists := getHistograms monitor (map scheduler_job jobs) in
  let* (ret, samples) :=
    foldM (fun acc job =>
             match hists !! js_id job with
             | None => Ret acc
             | Some h =>
                 let* (by_level, samples_by_level) := job_objects num_samples h in
                 Ret (assoc_set (js_name job) (DObject by_level) acc.1,
                      assoc_set (js_name job) (DObject samples_by_level) acc.2)
             end) ([], []) jobs in
  Ret (DObject ([("histograms", DObject ret)] ++
                if num_samples =? 0 then [] else [("samples", DObject samples)])).

(** *** Logs *)

Definition log_line_dynamic (l : LogLine) : dynamic :=
  DArray [DString (ll_jobID l); DString (ll_nodeID l); DInt (ll_time l); DString (ll_line l);
          DString (printInt (ll_lineID l))].

(** [convertTo<vector<string>>] of an optional key. *)
Definition strings_at (k : string) (kvs : list (string * dynamic)) : outcome (list string) :=
  match assoc k kvs with None => Ret [] | Some d => convertToStrings d end.

(** The line to start from, of ["time"] or ["line_id"]; the time is an [int32_t]. *)
Definition requested_line (is_ascending : bool) (kvs : list (string * dynamic)) : outcome Z :=
  let* line_id := match assoc "time" kvs with
                  | None => Ret kNotALineID
                  | Some d => let* t := asInt d in Ret (lineIDFromTime (s32 t) is_ascending)
                  end in
  match assoc "line_id" kvs with
  | None => Ret line_id
  | Some d =>
      require (line_id =? kNotALineID) "Cannot specify both time and line_id" ;;;
      let* s := asString d in toInt64 s
  end.

(** [handleTaskLogs]. *)
Definition handleTaskLogs (r : R) (kvs : list (string * dynamic)) : outcome dynamic :=
  match assoc "columns" kvs with
  | Some _ => Throw "Custom columns are currently not supported."
  | None =>
      let* job_ids := strings_at "jobs" kvs in
      let* node_ids := strings_at "nodes" kvs in
      let* asc_or_desc := asString (default (DString "desc") (assoc "sort" kvs)) in
      let* is_ascending := if iequals asc_or_desc "asc" then Ret true
                           else if iequals asc_or_desc "desc" then Ret false
                           else Throw ("Unknown sort order: " +:+ asc_or_desc) in
      let* line_id := requested_line is_ascending kvs in
      let* d := at_key "log_type" kvs in
      let* log_type := asString d in
      let* regex_filter := asString (default (DString "") (assoc "regex_filter" kvs)) in
      let* log := getJobLogs r log_type job_ids node_ids line_id is_ascending regex_filter in
      Ret (DObject [("next_line_id", DString (printInt (nextLineID log)));
                    ("lines", DArray (map log_line_dynamic (lines log)))])
  end.

(** ** Changing *)

Abbreviation Http := (HTTPMonitor L R).

(** A call that changes the state and then answers [ok]. *)
Definition changing (h : Http) (m : outcome Http) (ok : string) : Http * outcome dynamic :=
  match m with
  | Ret h' => (h', Ret (DString ok))
  | Throw e => (h, Throw e)
  | Crash e => (h, Crash e)
  | Undef e => (h, Undef e)
  end.

Definition job_names (h : Http) : StringTable := JobNameTable (names_ (tr_statuses (hm_runner h))).

(** [configLoader_->saveJob] and [deleteJob]. *)
Definition http_saveJob (h : Http) (name : string) (job : dynamic) : outcome Http :=
  let* l := saveJob ofDouble (job_names h) (jb_data (configLoader_ h))
              (jb_saveJobImpl (configLoader_ h)) name job in
  Ret (mkHttp l (hm_runner h)).
Definition http_deleteJob (h : Http) (name : string) : outcome Http :=
  let* l := deleteJob ofDouble (job_names h) (jb_data (configLoader_ h))
              (jb_deleteJobImpl (configLoader_ h)) name in
  Ret (mkHttp l (hm_runner h)).

(** The loop of ["forgive_jobs"]: an exception leaves the jobs before it forgiven. *)
Fixpoint http_forgive (h : Http) (l : list dynamic) : Http * outcome dynamic :=
  match l with
  | [] => (h, Ret (DString "forgiven"))
  | j :: l' =>
      match (let* name := asString j in ts_forgiveJob (tr_statuses (hm_runner h)) name) with
      | Ret ts => http_forgive (mkHttp (configLoader_ h) (tr_set_statuses (hm_runner h) ts)) l'
      | Throw e => (h, Throw e)
      | Crash e => (h, Crash e)
      | Undef e => (h, Undef e)
      end
  end.

(** ["kill_task"]. *)
Definition http_kill (h : Http) (c : LoadedConfig) (kvs : list (string * dynamic)) : outcome Http :=
  let* d := at_key "job_id" kvs in
  let* job := asString d in
  let* d := at_key "node_id" kvs in
  let* node := asString d in
  match lc_jobs c !! job with
  | None => Throw ("Unknown job " +:+ job)
  | Some spec =>
      let ts := tr_statuses (hm_runner h) in
      match lookup_obj (JobNameTable (names_ ts)) job, lookup_obj (NodeNameTable (names_ ts)) node with
      | Some job_id, Some node_id =>
          match copyRunningTask ts job_id node_id with
          | Some rt => let* r := tr_killTask (hm_runner h) rt (js_killRequest spec) in
                       Ret (mkHttp (configLoader_ h) r)
          | None => Throw ("Unknown running task " +:+ job +:+ ", " +:+ node)
          end
      | _, _ => Throw ("Unknown running task " +:+ job +:+ ", " +:+ node)
      end
  end.

(** [handleSingle] for a handler that reads; [None] if there is none. *)
Definition reading_handler (h : Http) (c : LoadedConfig) (handler : string) (kvs : list (string * dynamic))
    : option (outcome dynamic) :=
  let ts := tr_statuses (hm_runner h) in
  if bool_decide (handler = "errors")
  then Some (Ret (DObject (map (fun p => (p.1, DString p.2)) (map_to_list (mon_errors monitor)))))
  else if bool_decide (handler = "refresh_time")
  then Some (match lastUpdateTime_ monitor with
             | Some t => Ret (DInt t) | None => Undef "lastUpdateTime_" end)
  else if bool_decide (handler = "jobs")
  then Some (let* jobs := getRequestedJobs c kvs in handleJobs (job_names h) c jobs)
  else if bool_decide (handler = "sorted_node_names") then Some (handleSortedNodeNames c)
  else if bool_decide (handler = "job_node_runtime") then Some (handleTaskRuntime ts kvs)
  else if bool_decide (handler = "running_tasks") then Some (handleRunningTasks ts kvs)
  else if bool_decide (handler = "histogram")
  then Some (let* jobs := getRequestedJobs c kvs in
             let* n := asInt (default (DInt 0) (assoc "num_samples" kvs)) in
             handleHistograms jobs (s32 n))
  else if bool_decide (handler = "task_logs") then Some (handleTaskLogs (hm_runner h) kvs)
  else if bool_decide (handler = "nodes") then Some (handleNodes c kvs)
  else None.

(** [handleSingle]. *)
Definition handleSingle (h : Http) (c : LoadedConfig) (d : dynamic) : Http * outcome dynamic :=
  match d with
  | DObject kvs =>
      match (let* v := at_key "handler" kvs in asString v) with
      | Ret handler =>
          match reading_handler h c handler kvs with
          | Some o => (h, o)
          | None =>
              if bool_decide (handler = "delete_job")
              then changing h (let* v := at_key "job_id" kvs in
                               let* name := asString v in http_deleteJob h name) "deleted"
              else if bool_decide (handler = "save_job")
              then changing h (let* v := at_key "job_id" kvs in
                               let* name := asString v in
                               let* job := at_key "job" kvs in http_saveJob h name job) "saved"
              else if bool_decide (handler = "forgive_jobs")
              then match assoc "jobs" kvs with
                   | None => (h, Ret (DString "forgiven"))
                   | Some p => match elements_of p with
                               | Ret l => http_forgive h l
                               | Throw e => (h, Throw e)
                               | Crash e => (h, Crash e)
                               | Undef e => (h, Undef e)
                               end
                   end
              else if bool_decide (handler = "kill_task") then changing h (http_kill h c kvs) "signaled"
              else (h, Throw ("Unknown handler: " +:+ handler))
          end
      | Throw e => (h, Throw e)
      | Crash e => (h, Crash e)
      | Undef e => (h, Undef e)
      end
  | _ => (h, Throw "TypeError")
  end.

(** ** [handleRequest] *)

Context (parseJson : string -> outcome dynamic) (toJson : dynamic -> outcome string).

(** The answer to one part of a request. *)
Definition answer_of (o : dynamic + string) : dynamic :=
  match o with
  | inl d => DObject [("data", d)]
  | inr e => DObject [("error", DString e)]
  end.

(** The loop over the parts. *)
Fixpoint handle_parts (h : Http) (c : LoadedConfig) (ret : list (string * dynamic))
    (parts : list (string * dynamic)) : Http * outcome (list (string * dynamic)) :=
  match parts with
  | [] => (h, Ret ret)
  | part :: parts' =>
      match handleSingle h c part.2 with
      | (h', Ret d) => handle_parts h' c (assoc_set part.1 (answer_of (inl d)) ret) parts'
      | (h', Throw e) => handle_parts h' c (assoc_set part.1 (answer_of (inr e)) ret) parts'
      | (h', Crash e) => (h', Crash e)
      | (h', Undef e) => (h', Undef e)
      end
  end.

Definition handleRequest (h : Http) (request : string) : Http * outcome string :=
  match (let* d := parseJson request in
         match d with
         | DObject kvs => let* c := jb_data (configLoader_ h) in Ret (c, assoc_erase "prefs" kvs)
         | _ => Throw "TypeError"
         end) with
  | Ret (c, parts) =>
      match handle_parts h c [] parts with
      | (h', Ret ret) => (h', toJson (DObject ret))
      | (h', Throw e) => (h', Throw e)
      | (h', Crash e) => (h', Crash e)
      | (h', Undef e) => (h', Undef e)
      end
  | Throw e => (h, toJson (DString e))
  | Crash e => (h, Crash e)
  | Undef e => (h, Undef e)
  end.
End Handlers.

(** ** The bits can be read back *)

Definition decode_char (a : ascii) : option Z := Z.of_nat <$> String.index 0 (String a EmptyString) encoding.
Definition decode_bits (s : string) : option Z :=
  match s with
  | String low EmptyString => decode_char low
  | String low (String high EmptyString) =>
      l ← decode_char low; h ← decode_char high; Some (l + Z.shiftl h 6)
  | _ => None
  end.

Lemma decode_all : forallb (fun n => match encode_bits (Z.of_nat n) with
    | Ret s => bool_decide (decode_bits s = Some (Z.of_nat n)) | _ => false end) (seq 0 4096) = true.
Proof. vm_compute. reflexivity. Qed.

Lemma encode_decode bits : 0 <= bits < 4096 ->
  exists s, encode_bits bits = Ret s /\ decode_bits s = Some bits.
Proof.
  intros Hb. pose proof (proj1 (forallb_forall _ _) decode_all (Z.to_nat bits)) as H.
  assert (Hin : In (Z.to_nat bits) (seq 0 4096)) by (apply in_seq; lia).
  specialize (H Hin). cbn beta in H. rewrite Z2Nat.id in H by lia. destruct (encode_bits bits) as [s| | |]; try done.
  apply bool_decide_eq_true in H. eauto.
Qed.

(** The string of encodable bits. *)
Definition code_of (bits : Z) : string := match encode_bits bits with Ret s => s | _ => "" end.

Lemma code_of_eq bits : 0 <= bits < 4096 -> encode_bits bits = Ret (code_of bits).
Proof. intros (s & E & _)%encode_decode. unfold code_of. by rewrite E. Qed.

Lemma code_of_inj a b : 0 <= a < 4096 -> 0 <= b < 4096 -> code_of a = code_of b -> a = b.
Proof.
  intros (s & Es & Ds)%encode_decode (t & Et & Dt)%encode_decode. unfold code_of. rewrite Es, Et.
  congruence.
Qed.

(** ** Loops that fill two objects *)

(** A loop that sets a key of its own for each element in two objects, the
    second unless it is skipped, makes exactly these keys. *)
Lemma put_loop {X} (f : list (string * dynamic) * list (string * dynamic) -> X ->
      outcome (list (string * dynamic) * list (string * dynamic)))
    (code : X -> string) (value : X -> option (dynamic * dynamic)) (skip : bool) l :
  (forall acc x, x ∈ l -> f acc x =
     match value x with
     | None => Ret acc
     | Some v => Ret (assoc_set (code x) v.1 acc.1, if skip then acc.2 else assoc_set (code x) v.2 acc.2)
     end) ->
  (forall x y, x ∈ l -> y ∈ l -> code x = code y -> value x = value y) ->
  exists o1 o2, foldM f ([], []) l = Ret (o1, o2) /\
    (forall x, x ∈ l -> assoc (code x) o1 = fst <$> value x) /\
    (forall s, (forall x, x ∈ l -> code x <> s) -> assoc s o1 = None /\ assoc s o2 = None) /\
    (skip = false -> forall x, x ∈ l -> assoc (code x) o2 = snd <$> value x).
Proof.
  induction l as [|x l IH] using rev_ind; intros Hf Hinj.
  { exists [], []. split_and!; try done; intros; by inversion select (_ ∈ []). }
  destruct IH as (o1 & o2 & E & H1 & Hnone & H2); [set_solver..|].
  rewrite foldM_app, E. cbn [mbind outcome_bind foldM]. rewrite Hf by set_solver.
  assert (Hlast : forall y, y ∈ l -> code y = code x -> value y = value x) by set_solver.
  setoid_rewrite elem_of_app. setoid_rewrite list_elem_of_singleton.
  destruct (value x) as [v|] eqn:Ev; cbn [mbind outcome_bind]; eexists _, _; (split; [reflexivity|]).
  - split_and!.
    + intros y [Hy| ->]; [|by rewrite assoc_set_eq, Ev].
      destruct (decide (code y = code x)) as [Hc|Hc]; [by rewrite Hc, assoc_set_eq, (Hlast y Hy Hc)|].
      rewrite assoc_set_ne by done. by apply H1.
    + intros s Hs. rewrite assoc_set_ne by (intros ->; eapply Hs; [by right|done]).
      destruct (Hnone s) as [? Hn2]; [intros y Hy; apply Hs; by left|]. split; [done|].
      destruct skip; [done|]. rewrite assoc_set_ne; [done|]. intros ->. by eapply Hs; [right|].
    + intros -> y [Hy| ->]; [|by rewrite assoc_set_eq, Ev].
      destruct (decide (code y = code x)) as [Hc|Hc]; [by rewrite Hc, assoc_set_eq, (Hlast y Hy Hc)|].
      rewrite assoc_set_ne by done. by apply H2.
  - assert (Hx : assoc (code x) o1 = None /\ (skip = false -> assoc (code x) o2 = None)).
    { destruct (decide (Exists (fun y => code y = code x) l)) as [(y & Hy & Hc)%Exists_exists|Hne].
      - rewrite <- Hc. split; [rewrite (H1 y Hy)|intros Hs; rewrite (H2 Hs y Hy)]; by rewrite (Hlast y Hy Hc).
      - destruct (Hnone (code x)) as [? ?]; [|by split]. intros y Hy Hc. apply Hne, Exists_exists. eauto. }
    split_and!.
    + intros y [Hy| ->]; [by apply H1|]. by rewrite Ev, (proj1 Hx).
    + intros s Hs. apply Hnone. intros y Hy. apply Hs. by left.
    + intros Hs y [Hy| ->]; [by apply H2|]. by rewrite Ev, (proj2 Hx Hs).
Qed.

(** ** The histograms can be read back *)

(** [d[k1][k2]...], if it exists. *)
Fixpoint get_path (d : dynamic) (path : list string) : option dynamic :=
  match path with
  | [] => Some d
  | k :: path' => match d with DObject kvs => d' ← assoc k kvs; get_path d' path' | _ => None end
  end.

(** Status bits have at most 12 digits. *)
Definition bits_fit (m : Monitor) : Prop :=
  forall id h level row bits c, histograms_ m !! id = Some h -> h !! level = Some row ->
    row !! bits = Some c -> 0 <= bits < 4096.

Section HistogramJson.
Context (n : Z).

(** What the two objects of a row show of it. *)
Definition row_shows (row : HistogramRow) (o1 o2 : list (string * dynamic)) : Prop :=
    (forall bits, 0 <= bits < 4096 -> assoc (code_of bits) o1 = (fun c => DInt c.1) <$> row !! bits) /\
    (forall s v, assoc s o1 = Some v -> exists bits, 0 <= bits < 4096 /\ s = code_of bits) /\
    (n <> 0 -> forall bits, 0 <= bits < 4096 ->
       assoc (code_of bits) o2 = (fun c => some_samples n c.2) <$> row !! bits).

Lemma row_objects_spec row :
  (forall bits c, row !! bits = Some c -> 0 <= bits < 4096) ->
  exists o1 o2, row_objects n row = Ret (o1, o2) /\ row_shows row o1 o2.
Proof.
  intros Hrow. assert (Hin : forall x, x ∈ map_to_list row <-> row !! x.1 = Some x.2)
    by (intros [b c]; apply elem_of_map_to_list).
  destruct (put_loop (fun acc values =>
      let '(by_level, samples_by_level) := acc in
      let '(bits, (count, all_samples)) := values in
      let* encoded := encode_bits bits in
      Ret (assoc_set encoded (DInt count) by_level,
           if n =? 0 then samples_by_level
           else assoc_set encoded (some_samples n all_samples) samples_by_level))
    (fun x => code_of x.1) (fun x => Some (DInt x.2.1, some_samples n x.2.2)) (n =? 0) (map_to_list row))
    as (o1 & o2 & E & H1 & Hnone & H2).
  - intros [a b] [bits [c s]] Hx%Hin%Hrow. cbn in Hx |- *. by rewrite (code_of_eq bits Hx).
  - intros x y Hx%Hin Hy%Hin E%code_of_inj; [|by eapply Hrow..]. rewrite E, Hy in Hx. by injection Hx as ->.
  - exists o1, o2. split; [exact E|].
    assert (Hno : forall bits, 0 <= bits < 4096 -> row !! bits = None ->
      assoc (code_of bits) o1 = None /\ assoc (code_of bits) o2 = None).
    { intros bits Hb Eb. apply Hnone. intros x Hx%Hin Hc. apply code_of_inj in Hc; [|by eapply Hrow|done].
      rewrite Hc in Hx. congruence. }
    split_and!.
    + intros bits Hb. destruct (row !! bits) as [c|] eqn:Eb; [|by apply Hno].
      by apply (H1 (bits, c)), Hin.
    + intros s v Hs. destruct (decide (Exists (fun x => code_of x.1 = s) (map_to_list row)))
        as [(x & Hx%Hin & Hc)%Exists_exists|Hne]; [exists x.1; split; [by eapply Hrow|done]|].
      destruct (Hnone s) as [H _]; [|congruence]. intros x Hx Hc. apply Hne, Exists_exists. eauto.
    + intros Hn bits Hb. apply Z.eqb_neq in Hn. destruct (row !! bits) as [c|] eqn:Eb; [|by apply Hno].
      by apply (H2 Hn (bits, c)), Hin.
Qed.

(** What the two objects of a job show of it. *)
Definition shows (h : LevelHistograms) (d d2 : dynamic) : Prop :=
  (forall level bits, 0 <= bits < 4096 ->
     get_path d [level; code_of bits] = (fun c => DInt c.1) <$> cell h level bits) /\
  (forall level s v, get_path d [level; s] = Some v -> exists bits, 0 <= bits < 4096 /\ s = code_of bits) /\
  (n <> 0 -> forall level bits, 0 <= bits < 4096 ->
     get_path d2 [level; code_of bits] = (fun c => some_samples n c.2) <$> cell h level bits).

Lemma job_objects_spec h :
  (forall level row bits c, h !! level = Some row -> row !! bits = Some c -> 0 <= bits < 4096) ->
  exists o1 o2, job_objects n h = Ret (o1, o2) /\ shows h (DObject o1) (DObject o2).
Proof.
  intros Hh. assert (Hin : forall x, x ∈ map_to_list h <-> h !! x.1 = Some x.2)
    by (intros [l r]; apply elem_of_map_to_list).
  pose (value := fun x : string * HistogramRow =>
    match row_objects n x.2 with Ret (a, b) => Some (DObject a, DObject b) | _ => None end).
  destruct (put_loop (fun acc (p : string * HistogramRow) =>
      let* (by_level, samples_by_level) := row_objects n p.2 in
      Ret (assoc_set p.1 (DObject by_level) acc.1, assoc_set p.1 (DObject samples_by_level) acc.2))
    fst value false (map_to_list h)) as (o1 & o2 & E & H1 & Hnone & H2).
  - intros acc x Hx%Hin. unfold value. destruct (row_objects_spec x.2) as (a & b & -> & _); [|done].
    intros bits c. by apply Hh with x.1.
  - intros [l x] [l' y] Hx%Hin Hy%Hin El. cbn in *. congruence.
  - exists o1, o2. split; [exact E|]. specialize (H2 eq_refl).
    assert (Hlev : forall level, match h !! level with
      | None => assoc level o1 = None /\ assoc level o2 = None
      | Some row => exists a b, row_shows row a b /\
          assoc level o1 = Some (DObject a) /\ assoc level o2 = Some (DObject b)
      end).
    { intros level. destruct (h !! level) as [row|] eqn:El.
      - destruct (row_objects_spec row) as (a & b & Er & Hs); [by intros bits c; apply (Hh level)|].
        exists a, b. split; [done|]. assert (Hx : (level, row) ∈ map_to_list h) by by apply Hin.
        pose proof (H1 _ Hx) as K1. pose proof (H2 _ Hx) as K2. unfold value in K1, K2. cbn in K1, K2.
        by rewrite Er in K1, K2.
      - apply Hnone. intros x Hx%Hin <-. congruence. }
    unfold shows, cell. cbn [get_path].
    split_and!.
    + intros level bits Hb. specialize (Hlev level). destruct (h !! level) as [row|]; cbn.
      * destruct Hlev as (a & b & (Hr & _) & -> & _). cbn. rewrite (Hr bits Hb). by destruct (row !! bits).
      * by rewrite (proj1 Hlev).
    + intros level s v. specialize (Hlev level). destruct (h !! level) as [row|]; cbn.
      * destruct Hlev as (a & b & (_ & Hr & _) & -> & _). cbn. intros Hs.
        destruct (assoc s a) eqn:Ea; [by eapply Hr|done].
      * by rewrite (proj1 Hlev).
    + intros Hn level bits Hb. specialize (Hlev level). destruct (h !! level) as [row|]; cbn.
      * destruct Hlev as (a & b & (_ & _ & Hr) & _ & ->). cbn. rewrite (Hr Hn bits Hb). by destruct (row !! bits).
      * by rewrite (proj2 Hlev).
Qed.
End HistogramJson.

(** For jobs whose names differ and bits of at most 12 digits, the JSON of
    the histograms can be read back: the number under a job, a level and the code
    of some bits is the monitor's count, it is missing exactly if the monitor has
    no such count, every code decodes to the bits it stands for, and so with the
    samples if any were asked for. *)
Theorem histograms_readable monitor jobs n :
  bits_fit monitor ->
  (forall a b, a ∈ jobs -> b ∈ jobs -> js_name a = js_name b -> js_id a = js_id b) ->
  exists d, handleHistograms monitor jobs n = Ret d /\
    forall job, job ∈ jobs ->
      (forall level bits, 0 <= bits < 4096 ->
         decode_bits (code_of bits) = Some bits /\
         let count := histograms_ monitor !! js_id job ≫= fun h => cell h level bits in
         get_path d ["histograms"; js_name job; level; code_of bits] = (fun c => DInt c.1) <$> count /\
         (n <> 0 -> get_path d ["samples"; js_name job; level; code_of bits] =
                    (fun c => some_samples n c.2) <$> count)) /\
      forall level s v, get_path d ["histograms"; js_name job; level; s] = Some v ->
        exists bits, 0 <= bits < 4096 /\ s = code_of bits.
Proof.
  intros Hfit Hnames.
  pose (hist := fun job => histograms_ monitor !! js_id job).
  pose (value := fun job => h ← hist job;
    match job_objects n h with Ret (a, b) => Some (DObject a, DObject b) | _ => None end).
  assert (Hget : forall job, job ∈ jobs -> getHistograms monitor (map scheduler_job jobs) !! js_id job = hist job).
  { intros job Hj. rewrite getHistograms_lookup, (proj2 (existsb_exists _ _)); [done|].
    exists (scheduler_job job). split; [by apply in_map, list_elem_of_In|apply Nat.eqb_refl]. }
  assert (Hobj : forall job h, hist job = Some h -> exists a b, job_objects n h = Ret (a, b) /\
    shows n h (DObject a) (DObject b)).
  { intros job h Eh. apply job_objects_spec. intros level row bits c. by eapply Hfit. }
  unfold handleHistograms. edestruct (put_loop (X := JobSpec)) with (code := js_name) (value := value)
    (skip := false) (l := jobs) as (o1 & o2 & -> & H1 & _ & H2).
  - intros acc job Hj. cbn beta. rewrite (Hget job Hj). unfold value.
    destruct (hist job) as [h|] eqn:Eh; [|done]. cbn [mbind option_bind].
    destruct (Hobj job h Eh) as (a & b & -> & _). done.
  - intros a b Ha Hb E. unfold value, hist. by rewrite (Hnames a b Ha Hb E).
  - cbn [mbind outcome_bind]. eexists. split; [done|]. intros job Hj.
    set (d := DObject _).
    assert (G1 : forall path, get_path d ("histograms" :: js_name job :: path) =
      (v ← fst <$> value job; get_path v path)) by (intros path; cbn; by rewrite <- (H1 job Hj)).
    assert (G2 : n <> 0 -> forall path, get_path d ("samples" :: js_name job :: path) =
      (v ← snd <$> value job; get_path v path)).
    { intros Hn path. unfold d. rewrite (proj2 (Z.eqb_neq n 0) Hn). cbn. by rewrite <- (H2 eq_refl job Hj). }
    clearbody d. unfold value in G1, G2. fold (hist job). setoid_rewrite G1.
    assert (Hdec : forall bits, 0 <= bits < 4096 -> decode_bits (code_of bits) = Some bits).
    { intros bits (s & Es & Ds)%encode_decode. unfold code_of. by rewrite Es. }
    destruct (hist job) as [h|] eqn:Eh; cbn [mbind option_bind] in G1, G2 |- *.
    + destruct (Hobj job h Eh) as (a & b & Eo & Hs & Hcodes & Hsamples). rewrite Eo in G1, G2 |- *.
      split; [|by intros level s v; apply Hcodes]. intros level bits Hb.
      split; [by apply Hdec|]. split; [by apply Hs|]. intros Hn. rewrite (G2 Hn). by apply Hsamples.
    + split; [|done]. intros level bits Hb. split; [by apply Hdec|]. split; [done|]. intros Hn. by rewrite (G2 Hn).
Qed.

(** ** Every request is answered *)

(** The call returns or throws: the process goes on. *)
Definition survives {A} (m : outcome A) : Prop :=
  match m with Ret _ | Throw _ => True | _ => False end.

Lemma survives_bind {A B} (m : outcome A) (f : A -> outcome B) :
  survives m -> (forall a, m = Ret a -> survives (f a)) -> survives (m ≫= f).
Proof. destruct m; cbn; auto. Qed.

Lemma survives_foldM {A B} (f : B -> A -> outcome B) l b :
  (forall b a, a ∈ l -> survives (f b a)) -> survives (foldM f b l).
Proof.
  revert b. induction l as [|a l IH]; intros b Hf; [done|]. cbn [foldM].
  apply survives_bind; [apply Hf; by left|]. intros b' _. apply IH. intros. apply Hf. by right.
Qed.

Lemma survives_mapM {A B} (f : A -> outcome B) l :
  (forall a, survives (f a)) -> survives (mapM f l).
Proof.
  intros Hf. induction l as [|a l IH]; [done|]. cbn.
  apply survives_bind; [apply Hf|]. intros b _. by apply survives_bind.
Qed.

(** What the handlers rely on: the loader's configurations can be printed and
    have tables of their own levels, and neither the loader nor the runner ends
    the process. *)
Class BackendLaws (ofDouble : Q -> dynamic) (L : Type) `{JobBackend L} := {
  data_survives l : survives (jb_data l);
  save_survives l name d : survives (jb_saveJobImpl l name d);
  delete_survives l name : survives (jb_deleteJobImpl l name);
  jobs_print l c name job table : jb_data l = Ret c -> lc_jobs c !! name = Some job ->
    survives (job_toDynamic ofDouble (lc_defaults c) table job);
  tables_fit l c : jb_data l = Ret c ->
    tables_wf (length (objects_ (jd_levels (lc_defaults c)))) (jd_tables (lc_defaults c))
}.

Section Answers.
Context {L R : Type} {JB : JobBackend L} {TR : TaskRunner R} (ofDouble : Q -> dynamic).
Context {BL : BackendLaws ofDouble L}.
Context (asString : dynamic -> outcome string) (asInt : dynamic -> outcome Z).
Context (convertToStrings : dynamic -> outcome (list string)).
Context (toInt64 : string -> outcome Z) (printInt : Z -> string) (iequals : string -> string -> bool).
Context (getJobLogs : R -> string -> list string -> list string -> Z -> bool -> string -> outcome LogLines).
Context (nodes : outcome (list Node)) (monitor : Monitor) (now : Z).
Context (parseJson : string -> outcome dynamic) (toJson : dynamic -> outcome string).

(** folly's conversions and its parser return or throw, and so do the runner
    and the loader of the nodes. *)
Record calls_survive : Prop := {
  cs_asString d : survives (asString d);
  cs_asInt d : survives (asInt d);
  cs_strings d : survives (convertToStrings d);
  cs_toInt64 s : survives (toInt64 s);
  cs_parse s : survives (parseJson s);
  cs_logs r t jobs ns line asc re : survives (getJobLogs r t jobs ns line asc re);
  cs_kill (r : R) rt req : survives (tr_killTask r rt req);
  cs_nodes : survives nodes
}.

(** The monitor has been updated, and the nodes are of the levels of [c]. *)
Record shown_fits (c : LoadedConfig) : Prop := {
  sf_time : is_Some (lastUpdateTime_ monitor);
  sf_bits : bits_fit monitor;
  sf_levels ns : nodes = Ret ns ->
    Forall (fun n => (node_level n < length (objects_ (jd_levels (lc_defaults c))))%nat) ns
}.

Context (Hcalls : calls_survive).

Abbreviation single := (handleSingle ofDouble asString asInt convertToStrings toInt64 printInt iequals
  getJobLogs nodes monitor now).
Abbreviation parts_of := (handle_parts ofDouble asString asInt convertToStrings toInt64 printInt iequals
  getJobLogs nodes monitor now).

(** Closes the goals that a call that survives leaves. *)
Ltac survive :=
  repeat first
    [ done
    | apply cs_asString; done | apply cs_asInt; done | apply cs_strings; done | apply cs_toInt64; done
    | apply cs_logs; done | apply cs_kill; done
    | apply survives_bind; [|intros ? ?]
    | apply survives_foldM; intros
    | apply survives_mapM; intros
    | case_match
    | progress (unfold at_key, elements_of, require, checked_empty in * ) ].

Lemma requested_jobs_survive c kvs : survives (getRequestedJobs asString c kvs).
Proof using Hcalls. unfold getRequestedJobs. survive. Qed.

Lemma requested_jobs_known c kvs jobs : getRequestedJobs asString c kvs = Ret jobs ->
  forall job, job ∈ jobs -> exists name, lc_jobs c !! name = Some job.
Proof using.
  unfold getRequestedJobs. set (all := map snd (map_to_list (lc_jobs c))).
  assert (Hall : forall job, job ∈ all -> exists name, lc_jobs c !! name = Some job).
  { intros job ([name j] & -> & Hj)%list_elem_of_fmap. exists name. by apply elem_of_map_to_list. }
  destruct (assoc "jobs" kvs) as [p|]; [|by intros [= <-]].
  intros (e & _ & E)%bind_Ret_iff. destruct e; [by injection E as <-|].
  apply bind_Ret_iff in E as (l & _ & E).
  eapply (foldM_inv (fun jobs => forall job, job ∈ jobs -> exists name, lc_jobs c !! name = Some job)); [| |exact E].
  - intros j acc acc' _ Hacc (name & _ & [= <-])%bind_Ret_iff.
    destruct (lc_jobs c !! name) as [job|] eqn:Ej; [|done].
    intros job' [Hj| ->%list_elem_of_singleton]%elem_of_app; eauto.
  - by intros job ?%elem_of_nil.
Qed.

Lemma lookup_survives t i : (i < length (objects_ t))%nat -> survives (lookup_id t i).
Proof using. intros [s E]%lookup_lt_is_Some_2. unfold lookup_id. by rewrite E. Qed.

Lemma node_resources_survive nl t level :
  tables_wf nl t -> (level < nl)%nat -> survives (node_resources t level).
Proof using.
  intros Ht Hl. unfold node_resources.
  destruct (lookup_lt_is_Some_2 (levelIDToResourceID t) level) as [rids Er]; [by rewrite (rids_levels _ _ Ht)|].
  destruct (lookup_lt_is_Some_2 (resourcesByLevel t) level) as [limits El]; [by rewrite (limits_levels _ _ Ht)|].
  rewrite Er. apply survives_foldM. intros resources rid Hr.
  pose proof (rids_known _ _ Ht _ _ _ Er Hr) as Hk.
  pose proof (rids_limits _ _ Ht _ _ _ _ Er El Hr) as Hlim.
  apply survives_bind; [by apply lookup_survives|]. intros r_name _.
  destruct (lookup_lt_is_Some_2 (defaultJobResources t) rid) as [a ->]; [by rewrite (defaults_all _ _ Ht)|].
  destruct (lookup_lt_is_Some_2 (resourceIDToWeight t) rid) as [b ->]; [by rewrite (weights_all _ _ Ht)|].
  destruct (lookup_lt_is_Some_2 limits rid) as [d Ed]; [done|]. rewrite El. cbn. by rewrite Ed.
Qed.

Lemma histograms_survive jobs n : bits_fit monitor -> survives (handleHistograms monitor jobs n).
Proof using.
  intros Hfit. unfold handleHistograms. apply survives_bind; [|by intros []].
  apply survives_foldM. intros acc job _. case_match eqn:E; [|done].
  rewrite getHistograms_lookup in E. destruct (existsb _ _); [|done].
  edestruct (job_objects_spec n) as (a & b & -> & _); [|done]. intros level row bits x. by eapply Hfit.
Qed.

Lemma nodes_survive c kvs l : jb_data l = Ret c -> shown_fits c ->
  survives (handleSortedNodeNames nodes c) /\ survives (handleNodes asString nodes c kvs).
Proof using Hcalls BL.
  intros Hc Hf. split.
  - unfold handleSortedNodeNames. apply survives_bind; [by apply cs_nodes|]. intros ns Hn.
    apply survives_bind; [|done]. apply survives_foldM. intros ret n Hin.
    apply survives_bind; [|intros level _; unfold push_inner; survive].
    pose proof (sf_levels _ Hf ns Hn) as Hl. rewrite Forall_forall in Hl. by apply lookup_survives, Hl.
  - unfold handleNodes. apply survives_bind; [unfold requested_nodes; survive|]. intros names _.
    apply survives_bind; [unfold requested_fields; survive|]. intros [fd fr] _.
    apply survives_bind; [by apply cs_nodes|]. intros ns Hn. apply survives_bind; [|done].
    apply survives_foldM. intros results n Hin.
    pose proof (sf_levels _ Hf ns Hn) as Hl. rewrite Forall_forall in Hl. specialize (Hl n Hin).
    case_match; [|done]. apply survives_bind; [by apply lookup_survives|]. intros level _.
    apply survives_bind; [|intros res _; unfold set_inner; survive].
    destruct fr; [|done]. apply survives_bind; [|done].
    eapply node_resources_survive; [by apply (tables_fit l)|done].
Qed.

Lemma reading_survives (h : HTTPMonitor L R) c l handler kvs o :
  jb_data l = Ret c -> shown_fits c ->
  reading_handler ofDouble asString asInt convertToStrings toInt64 printInt iequals getJobLogs nodes
    monitor now h c handler kvs = Some o -> survives o.
Proof using Hcalls BL.
  intros Hc Hf. destruct (nodes_survive c kvs l Hc Hf) as [Hnames Hnodes]. unfold reading_handler.
  repeat case_bool_decide; intros [= <-]; try done.
  - by destruct (sf_time _ Hf) as [t ->].
  - apply survives_bind; [by apply requested_jobs_survive|]. intros jobs Ej. unfold handleJobs.
    apply survives_bind; [|done]. apply survives_foldM. intros ret job Hj.
    apply survives_bind; [|done].
    destruct (requested_jobs_known _ _ _ Ej job Hj) as [name En]. by eapply jobs_print.
  - unfold handleTaskRuntime, running_by_job, getJobNameSet, set_inner. survive.
  - unfold handleRunningTasks, running_by_job, getJobNameSet, set_inner. survive.
  - apply survives_bind; [by apply requested_jobs_survive|]. intros jobs _.
    apply survives_bind; [by apply cs_asInt|]. intros n _. by apply histograms_survive, Hf.
  - unfold handleTaskLogs, strings_at, requested_line. survive.
Qed.

Lemma forgive_survives st : survives (forgive st).
Proof using. unfold forgive. survive. Qed.

Lemma ts_forgive_survives ts name : survives (ts_forgiveJob ts name).
Proof using.
  unfold ts_forgiveJob. case_match; [|done]. apply survives_bind; [|done]. unfold forgiveJob.
  case_match; [|done]. apply survives_bind; [|done]. apply survives_foldM. intros.
  apply survives_bind; [apply forgive_survives|done].
Qed.

Lemma changing_survives (h : HTTPMonitor L R) m ok : survives m -> survives (changing h m ok).2.
Proof using. by destruct m. Qed.

Lemma http_forgive_survives (h : HTTPMonitor L R) l : survives (http_forgive asString h l).2.
Proof using Hcalls.
  revert h. induction l as [|j l IH]; intros h; [done|]. cbn [http_forgive].
  assert (Hs : survives (let* name := asString j in ts_forgiveJob (tr_statuses (hm_runner h)) name)).
  { apply survives_bind; [by apply cs_asString|]. intros name _. apply ts_forgive_survives. }
  by destruct (mbind _ _); cbn in *.
Qed.

Lemma old_job_survives l c name table : jb_data l = Ret c ->
  survives (match lc_jobs c !! name with
            | Some old => job_toDynamic ofDouble (lc_defaults c) table old
            | None => Ret DNull
            end).
Proof using BL. intros Hc. destruct (lc_jobs c !! name) eqn:E; [by eapply jobs_print|done]. Qed.

Lemma single_survives (h : HTTPMonitor L R) c l d :
  jb_data l = Ret c -> shown_fits c -> survives (single h c d).2.
Proof using Hcalls BL.
  intros Hc Hf. unfold handleSingle. destruct d as [| | | | | |kvs]; try done.
  assert (Hh : survives (let* v := at_key "handler" kvs in asString v)) by survive.
  destruct (mbind _ (at_key "handler" kvs)) as [handler|e|e|e]; try done.
  destruct (reading_handler _ _ _ _ _ _ _ _ _ _ _ _ _ _ _) as [o|] eqn:Eo;
    [by eapply reading_survives|].
  repeat case_bool_decide.
  - apply changing_survives. apply survives_bind; [survive|]. intros v _.
    apply survives_bind; [by apply cs_asString|]. intros name _. unfold http_deleteJob, deleteJob.
    apply survives_bind; [|done]. apply survives_bind; [by eapply data_survives|]. intros c' Hc'.
    apply survives_bind; [by eapply old_job_survives|]. intros. by eapply delete_survives.
  - apply changing_survives. apply survives_bind; [survive|]. intros v _.
    apply survives_bind; [by apply cs_asString|]. intros name _. apply survives_bind; [survive|]. intros job _.
    unfold http_saveJob, saveJob. apply survives_bind; [|done]. destruct job; try done.
    apply survives_bind; [by eapply data_survives|]. intros c' Hc'.
    apply survives_bind; [by eapply old_job_survives|]. intros. by eapply save_survives.
  - destruct (assoc "jobs" kvs) as [p|]; [|done]. destruct p; try done. apply http_forgive_survives.
  - apply changing_survives. unfold http_kill. survive.
  - done.
Qed.

(** The result of a part, and the run of the parts one after the other, each
    from the state that the one before it has left. *)
Definition outcome_of (o : dynamic + string) : outcome dynamic :=
  match o with inl d => Ret d | inr e => Throw e end.

Inductive answered (c : LoadedConfig) :
    HTTPMonitor L R -> list (string * dynamic) -> HTTPMonitor L R -> list (string * (dynamic + string)) -> Prop :=
| answered_nil h : answered c h [] h []
| answered_part h k d parts h1 h2 o rs :
    single h c d = (h1, outcome_of o) -> answered c h1 parts h2 rs ->
    answered c h ((k, d) :: parts) h2 ((k, o) :: rs).

(** The part does not ask for one of the four handlers that change something. *)
Definition reads (d : dynamic) : Prop :=
  forall kvs v s, d = DObject kvs -> assoc "handler" kvs = Some v -> asString v = Ret s ->
    s ∉ ["delete_job"; "save_job"; "forgive_jobs"; "kill_task"].

Lemma reads_same h c d : reads d -> (single h c d).1 = h.
Proof using.
  intros Hr. unfold handleSingle. destruct d as [| | | | | |kvs]; try done. unfold at_key.
  destruct (assoc "handler" kvs) as [v|] eqn:Ev; [|done]. cbn [mbind outcome_bind].
  destruct (asString v) as [s|e|e|e] eqn:Es; try done.
  destruct (reading_handler _ _ _ _ _ _ _ _ _ _ _ _ _ _ _); [done|].
  specialize (Hr kvs v s eq_refl Ev Es). rewrite !not_elem_of_cons in Hr.
  destruct Hr as (? & ? & ? & ? & _). by repeat case_bool_decide.
Qed.

Lemma answered_reads c h parts h' rs :
  answered c h parts h' rs -> Forall (fun p => reads p.2) parts -> h' = h.
Proof using.
  induction 1 as [|h k d parts h1 h2 o rs E _ IH]; intros Hr; [done|].
  apply Forall_cons in Hr as [Hd Hr]. rewrite (IH Hr). pose proof (reads_same h c d Hd) as Hs.
  by rewrite E in Hs.
Qed.

Lemma answered_keys c h parts h' rs : answered c h parts h' rs -> map fst rs = map fst parts.
Proof using. induction 1; cbn; congruence. Qed.

Lemma assoc_set_new k v kvs : k ∉ map fst kvs -> assoc_set k v kvs = kvs ++ [(k, v)].
Proof using.
  induction kvs as [|[k' v'] kvs IH]; cbn; [done|]. rewrite not_elem_of_cons. intros [Hk Hn].
  rewrite bool_decide_false by done. by rewrite IH.
Qed.

Lemma parts_answered c l parts : jb_data l = Ret c -> shown_fits c -> forall h ret,
  NoDup (map fst (ret ++ parts)) ->
  exists h' rs, answered c h parts h' rs /\
    parts_of h c ret parts = (h', Ret (ret ++ map (fun r => (r.1, answer_of r.2)) rs)).
Proof using Hcalls BL.
  intros Hc Hf. induction parts as [|[k d] parts IH]; intros h ret Hnd.
  { exists h, []. split; [constructor|]. cbn. by rewrite app_nil_r. }
  assert (Hk : k ∉ map fst ret).
  { rewrite map_app in Hnd. apply NoDup_app in Hnd as (_ & Hdisj & _). intros Hin.
    by apply (Hdisj k Hin); left. }
  pose proof (single_survives h c l d Hc Hf) as Hs. cbn [handle_parts fst snd].
  destruct (single h c d) as [h1 o] eqn:Es.
  assert (Ho : exists r, o = outcome_of r) by (destruct o as [x|e| |]; [by exists (inl x)|by exists (inr e)|done..]).
  destruct Ho as [r ->].
  destruct (IH h1 (ret ++ [(k, answer_of r)])) as (h2 & rs & Ha & E).
  { rewrite <- app_assoc. by rewrite !map_app in *. }
  exists h2, ((k, r) :: rs). split; [by econstructor|]. rewrite <- app_assoc in E. cbn in E |- *.
  rewrite <- E. destruct r; cbn [outcome_of]; by rewrite assoc_set_new.
Qed.

(** C39: Every request gets an answer and the process goes on, if the state
    that is shown fits the configuration.  A text that is no JSON object, or a
    configuration that cannot be loaded, is answered by the error, and nothing
    changes.  Otherwise the parts of the request, [prefs] apart, are handled one
    after the other, an error of one does not stop the others, and the answer
    has exactly one entry for each: its data or its error.  A request without
    one of the four handlers that change something changes nothing.  The answer
    is what [folly::toJson] makes of this, outside of the handler of errors.

    The conditions are that the monitor has been updated once and the nodes
    are of the levels of the configuration ([shown_fits]; beyond it reads are
    undefined, see [stale_nodes_undefined]), that the tables of the
    configuration are of its levels and its jobs can be printed
    ([BackendLaws]), that the parser's objects have no key twice, and that the
    libraries, the runner and the loaders return or throw ([calls_survive]). *)
Theorem requests_answered h request :
  (forall c, jb_data (configLoader_ h) = Ret c -> shown_fits c) ->
  (forall kvs, parseJson request = Ret (DObject kvs) -> NoDup (map fst kvs)) ->
  let handled := handleRequest ofDouble asString asInt convertToStrings toInt64 printInt iequals getJobLogs
                   nodes monitor now parseJson toJson h request in
  match parseJson request, jb_data (configLoader_ h) with
  | Ret (DObject kvs), Ret c => exists h' rs,
      handled = (h', toJson (DObject (map (fun r => (r.1, answer_of r.2)) rs))) /\
      answered c h (assoc_erase "prefs" kvs) h' rs /\
      map fst rs = List.filter (fun k => negb (bool_decide ("prefs" = k))) (map fst kvs) /\
      (Forall (fun p => reads p.2) (assoc_erase "prefs" kvs) -> h' = h)
  | Ret (DObject _), Throw e | Throw e, _ => handled = (h, toJson (DString e))
  | Ret _, _ => handled = (h, toJson (DString "TypeError"))
  | _, _ => False
  end.
Proof using Hcalls BL.
  intros Hfit Hnd handled. unfold handled, handleRequest. pose proof (cs_parse Hcalls request) as Hp.
  destruct (parseJson request) as [d|e|e|e]; try done. destruct d as [| | | | | |kvs]; try done.
  cbn [mbind outcome_bind]. pose proof (data_survives (configLoader_ h)) as Hd.
  destruct (jb_data (configLoader_ h)) as [c|e|e|e] eqn:Ec; try done.
  cbn [mbind outcome_bind].
  assert (Hkeys : map fst (assoc_erase "prefs" kvs) =
    List.filter (fun k => negb (bool_decide ("prefs" = k))) (map fst kvs)).
  { clear. unfold assoc_erase. induction kvs as [|[k v] kvs IH]; cbn; [done|]. by destruct (bool_decide _); cbn; rewrite IH. }
  destruct (parts_answered c (configLoader_ h) (assoc_erase "prefs" kvs) Ec (Hfit c eq_refl) h [])
    as (h' & rs & Ha & E).
  { rewrite app_nil_l, Hkeys. apply NoDup_ListNoDup, List.NoDup_filter, NoDup_ListNoDup. by apply Hnd. }
  rewrite E. exists h', rs. split; [done|]. split; [done|]. split.
  - by rewrite (answered_keys _ _ _ _ _ Ha).
  - by apply answered_reads with c rs.
Qed.
End Answers.

(** ** Samples *)

#[local] Existing Instance sample_runner.

Definition http_job : JobSpec :=
  mkJobSpec 0 "a" true "me" 1 1%Q [] (DObject []) [empty_filters; empty_filters] None "" (mkBackoff [] true)
    [] 0 0 None defaultSubprocessOptions (mkKillRequest TERM 0) [] (-1) (DObject []).
Definition http_config : LoadedConfig :=
  mkLoaded (mkDefaults two_levels (newTables two_levels) 1 (mkBackoff [] true) None defaultSubprocessOptions
              (mkKillRequest TERM 0)) {["a" := http_job]}.

(** A loader that records which jobs it was asked to delete and saves nothing. *)
#[local] Instance sample_backend : JobBackend (list string) := {
  jb_data _ := Ret http_config;
  jb_saveJobImpl _ _ _ := Throw "not implemented";
  jb_deleteJobImpl l name := Ret (l ++ [name])
}.
#[local] Instance sample_backend_laws : BackendLaws (fun _ => DInt 1) (list string).
Proof.
  split; try done.
  - intros l c name job table [= <-]. cbn [lc_jobs http_config].
    intros [_ <-]%lookup_singleton_Some. vm_compute. done.
  - intros l c [= <-]. apply newTables_wf.
Qed.

(** The job has one node that runs and two that have not started. *)
Definition sample_monitor : Monitor :=
  mkMonitor ∅ {[0%nat := {["leaf" := {[Bits.Running := (1, ["db1"]); Bits.Unstarted := (2, ["db2"; "db3"])]}]}]}
    (Some 101).

Lemma sample_bits_fit : bits_fit sample_monitor.
Proof.
  intros id h level row bits c. cbn [histograms_ sample_monitor].
  intros [_ <-]%lookup_singleton_Some [_ <-]%lookup_singleton_Some.
  rewrite lookup_insert_Some, lookup_singleton_Some. unfold Bits.Running, Bits.Unstarted. lia.
Qed.

Definition part (handler : string) (more : list (string * dynamic)) : dynamic :=
  DObject (("handler", DString handler) :: more).
Definition sample_parts : list (string * dynamic) :=
  [("prefs", DNull); ("h", part "histogram" []); ("x", part "no such handler" []);
   ("k", part "kill_task" [("job_id", DString "a"); ("node_id", DString "db1")])].
Definition plain (d : dynamic) : outcome string :=
  match d with DString s => Ret s | _ => Throw "TypeError" end.
Definition plain_int (d : dynamic) : outcome Z := match d with DInt z => Ret z | _ => Throw "TypeError" end.

Lemma histograms_readable_witness :
  exists d, handleHistograms sample_monitor [http_job] 1 = Ret d /\
    get_path d ["histograms"; "a"; "leaf"; "B"] = Some (DInt 2) /\
    get_path d ["samples"; "a"; "leaf"; "B"] = Some (DArray [DString "db2"]).
Proof.
  destruct (histograms_readable sample_monitor [http_job] 1 sample_bits_fit) as (d & E & H).
  - by intros a b ->%list_elem_of_singleton ->%list_elem_of_singleton.
  - exists d. split; [exact E|]. destruct (H http_job) as [Hb _]; [by left|].
    destruct (Hb "leaf" Bits.Unstarted) as (_ & H1 & H2); [unfold Bits.Unstarted; lia|].
    split; [exact H1|]. exact (H2 ltac:(lia)).
Defined.

Definition sample_http : HTTPMonitor (list string) SampleRunner := mkHttp [] loop_runner.
Definition sample_reader (s : string) : outcome dynamic :=
  if String.eqb s "parts" then Ret (DObject sample_parts) else Throw "no JSON".

Definition sample_answer (request : string) : HTTPMonitor (list string) SampleRunner * outcome string :=
  handleRequest (fun _ => DInt 1) plain plain_int (fun _ => Throw "TypeError") (fun _ => Throw "range")
    (fun _ => "") String.eqb (fun _ _ _ _ _ _ _ => Throw "no logs") (Ret []) sample_monitor 200
    sample_reader (fun _ => Ret "json")
    sample_http request.

Lemma sample_calls :
  calls_survive (R := SampleRunner) plain plain_int (fun _ => Throw "TypeError") (fun _ => Throw "range")
    (fun _ _ _ _ _ _ _ => Throw "no logs") (Ret []) sample_reader.
Proof.
  split; try done; [by intros []..|]. intros s. unfold sample_reader. by destruct (String.eqb s "parts").
Qed.

Lemma requests_answered_witness : exists h rs,
  sample_answer "parts" = (h, Ret "json") /\ map fst rs = ["h"; "x"; "k"] /\
  answered (fun _ => DInt 1) plain plain_int (fun _ => Throw "TypeError") (fun _ => Throw "range")
    (fun _ => "") String.eqb (fun _ _ _ _ _ _ _ => Throw "no logs") (Ret []) sample_monitor 200
    http_config sample_http (assoc_erase "prefs" sample_parts) h rs.
Proof.
  destruct (requests_answered (fun _ => DInt 1) plain plain_int (fun _ => Throw "TypeError")
    (fun _ => Throw "range") (fun _ => "") String.eqb (fun _ _ _ _ _ _ _ => Throw "no logs") (Ret [])
    sample_monitor 200
    sample_reader (fun _ => Ret "json")
    sample_calls sample_http "parts") as (h & rs & E & Ha & Hk & _).
  - intros c _. split; [by eexists|apply sample_bits_fit|]. intros ns [= <-]. constructor.
  - intros kvs [= <-]. apply (bool_decide_unpack _). vm_compute. exact I.
  - exists h, rs. split; [exact E|]. split; [exact Hk|exact Ha].
Defined.

(** What the sample request answers and does: the part without a handler fails
    alone, and the task is killed. *)
Theorem sample_request_handled :
  sample_killed (hm_runner (sample_answer "parts").1) = [round_task] /\
  (sample_answer "no").1 = sample_http.
Proof. split; vm_compute; reflexivity. Qed.

(** The configuration and the nodes are loaded apart: nodes that are still those
    of a configuration with more levels are looked up beyond the end of the
    levels.  The time of an update is read before there is one. *)
Theorem stale_nodes_undefined :
  handleSortedNodeNames (Ret [mkNode 5 "deep" 2 true None [] 0]) http_config
    = Undef "objects_[id] out of range" /\
  (handleSingle (fun _ => DInt 1) plain plain_int (fun _ => Throw "TypeError") (fun _ => Throw "range")
    (fun _ => "") String.eqb (fun _ _ _ _ _ _ _ => Throw "no logs") (Ret []) empty_monitor 200
    sample_http http_config (part "refresh_time" [])).2 = Undef "lastUpdateTime_".
Proof. split; reflexivity. Qed.

(** A job that is not known stops the forgiving, but the jobs before it are
    forgiven although the answer is an error. *)
Theorem forgiving_stops_midway :
  exists ts, ts_forgiveJob loop_statuses "a" = Ret ts /\
    http_forgive plain sample_http [DString "a"; DString "unknown"; DString "b"]
      = (mkHttp [] (mkSample ts []), Throw "Invalid job id").
Proof. eexists. split; reflexivity. Qed.
