(* ===== verification/ThriftMonitor.v ===== *)
(** [server/ThriftMonitor.cpp]: the Thrift interface of the scheduler, for
    workers ([updateStatus], [processHeartbeat]) and for clients.

    [BistroSchedulerUnknownJobException] is an exception with its message.  The
    bits of a histogram are kept as numbers.  The members that the calls change
    are those of [Http], and a worker's calls go to [Runner]. *)

From stdpp Require Import base gmap strings list.
From Stdlib Require Import ZArith QArith Lia.
From S2P Require Import Prelude Thrift Dynamic TaskStatus SymbolTable Snapshot Config Jobs WorkerState.
From S2P Require Import RemoteWorker RemoteWorkers Runner Scheduler Bistro JobConfig ThriftJob Logs Monitor Http.

#[local] Open Scope Z_scope.

(** ** The calls of workers *)

Section Workers.
Context (parseJson : string -> outcome dynamic).
Context (asInt : dynamic -> outcome Z) (asString : dynamic -> outcome string).
Context (store : option (string -> string -> TaskResult -> outcome unit)).
Context (observers : list (RunningTask -> TaskStatus -> outcome unit)).

(** [updateStatus]: a running status is ignored, and the worker does not send it
    again; an exception is thrown on, and it does. *)
Definition tm_updateStatus (r : Runner) (now : Z) (rt : RunningTask) (status_str : string)
    (scheduler_id worker_id : BistroInstanceID) : outcome Runner :=
  let* status := fromString parseJson asInt asString now status_str in
  if isRunning status then Ret r
  else remoteUpdateStatus store observers r now rt status scheduler_id worker_id.
End Workers.

(** ** The calls of clients *)

Record HistogramData := mkHistogramData { hd_count : Z; hd_samples : list string }.
Record BistroJobHistogram := mkJobHistogram {
  hj_job : string;
  hj_statuses : gmap string (gmap Z HistogramData)
}.

Section Clients.
Context {L R : Type} {JB : JobBackend L} {TR : TaskRunner R} `{DynamicParser}.
Context (ofDouble : Q -> dynamic).
Context (asString : dynamic -> outcome string) (asDouble : dynamic -> outcome Q).
Context (asFloat : dynamic -> outcome SpecFloat.spec_float).
Context (parseJson : string -> outcome dynamic) (toJson : dynamic -> outcome string).
Context (getJobLogs : R -> string -> list string -> list string -> Z -> bool -> string -> outcome LogLines).

Abbreviation Members := (HTTPMonitor L R).

(** [getJobs]. *)
Definition tm_getJobs (m : Members) : outcome (list BistroJobConfig) :=
  let* c := jb_data (configLoader_ m) in
  mapM (fun p : string * JobSpec =>
          let* d := job_toDynamic ofDouble (lc_defaults c) (job_names m) p.2 in
          toThrift asString asDouble ofDouble asFloat toJson (js_name p.2) d) (map_to_list (lc_jobs c)).

(** [getJob]. *)
Definition tm_getJob (m : Members) (job : string) : outcome BistroJobConfig :=
  let* c := jb_data (configLoader_ m) in
  match lc_jobs c !! job with
  | None => Throw ("Unknown job: " +:+ job)
  | Some spec =>
      let* d := job_toDynamic ofDouble (lc_defaults c) (job_names m) spec in
      toThrift asString asDouble ofDouble asFloat toJson job d
  end.

(** [deleteJob]; the exception becomes one of another type with its message. *)
Definition tm_deleteJob (m : Members) (job_name : string) : outcome Members :=
  http_deleteJob ofDouble m job_name.

(** [saveJob]. *)
Definition tm_saveJob (m : Members) (job : BistroJobConfig) : outcome Members :=
  let* d := thrift_toDynamic ofDouble parseJson job in
  http_saveJob ofDouble m (tj_name job) d.

(** [getLevels]: [l.begin() + 1] to [l.end() - 1]. *)
Definition tm_getLevels (m : Members) : outcome (list string) :=
  let* c := jb_data (configLoader_ m) in
  match objects_ (jd_levels (lc_defaults c)) with
  | [] | [_] => Undef "copy of a reversed range"
  | _ :: l => Ret (removelast l)
  end.

(** The jobs that [getJobHistograms] is asked for. *)
Definition tm_requested (c : LoadedConfig) (names : list string) : list JobSpec :=
  match names with
  | [] => map snd (map_to_list (lc_jobs c))
  | _ => omap (fun name => lc_jobs c !! name) names
  end.

(** [size() > samples], compared as unsigned. *)
Definition tm_samples (samples : Z) (all : list string) : list string :=
  if u64 samples <? Z.of_nat (length all) then take (Z.to_nat samples) all else all.

(** One job's [statuses]. *)
Definition tm_row (samples : Z) (row : HistogramRow) : gmap Z HistogramData :=
  foldl (fun s (values : Z * CountWithSamples) =>
           <[values.1 := mkHistogramData values.2.1 (tm_samples samples values.2.2)]> s) ∅ (map_to_list row).
Definition tm_statuses (samples : Z) (h : LevelHistograms) : gmap string (gmap Z HistogramData) :=
  foldl (fun st (pair : string * HistogramRow) => <[pair.1 := tm_row samples pair.2]> st) ∅ (map_to_list h).

(** [getJobHistograms]. *)
Definition tm_getJobHistograms (monitor : Monitor) (m : Members) (names : list string) (samples : Z)
    : outcome (list BistroJobHistogram) :=
  let* c := jb_data (configLoader_ m) in
  let jobs := tm_requested c names in
  let hists := getHistograms monitor (map scheduler_job jobs) in
  Ret (omap (fun job => h ← hists !! js_id job; Some (mkJobHistogram (js_name job) (tm_statuses samples h))) jobs).

(** [getJobLogs], [getJobLogsByID] and [getJobLogsByTime]. *)
Definition tm_getJobLogsByID (m : Members) (logtype job_id node_id : string) (line_id : Z)
    (is_ascending : bool) (regex_filter : string) : outcome LogLines :=
  let* out := getJobLogs (hm_runner m) logtype [job_id] [node_id] line_id is_ascending regex_filter in
  Ret (mkLogLines (map (fun l => mkLogLine (ll_jobID l) (ll_nodeID l) (ll_time l) (ll_line l) (ll_lineID l))
         (lines out)) (nextLineID out)).
Definition tm_getJobLogsByTime (m : Members) (logtype job_id node_id : string) (time : Z)
    (is_asc : bool) (regex_filter : string) : outcome LogLines :=
  tm_getJobLogsByID m logtype job_id node_id (lineIDFromTime time is_asc) is_asc regex_filter.

(** [forgiveJob]. *)
Definition tm_forgiveJob (m : Members) (job_id : string) : outcome Members :=
  let* ts := ts_forgiveJob (tr_statuses (hm_runner m)) job_id in
  Ret (mkHttp (configLoader_ m) (tr_set_statuses (hm_runner m) ts)).
End Clients.

(** ** The two interfaces agree *)

Lemma insert_all {K A B} `{Countable K} (f : A -> B) (m : gmap K A) :
  foldl (fun (s : gmap K B) (p : K * A) => <[p.1 := f p.2]> s) ∅ (map_to_list m) = f <$> m.
Proof.
  assert (Hl : forall (l : list (K * A)) (s : gmap K B), NoDup l.*1 ->
    foldl (fun s p => <[p.1 := f p.2]> s) s l = (f <$> list_to_map l) ∪ s).
  { induction l as [|[k a] l IH]; intros s Hn; cbn; [by rewrite fmap_empty, left_id_L by apply _|].
    apply NoDup_cons in Hn as [Hk Hn]. rewrite IH by done.
    rewrite fmap_insert, <- insert_union_l, insert_union_r; [done|].
    by rewrite lookup_fmap, not_elem_of_list_to_map_1. }
  rewrite Hl by apply NoDup_fst_map_to_list. by rewrite right_id_L, list_to_map_to_list by apply _.
Qed.

Lemma tm_statuses_cell samples h level bits :
  (tm_statuses samples h !! level ≫= fun row => row !! bits) =
  (fun c : CountWithSamples => mkHistogramData c.1 (tm_samples samples c.2)) <$> cell h level bits.
Proof.
  unfold tm_statuses. rewrite (insert_all (tm_row samples)), lookup_fmap. unfold cell.
  destruct (h !! level) as [row|]; cbn; [|done]. unfold tm_row.
  rewrite (insert_all (fun c : CountWithSamples => mkHistogramData c.1 (tm_samples samples c.2))), lookup_fmap.
  by destruct (row !! bits).
Qed.

Lemma same_samples n all : some_samples n all = DArray (map DString (tm_samples n all)).
Proof.
  unfold some_samples, tm_samples. rewrite Z.ltb_antisym. by destruct (Z.of_nat (length all) <=? u64 n).
Qed.

(** The two interfaces show the same histograms: the Thrift call answers for the
    requested jobs that have histograms, in order, and each count and each list
    of samples is the one that the JSON has under the code of the bits. *)
Theorem interfaces_agree {L R} {JB : JobBackend L} (m : HTTPMonitor L R) monitor names n c :
  jb_data (configLoader_ m) = Ret c -> bits_fit monitor ->
  let jobs := tm_requested c names in
  (forall a b, a ∈ jobs -> b ∈ jobs -> js_name a = js_name b -> js_id a = js_id b) ->
  exists hs d, tm_getJobHistograms monitor m names n = Ret hs /\ handleHistograms monitor jobs n = Ret d /\
    map hj_job hs = map js_name (filter (fun job => is_Some (histograms_ monitor !! js_id job)) jobs) /\
    forall e, e ∈ hs -> forall level bits, 0 <= bits < 4096 ->
      let data := hj_statuses e !! level ≫= fun row => row !! bits in
      get_path d ["histograms"; hj_job e; level; code_of bits] = DInt ∘ hd_count <$> data /\
      (n <> 0 -> get_path d ["samples"; hj_job e; level; code_of bits] =
                 DArray ∘ map DString ∘ hd_samples <$> data).
Proof.
  intros Hc Hfit jobs Hnames.
  destruct (histograms_readable monitor jobs n Hfit Hnames) as (d & Ed & Hd).
  assert (Hget : forall job, job ∈ jobs ->
    getHistograms monitor (map scheduler_job jobs) !! js_id job = histograms_ monitor !! js_id job).
  { intros job Hj. rewrite getHistograms_lookup, (proj2 (existsb_exists _ _)); [done|].
    exists (scheduler_job job). split; [by apply in_map, list_elem_of_In|apply Nat.eqb_refl]. }
  eexists _, d. unfold tm_getJobHistograms. rewrite Hc. cbn [mbind outcome_bind].
  split; [done|]. split; [exact Ed|]. fold jobs. split.
  - set (hists := getHistograms _ _) in *. clearbody hists. clear Hnames Ed Hd Hc. clearbody jobs.
    induction jobs as [|job jobs IH]; [done|]. cbn [omap list_omap].
    rewrite (Hget job) by by left. rewrite filter_cons.
    specialize (IH (fun j Hj => Hget j (proj2 (elem_of_cons _ _ _) (or_intror Hj)))).
    destruct (histograms_ monitor !! js_id job); cbn [mbind option_bind map].
    + rewrite decide_True by by eexists. cbn [map hj_job]. by rewrite <- IH.
    + rewrite decide_False by by intros []. exact IH.
  - intros e (job & Hj & He)%list_elem_of_omap level bits Hb. rewrite (Hget job Hj) in He.
    destruct (histograms_ monitor !! js_id job) as [h|] eqn:Eh; [|done]. injection He as <-.
    cbn [hj_job hj_statuses]. rewrite tm_statuses_cell. cbn zeta.
    destruct (Hd job Hj) as [Hcell _]. destruct (Hcell level bits Hb) as (_ & H1 & H2). rewrite Eh in H1, H2.
    cbn [mbind option_bind] in H1, H2. rewrite H1. split; [by destruct (cell h level bits)|].
    intros Hn. rewrite (H2 Hn). destruct (cell h level bits) as [x|]; cbn; [|done]. by rewrite same_samples.
Qed.

(** A worker's report of a running task changes nothing. *)
Theorem running_reports_ignored parseJson asInt asString store observers r now rt s st sid wid :
  fromString parseJson asInt asString now s = Ret st -> isRunning st = true ->
  tm_updateStatus parseJson asInt asString store observers r now rt s sid wid = Ret r.
Proof. intros E Hr. unfold tm_updateStatus. rewrite E. cbn. by rewrite Hr. Qed.

(** What a client gets for a saved configuration of levels: those that it
    configured, without the two that are added. *)
Theorem thrift_levels {L R} {JB : JobBackend L} (m : HTTPMonitor L R) c levels :
  jb_data (configLoader_ m) = Ret c ->
  objects_ (jd_levels (lc_defaults c)) = "instance" :: levels ++ ["worker"] ->
  tm_getLevels m = Ret levels.
Proof.
  intros Hc Hl. unfold tm_getLevels. rewrite Hc. cbn [mbind outcome_bind]. rewrite Hl.
  rewrite <- (removelast_last levels "worker") at 2. by destruct levels.
Qed.

(** ** A sample *)

Lemma interfaces_agree_sample :
  exists hs, tm_getJobHistograms (JB := sample_backend) sample_monitor sample_http ["a"; "gone"] 1 = Ret hs /\
    map hj_job hs = ["a"] /\
    map (fun e => hj_statuses e !! "leaf" ≫= fun row => row !! Bits.Unstarted) hs
      = [Some (mkHistogramData 2 ["db2"])].
Proof. eexists. split; [reflexivity|]. split; vm_compute; reflexivity. Qed.
