(* ===== verification/Physical.v ===== *)
(** [physical/]: what a worker measures.  [utils.{h,cpp}], [CGroupPaths.h] and
    [CGroupResources.cpp] read the files of cgroups, [UsablePhysicalResourceFetcher.cpp]
    and [UsablePhysicalResourceMonitor.cpp] the resources of the machine that
    Bistro may use, [AllTasksPhysicalResourceMonitor.{h,cpp}] and
    [TaskPhysicalResourceFetcher.cpp] what tasks use.

    The contents of the files, the output of [nvidia-smi] and the values of
    [sysconf] are arguments.  folly's and boost's functions on text and paths
    are the class [Text].  A pointer into [gpuInfos_] is an index. *)

From stdpp Require Import base gmap strings list sorting.
From Stdlib Require Import ZArith Lia SpecFloat Ascii.
From S2P Require Import Prelude Thrift Resources Subprocess.

#[local] Open Scope Z_scope.

(** folly's [split], [to<T>], [StringPiece::removeSuffix], [contains], [byLine]
    and [join], and boost's paths. *)
Class Text := {
  split : string -> string -> list string;
  to_uint64 : string -> outcome Z;
  to_bool : string -> outcome bool;
  to_double : string -> outcome spec_float;
  to_pid : string -> outcome Z;
  remove_newline : string -> string;
  contains : string -> string -> bool;
  by_line : string -> list string;
  print_int : Z -> string;
  path_div : string -> string -> string;
  path_parts : string -> list string
}.

Definition f_add : spec_float -> spec_float -> spec_float := SFadd 53 1024.
(** [std::min(a, b)]. *)
Definition f_min (a b : spec_float) : spec_float := if SFltb b a then b else a.

Section Files.
Context `{Text}.
(** The files: [None] cannot be read. *)
Context (readFile : string -> option string).

(** ** Text *)

(** [checkedSplitLine]. *)
Definition checkedSplitLine (delimiter line : string) (expected_parts : nat) : outcome (list string) :=
  let out := split delimiter line in
  require (Nat.eqb (length out) expected_parts) "Expected another number of fields" ;;;
  Ret (match out with
       | [] => []
       | _ => removelast out ++ [remove_newline (List.last out "")]
       end).

(** [valueFromFile]. *)
Definition valueFromFile {T} (to : string -> outcome T) (filename : string) : outcome T :=
  match readFile filename with
  | None => Throw ("Could not read from " +:+ filename)
  | Some line =>
      match to (remove_newline line) with
      | Throw e => Throw ("Converting value from " +:+ filename +:+ ": " +:+ e)
      | o => o
      end
  end.

(** The loop of [parseIntSet] over a range; [None] if it needs more iterations.
    [++from] wraps. *)
Fixpoint insert_range (fuel : nat) (from to : Z) (nums : gset Z) : option (gset Z) :=
  if to <? from then Some nums
  else match fuel with
       | O => None
       | S fuel' => insert_range fuel' (u64 (from + 1)) to ({[from]} ∪ nums)
       end.

(** One part, in its [try] block; an inner [None] is a loop that has not ended. *)
Definition int_set_part (fuel : nat) (nums : gset Z) (part : string) : outcome (option (gset Z)) :=
  let inserted :=
    match split "-" part with
    | [x] => let* n := to_uint64 x in Ret (Some ({[n]} ∪ nums))
    | [x; y] =>
        let* from := to_uint64 x in
        let* to := to_uint64 y in
        require (from <=? to) ("Bad range " +:+ part) ;;;
        Ret (insert_range fuel from to nums)
    | _ => Throw ("Bad integer set part " +:+ part)
    end in
  match inserted with Throw e => Throw ("Parsing integer set part: " +:+ e) | o => o end.

(** [parseIntSet]. *)
Definition parseIntSet (fuel : nat) (s : string) : outcome (option (gset Z)) :=
  foldM (fun acc part =>
           match acc with
           | None => Ret None
           | Some nums => int_set_part fuel nums part
           end) (Some ∅) (split "," s).

(** ** Paths *)

Record CGroupPaths := mkPaths {
  root_ : string;
  slice_ : string;
  subsystems_ : list string;
  task_ : option string;
  numaPath_ : string
}.

(** The constructor. *)
Definition CGroupPaths_of (cgopts : CGroupOptions) (task : option string) (numa_path : string)
    : outcome CGroupPaths :=
  match task with
  | Some t =>
      match path_parts t with
      | [] => Undef "++task_->begin()"
      | [_] => Ret tt
      | _ => Throw "'task' component of cgroup path must be a single, non-nested directory"
      end
  | None => Ret tt
  end ;;;
  Ret (mkPaths (cg_root cgopts) (cg_slice cgopts) (subsystems cgopts) task numa_path).

Definition rootDir (p : CGroupPaths) (subsys : string) : string := path_div (root_ p) subsys.
Definition sliceDir (p : CGroupPaths) (subsys : string) : string := path_div (rootDir p subsys) (slice_ p).
(** [*task_] of an empty optional throws. *)
Definition taskDir (p : CGroupPaths) (subsys : string) : outcome string :=
  match task_ p with
  | Some t => Ret (path_div (sliceDir p subsys) t)
  | None => Throw "OptionalEmptyException"
  end.
Definition haveSubsystem (p : CGroupPaths) (subsystem : string) : bool :=
  bool_decide (subsystem ∈ subsystems_ p).

(** ** [CGroupResources.cpp] *)

(** [partialPaths]. *)
Definition partialPaths (p : string) : list string :=
  foldl (fun partials part => partials ++ [path_div (List.last partials "") part]) [""] (path_parts p).

(** [meminfo] of a NUMA node; [resplit] runs over all matching rows. *)
Definition node_memory_mb (p : CGroupPaths) (node : Z) : outcome spec_float :=
  let node_id := print_int node in
  let read :=
    match readFile (path_div (path_div (numaPath_ p) ("node" +:+ node_id)) "meminfo") with
    | None => Throw "open"
    | Some text =>
        let rows := List.filter (fun l => contains l "MemTotal:") (by_line text) in
        let mem_total_parts := List.filter (fun s => negb (bool_decide (s = "")))
                                 (split " " (String.concat "" rows)) in
        match mem_total_parts with
        | [w0; w1; w2; w3; w4] =>
            if bool_decide (w0 = "Node") && bool_decide (w1 = node_id) && bool_decide (w2 = "MemTotal:")
               && bool_decide (w4 = "kB")
            then let* kb := to_uint64 w3 in Ret (f_div (f_of kb) (f_of 1024))
            else Throw "Unknown meminfo format"
        | _ => Throw "Unknown meminfo format"
        end
    end in
  match read with Throw e => Throw ("Failed to read meminfo for node: " +:+ e) | o => o end.

(** The nodes of a set in its order. *)
Definition in_order (nums : gset Z) : list Z := merge_sort Z.le (elements nums).

(** The scans of [usableNumaMemoryMB] and [usableCpuCores], from the slice up to
    the root, for the first file that is not empty. *)
Fixpoint first_nonempty (base file : string) (partials : list string) : outcome (option string) :=
  match partials with
  | [] => Ret None
  | p :: partials' =>
      let* s := valueFromFile Ret (path_div (path_div base p) file) in
      if bool_decide (s = "") then first_nonempty base file partials' else Ret (Some s)
  end.

(** [usableNumaMemoryMB]; the inner [None] is a set that is not parsed yet. *)
Definition usableNumaMemoryMB (fuel : nat) (p : CGroupPaths) : outcome (option (option spec_float)) :=
  if negb (haveSubsystem p "cpuset") then Ret (Some None)
  else
    let* mem_nodes_str := first_nonempty (rootDir p "cpuset") "cpuset.mems" (rev (partialPaths (slice_ p))) in
    match mem_nodes_str with
    | None => Throw "All cpuset.mems files were empty"
    | Some s =>
        let* nums := parseIntSet fuel s in
        match nums with
        | None => Ret None
        | Some nums =>
            let* mem_mb := foldM (fun mem_mb node => let* n := node_memory_mb p node in Ret (f_add mem_mb n))
                             f_zero (in_order nums) in
            Ret (Some (Some mem_mb))
        end
    end.

(** One level of [usableMemoryLimitMB]: [use_hierarchy] and [mem_bytes]. *)
Definition limit_level (base : string) (acc : bool * Z) (slicePartial : string) : outcome (bool * Z) :=
  let '(use_hierarchy, mem_bytes) := acc in
  let* use_hierarchy :=
    if (use_hierarchy : bool) then Ret true
    else valueFromFile to_bool (path_div (path_div base slicePartial) "memory.use_hierarchy") in
  if (use_hierarchy : bool)
  then let* limit := valueFromFile to_uint64 (path_div (path_div base slicePartial) "memory.limit_in_bytes") in
       Ret (true, Z.min mem_bytes limit)
  else Ret (false, mem_bytes).

(** [usableMemoryLimitMB], in bytes and in megabytes. *)
Definition memory_limit_bytes (p : CGroupPaths) : outcome (option Z) :=
  let* (use_hierarchy, mem_bytes) :=
    foldM (limit_level (rootDir p "memory")) (false, 2 ^ 64 - 1) (partialPaths (slice_ p)) in
  if negb use_hierarchy then Ret None
  else CHECK (0 <? mem_bytes) "mem_bytes > 0" ;;; Ret (Some mem_bytes).
Definition usableMemoryLimitMB (p : CGroupPaths) : outcome (option spec_float) :=
  if negb (haveSubsystem p "memory") then Ret None
  else let* b := memory_limit_bytes p in Ret ((fun b => f_div (f_of b) (f_of (1024 * 1024))) <$> b).

(** [usableCpuCores]; the number is converted to [uint32_t]. *)
Definition usableCpuCores (fuel : nat) (p : CGroupPaths) : outcome (option (option Z)) :=
  if negb (haveSubsystem p "cpuset") then Ret (Some None)
  else
    let* cpu_cores_str := first_nonempty (rootDir p "cpuset") "cpuset.cpus" (rev (partialPaths (slice_ p))) in
    match cpu_cores_str with
    | None => Throw "No `cpuset` cgroup had specified any CPUs"
    | Some s => let* nums := parseIntSet fuel s in
                Ret ((fun nums => Some (u32 (Z.of_nat (size nums)))) <$> nums)
    end.

(** [taskMemoryMB], [taskCpuTimeMs] and [taskPids]. *)
Definition taskMemoryMB (p : CGroupPaths) : outcome (option spec_float) :=
  if negb (haveSubsystem p "memory") then Ret None
  else
    let* d := taskDir p "memory" in
    let* b := valueFromFile to_uint64 (path_div d "memory.usage_in_bytes") in
    Ret (Some (f_div (f_of b) (f_of (1024 * 1024)))).
Definition taskCpuTimeMs (p : CGroupPaths) : outcome (option Z) :=
  if negb (haveSubsystem p "cpuacct") then Ret None
  else
    let* d := taskDir p "cpuacct" in
    let* ns := valueFromFile to_uint64 (path_div d "cpuacct.usage") in
    Ret (Some (ns / 1000000)).
Definition taskPids (p : CGroupPaths) : outcome (gset Z) :=
  match subsystems_ p with
  | [] => Ret ∅
  | subsys :: _ =>
      let* d := taskDir p subsys in
      match readFile (path_div d "cgroup.procs") with
      | None => Throw "open"
      | Some text => let* pids := mapM to_pid (by_line text) in Ret (list_to_set pids)
      end
  end.

(** ** The machine *)

(** [sysconf] of the pages, their size and the processors; -1 is an error. *)
Context (num_pages page_size num_cores : Z).

(** [systemRamMB]: the second check is of the number of pages again. *)
Definition systemRamMB : outcome spec_float :=
  require (negb (num_pages =? -1)) "Cannot detect system memory pages" ;;;
  require (negb (num_pages =? -1)) "Cannot detect system memory page size" ;;;
  Ret (f_mul (f_div (f_of num_pages) (f_of 1024)) (f_div (f_of page_size) (f_of 1024))).

(** [memoryMB]. *)
Definition fetch_memoryMB (fuel : nat) (p : CGroupPaths) : outcome (option spec_float) :=
  let* numa := usableNumaMemoryMB fuel p in
  match numa with
  | None => Ret None
  | Some maybe_mem_mb =>
      let* mem_mb := match maybe_mem_mb with Some m => Ret m | None => systemRamMB end in
      let* limit := usableMemoryLimitMB p in
      Ret (Some (match limit with Some l => f_min mem_mb l | None => mem_mb end))
  end.

(** [cpuCores]. *)
Definition systemCPUCores : outcome Z :=
  require (negb (num_cores =? -1)) "Cannot detect system CPU cores" ;;; Ret (u32 num_cores).
Definition fetch_cpuCores (fuel : nat) (p : CGroupPaths) : outcome (option Z) :=
  let* maybe_cores := usableCpuCores fuel p in
  match maybe_cores with
  | None => Ret None
  | Some (Some cores) => Ret (Some cores)
  | Some None => let* cores := systemCPUCores in Ret (Some cores)
  end.

(** ** Graphics cards *)

(** [FLAGS_nvidia_smi], and what a command prints with its exit status. *)
Context (nvidia_smi : string) (run : list string -> list string * option Z).

(** [queryNvidiaSmi]. *)
Definition queryNvidiaSmi (query : string) (query_fields : list string) : outcome (list string) :=
  if bool_decide (nvidia_smi = "") then Ret []
  else
    let '(out, status) := run [nvidia_smi; "--format=csv,noheader,nounits";
                               "--" +:+ query +:+ "=" +:+ String.concat "," query_fields] in
    require (bool_decide (status = Some 0)) "nvidia-smi query failed" ;;; Ret out.

(** [UsablePhysicalResourceFetcher::gpus]. *)
Definition fetch_gpus : outcome (list GPUInfo) :=
  let* ls := queryNvidiaSmi "query-gpu" ["gpu_bus_id"; "memory.total"; "name"] in
  foldM (fun gpus l =>
           let* parts := checkedSplitLine ", " l 3 in
           match parts with
           | [bus; mem; name] => let* mb := to_double mem in Ret (gpus ++ [mkGPUInfo name bus mb (f_of 1)])
           | _ => Undef "parts"
           end) [] ls.

(** The callback of [UsablePhysicalResourceMonitor]; [None] has not ended. *)
Definition fetch_usable (fuel : nat) (ms : Z) (p : CGroupPaths) : outcome (option UsablePhysicalResources) :=
  let* cores := fetch_cpuCores fuel p in
  match cores with
  | None => Ret None
  | Some cores =>
      let* mem := fetch_memoryMB fuel p in
      match mem with
      | None => Ret None
      | Some mem => let* gs := fetch_gpus in Ret (Some (mkUsable ms (f_of cores) mem gs))
      end
  end.

(** *** What tasks use *)

Record AllTasksPhysicalResources := mkAllTasks {
  gpuInfos_ : list GPUInfo;
  pidToGpuInfos_ : gmap Z (list nat)
}.

(** [fetchGpuUtilization]. *)
Definition fetchGpuUtilization : outcome (list GPUInfo) :=
  let* ls := queryNvidiaSmi "query-gpu" ["gpu_bus_id"; "memory.used"; "utilization.gpu"; "name"] in
  foldM (fun gpus l =>
           let* parts := checkedSplitLine ", " l 4 in
           match parts with
           | [bus; mem; util; name] =>
               let* mb := to_double mem in
               let* u := to_double util in
               Ret (gpus ++ [mkGPUInfo name bus mb (f_div u (f_of 100))])
           | _ => Undef "parts"
           end) [] ls.

(** [fetchGpuPidsWithBusID]: the pairs, each once. *)
Definition add_pid_bus (pid_gpus : list (Z * string)) (l : string) : outcome (list (Z * string)) :=
  let* parts := checkedSplitLine ", " l 2 in
  match parts with
  | [pid; bus] =>
      let* pid := to_pid pid in
      require (negb (bool_decide ((pid, bus) ∈ pid_gpus))) "nvidia-smi printed a pid+bus ID pair twice" ;;;
      Ret (pid_gpus ++ [(pid, bus)])
  | _ => Undef "parts"
  end.
Definition fetchGpuPidsWithBusID : outcome (list (Z * string)) :=
  let* ls := queryNvidiaSmi "query-compute-apps" ["pid"; "gpu_bus_id"] in foldM add_pid_bus [] ls.

(** [bus_id_to_gpu_info]: the last card with a bus ID. *)
Definition bus_id_to_gpu_info (infos : list GPUInfo) : gmap string nat :=
  foldl (fun m p => <[pciBusID p.2 := p.1]> m) ∅ (imap pair infos).

(** The callback of [AllTasksPhysicalResourceMonitor]. *)
Definition add_pid (buses : gmap string nat) (m : gmap Z (list nat)) (p : Z * string)
    : outcome (gmap Z (list nat)) :=
  match buses !! p.2 with
  | None => Throw "PID uses bad bus ID"
  | Some i => Ret (<[p.1 := default [] (m !! p.1) ++ [i]]> m)
  end.
Definition fetch_all_tasks : outcome AllTasksPhysicalResources :=
  let* infos := fetchGpuUtilization in
  let* pairs := fetchGpuPidsWithBusID in
  let* m := foldM (add_pid (bus_id_to_gpu_info infos)) ∅ pairs in
  Ret (mkAllTasks infos m).

(** [taskGpus]; [visit] is the order of a hash set. *)
Context (visit : gset nat -> list nat).
Definition gpu_ptrs (r : AllTasksPhysicalResources) (pids : list Z) : gset nat :=
  foldl (fun ptrs pid => match pidToGpuInfos_ r !! pid with
                         | Some l => foldl (fun ptrs i => {[i]} ∪ ptrs) ptrs l
                         | None => ptrs
                         end) ∅ pids.
Definition taskGpus (r : AllTasksPhysicalResources) (pids : list Z) : outcome (list GPUInfo) :=
  foldM (fun gpus i => match gpuInfos_ r !! i with
                       | Some info => Ret (gpus ++ [info])
                       | None => Undef "gpu_ptr"
                       end) [] (visit (gpu_ptrs r pids)).

Record TaskPhysicalResources := mkTaskPhysical {
  tp_msSinceEpoch : Z;
  tp_cpuTimeMs : option Z;
  tp_memoryMB : option spec_float;
  tp_gpus : list GPUInfo
}.

(** [TaskPhysicalResourceFetcher::fetch]. *)
Definition fetch_task (ms : Z) (all_task_resources : outcome (option AllTasksPhysicalResources))
    (p : CGroupPaths) : outcome TaskPhysicalResources :=
  let* cpu := taskCpuTimeMs p in
  let* mem := taskMemoryMB p in
  let* pids := taskPids p in
  let* all := all_task_resources in
  let* gs := match all with Some r => taskGpus r (elements pids) | None => Ret [] end in
  Ret (mkTaskPhysical ms cpu mem gs).
End Files.

(** ** Sets of integers *)

(** The loop over a range ends after as many iterations as it has numbers,
    unless it goes up to the last 64-bit number: then it never does. *)
Lemma insert_range_ends fuel from to nums :
  0 <= from -> to < 2 ^ 64 - 1 -> (Z.to_nat (to - from + 1) <= fuel)%nat ->
  exists nums', insert_range fuel from to nums = Some nums' /\
    forall n, n ∈ nums' <-> n ∈ nums \/ from <= n <= to.
Proof.
  revert from nums. induction fuel as [|fuel IH]; intros from nums Hf Ht Hfuel; cbn [insert_range].
  - destruct (Z.ltb_spec to from); [|lia]. exists nums. split; [done|]. intros n. split; [by left|intros [?|?]; [done|lia]].
  - destruct (Z.ltb_spec to from); [exists nums; split; [done|]; intros n; split; [by left|intros [?|?]; [done|lia]]|].
    replace (u64 (from + 1)) with (from + 1) by (unfold u64; rewrite Z.mod_small; lia).
    destruct (IH (from + 1) ({[from]} ∪ nums)) as (nums' & E & Hn); [lia..|].
    exists nums'. split; [done|]. intros n. rewrite Hn, elem_of_union, elem_of_singleton. split.
    + intros [[->|?]|?]; [right; lia|by left|right; lia].
    + intros [?|?]; [by left; right|]. destruct (decide (n = from)); [by left; left|right; lia].
Qed.

Lemma insert_range_loops fuel from nums : insert_range fuel (u64 from) (2 ^ 64 - 1) nums = None.
Proof.
  revert from nums. induction fuel as [|fuel IH]; intros from nums; cbn [insert_range];
    (destruct (Z.ltb_spec (2 ^ 64 - 1) (u64 from)) as [Hlt|_];
      [pose proof (Z.mod_pos_bound from (2 ^ 64)); unfold u64 in Hlt; lia|]); [done|apply IH].
Qed.

Section IntSets.
Context `{Text}.
Context (to_uint64_range : forall s n, to_uint64 s = Ret n -> 0 <= n < 2 ^ 64).
Context (to_uint64_throws : forall s, (exists n, to_uint64 s = Ret n) \/ exists e, to_uint64 s = Throw e).

(** The numbers that a part stands for. *)
Definition part_range (part : string) : option (Z * Z) :=
  match split "-" part with
  | [x] => match to_uint64 x with Ret n => Some (n, n) | _ => None end
  | [x; y] => match to_uint64 x, to_uint64 y with
              | Ret a, Ret b => if a <=? b then Some (a, b) else None
              | _, _ => None
              end
  | _ => None
  end.

Lemma int_set_part_spec fuel nums part :
  match part_range part with
  | None => exists e, int_set_part fuel nums part = Throw e
  | Some (a, b) => b < 2 ^ 64 - 1 -> (Z.to_nat (b - a + 1) <= fuel)%nat ->
      exists nums', int_set_part fuel nums part = Ret (Some nums') /\
        forall n, n ∈ nums' <-> n ∈ nums \/ a <= n <= b
  end.
Proof using to_uint64_range to_uint64_throws.
  unfold part_range, int_set_part. destruct (split "-" part) as [|x [|y [|? ?]]]; try by eexists.
  - destruct (to_uint64_throws x) as [[a E]|[e E]]; rewrite E; cbn; [|by eexists].
    intros _ _. eexists. split; [done|]. intros n. rewrite elem_of_union, elem_of_singleton. split.
    + intros [->|?]; [right; lia|by left].
    + intros [?|?]; [by right|left; lia].
  - destruct (to_uint64_throws x) as [[a Ea]|[e E]]; [|rewrite E; cbn; by eexists]. rewrite Ea.
    destruct (to_uint64_throws y) as [[b Eb]|[e E]]; [|rewrite E; cbn; by eexists]. rewrite Eb.
    cbn [mbind outcome_bind]. unfold require. destruct (Z.leb_spec a b); cbn; [|by eexists].
    intros Hb Hf. pose proof (to_uint64_range _ _ Ea).
    destruct (insert_range_ends fuel a b nums) as (nums' & E & Hn); [lia..|]. rewrite E. eauto.
Qed.

(** [parseIntSet] ends, if no range goes up to the last 64-bit number and is
    longer than the fuel: with an exception if a part is neither a number nor a
    range, else with exactly the numbers of all parts. *)
Theorem int_set_parsed fuel s :
  (forall part a b, part ∈ split "," s -> part_range part = Some (a, b) ->
     b < 2 ^ 64 - 1 /\ (Z.to_nat (b - a + 1) <= fuel)%nat) ->
  if forallb (fun part => bool_decide (is_Some (part_range part))) (split "," s)
  then exists nums, parseIntSet fuel s = Ret (Some nums) /\
         forall n, n ∈ nums <-> exists part a b, part ∈ split "," s /\ part_range part = Some (a, b) /\ a <= n <= b
  else exists e, parseIntSet fuel s = Throw e.
Proof using to_uint64_range to_uint64_throws.
  unfold parseIntSet. generalize (split "," s). intros parts Hends.
  assert (Hloop : forall nums,
    if forallb (fun part => bool_decide (is_Some (part_range part))) parts
    then exists nums', foldM (fun acc part => match acc with
             | None => Ret None | Some nums => int_set_part fuel nums part end) (Some nums) parts = Ret (Some nums') /\
           forall n, n ∈ nums' <-> n ∈ nums \/
             exists part a b, part ∈ parts /\ part_range part = Some (a, b) /\ a <= n <= b
    else exists e, foldM (fun acc part => match acc with
             | None => Ret None | Some nums => int_set_part fuel nums part end) (Some nums) parts = Throw e).
  { induction parts as [|part parts IH]; intros nums; cbn [forallb foldM].
    { exists nums. split; [done|]. intros n. split; [by left|].
      intros [?|(? & ? & ? & []%elem_of_nil & _)]; done. }
    pose proof (int_set_part_spec fuel nums part) as Hp.
    assert (Hends' : forall part' a b, part' ∈ parts -> part_range part' = Some (a, b) ->
      b < 2 ^ 64 - 1 /\ (Z.to_nat (b - a + 1) <= fuel)%nat) by (intros; eapply Hends; [by right|done]).
    destruct (part_range part) as [[a b]|] eqn:Er; cbn [bool_decide].
    - rewrite bool_decide_true by by eexists. cbn [andb].
      destruct (Hends part a b) as [Hb Hf]; [by left|done|].
      destruct (Hp Hb Hf) as (nums1 & -> & Hn1). cbn [mbind outcome_bind]. specialize (IH Hends' nums1).
      destruct (forallb _ parts); [|exact IH]. destruct IH as (nums2 & E & Hn2). exists nums2. split; [exact E|].
      intros n. rewrite Hn2, Hn1. setoid_rewrite elem_of_cons. split.
      + intros [[?|?]|(q & a' & b' & ? & ? & ?)]; [by left|right; exists part, a, b; by split; [left|]|].
        right. exists q, a', b'. by split; [right|].
      + intros [?|(q & a' & b' & [->|?] & Hq & ?)]; [by left; left| |right; by exists q, a', b'].
        rewrite Er in Hq. injection Hq as <- <-. left. by right.
    - rewrite bool_decide_false by by intros []. cbn [andb]. destruct Hp as [e ->]. by exists e. }
  specialize (Hloop ∅). destruct (forallb _ parts); [|exact Hloop].
  destruct Hloop as (nums & E & Hn). exists nums. split; [exact E|]. intros n. rewrite Hn.
  split; [by intros [?%elem_of_empty|?]|by right].
Qed.
End IntSets.

(** ** The memory limit *)

Section Limits.
Context `{Text} (readFile : string -> option string) (p : CGroupPaths).

(** What the two files of a level say. *)
Definition level_reads (partial : string) (u : bool * Z) : Prop :=
  let base := rootDir p "memory" in
  valueFromFile readFile to_bool (path_div (path_div base partial) "memory.use_hierarchy") = Ret u.1 /\
  valueFromFile readFile to_uint64 (path_div (path_div base partial) "memory.limit_in_bytes") = Ret u.2.

(** The limits from the first level on that sets [use_hierarchy]. *)
Fixpoint enforced (levels : list (bool * Z)) : list Z :=
  match levels with
  | [] => []
  | (use, limit) :: levels' => if (use : bool) then limit :: map snd levels' else enforced levels'
  end.

Lemma limits_enforced partials us use m :
  Forall2 level_reads partials us ->
  foldM (limit_level readFile (rootDir p "memory")) (use, m) partials =
    let limits := if (use : bool) then map snd us else enforced us in
    Ret (use || negb (bool_decide (limits = [])), foldl Z.min m limits).
Proof.
  intros Hr. revert use m. induction Hr as [|x [u l] partials us [Hu Hl] _ IH]; intros use m; [by destruct use|].
  cbn [foldM]. unfold limit_level at 2. cbn [fst snd] in Hu, Hl. destruct use; cbn [mbind outcome_bind].
  - rewrite Hl. cbn [mbind outcome_bind]. rewrite IH. done.
  - rewrite Hu. cbn [mbind outcome_bind]. destruct u; cbn [mbind outcome_bind enforced].
    + rewrite Hl. cbn [mbind outcome_bind]. rewrite IH. done.
    + by rewrite IH.
Qed.

(** The memory limit is the least of those that are enforced: from the first
    level from the root down that sets [use_hierarchy], down to the slice.  There
    is none if no level does.  A limit of 0 ends the process. *)
Theorem memory_limit_least us :
  Forall2 level_reads (partialPaths (slice_ p)) us ->
  memory_limit_bytes readFile p =
    if bool_decide (enforced us = []) then Ret None
    else let m := foldl Z.min (2 ^ 64 - 1) (enforced us) in
         if 0 <? m then Ret (Some m) else Crash "mem_bytes > 0".
Proof.
  intros Hr. unfold memory_limit_bytes. rewrite (limits_enforced _ us) by done. cbn [mbind outcome_bind orb].
  case_bool_decide; cbn [negb]; [done|]. unfold CHECK. by destruct (0 <? _).
Qed.
End Limits.

(** ** The cards of a task *)

Lemma bus_id_lookup infos bus i :
  NoDup (map pciBusID infos) ->
  bus_id_to_gpu_info infos !! bus = Some i <-> exists info, infos !! i = Some info /\ pciBusID info = bus.
Proof.
  unfold bus_id_to_gpu_info. revert i. induction infos as [|x infos IH] using rev_ind; intros i Hn.
  { cbn. rewrite lookup_empty. split; [done|]. by intros (? & ? & _). }
  rewrite map_app in Hn. apply NoDup_app in Hn as (Hn & Hd & _).
  rewrite imap_app, foldl_app. cbn [imap foldl]. rewrite Nat.add_0_r. cbn [fst snd].
  rewrite lookup_insert. case_decide as Hb.
  - split.
    + intros [= <-]. exists x. split; [by apply list_lookup_middle|done].
    + intros (info & [Hi|[Hi Hx]]%lookup_app_Some & <-).
      * exfalso. eapply (Hd (pciBusID info)); [|rewrite <- Hb; by left].
        apply list_elem_of_fmap_2. by eapply list_elem_of_lookup_2.
      * apply list_lookup_singleton_Some in Hx as [? _]. f_equal. lia.
  - rewrite IH by done. split.
    + intros (info & Hi & <-). exists info. split; [by apply lookup_app_l_Some|done].
    + intros (info & [Hi|[_ Hi]]%lookup_app_Some & <-); [eauto|].
      apply list_lookup_singleton_Some in Hi as [_ <-]. done.
Qed.

(** Which cards a process has after the loop over the pairs. *)
Lemma add_pids buses pairs m :
  foldM (add_pid buses) ∅ pairs = Ret m ->
  forall pid i, (exists l, m !! pid = Some l /\ i ∈ l) <-> exists bus, (pid, bus) ∈ pairs /\ buses !! bus = Some i.
Proof.
  revert m. induction pairs as [|[q bus] pairs IH] using rev_ind; intros m.
  { cbn. intros [= <-] pid i. split; [by intros (l & ?%lookup_empty_Some & _)|by intros (? & ?%elem_of_nil & _)]. }
  rewrite foldM_app. intros (m1 & E1 & E)%bind_Ret_iff pid i. cbn in E. unfold add_pid in E. cbn [fst snd] in E.
  destruct (buses !! bus) as [j|] eqn:Ej; [|done]. injection E as <-.
  setoid_rewrite elem_of_app. setoid_rewrite list_elem_of_singleton. rewrite lookup_insert.
  pose proof (IH m1 E1 pid i) as Hi. case_decide as Hq.
  - subst q. split.
    + intros (l & [= <-] & [Hl| ->%list_elem_of_singleton]%elem_of_app); [|by exists bus; auto].
      destruct (m1 !! pid) as [l1|] eqn:El; [|by apply elem_of_nil in Hl].
      destruct (proj1 Hi) as (b & ? & ?); eauto.
    + intros (b & [Hb|[= <-]] & Eb); eexists; (split; [done|]); apply elem_of_app.
      * destruct (proj2 Hi) as (l & -> & ?); eauto.
      * right. apply list_elem_of_singleton. congruence.
  - rewrite Hi. split; [intros (b & ? & ?); eauto|]. intros (b & [?|[= <- <-]] & ?); [eauto|done].
Qed.

Lemma gpu_ptrs_spec r pids i :
  i ∈ gpu_ptrs r pids <-> exists pid l, pid ∈ pids /\ pidToGpuInfos_ r !! pid = Some l /\ i ∈ l.
Proof.
  unfold gpu_ptrs. induction pids as [|pid pids IH] using rev_ind.
  { cbn. split; [by intros ?%elem_of_empty|]. by intros (? & ? & ?%elem_of_nil & _). }
  assert (Hin : forall l (s : gset nat), i ∈ foldl (fun ptrs i => {[i]} ∪ ptrs) s l <-> i ∈ s \/ i ∈ l).
  { clear. induction l as [|x l IHl]; intros s; cbn; [|rewrite IHl]; set_solver. }
  rewrite foldl_app. cbn [foldl]. setoid_rewrite elem_of_app. setoid_rewrite list_elem_of_singleton.
  destruct (pidToGpuInfos_ r !! pid) as [l|] eqn:E; [rewrite Hin|]; rewrite IH.
  - split.
    + intros [(q & l' & ? & ? & ?)|?]; [exists q, l'; auto|exists pid, l; auto].
    + intros (q & l' & [?| ->] & ? & ?); [by left; exists q, l'|right; congruence].
  - split; [intros (q & l' & ? & ? & ?); exists q, l'; auto|].
    intros (q & l' & [?| ->] & ? & ?); [by exists q, l'|congruence].
Qed.

(** The second loop of [taskGpus] copies what the pointers point to. *)
Lemma follow_ptrs (infos : list GPUInfo) ptrs acc :
  (forall i, i ∈ ptrs -> is_Some (infos !! i)) ->
  foldM (fun gpus i => match infos !! i with Some info => Ret (gpus ++ [info]) | None => Undef "gpu_ptr" end)
    acc ptrs = Ret (acc ++ omap (fun i => infos !! i) ptrs).
Proof.
  revert acc. induction ptrs as [|i ptrs IH]; intros acc Hs; cbn; [by rewrite app_nil_r|].
  destruct (Hs i) as [x ->]; [by left|]. cbn [mbind outcome_bind].
  rewrite IH by (intros; apply Hs; by right). by rewrite <- app_assoc.
Qed.

(** If the cards have bus IDs of their own, the cards that are reported of a task
    are exactly those that [nvidia-smi] lists one of its processes for, each
    once, with their current use. *)
Theorem task_gpus_exact `{Text} nvidia_smi run visit r pids pairs :
  (forall s, visit s ≡ₚ elements s) ->
  fetch_all_tasks nvidia_smi run = Ret r -> fetchGpuPidsWithBusID nvidia_smi run = Ret pairs ->
  NoDup (map pciBusID (gpuInfos_ r)) ->
  exists gs, taskGpus visit r pids = Ret gs /\ NoDup gs /\
    forall info, info ∈ gs <-> info ∈ gpuInfos_ r /\ exists pid, pid ∈ pids /\ (pid, pciBusID info) ∈ pairs.
Proof.
  intros Hv Er Ep Hn. unfold fetch_all_tasks in Er. rewrite Ep in Er.
  apply bind_Ret_iff in Er as (infos & _ & Er). cbn [mbind outcome_bind] in Er.
  apply bind_Ret_iff in Er as (m & Em & [= <-]). cbn [gpuInfos_] in *.
  pose proof (add_pids _ _ _ Em) as Hm.
  assert (Hptr : forall i, i ∈ visit (gpu_ptrs (mkAllTasks infos m) pids) <->
    exists info, infos !! i = Some info /\ exists pid, pid ∈ pids /\ (pid, pciBusID info) ∈ pairs).
  { intros i. rewrite Hv, elem_of_elements, gpu_ptrs_spec. cbn [pidToGpuInfos_]. split.
    - intros (pid & l & Hpid & Hl & Hi). destruct (proj1 (Hm pid i)) as (bus & Hb & Hbus); [eauto|].
      apply bus_id_lookup in Hbus as (info & Hinfo & <-); eauto.
    - intros (info & Hinfo & pid & Hpid & Hb). destruct (proj2 (Hm pid i)) as (l & ? & ?).
      + exists (pciBusID info). split; [done|]. apply bus_id_lookup; eauto.
      + eauto. }
  assert (Hu : NoDup (visit (gpu_ptrs (mkAllTasks infos m) pids))) by (rewrite Hv; apply NoDup_elements).
  unfold taskGpus. cbn [gpuInfos_]. generalize dependent (visit (gpu_ptrs (mkAllTasks infos m) pids)).
  intros ptrs Hptr Hu.
  rewrite follow_ptrs by (intros i (x & -> & _)%Hptr; by eexists). exists (omap (fun i => infos !! i) ptrs).
  split; [done|]. split.
  - clear Hptr. induction Hu as [|i ptrs Hi _ IH]; cbn; [constructor|].
    destruct (infos !! i) as [x|] eqn:Ex; [|done]. constructor; [|done].
    intros (j & Hj & Ej)%list_elem_of_omap. apply Hi. replace i with j; [done|].
    eapply NoDup_lookup; [exact Hn|by rewrite list_lookup_fmap, Ej|by rewrite list_lookup_fmap, Ex].
  - intros info. rewrite list_elem_of_omap. split.
    + intros (i & (x & Ex & Hpid)%Hptr & Ei). rewrite Ex in Ei. injection Ei as ->.
      split; [by eapply list_elem_of_lookup_2|done].
    + intros ([i Ei]%list_elem_of_lookup_1 & Hpid). exists i. split; [|done]. apply Hptr. eauto.
Qed.

(** ** Samples *)

(** Text functions that are enough for the samples: delimiters are one
    character, or a comma and a space. *)
Fixpoint split_at (d : Ascii.ascii) (acc s : string) : list string :=
  match s with
  | EmptyString => [acc]
  | String a s' => if Ascii.eqb a d then acc :: split_at d "" s' else split_at d (acc +:+ String a "") s'
  end.
Fixpoint drop_spaces (s : string) : string :=
  match s with String " "%char s' => drop_spaces s' | _ => s end.
Definition sample_split (d s : string) : list string :=
  match d with
  | String a EmptyString => split_at a "" s
  | String a _ => map drop_spaces (split_at a "" s)
  | _ => [s]
  end.
Fixpoint digits (acc : Z) (s : string) : outcome Z :=
  match s with
  | EmptyString => Ret acc
  | String a s' =>
      let n := Z.of_nat (Ascii.nat_of_ascii a) - 48 in
      if (0 <=? n) && (n <=? 9) then digits (10 * acc + n) s' else Throw "Non-digit"
  end.
Definition sample_uint64 (s : string) : outcome Z :=
  let* n := match s with "" => Throw "Empty input" | _ => digits 0 s end in
  require ((0 <=? n) && (n <? 2 ^ 64)) "Overflow" ;;; Ret n.
#[local] Instance sample_text : Text := {
  split := sample_split;
  to_uint64 := sample_uint64;
  to_bool s := let* n := sample_uint64 s in Ret (negb (n =? 0));
  to_double s := let* n := sample_uint64 s in Ret (f_of n);
  to_pid := sample_uint64;
  remove_newline s := s;
  contains s t := match String.index 0 t s with Some _ => true | None => false end;
  by_line := sample_split " ";
  print_int n := if n =? 0 then "0" else "1";
  path_div a b := a +:+ "/" +:+ b;
  path_parts := sample_split "/"
}.

Lemma sample_uint64_range s n : sample_uint64 s = Ret n -> 0 <= n < 2 ^ 64.
Proof.
  unfold sample_uint64. intros (m & _ & E)%bind_Ret_iff. apply bind_Ret_iff in E as (? & Hr & [= <-]).
  apply require_Ret in Hr. lia.
Qed.
Lemma sample_uint64_throws s : (exists n, sample_uint64 s = Ret n) \/ exists e, sample_uint64 s = Throw e.
Proof.
  assert (Hd : forall s acc, (exists n, digits acc s = Ret n) \/ exists e, digits acc s = Throw e).
  { clear. induction s as [|a s IH]; intros acc; cbn; [eauto|]. case_match; eauto. }
  unfold sample_uint64. destruct s as [|a s]; [right; by eexists|].
  destruct (Hd (String a s) 0) as [[n E]|[e E]]; rewrite E; cbn [mbind outcome_bind]; [|eauto].
  unfold require. case_match; cbn; eauto.
Qed.

Lemma int_set_parsed_sample :
  exists nums, parseIntSet 3 "0-2,8" = Ret (Some nums) /\ 2 ∈ nums /\ 8 ∈ nums /\ 3 ∉ nums.
Proof.
  assert (E1 : part_range "0-2" = Some (0, 2)) by (vm_compute; reflexivity).
  assert (E2 : part_range "8" = Some (8, 8)) by (vm_compute; reflexivity).
  assert (Es : split "," "0-2,8" = ["0-2"; "8"]) by (vm_compute; reflexivity).
  pose proof (int_set_parsed sample_uint64_range sample_uint64_throws 3 "0-2,8") as Hp. rewrite Es in Hp.
  cbn [forallb] in Hp. rewrite E1, E2 in Hp. rewrite !bool_decide_true in Hp by by eexists.
  destruct Hp as (nums & E & Hn).
  - intros part a b [->|[->|[]%elem_of_nil]%elem_of_cons]%elem_of_cons; rewrite ?E1, ?E2; intros [= <- <-]; lia.
  - exists nums. split; [exact E|]. rewrite !Hn. split; [|split].
    + exists "0-2", 0, 2. split; [by left|]. split; [done|lia].
    + exists "8", 8, 8. split; [by right; left|]. split; [done|lia].
    + intros (part & a & b & [->|[->|[]%elem_of_nil]%elem_of_cons]%elem_of_cons & Hr & Hab);
        rewrite ?E1, ?E2 in Hr; injection Hr as <- <-; lia.
Qed.

(** Two processes of a task share a card, and the third card is not theirs. *)
Definition sample_smi (cmd : list string) : list string * option Z :=
  match cmd with
  | [_; _; "--query-compute-apps=pid,gpu_bus_id"] => (["10, b1"; "11, b1"; "12, b3"; "11, b2"], Some 0)
  | _ => (["b1, 100, 50, K40"; "b2, 200, 100, K40"; "b3, 300, 0, M6"], Some 0)
  end.
Lemma task_gpus_exact_sample :
  exists r gs, fetch_all_tasks "smi" sample_smi = Ret r /\
    taskGpus elements r [10; 11] = Ret gs /\ NoDup gs /\ map pciBusID gs ≡ₚ ["b1"; "b2"].
Proof.
  destruct (fetch_all_tasks "smi" sample_smi) as [r| | |] eqn:E; vm_compute in E; try done.
  injection E as <-. eexists _, _. split; [reflexivity|]. split; [vm_compute; reflexivity|].
  split; [apply (bool_decide_unpack _); vm_compute; exact I|]. cbn. apply Permutation_swap || reflexivity.
Qed.

(** A range up to the last 64-bit number never ends, whatever the fuel; a memory
    limit of 0 ends the process; a failed query of the page size is not noticed. *)
Definition sample_paths (slice : string) : CGroupPaths := mkPaths "r" slice ["memory"] None "n".
Theorem physical_edges :
  (forall fuel, parseIntSet fuel "3-18446744073709551615" = Ret None) /\
  memory_limit_bytes (fun f => Some (if String.eqb f "r/memory//s/memory.limit_in_bytes" then "0" else "1"))
    (sample_paths "s") = Crash "mem_bytes > 0" /\
  is_ret (systemRamMB 1024 (-1)) = true.
Proof.
  split; [|split; vm_compute; reflexivity].
  intros fuel. unfold parseIntSet. cbn [split sample_text]. 
  replace (sample_split "," "3-18446744073709551615") with ["3-18446744073709551615"] by (vm_compute; reflexivity).
  cbn [foldM]. unfold int_set_part. cbn [split sample_text].
  replace (sample_split "-" "3-18446744073709551615") with ["3"; "18446744073709551615"] by (vm_compute; reflexivity).
  cbn [to_uint64 sample_text].
  replace (sample_uint64 "3") with (Ret (u64 3)) by (vm_compute; reflexivity).
  replace (sample_uint64 "18446744073709551615") with (Ret (2 ^ 64 - 1)) by (vm_compute; reflexivity).
  cbn [mbind outcome_bind]. unfold require. replace (u64 3 <=? 2 ^ 64 - 1) with true by (vm_compute; reflexivity).
  cbn [mbind outcome_bind]. by rewrite insert_range_loops.
Qed.
