(* ===== verification/History.v ===== *)
(** The history of worker sets in [remote/RemoteWorkers.cpp]: what the steps of
    [history_] stand for, that the callbacks extend it in agreement with the
    workers, and that pruning keeps every set that a worker may refer to. *)

From stdpp Require Import base gmap strings list sorting.
From Stdlib Require Import ZArith Lia.
From S2P Require Import Prelude Thrift WorkerSet WorkerState RemoteWorker RemoteWorkers.

#[local] Open Scope Z_scope.

(** The set of workers of a version: the steps up to it, one after the other. *)
Fixpoint members_at (acc : gset string) (l : list (Z * HistoryStep)) (v : Z) : outcome (gset string) :=
  match l with
  | [] => Ret acc
  | (v', step) :: l' =>
      if v' <=? v then let* acc := mergeHistoryStep step acc in members_at acc l' v else Ret acc
  end.

(** The versions of the history are consecutive up to the current one, and its
    steps lead to the workers [M] that are not MUST_DIE. *)
Record history_ok (s : WorkerSets) (M : gset string) : Prop := {
  ho_versions : map fst (history_ s) =
    seqZ (cur_version s - Z.of_nat (length (history_ s)) + 1) (Z.of_nat (length (history_ s)));
  ho_oldest : 0 <= cur_version s - Z.of_nat (length (history_ s)) + 1;
  ho_members : members_at ∅ (history_ s) (cur_version s) = Ret M
}.

(** ** Steps *)

Lemma merge_added X acc :
  X ## acc ->
  mergeHistoryStep (mkStep None X) acc = Ret (X ∪ acc).
Proof.
  unfold mergeHistoryStep. cbn [removed added mbind outcome_bind].
  rewrite <- (list_to_set_elements_L X) at 1 3. generalize (NoDup_elements X).
  generalize (elements X). intros l Hl. revert acc.
  induction Hl as [|x l Hx _ IH]; intros acc Hd; cbn [foldM list_to_set]; [by rewrite union_empty_l_L|].
  cbn [list_to_set] in Hd. rewrite bool_decide_false by set_solver. cbn [negb CHECK mbind outcome_bind].
  rewrite IH by (apply elem_of_disjoint; intros y; rewrite elem_of_list_to_set; set_solver).
  f_equal. set_solver.
Qed.

Lemma merge_fresh X : mergeHistoryStep (mkStep None X) ∅ = Ret X.
Proof. rewrite merge_added by set_solver. f_equal. set_solver. Qed.

Lemma merge_removed x acc :
  x ∈ acc -> mergeHistoryStep (mkStep (Some x) ∅) acc = Ret (acc ∖ {[x]}).
Proof. intros Hx. unfold mergeHistoryStep. cbn. by rewrite bool_decide_true. Qed.

Lemma members_app acc l v step v' :
  Forall (fun p => p.1 <= v) l -> v < v' ->
  members_at acc (l ++ [(v', step)]) v' = (let* M := members_at acc l v in mergeHistoryStep step M).
Proof.
  intros Hl Hv. revert acc. induction Hl as [|[v0 st] l Hv0 _ IH]; intros acc; cbn [members_at app].
  - rewrite (proj2 (Z.leb_le v' v')) by lia. cbn [mbind outcome_bind]. by destruct (mergeHistoryStep step acc).
  - cbn in Hv0. rewrite !(proj2 (Z.leb_le _ _)) by lia. destruct (mergeHistoryStep st acc); [|done..].
    cbn [mbind outcome_bind]. apply IH.
Qed.

Lemma ok_versions s M : history_ok s M -> Forall (fun p => 0 <= p.1 <= cur_version s) (history_ s).
Proof.
  intros [Hv Ho _]. apply Forall_forall. intros p Hp.
  apply (list_elem_of_fmap_2 fst) in Hp. change (fst <$> history_ s) with (map fst (history_ s)) in Hp.
  rewrite Hv in Hp. apply elem_of_seqZ in Hp. lia.
Qed.

(** The new version that both callbacks make. *)
Lemma bump_history s hash step M M' s' :
  history_ok s M -> 0 <= cur_version s < 2 ^ 62 - 1 -> mergeHistoryStep step M = Ret M' ->
  bump_version s hash step = Ret s' -> history_ok s' M'.
Proof.
  intros Hok Hv Hm. pose proof (ok_versions _ _ Hok) as Hall. destruct Hok as [Hvs Ho Hmem].
  unfold bump_version, next_version. fold (cur_version s). rewrite s64_id by (unfold is_s64; lia).
  rewrite history_emplace_ok; [|lia|eapply Forall_impl; [exact Hall|cbn; intros; lia]].
  cbn [mbind outcome_bind CHECK_Some]. intros [= <-].
  split; unfold cur_version in *; cbn [set_current nonMustDieWorkerSetID_ history_ ws_version] in *;
    rewrite ?length_app, ?map_app; cbn [length map].
  - rewrite Hvs. set (n := length (history_ s)). set (c := ws_version (nonMustDieWorkerSetID_ s)).
    rewrite Nat.add_1_r, seqZ_S. f_equal; [f_equal; lia|]. f_equal. cbn [fst]. lia.
  - lia.
  - rewrite (members_app _ _ (ws_version (nonMustDieWorkerSetID_ s))); [|eapply Forall_impl; [exact Hall|cbn; intros; lia]|lia].
    by rewrite Hmem.
Qed.

(** A new worker joins, a dead one leaves; an echoed set changes no history. *)
Theorem callbacks_extend_history s M w s' :
  history_ok s M -> 0 <= cur_version s < 2 ^ 62 - 1 ->
  (onNewWorker s w = Ret s' -> shard_of w ∉ M -> history_ok s' ({[shard_of w]} ∪ M)) /\
  (onDeadWorker s w = Ret s' -> shard_of w ∈ M -> history_ok s' (M ∖ {[shard_of w]})) /\
  (forall id w', onWorkerSetIDChange s w id = Ret (s', w') -> history_ok s' M).
Proof.
  intros Hok Hv. split; [|split].
  - unfold onNewWorker. intros E Hn. inv_ret. eapply (bump_history (set_initial s _)); [|exact Hv| |exact E].
    + by destruct Hok.
    + rewrite merge_added by set_solver. done.
  - unfold onDeadWorker. intros E Hin. apply bind_Ret_iff in E as (l & _ & E).
    apply bind_Ret_iff in E as (s1 & E1 & E). apply bind_Ret_iff in E as (hash & _ & E).
    assert (Hs1 : history_ok s1 M /\ cur_version s1 = cur_version s).
    { destruct (indirectWorkerSetID_ w); [|injection E1 as <-; by destruct Hok].
      apply bind_Ret_iff in E1 as (? & _ & E1). apply bind_Ret_iff in E1 as (? & _ & [= <-]). by destruct Hok. }
    eapply (bump_history s1); [apply Hs1|rewrite (proj2 Hs1); exact Hv|by apply merge_removed|exact E].
  - intros id w' E. unfold onWorkerSetIDChange, updateIndirectWorkerSetVersion in E.
    apply bind_Ret_iff in E as (? & _ & E). apply bind_Ret_iff in E as (? & _ & E).
    apply bind_Ret_iff in E as (b & _ & E). destruct b; [by injection E as <- <-|].
    apply bind_Ret_iff in E as (? & _ & E). apply bind_Ret_iff in E as (? & _ & [= <- <-]). by destruct Hok.
Qed.

(** ** Pruning *)

Lemma seqZ_sorted a (n : nat) : StronglySorted Z.lt (seqZ a (Z.of_nat n)).
Proof.
  revert a. induction n as [|n IH]; intros a; [constructor|].
  rewrite seqZ_cons by lia. replace (Z.pred (Z.of_nat (S n))) with (Z.of_nat n) by lia. constructor; [apply IH|].
  apply Forall_forall. intros x Hx%elem_of_seqZ. lia.
Qed.

Lemma filter_seqZ first a n : a <= first <= a + n ->
  List.filter (fun v => first <=? v) (seqZ a n) = seqZ first (a + n - first).
Proof.
  intros Hf. replace n with ((first - a) + (a + n - first)) at 1 by lia.
  rewrite seqZ_app, List.filter_app by lia. replace (a + (first - a)) with first by lia.
  assert (Hno : forall l, Forall (fun v => v < first) l -> List.filter (fun v => first <=? v) l = []).
  { induction 1 as [|x l Hx _ IH]; [done|]. cbn. by rewrite (proj2 (Z.leb_gt first x)) by lia. }
  assert (Hall : forall l, Forall (fun v => first <= v) l -> List.filter (fun v => first <=? v) l = l).
  { induction 1 as [|x l Hx _ IH]; [done|]. cbn. rewrite (proj2 (Z.leb_le first x)) by lia. by f_equal. }
  rewrite Hno, Hall; [done|..]; apply Forall_forall; intros x Hx%elem_of_seqZ; lia.
Qed.

(** The loop drops the steps before [first] and keeps what the others stand for. *)
Lemma prune_loop_spec first acc l c :
  0 <= first < 2 ^ 62 -> Forall (fun p => 0 <= p.1 < 2 ^ 62 /\ p.1 <= c) l ->
  StronglySorted Z.lt (map fst l) -> first ∈ map fst l -> is_ret (members_at acc l c) = true ->
  exists h, prune_loop first acc l = Ret (∅, h) /\
    map fst h = List.filter (fun v => first <=? v) (map fst l) /\
    forall v, first <= v -> members_at ∅ h v = members_at acc l v.
Proof.
  intros Hf. revert acc. induction l as [|[v0 step] l IH]; intros acc Hall Hsort Hin Hret.
  { by apply elem_of_nil in Hin. }
  apply Forall_cons in Hall as [[Hv0 Hc] Hall]. cbn [map fst] in *.
  apply StronglySorted_inv in Hsort as [Hsort Hlt]. cbn [prune_loop members_at] in *.
  rewrite (proj2 (Z.leb_le v0 c)) in Hret by lia. rewrite small_earlier by lia. cbn [mbind outcome_bind].
  destruct (mergeHistoryStep step acc) as [acc'| | |] eqn:Em; try done. cbn [mbind outcome_bind] in Hret.
  apply elem_of_cons in Hin as [<-|Hin].
  - rewrite Z.ltb_irrefl, Z.eqb_refl. cbn [CHECK mbind outcome_bind].
    eexists. split; [done|]. cbn [map fst List.filter]. rewrite (proj2 (Z.leb_le first first)) by lia. split.
    + f_equal. symmetry. rewrite Forall_forall in Hlt. clear -Hlt. induction (map fst l) as [|x m IHm]; [done|].
      cbn. rewrite (proj2 (Z.leb_le first x)) by (pose proof (Hlt x ltac:(by left)); lia).
      f_equal. apply IHm. intros y Hy. apply Hlt. by right.
    + intros v Hv. cbn [members_at]. rewrite (proj2 (Z.leb_le first v)) by lia. by rewrite merge_fresh.
  - rewrite Forall_forall in Hlt. pose proof (Hlt first Hin) as Hlt0.
    rewrite (proj2 (Z.ltb_lt v0 first)) by lia. cbn [mbind outcome_bind].
    destruct (IH acc' Hall Hsort Hin Hret) as (h & -> & Hh & Hm). exists h. split; [done|].
    cbn [List.filter]. rewrite (proj2 (Z.leb_gt first v0)) by lia. split; [exact Hh|].
    intros v Hv. rewrite (proj2 (Z.leb_le v0 v)) by lia. by apply Hm.
Qed.

(** The oldest set that workers have echoed that are not MUST_DIE. *)
Definition echoes (l : list (string * RemoteWorker)) (id : WorkerSetID) : Prop :=
  exists shard w, (shard, w) ∈ l /\ getState w <> MUST_DIE /\ workerSetID_ w = Some id.
Definition oldest (l : list (string * RemoteWorker)) (r : option Z) : Prop :=
  match r with
  | None => forall id, ~ echoes l id
  | Some v => (exists id, echoes l id /\ ws_version id = v) /\ forall id, echoes l id -> v <= ws_version id
  end.

Lemma echoes_snoc l shard w id :
  echoes (l ++ [(shard, w)]) id <-> echoes l id \/ getState w <> MUST_DIE /\ workerSetID_ w = Some id.
Proof.
  unfold echoes. split.
  - intros (sh & w' & [Hin|[= -> ->]%list_elem_of_singleton]%elem_of_app & ? & ?); [left; eauto|by right].
  - intros [(sh & w' & Hin & ?)|?].
    + exists sh, w'. split; [apply elem_of_app; by left|done].
    + exists shard, w. split; [apply elem_of_app; right; by apply list_elem_of_singleton|done].
Qed.

Lemma oldest_same l shard w r :
  getState w = MUST_DIE \/ workerSetID_ w = None -> oldest l r -> oldest (l ++ [(shard, w)]) r.
Proof.
  intros Hw. assert (Hsame : forall id, echoes (l ++ [(shard, w)]) id <-> echoes l id).
  { intros id. rewrite echoes_snoc. split; [|by left]. intros [?|[? ?]]; [done|]. by destruct Hw; congruence. }
  destruct r as [v|]; cbn; [|by intros Hr id; rewrite Hsame].
  intros [(id & He & Hv) Hr]. split; [exists id; by rewrite Hsame|]. intros id'. rewrite Hsame. apply Hr.
Qed.

Lemma oldest_snoc l shard w id r :
  getState w <> MUST_DIE -> workerSetID_ w = Some id -> oldest l r ->
  oldest (l ++ [(shard, w)])
    (Some (match r with Some v => Z.min (ws_version id) v | None => ws_version id end)).
Proof.
  intros Hd Hw Hr. cbn. setoid_rewrite echoes_snoc. destruct r as [v|]; cbn in Hr.
  - destruct Hr as [(id' & He & <-) Hr]. split.
    + destruct (Z.min_spec (ws_version id) (ws_version id')) as [[_ ->]|[_ ->]]; eauto.
    + intros id2 [He2%Hr|[_ E2]]; [lia|]. assert (id2 = id) as -> by congruence. lia.
  - split; [eauto|]. intros id2 [He2|[_ E2]]; [by apply Hr in He2|]. assert (id2 = id) as -> by congruence. lia.
Qed.

Lemma first_referenced_spec pool :
  (forall id, echoes (map_to_list pool) id -> 0 <= ws_version id < 2 ^ 62) ->
  exists r, first_referenced pool = Ret r /\ oldest (map_to_list pool) r.
Proof.
  unfold first_referenced. generalize (map_to_list pool). intros l.
  induction l as [|[shard w] l IH] using rev_ind; intros Hs.
  { exists None. split; [done|]. by intros id (? & ? & ?%elem_of_nil & _). }
  destruct IH as (r & E & Hr); [intros id He; apply Hs, echoes_snoc; by left|].
  rewrite foldM_app, E. cbn [mbind outcome_bind foldM snd].
  case_bool_decide as Hd; cbn [mbind outcome_bind].
  { exists r. split; [done|]. apply oldest_same; auto. }
  destruct (workerSetID_ w) as [id|] eqn:Ew; cbn [mbind outcome_bind].
  2: { exists r. split; [done|]. apply oldest_same; auto. }
  pose proof (oldest_snoc l shard w id r Hd Ew Hr) as Ho.
  assert (Hid : 0 <= ws_version id < 2 ^ 62) by (apply Hs, echoes_snoc; by right).
  destruct r as [v|]; [|by eexists].
  assert (Hv : 0 <= v < 2 ^ 62).
  { destruct Hr as [(id' & He & <-) _]. apply Hs, echoes_snoc. by left. }
  rewrite small_earlier by lia. cbn [mbind outcome_bind]. eexists. split; [done|].
  destruct (Z.ltb_spec (ws_version id) v); [by rewrite Z.min_l in Ho by lia|by rewrite Z.min_r in Ho by lia].
Qed.

Lemma live_echo pool id :
  echoes (map_to_list pool) id <-> exists shard w, live_map pool !! shard = Some w /\ workerSetID_ w = Some id.
Proof.
  unfold echoes. setoid_rewrite live_map_lookup. setoid_rewrite elem_of_map_to_list.
  split; intros (shard & w & H); exists shard, w; tauto.
Qed.

(** What the invariant says of the sets of a worker that is not lost. *)
Lemma live_sets sched s L shard w :
  sets_inv sched s L -> L !! shard = Some w ->
  (is_Some (indirectWorkerSetID_ w) <-> is_Some (workerSetID_ w)) /\
  forall id, workerSetID_ w = Some id -> 0 <= ws_version id <= cur_version s.
Proof.
  intros Hi Hw. destruct (si_workers _ _ _ Hi shard w Hw) as (_ & _ & _ & Hids).
  destruct (firstAssociatedWorkerSetID_ w), (workerSetID_ w), (indirectWorkerSetID_ w); try done.
  split; [split; by eexists|]. intros id [= <-]. destruct Hids as (_ & [_ ?] & _). done.
Qed.

(** There are no workers in limbo if all have echoed a set. *)
Lemma no_limbo sched s L :
  sets_inv sched s L ->
  (length (indirectVersions_ s) <? length (initialWorkerSetIDs_ s))%nat = false <->
  forall shard w, L !! shard = Some w -> is_Some (workerSetID_ w).
Proof.
  intros Hi. rewrite Nat.ltb_ge, (si_indirect _ _ _ Hi), (si_initial _ _ _ Hi), length_fmap.
  assert (Hw : forall shard w, (shard, w) ∈ map_to_list L ->
    is_Some (indirectWorkerSetID_ w) <-> is_Some (workerSetID_ w)).
  { intros shard w Hw%elem_of_map_to_list. by apply (live_sets sched s L shard). }
  split.
  - intros Hle shard w Hin%elem_of_map_to_list. apply (Hw shard w Hin).
    assert (Hl : length (omap entry (map_to_list L)) = length (map_to_list L)).
    { apply Nat.le_antisymm; [|done]. clear. induction (map_to_list L) as [|p l IH]; [done|].
      cbn. destruct (entry p); cbn; lia. }
    apply all_entries in Hl. rewrite Forall_forall in Hl. by apply (Hl (shard, w)).
  - intros Hall. assert (Hsome : forall p, p ∈ map_to_list L -> is_Some (indirectWorkerSetID_ p.2)).
    { intros [shard w] Hin. apply (Hw shard w Hin), (Hall shard). by apply elem_of_map_to_list. }
    clear -Hsome. induction (map_to_list L) as [|p l IH]; [done|]. cbn. unfold entry at 1.
    destruct (Hsome p) as [id ->]; [by left|]. cbn. assert (Hl : forall q, q ∈ l -> is_Some (indirectWorkerSetID_ q.2))
      by (intros; apply Hsome; by right). specialize (IH Hl). lia.
Qed.

(** Another history of the same versions keeps the invariant. *)
Lemma history_core sched s pool h :
  core_inv sched s pool -> Forall (fun p => 0 <= p.1 <= cur_version s) h ->
  core_inv sched (set_current s (nonMustDieWorkerSetID_ s) h) pool.
Proof. intros [[] ?] Hh. split; [by constructor|done]. Qed.

Lemma version_known s M v :
  history_ok s M -> cur_version s - Z.of_nat (length (history_ s)) + 1 <= v <= cur_version s ->
  v ∈ map fst (history_ s).
Proof. intros [-> _ _] Hv. apply elem_of_seqZ. lia. Qed.

(** What the loop leaves is a history again. *)
Lemma pruned_ok s M first :
  0 <= cur_version s < 2 ^ 62 -> history_ok s M ->
  cur_version s - Z.of_nat (length (history_ s)) + 1 <= first <= cur_version s ->
  exists h, prune_loop first ∅ (history_ s) = Ret (∅, h) /\
    map fst h = seqZ first (cur_version s - first + 1) /\
    history_ok (set_current s (nonMustDieWorkerSetID_ s) h) M /\
    forall v, first <= v -> members_at ∅ h v = members_at ∅ (history_ s) v.
Proof.
  intros Hcur Hok Hf. pose proof (ok_versions _ _ Hok) as Hall. pose proof (version_known s M first Hok Hf) as Hin.
  destruct Hok as [Hv Ho Hm].
  destruct (prune_loop_spec first ∅ (history_ s) (cur_version s)) as (h & E & Hh & Hmem).
  - lia.
  - eapply Forall_impl; [exact Hall|]. cbn. intros; lia.
  - rewrite Hv. apply seqZ_sorted.
  - done.
  - by rewrite Hm.
  - rewrite Hv, filter_seqZ in Hh by lia.
    replace (cur_version s - Z.of_nat (length (history_ s)) + 1 + Z.of_nat (length (history_ s)) - first)
      with (cur_version s - first + 1) in Hh by lia.
    assert (Hlen : Z.of_nat (length h) = cur_version s - first + 1).
    { rewrite <- (length_map fst h), Hh, length_seqZ. lia. }
    exists h. split; [done|]. split; [done|]. split; [|done].
    split; unfold cur_version in *; cbn [set_current nonMustDieWorkerSetID_ history_] in *; rewrite ?Hlen.
    + rewrite Hh. f_equal. lia.
    + lia.
    + rewrite Hmem by lia. done.
Qed.

(** C40: Pruning the history trips no check, keeps the records of the pool in
    agreement, and keeps the set of workers of every version from the oldest one
    on that a worker which is not lost has echoed, up to the current version, if
    the history has not lost them before.  Unless some worker has yet to echo its
    first set, the history starts with that version afterwards, and is empty if
    all workers are lost. *)
Theorem pruning_keeps_sets sched s pool :
  core_inv sched s pool -> history_ok s (dom (live_map pool)) ->
  (forall shard w id, live_map pool !! shard = Some w -> workerSetID_ w = Some id ->
     cur_version s - Z.of_nat (length (history_ s)) + 1 <= ws_version id) ->
  exists s', pruneUnusedHistoryVersions s pool = Ret s' /\
    core_inv sched s' pool /\ history_ok s' (dom (live_map pool)) /\
    (forall shard w id v, live_map pool !! shard = Some w -> workerSetID_ w = Some id ->
       ws_version id <= v -> members_at ∅ (history_ s') v = members_at ∅ (history_ s) v) /\
    ((forall shard w, live_map pool !! shard = Some w -> is_Some (workerSetID_ w)) ->
     match history_ s' with
     | [] => live_map pool = ∅
     | (v, _) :: _ => exists shard w id, live_map pool !! shard = Some w /\ workerSetID_ w = Some id /\ ws_version id = v
     end).
Proof.
  intros Hcore Hok Href. pose proof (proj1 Hcore) as Hi.
  pose proof (si_current _ _ _ Hi) as [_ Hcur]. fold (cur_version s) in Hcur.
  pose proof (fun shard w => live_sets sched s (live_map pool) shard w Hi) as Hlive.
  pose proof (no_limbo sched s (live_map pool) Hi) as Hlimbo.
  unfold pruneUnusedHistoryVersions.
  rewrite (CHECK_true (length (indirectVersions_ s) <=? _)%nat) by (by eapply Nat.leb_le, indirect_length).
  cbn [mbind outcome_bind]. destruct (Nat.ltb _ _) eqn:Elt.
  { exists s. split_and!; try done. intros Hall. by apply Hlimbo in Hall. }
  pose proof (proj1 Hlimbo eq_refl) as Hall. clear Hlimbo Elt.
  destruct (first_referenced_spec pool) as (r & -> & Hr).
  { intros id (shard & w & Hw & Ew)%live_echo. pose proof (proj2 (Hlive shard w Hw) id Ew). lia. }
  cbn [mbind outcome_bind]. destruct r as [first|].
  - destruct Hr as [(id0 & (shard & w & Hw & Ew)%live_echo & <-) Hmin].
    pose proof (proj2 (Hlive shard w Hw) id0 Ew) as H0. pose proof (Href shard w id0 Hw Ew) as H1.
    destruct (pruned_ok s _ (ws_version id0) ltac:(lia) Hok ltac:(lia)) as (h & -> & Hh & Hok' & Hmem).
    cbn [mbind outcome_bind]. rewrite bool_decide_true by done. cbn [CHECK mbind outcome_bind].
    eexists. split; [done|]. split_and!; [|done| |].
    + apply history_core; [done|]. apply ok_versions in Hok'. exact Hok'.
    + intros sh w' id v Hw' Ew' Hv. apply Hmem. assert (ws_version id0 <= ws_version id); [|lia].
      apply Hmin, live_echo. eauto.
    + intros _. cbn [set_current history_]. destruct h as [|[v step] h]; cbn [map fst] in Hh.
      * rewrite seqZ_cons in Hh by lia. done.
      * rewrite seqZ_cons in Hh by lia. injection Hh as -> _. by exists shard, w, id0.
  - assert (Hnone : live_map pool = ∅).
    { apply map_empty. intros shard. destruct (live_map pool !! shard) as [w|] eqn:Hw; [|done]. exfalso.
      destruct (Hall shard w Hw) as [id Ew]. apply (Hr id), live_echo. eauto. }
    assert (Hn : length (initialWorkerSetIDs_ s) = 0%nat).
    { rewrite (si_initial _ _ _ Hi), Hnone, map_to_list_empty. done. }
    rewrite Hn. cbn [Nat.eqb CHECK mbind outcome_bind]. eexists. split; [done|]. split_and!.
    + by apply history_core.
    + rewrite Hnone, dom_empty_L. split; unfold cur_version in *; cbn in *; [done|lia|done].
    + intros shard w id v Hw. by rewrite Hnone in Hw.
    + done.
Qed.

(** ** Samples *)

Lemma sample_facts :
  match sample_pool with
  | Ret rs => map fst (history_ (sets_ rs)) = [1] /\ cur_version (sets_ rs) = 1 /\
      members_at ∅ (history_ (sets_ rs)) 1 = Ret {["shard"]} /\
      dom (live_map (workerPool_ rs)) = {["shard"]} /\
      Forall (fun p => bool_decide (ws_version <$> workerSetID_ p.2 = Some 1) = true)
        (map_to_list (workerPool_ rs))
  | _ => False
  end.
Proof. vm_compute. split_and!; try reflexivity. repeat constructor. Qed.

Lemma pruning_keeps_sets_witness :
  exists rs s', sample_pool = Ret rs /\ pruneUnusedHistoryVersions (sets_ rs) (workerPool_ rs) = Ret s' /\
    history_ok s' (dom (live_map (workerPool_ rs))).
Proof.
  destruct sample_pool_inv as (rs & E & Hi). pose proof sample_facts as Hf. rewrite E in Hf.
  destruct Hf as (Hv & Hc & Hm & Hd & Hw).
  assert (Hlen : length (history_ (sets_ rs)) = 1%nat) by (by rewrite <- (length_map fst), Hv).
  destruct (pruning_keeps_sets sample_sched (sets_ rs) (workerPool_ rs)) as (s' & Es & _ & Hok & _).
  - apply Hi.
  - split; rewrite ?Hlen, ?Hc, ?Hv; [reflexivity|lia|by rewrite Hm, Hd].
  - intros shard w id [Hin _]%live_map_lookup Ew. rewrite Hlen, Hc.
    apply elem_of_map_to_list in Hin. rewrite Forall_forall in Hw. specialize (Hw _ Hin).
    apply bool_decide_eq_true in Hw. cbn in Hw. rewrite Ew in Hw. cbn in Hw. injection Hw as ->. lia.
  - exists rs, s'. split; [exact E|]. split; [exact Es|exact Hok].
Defined.

(** Two workers connect and echo the second set: the step of the first set is
    merged into that of the second. *)
Theorem merged_steps :
  match sample_beats (newUpdate 100) (newRemoteWorkers 90 sample_sched)
          [(sample_bw 1 50, sample_set 3 9); (sample_bw_b, sample_set 3 9);
           (sample_bw 1 50, mkWorkerSetID sample_sched 2 sample_hash);
           (sample_bw_b, mkWorkerSetID sample_sched 2 sample_hash)] with
  | Ret rs => (fun p => (p.1, removed p.2, elements (added p.2))) <$> history_ (sets_ rs)
        = [(1, None, ["shard"]); (2, None, ["shard_b"])] /\
      match pruneUnusedHistoryVersions (sets_ rs) (workerPool_ rs) with
      | Ret s' => (fun p => (p.1, removed p.2, added p.2)) <$> history_ s' = [(2, None, {["shard"; "shard_b"]})]
      | _ => False
      end
  | _ => False
  end.
Proof. vm_compute. split; reflexivity. Qed.
