(* ===== verification/Propagation.v ===== *)
(** [RemoteWorkers::propagateIndirectWorkerSets]: one round of the propagation
    of worker sets along the history.  It trips no check, keeps the records of
    the pool, gives a worker only sets that follow from the sets of the workers
    in its own, and misses none of those. *)

From stdpp Require Import base gmap strings list sorting.
From Stdlib Require Import ZArith Lia.
From S2P Require Import Prelude Thrift WorkerSet WorkerState RemoteWorker RemoteWorkers History.

#[local] Open Scope Z_scope.

(** ** The labels of the workers of a set *)

(** A worker's entry in [vss]. *)
Definition label (pool : gmap string RemoteWorker) (shard : string) : option (Z * string) :=
  w ← pool !! shard; id ← indirectWorkerSetID_ w; Some (ws_version id, shard).

(** [vss] holds the labels of the workers [A], in the order of their versions. *)
Definition vss_ok (pool : gmap string RemoteWorker) (A : gset string) (vss : list (Z * string)) : Prop :=
  vss ≡ₚ omap (label pool) (elements A) /\ StronglySorted vss_before vss.

(** All indirect sets are sets of this scheduler up to version [c]. *)
Definition labels_ours (sched : BistroInstanceID) (c : Z) (pool : gmap string RemoteWorker) : Prop :=
  forall shard w id, pool !! shard = Some w -> indirectWorkerSetID_ w = Some id -> ours sched c id.

Lemma label_shard pool shard v sh : label pool shard = Some (v, sh) -> sh = shard.
Proof. unfold label. destruct (pool !! shard); cbn; [|done]. destruct (indirectWorkerSetID_ _); naive_solver. Qed.

Lemma vss_elem pool A vss v sh :
  vss_ok pool A vss -> (v, sh) ∈ vss <-> sh ∈ A /\ label pool sh = Some (v, sh).
Proof.
  intros [Hp _]. rewrite Hp, list_elem_of_omap. setoid_rewrite elem_of_elements. split.
  - intros (x & Hx & E). by pose proof (label_shard _ _ _ _ E) as <-.
  - intros [? ?]. eauto.
Qed.

Lemma vss_small sched c pool A vss :
  c < 2 ^ 62 -> labels_ours sched c pool -> vss_ok pool A vss -> Forall small vss.
Proof.
  intros Hc Ho Hv. apply Forall_forall. intros [v sh] [_ E]%(vss_elem _ _ _ _ _ Hv). unfold label in E.
  destruct (pool !! sh) as [w|] eqn:Ew; [|done]. cbn in E. destruct (indirectWorkerSetID_ w) as [id|] eqn:Ei; [|done].
  injection E as <-. destruct (Ho sh w id Ew Ei) as [_ ?]. split; cbn; lia.
Qed.

Section Labels.
Context (sched : BistroInstanceID) (c : Z) (pool : gmap string RemoteWorker).
Context (Hc : c < 2 ^ 62) (Hours : labels_ours sched c pool).

(** The label of a worker that joins or leaves. *)
Lemma vss_join A vss sh w :
  vss_ok pool A vss -> sh ∉ A -> pool !! sh = Some w ->
  exists vss', match indirectWorkerSetID_ w with
               | Some id => addToVersionShardSet vss id sh
               | None => Ret vss
               end = Ret vss' /\ vss_ok pool ({[sh]} ∪ A) vss'.
Proof using Hc Hours.
  intros Hv Hsh Hw. pose proof (vss_small _ _ _ _ _ Hc Hours Hv) as Hsmall. pose proof Hv as [Hp Hs].
  assert (He : omap (label pool) (elements ({[sh]} ∪ A)) ≡ₚ
    (match indirectWorkerSetID_ w with Some id => [(ws_version id, sh)] | None => [] end) ++
    omap (label pool) (elements A)).
  { rewrite (elements_union_singleton A sh) by done. cbn. unfold label at 1. rewrite Hw. cbn.
    by destruct (indirectWorkerSetID_ w). }
  destruct (indirectWorkerSetID_ w) as [id|] eqn:Ei.
  - unfold addToVersionShardSet. destruct (Hours sh w id Hw Ei) as [_ Hid].
    destruct (vss_emplace_ok (ws_version id, sh) vss) as (l & -> & Hl & Hsl); [split; cbn; lia|done| |].
    { by intros [? _]%(vss_elem _ _ _ _ _ Hv). }
    exists l. split; [done|]. split; [|by apply Hsl]. rewrite Hl, He, Hp. done.
  - exists vss. split; [done|]. split; [|done]. by rewrite He.
Qed.

Lemma vss_leave A vss sh w :
  vss_ok pool A vss -> sh ∈ A -> pool !! sh = Some w ->
  exists vss', match indirectWorkerSetID_ w with
               | Some id => removeFromVersionShardSet vss id sh
               | None => Ret vss
               end = Ret vss' /\ vss_ok pool (A ∖ {[sh]}) vss'.
Proof using Hc Hours.
  intros Hv Hsh Hw. pose proof (vss_small _ _ _ _ _ Hc Hours Hv) as Hsmall. pose proof Hv as [Hp Hs].
  assert (He : omap (label pool) (elements A) ≡ₚ
    (match indirectWorkerSetID_ w with Some id => [(ws_version id, sh)] | None => [] end) ++
    omap (label pool) (elements (A ∖ {[sh]}))).
  { rewrite (union_difference_singleton_L sh A) at 1 by done.
    rewrite (elements_union_singleton (A ∖ {[sh]}) sh) by set_solver. cbn. unfold label at 1. rewrite Hw. cbn.
    by destruct (indirectWorkerSetID_ w). }
  destruct (indirectWorkerSetID_ w) as [id|] eqn:Ei.
  - unfold removeFromVersionShardSet. destruct (Hours sh w id Hw Ei) as [_ Hid].
    destruct (vss_erase_ok (ws_version id, sh) vss) as (l & -> & Hl & Hsl); [split; cbn; lia|done| |].
    { apply (vss_elem _ _ _ _ _ Hv). split; [done|]. unfold label. rewrite Hw. cbn. by rewrite Ei. }
    exists l. split; [done|]. split; [|by apply Hsl].
    apply (Permutation_cons_inv (a := (ws_version id, sh))). by rewrite <- Hl, Hp, He.
  - exists vss. split; [done|]. split; [|done]. by rewrite Hp, He.
Qed.

(** A whole step of the history. *)
Lemma step_labels A A' vss step :
  vss_ok pool A vss -> mergeHistoryStep step A = Ret A' ->
  (forall sh, removed step = Some sh \/ sh ∈ added step -> is_Some (pool !! sh)) ->
  exists vss', propagate_step sched pool vss step = Ret vss' /\ vss_ok pool A' vss'.
Proof using Hc Hours.
  intros Hv Hm Hin. unfold mergeHistoryStep, propagate_step, mutableWorkerOrAbort in *. cbn zeta.
  apply bind_Ret_iff in Hm as (A1 & Hr & Hm).
  assert (H1 : exists vss1, match removed step with
      | Some shard => let* w := CHECK_Some (pool !! shard) "Unknown RemoteWorker" in
          match indirectWorkerSetID_ w with
          | Some id => CHECK (bool_decide (ws_schedulerID id = sched)) "schedulerID" ;;;
              removeFromVersionShardSet vss id shard
          | None => Ret vss end
      | None => Ret vss end = Ret vss1 /\ vss_ok pool A1 vss1).
  { destruct (removed step) as [r|]; [|injection Hr as <-; eauto].
    apply bind_Ret_iff in Hr as (? & Hr%CHECK_Ret & [= <-]). apply bool_decide_eq_true in Hr.
    destruct (Hin r) as [w Hw]; [by left|]. rewrite Hw. cbn [CHECK_Some mbind outcome_bind].
    destruct (vss_leave A vss r w Hv Hr Hw) as (vss1 & E & Hv1). exists vss1. split; [|done].
    destruct (indirectWorkerSetID_ w) as [id|] eqn:Ei; [|done].
    destruct (Hours r w id Hw Ei) as [Hs _]. by rewrite bool_decide_true. }
  destruct H1 as (vss1 & -> & Hv1). cbn [mbind outcome_bind]. clear Hv Hr.
  assert (Hadd : forall sh, sh ∈ elements (added step) -> is_Some (pool !! sh))
    by (intros sh Hsh; apply Hin; right; by apply elem_of_elements).
  clear Hin. revert A1 vss1 Hv1 Hm Hadd. generalize (elements (added step)). intros l.
  induction l as [|sh l IH]; intros A1 vss1 Hv1 Hm Hadd; cbn [foldM] in *; [injection Hm as <-; eauto|].
  apply bind_Ret_iff in Hm as (A2 & Hm1 & Hm). apply bind_Ret_iff in Hm1 as (? & Hn%CHECK_Ret & [= <-]).
  apply negb_true_iff, bool_decide_eq_false in Hn.
  destruct (Hadd sh) as [w Hw]; [by left|]. rewrite Hw. cbn [CHECK_Some mbind outcome_bind].
  destruct (vss_join A1 vss1 sh w Hv1 Hn Hw) as (vss2 & E & Hv2).
  assert (E' : match indirectWorkerSetID_ w with
    | Some id => CHECK (bool_decide (ws_schedulerID id = sched)) "schedulerID" ;;; addToVersionShardSet vss1 id sh
    | None => Ret vss1 end = Ret vss2).
  { destruct (indirectWorkerSetID_ w) as [id|] eqn:Ei; [|done].
    destruct (Hours sh w id Hw Ei) as [Hs _]. by rewrite bool_decide_true. }
  rewrite E'. cbn [mbind outcome_bind]. apply (IH ({[sh]} ∪ A1)); [done|done|].
  intros sh' Hsh'. apply Hadd. by right.
Qed.
End Labels.

(** ** Progress of the inner loop *)

(** The entries of version [hv] that the inner loop has yet to visit from [x] on. *)
Definition unvisited (hv : Z) (x : Z * string) (l : list (Z * string)) : nat :=
  length (List.filter (fun y => (y.1 =? hv) && negb (lexb y x)) l).

Lemma filter_le {A} (f g : A -> bool) l :
  (forall x, x ∈ l -> f x = true -> g x = true) -> (length (List.filter f l) <= length (List.filter g l))%nat.
Proof.
  induction l as [|x l IH]; intros Hfg; [done|]. cbn.
  assert (IH' := IH (fun y Hy => Hfg y (proj2 (elem_of_cons _ _ _) (or_intror Hy)))).
  destruct (f x) eqn:Ef; [rewrite (Hfg x) by (by left || done); cbn; lia|].
  destruct (g x); cbn; lia.
Qed.

Lemma unvisited_perm hv x l l' : l ≡ₚ l' -> unvisited hv x l = unvisited hv x l'.
Proof.
  unfold unvisited. induction 1 as [|a l l' _ IH|a b l|l l2 l' _ IH1 _ IH2]; cbn; [done| | |congruence].
  - destruct (_ && _); cbn; by rewrite IH.
  - by destruct ((b.1 =? hv) && _), ((a.1 =? hv) && _).
Qed.

(** Visiting [x] leaves fewer entries from the next one on, wherever it moves. *)
Lemma unvisited_next hv x y l l1 v' :
  x.1 = hv -> l ≡ₚ x :: l1 -> lexb x y = true -> hv <= v' ->
  (unvisited hv y ((v', x.2) :: l1) < unvisited hv x l)%nat.
Proof.
  intros Hx Hl Hy Hv. rewrite (unvisited_perm _ _ _ _ Hl). unfold unvisited. cbn [List.filter].
  rewrite Hx, Z.eqb_refl, lexb_irrefl. cbn [negb andb fst length].
  assert (Hsub : (length (List.filter (fun z : Z * string => (z.1 =? hv)%Z && negb (lexb z y)) l1) <=
    length (List.filter (fun z : Z * string => (z.1 =? hv)%Z && negb (lexb z x)) l1))%nat).
  { apply filter_le. intros z _. rewrite !andb_true_iff, !negb_true_iff. intros [? Hz]. split; [done|].
    destruct (lexb z x) eqn:Ez; [|done]. by rewrite (lexb_trans _ _ _ Ez Hy) in Hz. }
  destruct (Z.eqb_spec v' hv) as [->|Hne]; cbn [andb]; [|lia].
  replace (hv, x.2) with x by (destruct x; cbn in *; congruence). rewrite Hy. cbn. lia.
Qed.

(** An entry that an iterator at [it] still gets to. *)
Definition ahead (it : option (Z * string)) (x : Z * string) : Prop :=
  match it with None => False | Some y => x = y \/ vss_before y x end.

Lemma vss_after_ok x l :
  small x -> Forall small l -> StronglySorted vss_before l ->
  exists r, vss_after x l = Ret r /\ (forall y, r = Some y -> y ∈ l /\ vss_before x y) /\
    (forall z, z ∈ l -> vss_before x z -> ahead r z).
Proof.
  intros Hx Hl. induction 1 as [|y l Hs IH Hall]; cbn; [exists None; set_solver|].
  apply Forall_cons in Hl as [Hy Hl]. rewrite small_lex by done. cbn [mbind outcome_bind]. destruct (lexb x y) eqn:E.
  - exists (Some y). split_and!; [done|intros ? [= <-]; by split; [left|]|].
    intros z [->|Hz]%elem_of_cons _; [by left|right]. rewrite Forall_forall in Hall. by apply Hall.
  - destruct (IH Hl) as (r & -> & Hr & Ha). exists r. split_and!; [done| |].
    + intros z Hz. destruct (Hr z Hz). by split; [right|].
    + intros z [->|Hz]%elem_of_cons Hxz; [|auto]. unfold vss_before in Hxz. congruence.
Qed.

(** ** Raising one worker's indirect set *)

Lemma raise_ok sched s pool x w id new_id :
  core_inv sched s pool -> pool !! x = Some w -> getState w <> MUST_DIE ->
  indirectWorkerSetID_ w = Some id -> ours sched (cur_version s) new_id ->
  ws_version id <= ws_version new_id ->
  exists s' ind, let w' := set_ids w (workerSetID_ w) (firstAssociatedWorkerSetID_ w) (Some ind) in
    updateIndirectWorkerSetVersion s w new_id = Ret (s', w') /\
    core_inv sched s' (<[x := w']> pool) /\
    ind = (if ws_version id <? ws_version new_id then new_id else id) /\
    history_ s' = history_ s /\ cur_version s' = cur_version s /\
    exists l, indirectVersions_ s ≡ₚ (ws_version id, x) :: l /\
      indirectVersions_ s' ≡ₚ (ws_version new_id, x) :: l.
Proof.
  intros [Hi Hp] Hw Hd Ei Hnew Hle. set (L0 := delete x (live_map pool)).
  assert (HL0 : L0 !! x = None) by apply lookup_delete_eq.
  assert (HL : live_map pool = <[x := w]> L0).
  { unfold L0. rewrite insert_delete_id; [done|]. by apply live_map_lookup. }
  pose proof Hi as Hi'. rewrite HL in Hi'.
  destruct (si_workers _ _ _ Hi x w) as (Hsh & Hsc & _ & Hids); [by apply live_map_lookup|].
  pose proof (si_current _ _ _ Hi) as [_ Hcur]. fold (cur_version s) in Hcur, Hids.
  pose proof (si_indirect _ _ _ Hi') as Hind. rewrite (omap_insert x L0 HL0), Ei in Hind. cbn in Hind.
  pose proof (entries_small sched s (live_map pool) Hi) as Hsmall. pose proof (si_sorted _ _ _ Hi) as Hsort.
  rewrite Ei in Hids. destruct (firstAssociatedWorkerSetID_ w) as [f|] eqn:Ef, (workerSetID_ w) as [cu|] eqn:Ec;
    try done. destruct Hids as (Hf & Hcu & [Hid1 Hid2] & Hord). destruct Hnew as [Hn1 Hn2].
  assert (Hcore : forall l ind, ours sched (cur_version s) ind -> ws_version id <= ws_version ind ->
    l ≡ₚ (ws_version ind, x) :: omap entry (map_to_list L0) -> StronglySorted vss_before l ->
    core_inv sched (set_indirect s l) (<[x := set_ids w (Some cu) (Some f) (Some ind)]> pool)).
  { intros l ind Hind' Hge Hl Hs. split.
    - rewrite live_map_insert, decide_False by done. apply (set_ids_inv sched x L0 HL0); try done. lia.
    - apply map_Forall_insert_2; [|exact Hp]. destruct (Hp x w Hw) as (? & ? & ? & _). split_and!; [done|done|done|].
      intros Hdead. by destruct Hd. }
  unfold updateIndirectWorkerSetVersion. rewrite Ei, (si_sched _ _ _ Hi), bool_decide_true by done.
  cbn [CHECK mbind outcome_bind]. rewrite small_earlier by lia. cbn [mbind outcome_bind]. rewrite Hsh, Ec, Ef.
  destruct (Z.ltb_spec (ws_version id) (ws_version new_id)) as [Hlt|Hge]; cbn [negb].
  - unfold removeFromVersionShardSet, addToVersionShardSet.
    destruct (vss_erase_ok (ws_version id, x) (indirectVersions_ s)) as (l1 & -> & Hp1 & Hs1);
      [split; cbn; lia|done|rewrite Hind; by left|]. cbn [CHECK_Some mbind outcome_bind].
    assert (Hl1 : l1 ≡ₚ omap entry (map_to_list L0)).
    { apply (Permutation_cons_inv (a := (ws_version id, x))). by rewrite <- Hp1, Hind. }
    destruct (vss_emplace_ok (ws_version new_id, x) l1) as (l2 & -> & Hp2 & Hs2); [split; cbn; lia| | |].
    { rewrite Hp1 in Hsmall. by inversion_clear Hsmall. }
    { rewrite Hl1. by apply entry_fresh. }
    cbn [CHECK_Some mbind outcome_bind]. eexists _, new_id. split_and!; [reflexivity| |done|done|done|].
    + apply Hcore; [by split|lia|by rewrite Hp2, Hl1|auto].
    + exists l1. split; [done|]. exact Hp2.
  - assert (Heq : ws_version new_id = ws_version id) by lia.
    exists s, id. split_and!; [|rewrite <- (insert_id pool x w Hw) at 1|done|done|done|].
    + destruct w; cbn in *; by subst.
    + replace s with (set_indirect s (indirectVersions_ s)) at 1 by (by destruct s).
      rewrite insert_insert_eq. apply Hcore; [by split|lia|exact Hind|done].
    + eexists. split; [exact Hind|]. by rewrite Heq.
Qed.

(** ** The inner loop *)

Lemma last_top vss (x : Z * string) :
  StronglySorted vss_before vss -> x ∈ vss -> exists top, list.last vss = Some top /\ top ∈ vss /\ x.1 <= top.1.
Proof.
  intros Hs Hx. destruct (list.last vss) as [t|] eqn:E; [|by apply last_None in E as ->; apply not_elem_of_nil in Hx].
  apply last_Some in E as [l ->]. exists t. split_and!; [done|set_solver|].
  apply elem_of_app in Hx as [Hx| ->%list_elem_of_singleton]; [|lia].
  apply lexb_ver. eapply StronglySorted_app_1_elem_of; [exact Hs|done|set_solver].
Qed.

(** The sets that a worker depends on: its own, and those of the workers in a
    set that it depends on. *)
Inductive derives (h : list (Z * HistoryStep)) (pool : gmap string RemoteWorker) : string -> WorkerSetID -> Prop :=
  | derives_own shard w id :
      pool !! shard = Some w -> indirectWorkerSetID_ w = Some id -> derives h pool shard id
  | derives_via shard id M shard' id' :
      derives h pool shard id -> members_at ∅ h (ws_version id) = Ret M -> shard' ∈ M ->
      derives h pool shard' id' -> derives h pool shard id'.

(** [w] is [w0] with a later indirect set that it depends on. *)
Definition raised (h : list (Z * HistoryStep)) (pool0 : gmap string RemoteWorker) (shard : string)
    (w0 w : RemoteWorker) : Prop :=
  w = set_ids w0 (workerSetID_ w0) (firstAssociatedWorkerSetID_ w0) (indirectWorkerSetID_ w) /\
  match indirectWorkerSetID_ w0, indirectWorkerSetID_ w with
  | None, None => True
  | Some i0, Some i => ws_version i0 <= ws_version i /\ derives h pool0 shard i /\ (getState w0 = MUST_DIE -> i = i0)
  | _, _ => False
  end.

Section Inner.
Context (sched : BistroInstanceID) (h : list (Z * HistoryStep)) (pool0 : gmap string RemoteWorker) (c : Z).

(** What the loops keep. *)
Record loop_inv (A : gset string) (s : WorkerSets) (pool : gmap string RemoteWorker)
    (vss : list (Z * string)) : Prop := {
  li_core : core_inv sched s pool;
  li_ours : labels_ours sched c pool;
  li_vss : vss_ok pool A vss;
  li_cur : cur_version s = c;
  li_history : history_ s = h;
  li_dom : dom pool = dom pool0;
  li_raised : forall shard w0 w, pool0 !! shard = Some w0 -> pool !! shard = Some w -> raised h pool0 shard w0 w
}.

(** The iterator is at an entry from version [v] on. *)
Definition it_ok (v : Z) (s : WorkerSets) (it : option (Z * string)) : Prop :=
  forall x, it = Some x -> x ∈ indirectVersions_ s /\ v <= x.1.

(** A worker that is not lost is still to be visited, or has by now a set at
    least as late as those of the workers in the set it started with. *)
Definition caught_up (pool : gmap string RemoteWorker) (it : option (Z * string)) : Prop :=
  forall shard w0 i0 w i, live_map pool0 !! shard = Some w0 -> indirectWorkerSetID_ w0 = Some i0 ->
    pool !! shard = Some w -> indirectWorkerSetID_ w = Some i ->
    (i = i0 /\ ahead it (ws_version i0, shard)) \/
    (forall M shard' w' i', members_at ∅ h (ws_version i0) = Ret M -> shard' ∈ M ->
       pool0 !! shard' = Some w' -> indirectWorkerSetID_ w' = Some i' -> ws_version i' <= ws_version i).

Lemma indirect_entry s pool x :
  core_inv sched s pool -> x ∈ indirectVersions_ s ->
  exists w id, pool !! x.2 = Some w /\ getState w <> MUST_DIE /\ indirectWorkerSetID_ w = Some id /\
    x = (ws_version id, x.2) /\ shard_of w = x.2 /\
    exists cu, workerSetID_ w = Some cu /\ ws_version cu <= ws_version id.
Proof.
  intros [Hi _] Hx. rewrite (si_indirect _ _ _ Hi), list_elem_of_omap in Hx.
  destruct Hx as ([sh w] & Hin%elem_of_map_to_list & Hx). pose proof (si_workers _ _ _ Hi _ _ Hin) as (Hsh & _ & _ & Hids).
  apply live_map_lookup in Hin as [Hw Hd]. unfold entry in Hx. cbn in Hx.
  destruct (indirectWorkerSetID_ w) as [id|] eqn:Ei; [|done]. injection Hx as <-. cbn.
  exists w, id. split_and!; [done..|].
  destruct (firstAssociatedWorkerSetID_ w), (workerSetID_ w); try done. destruct Hids as (_ & _ & _ & Hle).
  eexists. split; [done|]. lia.
Qed.

Lemma raised_same shard w0 w : raised h pool0 shard w0 w ->
  workerSetID_ w = workerSetID_ w0 /\ getState w = getState w0.
Proof. intros [-> _]. done. Qed.

Context (Hmem : forall shard w id v M, live_map pool0 !! shard = Some w -> workerSetID_ w = Some id ->
  ws_version id <= v -> members_at ∅ h v = Ret M -> shard ∈ M).

Lemma raised_lookup A s pool vss shard w :
  loop_inv A s pool vss -> pool !! shard = Some w ->
  exists w0, pool0 !! shard = Some w0 /\ raised h pool0 shard w0 w.
Proof.
  intros Hinv Hw. assert (Hd : shard ∈ dom pool0) by (rewrite <- (li_dom _ _ _ _ Hinv); by eapply elem_of_dom_2).
  apply elem_of_dom in Hd as [w0 Hw0]. exists w0. split; [done|]. by eapply (li_raised _ _ _ _ Hinv).
Qed.

(** The worker that the iterator is at is in the set of the version. *)
Lemma visited_member hv A s pool vss x :
  loop_inv A s pool vss -> members_at ∅ h hv = Ret A -> x ∈ indirectVersions_ s -> x.1 = hv ->
  x.2 ∈ A /\ x ∈ vss.
Proof using Hmem.
  intros Hinv HA Hx Hv. destruct (indirect_entry s pool x (li_core _ _ _ _ Hinv) Hx) as
    (w & id & Hw & Hd & Ei & Ex & _ & cu & Ec & Hle).
  destruct (raised_lookup _ _ _ _ _ _ Hinv Hw) as (w0 & Hw0 & Hr). destruct (raised_same _ _ _ Hr) as [E1 E2].
  assert (Hin : x.2 ∈ A).
  { eapply (Hmem x.2 w0 cu hv A); [by apply live_map_lookup; rewrite <- E2|congruence| |done].
    rewrite Ex in Hv. cbn in Hv. lia. }
  split; [done|]. destruct x as [v sh]. apply (vss_elem _ _ _ _ _ (li_vss _ _ _ _ Hinv)). split; [done|].
  unfold label. cbn in *. rewrite Hw. cbn. rewrite Ei. cbn. by injection Ex as ->.
Qed.

(** The labels after [x] has been raised. *)
Lemma vss_raise pool A vss l x w' i :
  vss_ok pool A vss -> vss ≡ₚ x :: l -> x.2 ∈ A -> indirectWorkerSetID_ w' = Some i ->
  label pool x.2 = Some x ->
  (ws_version i, x.2) :: l ≡ₚ omap (label (<[x.2 := w']> pool)) (elements A).
Proof.
  intros [Hv _] Hl Hin Ei Hx. rewrite Hv in Hl. symmetry in Hl.
  rewrite (union_difference_singleton_L x.2 A) in Hl |- * by done.
  rewrite (elements_union_singleton (A ∖ {[x.2]}) x.2) in Hl |- * by set_solver. cbn in Hl |- *. rewrite Hx in Hl.
  unfold label at 1. rewrite lookup_insert_eq. cbn. rewrite Ei. cbn.
  apply Permutation_cons_inv in Hl. rewrite Hl. constructor.
  assert (Hne : forall y, y ∈ elements (A ∖ {[x.2]}) -> y <> x.2) by set_solver. revert Hne.
  generalize (elements (A ∖ {[x.2]})). induction l0 as [|y l0 IH]; intros Hne; cbn; [done|].
  assert (Ey : label (<[x.2:=w']> pool) y = label pool y).
  { unfold label. rewrite lookup_insert_ne; [done|]. intros <-. by apply (Hne x.2); [left|]. }
  rewrite Ey. destruct (label pool y); [constructor|]; apply IH; intros z Hz; apply Hne; by right.
Qed.

(** Raising [x] to the set of another member of version [hv] keeps the
    invariant. *)
Lemma raise_inv hv A s pool vss x top l w new_id s' w' vss' :
  loop_inv A s pool vss -> members_at ∅ h hv = Ret A ->
  pool !! x.2 = Some w -> getState w <> MUST_DIE -> label pool x.2 = Some x -> x.1 = hv -> x.2 ∈ A ->
  top ∈ A -> (exists w1, pool !! top = Some w1 /\ indirectWorkerSetID_ w1 = Some new_id) ->
  x.1 <= ws_version new_id ->
  core_inv sched s' (<[x.2 := w']> pool) -> cur_version s' = cur_version s -> history_ s' = history_ s ->
  w' = set_ids w (workerSetID_ w) (firstAssociatedWorkerSetID_ w) (indirectWorkerSetID_ w') ->
  ws_version <$> indirectWorkerSetID_ w' = Some (ws_version new_id) ->
  indirectWorkerSetID_ w' = Some new_id \/ indirectWorkerSetID_ w' = indirectWorkerSetID_ w ->
  vss ≡ₚ x :: l -> vss' ≡ₚ (ws_version new_id, x.2) :: l -> StronglySorted vss_before vss' ->
  loop_inv A s' (<[x.2 := w']> pool) vss'.
Proof.
  intros Hinv HA Hw Hd Hx Hv Hin Htop (w1 & Hw1 & E1) Hle Hcore Hcur Hhist Ew' Evw' Eor Hl Hl' Hs.
  destruct (indirectWorkerSetID_ w') as [i|] eqn:Ei; [|done]. injection Evw' as Evi.
  split; [done| | |by rewrite Hcur, (li_cur _ _ _ _ Hinv)|by rewrite Hhist, (li_history _ _ _ _ Hinv)| |].
  - intros sh z id Hz Eid. destruct (decide (sh = x.2)) as [->|Hne].
    + rewrite lookup_insert_eq in Hz. injection Hz as <-. rewrite Ei in Eid. injection Eid as <-.
      destruct Eor as [[= ->]|Eor]; [exact (li_ours _ _ _ _ Hinv _ _ _ Hw1 E1)|].
      exact (li_ours _ _ _ _ Hinv _ _ _ Hw (eq_sym Eor)).
    + rewrite lookup_insert_ne in Hz by done. by eapply (li_ours _ _ _ _ Hinv).
  - split; [|done]. rewrite Hl', <- Evi. by eapply vss_raise; [apply Hinv|..].
  - rewrite dom_insert_L, (li_dom _ _ _ _ Hinv). apply elem_of_dom_2 in Hw. rewrite (li_dom _ _ _ _ Hinv) in Hw.
    set_solver.
  - intros sh w0 z Hw0 Hz. destruct (decide (sh = x.2)) as [->|Hne];
      [|rewrite lookup_insert_ne in Hz by done; by eapply (li_raised _ _ _ _ Hinv)].
    rewrite lookup_insert_eq in Hz. injection Hz as <-.
    pose proof (li_raised _ _ _ _ Hinv _ _ _ Hw0 Hw) as [Er Hr].
    destruct (raised_lookup _ _ _ _ _ _ Hinv Hw1) as (w10 & Hw10 & [_ Hr1]).
    unfold label in Hx. rewrite Hw in Hx. cbn in Hx. destruct (indirectWorkerSetID_ w) as [id|] eqn:Eid; [|done].
    cbn in Hx. injection Hx as Hx. assert (Hid : ws_version id = x.1) by (by rewrite <- Hx). clear Hx.
    split; [rewrite Ei, Ew', Er; done|]. rewrite Ei.
    destruct (indirectWorkerSetID_ w0) as [i0|] eqn:E0; [|done]. destruct Hr as (Hr1' & Hr2 & _).
    split_and!; [lia| |].
    + destruct Eor as [[= ->]|[= ->]]; [|done]. rewrite E1 in Hr1.
      destruct (indirectWorkerSetID_ w10); [|done]. destruct Hr1 as (_ & Hr1 & _).
      eapply derives_via; [exact Hr2|by rewrite Hid, Hv|exact Htop|done].
    + intros Hdead. destruct Hd. by rewrite Er.
Qed.

(** Raising [x], the top label of the version, and stepping the iterator. *)
Lemma raise_caught_up hv A s pool vss x w w' new_id next :
  loop_inv A s pool vss -> members_at ∅ h hv = Ret A -> caught_up pool (Some x) ->
  pool !! x.2 = Some w -> label pool x.2 = Some x -> x.1 = hv ->
  ws_version <$> indirectWorkerSetID_ w' = Some (ws_version new_id) -> x.1 <= ws_version new_id ->
  (forall y, y ∈ vss -> y.1 <= ws_version new_id) ->
  (forall z, z ∈ indirectVersions_ s -> vss_before x z -> ahead next z) ->
  caught_up (<[x.2 := w']> pool) next.
Proof.
  intros Hinv HA Hup Hw Hx Hv Evw Hle Htop Hnext sh w0 i0 z i Hw0 E0 Hz Ei.
  unfold label in Hx. rewrite Hw in Hx. cbn in Hx. destruct (indirectWorkerSetID_ w) as [id|] eqn:Eid; [|done].
  cbn in Hx. injection Hx as Hx. assert (Hid : ws_version id = x.1) by (by rewrite <- Hx). clear Hx.
  destruct (decide (sh = x.2)) as [->|Hne].
  - rewrite lookup_insert_eq in Hz. injection Hz as <-. rewrite Ei in Evw. injection Evw as Evi. right.
    intros M sh' w1 i1 HM Hsh' Hw1 E1. rewrite Evi.
    destruct (Hup _ _ _ _ _ Hw0 E0 Hw Eid) as [[-> _]|Hdone]; [|specialize (Hdone _ _ _ _ HM Hsh' Hw1 E1); lia].
    rewrite Hid, Hv, HA in HM. injection HM as ->.
    assert (Hd : sh' ∈ dom pool) by (rewrite (li_dom _ _ _ _ Hinv); by eapply elem_of_dom_2).
    apply elem_of_dom in Hd as [w2 Hw2]. pose proof (li_raised _ _ _ _ Hinv _ _ _ Hw1 Hw2) as [_ Hr].
    rewrite E1 in Hr. destruct (indirectWorkerSetID_ w2) as [i2|] eqn:E2; [|done]. destruct Hr as (Hr & _).
    assert (ws_version i2 <= ws_version new_id); [|lia].
    apply (Htop (ws_version i2, sh')), (vss_elem _ _ _ _ _ (li_vss _ _ _ _ Hinv)). split; [done|].
    unfold label. rewrite Hw2. cbn. by rewrite E2.
  - rewrite lookup_insert_ne in Hz by done. destruct (Hup _ _ _ _ _ Hw0 E0 Hz Ei) as [[-> Ha]|Hdone]; [left|by right].
    split; [done|]. destruct Ha as [Ha|Ha]; [destruct x; by injection Ha|]. apply Hnext; [|done].
    pose proof (li_core _ _ _ _ Hinv) as [Hi _]. rewrite (si_indirect _ _ _ Hi), list_elem_of_omap.
    apply live_map_lookup in Hw0 as [Hw0 Hd]. destruct (raised_same _ _ _ (li_raised _ _ _ _ Hinv _ _ _ Hw0 Hz)) as [_ Es].
    exists (sh, z). split; [apply elem_of_map_to_list, live_map_lookup; by rewrite Es|]. unfold entry. cbn. by rewrite Ei.
Qed.

(** The worker with the latest label. *)
Lemma top_spec A s pool vss x :
  loop_inv A s pool vss -> x ∈ vss ->
  exists st tw new_id, list.last vss = Some (ws_version new_id, st) /\ st ∈ A /\ pool !! st = Some tw /\
    indirectWorkerSetID_ tw = Some new_id /\ ours sched (cur_version s) new_id /\
    forall y, y ∈ vss -> y.1 <= ws_version new_id.
Proof.
  intros Hinv Hx. pose proof (li_vss _ _ _ _ Hinv) as Hvss.
  destruct (last_top vss x (proj2 Hvss) Hx) as ([vt st] & Et & Htop & _).
  pose proof Htop as [HtA Htl]%(vss_elem _ _ _ _ _ Hvss).
  unfold label in Htl. destruct (pool !! st) as [tw|] eqn:Etw; [|done]. cbn in Htl.
  destruct (indirectWorkerSetID_ tw) as [new_id|] eqn:En; [|done]. cbn in Htl. injection Htl as <-.
  exists st, tw, new_id. split_and!; [done..|rewrite (li_cur _ _ _ _ Hinv); by eapply (li_ours _ _ _ _ Hinv)|].
  intros y Hy. destruct (last_top vss y (proj2 Hvss) Hy) as (t & Et' & _ & ?). rewrite Et in Et'. by injection Et' as <-.
Qed.

Lemma before_NoDup l : StronglySorted vss_before l -> NoDup l.
Proof.
  induction 1 as [|x l _ IH Hall]; constructor; [|done]. intros Hx. rewrite Forall_forall in Hall.
  specialize (Hall x Hx). unfold vss_before in Hall. by rewrite lexb_irrefl in Hall.
Qed.

(** Moving [x] in [vss]. *)
Lemma vss_move pool A vss x v :
  vss_ok pool A vss -> Forall small vss -> x ∈ vss -> small (v, x.2) ->
  exists l l', vss_erase x vss = Ret (Some l) /\ vss_emplace (v, x.2) l = Ret (Some l') /\
    vss ≡ₚ x :: l /\ l' ≡ₚ (v, x.2) :: l /\ StronglySorted vss_before l'.
Proof.
  intros Hvss Hsmall Hx Hv. pose proof Hsmall as Hs. rewrite Forall_forall in Hs.
  destruct (vss_erase_ok x vss (Hs x Hx) Hsmall Hx) as (l & El & Hl & Hsl).
  pose proof (before_NoDup _ (proj2 Hvss)) as Hnd. rewrite Hl in Hnd, Hsmall. apply NoDup_cons in Hnd as [Hnin _].
  destruct (vss_emplace_ok (v, x.2) l) as (l' & El' & Hl' & Hsl').
  { done. }
  { by inversion_clear Hsmall. }
  { intros Hbad. destruct x as [vx sx]. apply (vss_elem _ _ _ _ _ Hvss) in Hx as [_ Ex]. cbn in *.
    assert (Hb : (v, sx) ∈ vss) by (rewrite Hl; by right). apply (vss_elem _ _ _ _ _ Hvss) in Hb as [_ Eb].
    rewrite Ex in Eb. by injection Eb as ->. }
  exists l, l'. split_and!; [done..|]. apply Hsl', Hsl, Hvss.
Qed.

(** What an iteration computes when its checks hold. *)
Lemma inner_compute fuel hv s pool vss x w id st tw new_id next l l' s' w' :
  rws_schedulerID s = sched -> 0 <= hv < 2 ^ 62 -> x.1 = hv -> list.last vss = Some (ws_version new_id, st) ->
  vss_after x (indirectVersions_ s) = Ret next -> pool !! st = Some tw -> indirectWorkerSetID_ tw = Some new_id ->
  ws_schedulerID new_id = sched -> pool !! x.2 = Some w -> indirectWorkerSetID_ w = Some id ->
  ws_version id = x.1 -> shard_of w = x.2 -> vss_erase x vss = Ret (Some l) ->
  vss_emplace (ws_version new_id, x.2) l = Ret (Some l') ->
  updateIndirectWorkerSetVersion s w new_id = Ret (s', w') ->
  ws_version <$> indirectWorkerSetID_ w' = Some (ws_version new_id) ->
  propagate_inner (S fuel) hv s pool vss (Some x) = propagate_inner fuel hv s' (<[x.2 := w']> pool) l' next.
Proof.
  intros Hs Hhv Hv Et En Etw Enew Hnew Hw Ei Hid Hsh El El' Eup Evw.
  cbn [propagate_inner]. rewrite Hv, small_earlier, Z.ltb_irrefl by done. cbn [mbind outcome_bind].
  rewrite Et, Z.eqb_refl. cbn [CHECK mbind outcome_bind fst snd].
  rewrite En. unfold mutableWorkerOrAbort, addToVersionShardSet. cbn [mbind outcome_bind].
  rewrite Etw. cbn [CHECK_Some mbind outcome_bind]. rewrite Enew. cbn [CHECK_Some mbind outcome_bind].
  rewrite Z.eqb_refl, bool_decide_true by congruence. cbn [CHECK mbind outcome_bind].
  rewrite Hw. cbn [CHECK_Some mbind outcome_bind]. rewrite Ei, Hid, Hv, Z.eqb_refl, Hsh, String.eqb_refl.
  cbn [CHECK mbind outcome_bind]. rewrite El. cbn [mbind outcome_bind]. rewrite El'. cbn [CHECK_Some mbind outcome_bind].
  rewrite Eup. cbn [mbind outcome_bind]. by rewrite bool_decide_true.
Qed.

(** One iteration. *)
Lemma inner_step fuel hv A s pool vss x :
  loop_inv A s pool vss -> members_at ∅ h hv = Ret A -> caught_up pool (Some x) ->
  x ∈ indirectVersions_ s -> x.1 = hv ->
  exists s' pool' vss' next,
    propagate_inner (S fuel) hv s pool vss (Some x) = propagate_inner fuel hv s' pool' vss' next /\
    loop_inv A s' pool' vss' /\ caught_up pool' next /\ it_ok hv s' next /\
    (forall y, next = Some y -> (unvisited hv y (indirectVersions_ s') < unvisited hv x (indirectVersions_ s))%nat).
Proof using Hmem.
  intros Hinv HA Hup Hx Hv. pose proof (li_core _ _ _ _ Hinv) as Hcore. pose proof Hcore as [Hi _].
  destruct (visited_member hv A s pool vss x Hinv HA Hx Hv) as [Hin Hxv].
  destruct (indirect_entry s pool x Hcore Hx) as (w & id & Hw & Hd & Ei & Ex & Hsh & _).
  assert (Hidv : ws_version id = x.1) by (by rewrite Ex).
  pose proof (si_current _ _ _ Hi) as [_ Hcur]. fold (cur_version s) in Hcur.
  pose proof (entries_small _ _ _ Hi) as Hsmall. pose proof (li_vss _ _ _ _ Hinv) as Hvss.
  assert (Hc : c < 2 ^ 62) by (rewrite <- (li_cur _ _ _ _ Hinv); lia).
  pose proof (vss_small _ _ _ _ _ Hc (li_ours _ _ _ _ Hinv) Hvss) as Hvsmall.
  assert (Hxs : small x) by (rewrite Forall_forall in Hsmall; by apply Hsmall).
  assert (Hlab : label pool x.2 = Some x) by (destruct x; by apply (vss_elem _ _ _ _ _ Hvss)).
  destruct (top_spec _ _ _ _ x Hinv Hxv) as (st & tw & new_id & Et & HtA & Etw & En & Hnew & Hmax).
  pose proof (Hmax x Hxv) as Hle.
  destruct (vss_after_ok x (indirectVersions_ s) Hxs Hsmall (si_sorted _ _ _ Hi)) as (next & Enext & Hn1 & Hn2).
  destruct (vss_move pool A vss x (ws_version new_id) Hvss Hvsmall Hxv) as (l & l' & El & El' & Hl & Hl' & Hs');
    [destruct Hnew; split; cbn; lia|].
  destruct (raise_ok sched s pool x.2 w id new_id Hcore Hw Hd Ei Hnew) as
    (s' & ind & Eup & Hcore' & Eind & Hh & Hcv & l1 & Hl1 & Hl1'); [lia|].
  set (w' := set_ids w (workerSetID_ w) (firstAssociatedWorkerSetID_ w) (Some ind)) in *.
  assert (Evw : ws_version <$> indirectWorkerSetID_ w' = Some (ws_version new_id)).
  { cbn. f_equal. subst ind. destruct (Z.ltb_spec (ws_version id) (ws_version new_id)); [done|lia]. }
  exists s', (<[x.2 := w']> pool), l', next. split_and!.
  - eapply inner_compute; eauto; [apply Hi|unfold small in Hxs; lia|apply Hnew].
  - eapply (raise_inv hv A s pool vss x st l w new_id); eauto.
    cbn. subst ind. destruct (_ <? _); [by left|right; by rewrite Ei].
  - eapply raise_caught_up; eauto.
  - intros y Ey. destruct (Hn1 y Ey) as [Hy Hxy]. split; [|rewrite <- Hv; by apply lexb_ver].
    rewrite Hl1'. right. rewrite Hl1 in Hy. apply elem_of_cons in Hy as [->|Hy]; [|done].
    rewrite Hidv in Hxy. unfold vss_before in Hxy. destruct x. by rewrite lexb_irrefl in Hxy.
  - intros y Ey. destruct (Hn1 y Ey) as [Hy Hxy]. rewrite (unvisited_perm _ _ _ _ Hl1').
    apply (unvisited_next hv x y _ l1); [done|by rewrite Hl1, Hidv, <- surjective_pairing|done|lia].
Qed.

Lemma inner_ok fuel hv A s pool vss it :
  loop_inv A s pool vss -> members_at ∅ h hv = Ret A -> caught_up pool it -> it_ok hv s it -> 0 <= hv <= c ->
  (forall x, it = Some x -> (unvisited hv x (indirectVersions_ s) < fuel)%nat) ->
  exists s' pool' vss' it', propagate_inner fuel hv s pool vss it = Ret (s', pool', vss', it') /\
    loop_inv A s' pool' vss' /\ caught_up pool' it' /\ it_ok (hv + 1) s' it'.
Proof using Hmem.
  intros Hinv HA Hup Hit Hhv. revert s pool vss it Hinv Hup Hit.
  induction fuel as [|fuel IH]; intros s pool vss [x|] Hinv Hup Hit Hf.
  1: specialize (Hf x eq_refl); lia.
  1, 3: eexists s, pool, vss, None; split_and!; done.
  destruct (Hit x eq_refl) as [Hx Hle]. pose proof (li_core _ _ _ _ Hinv) as [Hi _].
  pose proof (entries_small _ _ _ Hi) as Hsmall. rewrite Forall_forall in Hsmall. specialize (Hsmall x Hx).
  pose proof (si_current _ _ _ Hi) as [_ Hcur]. fold (cur_version s) in Hcur. rewrite (li_cur _ _ _ _ Hinv) in Hcur.
  destruct (decide (x.1 = hv)) as [Hv|Hne].
  - destruct (inner_step fuel hv A s pool vss x) as (s' & pool' & vss' & next & -> & Hinv' & Hup' & Hit' & Hn); try done.
    apply IH; [done..|]. intros y Ey. specialize (Hn y Ey). specialize (Hf x eq_refl). lia.
  - exists s, pool, vss, (Some x). split_and!; [|done|done|].
    + cbn [propagate_inner]. rewrite small_earlier by (unfold small in Hsmall; lia).
      rewrite (proj2 (Z.ltb_lt _ _)) by lia. done.
    + intros y [= <-]. split; [done|lia].
Qed.

(** ** The outer loop *)

Context (Hdom : forall v step shard, (v, step) ∈ h -> removed step = Some shard \/ shard ∈ added step -> shard ∈ dom pool0).

(** The body of the outer loop. *)
Let outer_body acc (hp : Z * HistoryStep) :=
  let '(s, pool, vss, it) := acc in
  match it with
  | None => Ret acc
  | Some x =>
      let* bad := WorkerSetIDEarlierThan x.1 hp.1 in
      CHECK (negb bad) "Worker refers to version not in history" ;;;
      let* vss := propagate_step (rws_schedulerID s) pool vss hp.2 in
      propagate_inner (S (length (indirectVersions_ s))) hp.1 s pool vss it
  end.

Lemma outer_done s pool vss l : foldM outer_body (s, pool, vss, None) l = Ret (s, pool, vss, None).
Proof. induction l as [|hp l IH]; [done|]. cbn. exact IH. Qed.

Lemma outer_ok l v A M s pool vss it :
  l ⊆ h -> map fst l = seqZ v (Z.of_nat (length l)) -> 0 <= v -> v + Z.of_nat (length l) = c + 1 ->
  (forall u, v <= u -> members_at ∅ h u = members_at A l u) -> members_at A l c = Ret M ->
  loop_inv A s pool vss -> caught_up pool it -> it_ok v s it ->
  exists s' pool' vss' it' A', foldM outer_body (s, pool, vss, it) l = Ret (s', pool', vss', it') /\
    loop_inv A' s' pool' vss' /\ caught_up pool' it' /\ it_ok (c + 1) s' it'.
Proof using Hmem Hdom.
  revert v A s pool vss it. induction l as [|[v' step] l IH]; intros v A s pool vss it Hsub Hv H0 Hc Hm HM Hinv Hup Hit.
  { exists s, pool, vss, it, A. split_and!; [done..|]. cbn in Hc. replace (c + 1) with v by lia. done. }
  destruct it as [x|]; [|exists s, pool, vss, None, A; split_and!; [apply outer_done|done..]].
  cbn [map length fst] in Hv. rewrite Nat2Z.inj_succ, seqZ_cons in Hv by lia. injection Hv as -> Hv.
  replace (Z.pred (Z.succ (Z.of_nat (length l)))) with (Z.of_nat (length l)) in Hv by lia.
  cbn [length] in Hc. cbn [members_at] in Hm, HM. rewrite (proj2 (Z.leb_le v c)) in HM by lia.
  apply bind_Ret_iff in HM as (A' & HA' & HM).
  assert (Hm' : forall u, v <= u -> members_at ∅ h u = members_at A' l u).
  { intros u Hu. rewrite Hm, (proj2 (Z.leb_le v u)), HA' by lia. done. }
  assert (HA : members_at ∅ h v = Ret A').
  { rewrite Hm' by lia. destruct l as [|[v1 st1] l]; [done|]. cbn [members_at]. cbn [map fst length] in Hv.
    rewrite Nat2Z.inj_succ, seqZ_cons in Hv by lia. injection Hv as -> _.
    by rewrite (proj2 (Z.leb_gt _ _)) by lia. }
  pose proof (li_core _ _ _ _ Hinv) as [Hi _]. pose proof (si_current _ _ _ Hi) as [_ Hcur].
  fold (cur_version s) in Hcur. rewrite (li_cur _ _ _ _ Hinv) in Hcur.
  destruct (Hit x eq_refl) as [Hx Hle].
  pose proof (entries_small _ _ _ Hi) as Hsmall. rewrite Forall_forall in Hsmall. specialize (Hsmall x Hx).
  destruct (step_labels sched c pool ltac:(lia) (li_ours _ _ _ _ Hinv) A A' vss step (li_vss _ _ _ _ Hinv) HA')
    as (vss1 & E1 & Hv1).
  { intros sh Hsh. apply elem_of_dom. rewrite (li_dom _ _ _ _ Hinv). eapply Hdom; [apply Hsub; by left|done]. }
  assert (Hinv1 : loop_inv A' s pool vss1) by (destruct Hinv; by split).
  destruct (inner_ok (S (length (indirectVersions_ s))) v A' s pool vss1 (Some x)) as
    (s2 & pool2 & vss2 & it2 & E2 & Hinv2 & Hup2 & Hit2); [done..|lia| |].
  { intros y _. unfold unvisited. apply Nat.lt_succ_r. rewrite filter_length_le. done. }
  assert (Eb : outer_body (s, pool, vss, Some x) (v, step) = Ret (s2, pool2, vss2, it2)).
  { unfold outer_body. cbn [fst snd]. rewrite small_earlier, (proj2 (Z.ltb_ge _ _)) by (unfold small in Hsmall; cbn; lia).
    cbn [negb CHECK mbind outcome_bind fst snd]. rewrite (si_sched _ _ _ Hi), E1. exact E2. }
  cbn [foldM]. rewrite Eb. cbn [mbind outcome_bind].
  apply (IH (v + 1) A'); try done; [set_solver|lia|lia|]. intros u Hu. apply Hm'. lia.
Qed.
End Inner.

(** The state before the first version. *)
Lemma start_ok sched s pool :
  core_inv sched s pool -> labels_ours sched (cur_version s) pool ->
  loop_inv sched (history_ s) pool (cur_version s) ∅ s pool [] /\
  caught_up (history_ s) pool pool (head (indirectVersions_ s)).
Proof.
  intros Hcore Hours. pose proof (proj1 Hcore) as Hi. split.
  { split; try done; [split; [by rewrite elements_empty|constructor]|].
    intros shard w0 w Hw0 Hw. rewrite Hw0 in Hw. injection Hw as <-. split; [by destruct w0|].
    destruct (indirectWorkerSetID_ w0) as [i|] eqn:Ei; [|done]. split_and!; [lia|by eapply derives_own|done]. }
  assert (Hin : forall x, x ∈ indirectVersions_ s -> ahead (head (indirectVersions_ s)) x).
  { pose proof (si_sorted _ _ _ Hi) as Hs. intros x Hx. destruct Hs as [|y l _ Hall]; [by apply not_elem_of_nil in Hx|].
    apply elem_of_cons in Hx as [->|Hx]; [by left|right]. rewrite Forall_forall in Hall. by apply Hall. }
  intros shard w0 i0 w i Hw0 E0 Hw Ei. left. pose proof Hw0 as [Hw0' _]%live_map_lookup.
  rewrite Hw in Hw0'. injection Hw0' as ->. rewrite E0 in Ei. injection Ei as <-. split; [done|]. apply Hin.
  rewrite (si_indirect _ _ _ Hi), list_elem_of_omap. exists (shard, w0). split; [by apply elem_of_map_to_list|].
  unfold entry. cbn. by rewrite E0.
Qed.

(** C14: The round of propagation trips no check and changes no more than the
    indirect sets of workers that are not lost.  A new set is never earlier
    than the old one, and the worker does depend on it: it comes from a worker
    in one of the sets the worker depends on.  In the other direction no
    dependency of one step is missed: the worker ends up with a set at least as
    late as that of every worker in its old set, lost ones included. *)
Theorem propagation_exact sched s pool M :
  core_inv sched s pool -> history_ok s M -> labels_ours sched (cur_version s) pool ->
  (forall shard w id, live_map pool !! shard = Some w -> workerSetID_ w = Some id ->
     cur_version s - Z.of_nat (length (history_ s)) + 1 <= ws_version id) ->
  (forall shard w id v A, live_map pool !! shard = Some w -> workerSetID_ w = Some id ->
     ws_version id <= v -> members_at ∅ (history_ s) v = Ret A -> shard ∈ A) ->
  (forall v step shard, (v, step) ∈ history_ s -> removed step = Some shard \/ shard ∈ added step -> shard ∈ dom pool) ->
  exists s' pool', propagateIndirectWorkerSets s pool = Ret (s', pool') /\
    core_inv sched s' pool' /\ history_ok s' M /\ labels_ours sched (cur_version s') pool' /\
    history_ s' = history_ s /\ dom pool' = dom pool /\
    forall shard w w', pool !! shard = Some w -> pool' !! shard = Some w' ->
      raised (history_ s) pool shard w w' /\
      forall id id' A shard1 w1 id1, getState w <> MUST_DIE ->
        indirectWorkerSetID_ w = Some id -> indirectWorkerSetID_ w' = Some id' ->
        members_at ∅ (history_ s) (ws_version id) = Ret A -> shard1 ∈ A ->
        pool !! shard1 = Some w1 -> indirectWorkerSetID_ w1 = Some id1 -> ws_version id1 <= ws_version id'.
Proof.
  intros Hcore Hok Hours Hold Hmem Hdom. pose proof (proj1 Hcore) as Hi. pose proof Hok as [Hv Ho Hm].
  set (oldest := cur_version s - Z.of_nat (length (history_ s)) + 1) in *.
  destruct (start_ok sched s pool Hcore Hours) as [Hinv Hup].
  assert (Hit : it_ok oldest s (head (indirectVersions_ s))).
  { intros x Hx. assert (Hx' : x ∈ indirectVersions_ s) by (destruct (indirectVersions_ s); [done|injection Hx as ->; by left]).
    split; [done|]. destruct (indirect_entry sched s pool x Hcore Hx') as (w & id & Hw & Hd & _ & -> & _ & cu & Ec & Hle).
    cbn. specialize (Hold x.2 w cu). rewrite live_map_lookup in Hold. specialize (Hold (conj Hw Hd) Ec). lia. }
  destruct (outer_ok sched (history_ s) pool (cur_version s) Hmem Hdom (history_ s) oldest ∅ M s pool []
    (head (indirectVersions_ s))) as (s' & pool' & vss & it & A & E & Hinv' & Hup' & Hit'); try done; [lia|].
  pose proof (li_core _ _ _ _ _ _ _ _ Hinv') as Hcore'. pose proof (li_cur _ _ _ _ _ _ _ _ Hinv') as Ec.
  pose proof (li_history _ _ _ _ _ _ _ _ Hinv') as Eh. pose proof (li_ours _ _ _ _ _ _ _ _ Hinv') as Ho'.
  assert (it = None) as ->.
  { destruct it as [x|]; [exfalso|done]. destruct (Hit' x eq_refl) as [Hx Hlt].
    destruct (indirect_entry sched s' pool' x Hcore' Hx) as (w & id & Hw & _ & Ei & Ex & _).
    destruct (Ho' _ _ _ Hw Ei) as [_ Hb]. rewrite Ex in Hlt. cbn in Hlt. lia. }
  exists s', pool'. split_and!; [|done|by split; rewrite ?Ec, ?Eh|by rewrite Ec|done|by apply Hinv'|].
  - unfold propagateIndirectWorkerSets. rewrite E. cbn [mbind outcome_bind]. by rewrite bool_decide_true.
  - intros shard w w' Hw Hw'. split; [by eapply (li_raised _ _ _ _ _ _ _ _ Hinv')|].
    intros id id' A' sh1 w1 id1 Hd Eid Eid' HA' Hsh1 Hw1 Eid1.
    destruct (Hup' shard w id w' id') as [[_ []]|Hdone]; [by apply live_map_lookup|done..|]. by eapply Hdone.
Qed.

(** ** Samples *)

(** A heartbeat that [heartbeat_ok] allows. *)
Definition sample_okb (rs : RemoteWorkers) (p : BistroWorker * WorkerSetID) : bool :=
  (bw_protocolVersion p.1 =? kProtocolVersion) && (cur_version (sets_ rs) + 4 <? 2 ^ 62) &&
  (negb (bool_decide (ws_schedulerID p.2 = sample_sched)) ||
   (0 <=? ws_version p.2) && (ws_version p.2 <=? cur_version (sets_ rs)) &&
   match workerPool_ rs !! bw_shard p.1 with
   | None => true
   | Some w => negb (bool_decide (getState w = MUST_DIE)) &&
       match workerSetID_ w with Some cur => negb (ws_version cur =? ws_version p.2) | None => true end
   end).

Fixpoint sample_run (u : RemoteWorkerUpdate) (rs : RemoteWorkers) (beats : list (BistroWorker * WorkerSetID))
    : option RemoteWorkers :=
  match beats with
  | [] => Some rs
  | p :: beats' =>
      if sample_okb rs p then match sample_beats u rs [p] with Ret rs => sample_run u rs beats' | _ => None end
      else None
  end.

Lemma sample_run_inv u rs beats rs' :
  rws_inv sample_sched rs -> sample_run u rs beats = Some rs' -> rws_inv sample_sched rs'.
Proof.
  revert rs. induction beats as [|[bw id] beats IH]; intros rs Hi; cbn [sample_run]; [by intros [= <-]|].
  destruct (sample_okb rs (bw, id)) eqn:E; [|done]. unfold sample_okb in E. cbn [fst snd] in E. bprop.
  destruct (sample_beat rs u bw id Hi) as (rs1 & -> & Hi1); [|lia|lia|by apply IH].
  intros Hs. rewrite bool_decide_true in * by done. cbn [negb orb] in *. bprop. split; [lia|]. intros w Hw.
  rewrite Hw in *. bprop. split; [|done]. intros cur Ec. rewrite Ec in *. bprop. lia.
Qed.

Definition sample_bw_c : BistroWorker :=
  mkBistroWorker "shard_c" (mkMachinePortLock "host_c" 1) (mkServiceAddress "host_c" 1)
    (mkInstanceID 56 9) 15 kProtocolVersion noUsableResources.

(** [shard] echoes the set with [shard_b], and [shard_b] that with [shard_c]. *)
Definition sample_chain : option RemoteWorkers :=
  sample_run (newUpdate 100) (newRemoteWorkers 90 sample_sched)
    [(sample_bw 1 50, sample_set 3 9); (sample_bw_b, sample_set 3 9);
     (sample_bw 1 50, mkWorkerSetID sample_sched 2 sample_hash); (sample_bw_c, sample_set 3 9);
     (sample_bw_b, mkWorkerSetID sample_sched 3 sample_hash)].

Definition versions_of (pool : gmap string RemoteWorker) : gmap string (option Z * option Z * bool) :=
  (fun w => (ws_version <$> workerSetID_ w, ws_version <$> indirectWorkerSetID_ w,
             bool_decide (getState w = MUST_DIE))) <$> pool.

Definition chain_history : list (Z * HistoryStep) :=
  [(1, mkStep None {["shard"]}); (2, mkStep None {["shard_b"]}); (3, mkStep None {["shard_c"]})].

Definition sample_ours (w : RemoteWorker) : bool :=
  match indirectWorkerSetID_ w with
  | Some id => bool_decide (ws_schedulerID id = sample_sched) && (0 <=? ws_version id) && (ws_version id <=? 3)
  | None => true
  end.

Lemma chain_facts :
  match sample_chain with
  | Some rs => history_ (sets_ rs) = chain_history /\ cur_version (sets_ rs) = 3 /\
      versions_of (workerPool_ rs) = list_to_map [("shard", (Some 2, Some 2, false));
        ("shard_b", (Some 3, Some 3, false)); ("shard_c", (None, None, false))] /\
      forallb (fun p => sample_ours p.2) (map_to_list (workerPool_ rs)) = true
  | None => False
  end.
Proof. vm_compute. split_and!; reflexivity. Qed.

Lemma chain_members v :
  2 <= v -> members_at ∅ chain_history v =
    Ret (if 3 <=? v then {["shard"; "shard_b"; "shard_c"]} else {["shard"; "shard_b"]}).
Proof.
  intros Hv. unfold chain_history. cbn [members_at]. rewrite !(proj2 (Z.leb_le _ v)) by lia.
  destruct (3 <=? v); vm_compute; reflexivity.
Qed.

(** The workers of the chain, by what they know. *)
Lemma chain_worker pool shard w :
  versions_of pool = list_to_map [("shard", (Some 2, Some 2, false));
    ("shard_b", (Some 3, Some 3, false)); ("shard_c", (None, None, false))] ->
  pool !! shard = Some w ->
  (shard = "shard" /\ ws_version <$> workerSetID_ w = Some 2) \/
  (shard = "shard_b" /\ ws_version <$> workerSetID_ w = Some 3) \/
  (shard = "shard_c" /\ workerSetID_ w = None).
Proof.
  intros Hv Hw. assert (Hs : versions_of pool !! shard = Some (ws_version <$> workerSetID_ w,
    ws_version <$> indirectWorkerSetID_ w, bool_decide (getState w = MUST_DIE)))
    by (unfold versions_of; by rewrite lookup_fmap, Hw).
  rewrite Hv in Hs. apply elem_of_list_to_map_2 in Hs.
  rewrite !elem_of_cons in Hs. destruct Hs as [[= -> Hs _ _]|[[= -> Hs _ _]|[[= -> Hs _ _]|Hs]]]; [auto..| |set_solver].
  right; right. split; [done|]. by destruct (workerSetID_ w).
Qed.

Lemma propagation_exact_witness :
  exists rs s' pool' w', sample_chain = Some rs /\
    propagateIndirectWorkerSets (sets_ rs) (workerPool_ rs) = Ret (s', pool') /\
    core_inv sample_sched s' pool' /\ pool' !! "shard" = Some w'.
Proof.
  pose proof chain_facts as Hf. destruct sample_chain as [rs|] eqn:E; [|destruct Hf]. destruct Hf as (Hh & Hc & Hv & Ho).
  pose proof (sample_run_inv _ _ _ _ (newRemoteWorkers_inv 90 sample_sched) E) as [Hcore _]. clear E.
  pose proof (fun shard w => chain_worker (workerPool_ rs) shard w Hv) as Hw.
  assert (Hdom : dom (workerPool_ rs) = {["shard"; "shard_b"; "shard_c"]})
    by (rewrite <- (dom_fmap_L (fun w => (ws_version <$> workerSetID_ w, ws_version <$> indirectWorkerSetID_ w,
          bool_decide (getState w = MUST_DIE)))); fold (versions_of (workerPool_ rs)); rewrite Hv; vm_compute; reflexivity).
  destruct (propagation_exact sample_sched (sets_ rs) (workerPool_ rs) {["shard"; "shard_b"; "shard_c"]})
    as (s' & pool' & Er & Hcore' & _ & _ & _ & Hdom' & _); [exact Hcore|..].
  - split; rewrite ?Hc, ?Hh; [reflexivity|cbn; lia|by apply (chain_members 3)].
  - intros shard w id Hin Ei. rewrite forallb_forall in Ho.
    specialize (Ho (shard, w) (proj1 (list_elem_of_In _ _) (proj2 (elem_of_map_to_list _ _ _) Hin))).
    unfold sample_ours in Ho. cbn in Ho. rewrite Ei in Ho. bprop. split; [done|lia].
  - intros shard w id [Hin _]%live_map_lookup Ei. rewrite Hh, Hc. cbn [length chain_history].
    destruct (Hw shard w Hin) as [[_ E']|[[_ E']|[_ E']]]; rewrite Ei in E'; [|..|done]; injection E' as ->; lia.
  - intros shard w id v A [Hin _]%live_map_lookup Ei Hle. rewrite Hh.
    destruct (Hw shard w Hin) as [[-> E']|[[-> E']|[_ E']]]; rewrite Ei in E'; [|..|done]; injection E' as Eid;
      rewrite chain_members by lia; intros [= <-]; destruct (3 <=? v); set_solver.
  - intros v step shard. rewrite Hh, Hdom. unfold chain_history. rewrite !elem_of_cons.
    intros [[= -> ->]|[[= -> ->]|[[= -> ->]|Hin]]]; cbn; [set_solver..|by apply not_elem_of_nil in Hin].
  - assert (Hs : "shard" ∈ dom pool') by (rewrite Hdom', Hdom; set_solver). apply elem_of_dom in Hs as [w' Hw'].
    exists rs, s', pool', w'. split_and!; [reflexivity|exact Er|exact Hcore'|exact Hw'].
Defined.

(** [shard] learns of the third set through [shard_b]. *)
Theorem chain_propagates :
  match sample_chain with
  | Some rs => match propagateIndirectWorkerSets (sets_ rs) (workerPool_ rs) with
      | Ret (_, pool) => versions_of pool = list_to_map [("shard", (Some 2, Some 3, false));
          ("shard_b", (Some 3, Some 3, false)); ("shard_c", (None, None, false))]
      | _ => False
      end
  | None => False
  end.
Proof. vm_compute. reflexivity. Qed.
